(* ===== verification/_CoqProject ===== *)
-Q . S2P
Prelude.v
Errno.v
RingBuf.v
CString.v
CLib.v
Qsort.v
Format.v
Calendar.v
Lock.v
PageAllocator.v
Paging.v
PagingClone.v
RangeAllocator.v
Kmalloc.v
GrowableBuf.v
Kernel.v
Inode.v
Path.v
Tmpfs.v
Listing.v
Process.v
Scheduler.v
Fifo.v
Socket.v
Scheduling.v
Fs.v
Vfs.v
SyscallFs.v
SyscallSocket.v
SyscallProcess.v
Lifecycle.v
Syscalls.v
Invariant.v
Exec.v
Malloc.v
Console.v
EventQueue.v
Keyboard.v
Mouse.v
Shell.v
ShellParser.v
Libc.v
Programs.v
Interrupts.v
Cmdline.v
Initrd.v
ShellRun.v
ShellWiring.v
Pci.v
Ports.v
Sound.v
Serial.v
Procfs.v
Dirent.v
Boot.v
Qoi.v
Play.v
Psf.v
Redraw.v
Screen.v
