(* ===== verification/Prelude.v ===== *)
(** * A verification development for the Chaotix kernel and its libraries

    Chaotix is a small UNIX-like system for the i686: a monolithic kernel
    (src/kernel), a C library shared by kernel and programs (src/common), and a
    userland (src/userland). The development translates the parts of the kernel
    that decide something into executable definitions and proves what they do.

    ** How C is read

    Machine integers are [Z] with their wrap-around ([u32], [s32], [u8], ...).
    Stateful code is a computation [K S A] over a record [S] of the state; it
    returns, or ends in [Panic] (a failed ASSERT, PANIC, UNREACHABLE,
    UNIMPLEMENTED), in [Undef] (an access outside its object or through a null or
    freed pointer), or in [OutOfFuel]. [wp m Q s] is total correctness: [m]
    returns from [s], in [Q]. An out-parameter or a buffer that a function fills
    is part of its result; a pointer that a system call gets is the value behind
    it. Heap objects are numbers into maps from which a freed object is gone.
    kmalloc, where its addresses do not matter, answers from a list of grants in
    the state, so that theorems hold for every pattern of failures.

    ** Parts, files and how they interact

    The C library, shared by kernel and programs:
    - Prelude (this file): integers, the monad and its rules, lists, arrays.
    - Errno: kernel/api/errno.h and err.h, the error values all calls return.
    - RingBuf: kernel/ring_buf.c, as a bounded queue; used by fifos, sockets and
      consoles.
    - CString, CLib: common/string.c, strings.c, ctype.h, stdlib.c, stdio.c,
      libgen.c on byte memory; strtok_all is the token loop of the path code.
    - Qsort: the sort of common/stdlib.c. Format: vsnprintf against a reference
      function, and growable_buf_printf over it.
    - Calendar: common/calendar.h, kernel/time.c, the clock system calls, the
      CMOS clock reading and userland/lib/time.c.

    Memory:
    - Lock: kernel/lock.c, as a step relation of interleaved processes (mutual
      exclusion by rule induction) and as the sequential computations the other
      files use.
    - PageAllocator: kernel/memory/page_allocator.c; its contract is the class
      [PageAlloc], against which Paging is proved.
    - Paging, PagingClone: kernel/memory/paging.c with two-level tables, quick
      mappings and the copy of tables at fork; its contract for the address
      allocator is the class [Vm].
    - RangeAllocator: kernel/memory/range_allocator.c over [Vm].
    - Kmalloc: kernel/memory/kmalloc.c on byte memory.
    - GrowableBuf: kernel/growable_buf.c, as a file of bytes.

    Files, processes, sockets, on one state:
    - Kernel: the state that these files share: inodes, descriptions, mutexes,
      processes, queues (kernel/fs/fs.h, kernel/process.h).
    - Inode: reference and link counts, destruction, directory entries
      (kernel/fs/fs.c, dentry.c).
    - Path, Vfs: kernel/fs/vfs.c: component lists, canonical paths, mounts,
      devices, resolution, creation, opening.
    - Tmpfs, Listing, Fifo, Fs: kernel/fs/tmpfs.c, the listing of directories of
      dentry.c, fifo.c, the character devices of kernel/pseudo_device.c and
      random.c, and the dispatch through the tables of operations and the
      descriptions (kernel/fs/fs.c).
    - Procfs: kernel/fs/procfs: the texts of /proc over Format and GrowableBuf,
      and the listings over Listing and the list of processes.
    - Process, Scheduler: kernel/process.c, kernel/scheduler.c; Scheduling proves
      what the scheduler does over turns.
    - Socket, SyscallSocket: kernel/unix_socket.c and kernel/syscall/socket.c.
    - SyscallFs, SyscallProcess: kernel/syscall/fs.c and process.c; Lifecycle:
      how processes are created, and what fork, exit and wait do together;
      Syscalls: the dispatch of kernel/syscall/syscall.c over all of them.
    - Invariant: the state typed by its inodes, descriptions and processes, and
      every state that calls of the file system can reach.
    - Exec: kernel/syscall/exec.c and mmap.c, loading a program and building its
      stack, over the classes [UserMem] (memory of the program) and [PageDirs]
      (page directories), which Paging's mmu instantiates.
    - Cmdline, Initrd, Boot: kernel/cmdline.c, kernel/fs/initrd.c, and the calls of
      kernel/main.c that build the file systems and the first processes.

    Devices:
    - Interrupts: kernel/gdt.c, idt.c, irq.c, pit.c: descriptors, handlers,
      exceptions, the timer.
    - Pci: kernel/pci.c over configuration registers, with the bus as a parameter.
    - Ports: the port instructions and the calls of the interrupt controller that
      the drivers use, as the class [Ports]; Sound: kernel/ac97.c, the ring of
      buffers of the sound device, over Ports and Pci; Serial: kernel/serial.c and
      kprintf.c, bytes from and to the serial ports, over Ports and the consoles of
      Keyboard.
    - EventQueue: the rings of events of the input devices; Keyboard:
      kernel/hid/keyboard.c, the input half of kernel/console/fb_console.c,
      tty.c and serial_console.c, from scan codes to readers; Mouse:
      kernel/hid/mouse.c.
    - Console: the character machine of fb_console.c (cursor, attributes, escape
      sequences, scrolling) on an array of cells; Redraw: which lines its
      operations mark; Psf: the fonts of kernel/console/psf.c; Screen: the pixels
      and the write operation of /dev/tty over all three.

    Userland:
    - Libc: userland/lib: the wrappers of the system calls over the kernel's own
      functions, streams, environment, random numbers; Dirent: directory streams;
      Malloc: the heap, over the class [MemCalls], whose operations the
      calls of Exec are; the laws it is proved from hold of a memory of pages.
    - Shell, ShellParser, ShellRun, ShellWiring: userland/sh.c: the line editor,
      the parser, the walk over the tree of commands as a process that makes
      calls, and the way from a line to the programs.
    - Programs: the loops of cat, cp and wc; Qoi: the picture viewer; Play: the
      player of sounds (userland/play.c), its decoder of QOA files.

    ** What the theorems show

    Memory: allocation, reference counting and boot-time initialisation of pages
    keep the invariant that the bitmap, the counts and the statistics agree, and
    after boot exactly the reported memory outside the kernel image and the modules
    is free; mapping, unmapping and copying tables have exact effects on every
    virtual address and on the count of every page; the address allocator is first fit and joins free neighbours; the
    heap's headers are found again, and the heap of a program refines a map of
    separate arrays. Files: resolving a path comes to the inode of an abstract
    walk and counts references exactly, on error paths too; a canonical path is
    normal and idempotent; unlinking, reading and writing have exact effects on
    the whole state; a pipe delivers what was written; listings hand out every
    entry once, through any number of calls; unpacking the initial archive makes
    the files it was written for; dropping references ends on every graph of
    inodes; every reachable state is typed. Sockets: the list of waiting
    connections refines a bounded queue, and a connection is a stream of bytes.
    Processes: signals on every branch; a fork, the exit of the child and the
    wait leave the kernel as it was; a switch wakes exactly the processes whose
    signal or condition is there and changes only what it names; the ready queue is
    fair, so that a ready process runs; the stack of a new program holds its arguments and environment
    where the convention puts them. Synchronisation: a mutex has one holder under
    every interleaving. Devices: exceptions end the program, whose children, descriptions and place in
    the queue are accounted for, or stop the machine;
    the enumeration of the PCI bus visits every function once; what is typed on the keys of a
    keyboard with the US layout is what is read, movements of the mouse as well; the console stays in its array
    of cells, and after every write the screen shows its cells, pixel by pixel; a
    write to the sound device queues its bytes in order and leaves the buffers
    that wait to be played; the serial ports send every byte of a message and pass
    on every byte that they received.
    Shell: the line editor refines a text with a cursor; the parser is total and
    accepts the language of a grammar; running a line runs its programs, each with
    the whole table of descriptors that its pipes and redirections give it (the
    copies that the shell does not close are in it), and leaves the descriptors of
    the shell as they were. Library: functional
    specifications of string, formatting, sorting, number and calendar code.
    Round trips with reference writers: fonts, pictures, sounds, archives. Theorems and
    examples about faults state what the code does (a panic, a use after free, a
    leak, a wrong header) on the inputs that show it.

    ** Fuel

    Loops over data are structural. inode_unref recurses through destructors with
    fuel [size of the inode map], shown to be enough for every state; signal
    handling has 33 rounds for 32 bits; string loops have the length of memory;
    make_sure_directory_is_empty may double its buffer 32 times although once is
    enough, and a reader of a directory 8 times from 1024 bytes, which holds any
    entry; the retry loops of fifos and create_inode have one round because a
    second needs another process to run in between; scheduler_unregister takes
    its fuel as an argument because it does not end when it finds its process.
    The reading of key events has one round for each place of their queue; the
    parser of the shell has one round for each byte of its line, and every round
    takes a byte; the loop over the words of the command line has 1025, one more
    than bytes of its buffer. The bus enumeration recurses at most 256 deep, the
    number of buses; growable_buf_printf has 24 rounds, of which 21 doublings
    reach the end of the address space; the sort has one more than its elements;
    the unpacking of the archive one more than its entries; the table of a font
    more than its longest list of characters; waiting one for each process in the
    list. Waiting for room in the ring of the sound device has one round, because
    room comes from the device only; the serial receiver has one more round than
    bytes that are waiting, and its transmitter as many as its answers let it
    wait; the frames of a sound file one more than its bytes.

    ** Not modelled

    Assembly and the hardware set-up around it (boot, interrupt stubs, context
    switches, the loading of tables, the commands that start devices); registers,
    page directories and stacks of processes as part of their record (Exec and
    Paging have them on their own); the graphics drivers, whose effect is
    on device registers; the inodes behind the files of /proc; the choice of the
    consoles at boot; the message tables of the C library; the user programs
    other than those named above; the tests. A computation stops where a process
    would wait for another one. Reference counters of descriptors are kept at 32
    bits; freed virtual addresses are not reused in the grant model. *)
From stdpp Require Export base tactics list numbers option gmap.
From Stdlib Require Export ZArith Lia.
From Stdlib Require Ascii String.
Export Ascii.AsciiSyntax String.StringSyntax.

#[global] Open Scope Z_scope.

(** ** Machine integers

    Integers of the program are kept as [Z] together with the wrap-around of
    their C type: [u32] for [unsigned], [size_t], [uintptr_t] and [uint32_t],
    [s32] for [int], [long] and [ssize_t], [u8]/[schar] for the two readings of
    a byte (plain [char] is signed on the i686 target). *)

Definition U32 : Z := 4294967296.
Definition u32 (x : Z) : Z := x mod U32.
Definition s32 (x : Z) : Z := if u32 x <? 2147483648 then u32 x else u32 x - U32.
Definition u16 (x : Z) : Z := x mod 65536.
Definition u8 (x : Z) : Z := x mod 256.
Definition schar (x : Z) : Z := if u8 x <? 128 then u8 x else u8 x - 256.
Definition SIZE_MAX : Z := U32 - 1.

Lemma u32_range x : 0 ≤ u32 x < U32.
Proof. unfold u32, U32. apply Z.mod_pos_bound. lia. Qed.
Lemma u32_small x : 0 ≤ x < U32 → u32 x = x.
Proof. apply Z.mod_small. Qed.
Lemma u32_idem x : u32 (u32 x) = u32 x.
Proof. apply u32_small, u32_range. Qed.
Lemma s32_range x : -2147483648 ≤ s32 x < 2147483648.
Proof. unfold s32. pose proof (u32_range x). unfold U32 in *. case_match; lia. Qed.
Lemma s32_small x : -2147483648 ≤ x < 2147483648 → s32 x = x.
Proof.
  unfold s32, u32, U32. intros H. destruct (decide (0 ≤ x)).
  - rewrite Z.mod_small by lia. case_match; lia.
  - replace (x mod 4294967296) with (x + 4294967296).
    + case_match; lia.
    + apply (Z.mod_unique_pos _ _ (-1)); lia.
Qed.
Lemma u8_range x : 0 ≤ u8 x < 256.
Proof. unfold u8. apply Z.mod_pos_bound. lia. Qed.
Lemma u8_small x : 0 ≤ x < 256 → u8 x = x.
Proof. apply Z.mod_small. Qed.
Lemma schar_range x : -128 ≤ schar x < 128.
Proof. unfold schar. pose proof (u8_range x). case_match; lia. Qed.
(** Reading a byte as a signed character loses nothing. *)
Lemma schar_inj x y : 0 ≤ x < 256 → 0 ≤ y < 256 → schar x = schar y → x = y.
Proof.
  unfold schar. intros Hx Hy. rewrite !u8_small by done.
  repeat case_match; lia.
Qed.
Lemma schar_zero x : 0 ≤ x < 256 → schar x = 0 ↔ x = 0.
Proof. unfold schar. intros. rewrite u8_small by done. case_match; lia. Qed.

(** Character constants and string literals of the source. *)
Definition ch (a : Ascii.ascii) : Z := Z.of_N (Ascii.N_of_ascii a).
Definition lit (s : String.string) : list Z := ch <$> String.list_ascii_of_string s.
#[global] Arguments ch a%_char_scope.
#[global] Arguments lit s%_string_scope.

(** ** Computations

    A computation over a state [S] either returns, stops the machine ([Panic]:
    a failed [ASSERT], [PANIC], [UNREACHABLE], [UNIMPLEMENTED]), has no meaning
    in C ([Undef]: an access outside its object, a null dereference), or, for a
    loop cut by a fuel argument, runs out of fuel. *)

Inductive outcome (S A : Type) : Type :=
  | Done (a : A) (s : S)
  | Panic
  | Undef
  | OutOfFuel.
Arguments Done {S A} a s.
Arguments Panic {S A}.
Arguments Undef {S A}.
Arguments OutOfFuel {S A}.

Definition K (S A : Type) : Type := S → outcome S A.

#[global] Instance K_ret {S} : MRet (K S) := λ A a s, Done a s.
#[global] Instance K_bind {S} : MBind (K S) := λ A B f m s,
  match m s with
  | Done a s' => f a s'
  | Panic => Panic
  | Undef => Undef
  | OutOfFuel => OutOfFuel
  end.

Definition get {S} : K S S := λ s, Done s s.
Definition gets {S A} (f : S → A) : K S A := λ s, Done (f s) s.
Definition put {S} (s : S) : K S unit := λ _, Done tt s.
Definition modify {S} (f : S → S) : K S unit := λ s, Done tt (f s).
Definition panic {S A} : K S A := λ _, Panic.
Definition undef {S A} : K S A := λ _, Undef.
Definition out_of_fuel {S A} : K S A := λ _, OutOfFuel.
(** [ASSERT(cond)] of kernel/panic.h. *)
Definition ASSERT {S} (b : bool) : K S unit := if b then mret tt else panic.
(** An access that C leaves undefined unless it finds its object. *)
Definition access {S A} (o : option A) : K S A :=
  match o with Some a => mret a | None => undef end.
Definition when {S} (b : bool) (m : K S unit) : K S unit := if b then m else mret tt.

(** A computation of a part of the state, run inside the whole. *)
Definition zoom {S T A} (proj : S → T) (inj : T → S → S) (m : K T A) : K S A := λ s,
  match m (proj s) with
  | Done a t => Done a (inj t s)
  | Panic => Panic
  | Undef => Undef
  | OutOfFuel => OutOfFuel
  end.

(** ** Total correctness

    [wp m Q s]: run from [s], the computation [m] returns (no panic, no
    undefined behaviour, no missing fuel) with a value and a state in [Q]. *)
Definition wp {S A} (m : K S A) (Q : A → S → Prop) (s : S) : Prop :=
  match m s with Done a s' => Q a s' | _ => False end.

Section wp.
Context {S : Type}.
Implicit Types s : S.

Lemma wp_done {A} (m : K S A) Q s : wp m Q s ↔ ∃ a s', m s = Done a s' ∧ Q a s'.
Proof. unfold wp. destruct (m s); naive_solver. Qed.
Lemma wp_ret {A} (a : A) (Q : A → S → Prop) s : Q a s → wp (mret a) Q s.
Proof. done. Qed.
Lemma wp_bind {A B} (m : K S A) (f : A → K S B) Q s :
    wp m (λ a s', wp (f a) Q s') s → wp (m ≫= f) Q s.
Proof. unfold wp, mbind, K_bind. destruct (m s); done. Qed.
Lemma wp_assoc {A B C} (m : K S A) (f : A → K S B) (g : B → K S C) Q s :
    wp ((m ≫= f) ≫= g) Q s → wp (m ≫= λ a, f a ≫= g) Q s.
Proof. unfold wp, mbind, K_bind. by destruct (m s). Qed.
Lemma wp_mono {A} (m : K S A) (Q Q' : A → S → Prop) s :
    wp m Q s → (∀ a s', Q a s' → Q' a s') → wp m Q' s.
Proof. unfold wp. destruct (m s); naive_solver. Qed.
Lemma wp_get (Q : S → S → Prop) s : Q s s → wp get Q s.
Proof. done. Qed.
Lemma wp_gets {A} (f : S → A) Q s : Q (f s) s → wp (gets f) Q s.
Proof. done. Qed.
Lemma wp_put s' (Q : unit → S → Prop) s : Q tt s' → wp (put s') Q s.
Proof. done. Qed.
Lemma wp_modify f (Q : unit → S → Prop) s : Q tt (f s) → wp (modify f) Q s.
Proof. done. Qed.
Lemma wp_ASSERT b (Q : unit → S → Prop) s : b = true → Q tt s → wp (ASSERT b) Q s.
Proof. by intros ->. Qed.
Lemma wp_access {A} (o : option A) a Q s : o = Some a → Q a s → wp (access o) Q s.
Proof. by intros ->. Qed.
Lemma wp_when (b : bool) m (Q : unit → S → Prop) s :
    (b = true → wp m Q s) → (b = false → Q tt s) → wp (when b m) Q s.
Proof. destruct b; simpl; [auto|]. intros _ H. by apply H. Qed.
Lemma wp_if {A} (b : bool) (m1 m2 : K S A) Q s :
    (b = true → wp m1 Q s) → (b = false → wp m2 Q s) → wp (if b then m1 else m2) Q s.
Proof. destruct b; auto. Qed.
Lemma wp_run {A} (m : K S A) a s' s (Q : A → S → Prop) :
    m s = Done a s' → Q a s' → wp m Q s.
Proof. unfold wp. by intros ->. Qed.
End wp.

Lemma wp_zoom {S T A} (proj : S → T) (inj : T → S → S) (m : K T A) Q s :
  wp m (λ a t, Q a (inj t s)) (proj s) → wp (zoom proj inj m) Q s.
Proof. unfold wp, zoom. destruct (m (proj s)); done. Qed.

(** The state a computation ends in, for concrete runs. *)
Definition final {S A} (m : K S A) (s : S) : S :=
  match m s with Done _ s' => s' | _ => s end.
Lemma wp_final {S A} (m : K S A) (Q : S → Prop) s : wp m (λ _ s', Q s') s → Q (final m s).
Proof. unfold wp, final. by destruct (m s). Qed.

(** Run equations: how a sequence returns. *)
Lemma bind_Done {S A B} (m : K S A) (f : A → K S B) s b s'' :
  (m ≫= f) s = Done b s'' ↔ ∃ a s', m s = Done a s' ∧ f a s' = Done b s''.
Proof. unfold mbind, K_bind. destruct (m s); naive_solver. Qed.
Lemma bind_run {S A B} (m : K S A) (f : A → K S B) s a s' :
  m s = Done a s' → (m ≫= f) s = f a s'.
Proof. unfold mbind, K_bind. by intros ->. Qed.

(** [wp_step] takes one step of a computation in the goal; [wp_go] takes the
    steps that need no decision. *)
Ltac wp_step :=
  lazymatch goal with
  | |- wp (mret _) _ _ => apply wp_ret
  | |- wp (_ ≫= _) _ _ => apply wp_bind
  | |- wp get _ _ => apply wp_get
  | |- wp (gets _) _ _ => apply wp_gets
  | |- wp (put _) _ _ => apply wp_put
  | |- wp (modify _) _ _ => apply wp_modify
  | |- wp (access _) _ _ => eapply wp_access; [first [eassumption | reflexivity | idtac] |]
  | |- wp (ASSERT _) _ _ => apply wp_ASSERT
  | |- wp (zoom _ _ _) _ _ => apply wp_zoom
  | |- wp (when _ _) _ _ => apply wp_when; intros
  | |- wp (if _ then _ else _) _ _ => apply wp_if; intros
  end.
Ltac wp_go :=
  repeat (simpl;
    lazymatch goal with
    | |- wp (mret _) _ _ => apply wp_ret
    | |- wp (_ ≫= _) _ _ => apply wp_bind
    | |- wp get _ _ => apply wp_get
    | |- wp (gets _) _ _ => apply wp_gets
    | |- wp (put _) _ _ => apply wp_put
    | |- wp (modify _) _ _ => apply wp_modify
    | |- wp (zoom _ _ _) _ _ => apply wp_zoom
    end).

(** [wp_go] without simplification, for goals with a loop that must stay
    folded. *)
Ltac wp_keep :=
  repeat (cbv beta;
    lazymatch goal with
    | |- wp (mret _) _ _ => apply wp_ret
    | |- wp (_ ≫= _) _ _ => apply wp_bind
    | |- wp get _ _ => apply wp_get
    | |- wp (gets _) _ _ => apply wp_gets
    | |- wp (put _) _ _ => apply wp_put
    | |- wp (modify _) _ _ => apply wp_modify
    | |- wp (zoom _ _ _) _ _ => apply wp_zoom
    end).

(** A loop over a list of numbers. *)
Fixpoint for_each {S : Type} (l : list Z) (f : Z → K S unit) : K S unit :=
  match l with
  | [] => mret tt
  | n :: l => _ ← f n; for_each l f
  end.

Lemma for_each_run {S} (f : Z → K S unit) (g : Z → S → S) (l : list Z) s :
  (∀ n s, f n s = Done tt (g n s)) → for_each l f s = Done tt (foldl (λ s n, g n s) s l).
Proof.
  intros Hf. revert s. induction l as [|n l IH]; intros s; [done|]. cbn [for_each foldl].
  by rewrite (bind_run _ _ _ _ _ (Hf n s)).
Qed.
(** Boolean comparisons on [Z] and [nat] turned into propositions. *)
Ltac bool_to_prop :=
  repeat match goal with
  | H : (_ && _)%bool = true |- _ => apply andb_true_iff in H as [? ?]
  | H : (_ && _)%bool = false |- _ => apply andb_false_iff in H
  | H : (_ || _)%bool = true |- _ => apply orb_true_iff in H
  | H : (_ || _)%bool = false |- _ => apply orb_false_iff in H as [? ?]
  | H : negb _ = true |- _ => apply negb_true_iff in H
  | H : negb _ = false |- _ => apply negb_false_iff in H
  | H : (_ =? _)%Z = true |- _ => apply Z.eqb_eq in H
  | H : (_ =? _)%Z = false |- _ => apply Z.eqb_neq in H
  | H : (_ <? _)%Z = true |- _ => apply Z.ltb_lt in H
  | H : (_ <? _)%Z = false |- _ => apply Z.ltb_ge in H
  | H : (_ <=? _)%Z = true |- _ => apply Z.leb_le in H
  | H : (_ <=? _)%Z = false |- _ => apply Z.leb_gt in H
  | H : (_ =? _)%nat = true |- _ => apply Nat.eqb_eq in H
  | H : (_ =? _)%nat = false |- _ => apply Nat.eqb_neq in H
  | H : (_ <? _)%nat = true |- _ => apply Nat.ltb_lt in H
  | H : (_ <? _)%nat = false |- _ => apply Nat.ltb_ge in H
  | H : (_ <=? _)%nat = true |- _ => apply Nat.leb_le in H
  | H : (_ <=? _)%nat = false |- _ => apply Nat.leb_gt in H
  | H : bool_decide _ = true |- _ => apply bool_decide_eq_true in H
  | H : bool_decide _ = false |- _ => apply bool_decide_eq_false in H
  end.

(** Remove the wrap-arounds of the goal whose argument is in range, innermost
    first. *)
Ltac no_wrap :=
  repeat match goal with
  | |- context [u32 ?a] =>
      lazymatch a with context [u32 _] => fail | _ => idtac end;
      rewrite (u32_small a) by (unfold U32 in *; lia)
  end.

(** ** Lists *)
Section lists.
Context {A : Type}.
Implicit Types l k : list A.

  (** Replace the segment of [l] at [i] by [k]. *)
Definition splice (i : nat) k l : list A := take i l ++ k ++ drop (i + length k) l.

Lemma splice_nil i l : splice i [] l = l.
Proof. unfold splice. simpl. by rewrite Nat.add_0_r, take_drop. Qed.
Lemma length_splice i k l : (i + length k ≤ length l)%nat → length (splice i k l) = length l.
Proof. intros. unfold splice. rewrite !length_app, length_take, length_drop. lia. Qed.
(** Two segments written one after the other. *)
Lemma splice_splice (m k1 k2 : list A) d :
  (d + length k1 + length k2 ≤ length m)%nat →
  splice (d + length k1) k2 (splice d k1 m) = splice d (k1 ++ k2) m.
Proof.
  intros Hl. unfold splice.
  rewrite take_app_ge by (rewrite length_take; lia).
  rewrite length_take, Nat.min_l by lia.
  replace (d + length k1 - d)%nat with (length k1) by lia.
  rewrite take_app_le, firstn_all, <-!app_assoc by lia. do 3 f_equal.
  rewrite drop_app_ge, drop_app_ge by (rewrite ?length_take; lia).
  rewrite length_take, drop_drop, length_app. f_equal. lia.
Qed.
  (** The list built from elements written one after another. *)
Lemma insert_splice i x k l :
    (i < length l)%nat → splice (S i) k (<[i:=x]> l) = splice i (x :: k) l.
Proof.
    intros Hi. unfold splice. rewrite (take_S_r _ _ x).
    - rewrite (take_insert_ge l i i) by done. rewrite <-app_assoc. simpl.
      rewrite (drop_insert_lt l (S (i + length k)) i) by lia. do 4 f_equal. lia.
    - by rewrite list_lookup_insert_eq.
Qed.
Lemma splice_lookup_out i k l j :
    (i + length k ≤ length l)%nat → (j < i ∨ i + length k ≤ j)%nat →
    splice i k l !! j = l !! j.
Proof.
    intros Hlen Hj. unfold splice. destruct Hj as [Hj|Hj].
    - rewrite lookup_app_l by (rewrite length_take; lia). by apply lookup_take_lt.
    - rewrite lookup_app_r by (rewrite length_take; lia). rewrite length_take.
      rewrite lookup_app_r by lia. rewrite lookup_drop. f_equal. lia.
Qed.
Lemma splice_lookup_in i k l j :
    (i + length k ≤ length l)%nat → (i ≤ j < i + length k)%nat →
    splice i k l !! j = k !! (j - i)%nat.
Proof.
    intros Hlen Hj. unfold splice.
    rewrite lookup_app_r by (rewrite length_take; lia).
    rewrite length_take, lookup_app_l by lia. f_equal. lia.
Qed.
End lists.

#[global] Arguments splice : simpl never.

Lemma filter_ext_in {A} (P Q : A → Prop) `{∀ x, Decision (P x)} `{∀ x, Decision (Q x)}
    (l : list A) :
  (∀ x, x ∈ l → P x ↔ Q x) → filter P l = filter Q l.
Proof.
  induction l as [|x l IH]; intros Hl; [done|]. rewrite !filter_cons, IH by set_solver.
  destruct (Hl x) as [H1 H2]; [set_solver|]. repeat case_decide; tauto.
Qed.
Lemma filter_keep {A} (P : A → Prop) `{∀ x, Decision (P x)} (l : list A) :
  (∀ x, x ∈ l → P x) → filter P l = l.
Proof.
  induction l as [|x l IH]; intros Hl; [done|]. rewrite filter_cons, decide_True by (apply Hl; left).
  f_equal. apply IH. intros y Hy. apply Hl. by right.
Qed.
Lemma filter_drop {A} (P : A → Prop) `{∀ x, Decision (P x)} (l : list A) :
  (∀ x, x ∈ l → ¬ P x) → filter P l = [].
Proof.
  induction l as [|x l IH]; intros Hl; [done|]. rewrite filter_cons, decide_False by (apply Hl; left).
  apply IH. intros y Hy. apply Hl. by right.
Qed.
(** The elements that satisfy a predicate, when it changes at one of them. *)
Lemma filter_change {A} (P Q : A → Prop) `{∀ x, Decision (P x)} `{∀ x, Decision (Q x)}
    (l : list A) i :
  NoDup l → i ∈ l → P i → ¬ Q i → (∀ j, j ≠ i → P j ↔ Q j) →
  length (filter P l) = S (length (filter Q l)).
Proof.
  intros Hnd. induction Hnd as [|x l Hx Hnd IH]; intros Hi HP HQ Hiff; [set_solver|].
  rewrite !filter_cons. apply elem_of_cons in Hi as [->|Hi].
  - rewrite decide_True, decide_False by done. simpl. do 2 f_equal.
    apply filter_ext_in. intros j Hj. apply Hiff. by intros ->.
  - assert (x ≠ i) as Hxi by (by intros ->). destruct (decide (P x)).
    + rewrite decide_True by (by apply Hiff). simpl. f_equal. auto.
    + rewrite decide_False by (by rewrite <-Hiff). auto.
Qed.

(** ** Arrays

    A static array of [n] integers, all zero at first, as the map of the
    elements that were stored. *)
Abbreviation array := (gmap Z Z).
Definition aget (a : array) (i : Z) : Z := default 0 (a !! i).
Definition in_array (n i : Z) : bool := (0 <=? i) && (i <? n).

Lemma aget_empty i : aget ∅ i = 0.
Proof. unfold aget. by rewrite lookup_empty. Qed.
Lemma aget_insert (a : array) i v : aget (<[i := v]> a) i = v.
Proof. unfold aget. by rewrite lookup_insert_eq. Qed.
Lemma aget_insert_ne (a : array) i j v : i ≠ j → aget (<[i := v]> a) j = aget a j.
Proof. intros. unfold aget. by rewrite lookup_insert_ne. Qed.

(** ** Bits *)
Lemma testbit_high w k : 0 ≤ w < 2 ^ k → 0 ≤ k → ∀ j, k ≤ j → Z.testbit w j = false.
Proof.
  intros Hw Hk j Hj. destruct (decide (w = 0)) as [->|]; [apply Z.testbit_0_l|].
  apply Z.bits_above_log2; [lia|]. apply Z.log2_lt_pow2; [lia|].
  apply Z.lt_le_trans with (2 ^ k); [lia|]. apply Z.pow_le_mono_r; lia.
Qed.
(** The low part of an aligned word is free for flags. *)
Lemma lor_add a k b : 0 ≤ k → 0 ≤ b < 2 ^ k → Z.lor (a * 2 ^ k) b = a * 2 ^ k + b.
Proof.
  intros Hk Hb. symmetry.
  rewrite <-Z.shiftl_mul_pow2 by done. rewrite Z.add_nocarry_lxor, Z.lxor_lor; try done.
  all: apply Z.bits_inj'; intros j Hj; rewrite Z.land_spec, Z.bits_0, Z.shiftl_spec by done;
    destruct (decide (j < k)); [by rewrite Z.testbit_neg_r by lia|];
    rewrite (testbit_high b k) by lia; by rewrite andb_false_r.
Qed.
Lemma land_ones_mod a k : 0 ≤ k → Z.land a (Z.ones k) = a mod 2 ^ k.
Proof. apply Z.land_ones. Qed.

(** ** Hints *)
Create HintDb chaotix discriminated.
#[export] Hint Resolve u32_range s32_range u8_range schar_range : chaotix.
#[export] Hint Rewrite u32_idem @splice_nil : chaotix.
