(* ===== verification/Errno.v ===== *)
(** * Error numbers (kernel/api/errno.h) and error-valued results
    (kernel/api/err.h)

    The kernel returns a negated error number where a value is expected; a
    caller separates the two with [IS_ERR], which looks at the last
    [EMAXERRNO] values of the address space. *)
From S2P Require Import Prelude.

(** The enumeration of ENUMERATE_ERRNO, in order. *)
Inductive errno : Set :=
  | ESUCCESS
  | EPERM
  | ENOENT
  | ESRCH
  | EINTR
  | EIO
  | ENXIO
  | E2BIG
  | ENOEXEC
  | EBADF
  | ECHILD
  | EAGAIN
  | ENOMEM
  | EACCES
  | EFAULT
  | ENOTBLK
  | EBUSY
  | EEXIST
  | EXDEV
  | ENODEV
  | ENOTDIR
  | EISDIR
  | EINVAL
  | ENFILE
  | EMFILE
  | ENOTTY
  | ETXTBSY
  | EFBIG
  | ENOSPC
  | ESPIPE
  | EROFS
  | EMLINK
  | EPIPE
  | EDOM
  | ERANGE
  | ENOMSG
  | EDEADLK
  | ENOLCK
  | EPROTO
  | ENOSYS
  | ENOTEMPTY
  | ENAMETOOLONG
  | ELOOP
  | EOPNOTSUPP
  | EPFNOSUPPORT
  | ECONNRESET
  | ENOBUFS
  | EAFNOSUPPORT
  | EPROTOTYPE
  | ENOTSOCK
  | ENOPROTOOPT
  | ESHUTDOWN
  | ECONNREFUSED
  | EADDRINUSE
  | ECONNABORTED
  | ENETUNREACH
  | ENETDOWN
  | ETIMEDOUT
  | EHOSTDOWN
  | EHOSTUNREACH
  | EINPROGRESS
  | EALREADY
  | EDESTADDRREQ
  | EMSGSIZE
  | EPROTONOSUPPORT
  | ESOCKTNOSUPPORT
  | EADDRNOTAVAIL
  | ENETRESET
  | EISCONN
  | ENOTCONN
  | ETOOMANYREFS
  | EDQUOT
  | ENOTSUP
  | EILSEQ
  | EOVERFLOW
  | ECANCELED
  | ENOTRECOVERABLE.

Definition errno_list : list errno :=
  [ESUCCESS; EPERM; ENOENT; ESRCH; EINTR; EIO; ENXIO; E2BIG; ENOEXEC; EBADF; ECHILD; EAGAIN; ENOMEM; EACCES; EFAULT; ENOTBLK; EBUSY; EEXIST; EXDEV; ENODEV; ENOTDIR; EISDIR; EINVAL; ENFILE; EMFILE; ENOTTY; ETXTBSY; EFBIG; ENOSPC; ESPIPE; EROFS; EMLINK; EPIPE; EDOM; ERANGE; ENOMSG; EDEADLK; ENOLCK; EPROTO; ENOSYS; ENOTEMPTY; ENAMETOOLONG; ELOOP; EOPNOTSUPP; EPFNOSUPPORT; ECONNRESET; ENOBUFS; EAFNOSUPPORT; EPROTOTYPE; ENOTSOCK; ENOPROTOOPT; ESHUTDOWN; ECONNREFUSED; EADDRINUSE; ECONNABORTED; ENETUNREACH; ENETDOWN; ETIMEDOUT; EHOSTDOWN; EHOSTUNREACH; EINPROGRESS; EALREADY; EDESTADDRREQ; EMSGSIZE; EPROTONOSUPPORT; ESOCKTNOSUPPORT; EADDRNOTAVAIL; ENETRESET; EISCONN; ENOTCONN; ETOOMANYREFS; EDQUOT; ENOTSUP; EILSEQ; EOVERFLOW; ECANCELED; ENOTRECOVERABLE].

#[export] Instance errno_eq_dec : EqDecision errno.
Proof. solve_decision. Defined.

Definition errno_val (e : errno) : Z :=
  match e with
  | ESUCCESS => 0
  | EPERM => 1
  | ENOENT => 2
  | ESRCH => 3
  | EINTR => 4
  | EIO => 5
  | ENXIO => 6
  | E2BIG => 7
  | ENOEXEC => 8
  | EBADF => 9
  | ECHILD => 10
  | EAGAIN => 11
  | ENOMEM => 12
  | EACCES => 13
  | EFAULT => 14
  | ENOTBLK => 15
  | EBUSY => 16
  | EEXIST => 17
  | EXDEV => 18
  | ENODEV => 19
  | ENOTDIR => 20
  | EISDIR => 21
  | EINVAL => 22
  | ENFILE => 23
  | EMFILE => 24
  | ENOTTY => 25
  | ETXTBSY => 26
  | EFBIG => 27
  | ENOSPC => 28
  | ESPIPE => 29
  | EROFS => 30
  | EMLINK => 31
  | EPIPE => 32
  | EDOM => 33
  | ERANGE => 34
  | ENOMSG => 35
  | EDEADLK => 36
  | ENOLCK => 37
  | EPROTO => 38
  | ENOSYS => 39
  | ENOTEMPTY => 40
  | ENAMETOOLONG => 41
  | ELOOP => 42
  | EOPNOTSUPP => 43
  | EPFNOSUPPORT => 44
  | ECONNRESET => 45
  | ENOBUFS => 46
  | EAFNOSUPPORT => 47
  | EPROTOTYPE => 48
  | ENOTSOCK => 49
  | ENOPROTOOPT => 50
  | ESHUTDOWN => 51
  | ECONNREFUSED => 52
  | EADDRINUSE => 53
  | ECONNABORTED => 54
  | ENETUNREACH => 55
  | ENETDOWN => 56
  | ETIMEDOUT => 57
  | EHOSTDOWN => 58
  | EHOSTUNREACH => 59
  | EINPROGRESS => 60
  | EALREADY => 61
  | EDESTADDRREQ => 62
  | EMSGSIZE => 63
  | EPROTONOSUPPORT => 64
  | ESOCKTNOSUPPORT => 65
  | EADDRNOTAVAIL => 66
  | ENETRESET => 67
  | EISCONN => 68
  | ENOTCONN => 69
  | ETOOMANYREFS => 70
  | EDQUOT => 71
  | ENOTSUP => 72
  | EILSEQ => 73
  | EOVERFLOW => 74
  | ECANCELED => 75
  | ENOTRECOVERABLE => 76
  end.

(** The enumerator after the last error number. *)
Definition EMAXERRNO : Z := Z.of_nat (length errno_list).

(** The value [-E...] a function returns. *)
Definition ERR (e : errno) : Z := - errno_val e.

(** [IS_ERR(x)]: [(uintptr_t)x >= (uintptr_t)-EMAXERRNO]. *)
Definition IS_ERR (x : Z) : bool := u32 (- EMAXERRNO) <=? u32 x.
Definition IS_OK (x : Z) : bool := negb (IS_ERR x).

(** A pointer or an error value ([ERR_PTR], [PTR_ERR], [ERR_CAST]). *)
Inductive ptr_res (A : Type) : Type :=
  | PTR (a : A)
  | ERR_PTR (rc : Z).
Arguments PTR {A} a.
Arguments ERR_PTR {A} rc.

Lemma errno_list_val e : errno_list !! Z.to_nat (errno_val e) = Some e.
Proof. destruct e; reflexivity. Qed.
Lemma errno_val_range e : 0 ≤ errno_val e < EMAXERRNO.
Proof. destruct e; vm_compute; by split. Qed.
Lemma errno_val_inj e e' : errno_val e = errno_val e' → e = e'.
Proof.
  intros H. pose proof (errno_list_val e) as H1.
  rewrite H, (errno_list_val e') in H1. congruence.
Qed.
Lemma ERR_inj e e' : ERR e = ERR e' → e = e'.
Proof. unfold ERR. intros H. apply errno_val_inj. revert H. generalize (errno_val e), (errno_val e'). lia. Qed.

(** Every error value but [-ESUCCESS] is recognised. *)
Lemma IS_ERR_ERR e : e ≠ ESUCCESS → IS_ERR (ERR e) = true.
Proof. destruct e; intros H; first [contradiction H; reflexivity | vm_compute; reflexivity]. Qed.
(** The first error value of the address space. *)
Lemma first_ERR : u32 (- EMAXERRNO) = 4294967219.
Proof. reflexivity. Qed.
(** A count, a descriptor or any other non-negative [int] is not an error. *)
Lemma IS_ERR_nonneg x : 0 ≤ x < 2147483648 → IS_ERR x = false.
Proof.
  intros H. unfold IS_ERR. rewrite first_ERR, (u32_small x) by (unfold U32; lia).
  apply Z.leb_gt. lia.
Qed.
Lemma ERR_nonpos e : ERR e ≤ 0.
Proof. unfold ERR. pose proof (errno_val_range e). lia. Qed.
#[export] Hint Resolve IS_ERR_ERR IS_ERR_nonneg : chaotix.
#[export] Hint Rewrite IS_ERR_nonneg using lia : chaotix.
