(* ===== verification/RingBuf.v ===== *)
(** * The ring buffer (kernel/ring_buf.c, kernel/ring_buf.h)

    A buffer of [BUF_CAPACITY] bytes with a read and a write index. One slot
    stays free so that equal indices mean an empty buffer. [contents] is the
    byte queue the buffer stands for; the theorems relate every operation to
    it. The [lock] field is taken by the callers and not touched here. *)
From S2P Require Import Prelude Errno.

Definition BUF_CAPACITY : nat := 1024.
#[local] Arguments BUF_CAPACITY : simpl never.
#[local] Arguments Nat.modulo : simpl never.
#[local] Arguments Nat.sub : simpl never.
#[local] Arguments Nat.min : simpl never.

Record ring_buf : Type := RingBuf {
  inner_buf : list Z;
  write_idx : nat;
  read_idx : nat;
}.

(** [*buf = (ring_buf){0}] and a zeroed [kmalloc] of the buffer; [alloc_ok]
    says whether [kmalloc] returned a block. *)
Definition ring_buf_init (alloc_ok : bool) : Z * option ring_buf :=
  if alloc_ok then (0, Some (RingBuf (replicate BUF_CAPACITY 0) 0 0))
  else (ERR ENOMEM, None).

Definition ring_buf_is_empty (buf : ring_buf) : bool :=
  (write_idx buf =? read_idx buf)%nat.

Definition ring_buf_is_full (buf : ring_buf) : bool :=
  (((write_idx buf + 1) mod BUF_CAPACITY) =? read_idx buf)%nat.

(** The loop of ring_buf_read; [count] counts down [count - nread] and the
    result is what is stored to [dest]. *)
Fixpoint ring_buf_read (count : nat) : K ring_buf (list Z) :=
  match count with
  | O => mret []
  | S count =>
      buf ← get;
      c ← access (inner_buf buf !! read_idx buf);
      let r := ((read_idx buf + 1) mod BUF_CAPACITY)%nat in
      _ ← put (RingBuf (inner_buf buf) (write_idx buf) r);
      if (r =? write_idx buf)%nat then mret [c]
      else rest ← ring_buf_read count; mret (c :: rest)
  end.

(** [dest[write_idx] = c] followed by the increment of the index. *)
Definition ring_buf_put (c : Z) : K ring_buf unit :=
  buf ← get;
  _ ← access (inner_buf buf !! write_idx buf);
  put (RingBuf (<[write_idx buf := c]> (inner_buf buf))
               ((write_idx buf + 1) mod BUF_CAPACITY)%nat (read_idx buf)).

Fixpoint ring_buf_write (bytes : list Z) : K ring_buf nat :=
  match bytes with
  | [] => mret 0%nat
  | c :: bytes =>
      _ ← ring_buf_put c;
      buf ← get;
      if ring_buf_is_full buf then mret 1%nat
      else n ← ring_buf_write bytes; mret (S n)
  end.

Fixpoint ring_buf_write_evicting_oldest (bytes : list Z) : K ring_buf nat :=
  match bytes with
  | [] => mret 0%nat
  | c :: bytes =>
      _ ← ring_buf_put c;
      n ← ring_buf_write_evicting_oldest bytes; mret (S n)
  end.

(** ** The queue it implements *)

Definition wf (buf : ring_buf) : Prop :=
  length (inner_buf buf) = BUF_CAPACITY ∧
  (write_idx buf < BUF_CAPACITY)%nat ∧ (read_idx buf < BUF_CAPACITY)%nat.

(** Number of bytes between the read and the write index. *)
Definition used (buf : ring_buf) : nat :=
  (write_idx buf + BUF_CAPACITY - read_idx buf) mod BUF_CAPACITY.
Definition slot (buf : ring_buf) (k : nat) : Z :=
  inner_buf buf !!! ((read_idx buf + k) mod BUF_CAPACITY)%nat.
Definition contents (buf : ring_buf) : list Z := slot buf <$> seq 0 (used buf).
(** Room for writing: one slot is never used. *)
Definition room (buf : ring_buf) : nat := (BUF_CAPACITY - 1 - used buf)%nat.

Lemma mod_cases a : (a < 2 * BUF_CAPACITY)%nat →
  (a < BUF_CAPACITY ∧ a mod BUF_CAPACITY = a ∨
   BUF_CAPACITY ≤ a ∧ a mod BUF_CAPACITY = a - BUF_CAPACITY)%nat.
Proof.
  intros H. destruct (decide (a < BUF_CAPACITY)%nat).
  - left. split; [done|]. by apply Nat.mod_small.
  - right. split; [lia|].
    rewrite <-(Nat.mod_small (a - BUF_CAPACITY) BUF_CAPACITY) by lia.
    rewrite <-(Nat.Div0.mod_add (a - BUF_CAPACITY) 1 BUF_CAPACITY). f_equal. lia.
Qed.

(** Case analysis of every reduction modulo the capacity in sight. *)
Ltac mods :=
  repeat match goal with
  | |- context [(?a mod BUF_CAPACITY)%nat] =>
      destruct (mod_cases a) as [[? ->]|[? ->]]; [unfold BUF_CAPACITY in *; lia|..]
  | H : context [(?a mod BUF_CAPACITY)%nat] |- _ =>
      let E := fresh in
      destruct (mod_cases a) as [[? E]|[? E]]; [unfold BUF_CAPACITY in *; lia|..];
      rewrite E in H; clear E
  end; unfold BUF_CAPACITY in *.

Section props.
Context (buf : ring_buf) (Hwf : wf buf).

Lemma used_lt : (used buf < BUF_CAPACITY)%nat.
Proof. unfold used. apply Nat.mod_upper_bound. done. Qed.
Lemma length_contents : length (contents buf) = used buf.
Proof. unfold contents. by rewrite length_fmap, length_seq. Qed.

Lemma is_empty_spec : ring_buf_is_empty buf = true ↔ contents buf = [].
Proof.
    destruct Hwf as (?&?&?). rewrite <-length_zero_iff_nil, length_contents.
    unfold ring_buf_is_empty, used. rewrite Nat.eqb_eq. mods; lia.
Qed.
Lemma is_full_spec : ring_buf_is_full buf = true ↔ room buf = 0%nat.
Proof.
    destruct Hwf as (?&?&?). unfold ring_buf_is_full, room, used.
    rewrite Nat.eqb_eq. mods; lia.
Qed.

  (** Advancing the read index drops the oldest byte. *)
Lemma contents_cons :
    (used buf ≠ 0)%nat →
    contents buf = slot buf 0 ::
      contents (RingBuf (inner_buf buf) (write_idx buf) ((read_idx buf + 1) mod BUF_CAPACITY)).
Proof.
    intros Hu. destruct Hwf as (?&?&?). unfold contents.
    assert (used buf = S (used (RingBuf (inner_buf buf) (write_idx buf)
      ((read_idx buf + 1) mod BUF_CAPACITY)))) as ->.
    { revert Hu. unfold used; simpl. mods; lia. }
    rewrite <-cons_seq. simpl. f_equal. rewrite <-fmap_S_seq, <-list_fmap_compose.
    apply list_fmap_ext. intros i k Hk. unfold slot; simpl. f_equal.
    apply lookup_seq in Hk as [-> Hk]. pose proof used_lt.
    assert (i < BUF_CAPACITY)%nat.
    { unfold used in Hk; simpl in Hk. mods; lia. }
    mods; lia.
Qed.

  (** Storing at the write index appends a byte. *)
Lemma contents_snoc c :
    (0 < room buf)%nat →
    contents (RingBuf (<[write_idx buf := c]> (inner_buf buf))
               ((write_idx buf + 1) mod BUF_CAPACITY) (read_idx buf)) = contents buf ++ [c].
Proof.
    intros Hr. destruct Hwf as (Hl&?&?). unfold contents.
    assert (used (RingBuf (<[write_idx buf := c]> (inner_buf buf))
      ((write_idx buf + 1) mod BUF_CAPACITY) (read_idx buf)) = S (used buf)) as ->.
    { revert Hr. unfold room, used; simpl. mods; lia. }
    rewrite seq_S, fmap_app. simpl. f_equal.
    - apply list_fmap_ext. intros i k Hk. unfold slot; simpl.
      apply lookup_seq in Hk as [-> Hk].
      rewrite list_lookup_total_insert_ne; [done|].
      unfold used in Hk; simpl in Hk. mods; lia.
    - unfold slot; simpl. f_equal.
      replace ((read_idx buf + used buf) mod BUF_CAPACITY)%nat with (write_idx buf)
        by (unfold used; mods; lia).
      rewrite list_lookup_total_insert_eq; [done|]. rewrite Hl. done.
Qed.
End props.

Lemma wf_put buf c : wf buf →
  wp (ring_buf_put c) (λ _ b, b = RingBuf (<[write_idx buf := c]> (inner_buf buf))
    ((write_idx buf + 1) mod BUF_CAPACITY) (read_idx buf) ∧ wf b) buf.
Proof.
  intros (Hl&Hw&Hr). unfold ring_buf_put. wp_go.
  destruct (lookup_lt_is_Some_2 (inner_buf buf) (write_idx buf)) as [x Hx]; [lia|].
  eapply wp_access; [exact Hx|]. wp_go. split; [done|].
  split_and!; simpl; [by rewrite length_insert| apply Nat.mod_upper_bound; done |done].
Qed.

Lemma ring_buf_read_wp buf count :
  wf buf → contents buf ≠ [] → (0 < count)%nat →
  wp (ring_buf_read count) (λ out b, out = take count (contents buf) ∧
    contents b = drop count (contents buf) ∧ wf b) buf.
Proof.
  revert buf. induction count as [|count IH]; intros buf Hwf Hne Hc; [lia|].
  simpl. wp_go. pose proof Hwf as (Hl&Hw&Hr).
  destruct (lookup_lt_is_Some_2 (inner_buf buf) (read_idx buf)) as [x Hx]; [lia|].
  eapply wp_access; [exact Hx|]. wp_go.
  set (b1 := RingBuf (inner_buf buf) (write_idx buf) ((read_idx buf + 1) mod BUF_CAPACITY)).
  assert (Hwf1 : wf b1) by (split_and!; simpl; [done|done|by apply Nat.mod_upper_bound]).
  assert (Hcons : contents buf = x :: contents b1).
  { rewrite contents_cons; [|done|]. 2: { rewrite <-length_contents. by destruct (contents buf). }
    f_equal. unfold slot. rewrite Nat.add_0_r, Nat.mod_small by done.
    by apply list_lookup_total_correct. }
  rewrite Hcons. simpl.
  destruct (_ =? write_idx buf)%nat eqn:E.
  - assert (contents b1 = []) as Hnil.
    { apply is_empty_spec; [done|]. unfold ring_buf_is_empty. simpl. by rewrite Nat.eqb_sym. }
    wp_go. rewrite Hnil, take_nil, drop_nil. done.
  - assert (contents b1 ≠ []) as Hne1.
    { intros Hnil. apply is_empty_spec in Hnil; [|done].
      unfold ring_buf_is_empty in Hnil. simpl in Hnil. rewrite Nat.eqb_sym in Hnil. congruence. }
    wp_go. destruct count as [|count].
    + simpl. done.
    + eapply wp_mono; [apply (IH b1); [done|done|lia]|].
      intros out b (-> & Hb & ?). wp_go. by rewrite Hb.
Qed.

(** One stored byte, while there is room. *)
Lemma ring_buf_put_spec buf c :
  wf buf → (0 < room buf)%nat →
  wp (ring_buf_put c) (λ _ b, contents b = contents buf ++ [c] ∧ wf b ∧
    room b = (room buf - 1)%nat) buf.
Proof.
  intros Hwf Hr. eapply wp_mono; [by apply wf_put|].
  intros _ b [-> Hb]. rewrite contents_snoc by done. split_and!; [done|done|].
  unfold room. rewrite <-!length_contents, contents_snoc, length_app by done. simpl. lia.
Qed.

Lemma ring_buf_write_wp buf bytes :
  wf buf → ring_buf_is_full buf = false →
  wp (ring_buf_write bytes) (λ n b, n = (length bytes `min` room buf)%nat ∧
    contents b = contents buf ++ take n bytes ∧ wf b) buf.
Proof.
  revert buf. induction bytes as [|c bytes IH]; intros buf Hwf Hf; simpl.
  { wp_go. by rewrite app_nil_r. }
  assert (0 < room buf)%nat as Hr.
  { destruct (room buf) eqn:E; [|lia]. apply is_full_spec in E; congruence. }
  wp_go. eapply wp_mono; [by apply ring_buf_put_spec|]. intros _ b (Hb & Hwb & Hrb).
  wp_go. destruct (ring_buf_is_full b) eqn:E.
  - apply is_full_spec in E; [|done]. wp_go. rewrite Hb. split_and!; [lia|done|done].
  - wp_go. eapply wp_mono; [by apply IH|]. intros n b' (-> & Hc & ?). wp_go.
    assert (0 < room b)%nat.
    { destruct (room b) eqn:E'; [|lia]. apply is_full_spec in E'; congruence. }
    split_and!; [lia| |done]. by rewrite Hc, Hb, <-app_assoc.
Qed.

Lemma evicting_fits buf bytes :
  wf buf → (length bytes ≤ room buf)%nat →
  wp (ring_buf_write_evicting_oldest bytes) (λ n b, n = length bytes ∧
    contents b = contents buf ++ bytes ∧ wf b) buf.
Proof.
  revert buf. induction bytes as [|c bytes IH]; simpl; intros buf Hwf Hr; wp_go.
  { by rewrite app_nil_r. }
  eapply wp_mono; [apply ring_buf_put_spec; [done|lia]|]. intros _ b (Hb & Hwb & Hrb).
  wp_go. eapply wp_mono; [apply IH; [done|lia]|]. intros n b' (-> & Hc & ?). wp_go.
  split_and!; [done| |done]. by rewrite Hc, Hb, <-app_assoc.
Qed.

(** The writer used by the consoles appends what fits; on a full ring a
    further byte does not evict the oldest one: the write index meets the read
    index and all 1023 queued bytes are lost, the new one included. *)
Lemma ring_buf_write_evicting_oldest_spec buf bytes :
  wf buf →
  ((length bytes ≤ room buf)%nat →
     wp (ring_buf_write_evicting_oldest bytes) (λ n b, n = length bytes ∧
       contents b = contents buf ++ bytes ∧ wf b) buf) ∧
  (ring_buf_is_full buf = true → ∀ c,
     wp (ring_buf_write_evicting_oldest [c]) (λ n b, n = 1%nat ∧ contents b = []) buf).
Proof.
  intros Hwf. split; [by apply evicting_fits|].
  intros Hf c. simpl. wp_go. eapply wp_mono; [by apply wf_put|]. intros _ b [-> Hb].
  wp_go. split; [done|]. apply is_empty_spec; [done|].
  unfold ring_buf_is_full in Hf. unfold ring_buf_is_empty. done.
Qed.

(** A ring as a bounded queue: what a writer stores a reader gets, in order. *)
(** Bytes written to an empty ring are read back unchanged, as many as fit
    in one go, and the ring is empty again. *)
Lemma ring_buf_roundtrip buf bytes :
  wf buf → contents buf = [] → bytes ≠ [] → (length bytes < BUF_CAPACITY)%nat →
  wp (_ ← ring_buf_write bytes; ring_buf_read (length bytes))
    (λ out b, out = bytes ∧ contents b = []) buf.
Proof.
  intros Hwf He Hne Hlen.
  assert (room buf = 1023)%nat as Hr.
  { unfold room. rewrite <-length_contents, He. reflexivity. }
  wp_go. eapply wp_mono; [apply ring_buf_write_wp; [done|]|].
  { destruct (ring_buf_is_full buf) eqn:E; [|done]. apply is_full_spec in E; [lia|done]. }
  intros n b (-> & Hb & Hwb). rewrite He, Hr in Hb. simpl in Hb.
  rewrite Nat.min_l, firstn_all in Hb by (unfold BUF_CAPACITY in *; lia).
  assert (0 < length bytes)%nat by (destruct bytes; simpl; [done|lia]).
  eapply wp_mono; [apply ring_buf_read_wp; [done|by rewrite Hb|done]|].
  intros out b' (-> & Hb' & _). rewrite Hb', Hb, firstn_all, drop_all. done.
Qed.

(** Reading [count] > 0 bytes from a non-empty ring takes the oldest
    [min count used] bytes in order and leaves the rest. *)
Lemma ring_buf_read_spec buf count :
  wf buf → contents buf ≠ [] → (0 < count)%nat →
  wp (ring_buf_read count) (λ out b, out = take count (contents buf) ∧
    contents b = drop count (contents buf) ∧ wf b) buf.
Proof. apply ring_buf_read_wp. Qed.

(** Writing to a ring that is not full appends the longest prefix of the
    bytes that fits (one slot stays free) and returns its length. *)
Lemma ring_buf_write_spec buf bytes :
  wf buf → ring_buf_is_full buf = false →
  wp (ring_buf_write bytes) (λ n b, n = (length bytes `min` room buf)%nat ∧
    contents b = contents buf ++ take n bytes ∧ wf b) buf.
Proof. apply ring_buf_write_wp. Qed.

(** ** Witnesses *)
Definition empty_ring : ring_buf := RingBuf (replicate BUF_CAPACITY 0) 0 0.
Lemma wf_empty : wf empty_ring.
Proof. by split_and!; vm_compute; [|lia|lia]. Qed.
Definition two_bytes : ring_buf := RingBuf (7 :: 8 :: replicate 1022 0) 2 0.
Definition full_ring : ring_buf := RingBuf (replicate BUF_CAPACITY 5) 1023 0.

Lemma ring_buf_read_spec_witness :
  wp (ring_buf_read 1) (λ out b, out = [7] ∧ contents b = [8] ∧ wf b) two_bytes.
Proof.
  apply (ring_buf_read_spec two_bytes 1).
  - split_and!; vm_compute; lia.
  - vm_compute. congruence.
  - lia.
Defined.
Lemma ring_buf_write_spec_witness :
  wp (ring_buf_write [1; 2; 3]) (λ n b, n = 3%nat ∧ contents b = [1; 2; 3] ∧ wf b) empty_ring.
Proof. apply (ring_buf_write_spec empty_ring [1; 2; 3] wf_empty). reflexivity. Defined.
Lemma ring_buf_write_evicting_oldest_spec_witness :
  wp (ring_buf_write_evicting_oldest [9]) (λ n b, n = 1%nat ∧ contents b = []) full_ring.
Proof.
  apply (ring_buf_write_evicting_oldest_spec full_ring [9]).
  - split_and!; vm_compute; lia.
  - reflexivity.
Defined.
Lemma ring_buf_roundtrip_witness :
  wp (_ ← ring_buf_write [4; 2]; ring_buf_read 2) (λ out b, out = [4; 2] ∧ contents b = []) empty_ring.
Proof.
  apply (ring_buf_roundtrip empty_ring [4; 2] wf_empty).
  - reflexivity.
  - congruence.
  - unfold BUF_CAPACITY; simpl; lia.
Defined.
