(* ===== verification/CString.v ===== *)
(** * The C library shared by kernel and userland
    (common/string.c, common/strings.c, common/ctype.h, common/libgen.c,
    common/extra.h, common/stdlib.c)

    Memory is a flat list of bytes, a pointer an index into it and [NULL] is
    [None]: an access outside the list is undefined behaviour. A loop that runs
    until a terminator has fuel one more than the size of memory, which it
    cannot use up without leaving memory first. *)
From S2P Require Import Prelude.

#[local] Arguments Nat.mul : simpl never.
#[local] Arguments Nat.sub : simpl never.
#[local] Arguments Nat.div : simpl never.

Abbreviation mem := (list Z).
Abbreviation ptr := nat.

Definition load (p : ptr) : K mem Z := m ← get; access (m !! p).
Definition store (p : ptr) (c : Z) : K mem unit :=
  m ← get; _ ← access (m !! p); put (<[p := c]> m).

(** Fuel for a loop that stops at a terminator. *)
Definition mem_fuel : K mem nat := gets (λ m, S (length m)).

(** ** ctype.h *)
Definition isprint (c : Z) : bool := (32 <=? c) && (c <=? 126).
Definition isspace (c : Z) : bool :=
  (c =? 9) || (c =? 10) || (c =? 11) || (c =? 12) || (c =? 13) || (c =? 32).
Definition isgraph (c : Z) : bool := (33 <=? c) && (c <=? 126).
Definition isdigit (c : Z) : bool := (ch "0" <=? c) && (c <=? ch "9").
Definition isalnum (c : Z) : bool :=
  isdigit c || ((ch "A" <=? c) && (c <=? ch "Z")) || ((ch "a" <=? c) && (c <=? ch "z")).
Definition isxdigit (c : Z) : bool :=
  isdigit c || ((ch "A" <=? c) && (c <=? ch "F")) || ((ch "a" <=? c) && (c <=? ch "f")).
Definition isascii (c : Z) : bool := u32 c <=? 127.
Definition tolower (c : Z) : Z :=
  if (ch "A" <=? c) && (c <=? ch "Z") then Z.lor c 32 else c.
Definition toupper (c : Z) : Z :=
  if (ch "a" <=? c) && (c <=? ch "z") then Z.land c (Z.lnot 32) else c.

(** ** extra.h *)
Definition round_up (x align : Z) : Z :=
  Z.land (u32 (x + (align - 1))) (u32 (Z.lnot (align - 1))).
Definition round_down (x align : Z) : Z := Z.land x (u32 (Z.lnot (align - 1))).
Definition div_ceil (lhs rhs : Z) : Z := u32 (lhs + rhs - 1) / rhs.
(** [__builtin_clz] of a non-zero 32-bit word. *)
Definition clz32 (x : Z) : Z := 31 - Z.log2 x.
Definition next_power_of_two (x : Z) : Z :=
  if x <=? 1 then 1 else u32 (Z.shiftr SIZE_MAX (clz32 (x - 1)) + 1).

(** ** Block operations *)

(** A 32-bit little-endian word, as [stosl] and [movsl] move it. *)
Definition load32 (p : ptr) : K mem Z :=
  b0 ← load p; b1 ← load (p + 1)%nat; b2 ← load (p + 2)%nat; b3 ← load (p + 3)%nat;
  mret (b0 + 256 * b1 + 65536 * b2 + 16777216 * b3).
Definition store32 (p : ptr) (v : Z) : K mem unit :=
  _ ← store p (u8 v); _ ← store (p + 1)%nat (u8 (Z.shiftr v 8));
  _ ← store (p + 2)%nat (u8 (Z.shiftr v 16)); store (p + 3)%nat (u8 (Z.shiftr v 24)).

Fixpoint rep_stosl (dest : ptr) (nd : nat) (d : Z) : K mem ptr :=
  match nd with
  | O => mret dest
  | S nd => _ ← store32 dest d; rep_stosl (dest + 4)%nat nd d
  end.
Fixpoint rep_stosb (dest : ptr) (n : nat) (c : Z) : K mem ptr :=
  match n with
  | O => mret dest
  | S n => _ ← store dest (u8 c); rep_stosb (S dest) n c
  end.
Fixpoint rep_movsl (dest src : ptr) (nd : nat) : K mem (ptr * ptr) :=
  match nd with
  | O => mret (dest, src)
  | S nd => v ← load32 src; _ ← store32 dest v; rep_movsl (dest + 4)%nat (src + 4)%nat nd
  end.
Fixpoint rep_movsb (dest src : ptr) (n : nat) : K mem (ptr * ptr) :=
  match n with
  | O => mret (dest, src)
  | S n => c ← load src; _ ← store dest c; rep_movsb (S dest) (S src) n
  end.

Definition aligned (p : ptr) : bool := (p mod 4 =? 0)%nat.

Definition memset (s : ptr) (c : Z) (n : nat) : K mem ptr :=
  if aligned s && (4 <=? n)%nat then
    let nd := (n / 4)%nat in
    let d := Z.lor (Z.lor (Z.lor (u32 (Z.shiftl (u32 c) 24)) (u32 (Z.shiftl (u32 c) 16)))
                          (u32 (Z.shiftl (u32 c) 8))) (u32 c) in
    dest ← rep_stosl s nd d;
    let n := (n - 4 * nd)%nat in
    if (n =? 0)%nat then mret s
    else _ ← rep_stosb dest n c; mret s
  else _ ← rep_stosb s n c; mret s.

Definition memcpy (dest src : ptr) (n : nat) : K mem ptr :=
  if (aligned dest && aligned src) && (4 <=? n)%nat then
    let nd := (n / 4)%nat in
    '(d, s) ← rep_movsl dest src nd;
    let n := (n - 4 * nd)%nat in
    if (n =? 0)%nat then mret dest
    else _ ← rep_movsb d s n; mret dest
  else _ ← rep_movsb dest src n; mret dest.

Fixpoint memmove_loop (dest src : ptr) (n : nat) : K mem unit :=
  match n with
  | O => mret tt
  | S n => c ← load (src + n)%nat; _ ← store (dest + n)%nat c; memmove_loop dest src n
  end.
Definition memmove (dest src : ptr) (n : nat) : K mem ptr :=
  if Z.of_nat n <=? u32 (Z.of_nat dest - Z.of_nat src) then memcpy dest src n
  else _ ← memmove_loop dest src n; mret dest.

Fixpoint memcmp (s1 s2 : ptr) (n : nat) : K mem Z :=
  match n with
  | O => mret 0
  | S n =>
      a ← load s1; b ← load s2;
      if a =? b then memcmp (S s1) (S s2) n
      else mret (if a <? b then -1 else 1)
  end.

(** ** Strings *)
Fixpoint strcmp_loop (fuel : nat) (s1 s2 : ptr) : K mem Z :=
  match fuel with
  | O => out_of_fuel
  | S fuel =>
      a ← load s1; b ← load s2;
      if a =? b then
        if a =? 0 then mret 0 else strcmp_loop fuel (S s1) (S s2)
      else mret (if schar a <? schar b then -1 else 1)
  end.
Definition strcmp (s1 s2 : ptr) : K mem Z := fuel ← mem_fuel; strcmp_loop fuel s1 s2.

Fixpoint strncmp (s1 s2 : ptr) (n : nat) : K mem Z :=
  match n with
  | O => mret 0
  | S n =>
      a ← load s1; b ← load s2;
      if a =? b then
        if a =? 0 then mret 0 else strncmp (S s1) (S s2) n
      else mret (a - b)
  end.

Fixpoint strlen_loop (fuel : nat) (str : ptr) (len : nat) : K mem nat :=
  match fuel with
  | O => out_of_fuel
  | S fuel => c ← load str; if c =? 0 then mret len else strlen_loop fuel (S str) (S len)
  end.
Definition strlen (str : ptr) : K mem nat := fuel ← mem_fuel; strlen_loop fuel str 0.

Fixpoint strnlen_loop (n : nat) (str : ptr) (len : nat) : K mem nat :=
  match n with
  | O => mret len
  | S n => c ← load str; if c =? 0 then mret len else strnlen_loop n (S str) (S len)
  end.
Definition strnlen (str : ptr) (n : nat) : K mem nat := strnlen_loop n str 0.

Fixpoint strcpy_loop (fuel : nat) (d src : ptr) : K mem unit :=
  match fuel with
  | O => out_of_fuel
  | S fuel =>
      c ← load src;
      if c =? 0 then mret tt else _ ← store d c; strcpy_loop fuel (S d) (S src)
  end.
Definition strcpy (dest src : ptr) : K mem ptr :=
  fuel ← mem_fuel; _ ← strcpy_loop fuel dest src; mret dest.

Fixpoint strncpy_pad (dest : ptr) (n : nat) : K mem unit :=
  match n with
  | O => mret tt
  | S n => _ ← store dest 0; strncpy_pad (S dest) n
  end.
Fixpoint strncpy_loop (dest src : ptr) (n : nat) : K mem unit :=
  match n with
  | O => mret tt
  | S n' =>
      c ← load src;
      if c =? 0 then strncpy_pad dest n
      else _ ← store dest c; strncpy_loop (S dest) (S src) n'
  end.
Definition strncpy (dest src : ptr) (n : nat) : K mem ptr :=
  _ ← strncpy_loop dest src n; mret dest.

(** First loop of strlcpy: copies while [len + 1 < size] and [*src]; gives the
    advanced [dst] and [src] and [len]. *)
Fixpoint strlcpy_copy (n : nat) (dst src : ptr) (len : nat) : K mem (ptr * ptr * nat) :=
  match n with
  | O => mret (dst, src, len)
  | S n =>
      c ← load src;
      if c =? 0 then mret (dst, src, len)
      else _ ← store dst c; strlcpy_copy n (S dst) (S src) (S len)
  end.
Definition strlcpy (dst src : ptr) (size : nat) : K mem nat :=
  '(d, s, len) ← strlcpy_copy (size - 1) dst src 0;
  _ ← when (0 <? size)%nat (store d 0);
  fuel ← mem_fuel; strlen_loop fuel s len.

Fixpoint strcat_loop (fuel : nat) (dest src : ptr) : K mem unit :=
  match fuel with
  | O => out_of_fuel
  | S fuel =>
      c ← load src;
      if c =? 0 then store dest 0 else _ ← store dest c; strcat_loop fuel (S dest) (S src)
  end.
Definition strcat (dest src : ptr) : K mem ptr :=
  dest_len ← strlen dest; fuel ← mem_fuel;
  _ ← strcat_loop fuel (dest + dest_len)%nat src; mret dest.

Fixpoint strncat_loop (n : nat) (dest src : ptr) : K mem unit :=
  match n with
  | O => store dest 0
  | S n =>
      c ← load src;
      if c =? 0 then store dest 0 else _ ← store dest c; strncat_loop n (S dest) (S src)
  end.
Definition strncat (dest src : ptr) (n : nat) : K mem ptr :=
  dest_len ← strlen dest; _ ← strncat_loop n (dest + dest_len)%nat src; mret dest.

Fixpoint strchr_loop (fuel : nat) (str : ptr) (c : Z) : K mem (option ptr) :=
  match fuel with
  | O => out_of_fuel
  | S fuel =>
      a ← load str;
      if a =? 0 then mret None
      else if schar a =? c then mret (Some str) else strchr_loop fuel (S str) c
  end.
Definition strchr (str : ptr) (c : Z) : K mem (option ptr) :=
  fuel ← mem_fuel; strchr_loop fuel str c.

Fixpoint strrchr_loop (fuel : nat) (str : ptr) (c : Z) (last : option ptr) : K mem (option ptr) :=
  match fuel with
  | O => out_of_fuel
  | S fuel =>
      a ← load str;
      if a =? 0 then mret last
      else strrchr_loop fuel (S str) c (if schar a =? c then Some str else last)
  end.
Definition strrchr (str : ptr) (c : Z) : K mem (option ptr) :=
  fuel ← mem_fuel; strrchr_loop fuel str c None.

(** Skip the characters of [sep] ([stop_at = false]) or the others
    ([stop_at = true]). *)
Fixpoint strtok_skip (fuel : nat) (stop_at : bool) (str sep : ptr) : K mem ptr :=
  match fuel with
  | O => out_of_fuel
  | S fuel =>
      a ← load str;
      if a =? 0 then mret str
      else
        found ← strchr sep (schar a);
        if Bool.eqb (bool_decide (is_Some found)) stop_at then mret str
        else strtok_skip fuel stop_at (S str) sep
  end.

(** [*last] is passed in and handed back. *)
Definition strtok_r (str : option ptr) (sep : ptr) (last : option ptr)
    : K mem (option ptr * option ptr) :=
  match (match str with Some p => Some p | None => last end) with
  | None => mret (None, last)
  | Some str =>
      fuel ← mem_fuel;
      str ← strtok_skip fuel false str sep;
      a ← load str;
      if a =? 0 then mret (None, None)
      else
        end_ ← strtok_skip fuel true str sep;
        e ← load end_;
        _ ← store end_ 0;
        mret (Some str, if e =? 0 then None else Some (S end_))
  end.

Fixpoint strstr_loop (fuel : nat) (str substr : ptr) : K mem (option ptr) :=
  match fuel with
  | O => out_of_fuel
  | S fuel =>
      a ← load str;
      if a =? 0 then mret None
      else
        r ← strcmp str substr;
        if r =? 0 then mret (Some str) else strstr_loop fuel (S str) substr
  end.
Definition strstr (str substr : ptr) : K mem (option ptr) :=
  fuel ← mem_fuel; strstr_loop fuel str substr.

(** ** Reasoning about memory *)
Definition bytes (m : mem) : Prop := Forall (λ c, 0 ≤ c < 256) m.

(** [cstr m p s]: at [p] memory holds the string [s] and its terminator. *)
Fixpoint cstr (m : mem) (p : ptr) (s : list Z) : Prop :=
  match s with
  | [] => m !! p = Some 0
  | c :: s => m !! p = Some c ∧ c ≠ 0 ∧ cstr m (S p) s
  end.

Lemma wp_load m p c (Q : Z → mem → Prop) : m !! p = Some c → Q c m → wp (load p) Q m.
Proof. intros H HQ. unfold load. wp_go. by eapply wp_access. Qed.
Lemma wp_store m p c (Q : unit → mem → Prop) :
  (p < length m)%nat → Q tt (<[p := c]> m) → wp (store p c) Q m.
Proof.
  intros H HQ. unfold store. wp_go. apply lookup_lt_is_Some in H as [x Hx].
  eapply wp_access; [exact Hx|]. by wp_go.
Qed.
Lemma load_run m p c : m !! p = Some c → load p m = Done c m.
Proof. intros H. unfold load, mbind, K_bind, get. by rewrite H. Qed.
(** [run_load] performs a load whose byte is known by a hypothesis. *)
Ltac run_load := erewrite bind_run by (apply load_run; eassumption).
Lemma wp_fuel (Q : nat → mem → Prop) m : Q (S (length m)) m → wp mem_fuel Q m.
Proof. done. Qed.

Lemma cstr_lt m p s : cstr m p s → (p + length s < length m)%nat.
Proof.
  revert p. induction s as [|c s IH]; simpl; intros p.
  - intros H%lookup_lt_Some. lia.
  - intros (_ & _ & H%IH). lia.
Qed.
Lemma cstr_nonzero m p s : cstr m p s → Forall (λ c, c ≠ 0) s.
Proof. revert p. induction s; simpl; intros p; [done|]. intros (?&?&?). eauto. Qed.
(** A string depends only on the bytes it spans. *)
Lemma cstr_ext m m' p s :
  (∀ i, p ≤ i ≤ p + length s → m' !! i = m !! i)%nat → cstr m p s → cstr m' p s.
Proof.
  revert p. induction s as [|c s IH]; simpl; intros p Hi.
  - rewrite Hi by lia. done.
  - intros (H&?&?). rewrite Hi by lia. split_and!; [done|done|].
    apply IH; [|done]. intros i ?. apply Hi. lia.
Qed.
Lemma cstr_insert m p s i c :
  (i < p ∨ p + length s < i)%nat → cstr m p s → cstr (<[i := c]> m) p s.
Proof.
  intros Hi. apply cstr_ext. intros j Hj. apply list_lookup_insert_ne. lia.
Qed.
Lemma cstr_app m p s t :
  cstr m p (s ++ t) → cstr m (p + length s) t.
Proof.
  revert p. induction s as [|c s IH]; simpl; intros p.
  - by rewrite Nat.add_0_r.
  - intros (_&_&H%IH). by rewrite Nat.add_succ_r.
Qed.
Lemma cstr_lookup m p s i c : cstr m p s → s !! i = Some c → m !! (p + i)%nat = Some c.
Proof.
  revert p i. induction s as [|c' s IH]; intros p i; [done|]. simpl.
  intros (H&_&Hs). destruct i as [|i]; simpl.
  - rewrite Nat.add_0_r. congruence.
  - intros Hi. rewrite <-Nat.add_succ_comm. by apply IH.
Qed.
Lemma cstr_end m p s : cstr m p s → m !! (p + length s)%nat = Some 0.
Proof. intros H. rewrite <-(app_nil_r s) in H. by apply cstr_app in H. Qed.
(** At one address there is one string. *)
Lemma cstr_det m p s t : cstr m p s → cstr m p t → s = t.
Proof.
  revert p t. induction s as [|c s IH]; intros p [|d t]; simpl; [done|..].
  - intros H (H'&?&_). congruence.
  - intros (H&?&_) H'. congruence.
  - intros (H&?&Hs) (H'&?&Ht). f_equal; [congruence|]. by eapply IH.
Qed.

(** Reading [n] bytes away from a written segment. *)
Lemma take_drop_splice (m k : mem) d s n :
  (d + length k ≤ length m)%nat → (d + length k ≤ s ∨ s + n ≤ d)%nat →
  take n (drop s (splice d k m)) = take n (drop s m).
Proof.
  intros Hl Hd. apply list_eq. intros i. destruct (decide (i < n)%nat).
  - rewrite !lookup_take_lt, !lookup_drop by done. apply splice_lookup_out; lia.
  - rewrite !lookup_take_ge by lia. done.
Qed.
Lemma take_drop_add (m : mem) s n k :
  take (n + k) (drop s m) = take n (drop s m) ++ take k (drop (s + n) m).
Proof. by rewrite <-take_take_drop, drop_drop. Qed.

(** ** Block operations implement one splice *)
Section blocks.

(** A forward copy is safe when it moves bytes down or between disjoint
    segments. *)
Definition forward_ok (d s n : nat) : Prop := (d ≤ s ∨ s + n ≤ d)%nat.

Lemma rep_movsb_spec n d s m :
  (s + n ≤ length m)%nat → (d + n ≤ length m)%nat → forward_ok d s n →
  wp (rep_movsb d s n) (λ _ m', m' = splice d (take n (drop s m)) m) m.
Proof.
  unfold forward_ok. revert d s m. induction n as [|n IH]; intros d s m Hs Hd Hf; simpl.
  { wp_go. by rewrite ?take_0, splice_nil. }
  destruct (lookup_lt_is_Some_2 m s) as [c Hc]; [lia|].
  wp_go. eapply wp_load; [exact Hc|]. wp_go. apply wp_store; [lia|].
  eapply wp_mono; [apply IH; rewrite ?length_insert; lia|].
  intros _ m' ->. rewrite (drop_S m c s) by done. simpl.
  rewrite <-insert_splice by lia. f_equal.
  apply list_eq. intros i. destruct (decide (i < n)%nat).
  - rewrite !lookup_take_lt, !lookup_drop by done. apply list_lookup_insert_ne. lia.
  - rewrite !lookup_take_ge by lia. done.
Qed.

Lemma word_bytes b0 b1 b2 b3 :
  0 ≤ b0 < 256 → 0 ≤ b1 < 256 → 0 ≤ b2 < 256 → 0 ≤ b3 < 256 →
  let v := b0 + 256 * b1 + 65536 * b2 + 16777216 * b3 in
  u8 v = b0 ∧ u8 (Z.shiftr v 8) = b1 ∧ u8 (Z.shiftr v 16) = b2 ∧ u8 (Z.shiftr v 24) = b3.
Proof.
  intros. unfold u8. rewrite !Z.shiftr_div_pow2 by lia. subst v.
  change (2 ^ 8) with 256. change (2 ^ 16) with 65536. change (2 ^ 24) with 16777216.
  split_and!; Z.to_euclidean_division_equations; lia.
Qed.

Lemma store32_spec d v m :
  (d + 4 ≤ length m)%nat →
  wp (store32 d v) (λ _ m', m' = splice d [u8 v; u8 (Z.shiftr v 8);
    u8 (Z.shiftr v 16); u8 (Z.shiftr v 24)] m) m.
Proof.
  intros. unfold store32. wp_go.
  apply wp_store; [lia|]. wp_go. apply wp_store; [rewrite ?length_insert; lia|].
  wp_go. apply wp_store; [rewrite ?length_insert; lia|].
  wp_go. apply wp_store; [rewrite ?length_insert; lia|].
  rewrite <-!insert_splice by (rewrite ?length_insert; lia).
  rewrite splice_nil. replace (d + 1)%nat with (S d) by lia.
  replace (d + 2)%nat with (S (S d)) by lia. by replace (d + 3)%nat with (S (S (S d))) by lia.
Qed.

Lemma load32_spec s m :
  (s + 4 ≤ length m)%nat → bytes m →
  wp (load32 s) (λ v m', m' = m ∧ [u8 v; u8 (Z.shiftr v 8);
    u8 (Z.shiftr v 16); u8 (Z.shiftr v 24)] = take 4 (drop s m)) m.
Proof.
  intros Hs Hm.
  destruct (lookup_lt_is_Some_2 m s) as [b0 H0]; [lia|].
  destruct (lookup_lt_is_Some_2 m (s + 1)) as [b1 H1]; [lia|].
  destruct (lookup_lt_is_Some_2 m (s + 2)) as [b2 H2]; [lia|].
  destruct (lookup_lt_is_Some_2 m (s + 3)) as [b3 H3]; [lia|].
  unfold load32. wp_go. eapply wp_load; [done|]. wp_go. eapply wp_load; [done|].
  wp_go. eapply wp_load; [done|]. wp_go. eapply wp_load; [done|]. wp_go. split; [done|].
  assert (Hb : ∀ i c, m !! i = Some c → 0 ≤ c < 256) by (apply Forall_lookup; exact Hm).
  destruct (word_bytes b0 b1 b2 b3) as (->&->&->&->); eauto.
  rewrite (drop_S m b0) by done. replace (s + 1)%nat with (S s) in H1 by lia.
  rewrite (drop_S m b1) by done. replace (s + 2)%nat with (S (S s)) in H2 by lia.
  rewrite (drop_S m b2) by done. replace (s + 3)%nat with (S (S (S s))) in H3 by lia.
  rewrite (drop_S m b3) by done. done.
Qed.

Lemma bytes_splice d k m : bytes k → bytes m → bytes (splice d k m).
Proof.
  intros Hk Hm. unfold bytes, splice. rewrite !Forall_app.
  split_and!; [by apply Forall_take|done|by apply Forall_drop].
Qed.

Lemma rep_movsl_spec nd d s m :
  (s + 4 * nd ≤ length m)%nat → (d + 4 * nd ≤ length m)%nat →
  forward_ok d s (4 * nd) → bytes m →
  wp (rep_movsl d s nd) (λ r m', r = (d + 4 * nd, s + 4 * nd)%nat ∧
    m' = splice d (take (4 * nd) (drop s m)) m) m.
Proof.
  unfold forward_ok. revert d s m. induction nd as [|nd IH]; intros d s m Hs Hd Hf Hm.
  { simpl. wp_go. rewrite !Nat.add_0_r. by rewrite ?take_0, splice_nil. }
  simpl. wp_go. eapply wp_mono; [apply load32_spec; [lia|done]|].
  intros v m1 [-> Hv]. wp_go. eapply wp_mono; [apply store32_spec; lia|].
  intros _ m1 ->. rewrite Hv.
  set (k := take 4 (drop s m)).
  assert (length k = 4%nat) as Hk by (subst k; rewrite length_take, length_drop; lia).
  assert (bytes k) by (by apply Forall_take, Forall_drop).
  eapply wp_mono.
  { apply IH; rewrite ?length_splice by lia; [lia|lia|lia|by apply bytes_splice]. }
  intros r m' [-> ->]. split; [f_equal; lia|].
  rewrite take_drop_splice by lia. replace (d + 4)%nat with (d + length k)%nat by lia.
  rewrite splice_splice by (rewrite Hk, length_take, length_drop; lia).
  f_equal. replace (4 * S nd)%nat with (4 + 4 * nd)%nat by lia. by rewrite take_drop_add.
Qed.

Lemma memcpy_spec d s n m :
  (s + n ≤ length m)%nat → (d + n ≤ length m)%nat → forward_ok d s n → bytes m →
  wp (memcpy d s n) (λ r m', r = d ∧ m' = splice d (take n (drop s m)) m) m.
Proof.
  intros Hs Hd Hf Hm. unfold memcpy. apply wp_if.
  2: { intros _. wp_go. eapply wp_mono; [by apply rep_movsb_spec|]. by intros ? ? ->. }
  intros _. unfold forward_ok in *. pose proof (Nat.div_mod_eq n 4) as Hn.
  set (nd := (n / 4)%nat) in *. wp_go.
  eapply wp_mono; [apply rep_movsl_spec; unfold forward_ok; [lia|lia|lia|done]|].
  intros r m1 [-> ->]. apply wp_if; intros E; bool_to_prop.
  { wp_go. replace (4 * nd)%nat with n by lia. done. }
  set (k := take (4 * nd) (drop s m)).
  assert (length k = 4 * nd)%nat as Hk by (subst k; rewrite length_take, length_drop; lia).
  wp_go. eapply wp_mono.
  { apply rep_movsb_spec; rewrite ?length_splice by lia; unfold forward_ok; lia. }
  intros _ m' ->. wp_go. split; [done|]. rewrite take_drop_splice by lia.
  rewrite <-Hk at 1. rewrite splice_splice by (rewrite Hk, length_take, length_drop; lia).
  f_equal. subst k. rewrite <-take_drop_add. f_equal. lia.
Qed.

Lemma splice_snoc (m k : mem) d c :
  (d + length k < length m)%nat →
  splice d k (<[(d + length k)%nat := c]> m) = splice d (k ++ [c]) m.
Proof.
  intros H. rewrite <-splice_splice by (simpl; lia).
  rewrite <-insert_splice by (rewrite length_splice; lia). rewrite splice_nil.
  apply list_eq. intros i. destruct (decide (i = d + length k)%nat) as [->|Hi].
  - rewrite splice_lookup_out by (rewrite ?length_insert; lia).
    rewrite !list_lookup_insert_eq by (rewrite ?length_splice; lia). done.
  - rewrite list_lookup_insert_ne by done. destruct (decide (d ≤ i < d + length k)%nat).
    + rewrite !splice_lookup_in by (rewrite ?length_insert; lia). done.
    + rewrite !splice_lookup_out by (rewrite ?length_insert; lia).
      by rewrite list_lookup_insert_ne.
Qed.

Lemma memmove_loop_spec n d s m :
  (s + n ≤ length m)%nat → (d + n ≤ length m)%nat → (s ≤ d)%nat →
  wp (memmove_loop d s n) (λ _ m', m' = splice d (take n (drop s m)) m) m.
Proof.
  revert m. induction n as [|n IH]; intros m Hs Hd Hf; simpl.
  { wp_go. by rewrite ?take_0, splice_nil. }
  destruct (lookup_lt_is_Some_2 m (s + n)) as [c Hc]; [lia|].
  wp_go. eapply wp_load; [exact Hc|]. wp_go. apply wp_store; [lia|].
  eapply wp_mono; [apply IH; rewrite ?length_insert; lia|]. intros _ m' ->.
  assert (take n (drop s (<[(d + n)%nat := c]> m)) = take n (drop s m)) as ->.
  { apply list_eq. intros i. destruct (decide (i < n)%nat).
    - rewrite !lookup_take_lt, !lookup_drop by done. apply list_lookup_insert_ne. lia.
    - rewrite !lookup_take_ge by lia. done. }
  assert (length (take n (drop s m)) = n) as Hk by (rewrite length_take, length_drop; lia).
  rewrite <-Hk at 2. rewrite splice_snoc by lia. f_equal.
  rewrite (take_S_r _ _ c); [done|]. by rewrite lookup_drop.
Qed.
End blocks.

(** Memmove copies [n] bytes as if through a temporary buffer, whatever
    the overlap, and touches nothing else. *)
Lemma memmove_spec d s n m :
  bytes m → (s + n ≤ length m)%nat → (d + n ≤ length m)%nat → Z.of_nat (length m) ≤ U32 →
  wp (memmove d s n) (λ r m', r = d ∧ m' = splice d (take n (drop s m)) m) m.
Proof.
  intros Hm Hs Hd Hl. unfold memmove.
  destruct (decide (n = 0)%nat) as [->|Hn0].
  { apply wp_if; intros E.
    - apply memcpy_spec; [lia|lia| |done]. unfold forward_ok. lia.
    - simpl. wp_go. by rewrite ?take_0, splice_nil. }
  apply wp_if; intros E; bool_to_prop.
  - apply memcpy_spec; [done|done| |done]. unfold forward_ok.
    destruct (decide (d ≤ s)%nat) as [|Hds]; [by left|right].
    rewrite u32_small in E by (unfold U32 in *; lia). lia.
  - wp_go. eapply wp_mono; [apply memmove_loop_spec; [lia|lia|]|by intros ? ? ->].
    destruct (decide (s ≤ d)%nat) as [|Hds]; [done|exfalso].
    unfold u32 in E.
    assert ((Z.of_nat d - Z.of_nat s) mod U32 = Z.of_nat d - Z.of_nat s + U32) as Hmod.
    { symmetry. apply Z.mod_unique with (q := -1); unfold U32 in *; lia. }
    rewrite Hmod in E. unfold U32 in *. lia.
Qed.

(** ** String comparison *)

(** ** Filling *)
Lemma rep_stosb_spec s n c m :
  (s + n ≤ length m)%nat →
  wp (rep_stosb s n c) (λ r m', r = (s + n)%nat ∧ m' = splice s (replicate n (u8 c)) m) m.
Proof.
  revert s m. induction n as [|n IH]; intros s m Hl; cbn [rep_stosb replicate].
  { wp_keep. rewrite splice_nil. split; [lia|done]. }
  wp_keep. apply wp_store; [lia|]. eapply wp_mono; [apply IH; rewrite length_insert; lia|].
  intros r m' [-> ->]. split; [lia|]. apply insert_splice. lia.
Qed.
(** The word of four equal bytes that memset stores. *)
Definition repeated (c : Z) : Z :=
  Z.lor (Z.lor (Z.lor (u32 (Z.shiftl (u32 c) 24)) (u32 (Z.shiftl (u32 c) 16)))
               (u32 (Z.shiftl (u32 c) 8))) (u32 c).
Lemma repeated_bytes c :
  0 ≤ c < 256 → u8 (repeated c) = c ∧ u8 (Z.shiftr (repeated c) 8) = c ∧
  u8 (Z.shiftr (repeated c) 16) = c ∧ u8 (Z.shiftr (repeated c) 24) = c.
Proof.
  intros Hc.
  assert (forallb (λ c, (u8 (repeated c) =? c) && (u8 (Z.shiftr (repeated c) 8) =? c) &&
    (u8 (Z.shiftr (repeated c) 16) =? c) && (u8 (Z.shiftr (repeated c) 24) =? c)) (seqZ 0 256) = true) as Hall
    by (vm_compute; reflexivity).
  rewrite forallb_forall in Hall. specialize (Hall c). cbv beta in Hall.
  assert (In c (seqZ 0 256)) as Hin by (apply list_elem_of_In, elem_of_seqZ; lia).
  specialize (Hall Hin). bool_to_prop. split_and!; done.
Qed.
Lemma rep_stosl_spec s nd c m :
  0 ≤ c < 256 → (s + 4 * nd ≤ length m)%nat →
  wp (rep_stosl s nd (repeated c)) (λ r m', r = (s + 4 * nd)%nat ∧
    m' = splice s (replicate (4 * nd) c) m) m.
Proof.
  intros Hc. destruct (repeated_bytes c Hc) as (E0 & E1 & E2 & E3).
  revert s m. induction nd as [|nd IH]; intros s m Hl; cbn [rep_stosl].
  { wp_keep. rewrite Nat.mul_0_r. cbn [replicate]. rewrite splice_nil. split; [lia|done]. }
  unfold store32. rewrite E0, E1, E2, E3. wp_keep.
  do 3 (apply wp_store; [rewrite ?length_insert; lia|]; wp_keep).
  apply wp_store; [rewrite ?length_insert; lia|].
  eapply wp_mono; [apply IH; rewrite ?length_insert; lia|]. intros r m' [-> ->]. split; [lia|].
  replace (4 * S nd)%nat with (S (S (S (S (4 * nd))))) by lia. cbn [replicate].
  replace (s + 4)%nat with (S (s + 3)) by lia. replace (s + 3)%nat with (S (s + 2)) by lia.
  replace (s + 2)%nat with (S (s + 1)) by lia. replace (s + 1)%nat with (S s) by lia.
  by rewrite !insert_splice by (rewrite ?length_insert; lia).
Qed.
(** memset fills its range, whatever its alignment. *)
Lemma memset_spec s c n m :
  0 ≤ c < 256 → (s + n ≤ length m)%nat →
  wp (memset s c n) (λ r m', r = s ∧ m' = splice s (replicate n c) m) m.
Proof.
  intros Hc Hl. unfold memset. fold (repeated c). pose proof (u8_small c Hc) as Hu.
  destruct (aligned s && (4 <=? n)%nat) eqn:E.
  - apply andb_true_iff in E as [_ E]. bool_to_prop.
    pose proof (Nat.div_mod_eq n 4) as Hdm. pose proof (Nat.mod_upper_bound n 4 ltac:(lia)).
    wp_keep. eapply wp_mono; [apply rep_stosl_spec; [done|lia]|]. intros d m' [-> ->].
    wp_step; bool_to_prop; wp_keep.
    + split; [done|]. by replace (4 * (n / 4))%nat with n by lia.
    + eapply wp_mono; [apply rep_stosb_spec; rewrite length_splice; rewrite ?length_replicate; lia|].
      intros r m' [_ ->]. wp_keep. split; [done|]. rewrite Hu.
      pose proof (splice_splice m (replicate (4 * (n / 4)) c) (replicate (n - 4 * (n / 4)) c) s) as Happ.
      rewrite !length_replicate in Happ. rewrite Happ by lia. rewrite <-replicate_add. do 2 f_equal. lia.
  - wp_keep. eapply wp_mono; [by apply rep_stosb_spec|]. intros r m' [_ ->]. wp_keep. by rewrite Hu.
Qed.

(** What strcmp computes: the order of the first differing characters, read
    as signed. *)
Fixpoint str_order (a b : list Z) : Z :=
  match a, b with
  | [], [] => 0
  | [], y :: _ => if schar 0 <? schar y then -1 else 1
  | x :: _, [] => if schar x <? schar 0 then -1 else 1
  | x :: a, y :: b =>
      if x =? y then str_order a b else if schar x <? schar y then -1 else 1
  end.

Lemma str_order_zero a b :
  Forall (λ c, c ≠ 0) a → Forall (λ c, c ≠ 0) b → str_order a b = 0 ↔ a = b.
Proof.
  revert b. induction a as [|x a IH]; intros [|y b] Ha Hb; simpl; [done|..].
  - case_match; split; congruence || lia.
  - case_match; split; congruence || lia.
  - inversion_clear Ha. inversion_clear Hb. case_match; bool_to_prop.
    + subst. rewrite IH by done. naive_solver.
    + case_match; split; congruence || lia.
Qed.

Lemma strcmp_loop_spec fuel m p q a b :
  cstr m p a → cstr m q b → (length a < fuel)%nat →
  strcmp_loop fuel p q m = Done (str_order a b) m.
Proof.
  revert p q a b. induction fuel as [|fuel IH]; intros p q a b Ha Hb Hf; [lia|].
  destruct a as [|x a], b as [|y b]; simpl in *; destruct_and?; do 2 run_load.
  - done.
  - case_match; bool_to_prop; [congruence|done].
  - case_match; bool_to_prop; [congruence|done].
  - case_match; bool_to_prop; [|done].
    subst. rewrite (proj2 (Z.eqb_neq y 0)) by done. apply IH; [done|done|lia].
Qed.

Lemma strcmp_run m p q a b :
  cstr m p a → cstr m q b → strcmp p q m = Done (str_order a b) m.
Proof.
  intros Ha Hb. unfold strcmp. erewrite bind_run by reflexivity.
  apply strcmp_loop_spec; [done|done|]. apply cstr_lt in Ha. lia.
Qed.

(** Strcmp terminates on two strings, returns 0 exactly for equal strings
    and otherwise the sign of the first difference; memory is only read. *)
Lemma strcmp_spec m p q a b :
  cstr m p a → cstr m q b →
  wp (strcmp p q) (λ r m', m' = m ∧ r = str_order a b ∧ (r = 0 ↔ a = b)) m.
Proof.
  intros Ha Hb. eapply wp_run; [by apply strcmp_run|]. split_and!; [done|done|].
  apply str_order_zero; by eapply cstr_nonzero.
Qed.

(** ** Copying strings *)
Lemma strlen_loop_spec fuel m p s len :
  cstr m p s → (length s < fuel)%nat →
  strlen_loop fuel p len m = Done (len + length s)%nat m.
Proof.
  revert p len s. induction fuel as [|fuel IH]; intros p len s Hs Hf; [lia|].
  destruct s as [|c s]; simpl in *; destruct_and?; run_load.
  - simpl. by rewrite Nat.add_0_r.
  - rewrite (proj2 (Z.eqb_neq c 0)) by done. rewrite (IH _ _ s) by (done || lia). f_equal. lia.
Qed.
Lemma strlen_run m p s : cstr m p s → strlen p m = Done (length s) m.
Proof.
  intros Hs. unfold strlen. erewrite bind_run by reflexivity.
  rewrite (strlen_loop_spec _ _ _ s); [done|done|]. apply cstr_lt in Hs. lia.
Qed.

Definition apart (p n q k : nat) : Prop := (p + n ≤ q ∨ q + k ≤ p)%nat.

Lemma strlcpy_copy_spec n m d p s len :
  cstr m p s → (d + n ≤ length m)%nat → apart d n p (S (length s)) →
  wp (strlcpy_copy n d p len) (λ '(d', p', len') m',
    let k := (n `min` length s)%nat in
    d' = (d + k)%nat ∧ p' = (p + k)%nat ∧ len' = (len + k)%nat ∧
    m' = splice d (take k s) m) m.
Proof.
  unfold apart. revert m d p s len. induction n as [|n IH]; intros m d p s len Hs Hd Ha.
  { simpl. wp_go. rewrite take_0, splice_nil, !Nat.add_0_r. done. }
  simpl. wp_go. destruct s as [|c s]; simpl in Hs.
  { eapply wp_load; [exact Hs|]. simpl. wp_go. rewrite ?take_nil, ?take_0, splice_nil, !Nat.add_0_r. done. }
  destruct Hs as (Hc & Hc0 & Hs). eapply wp_load; [exact Hc|].
  apply wp_if; intros E; bool_to_prop; [done|]. simpl in Ha.
  wp_go. apply wp_store; [lia|]. eapply wp_mono.
  { apply (IH _ _ _ s); [|rewrite length_insert; lia|lia]. apply cstr_insert; [lia|done]. }
  intros [[d' p'] len'] m' (->&->&->&->). simpl. split_and!; [lia|lia|lia|].
  apply insert_splice. lia.
Qed.

(** Strlcpy stores the longest prefix of the source that fits together
    with its terminator and nothing else, and returns the length of the whole
    source, so that truncation shows as a result >= size. *)
Lemma strlcpy_spec m dst src s size :
  cstr m src s → (dst + size ≤ length m)%nat → apart dst size src (S (length s)) →
  wp (strlcpy dst src size) (λ r m', r = length s ∧
    m' = if (size =? 0)%nat then m else splice dst (take (size - 1) s ++ [0]) m) m.
Proof.
  intros Hs Hd Ha. unfold strlcpy. wp_go.
  eapply wp_mono. { apply strlcpy_copy_spec; [done|lia|]. unfold apart in *. lia. }
  intros [[d' p'] len'] m' (->&->&->&->). simpl.
  set (k := ((size - 1) `min` length s)%nat).
  assert (length (take k s) = k) as Hk by (rewrite length_take; lia).
  assert (Hrest : ∀ m1, cstr m1 (src + k)%nat (drop k s) → (length m1 = length m) →
    wp (fuel ← mem_fuel; strlen_loop fuel (src + k)%nat k) (λ r m', r = length s ∧ m' = m1) m1).
  { intros m1 H1 Hl. wp_go. apply wp_fuel. eapply wp_run.
    - eapply strlen_loop_spec; [done|]. rewrite length_drop. apply cstr_lt in Hs. lia.
    - rewrite length_drop. split; [lia|done]. }
  assert (cstr m (src + k)%nat (drop k s)) as Htail.
  { rewrite <-Hk at 1. apply cstr_app. by rewrite take_drop. }
  wp_go. destruct (size =? 0)%nat eqn:E; bool_to_prop; simpl.
  - subst size. subst k. simpl in *. wp_go. rewrite take_0, splice_nil. by apply Hrest.
  - rewrite (proj2 (Nat.ltb_lt 0 size)) by lia. simpl.
    apply wp_store; [rewrite length_splice; lia|].
    replace (dst + k)%nat with (dst + length (take k s))%nat by lia.
    rewrite <-(splice_nil (dst + length (take k s) + 1) (<[_:=0]> _)).
    rewrite Nat.add_1_r, insert_splice, splice_splice by (rewrite ?length_splice, ?Hk; simpl; lia).
    replace (take (size - 1) s) with (take k s).
    2: { subst k. destruct (decide (size - 1 ≤ length s)%nat).
         - by rewrite Nat.min_l. - rewrite Nat.min_r, firstn_all, take_ge by lia. done. }
    apply Hrest.
    + eapply cstr_ext; [|exact Htail]. intros i Hi. rewrite length_drop in Hi.
      apply splice_lookup_out; rewrite length_app, Hk; simpl; unfold apart in *; lia.
    + apply length_splice. rewrite length_app, Hk. simpl. lia.
Qed.

Lemma cstr_iff m p s :
  cstr m p s ↔ Forall (λ c, c ≠ 0) s ∧ (∀ i c, s !! i = Some c → m !! (p + i)%nat = Some c) ∧
    m !! (p + length s)%nat = Some 0.
Proof.
  split.
  - intros H. split_and!; [by eapply cstr_nonzero| |by apply cstr_end].
    intros i c. by apply cstr_lookup.
  - revert p. induction s as [|c s IH]; intros p (Hnz & Hl & He); simpl in *.
    + by rewrite Nat.add_0_r in He.
    + inversion_clear Hnz. split_and!; [|done|].
      * specialize (Hl 0%nat c eq_refl). by rewrite Nat.add_0_r in Hl.
      * apply IH. split_and!; [done| |by rewrite Nat.add_succ_r in He].
        intros i x Hi. specialize (Hl (S i) x Hi). by rewrite Nat.add_succ_r in Hl.
Qed.

Lemma cstr_splice m d s :
  Forall (λ c, c ≠ 0) s → (d + length s ≤ length m)%nat →
  cstr (splice d s m) d s ↔ m !! (d + length s)%nat = Some 0.
Proof.
  intros Hs Hl. rewrite cstr_iff, splice_lookup_out by lia. split; [naive_solver|].
  intros H0. split_and!; [done| |done]. intros i c Hi.
  pose proof (lookup_lt_Some _ _ _ Hi).
  rewrite splice_lookup_in by lia. by replace (d + i - d)%nat with i by lia.
Qed.

Lemma strcpy_loop_spec fuel m d p s :
  cstr m p s → (d + length s ≤ length m)%nat → apart d (length s) p (S (length s)) →
  (length s < fuel)%nat →
  wp (strcpy_loop fuel d p) (λ _ m', m' = splice d s m) m.
Proof.
  unfold apart. revert m d p s. induction fuel as [|fuel IH]; intros m d p s Hs Hd Ha Hf; [lia|].
  simpl. wp_go. destruct s as [|c s]; simpl in Hs.
  { eapply wp_load; [exact Hs|]. simpl. wp_go. by rewrite splice_nil. }
  destruct Hs as (Hc & Hc0 & Hs). simpl in *. eapply wp_load; [exact Hc|].
  apply wp_if; intros E; bool_to_prop; [done|].
  wp_go. apply wp_store; [lia|]. eapply wp_mono.
  { apply (IH _ _ _ s); rewrite ?length_insert; [|lia|lia|lia]. apply cstr_insert; [lia|done]. }
  intros _ m' ->. apply insert_splice. lia.
Qed.

(** Strcpy copies the characters of the source but not its terminator: the
    destination is the source string afterwards only if the byte behind the
    copied characters happened to be zero. *)
Lemma strcpy_spec m dst src s :
  cstr m src s → (dst + length s < length m)%nat → apart dst (length s) src (S (length s)) →
  wp (strcpy dst src) (λ r m', r = dst ∧ m' = splice dst s m ∧
    (cstr m' dst s ↔ m !! (dst + length s)%nat = Some 0)) m.
Proof.
  intros Hs Hd Ha. unfold strcpy. wp_keep. apply wp_fuel. wp_keep.
  eapply wp_mono; [apply (strcpy_loop_spec _ _ _ _ s); [done|lia|done|lia]|].
  intros _ m' ->. wp_go. split_and!; [done|done|].
  apply cstr_splice; [by eapply cstr_nonzero|lia].
Qed.

(** ** Searching *)
Lemma strstr_loop_spec fuel m p s q t :
  cstr m p s → cstr m q t → (length s < fuel)%nat →
  ∃ r, strstr_loop fuel p q m = Done r m ∧
    match r with
    | Some x => ∃ i, (x = p + i ∧ i < length s)%nat ∧ drop i s = t ∧
        ∀ j, (j < i)%nat → drop j s ≠ t
    | None => ∀ j, (j < length s)%nat → drop j s ≠ t
    end.
Proof.
  revert p s. induction fuel as [|fuel IH]; intros p s Hs Ht Hf; [lia|]. simpl.
  destruct s as [|c s].
  { simpl in Hs. run_load. exists None. simpl. split; [done|]. simpl. lia. }
  pose proof Hs as Hs0. destruct Hs0 as (Hc & Hc0 & Hs'). run_load.
  rewrite (proj2 (Z.eqb_neq c 0)) by done.
  erewrite bind_run by (by apply strcmp_run).
  destruct (decide (c :: s = t)) as [Heq|Hne].
  - rewrite (proj2 (str_order_zero _ _ (cstr_nonzero _ _ _ Hs) (cstr_nonzero _ _ _ Ht)) Heq).
    exists (Some p). split; [done|]. exists 0%nat. simpl. split_and!; [lia|lia|done|lia].
  - rewrite (proj2 (Z.eqb_neq _ 0)).
    2: { intros H%str_order_zero; [done|by eapply cstr_nonzero..]. }
    destruct (IH (S p) s) as (r & Hr & Hspec); [done|done|simpl in *; lia|].
    exists r. split; [done|]. destruct r as [x|].
    + destruct Hspec as (i & [-> Hi] & Hd & Hmin). exists (S i). simpl.
      split_and!; [lia|lia|done|]. intros [|j] Hj; [done|]. simpl. apply Hmin. lia.
    + intros [|j] Hj; [done|]. simpl in *. apply Hspec. lia.
Qed.

(** Strstr looks for the needle as a suffix, not as a substring: it
    returns the first proper position at which the rest of the string equals the
    needle, and [NULL] when there is none. *)
Lemma strstr_spec m p s q t :
  cstr m p s → cstr m q t →
  wp (strstr p q) (λ r m', m' = m ∧
    match r with
    | Some x => ∃ i, (x = p + i ∧ i < length s)%nat ∧ drop i s = t ∧
        ∀ j, (j < i)%nat → drop j s ≠ t
    | None => ∀ j, (j < length s)%nat → drop j s ≠ t
    end) m.
Proof.
  intros Hs Ht. unfold strstr. wp_keep. apply wp_fuel. cbv beta.
  destruct (strstr_loop_spec (S (length m)) m p s q t) as (r & Hr & Hspec); [done|done|..].
  { apply cstr_lt in Hs. lia. }
  by eapply wp_run.
Qed.

(** ** Tokens *)
Definition is_sep (sep : list Z) (a : Z) : bool := existsb (λ x, schar x =? schar a) sep.

Lemma strchr_loop_spec fuel m p s a :
  cstr m p s → (length s < fuel)%nat →
  ∃ r, strchr_loop fuel p (schar a) m = Done r m ∧ bool_decide (is_Some r) = is_sep s a.
Proof.
  revert p s. induction fuel as [|fuel IH]; intros p s Hs Hf; [lia|]. simpl.
  destruct s as [|c s]; simpl in Hs.
  { run_load. by exists None. }
  destruct Hs as (Hc & Hc0 & Hs). run_load.
  rewrite (proj2 (Z.eqb_neq c 0)) by done. simpl. destruct (schar c =? schar a).
  - by exists (Some p).
  - apply IH; [done|simpl in *; lia].
Qed.
Lemma strchr_run m p s a :
  cstr m p s → ∃ r, strchr p (schar a) m = Done r m ∧ bool_decide (is_Some r) = is_sep s a.
Proof.
  intros Hs. unfold strchr. erewrite bind_run by reflexivity.
  apply strchr_loop_spec; [done|]. apply cstr_lt in Hs. lia.
Qed.

(** Longest prefix whose elements satisfy [f], and the rest. *)
Fixpoint span (f : Z → bool) (s : list Z) : list Z * list Z :=
  match s with
  | [] => ([], [])
  | c :: s' => if f c then let (a, b) := span f s' in (c :: a, b) else ([], s)
  end.
Lemma span_app f s : (span f s).1 ++ (span f s).2 = s.
Proof. induction s as [|c s IH]; simpl; [done|]. destruct (f c), (span f s); simpl in *; congruence. Qed.
Lemma span_Forall f s : Forall (λ c, f c = true) (span f s).1.
Proof. induction s as [|c s IH]; simpl; [done|]. destruct (f c) eqn:E, (span f s); simpl in *; auto. Qed.
Lemma span_rest f s c t : (span f s).2 = c :: t → f c = false.
Proof.
  induction s as [|d s IH]; simpl; [done|]. destruct (f d) eqn:E, (span f s); simpl in *; naive_solver.
Qed.

Lemma strtok_skip_run fuel stop m p s q ss :
  cstr m p s → cstr m q ss → (length s < fuel)%nat →
  strtok_skip fuel stop p q m =
    Done (p + length (span (λ c, negb (Bool.eqb (is_sep ss c) stop)) s).1)%nat m.
Proof.
  revert p s. induction fuel as [|fuel IH]; intros p s Hs Hq Hf; [lia|]. simpl.
  destruct s as [|c s]; simpl in Hs.
  { run_load. simpl. by rewrite Nat.add_0_r. }
  destruct Hs as (Hc & Hc0 & Hs). run_load.
  rewrite (proj2 (Z.eqb_neq c 0)) by done. simpl.
  destruct (strchr_run m q ss c) as (r & Hr & Hb); [done|].
  erewrite bind_run by exact Hr. rewrite Hb. destruct (Bool.eqb _ _); simpl.
  - by rewrite Nat.add_0_r.
  - rewrite (IH (S p) s) by (done || simpl in *; lia).
    destruct (span _ s); simpl. f_equal. lia.
Qed.

(** What one call finds in [s]: the separators it skips, the token and the
    rest from the separator that ends it. *)
Definition next_token (sep s : list Z) : list Z * list Z * list Z :=
  let (skipped, s') := span (is_sep sep) s in
  let (tok, rest) := span (λ c, negb (is_sep sep c)) s' in (skipped, tok, rest).

Lemma span_ext f g s : (∀ c, f c = g c) → span f s = span g s.
Proof. intros H. induction s as [|c s IH]; simpl; [done|]. by rewrite H, IH. Qed.
Lemma eqb_false_r b : negb (Bool.eqb b false) = b.
Proof. by destruct b. Qed.
Lemma eqb_true_r b : negb (Bool.eqb b true) = negb b.
Proof. by destruct b. Qed.

Lemma cstr_cut m p tok rest : 
  cstr m p (tok ++ rest) → cstr (<[(p + length tok)%nat := 0]> m) p tok.
Proof.
  intros H. pose proof (cstr_lt _ _ _ H) as Hl. rewrite length_app in Hl. apply cstr_iff in H as (Hnz & Hlk & _).
  apply Forall_app in Hnz as [Hnz _]. apply cstr_iff. split_and!; [done| |].
  - intros i c Hi. pose proof (lookup_lt_Some _ _ _ Hi).
    rewrite list_lookup_insert_ne by lia. apply Hlk. by apply lookup_app_l_Some.
  - apply list_lookup_insert_eq. lia.
Qed.

(** strtok_r returns the first maximal run of non-separators as a
    terminated string, remembers where to go on, writes only the terminator, and
    returns [NULL] when only separators are left. *)
Lemma strtok_r_spec m p s q ss last :
  cstr m p s → cstr m q ss → apart p (S (length s)) q (S (length ss)) →
  let '(skipped, tok, rest) := next_token ss s in
  wp (strtok_r (Some p) q last) (λ '(r, l) m', length m' = length m ∧ cstr m' q ss ∧
    match tok with
    | [] => r = None ∧ l = None ∧ m' = m ∧ rest = []
    | _ => let t := (p + length skipped)%nat in
           r = Some t ∧ cstr m' t tok ∧ m' = <[(t + length tok)%nat := 0]> m ∧
           match rest with
           | [] => l = None
           | _ :: rest' => l = Some (S (t + length tok)) ∧ cstr m' (S (t + length tok)) rest'
           end
    end) m.
Proof.
  intros Hs Hq Ha. unfold next_token.
  destruct (span (is_sep ss) s) as [skipped s'] eqn:E1.
  destruct (span (λ c, negb (is_sep ss c)) s') as [tok rest] eqn:E2.
  assert (s = skipped ++ s') as Hs1 by (by rewrite <-(span_app (is_sep ss) s), E1).
  assert (s' = tok ++ rest) as Hs2 by (by rewrite <-(span_app (λ c, negb (is_sep ss c)) s'), E2).
  assert (cstr m (p + length skipped)%nat s') as Hs' by (apply cstr_app; by rewrite <-Hs1).
  assert (Hlen : (length s < S (length m))%nat) by (apply cstr_lt in Hs; lia).
  unfold strtok_r. wp_keep. apply wp_fuel. wp_keep.
  eapply wp_run; [by apply (strtok_skip_run _ _ _ _ s _ ss)|].
  rewrite (span_ext _ (is_sep ss)), E1 by (intros; apply eqb_false_r). cbn [fst]. wp_keep.
  destruct s' as [|c s'].
  { simpl in Hs', E2. injection E2 as <- <-. eapply wp_load; [exact Hs'|]. simpl. by wp_go. }
  assert (is_sep ss c = false) as Hc by (apply (span_rest (is_sep ss) s _ s'); by rewrite E1).
  pose proof Hs' as Hs0. destruct Hs0 as (Hl & Hc0 & _). eapply wp_load; [exact Hl|].
  rewrite (proj2 (Z.eqb_neq c 0)) by done. simpl in E2. rewrite Hc in E2. simpl in E2. wp_keep.
  eapply wp_run; [apply (strtok_skip_run _ _ _ _ (c :: s') _ ss); [done|done|]|].
  { rewrite Hs1, length_app in Hlen. simpl in *. lia. }
  rewrite (span_ext _ (λ c, negb (is_sep ss c))) by (intros; apply eqb_true_r).
  simpl. rewrite Hc. simpl. destruct (span _ s') as [tok' rest'] eqn:E3.
  injection E2 as <- <-. cbn [fst].
  set (t := (p + length skipped)%nat) in *. set (tok := c :: tok') in *.
  pose proof (cstr_lt _ _ _ Hs') as Hlt. rewrite Hs2, length_app in Hlt. rewrite Hs2 in Hs'.
  rewrite Hs1, length_app, Hs2, length_app in Ha. unfold apart in Ha.
  destruct (lookup_lt_is_Some_2 m (t + length tok)) as [e He]; [lia|].
  wp_keep. eapply wp_load; [exact He|]. wp_keep. apply wp_store; [lia|]. wp_keep.
  split_and!; [by rewrite length_insert|apply cstr_insert; [lia|done]|done| |done|].
  { by eapply cstr_cut. }
  pose proof (cstr_app _ _ _ _ Hs') as Hr. destruct rest' as [|e' rest'].
  - cbn [cstr] in Hr. assert (e = 0) as -> by congruence. done.
  - destruct Hr as (Hr1 & He0 & Hr2). assert (e = e') as -> by congruence.
    rewrite (proj2 (Z.eqb_neq e' 0)) by done. split; [done|]. apply cstr_insert; [lia|done].
Qed.

(** ** Iterating strtok_r over a private copy

    The loops [for (t = strtok_r(copy, sep, &p); t; t = strtok_r(NULL, sep, &p))]
    of vfs.c, cmdline.c and fb_console.c visit the strings below, one after the
    other; [copy] is memory of their own. *)
Definition read_str (p : ptr) : K mem (list Z) :=
  n ← strlen p; gets (λ m, take n (drop p m)).

Fixpoint tok_loop (fuel : nat) (str : option ptr) (sep : ptr) (last : option ptr)
    : K mem (list (list Z)) :=
  match fuel with
  | O => out_of_fuel
  | S fuel =>
      '(r, last) ← strtok_r str sep last;
      match r with
      | None => mret []
      | Some p => t ← read_str p; ts ← tok_loop fuel None sep last; mret (t :: ts)
      end
  end.

(** The token strings of [s], computed in a memory that holds [s] and [sep]. *)
Definition strtok_all {S} (s sep : list Z) : K S (list (list Z)) := λ st,
  match tok_loop (2 + length s) (Some 0%nat) (1 + length s)%nat None (s ++ 0 :: sep ++ [0]) with
  | Done ts _ => Done ts st
  | Panic => Panic
  | Undef => Undef
  | OutOfFuel => OutOfFuel
  end.

(** The reference: cut at separators and drop the empty pieces. *)
Fixpoint split_aux (f : Z → bool) (cur : list Z) (s : list Z) : list (list Z) :=
  match s with
  | [] => match cur with [] => [] | _ => [cur] end
  | c :: s =>
      if f c then match cur with [] => split_aux f [] s | _ => cur :: split_aux f [] s end
      else split_aux f (cur ++ [c]) s
  end.
Definition split (sep s : list Z) : list (list Z) := split_aux (is_sep sep) [] s.

Lemma split_skip f s : split_aux f [] s = split_aux f [] (span f s).2.
Proof.
  induction s as [|c s IH]; simpl; [done|].
  destruct (f c) eqn:E; simpl; [|by rewrite E]. destruct (span f s); simpl in *. done.
Qed.
Lemma split_take f cur s :
  cur ++ (span (negb ∘ f) s).1 ≠ [] →
  split_aux f cur s =
    (cur ++ (span (negb ∘ f) s).1) :: split_aux f [] (tail (span (negb ∘ f) s).2).
Proof.
  revert cur. induction s as [|c s IH]; intros cur; simpl.
  - rewrite app_nil_r. by destruct cur.
  - destruct (f c) eqn:E; simpl.
    + rewrite app_nil_r. by destruct cur.
    + destruct (span (negb ∘ f) s) as [a b] eqn:Es; simpl in *. intros _.
      rewrite IH by (destruct cur; done). by rewrite <-app_assoc.
Qed.

Lemma read_str_run m p s : cstr m p s → read_str p m = Done s m.
Proof.
  intros H. unfold read_str. erewrite bind_run by by apply strlen_run.
  unfold gets. f_equal. apply list_eq. intros i.
  destruct (decide (i < length s)%nat) as [Hi|Hi].
  - rewrite lookup_take_lt, lookup_drop by done.
    destruct (lookup_lt_is_Some_2 s i Hi) as [c Hc]. rewrite Hc. by eapply cstr_lookup.
  - rewrite lookup_take_ge, lookup_ge_None_2 by lia. done.
Qed.

Lemma tok_loop_run fuel m p s q ss last :
  cstr m p s → cstr m q ss → apart p (S (length s)) q (S (length ss)) →
  (S (length s) < fuel)%nat →
  ∃ m', tok_loop fuel (Some p) q last m = Done (split ss s) m'.
Proof.
  revert m p s last. induction fuel as [|fuel IH]; intros m p s last Hs Hq Ha Hf; [lia|].
  pose proof (strtok_r_spec m p s q ss last Hs Hq Ha) as Hspec. unfold next_token in Hspec.
  unfold split. rewrite split_skip.
  destruct (span (is_sep ss) s) as [skipped s'] eqn:E1. simpl.
  destruct (span (λ c, negb (is_sep ss c)) s') as [tok rest] eqn:E2.
  change (λ c, negb (is_sep ss c)) with (negb ∘ is_sep ss) in E2.
  assert (s = skipped ++ s') as Hs1 by (by rewrite <-(span_app (is_sep ss) s), E1).
  assert (s' = tok ++ rest) as Hs2 by (by rewrite <-(span_app (negb ∘ is_sep ss) s'), E2).
  apply wp_done in Hspec as ([r l] & m' & Hr & Hl & Hq' & Hspec). erewrite bind_run by exact Hr.
  destruct tok as [|c tok].
  { destruct Hspec as (-> & -> & -> & ->). exists m. by rewrite Hs2. }
  destruct Hspec as (-> & Ht & _ & Hrest). erewrite bind_run by by apply read_str_run.
  rewrite (split_take (is_sep ss) [] s') by (rewrite E2; done). rewrite E2. simpl.
  apply (f_equal length) in Hs1, Hs2. rewrite length_app in Hs1, Hs2. simpl in Hs1, Hs2.
  unfold apart in *. destruct rest as [|e rest].
  - subst l. destruct fuel as [|fuel]; [lia|]. by exists m'.
  - destruct Hrest as [-> Hrest]. simpl in *.
    destruct (IH m' (S (p + length skipped + S (length tok)))%nat rest None) as [m'' Hm'']; [done|done|lia|lia|].
    exists m''. destruct fuel as [|fuel]; [lia|].
    change (tok_loop (S fuel) None q (Some ?x)) with (tok_loop (S fuel) (Some x) q None).
    erewrite bind_run by exact Hm''. done.
Qed.

(** Memory that starts with [s ++ 0 :: ...] holds the string [s] there. *)
Lemma cstr_here pre s rest :
  Forall (λ c, c ≠ 0) s → cstr (pre ++ s ++ 0 :: rest) (length pre) s.
Proof.
  revert pre. induction s as [|c s IH]; intros pre Hs; simpl.
  - by rewrite list_lookup_middle.
  - inversion_clear Hs. split_and!; [by rewrite list_lookup_middle|done|].
    replace (S (length pre)) with (length (pre ++ [c])) by (rewrite length_app; simpl; lia).
    replace (pre ++ c :: s ++ 0 :: rest) with ((pre ++ [c]) ++ s ++ 0 :: rest) by by rewrite <-app_assoc.
    by apply IH.
Qed.

(** The tokenising loop terminates on every string and visits exactly the
    non-empty pieces between separators, in order. *)
Lemma strtok_all_spec {S} (s sep : list Z) (st : S) :
  Forall (λ c, c ≠ 0) s → Forall (λ c, c ≠ 0) sep →
  strtok_all s sep st = Done (split sep s) st.
Proof.
  intros Hs Hsep. unfold strtok_all.
  destruct (tok_loop_run (2 + length s) (s ++ 0 :: sep ++ [0]) 0 s (1 + length s) sep None)
    as [m' ->]; [by apply (cstr_here [])| |unfold apart; lia|lia|done].
  pose proof (cstr_here (s ++ [0]) sep [] Hsep) as H. rewrite length_app in H. simpl in H.
  by rewrite Nat.add_1_r, <-app_assoc in H.
Qed.

(** ** Witnesses *)
Definition sample : mem := lit "xay" ++ [0] ++ lit "ay" ++ [0] ++ replicate 9 255.
Lemma sample_xay : cstr sample 0 (lit "xay").
Proof. by repeat split. Qed.
Lemma sample_ay : cstr sample 4 (lit "ay").
Proof. by repeat split. Qed.

Lemma memmove_spec_witness :
  wp (memmove 2 0 4) (λ r m', r = 2%nat ∧ m' = splice 2 (take 4 (drop 0 sample)) sample) sample.
Proof.
  apply (memmove_spec 2 0 4 sample); [|vm_compute; lia|vm_compute; lia|vm_compute; congruence].
  unfold sample, bytes. repeat constructor; vm_compute; congruence.
Defined.
Lemma strcmp_spec_witness :
  wp (strcmp 0 4) (λ r m', m' = sample ∧ r = str_order (lit "xay") (lit "ay") ∧
    (r = 0 ↔ lit "xay" = lit "ay")) sample.
Proof. apply (strcmp_spec sample 0 4 (lit "xay") (lit "ay") sample_xay sample_ay). Defined.
Lemma strlcpy_spec_witness :
  wp (strlcpy 8 0 3) (λ r m', r = 3%nat ∧
    m' = if (3 =? 0)%nat then sample else splice 8 (take (3 - 1) (lit "xay") ++ [0]) sample) sample.
Proof.
  apply (strlcpy_spec sample 8 0 (lit "xay") 3 sample_xay); [vm_compute; lia|unfold apart; simpl; lia].
Defined.
Lemma strcpy_spec_witness :
  wp (strcpy 8 4) (λ r m', r = 8%nat ∧ m' = splice 8 (lit "ay") sample ∧
    (cstr m' 8 (lit "ay") ↔ sample !! (8 + 2)%nat = Some 0)) sample.
Proof.
  apply (strcpy_spec sample 8 4 (lit "ay") sample_ay); [vm_compute; lia|unfold apart; simpl; lia].
Defined.
Lemma strstr_spec_witness :
  wp (strstr 0 4) (λ r m', m' = sample ∧
    match r with
    | Some x => ∃ i, (x = 0 + i ∧ i < length (lit "xay"))%nat ∧ drop i (lit "xay") = lit "ay" ∧
        ∀ j, (j < i)%nat → drop j (lit "xay") ≠ lit "ay"
    | None => ∀ j, (j < length (lit "xay"))%nat → drop j (lit "xay") ≠ lit "ay"
    end) sample.
Proof. apply (strstr_spec sample 0 (lit "xay") 4 (lit "ay") sample_xay sample_ay). Defined.
Example strtok_r_example :
  wp (strtok_r (Some 0%nat) 4 None) (λ '(r, l) m', length m' = length sample ∧ cstr m' 4 (lit "ay") ∧
    r = Some 0%nat ∧ cstr m' 0 (lit "x") ∧ m' = <[1%nat := 0]> sample ∧
    l = Some 2%nat ∧ cstr m' 2 (lit "y")) sample.
Proof.
  refine (wp_mono _ _ _ _ (strtok_r_spec sample 0 (lit "xay") 4 (lit "ay") None
    sample_xay sample_ay _) _); [unfold apart; simpl; lia|].
  intros [r l] m'. simpl. naive_solver.
Defined.
Example strtok_all_example :
  strtok_all (lit "/usr//bin/") (lit "/") tt = Done [lit "usr"; lit "bin"] tt.
Proof.
  apply (strtok_all_spec (lit "/usr//bin/") (lit "/") tt);
    repeat constructor; vm_compute; congruence.
Defined.
