(* ===== verification/CLib.v ===== *)
(** * Numbers, formatting and sorting in the shared library
    (common/stdio.c, common/stdlib.c, common/strings.c, common/libgen.c,
    common/extra.h)

    The formatting buffer and the strings that are written to live in the byte
    memory of CString; the format, being only read, is the list of its bytes
    with the terminator, and reading behind it is undefined. The variable
    arguments are a list. *)
From S2P Require Import Prelude CString.

(** ** strings.c *)
Fixpoint strcasecmp_loop (fuel : nat) (s1 s2 : ptr) : K mem Z :=
  match fuel with
  | O => out_of_fuel
  | S fuel =>
      a ← load s1; b ← load s2;
      if tolower (schar a) =? tolower (schar b) then
        if schar a =? 0 then mret 0 else strcasecmp_loop fuel (S s1) (S s2)
      else mret (if tolower (schar a) <? tolower (schar b) then -1 else 1)
  end.
Definition strcasecmp (s1 s2 : ptr) : K mem Z := fuel ← mem_fuel; strcasecmp_loop fuel s1 s2.

Fixpoint strncasecmp (s1 s2 : ptr) (n : nat) : K mem Z :=
  match n with
  | O => mret 0
  | S n =>
      a ← load s1; b ← load s2;
      if tolower (schar a) =? tolower (schar b) then
        if a =? 0 then mret 0 else strncasecmp (S s1) (S s2) n
      else mret (tolower a - tolower b)
  end.

(** ** extra.h *)
Fixpoint str_is_uint_loop (fuel : nat) (s : ptr) : K mem bool :=
  match fuel with
  | O => out_of_fuel
  | S fuel =>
      c ← load s;
      if c =? 0 then mret true
      else if isdigit (schar c) then str_is_uint_loop fuel (S s) else mret false
  end.
Definition str_is_uint (s : ptr) : K mem bool := fuel ← mem_fuel; str_is_uint_loop fuel s.

(** ** libgen.c: the result is one of two literals or a pointer. *)
Inductive base_name := BaseDot | BaseRoot | BaseAt (p : ptr).

Fixpoint strip_slashes (path : ptr) (len : nat) : K mem nat :=
  match len with
  | S (S _ as n) =>
      c ← load (path + n)%nat;
      if c =? ch "/" then _ ← store (path + n)%nat 0; strip_slashes path n else mret len
  | _ => mret len
  end.
Definition basename (path : option ptr) : K mem base_name :=
  match path with
  | None => mret BaseDot
  | Some path =>
      len ← strlen path;
      if (len =? 0)%nat then mret BaseDot
      else
        len ← strip_slashes path len;
        last_slash ← strrchr path (ch "/");
        match last_slash with
        | None => mret (BaseAt path)
        | Some p => if (len =? 1)%nat then mret BaseRoot else mret (BaseAt (S p))
        end
  end.

(** ** stdlib.c *)
Definition INT_MAX : Z := 2147483647.
Definition INT_MIN : Z := -2147483648.
(** Signed arithmetic is undefined when the result does not fit. *)
Definition int_arith {S} (x : Z) : K S Z :=
  if (INT_MIN <=? x) && (x <=? INT_MAX) then mret x else undef.

Fixpoint atoi_space (fuel : nat) (str : ptr) : K mem ptr :=
  match fuel with
  | O => out_of_fuel
  | S fuel =>
      c ← load str;
      if negb (c =? 0) && isspace (schar c) then atoi_space fuel (S str) else mret str
  end.
Fixpoint atoi_digits (fuel : nat) (str : ptr) (res : Z) : K mem Z :=
  match fuel with
  | O => out_of_fuel
  | S fuel =>
      c ← load str;
      if (ch "0" <=? schar c) && (schar c <=? ch "9") then
        res ← int_arith (res * 10);
        res ← int_arith (res + (schar c - ch "0"));
        atoi_digits fuel (S str) res
      else mret res
  end.
Definition atoi (str : ptr) : K mem Z :=
  c ← load str;
  if c =? 0 then mret 0
  else fuel ← mem_fuel; str ← atoi_space fuel str; atoi_digits fuel str 0.

Definition abs {S} (i : Z) : K S Z := if i <? 0 then int_arith (- i) else mret i.

(** ** stdio.c *)

(** The digits of [itoa], least significant first. *)
Fixpoint itoa_digits (fuel : nat) (uvalue radix : Z) : list Z :=
  match fuel with
  | O => []
  | S fuel =>
      let mod_ := uvalue mod radix in
      let c := if mod_ <? 10 then mod_ + ch "0" else mod_ - 10 + ch "a" in
      let uvalue := uvalue / radix in
      c :: (if uvalue =? 0 then [] else itoa_digits fuel uvalue radix)
  end.
(** The exchange loop [while (p1 < p2)]. *)
Fixpoint reverse_loop (fuel : nat) (p1 p2 : nat) (s : list Z) : list Z :=
  match fuel with
  | O => s
  | S fuel =>
      if (p1 <? p2)%nat then
        let a := s !!! p1 in let b := s !!! p2 in
        reverse_loop fuel (S p1) (p2 - 1) (<[p2 := a]> (<[p1 := b]> s))
      else s
  end.
(** The string stored to [str], without its terminator. A 32-bit number has at
    most 32 digits, so that fuel 32 is enough for every radix. *)
Definition itoa {S} (value radix : Z) : K S (list Z) :=
  if (radix =? 10) && (value <? 0) then
    uvalue ← int_arith (- value);
    let d := itoa_digits 32 uvalue radix in
    mret (ch "-" :: reverse_loop (length d) 0 (length d - 1) d)
  else
    let d := itoa_digits 32 (u32 value) radix in
    mret (reverse_loop (length d) 0 (length d - 1) d).

Inductive arg : Type :=
  | AInt (v : Z)
  | AStr (s : option (list Z)).
Definition va_int {S} (args : list arg) : K S (Z * list arg) :=
  match args with AInt v :: args => mret (v, args) | _ => undef end.
Definition va_str {S} (args : list arg) : K S (option (list Z) * list arg) :=
  match args with AStr s :: args => mret (s, args) | _ => undef end.
(** [*format++] *)
Definition next {S} (format : list Z) : K S (Z * list Z) :=
  match format with c :: format => mret (c, format) | [] => undef end.

Section vsnprintf.
Context (buffer : ptr) (size : Z).

(** [buffer[idx++] = c; if (idx >= size) goto too_long;] — the flag says
    whether the jump was taken. *)
Definition emit (idx c : Z) : K mem (Z * bool) :=
  _ ← store (buffer + Z.to_nat idx)%nat (u8 c); mret (idx + 1, size <=? idx + 1).
Fixpoint emit_all (idx : Z) (cs : list Z) : K mem (Z * bool) :=
  match cs with
  | [] => mret (idx, false)
  | c :: cs =>
      '(idx, stop) ← emit idx c;
      if (stop : bool) then mret (idx, true) else emit_all idx cs
  end.

(** The flag [0] and the one-digit width. *)
Definition read_pad0 (c : Z) (format : list Z) : K mem (bool * Z * list Z) :=
  if c =? ch "0" then '(c, format) ← next format; mret (true, c, format)
  else mret (false, c, format).
Definition read_pad_len (c : Z) (format : list Z) : K mem (Z * Z * list Z) :=
  if (ch "0" <=? c) && (c <=? ch "9")
  then '(c', format) ← next format; mret (c - ch "0", c', format)
  else mret (0, c, format).

(** The argument of a number conversion: index, jump flag, digits, rest of the
    format and of the arguments. *)
Definition read_number (idx c : Z) (format : list Z) (args : list arg)
    : K mem (Z * bool * list Z * list Z * list arg) :=
  '(c', format') ← next format;
  if c' =? ch "x" then
    _ ← store (buffer + Z.to_nat idx)%nat (ch "0");
    _ ← store (buffer + Z.to_nat (idx + 1))%nat (ch "x");
    let idx := idx + 2 in
    if size <=? idx then mret (idx, true, [], format, args)
    else '(v, args) ← va_int args; s ← itoa v 16; mret (idx, false, s, format', args)
  else '(v, args) ← va_int args; s ← itoa v (if c =? ch "x" then 16 else 10);
       mret (idx, false, s, format, args).

(** One conversion after its [%]: index, jump flag, rest of the format and of
    the arguments. *)
Definition conversion (idx : Z) (c : Z) (format : list Z) (args : list arg)
    : K mem (Z * bool * list Z * list arg) :=
  if c =? ch "%" then
    '(idx, stop) ← emit idx (ch "%"); mret (idx, stop, format, args)
  else
    '(pad0, c, format) ← read_pad0 c format;
    '(pad_len, c, format) ← read_pad_len c format;
    if c =? ch "c" then
      '(v, args) ← va_int args; '(idx, stop) ← emit idx v; mret (idx, stop, format, args)
    else if (c =? ch "d") || (c =? ch "i") || (c =? ch "u") || (c =? ch "x") || (c =? ch "#") then
      '(idx, stop, num_buf, format, args) ← read_number idx c format args;
      if (stop : bool) then mret (idx, true, format, args)
      else
        let pad := replicate (Z.to_nat (pad_len - Z.of_nat (length num_buf)))
                             (if (pad0 : bool) then ch "0" else ch " ") in
        '(idx, stop) ← emit_all idx (pad ++ num_buf); mret (idx, stop, format, args)
    else if c =? ch "s" then
      '(s, args) ← va_str args;
      '(idx, stop) ← emit_all idx (default (lit "(null)") s); mret (idx, stop, format, args)
    else '(idx, stop) ← emit idx (ch "?"); mret (idx, stop, format, args).

(** The loop over the format; its end and the label [too_long] are the same. *)
Fixpoint format_loop (fuel : nat) (idx : Z) (format : list Z) (args : list arg) : K mem Z :=
  match fuel with
  | O => out_of_fuel
  | S fuel =>
      '(c, format) ← next format;
      if c =? 0 then mret idx
      else if negb (c =? ch "%") then
        '(idx, stop) ← emit idx c;
        if (stop : bool) then mret idx else format_loop fuel idx format args
      else
        '(c, format) ← next format;
        '(idx, stop, format, args) ← conversion idx c format args;
        if (stop : bool) then mret idx else format_loop fuel idx format args
  end.

Definition vsnprintf (format : list Z) (args : list arg) : K mem Z :=
  if size =? 0 then mret 0
  else
    idx ← format_loop (S (length format)) 0 format args;
    let last := if idx <? size then idx else size - 1 in
    _ ← store (buffer + Z.to_nat last)%nat 0;
    mret idx.
End vsnprintf.

Definition vsprintf (buffer : ptr) (format : list Z) (args : list arg) : K mem Z :=
  vsnprintf buffer SIZE_MAX format args.
Definition sprintf (buffer : ptr) (format : list Z) (args : list arg) : K mem Z :=
  vsnprintf buffer SIZE_MAX format args.
Definition snprintf (buffer : ptr) (bufsz : Z) (format : list Z) (args : list arg) : K mem Z :=
  vsnprintf buffer bufsz format args.

Definition fmt (s : String.string) : list Z := lit s ++ [0].
#[global] Arguments fmt s%_string_scope.
Definition run_fmt (size : Z) (n : nat) (format : list Z) (args : list arg) : outcome mem Z :=
  vsnprintf 0 size format args (replicate n 255).

(** ** Conversions between numbers and strings *)

Lemma reverse_loop_rev fuel p1 p2 (s : list Z) :
  (p1 + p2 = length s - 1)%nat → (p2 < p1 + 2 * fuel)%nat → (p1 ≤ p2 + 1)%nat →
  ∀ i, (i < length s)%nat →
  reverse_loop fuel p1 p2 s !! i =
    if decide (p1 ≤ i ≤ p2)%nat then s !! (length s - 1 - i)%nat else s !! i.
Proof.
  revert p1 p2 s. induction fuel as [|fuel IH]; intros p1 p2 s Hsum Hf Hle i Hi; simpl.
  { rewrite decide_False by lia. done. }
  destruct (p1 <? p2)%nat eqn:E; bool_to_prop.
  - assert (p2 < length s)%nat by lia.
    rewrite IH; rewrite ?length_insert; [|lia..].
    destruct (decide (i = p1)) as [->|Hi1].
    { rewrite decide_False, decide_True by lia.
      rewrite list_lookup_insert_ne, list_lookup_insert_eq by lia.
      rewrite list_lookup_lookup_total_lt by lia. do 2 f_equal. lia. }
    destruct (decide (i = p2)) as [->|Hi2].
    { rewrite decide_False, decide_True by lia.
      rewrite list_lookup_insert_eq by (rewrite length_insert; lia).
      rewrite list_lookup_lookup_total_lt by lia. do 2 f_equal. lia. }
    destruct (decide (p1 ≤ i ≤ p2)%nat).
    + rewrite decide_True by lia. rewrite !list_lookup_insert_ne by lia. done.
    + rewrite decide_False by lia. rewrite !list_lookup_insert_ne by lia. done.
  - destruct (decide _) as [Hd|]; [|done]. f_equal. lia.
Qed.
Lemma length_reverse_loop fuel p1 p2 s : length (reverse_loop fuel p1 p2 s) = length s.
Proof.
  revert p1 p2 s. induction fuel as [|fuel IH]; intros p1 p2 s; simpl; [done|].
  case_match; [|done]. by rewrite IH, !length_insert.
Qed.
(** The exchange loop of itoa reverses the digits. *)
Lemma reverse_digits d : d ≠ [] → reverse_loop (length d) 0 (length d - 1) d = reverse d.
Proof.
  intros Hd. assert (0 < length d)%nat by (destruct d; simpl; [done|lia]).
  apply list_eq. intros i. destruct (decide (i < length d)%nat).
  - rewrite reverse_loop_rev by lia. rewrite decide_True by lia.
    rewrite reverse_lookup by lia. f_equal. lia.
  - rewrite !lookup_ge_None_2; [done|rewrite length_reverse|rewrite length_reverse_loop]; lia.
Qed.

Definition digit_value (c : Z) : Z := c - ch "0".
(** The number a digit string denotes, most significant digit first. *)
Definition decimal (s : list Z) : Z := foldl (λ n c, n * 10 + digit_value c) 0 s.

Lemma itoa_digits_spec fuel v :
  0 ≤ v < 10 ^ Z.of_nat fuel → (0 < fuel)%nat →
  itoa_digits fuel v 10 ≠ [] ∧ Forall (λ c, ch "0" ≤ c ≤ ch "9") (itoa_digits fuel v 10) ∧
  foldr (λ c n, n * 10 + digit_value c) 0 (itoa_digits fuel v 10) = v.
Proof.
  revert v. induction fuel as [|fuel IH]; intros v Hv Hf; [lia|]. simpl.
  change (ch "0") with 48 in *. change (ch "9") with 57 in *.
  pose proof (Z.mod_pos_bound v 10 ltac:(lia)). pose proof (Z.div_mod v 10 ltac:(lia)) as Hdm.
  rewrite (proj2 (Z.ltb_lt (v mod 10) 10)) by lia. unfold digit_value in *.
  change (ch "0") with 48 in *.
  split; [done|]. rewrite Nat2Z.inj_succ, Z.pow_succ_r in Hv by lia.
  destruct (v / 10 =? 0) eqn:E; bool_to_prop; simpl.
  - split; [repeat constructor; lia|]. lia.
  - assert (0 < fuel)%nat. { destruct fuel; [|lia]. simpl in Hv. lia. }
    destruct (IH (v / 10)) as (_ & HF & Hfold); [|done|].
    + split; [apply Z.div_pos; lia|]. apply Z.div_lt_upper_bound; lia.
    + split; [constructor; [lia|done]|]. rewrite Hfold. lia.
Qed.

Lemma decimal_app s c : decimal (s ++ [c]) = decimal s * 10 + digit_value c.
Proof. unfold decimal. by rewrite foldl_snoc. Qed.
Lemma decimal_reverse d : decimal (reverse d) = foldr (λ c n, n * 10 + digit_value c) 0 d.
Proof. induction d as [|c d IH]; [done|]. rewrite reverse_cons, decimal_app, IH. done. Qed.
Lemma decimal_mono t n :
  0 ≤ n → Forall (λ c, ch "0" ≤ c ≤ ch "9") t →
  n ≤ foldl (λ n c, n * 10 + digit_value c) n t.
Proof.
  revert n. induction t as [|c t IH]; intros n Hn Ht; simpl; [lia|].
  inversion_clear Ht as [|? ? Hc Ht'].
  assert (0 ≤ digit_value c) by (unfold digit_value; lia).
  etrans; [|apply IH; [lia|done]]. lia.
Qed.

(** The number a string begins with, as atoi reads it: white space, then the
    longest run of digits. *)
Definition number_of (s : list Z) : Z :=
  decimal (span isdigit (span isspace s).2).1.

Lemma isdigit_schar c : 0 ≤ c < 256 → isdigit (schar c) = isdigit c.
Proof.
  intros Hc. unfold schar. rewrite u8_small by done. case_match; [done|]. bool_to_prop.
  unfold isdigit. change (ch "0") with 48. change (ch "9") with 57.
  destruct (48 <=? c - 256) eqn:E1, (c <=? 57) eqn:E2; bool_to_prop; try lia; simpl; by rewrite andb_false_r.
Qed.
Lemma isspace_schar c : 0 ≤ c < 256 → isspace (schar c) = isspace c.
Proof.
  intros Hc. unfold schar. rewrite u8_small by done. case_match; [done|]. bool_to_prop.
  unfold isspace.
  repeat first [rewrite (proj2 (Z.eqb_neq (c - 256) _)) by lia
               |rewrite (proj2 (Z.eqb_neq c _)) by lia].
  done.
Qed.

Lemma atoi_space_run fuel m p s :
  cstr m p s → Forall (λ c, 0 ≤ c < 256) s → (length s < fuel)%nat →
  atoi_space fuel p m = Done (p + length (span isspace s).1)%nat m.
Proof.
  revert p s. induction fuel as [|fuel IH]; intros p s Hs Hb Hf; [lia|]. simpl.
  destruct s as [|c s]; simpl in Hs.
  { run_load. simpl. by rewrite Nat.add_0_r. }
  destruct Hs as (Hc & Hc0 & Hs). inversion_clear Hb as [|? ? Hbc Hb']. run_load.
  rewrite (proj2 (Z.eqb_neq c 0)) by done. rewrite isspace_schar by done. simpl.
  destruct (isspace c); simpl; [|by rewrite Nat.add_0_r].
  rewrite (IH _ s) by (simpl in *; done || lia).
  destruct (span isspace s); simpl. f_equal. lia.
Qed.

(** Digits up to the first other character are added to the number; the
    result has to fit an [int]. *)
Lemma atoi_digits_span fuel m p s n :
  cstr m p s → Forall (λ c, 0 ≤ c < 256) s → (length s < fuel)%nat → 0 ≤ n →
  foldl (λ n c, n * 10 + digit_value c) n (span isdigit s).1 ≤ INT_MAX →
  atoi_digits fuel p n m = Done (foldl (λ n c, n * 10 + digit_value c) n (span isdigit s).1) m.
Proof.
  revert p s n. induction fuel as [|fuel IH]; intros p s n Hs Hb Hf Hn Hmax; [lia|]. simpl.
  destruct s as [|c s]; simpl in Hs.
  { run_load. done. }
  destruct Hs as (Hc & Hc0 & Hs). inversion_clear Hb as [|? ? Hbc Hb']. run_load.
  fold (isdigit (schar c)). rewrite isdigit_schar by done. simpl in *.
  destruct (isdigit c) eqn:Hd; simpl; [|done].
  pose proof (span_Forall isdigit s) as HF. destruct (span isdigit s) as [d r] eqn:Es; simpl in *.
  assert (Forall (λ c, ch "0" ≤ c ≤ ch "9") d) as HF'.
  { eapply Forall_impl; [exact HF|]. cbv beta. unfold isdigit. intros x Hx. bool_to_prop. lia. }
  unfold isdigit in Hd. bool_to_prop. change (ch "0") with 48 in *. change (ch "9") with 57 in *.
  assert (schar c = c) as ->.
  { unfold schar. rewrite u8_small by lia. case_match; bool_to_prop; lia. }
  assert (0 ≤ n * 10 + digit_value c ≤ INT_MAX) as Hbd.
  { unfold digit_value in *. change (ch "0") with 48 in *. split; [lia|].
    etrans; [|exact Hmax]. apply decimal_mono; [lia|done]. }
  unfold int_arith, INT_MIN. unfold digit_value, INT_MAX in *. change (ch "0") with 48 in *.
  rewrite (proj2 (Z.leb_le _ _)), (proj2 (Z.leb_le (n * 10) _)) by lia. simpl.
  erewrite bind_run by reflexivity.
  rewrite (proj2 (Z.leb_le _ _)), (proj2 (Z.leb_le (n * 10 + _) _)) by lia. simpl.
  erewrite bind_run by reflexivity.
  rewrite (IH _ s _ Hs Hb'), Es; [done|simpl in *; lia|lia|rewrite Es; done].
Qed.

(** atoi reads the number a string begins with, when it fits. *)
Lemma atoi_run m p s :
  cstr m p s → Forall (λ c, 0 ≤ c < 256) s → number_of s ≤ INT_MAX →
  atoi p m = Done (number_of s) m.
Proof.
  intros Hs Hb Hn. pose proof (cstr_lt _ _ _ Hs) as Hl. unfold atoi.
  destruct (decide (s = [])) as [->|Hne]; [simpl in Hs; by run_load|].
  assert (∃ c, m !! p = Some c ∧ c ≠ 0) as (c & Hc & Hc0).
  { destruct s; [done|]. simpl in Hs. naive_solver. }
  run_load. rewrite (proj2 (Z.eqb_neq c 0)) by done. erewrite bind_run by reflexivity.
  erewrite bind_run by (apply (atoi_space_run _ _ _ s); [done|done|lia]).
  unfold number_of in *. pose proof (span_app isspace s) as Hap.
  destruct (span isspace s) as [a b]; cbn [fst snd] in *. rewrite <-Hap in Hs, Hb.
  apply Forall_app in Hb as [_ Hb]. apply cstr_app in Hs.
  assert (length b ≤ length s)%nat by (rewrite <-Hap, length_app; lia).
  apply atoi_digits_span; [done|done|lia|lia|exact Hn].
Qed.

(** A string of digits is read as the number it denotes. *)
Lemma number_of_digits s : Forall (λ c, ch "0" ≤ c ≤ ch "9") s → number_of s = decimal s.
Proof.
  intros HF. change (ch "0") with 48 in HF. change (ch "9") with 57 in HF. unfold number_of.
  assert (span isdigit s = (s, [])) as Hd.
  { induction HF as [|c s Hc _ IH]; [done|]. simpl. unfold isdigit at 1.
    change (ch "0") with 48. change (ch "9") with 57.
    rewrite (proj2 (Z.leb_le _ _)), (proj2 (Z.leb_le c _)) by lia. simpl. by rewrite IH. }
  assert (span isspace s = ([], s)) as Hs.
  { destruct HF as [|c s Hc]; [done|]. simpl. unfold isspace.
    by repeat (rewrite (proj2 (Z.eqb_neq c _)) by lia). }
  rewrite Hs. cbn [fst snd]. by rewrite Hd.
Qed.

(** Every non-negative [int] survives printing with itoa in base 10 and
    reading back with atoi, and the printed string fits the 20-byte buffer. *)
Lemma itoa_atoi_roundtrip {St : Type} v (st : St) :
  0 ≤ v ≤ INT_MAX →
  ∃ s, itoa v 10 st = Done s st ∧ (0 < length s < 20)%nat ∧
    ∀ m p, cstr m p s → atoi p m = Done v m.
Proof.
  intros Hv. unfold INT_MAX in Hv.
  destruct (itoa_digits_spec 11 v) as (Hne & HF & Hval); [simpl; lia|lia|].
  assert (∀ k w, 0 ≤ w < 10 ^ Z.of_nat k → (0 < k)%nat → ∀ j,
    itoa_digits (k + j) w 10 = itoa_digits k w 10 ∧ (length (itoa_digits k w 10) ≤ k)%nat) as Hmore.
  { induction k as [|k IH]; intros w Hw Hk j; [lia|]. simpl.
    destruct (w / 10 =? 0) eqn:E; bool_to_prop; simpl; [split; [done|lia]|].
    rewrite Nat2Z.inj_succ, Z.pow_succ_r in Hw by lia.
    assert (0 < k)%nat.
    { destruct k; [|lia]. exfalso. apply E. apply Z.div_small. simpl in Hw. lia. }
    destruct (IH (w / 10)) with (j := j) as [-> ?].
    - split; [apply Z.div_pos; lia|]. apply Z.div_lt_upper_bound; lia.
    - done.
    - split; [done|lia]. }
  destruct (Hmore 11%nat v ltac:(simpl; lia) ltac:(lia) 21%nat) as [Hd Hlen].
  exists (reverse (itoa_digits 11 v 10)). unfold itoa.
  rewrite (proj2 (Z.ltb_ge v 0)), andb_false_r by lia. rewrite u32_small by (unfold U32; lia).
  change (11 + 21)%nat with 32%nat in Hd. rewrite Hd, reverse_digits by done.
  rewrite length_reverse. split_and!; [done| |lia|].
  { destruct (itoa_digits 11 v 10); simpl; [done|lia]. }
  intros m p Hs. pose proof (cstr_lt _ _ _ Hs) as Hl.
  assert (Forall (λ c, ch "0" ≤ c ≤ ch "9") (reverse (itoa_digits 11 v 10))) as HF'.
  { by apply Forall_reverse. }
  assert (decimal (reverse (itoa_digits 11 v 10)) = v) as Hdec by by rewrite decimal_reverse.
  rewrite <-Hdec, <-number_of_digits by exact HF'.
  apply atoi_run; [exact Hs| |rewrite number_of_digits by exact HF'; unfold INT_MAX; lia].
  eapply Forall_impl; [exact HF'|]. cbv beta. change (ch "0") with 48. change (ch "9") with 57. lia.
Qed.

(** ** Formatted output stays in its buffer *)

(** Formats the C rules give a meaning: complete conversions whose arguments
    are there and have the expected type. *)
Definition int_arg (v : Z) : bool := (INT_MIN <? v) && (v <=? INT_MAX).
Definition number_ok (format : list Z) (args : list arg) : option (list Z * list arg) :=
  match format, args with
  | c' :: format', AInt v :: args =>
      if int_arg v then Some (if c' =? ch "x" then format' else format, args) else None
  | _, _ => None
  end.
Definition is_number (c : Z) : bool :=
  (c =? ch "d") || (c =? ch "i") || (c =? ch "u") || (c =? ch "x") || (c =? ch "#").
Definition conversion_ok (c : Z) (format : list Z) (args : list arg)
    : option (list Z * list arg) :=
  if c =? ch "%" then Some (format, args)
  else
    '(c, format) ← (if c =? ch "0" then match format with c :: f => Some (c, f) | [] => None end
                    else Some (c, format));
    '(c, format) ← (if (ch "0" <=? c) && (c <=? ch "9")
                    then match format with c :: f => Some (c, f) | [] => None end
                    else Some (c, format));
    if c =? ch "c" then match args with AInt v :: args => Some (format, args) | _ => None end
    else if is_number c then number_ok format args
    else if c =? ch "s" then match args with AStr s :: args => Some (format, args) | _ => None end
    else Some (format, args).
Fixpoint fmt_ok (fuel : nat) (format : list Z) (args : list arg) : bool :=
  match fuel, format with
  | S fuel, c :: format =>
      if c =? 0 then true
      else if negb (c =? ch "%") then fmt_ok fuel format args
      else match format with
           | c :: format =>
               match conversion_ok c format args with
               | Some (format, args) => fmt_ok fuel format args
               | None => false
               end
           | [] => false
           end
  | _, _ => false
  end.

Section bounds.
Context (buffer : ptr) (size : Z).

(** [m'] differs from [m] only in [buffer .. buffer + size], the byte behind
    the buffer included. *)
Definition frame (m m' : mem) : Prop :=
  length m' = length m ∧
  ∀ i, (i < buffer ∨ buffer + Z.to_nat size < i)%nat → m' !! i = m !! i.
Lemma frame_refl m : frame m m.
Proof. done. Qed.
Lemma frame_trans m1 m2 m3 : frame m1 m2 → frame m2 m3 → frame m1 m3.
Proof. intros [H1 H2] [H3 H4]. split; [congruence|]. intros i Hi. rewrite H4, H2; done. Qed.
Lemma frame_insert m i c :
  0 ≤ i ≤ size → frame m (<[(buffer + Z.to_nat i)%nat := c]> m).
Proof.
  intros Hi. split; [apply length_insert|]. intros j Hj. apply list_lookup_insert_ne. lia.
Qed.

(** The index after a step: inside the buffer unless the jump was taken. *)
Definition idx_ok (idx : Z) (stop : bool) : Prop :=
  0 ≤ idx ≤ size + 1 ∧ (stop = false → idx < size).

Context (Hsize : 0 < size).

Lemma emit_bounds m idx c :
  0 ≤ idx < size → (buffer + Z.to_nat size < length m)%nat →
  wp (emit buffer size idx c) (λ '(idx', stop) m', idx_ok idx' stop ∧ frame m m') m.
Proof.
  intros Hi Hm. unfold emit. wp_go. apply wp_store; [lia|]. wp_go.
  split; [|apply frame_insert; lia]. unfold idx_ok. split; [lia|]. intros E. bool_to_prop. lia.
Qed.
Lemma emit_all_bounds m idx cs :
  0 ≤ idx < size → (buffer + Z.to_nat size < length m)%nat →
  wp (emit_all buffer size idx cs) (λ '(idx', stop) m', idx_ok idx' stop ∧ frame m m') m.
Proof.
  revert m idx. induction cs as [|c cs IH]; intros m idx Hi Hm; simpl.
  { wp_go. split; [|apply frame_refl]. unfold idx_ok. lia. }
  wp_go. eapply wp_mono; [by apply emit_bounds|]. intros [idx' stop] m' [[Hr Hs] Hf].
  destruct stop; wp_go.
  { split; [|done]. split; [lia|done]. }
  destruct (Hf) as [Hl _]. eapply wp_mono; [apply IH; [specialize (Hs eq_refl); lia|lia]|].
  intros [idx'' stop''] m'' [Hr' Hf']. split; [done|by eapply frame_trans].
Qed.

Lemma itoa_defined {St} v radix (st : St) :
  int_arg v = true → ∃ s, itoa v radix st = Done s st.
Proof.
  unfold int_arg, itoa, int_arith, INT_MIN, INT_MAX. intros H. bool_to_prop.
  case_match; bool_to_prop; [|eexists; reflexivity].
  rewrite (proj2 (Z.leb_le _ _)), (proj2 (Z.leb_le (- v) _)) by lia. eexists; reflexivity.
Qed.

Lemma read_number_bounds m idx c format args r :
  number_ok format args = Some r → 0 ≤ idx < size → (buffer + Z.to_nat size < length m)%nat →
  wp (read_number buffer size idx c format args)
    (λ '(idx', stop, s, format', args') m', idx_ok idx' stop ∧ frame m m' ∧
      (stop = false → (format', args') = r)) m.
Proof.
  intros Hok Hi Hm. unfold number_ok in Hok.
  destruct format as [|c' format], args as [|[v|] args]; try done.
  destruct (int_arg v) eqn:Hv; simplify_eq. unfold read_number. simpl next. wp_keep.
  destruct (c' =? ch "x").
  - wp_keep. apply wp_store; [lia|]. wp_keep. apply wp_store; [rewrite length_insert; lia|].
    assert (frame m (<[(buffer + Z.to_nat (idx + 1))%nat := ch "x"]>
      (<[(buffer + Z.to_nat idx)%nat := ch "0"]> m))).
    { eapply frame_trans; [apply frame_insert|apply frame_insert]; lia. }
    cbv zeta. destruct (size <=? idx + 2) eqn:E; bool_to_prop.
    + wp_keep. split_and!; [|done|done]. split; [lia|done].
    + wp_keep. simpl va_int. wp_keep. destruct (itoa_defined v 16 (<[(buffer + Z.to_nat (idx + 1))%nat := ch "x"]>
      (<[(buffer + Z.to_nat idx)%nat := ch "0"]> m)) Hv) as [s Hs].
      eapply wp_run; [exact Hs|]. wp_keep. split_and!; [|done|done]. split; [lia|]. lia.
  - wp_keep. simpl va_int. wp_keep. destruct (itoa_defined v (if c =? ch "x" then 16 else 10) m Hv) as [s Hs].
    eapply wp_run; [exact Hs|]. wp_keep. split_and!; [|done|done]. split; [lia|]. lia.
Qed.

Lemma conversion_bounds m idx c format args r :
  conversion_ok c format args = Some r → 0 ≤ idx < size → (buffer + Z.to_nat size < length m)%nat →
  wp (conversion buffer size idx c format args)
    (λ '(idx', stop, format', args') m', idx_ok idx' stop ∧ frame m m' ∧
      (stop = false → (format', args') = r)) m.
Proof.
  intros Hok Hi Hm. unfold conversion, conversion_ok in *. destruct (c =? ch "%").
  { wp_keep. eapply wp_mono; [by apply emit_bounds|]. intros [? ?] m' [??]. wp_keep. naive_solver. }
  apply bind_Some in Hok as ([c1 f1] & H1 & Hok). apply bind_Some in Hok as ([c2 f2] & H2 & Hok).
  wp_keep. eapply (wp_run _ (c =? ch "0", c1, f1)).
  { unfold read_pad0. repeat case_match; simplify_eq; reflexivity. }
  wp_keep. eapply (wp_run _ (if (ch "0" <=? c1) && (c1 <=? ch "9") then c1 - ch "0" else 0, c2, f2)).
  { unfold read_pad_len. repeat case_match; simplify_eq; reflexivity. }
  cbv beta iota. unfold is_number in Hok.
  destruct (c2 =? ch "c").
  { destruct args as [|[v|] args]; simplify_eq. simpl va_int. wp_keep.
    eapply wp_mono; [by apply emit_bounds|]. intros [? ?] m' [??]. wp_keep. naive_solver. }
  destruct (_ || _) eqn:Ed.
  { wp_keep. eapply wp_mono; [by apply read_number_bounds|].
    intros [[[[idx' stop] s] f'] a'] m' ([Hr Hs] & Hf & Hcont).
    destruct stop; [wp_keep; done|]. wp_keep. eapply wp_mono.
    { apply emit_all_bounds; [specialize (Hs eq_refl); lia|]. destruct Hf as [-> _]. done. }
    intros [? ?] m'' [? ?]. wp_keep. split_and!; [done|by eapply frame_trans|naive_solver]. }
  destruct (c2 =? ch "s").
  { destruct args as [|[v|s] args]; simplify_eq. simpl va_str. wp_keep.
    eapply wp_mono; [by apply emit_all_bounds|]. intros [? ?] m' [??]. wp_keep. naive_solver. }
  simplify_eq. wp_keep. eapply wp_mono; [by apply emit_bounds|]. intros [? ?] m' [??]. wp_keep. naive_solver.
Qed.

Lemma format_loop_bounds fuel m idx format args :
  fmt_ok fuel format args = true → 0 ≤ idx < size → (buffer + Z.to_nat size < length m)%nat →
  wp (format_loop buffer size fuel idx format args)
    (λ idx' m', 0 ≤ idx' ≤ size + 1 ∧ frame m m') m.
Proof.
  revert m idx format args. induction fuel as [|fuel IH]; intros m idx format args Hok Hi Hm; [done|].
  destruct format as [|c format]; [done|]. simpl in *. wp_keep.
  destruct (c =? 0); [wp_keep; split; [lia|apply frame_refl]|].
  assert (Hnext : ∀ idx' stop m' format' args', idx_ok idx' stop → frame m m' →
    (stop = false → fmt_ok fuel format' args' = true) →
    wp (if stop : bool then mret idx' else format_loop buffer size fuel idx' format' args')
      (λ idx'' m'', 0 ≤ idx'' ≤ size + 1 ∧ frame m m'') m').
  { intros idx' stop m' f' a' [Hr Hs] Hf Hok'. destruct stop; [wp_keep; done|].
    eapply wp_mono; [apply IH; [auto|specialize (Hs eq_refl); lia|destruct Hf as [-> _]; done]|].
    intros ? m'' [? ?]. split; [done|by eapply frame_trans]. }
  destruct (negb (c =? ch "%")).
  - wp_keep. eapply wp_mono; [by apply emit_bounds|]. intros [idx' stop] m' [? ?].
    by apply Hnext.
  - destruct format as [|c1 format]; [done|]. simpl next. wp_keep.
    destruct (conversion_ok c1 format args) as [[f' a']|] eqn:E; [|done].
    eapply wp_mono; [by apply (conversion_bounds _ _ _ _ _ (f', a'))|].
    intros [[[idx' stop] f''] a''] m' (? & ? & Heq). apply Hnext; [done|done|].
    intros Hs. specialize (Heq Hs). by simplify_eq.
Qed.
End bounds.

(** On a well-formed format vsnprintf returns, leaves a terminator inside
    the buffer, reports at most [size + 1], and writes nothing outside
    [buffer .. buffer + size]: the [0x] prefix can spill one byte behind the
    buffer, nothing else can. *)
Lemma vsnprintf_bounds buffer size format args m :
  0 < size < U32 → (buffer + Z.to_nat size < length m)%nat →
  fmt_ok (S (length format)) format args = true →
  wp (vsnprintf buffer size format args) (λ idx m',
    0 ≤ idx ≤ size + 1 ∧ frame buffer size m m' ∧
    m' !! (buffer + Z.to_nat (Z.min idx (size - 1)))%nat = Some 0) m.
Proof.
  intros Hs Hm Hok. unfold vsnprintf. rewrite (proj2 (Z.eqb_neq size 0)) by lia.
  wp_keep. eapply wp_mono; [apply format_loop_bounds; [lia|done|lia|done]|].
  intros idx m' [Hi Hf]. pose proof Hf as [Hl _].
  assert ((if idx <? size then idx else size - 1) = Z.min idx (size - 1)) as Hlast.
  { case_match; bool_to_prop; lia. }
  rewrite Hlast. wp_keep. apply wp_store; [lia|]. wp_keep. split_and!; [lia|lia| |].
  - eapply frame_trans; [exact Hf|]. apply frame_insert. lia.
  - apply list_lookup_insert_eq. lia.
Qed.

(** The prefix branch tests the character behind the conversion whatever
    the conversion is: ["%dx%d"] prints its first number in hexadecimal, and a
    [0x] that ends at the end of the buffer is stored one byte behind it. *)
Lemma vsnprintf_prefix_branch :
  run_fmt 16 9 (fmt "%dx%d") [AInt 640; AInt 480] = Done 8 (lit "0x280480" ++ [0]) ∧
  run_fmt 2 3 (fmt "a%#x") [AInt 640] = Done 3 [ch "a"; 0; ch "x"] ∧
  run_fmt 2 2 (fmt "a%#x") [AInt 640] = Undef.
Proof. by vm_compute. Qed.

(** ** Witnesses *)
Lemma itoa_atoi_roundtrip_witness :
  ∃ s, itoa 640 10 tt = Done s tt ∧ (0 < length s < 20)%nat ∧
    ∀ m p, cstr m p s → atoi p m = Done 640 m.
Proof. apply (itoa_atoi_roundtrip 640 tt). unfold INT_MAX. lia. Defined.
Lemma vsnprintf_bounds_witness :
  wp (vsnprintf 1 6 (fmt "%03d:%s") [AInt 7; AStr (Some (lit "abc"))]) (λ idx m',
    0 ≤ idx ≤ 6 + 1 ∧ frame 1 6 (replicate 9 255) m' ∧
    m' !! (1 + Z.to_nat (Z.min idx (6 - 1)))%nat = Some 0) (replicate 9 255).
Proof.
  apply (vsnprintf_bounds 1 6 (fmt "%03d:%s") [AInt 7; AStr (Some (lit "abc"))] (replicate 9 255)).
  - unfold U32. lia.
  - vm_compute. lia.
  - reflexivity.
Defined.
