(* ===== verification/Qsort.v ===== *)
(** * Sorting in the shared library (common/stdlib.c)

    [qsort] on the byte memory of CString. The comparison function is a
    parameter: a computation on the memory that gets two pointers. The while
    loop of the code continues with smaller arguments exactly as its recursive
    call does, so both are the recursive call here. *)
From stdpp Require Import sorting.
From Stdlib Require Import Sorted.
From S2P Require Import Prelude CString.

Fixpoint memswap (c1 c2 : ptr) (n : nat) : K mem unit :=
  match n with
  | O => mret tt
  | S n =>
      tmp ← load c1; c ← load c2;
      _ ← store c1 c; _ ← store c2 tmp;
      memswap (S c1) (S c2) n
  end.

Section qsort.
Context (size : nat) (compar : ptr → ptr → K mem Z).

(** The loop over [j]: [n] elements are left, [i] is the end of the smaller
    ones; the result is the last [i]. *)
Fixpoint partition (start : ptr) (n i j : nat) : K mem nat :=
  match n with
  | O => mret i
  | S n =>
      c ← compar (start + j * size)%nat start;
      if c <? 0 then
        _ ← memswap (start + j * size)%nat (start + i * size)%nat size;
        partition start n (S i) (S j)
      else partition start n i (S j)
  end.

(** The body of the while loop up to the two parts; the result is [i]. *)
Definition divide (start : ptr) (nmemb : nat) : K mem nat :=
  let pivot_point := (nmemb / 2)%nat in
  _ ← (if (pivot_point =? 0)%nat then mret tt
       else memswap (start + pivot_point * size)%nat start size);
  i ← partition start (nmemb - 1) 1 1;
  _ ← memswap start (start + (i - 1) * size)%nat size;
  mret i.

Fixpoint qsort_loop (fuel : nat) (start : ptr) (nmemb : nat) : K mem unit :=
  match fuel with
  | O => out_of_fuel
  | S fuel =>
      if (nmemb <=? 1)%nat then mret tt
      else
        i ← divide start nmemb;
        if (nmemb / 2 <? i)%nat then
          _ ← qsort_loop fuel (start + i * size)%nat (nmemb - i);
          qsort_loop fuel start (i - 1)
        else
          _ ← qsort_loop fuel start (i - 1);
          qsort_loop fuel (start + i * size)%nat (nmemb - i)
  end.
Definition qsort (base : ptr) (nmemb : nat) : K mem unit := qsort_loop (S nmemb) base nmemb.
End qsort.

(** ** Theorems *)
Lemma store_in p d (m : mem) : (p < length m)%nat → store p d m = Done tt (<[p:=d]> m).
Proof.
  intros [c Hc]%lookup_lt_is_Some_2. unfold store, mbind, K_bind, get, put, access. by rewrite Hc.
Qed.
Lemma swap_bytes a (x0 y0 : Z) u v m m' p q :
  m = a ++ x0 :: u ++ y0 :: v → m' = a ++ y0 :: u ++ x0 :: v →
  p = length a → q = length (a ++ x0 :: u) →
  m !! p = Some x0 ∧ m !! q = Some y0 ∧ (p < length m)%nat ∧ (q < length m)%nat ∧
  <[q:=x0]> (<[p:=y0]> m) = m' ∧ <[p:=y0]> (<[q:=x0]> m) = m'.
Proof.
  intros -> -> -> ->. assert (Hne : length a ≠ length (a ++ x0 :: u)) by (rewrite length_app; cbn; lia).
  assert (Hx : <[length a:=y0]> (a ++ x0 :: u ++ y0 :: v) = a ++ y0 :: u ++ y0 :: v)
    by (rewrite insert_app_r_alt by done; by rewrite Nat.sub_diag).
  split; [by apply list_lookup_middle|].
  assert (Hy : ∀ z w, <[length (a ++ x0 :: u):=w]> (a ++ z :: u ++ y0 :: v) = a ++ z :: u ++ w :: v).
  { intros z w. replace (a ++ z :: u ++ y0 :: v) with ((a ++ z :: u) ++ y0 :: v) by by rewrite <-app_assoc.
    replace (length (a ++ x0 :: u)) with (length (a ++ z :: u)) by by rewrite !length_app.
    rewrite insert_app_r_alt, Nat.sub_diag by done. by rewrite <-app_assoc. }
  split; [rewrite app_comm_cons, app_assoc; by apply list_lookup_middle|].
  split; [rewrite length_app; cbn; lia|]. split; [rewrite !length_app; cbn; rewrite length_app; cbn; lia|].
  split; [by rewrite Hx, Hy|]. by rewrite list_insert_insert_ne, Hx, Hy.
Qed.

(** Swapping two segments, the first before the second or behind it. *)
Lemma memswap_apart a x b y c p q :
  length x = length y → p = length a → q = length (a ++ x ++ b) →
  memswap p q (length x) (a ++ x ++ b ++ y ++ c) = Done tt (a ++ y ++ b ++ x ++ c) ∧
  memswap q p (length x) (a ++ x ++ b ++ y ++ c) = Done tt (a ++ y ++ b ++ x ++ c).
Proof.
  revert a b y p q. induction x as [|x0 x IH]; intros a b [|y0 y] p q Hl Hp Hq; try done.
  injection Hl as Hl.
  destruct (swap_bytes a x0 y0 (x ++ b) (y ++ c) (a ++ (x0 :: x) ++ b ++ (y0 :: y) ++ c)
    ((a ++ [y0]) ++ x ++ (b ++ [x0]) ++ y ++ c) p q) as (Hx & Hy & Hpm & Hqm & Hpq & Hqp); [| |done..|].
  { cbn [app]. by rewrite <-!app_assoc. }
  { by rewrite <-!app_assoc. }
  destruct (IH (a ++ [y0]) (b ++ [x0]) y (S p) (S q) Hl) as [Hu Hd];
    [rewrite ?length_app in *; cbn [length] in *; lia..|].
  replace (a ++ (y0 :: y) ++ b ++ (x0 :: x) ++ c) with ((a ++ [y0]) ++ y ++ (b ++ [x0]) ++ x ++ c)
    by (rewrite <-!app_assoc; done).
  cbn [length memswap]. split.
  - rewrite (bind_run _ _ _ _ _ (load_run _ _ _ Hx)), (bind_run _ _ _ _ _ (load_run _ _ _ Hy)).
    rewrite (bind_run _ _ _ _ _ (store_in _ _ _ Hpm)).
    by rewrite (bind_run _ _ _ _ _ (store_in q x0 _ ltac:(by rewrite length_insert))), Hpq.
  - rewrite (bind_run _ _ _ _ _ (load_run _ _ _ Hy)), (bind_run _ _ _ _ _ (load_run _ _ _ Hx)).
    rewrite (bind_run _ _ _ _ _ (store_in _ _ _ Hqm)).
    by rewrite (bind_run _ _ _ _ _ (store_in p y0 _ ltac:(by rewrite length_insert))), Hqp.
Qed.
Lemma memswap_same p n (m : mem) : (p + n ≤ length m)%nat → memswap p p n m = Done tt m.
Proof.
  revert p. induction n as [|n IH]; intros p Hm; [done|]. cbn [memswap].
  destruct (lookup_lt_is_Some_2 m p) as [c Hc]; [lia|].
  rewrite !(bind_run _ _ _ _ _ (load_run _ _ _ Hc)).
  pose proof (store_in p c m ltac:(lia)) as Hs. rewrite list_insert_id in Hs by done.
  rewrite !(bind_run _ _ _ _ _ Hs). apply IH. lia.
Qed.

Section sorting.
Context (size : nat) (compar : ptr → ptr → K mem Z).
(** The callers' part: what the elements are and how the function orders them. *)
Context (elem : list Z → Prop) (order : list Z → list Z → Z).
Definition at_ptr (m : mem) (p : ptr) (x : list Z) : Prop := ∃ a b, m = a ++ x ++ b ∧ p = length a.
Context (elem_size : ∀ x, elem x → length x = size).
Context (compar_run : ∀ m p q x y,
  elem x → elem y → at_ptr m p x → at_ptr m q y → compar p q m = Done (order x y) m).
Context (order_irrefl : ∀ x, elem x → ¬ order x x < 0).
Context (order_trans : ∀ x y z, elem x → elem y → elem z → order x y < 0 → order y z < 0 → order x z < 0).

Lemma join_elem (x : list Z) l : mjoin (x :: l) = x ++ mjoin l.
Proof. done. Qed.
Lemma length_elems l : Forall elem l → length (mjoin l) = (length l * size)%nat.
Proof.
  induction 1 as [|x l Hx _ IH]; [done|]. rewrite join_elem, length_app, IH, (elem_size x Hx). cbn [length]. lia.
Qed.

(** Elements at their places: swapping and comparing them. *)
Lemma swap_elems pre l1 x l2 y l3 post p q :
  Forall elem (l1 ++ x :: l2 ++ y :: l3) →
  p = (length pre + length l1 * size)%nat → q = (length pre + (length l1 + 1 + length l2) * size)%nat →
  memswap p q size (pre ++ mjoin (l1 ++ x :: l2 ++ y :: l3) ++ post) =
    Done tt (pre ++ mjoin (l1 ++ y :: l2 ++ x :: l3) ++ post) ∧
  memswap q p size (pre ++ mjoin (l1 ++ x :: l2 ++ y :: l3) ++ post) =
    Done tt (pre ++ mjoin (l1 ++ y :: l2 ++ x :: l3) ++ post).
Proof.
  intros (H1 & [Hx (H2 & [Hy _]%Forall_cons)%Forall_app]%Forall_cons)%Forall_app Hp Hq.
  assert (Hm : ∀ u v, pre ++ mjoin (l1 ++ u :: l2 ++ v :: l3) ++ post =
    (pre ++ mjoin l1) ++ u ++ mjoin l2 ++ v ++ (mjoin l3 ++ post)).
  { intros. by rewrite join_app, join_elem, join_app, join_elem, <-!app_assoc. }
  apply elem_size in Hx as Hxs. apply elem_size in Hy as Hys. rewrite !Hm, <-Hxs.
  apply memswap_apart; [congruence|rewrite length_app, length_elems by done; done|].
  rewrite !length_app, !length_elems by done. lia.
Qed.
Lemma at_elem pre l1 x l2 post :
  Forall elem l1 →
  at_ptr (pre ++ mjoin (l1 ++ x :: l2) ++ post) (length pre + length l1 * size) x.
Proof.
  intros H1. exists (pre ++ mjoin l1), (mjoin l2 ++ post). split.
  - by rewrite join_app, join_elem, <-!app_assoc.
  - by rewrite length_app, length_elems.
Qed.

(** The loop over [j]: [lo] holds what is smaller than the pivot, [hi] the
    other elements seen. *)
Lemma partition_run pre p lo hi rest post start i j :
  Forall elem (p :: lo ++ hi ++ rest) →
  Forall (λ x, order x p < 0) lo → Forall (λ x, ¬ order x p < 0) hi →
  start = length pre → i = S (length lo) → j = (i + length hi)%nat →
  ∃ lo' hi', partition size compar start (length rest) i j (pre ++ mjoin (p :: lo ++ hi ++ rest) ++ post) =
      Done (S (length lo')) (pre ++ mjoin (p :: lo' ++ hi') ++ post) ∧
    lo ++ hi ++ rest ≡ₚ lo' ++ hi' ∧
    Forall (λ x, order x p < 0) lo' ∧ Forall (λ x, ¬ order x p < 0) hi'.
Proof.
  revert lo hi i j. induction rest as [|x rest IH]; intros lo hi i j He Hlo Hhi Hs Hi Hj.
  { exists lo, hi. rewrite app_nil_r. by rewrite Hi. }
  assert (Hx : elem x ∧ elem p) by (rewrite !Forall_cons, !Forall_app, Forall_cons in He; tauto).
  cbn [length partition].
  assert (Hc : compar (start + j * size)%nat start (pre ++ mjoin (p :: lo ++ hi ++ x :: rest) ++ post) =
    Done (order x p) (pre ++ mjoin (p :: lo ++ hi ++ x :: rest) ++ post)).
  { apply compar_run; [tauto..| |].
    - pose proof (at_elem pre (p :: lo ++ hi) x rest post) as Ha. cbn [app length] in Ha.
      rewrite length_app in Ha. subst. replace (S (length lo) + length hi)%nat with (S (length lo + length hi)) by lia.
      rewrite <-app_assoc in Ha. apply Ha. rewrite !Forall_cons, !Forall_app in *. tauto.
    - pose proof (at_elem pre [] p (lo ++ hi ++ x :: rest) post) as Ha. cbn [app length] in Ha.
      rewrite Nat.add_0_r in Ha. subst. by apply Ha. }
  rewrite (bind_run _ _ _ _ _ Hc). destruct (Z.ltb_spec (order x p) 0) as [Hlt|Hge].
  - set (hi' := match hi with [] => [] | h :: t => t ++ [h] end).
    assert (Hm : memswap (start + j * size) (start + i * size) size (pre ++ mjoin (p :: lo ++ hi ++ x :: rest) ++ post)
      = Done tt (pre ++ mjoin (p :: (lo ++ [x]) ++ hi' ++ rest) ++ post)).
    { rewrite <-app_assoc. cbn [app]. subst hi'. destruct hi as [|h hi].
      - replace j with i by (cbn in Hj; lia). apply memswap_same.
        rewrite !length_app, length_elems by done. cbn [app length]. rewrite length_app. cbn [length]. subst. nia.
      - rewrite <-app_assoc. cbn [app]. rewrite !app_comm_cons. eapply swap_elems; [exact He|cbn [length]; lia|].
        cbn [length] in *. lia. }
    rewrite (bind_run _ _ _ _ _ Hm).
    assert (Hp : hi ≡ₚ hi') by (subst hi'; destruct hi; [done|by rewrite Permutation_cons_append]).
    assert (Hall : lo ++ hi ++ x :: rest ≡ₚ (lo ++ [x]) ++ hi' ++ rest).
    { rewrite <-Hp, <-app_assoc. cbn [app]. by rewrite (Permutation_middle hi). }
    destruct (IH (lo ++ [x]) hi' (S i) (S j)) as (lo' & hi'' & Hrun & Hperm & Hlo' & Hhi').
    + by rewrite <-Hall.
    + rewrite Forall_app, Forall_singleton. done.
    + by rewrite <-Hp.
    + done.
    + rewrite length_app. cbn. lia.
    + rewrite <-Hp. lia.
    + exists lo', hi''. by rewrite Hall.
  - destruct (IH lo (hi ++ [x]) i (S j)) as (lo' & hi'' & Hrun & Hperm & Hlo' & Hhi').
    + by rewrite <-app_assoc.
    + done.
    + rewrite Forall_app, Forall_singleton. split; [done|lia].
    + done.
    + done.
    + rewrite length_app. cbn. lia.
    + exists lo', hi''. rewrite <-!app_assoc in *. done.
Qed.
Lemma divide_run pre l post start :
  (1 < length l)%nat → Forall elem l → start = length pre →
  ∃ lo p hi, divide size compar start (length l) (pre ++ mjoin l ++ post) =
      Done (S (length lo)) (pre ++ mjoin (lo ++ p :: hi) ++ post) ∧
    l ≡ₚ lo ++ p :: hi ∧
    Forall (λ x, order x p < 0) lo ∧ Forall (λ x, ¬ order x p < 0) hi.
Proof.
  intros Hl He Hs. unfold divide.
  set (k := (length l / 2)%nat).
  assert (Hk : (0 < k < length l)%nat).
  { subst k. split; [apply Nat.div_str_pos; lia|apply Nat.div_lt; lia]. }
  destruct l as [|x l]; [cbn in Hl; lia|]. cbn [length] in Hk.
  destruct (lookup_lt_is_Some_2 l (k - 1)) as [p Hp]; [lia|].
  apply list_elem_of_split_length in Hp as (l1 & l2 & -> & Hk1).
  rewrite (proj2 (Nat.eqb_neq k 0)) by lia.
  destruct (swap_elems pre [] x l1 p l2 post start (start + k * size) He) as [_ Hswap];
    [cbn; lia|cbn [length]; replace k with (0 + 1 + length l1)%nat by lia; lia|].
  rewrite (bind_run _ _ _ _ _ Hswap). cbn [app].
  assert (Hp1 : x :: l1 ++ p :: l2 ≡ₚ p :: [] ++ [] ++ (l1 ++ x :: l2)).
  { cbn [app]. rewrite <-!Permutation_middle. apply perm_swap. }
  destruct (partition_run pre p [] [] (l1 ++ x :: l2) post start 1 1)
    as (lo & hi & Hrun & Hperm & Hlo & Hhi); [by rewrite <-Hp1|done..|].
  cbn [app] in Hrun, Hperm.
  replace (length (x :: l1 ++ p :: l2) - 1)%nat with (length (l1 ++ x :: l2))
    by (cbn [length]; rewrite !length_app; cbn [length]; lia).
  rewrite (bind_run _ _ _ _ _ Hrun).
  assert (He' : Forall elem (p :: lo ++ hi)) by (rewrite <-Hperm; rewrite Hp1 in He; done).
  assert (Hall : x :: l1 ++ p :: l2 ≡ₚ p :: lo ++ hi) by by rewrite Hp1, <-Hperm.
  destruct lo as [|z lo _] using rev_ind.
  - cbn [app] in *. exists [], p, hi. cbn [length Nat.sub Nat.mul]. rewrite Nat.add_0_r. split; [|done].
    assert (Hin : (start + size ≤ length (pre ++ mjoin (p :: hi) ++ post))%nat)
      by (rewrite !length_app, length_elems by done; cbn [length]; lia).
    by rewrite (bind_run _ _ _ _ _ (memswap_same _ _ _ Hin)).
  - rewrite <-app_assoc in *. cbn [app] in *.
    destruct (swap_elems pre [] p lo z hi post start (start + (S (length (lo ++ [z])) - 1) * size) He') as [Hlast _];
      [cbn; lia|rewrite length_app; cbn [length]; replace (S (length lo + 1) - 1)%nat with (0 + 1 + length lo)%nat by lia; lia|].
    rewrite (bind_run _ _ _ _ _ Hlast). exists (z :: lo), p, hi. rewrite length_app. cbn [length app].
    split; [by rewrite Nat.add_1_r|]. split; [|split; [|done]].
    + rewrite Hall. rewrite <-!Permutation_middle. apply perm_swap.
    + rewrite Forall_cons. rewrite Forall_app, Forall_singleton in Hlo. tauto.
Qed.

(** What holds of the sorted elements: no element is smaller than one before it. *)
Definition sorted (l : list (list Z)) : Prop := StronglySorted (λ x y, ¬ order y x < 0) l.
Lemma sorted_parts lo p hi :
  Forall elem (lo ++ p :: hi) → sorted lo → sorted hi →
  Forall (λ x, order x p < 0) lo → Forall (λ x, ¬ order x p < 0) hi → sorted (lo ++ p :: hi).
Proof.
  intros (Hel & [Hp Heh]%Forall_cons)%Forall_app Hslo Hshi Hlo Hhi.
  rewrite Forall_forall in Hel, Heh, Hlo, Hhi.
  apply StronglySorted_app_2; [|done|constructor; [done|by apply Forall_forall]].
  intros x y Hx [->|Hy]%elem_of_cons Hyx.
  - apply (order_irrefl p); [done|]. eauto.
  - apply (Hhi y Hy). eauto.
Qed.
Lemma qsort_loop_run pre l post start fuel :
  (length l < fuel)%nat → Forall elem l → start = length pre →
  ∃ l', qsort_loop size compar fuel start (length l) (pre ++ mjoin l ++ post) =
      Done tt (pre ++ mjoin l' ++ post) ∧ l ≡ₚ l' ∧ sorted l'.
Proof.
  revert pre l post start. induction fuel as [|fuel IH]; intros pre l post start Hf He Hs; [lia|].
  cbn [qsort_loop]. destruct (Nat.leb_spec (length l) 1) as [Hl|Hl].
  { exists l. split; [done|]. split; [done|]. destruct l as [|x [|y l]]; [constructor|constructor; constructor|cbn in Hl; lia]. }
  destruct (divide_run pre l post start Hl He Hs) as (lo & p & hi & Hrun & Hperm & Hlo & Hhi).
  rewrite (bind_run _ _ _ _ _ Hrun).
  assert (Hlen : length l = S (length lo + length hi)) by (rewrite Hperm, length_app; cbn; lia).
  rewrite Hperm in He. pose proof He as [Hel [Hp Heh]%Forall_cons]%Forall_app.
  (* The two parts, in either order. *)
  assert (Hleft : ∀ k, Forall elem k → length k = length hi → ∃ lo',
    qsort_loop size compar fuel start (S (length lo) - 1) (pre ++ mjoin (lo ++ p :: k) ++ post) =
      Done tt (pre ++ mjoin (lo' ++ p :: k) ++ post) ∧ lo ≡ₚ lo' ∧ sorted lo').
  { intros k _ _. destruct (IH pre lo (mjoin (p :: k) ++ post) start) as (lo' & Hr & ? & ?); [lia|done..|].
    exists lo'. rewrite !join_app, <-!app_assoc. replace (S (length lo) - 1)%nat with (length lo) by lia. done. }
  assert (Hright : ∀ k, Forall elem k → length k = length lo → ∃ hi',
    qsort_loop size compar fuel (start + S (length lo) * size) (length l - S (length lo))
      (pre ++ mjoin (k ++ p :: hi) ++ post) = Done tt (pre ++ mjoin (k ++ p :: hi') ++ post) ∧
    hi ≡ₚ hi' ∧ sorted hi').
  { intros k Hk Hkl.
    destruct (IH (pre ++ mjoin k ++ p) hi post (start + S (length lo) * size)%nat) as (hi' & Hr & ? & ?);
      [lia|done| |].
    { rewrite !length_app, length_elems, (elem_size p) by done. rewrite Hkl. lia. }
    exists hi'. rewrite !join_app, !join_elem. rewrite <-!app_assoc in *.
    replace (length l - S (length lo))%nat with (length hi) by lia. done. }
  destruct (length l / 2 <? S (length lo))%nat.
  - destruct (Hright lo Hel eq_refl) as (hi' & Hr & Hph & Hsh). rewrite (bind_run _ _ _ _ _ Hr).
    destruct (Hleft hi') as (lo' & Hr' & Hpl & Hsl); [by rewrite <-Hph|by rewrite Hph|].
    exists (lo' ++ p :: hi'). split; [done|]. split; [by rewrite Hperm, Hph, Hpl|].
    apply sorted_parts; [|done..| |]; [by rewrite <-Hph, <-Hpl|by rewrite <-Hpl|by rewrite <-Hph].
  - destruct (Hleft hi Heh eq_refl) as (lo' & Hr & Hpl & Hsl). rewrite (bind_run _ _ _ _ _ Hr).
    destruct (Hright lo') as (hi' & Hr' & Hph & Hsh); [by rewrite <-Hpl|by rewrite Hpl|].
    exists (lo' ++ p :: hi'). split; [done|]. split; [by rewrite Hperm, Hph, Hpl|].
    apply sorted_parts; [|done..| |]; [by rewrite <-Hph, <-Hpl|by rewrite <-Hpl|by rewrite <-Hph].
Qed.

(** C36: With a comparison function that reads the two elements and orders them
    strictly, qsort returns, leaves the memory before and behind the array as it
    was, and leaves a sorted permutation of the elements in it. *)
Theorem qsort_sorts pre l post :
  Forall elem l →
  ∃ l', qsort size compar (length pre) (length l) (pre ++ mjoin l ++ post) =
      Done tt (pre ++ mjoin l' ++ post) ∧ l ≡ₚ l' ∧ sorted l'.
Proof. intros He. apply qsort_loop_run; [lia|done..]. Qed.
End sorting.

(** Signed bytes, compared by their difference. *)
Definition compare_bytes (p q : ptr) : K mem Z := a ← load p; b ← load q; mret (schar a - schar b).
Definition byte_order (x y : list Z) : Z :=
  match x, y with [a], [b] => schar a - schar b | _, _ => 0 end.
Definition byte_elem (x : list Z) : Prop := length x = 1%nat.
Lemma qsort_sorts_witness :
  let l := [[7]; [3]; [255]; [3]; [0]] in
  Forall byte_elem l ∧
  ∃ l', qsort 1 compare_bytes 2 5 ([1; 1] ++ mjoin l ++ [9]) = Done tt ([1; 1] ++ mjoin l' ++ [9]) ∧
    l ≡ₚ l' ∧ sorted byte_order l'.
Proof.
  assert (Hl : Forall byte_elem [[7]; [3]; [255]; [3]; [0]]) by repeat constructor.
  split; [exact Hl|].
  apply (qsort_sorts 1 compare_bytes byte_elem byte_order) with (pre := [1; 1]) (post := [9])
    (l := [[7]; [3]; [255]; [3]; [0]]); [done| | | |exact Hl].
  - intros m p q x y Hx Hy (a & b & -> & ->) (a' & b' & Hm & ->).
    destruct x as [|x [|]]; [done| |done]. destruct y as [|y [|]]; [done| |done]. cbn [app] in *.
    unfold compare_bytes. rewrite (bind_run _ _ _ _ _ (load_run _ _ _ (list_lookup_middle a b x _ eq_refl))).
    rewrite Hm. by rewrite (bind_run _ _ _ _ _ (load_run _ _ _ (list_lookup_middle a' b' y _ eq_refl))).
  - intros [|x [|]]; cbn; lia.
  - intros x y z Hx Hy Hz.
    destruct x as [|x [|]]; [done| |done]. destruct y as [|y [|]]; [done| |done]. destruct z as [|z [|]]; [done| |done].
    cbn. lia.
Defined.
