(* ===== verification/Format.v ===== *)
(** * What vsnprintf prints (common/stdio.c)

    A reference for the formatted text as a function of the format and the
    arguments, and the proof that [CLib.vsnprintf] stores exactly this text when
    it fits. The texts of /proc and the names of its directories are stated with
    it. *)
From S2P Require Import Prelude CString CLib.

(** ** The text *)
(** Positional numerals: the digit in place [k] is the number divided by the power
    of the base, modulo the base; there are as many places as powers that are not
    greater, at least one. *)
Definition digit (d : Z) : Z := nth (Z.to_nat d) (lit "0123456789abcdef") 0.
Definition places (v base : Z) : nat := S (length (filter (λ k, base ^ k ≤ v) (seqZ 1 31))).
Definition numeral (v base : Z) : list Z :=
  (λ k, digit (v / base ^ Z.of_nat k mod base)) <$> reverse (seq 0 (places v base)).
Definition itoa_text (v radix : Z) : list Z :=
  if (radix =? 10) && (v <? 0) then ch "-" :: numeral (- v) radix else numeral (v mod 2 ^ 32) radix.
Definition pad_text (pad0 : bool) (pad_len : Z) (s : list Z) : list Z :=
  replicate (Z.to_nat (pad_len - Z.of_nat (length s))) (if pad0 then ch "0" else ch " ") ++ s.
Definition is_number (c : Z) : bool :=
  (c =? ch "d") || (c =? ch "i") || (c =? ch "u") || (c =? ch "x") || (c =? ch "#").
(** A number that is followed by the letter x is printed in base 16 after 0x,
    whatever its conversion, and the letter is gone. *)
Definition number_text (c pad_len : Z) (pad0 : bool) (format : list Z) (args : list arg)
    : option (list Z * list Z * list arg) :=
  match format, args with
  | c' :: format', AInt v :: args =>
      if negb (int_arg v) then None
      else if c' =? ch "x" then Some (lit "0x" ++ pad_text pad0 pad_len (itoa_text v 16), format', args)
      else Some (pad_text pad0 pad_len (itoa_text v (if c =? ch "x" then 16 else 10)), format, args)
  | _, _ => None
  end.
Definition flag_of (c : Z) (format : list Z) : option (bool * Z * list Z) :=
  if c =? ch "0" then match format with c :: format => Some (true, c, format) | [] => None end
  else Some (false, c, format).
Definition width_of (c : Z) (format : list Z) : option (Z * Z * list Z) :=
  if (ch "0" <=? c) && (c <=? ch "9")
  then match format with c' :: format => Some (c - ch "0", c', format) | [] => None end
  else Some (0, c, format).
Definition conversion_text (c : Z) (format : list Z) (args : list arg)
    : option (list Z * list Z * list arg) :=
  if c =? ch "%" then Some ([ch "%"], format, args)
  else
    '(pad0, c, format) ← flag_of c format;
    '(pad_len, c, format) ← width_of c format;
    if c =? ch "c" then
      match args with AInt v :: args => Some ([v], format, args) | _ => None end
    else if is_number c then number_text c pad_len pad0 format args
    else if c =? ch "s" then
      match args with AStr s :: args => Some (default (lit "(null)") s, format, args) | _ => None end
    else Some ([ch "?"], format, args).
Fixpoint text (fuel : nat) (format : list Z) (args : list arg) : option (list Z) :=
  match fuel, format with
  | S fuel, c :: format =>
      if c =? 0 then Some []
      else if negb (c =? ch "%") then (c ::.) <$> text fuel format args
      else
        match format with
        | c :: format =>
            '(t, format, args) ← conversion_text c format args;
            (t ++.) <$> text fuel format args
        | [] => None
        end
  | _, _ => None
  end.
(** The text of a format; [None] if the format or the arguments do not fit. *)
Definition formatted (format : list Z) (args : list arg) : option (list Z) :=
  text (S (length format)) format args.

(** ** Theorems *)
Lemma insert_after_splice {A} b (k : list A) x l :
  (b + length k < length l)%nat → <[(b + length k)%nat := x]> (splice b k l) = splice b (k ++ [x]) l.
Proof.
  intros Hl. unfold splice. rewrite insert_app_r_alt by (rewrite length_take; lia). rewrite length_take.
  replace (b + length k - b `min` length l)%nat with (length k + 0)%nat by lia. rewrite insert_app_r.
  rewrite length_app. cbn [length].
  destruct (lookup_lt_is_Some_2 l (b + length k)) as [y Hy]; [done|].
  rewrite (drop_S l y _ Hy). cbn [insert list_insert]. rewrite <-app_assoc. do 4 f_equal. lia.
Qed.

Lemma digit_char d : 0 ≤ d < 16 → (if d <? 10 then d + ch "0" else d - 10 + ch "a") = digit d.
Proof.
  intros Hd. assert (d ∈ seqZ 0 16) as Hin by (apply elem_of_seqZ; lia).
  repeat (apply elem_of_cons in Hin as [->|Hin]; [reflexivity|]). by apply elem_of_nil in Hin.
Qed.
Lemma itoa_digits_places base n fuel v :
  2 ≤ base ≤ 16 → 0 ≤ v < base ^ Z.of_nat (S n) → n = 0%nat ∨ base ^ Z.of_nat n ≤ v → (n < fuel)%nat →
  itoa_digits fuel v base = (λ k, digit (v / base ^ Z.of_nat k mod base)) <$> seq 0 (S n).
Proof.
  intros Hb. revert fuel v. induction n as [|n IH]; intros [|fuel] v Hv Hn Hf; try lia; cbn [itoa_digits].
  all: pose proof (Z.mod_pos_bound v base ltac:(lia)); rewrite digit_char by lia.
  all: rewrite <-(cons_seq _ 0), fmap_cons; change (Z.of_nat 0) with 0; rewrite Z.pow_0_r, Z.div_1_r; f_equal.
  - change (Z.of_nat 1) with 1 in Hv. rewrite Z.pow_1_r in Hv. by rewrite Z.div_small.
  - destruct Hn as [|Hn]; [done|]. rewrite Nat2Z.inj_succ, Z.pow_succ_r in Hv by lia.
    rewrite Nat2Z.inj_succ, Z.pow_succ_r in Hn by lia.
    assert (base ^ Z.of_nat n ≤ v / base) by (apply Z.div_le_lower_bound; lia).
    assert (0 < base ^ Z.of_nat n) by (apply Z.pow_pos_nonneg; lia).
    rewrite (proj2 (Z.eqb_neq _ 0)) by lia. rewrite (IH fuel (v / base)); [| |by right|lia].
    + rewrite <-fmap_S_seq, <-list_fmap_compose. apply list_fmap_ext. intros _ k _. unfold compose.
      rewrite Nat2Z.inj_succ, Z.pow_succ_r by lia. rewrite Z.div_div; [done|lia|].
      apply Z.pow_pos_nonneg; lia.
    + split; [apply Z.div_pos; lia|]. apply Z.div_lt_upper_bound; lia.
Qed.
Lemma power_below base v m :
  0 ≤ v < base ^ Z.of_nat (S m) →
  ∃ n, (n ≤ m)%nat ∧ v < base ^ Z.of_nat (S n) ∧ (n = 0%nat ∨ base ^ Z.of_nat n ≤ v).
Proof.
  induction m as [|m IH]; intros Hv; [exists 0%nat; split_and!; [lia|apply Hv|by left]|].
  destruct (decide (v < base ^ Z.of_nat (S m))).
  - destruct IH as (n & ? & ? & ?); [lia|]. exists n. split_and!; [lia|done|done].
  - exists (S m). split_and!; [lia|apply Hv|right; lia].
Qed.
Lemma places_spec base n v :
  2 ≤ base → v < base ^ Z.of_nat (S n) → n = 0%nat ∨ base ^ Z.of_nat n ≤ v → (n ≤ 31)%nat →
  places v base = S n.
Proof.
  intros Hb Hv Hn Hle. unfold places. f_equal.
  replace 31 with (Z.of_nat n + (31 - Z.of_nat n)) by lia. rewrite seqZ_app, filter_app, length_app by lia.
  assert (filter (λ k, base ^ k ≤ v) (seqZ 1 (Z.of_nat n)) = seqZ 1 (Z.of_nat n)) as ->.
  { apply filter_keep. intros k Hk%elem_of_seqZ. destruct Hn as [->|Hn]; [lia|].
    etrans; [|exact Hn]. apply Z.pow_le_mono_r; lia. }
  assert (filter (λ k, base ^ k ≤ v) (seqZ (1 + Z.of_nat n) (31 - Z.of_nat n)) = []) as ->.
  { apply filter_drop. intros k Hk%elem_of_seqZ ?.
    assert (base ^ Z.of_nat (S n) ≤ base ^ k) by (apply Z.pow_le_mono_r; lia). lia. }
  rewrite length_seqZ. simpl. lia.
Qed.
Lemma numeral_digits base v :
  2 ≤ base ≤ 16 → 0 ≤ v < U32 → reverse (itoa_digits 32 v base) = numeral v base.
Proof.
  intros Hb Hv. destruct (power_below base v 31) as (n & Hn & Hlt & Hge).
  { split; [lia|]. assert (2 ^ Z.of_nat 32 ≤ base ^ Z.of_nat 32) by (apply Z.pow_le_mono_l; lia).
    change (2 ^ Z.of_nat 32) with U32 in *. lia. }
  unfold numeral. rewrite (places_spec base n) by (done || lia).
  by rewrite (itoa_digits_places base n) by (done || lia); rewrite fmap_reverse.
Qed.
Lemma itoa_text_digits v radix :
  int_arg v = true → 2 ≤ radix ≤ 16 →
  itoa_text v radix = if (radix =? 10) && (v <? 0) then ch "-" :: reverse (itoa_digits 32 (- v) radix)
                      else reverse (itoa_digits 32 (u32 v) radix).
Proof.
  unfold int_arg, itoa_text, INT_MIN, INT_MAX. intros H Hr. destruct (_ && (v <? 0)) eqn:E; bool_to_prop.
  - by rewrite numeral_digits by (unfold U32; lia).
  - by rewrite numeral_digits by (try apply u32_range; lia).
Qed.

Lemma itoa_run {St} v radix (st : St) :
  int_arg v = true → 2 ≤ radix ≤ 16 → itoa v radix st = Done (itoa_text v radix) st.
Proof.
  intros Hv Hr. rewrite (itoa_text_digits v radix Hv Hr). revert Hv.
  unfold int_arg, itoa, INT_MIN, INT_MAX. intros H. bool_to_prop.
  destruct (_ && _) eqn:E; bool_to_prop.
  - assert (int_arith (- v) st = Done (- v) st) as Ha.
    { unfold int_arith, INT_MIN, INT_MAX. by rewrite (proj2 (Z.leb_le _ _)), (proj2 (Z.leb_le (- v) _)) by lia. }
    rewrite (bind_run _ _ _ _ _ Ha). cbv zeta. by rewrite reverse_digits.
  - cbv zeta. by rewrite reverse_digits.
Qed.

Section store.
Context (buffer : ptr) (size : Z) (m : mem) (Hm : (buffer + Z.to_nat size ≤ length m)%nat).
(** Memory with [out] stored. *)
Abbreviation after out := (splice buffer (u8 <$> out) m).

Lemma store_next out c :
  Z.of_nat (length out) < size →
  store (buffer + Z.to_nat (Z.of_nat (length out)))%nat (u8 c) (after out) = Done tt (after (out ++ [c])).
Proof.
  intros Hs. unfold store. rewrite Nat2Z.id.
  assert (buffer + length (u8 <$> out) < length m)%nat as Hb by (rewrite length_fmap; lia).
  rewrite fmap_app. cbn [fmap list_fmap]. rewrite <-insert_after_splice, length_fmap by done. rewrite length_fmap in Hb.
  destruct (lookup_lt_is_Some_2 (after out) (buffer + length out)) as [y Hy].
  { rewrite length_splice; rewrite ?length_fmap; lia. }
  unfold mbind, K_bind, get, access. by rewrite Hy.
Qed.
Lemma emit_run out c :
  Z.of_nat (length out) + 1 < size →
  emit buffer size (Z.of_nat (length out)) c (after out) =
    Done (Z.of_nat (length (out ++ [c])), false) (after (out ++ [c])).
Proof.
  intros Hs. unfold emit. rewrite (bind_run _ _ _ _ _ (store_next out c ltac:(lia))).
  rewrite length_app. cbn [length]. rewrite Nat2Z.inj_add. by rewrite (proj2 (Z.leb_gt _ _)) by lia.
Qed.
Lemma emit_all_run out cs :
  Z.of_nat (length out + length cs) < size →
  emit_all buffer size (Z.of_nat (length out)) cs (after out) =
    Done (Z.of_nat (length (out ++ cs)), false) (after (out ++ cs)).
Proof.
  revert out. induction cs as [|c cs IH]; intros out Hs; cbn [emit_all]; [by rewrite app_nil_r|].
  cbn [length] in Hs. rewrite (bind_run _ _ _ _ _ (emit_run out c ltac:(lia))). cbv iota beta.
  rewrite IH by (rewrite length_app; cbn [length]; lia). by rewrite <-app_assoc.
Qed.

Lemma read_number_run out c pad_len pad0 format args t format' args' :
  number_text c pad_len pad0 format args = Some (t, format', args') →
  Z.of_nat (length out + length t) < size →
  ∃ s k, read_number buffer size (Z.of_nat (length out)) c format args (after out) =
      Done (Z.of_nat (length (out ++ k)), false, s, format', args') (after (out ++ k)) ∧
    t = k ++ pad_text pad0 pad_len s.
Proof.
  unfold number_text, read_number. destruct format as [|c' format], args as [|[v|] args]; try done.
  destruct (int_arg v) eqn:Hv; [|done]. cbn [negb]. intros Ht Hs. simpl next.
  rewrite (bind_run (mret (c', format)) _ _ _ _ eq_refl). cbv iota beta.
  destruct (c' =? ch "x"); simplify_eq.
  - change (lit "0x" ++ ?t) with (ch "0" :: ch "x" :: t) in *. cbn [length] in Hs.
    exists (itoa_text v 16), (lit "0x"). split; [|done].
    pose proof (store_next (out ++ [ch "0"]) (ch "x")) as H1. rewrite length_app, Nat2Z.inj_add in H1.
    cbn [length] in H1. change (Z.of_nat 1) with 1 in H1.
    rewrite (bind_run _ _ _ _ _ (store_next out (ch "0") ltac:(lia))), (bind_run _ _ _ _ _ (H1 ltac:(lia))).
    cbv zeta. rewrite (proj2 (Z.leb_gt _ _)) by lia.
    rewrite (bind_run (va_int (AInt v :: args')) _ _ (v, args') _ eq_refl). cbv iota beta.
    rewrite (bind_run _ _ _ _ _ (itoa_run v 16 _ Hv ltac:(lia))). rewrite <-app_assoc. change (lit "0x") with ([ch "0"] ++ [ch "x"]).
    rewrite length_app. cbn [length app]. do 5 f_equal. lia.
  - exists (itoa_text v (if c =? ch "x" then 16 else 10)), []. rewrite app_nil_r. split; [|done].
    rewrite (bind_run (va_int (AInt v :: args')) _ _ (v, args') _ eq_refl). cbv iota beta.
    assert (2 ≤ (if c =? ch "x" then 16 else 10) ≤ 16) as Hr by (case_match; lia).
    by rewrite (bind_run _ _ _ _ _ (itoa_run v _ _ Hv Hr)).
Qed.
Lemma flag_run c format r (st : mem) : flag_of c format = Some r → read_pad0 c format st = Done r st.
Proof. unfold flag_of, read_pad0. intros H. repeat case_match; simplify_eq; reflexivity. Qed.
Lemma width_run c format r (st : mem) : width_of c format = Some r → read_pad_len c format st = Done r st.
Proof. unfold width_of, read_pad_len. intros H. repeat case_match; simplify_eq; reflexivity. Qed.

Lemma conversion_run out c format args t format' args' :
  conversion_text c format args = Some (t, format', args') →
  Z.of_nat (length out + length t) < size →
  conversion buffer size (Z.of_nat (length out)) c format args (after out) =
    Done (Z.of_nat (length (out ++ t)), false, format', args') (after (out ++ t)).
Proof.
  unfold conversion_text, conversion. intros Ht Hs.
  assert (∀ x (f : list Z) (a : list arg), Z.of_nat (length out) + 1 < size →
    ('(idx, stop) ← emit buffer size (Z.of_nat (length out)) x; mret (idx, stop, f, a)) (after out) =
    Done (Z.of_nat (length (out ++ [x])), false, f, a) (after (out ++ [x]))) as Hone.
  { intros x f a Hx. by rewrite (bind_run _ _ _ _ _ (emit_run out x Hx)). }
  destruct (c =? ch "%"); [simplify_eq; apply Hone; cbn [length] in *; lia|].
  apply bind_Some in Ht as ([[pad0 c1] f1] & H1 & Ht). apply bind_Some in Ht as ([[pad_len c2] f2] & H2 & Ht).
  rewrite (bind_run _ _ _ _ _ (flag_run _ _ _ _ H1)). cbv iota beta.
  rewrite (bind_run _ _ _ _ _ (width_run _ _ _ _ H2)). cbv iota beta.
  destruct (c2 =? ch "c").
  { destruct args as [|[v|] args]; simplify_eq.
    rewrite (bind_run (va_int (AInt v :: args')) _ _ (v, args') _ eq_refl). cbv iota beta.
    apply Hone. cbn [length] in *. lia. }
  fold (is_number c2). destruct (is_number c2).
  { destruct (read_number_run _ _ _ _ _ _ _ _ _ Ht Hs) as (s & k & Hr & ->).
    rewrite (bind_run _ _ _ _ _ Hr). cbv iota beta zeta. rewrite length_app in Hs.
    assert (Z.of_nat (length (out ++ k) + length (pad_text pad0 pad_len s)) < size) as Hs' by (rewrite length_app; lia).
    unfold pad_text in *. rewrite (bind_run _ _ _ _ _ (emit_all_run _ _ Hs')). by rewrite <-!app_assoc. }
  destruct (c2 =? ch "s").
  { destruct args as [|[|s] args]; simplify_eq.
    rewrite (bind_run (va_str (AStr s :: args')) _ _ (s, args') _ eq_refl). cbv iota beta.
    by rewrite (bind_run _ _ _ _ _ (emit_all_run _ _ Hs)). }
  simplify_eq. apply Hone. cbn [length] in *. lia.
Qed.

Lemma format_loop_run fuel out format args t :
  text fuel format args = Some t → Z.of_nat (length out + length t) < size →
  format_loop buffer size fuel (Z.of_nat (length out)) format args (after out) =
    Done (Z.of_nat (length (out ++ t))) (after (out ++ t)).
Proof.
  revert out format args t. induction fuel as [|fuel IH]; intros out format args t Ht Hs; [done|].
  destruct format as [|c format]; [done|]. cbn [text format_loop] in *.
  rewrite (bind_run (next (c :: format)) _ _ (c, format) _ eq_refl). cbv iota beta.
  destruct (c =? 0); [simplify_eq; by rewrite app_nil_r|]. destruct (negb (c =? ch "%")).
  - apply fmap_Some in Ht as (t' & Ht & ->). cbn [length] in Hs.
    rewrite (bind_run _ _ _ _ _ (emit_run out c ltac:(lia))). cbv iota beta.
    rewrite (IH _ _ _ t') by (done || rewrite length_app; cbn [length]; lia). by rewrite <-app_assoc.
  - destruct format as [|c1 format]; [done|].
    rewrite (bind_run (next (c1 :: format)) _ _ (c1, format) _ eq_refl). cbv iota beta.
    apply bind_Some in Ht as ([[t1 f1] a1] & H1 & Ht). apply fmap_Some in Ht as (t2 & Ht & ->).
    rewrite length_app in Hs.
    rewrite (bind_run _ _ _ _ _ (conversion_run out c1 format args t1 f1 a1 H1 ltac:(lia))). cbv iota beta.
    rewrite (IH _ _ _ t2) by (done || rewrite length_app; lia). by rewrite <-app_assoc.
Qed.

Lemma vsnprintf_run format args t :
  formatted format args = Some t → Z.of_nat (length t) < size →
  vsnprintf buffer size format args m = Done (Z.of_nat (length t)) (splice buffer (u8 <$> (t ++ [0])) m).
Proof.
  intros Ht Hs. unfold vsnprintf. rewrite (proj2 (Z.eqb_neq size 0)) by lia.
  pose proof (format_loop_run _ [] _ _ _ Ht Hs) as Hl. cbn [length fmap list_fmap app] in Hl.
  rewrite splice_nil in Hl. change (Z.of_nat 0) with 0 in Hl. rewrite (bind_run _ _ _ _ _ Hl). cbv zeta.
  rewrite (proj2 (Z.ltb_lt _ _)) by done. by rewrite (bind_run _ _ _ _ _ (store_next t 0 Hs)).
Qed.
End store.

(** C34: when the text of a format fits, vsnprintf stores exactly this text and a
    terminator, nothing else, and returns its length. *)
Theorem vsnprintf_formats buffer size format args t m
    (Ht : formatted format args = Some t) (Hs : Z.of_nat (length t) < size)
    (Hm : (buffer + Z.to_nat size ≤ length m)%nat) :
  vsnprintf buffer size format args m = Done (Z.of_nat (length t)) (splice buffer (u8 <$> (t ++ [0])) m).
Proof. by apply vsnprintf_run. Qed.
Lemma vsnprintf_formats_witness :
  vsnprintf 2 24 (fmt "%5d of %s: 100%%") [AInt (-42); AStr (Some (lit "kB"))] (replicate 30 7) =
    Done 17 (splice 2 (lit "  -42 of kB: 100%" ++ [0]) (replicate 30 7)).
Proof.
  apply (vsnprintf_formats 2 24 (fmt "%5d of %s: 100%%") [AInt (-42); AStr (Some (lit "kB"))] (lit "  -42 of kB: 100%")
    (replicate 30 7)); [reflexivity|reflexivity|vm_compute; lia].
Defined.
