(* ===== verification/Calendar.v ===== *)
(** * Calendar and clocks
    (common/calendar.h, kernel/time.c, kernel/syscall/clock.c,
    userland/lib/time.c)

    Years, months and days are [unsigned], [time_t] is a 64-bit integer kept
    as [Z] (no date in range comes near its bounds), [tv_nsec] a [long]. A table
    read outside its bounds is undefined. The CMOS clock is hardware: its
    registers are a parameter of [rtc_now]. *)
From S2P Require Import Prelude Errno.

(** ** calendar.h *)
Definition is_leap_year (year : Z) : bool :=
  (year mod 4 =? 0) && (negb (year mod 100 =? 0) || (year mod 400 =? 0)).
Definition days_in_year (year : Z) : Z := if is_leap_year year then 366 else 365.
Definition month_table : list Z := [31; 28; 31; 30; 31; 30; 31; 31; 30; 31; 30; 31].
Definition days_in_month (year month : Z) : option Z :=
  if (month =? 2) && is_leap_year year then Some 29
  else month_table !! Z.to_nat (u32 (month - 1)).

(** [n] rounds of the loop [for (m = 1; m < month; ++m)], from month [m]. *)
Fixpoint day_of_year_loop (n : nat) (year m result : Z) : option Z :=
  match n with
  | O => Some result
  | S n => d ← days_in_month year m; day_of_year_loop n year (m + 1) (u32 (result + d))
  end.
Definition day_of_year (year month day : Z) : option Z :=
  day_of_year_loop (Z.to_nat (month - 1)) year 1 (u32 (day - 1)).

Definition day_of_week (year month day : Z) : Z :=
  let '(year, month) :=
    if month <=? 2 then (u32 (year - 1), u32 (month + 12)) else (year, month) in
  u32 (day + u32 (13 * month + 8) / 5 + year + year / 4 - year / 100 + year / 400) mod 7.

(** ** kernel/time.c *)
Definition bcd_to_bin (bcd : Z) : Z := u8 (Z.land bcd 15 + Z.shiftr bcd 4 * 10).

Fixpoint days_since_epoch_loop (n : nat) (y days : Z) : Z :=
  match n with
  | O => days
  | S n => days_since_epoch_loop n (y + 1) (u32 (days + days_in_year y))
  end.
Definition days_since_epoch {S} (year month day : Z) : K S Z :=
  _ ← ASSERT (1970 <=? year);
  days ← access (day_of_year year month day);
  mret (days_since_epoch_loop (Z.to_nat (year - 1970)) 1970 days).

(** [update_finished n]: whether the [n]-th poll of status register A finds
    the update flag clear; [cmos_read] gives the other registers. *)
Section rtc.
Context (update_finished : nat → bool) (cmos_read : Z → Z).

Fixpoint rtc_poll (timeout n : nat) : bool :=
  match timeout with
  | O => false
  | S timeout => if update_finished n then true else rtc_poll timeout (S n)
  end.

Definition rtc_now {S} : K S Z :=
  let '(year, month, day, hour, minute, second) :=
    if rtc_poll 100 0 then
      let status := cmos_read 11 in
      let second := cmos_read 0 in
      let minute := cmos_read 2 in
      let hour := cmos_read 4 in
      let day := cmos_read 7 in
      let month := cmos_read 8 in
      let year := cmos_read 9 in
      let '(second, minute, hour, day, month, year) :=
        if Z.land status 4 =? 0 then
          (bcd_to_bin second, bcd_to_bin minute, bcd_to_bin (Z.land hour 127),
           bcd_to_bin day, bcd_to_bin month, bcd_to_bin year)
        else (second, minute, hour, day, month, year) in
      let hour :=
        if Z.land status 2 =? 0 then
          let hour := hour mod 12 in
          if Z.land hour 128 =? 0 then hour else hour + 12
        else hour in
      (year + 2000, month, day, hour, minute, second)
    else (1970, 1, 1, 0, 0, 0) in
  days ← days_since_epoch year month day;
  let hours := days * 24 + hour in
  let minutes := hours * 60 + minute in
  mret (minutes * 60 + second).
End rtc.

Record timespec : Type := Timespec { tv_sec : Z; tv_nsec : Z }.
Definition CLK_TCK : Z := 250.
Definition nanos : Z := 1000000000.

Definition time_init {S} (update_finished : nat → bool) (cmos_read : Z → Z) : K S timespec :=
  sec ← rtc_now update_finished cmos_read; mret (Timespec sec 0).
Definition time_tick (now : timespec) : timespec :=
  let nsec := tv_nsec now + nanos / CLK_TCK in
  if nanos <=? nsec then Timespec (tv_sec now + 1) (nsec - nanos) else Timespec (tv_sec now) nsec.
Definition time_now (now : timespec) : Z * timespec := (0, now).

(** ** kernel/syscall/clock.c *)
Definition CLOCK_REALTIME : Z := 0.
Definition CLOCK_MONOTONIC : Z := 1.
Definition TIMER_ABSTIME : Z := 1.

Definition sys_clock_gettime (now : timespec) (clk_id : Z) : Z * option timespec :=
  if (clk_id =? CLOCK_REALTIME) || (clk_id =? CLOCK_MONOTONIC) then
    let (_, tp) := time_now now in (0, Some tp)
  else (ERR EINVAL, None).

Definition timespec_add (this other : timespec) : timespec :=
  let sec := tv_sec this + tv_sec other in
  let nsec := tv_nsec this + tv_nsec other in
  if nanos <=? nsec then Timespec (sec + 1) (nsec - nanos) else Timespec sec nsec.

Definition timespec_saturating_sub (this other : timespec) : timespec :=
  let sec := tv_sec this - tv_sec other in
  let nsec := tv_nsec this - tv_nsec other in
  let '(sec, nsec) := if nsec <? 0 then (sec - 1, nsec + nanos) else (sec, nsec) in
  if sec <? 0 then Timespec 0 0 else Timespec sec nsec.

Definition sleep_should_unblock (now deadline : timespec) : bool :=
  (tv_sec deadline <? tv_sec now) ||
  ((tv_sec now =? tv_sec deadline) && (tv_nsec deadline <=? tv_nsec now)).

(** sys_clock_nanosleep up to its call of scheduler_block: an error or the
    deadline to block on. *)
Definition nanosleep_deadline (now : timespec) (clockid flags : Z) (request : timespec)
    : Z + timespec :=
  if (clockid =? CLOCK_REALTIME) || (clockid =? CLOCK_MONOTONIC) then
    if flags =? 0 then
      let (rc, deadline) := time_now now in
      if IS_ERR rc then inl rc else inr (timespec_add deadline request)
    else if flags =? TIMER_ABSTIME then inr request
    else inl (ERR EINVAL)
  else inl (ERR EINVAL).
(** The rest of it: [rc] is what scheduler_block returned, [now] the clock at
    that time; the result is stored to [*remain] if that is asked for. *)
Definition nanosleep_finish (rc : Z) (now deadline : timespec) (remain : bool)
    : Z * option timespec :=
  if IS_ERR rc then (rc, None)
  else if remain then (0, Some (timespec_saturating_sub deadline now))
  else (0, None).

(** ** userland/lib/time.c *)
Record tm : Type := Tm {
  tm_sec : Z; tm_min : Z; tm_hour : Z; tm_mday : Z; tm_mon : Z; tm_year : Z;
  tm_wday : Z; tm_yday : Z;
}.
(** The [idivl] instruction: quotient and remainder truncated towards zero. *)
Definition divmodi64 (a b : Z) : Z * Z := (Z.quot a b, Z.rem a b).

Fixpoint gmtime_year (fuel : nat) (year time : Z) : option (Z * Z) :=
  match fuel with
  | O => None
  | S fuel =>
      let seconds_in_this_year := days_in_year year * 86400 in
      if time <? seconds_in_this_year then Some (year, time)
      else gmtime_year fuel (year + 1) (time - seconds_in_this_year)
  end.
(** [n] rounds at most of the loop over the months, from [month]. *)
Fixpoint gmtime_month (n : nat) (year month days : Z) : option (Z * Z) :=
  match n with
  | O => Some (month, days)
  | S n =>
      d ← days_in_month year month;
      if days <? d then Some (month, days) else gmtime_month n year (month + 1) (days - d)
  end.
Definition gmtime_r (t : Z) : option tm :=
  '(year, time) ← gmtime_year (S (Z.to_nat (t / 31536000))) 1970 t;
  let '(days, seconds) := divmodi64 time 86400 in
  let minutes := Z.quot seconds 60 in
  '(month, mdays) ← gmtime_month 11 year 1 days;
  Some (Tm (Z.rem seconds 60) (Z.rem minutes 60) (Z.quot minutes 60) (mdays + 1) (month - 1)
           (year - 1900) (day_of_week year month (mdays + 1)) days).

(** ** The proleptic Gregorian count of days *)

(** Leap days up to the end of year [n], days before 1 January of year [y]
    counted from 1970, and days of a year before the first of a month. *)
Definition leaps (n : Z) : Z := n / 4 - n / 100 + n / 400.
Definition jan1 (y : Z) : Z := 365 * (y - 1970) + leaps (y - 1) - leaps 1969.
Definition before_month (leap : bool) (month : Z) : Z :=
  [0; 31; 59; 90; 120; 151; 181; 212; 243; 273; 304; 334; 365] !!! Z.to_nat (month - 1)
  + (if leap && (2 <? month) then 1 else 0).

Definition year_ok (y : Z) : Prop := 1970 ≤ y ≤ 1000000.
Definition date_ok (y m d : Z) : Prop :=
  year_ok y ∧ 1 ≤ m ≤ 12 ∧ 1 ≤ d ∧ ∃ n, days_in_month y m = Some n ∧ d ≤ n.

Lemma month_cases m : 1 ≤ m ≤ 12 →
  m = 1 ∨ m = 2 ∨ m = 3 ∨ m = 4 ∨ m = 5 ∨ m = 6 ∨ m = 7 ∨ m = 8 ∨ m = 9 ∨ m = 10 ∨ m = 11 ∨ m = 12.
Proof. lia. Qed.
Ltac each_month m H :=
  apply month_cases in H; repeat (destruct H as [H|H]); subst m.

(** The quotient by [k] grows exactly at the multiples of [k]. *)
Lemma div_pred y k : 0 < k → y / k = (y - 1) / k + (if y mod k =? 0 then 1 else 0).
Proof.
  intros Hk. pose proof (Z.div_mod y k ltac:(lia)). pose proof (Z.mod_pos_bound y k Hk).
  destruct (Z.eqb_spec (y mod k) 0).
  - assert ((y - 1) / k = y / k - 1); [|lia].
    symmetry. apply Z.div_unique with (r := k - 1); lia.
  - assert ((y - 1) / k = y / k); [|lia].
    symmetry. apply Z.div_unique with (r := y mod k - 1); lia.
Qed.
Lemma mod_100_4 y : y mod 100 = 0 → y mod 4 = 0.
Proof. intros. Z.to_euclidean_division_equations; lia. Qed.
Lemma mod_400_100 y : y mod 400 = 0 → y mod 100 = 0.
Proof. intros. Z.to_euclidean_division_equations; lia. Qed.

Lemma leaps_pred y : leaps y = leaps (y - 1) + (if is_leap_year y then 1 else 0).
Proof.
  unfold leaps, is_leap_year.
  rewrite (div_pred y 4), (div_pred y 100), (div_pred y 400) by lia.
  pose proof (mod_100_4 y). pose proof (mod_400_100 y).
  destruct (Z.eqb_spec (y mod 4) 0), (Z.eqb_spec (y mod 100) 0), (Z.eqb_spec (y mod 400) 0);
    simpl; lia.
Qed.
Lemma jan1_succ y : jan1 (y + 1) = jan1 y + days_in_year y.
Proof.
  unfold jan1, days_in_year. replace (y + 1 - 1) with y by lia.
  rewrite (leaps_pred y). case_match; lia.
Qed.
Lemma days_in_year_bounds y : 365 ≤ days_in_year y ≤ 366.
Proof. unfold days_in_year. case_match; lia. Qed.
Lemma jan1_mono y k : jan1 y + 365 * Z.of_nat k ≤ jan1 (y + Z.of_nat k) ≤ jan1 y + 366 * Z.of_nat k.
Proof.
  induction k as [|k IH]; [simpl; rewrite !Z.add_0_r; lia|].
  rewrite Nat2Z.inj_succ. unfold Z.succ. rewrite Z.add_assoc, jan1_succ.
  pose proof (days_in_year_bounds (y + Z.of_nat k)). lia.
Qed.
Lemma jan1_bounds y : year_ok y → 0 ≤ jan1 y ≤ 366 * 1000000.
Proof.
  unfold year_ok. intros H. pose proof (jan1_mono 1970 (Z.to_nat (y - 1970))) as Hm.
  replace (1970 + Z.of_nat (Z.to_nat (y - 1970))) with y in Hm by lia.
  change (jan1 1970) with 0 in Hm. lia.
Qed.

Lemma epoch_loop n y days :
  1970 ≤ y → 0 ≤ days → y + Z.of_nat n ≤ 1000000 → days ≤ 366 + jan1 y →
  days_since_epoch_loop n y days = days + jan1 (y + Z.of_nat n) - jan1 y.
Proof.
  revert y days. induction n as [|n IH]; intros y days Hy Hd Hn Hb; simpl.
  { rewrite Z.add_0_r. lia. }
  pose proof (days_in_year_bounds y). pose proof (jan1_bounds y) as Hj.
  rewrite u32_small by (unfold U32, year_ok in *; lia).
  rewrite IH by (rewrite ?jan1_succ; lia). rewrite jan1_succ.
  replace (y + 1 + Z.of_nat n) with (y + Z.of_nat (S n)) by lia. lia.
Qed.

Lemma days_in_month_spec y m :
  1 ≤ m ≤ 12 →
  ∃ n, days_in_month y m = Some n ∧ 28 ≤ n ≤ 31 ∧
    before_month (is_leap_year y) (m + 1) = before_month (is_leap_year y) m + n.
Proof.
  intros Hm. unfold days_in_month, before_month.
  destruct (is_leap_year y) eqn:E; each_month m Hm;
    (eexists; split; [vm_compute; reflexivity|]); (split; [lia|vm_compute; reflexivity]).
Qed.
Lemma before_month_bounds b m : 1 ≤ m ≤ 12 → 0 ≤ before_month b m ≤ 335.
Proof. intros Hm. unfold before_month. destruct b; each_month m Hm; vm_compute; intuition congruence. Qed.

Lemma day_of_year_loop_spec n y m d :
  1 ≤ m → m + Z.of_nat n ≤ 12 → 1 ≤ d ≤ 31 →
  day_of_year_loop n y m (before_month (is_leap_year y) m + d - 1) =
    Some (before_month (is_leap_year y) (m + Z.of_nat n) + d - 1).
Proof.
  revert m. induction n as [|n IH]; intros m Hm Hn Hd; cbn [day_of_year_loop].
  { by rewrite Z.add_0_r. }
  destruct (days_in_month_spec y m) as (k & -> & Hk & Hb); [lia|]. simpl.
  pose proof (before_month_bounds (is_leap_year y) m ltac:(lia)).
  rewrite u32_small by (unfold U32; lia).
  replace (before_month (is_leap_year y) m + d - 1 + k)
    with (before_month (is_leap_year y) (m + 1) + d - 1) by lia.
  rewrite IH by lia. do 4 f_equal. lia.
Qed.
Lemma day_of_year_spec y m d :
  1 ≤ m ≤ 12 → 1 ≤ d ≤ 31 →
  day_of_year y m d = Some (before_month (is_leap_year y) m + d - 1).
Proof.
  intros Hm Hd. unfold day_of_year. rewrite u32_small by (unfold U32; lia).
  assert (before_month (is_leap_year y) 1 = 0) as H1 by (by destruct (is_leap_year y)).
  replace (d - 1) with (before_month (is_leap_year y) 1 + d - 1) by lia.
  rewrite day_of_year_loop_spec by lia. do 4 f_equal. lia.
Qed.
Lemma date_ok_day y m d : date_ok y m d → 1 ≤ d ≤ 31.
Proof.
  intros (_ & Hm & Hd & n & Hn & Hle).
  destruct (days_in_month_spec y m Hm) as (n' & Hn' & ? & _). simplify_eq. lia.
Qed.
Lemma days_since_epoch_run {St} y m d (st : St) :
  date_ok y m d →
  days_since_epoch y m d st = Done (jan1 y + before_month (is_leap_year y) m + d - 1) st.
Proof.
  intros Hok. pose proof (date_ok_day _ _ _ Hok) as Hd. destruct Hok as (Hy & Hm & _).
  unfold year_ok in Hy. unfold days_since_epoch. rewrite (proj2 (Z.leb_le 1970 y)) by lia.
  erewrite bind_run by reflexivity. rewrite day_of_year_spec by done. simpl.
  erewrite bind_run by reflexivity. unfold mret, K_ret. f_equal.
  pose proof (before_month_bounds (is_leap_year y) m Hm).
  rewrite epoch_loop by (change (jan1 1970) with 0; lia).
  replace (1970 + Z.of_nat (Z.to_nat (y - 1970))) with y by lia. change (jan1 1970) with 0. lia.
Qed.

Lemma leaps_bounds y : 0 ≤ y → 0 ≤ leaps y ≤ y.
Proof. intros. unfold leaps. Z.to_euclidean_division_equations; lia. Qed.
(** Zeller's congruence without wrap-around. *)
Lemma day_of_week_eq y m d :
  year_ok y → 1 ≤ m ≤ 12 → 1 ≤ d ≤ 31 →
  day_of_week y m d =
    if m <=? 2 then (d + (13 * (m + 12) + 8) / 5 + (y - 1) + leaps (y - 1)) mod 7
    else (d + (13 * m + 8) / 5 + y + leaps y) mod 7.
Proof.
  unfold year_ok. intros Hy Hm Hd. pose proof (leaps_bounds y ltac:(lia)) as H1.
  pose proof (leaps_bounds (y - 1) ltac:(lia)) as H2. unfold day_of_week.
  destruct (m <=? 2) eqn:E; bool_to_prop.
  - rewrite (u32_small (y - 1)), (u32_small (m + 12)) by (unfold U32; lia).
    rewrite (u32_small (13 * _ + 8)) by (unfold U32; lia).
    assert (0 ≤ (13 * (m + 12) + 8) / 5 ≤ 100) by (Z.to_euclidean_division_equations; lia).
    unfold leaps in *. rewrite u32_small by (unfold U32; lia). f_equal. lia.
  - rewrite (u32_small (13 * _ + 8)) by (unfold U32; lia).
    assert (0 ≤ (13 * m + 8) / 5 ≤ 100) by (Z.to_euclidean_division_equations; lia).
    unfold leaps in *. rewrite u32_small by (unfold U32; lia). f_equal. lia.
Qed.

(** The day count behind the clock and Zeller's congruence agree: the
    weekday of a date is its day number plus 4 (the epoch was a Thursday) modulo
    7, with Sunday 0. *)
Lemma day_of_week_days_since_epoch {St : Type} y m d (st : St) :
  date_ok y m d →
  ∃ n, days_since_epoch y m d st = Done n st ∧ 0 ≤ n ∧ day_of_week y m d = (n + 4) mod 7.
Proof.
  intros Hok. eexists. split; [by apply days_since_epoch_run|].
  pose proof (date_ok_day _ _ _ Hok) as Hd. destruct Hok as (Hy & Hm & _).
  pose proof (jan1_bounds y Hy). pose proof (before_month_bounds (is_leap_year y) m Hm).
  split; [lia|]. clear H H0. unfold jan1, year_ok in *.
  rewrite day_of_week_eq by (unfold year_ok; lia).
  change (leaps 1969) with 477. pose proof (leaps_pred y) as Hl.
  destruct (is_leap_year y); each_month m Hm;
    match goal with |- context [before_month ?b ?k] =>
      let v := eval vm_compute in (before_month b k) in change (before_month b k) with v end;
    match goal with |- context [if ?b then _ else _] =>
      let v := eval vm_compute in b in change b with v end;
    cbv iota beta;
    match goal with |- context [(13 * ?a + 8) / 5] =>
      let v := eval vm_compute in ((13 * a + 8) / 5) in change ((13 * a + 8) / 5) with v end;
    Z.to_euclidean_division_equations; lia.
Qed.

(** ** The way back: gmtime_r *)
Lemma gmtime_year_spec k fuel y r :
  1970 ≤ y → y + Z.of_nat k ≤ 1000000 → (k < fuel)%nat →
  0 ≤ r < 86400 * days_in_year (y + Z.of_nat k) →
  gmtime_year fuel y (86400 * (jan1 (y + Z.of_nat k) - jan1 y) + r) = Some (y + Z.of_nat k, r).
Proof.
  revert fuel y. induction k as [|k IH]; intros fuel y Hy Hk Hf Hr;
    (destruct fuel as [|fuel]; [lia|]); cbn [gmtime_year].
  - rewrite !Z.add_0_r in *. rewrite Z.sub_diag. case_match; bool_to_prop; [|lia].
    do 2 f_equal; lia.
  - replace (y + Z.of_nat (S k)) with (y + 1 + Z.of_nat k) in * by lia.
    pose proof (jan1_succ y). pose proof (jan1_mono (y + 1) k).
    case_match; bool_to_prop; [lia|].
    rewrite <-(IH fuel (y + 1)) by lia. f_equal. lia.
Qed.
Lemma before_month_mono b m m' : 1 ≤ m ≤ m' → m' ≤ 12 → before_month b m ≤ before_month b m'.
Proof.
  intros Hm Hm'. assert (1 ≤ m ≤ 12) as Hm1 by lia. assert (1 ≤ m' ≤ 12) as Hm2 by lia.
  destruct b; each_month m Hm1; each_month m' Hm2;
    first [exfalso; lia | vm_compute; intuition congruence].
Qed.
Lemma gmtime_month_spec n y m0 m d nd :
  1 ≤ m0 ≤ m → m ≤ 12 → m - m0 ≤ Z.of_nat n → 0 ≤ d → days_in_month y m = Some nd → d < nd →
  gmtime_month n y m0 (before_month (is_leap_year y) m - before_month (is_leap_year y) m0 + d)
    = Some (m, d).
Proof.
  revert m0. induction n as [|n IH]; intros m0 Hm Hm' Hn Hd Hnd Hlt; cbn [gmtime_month].
  { assert (m0 = m) as -> by lia. do 2 f_equal. lia. }
  destruct (decide (m0 = m)) as [->|Hne].
  - rewrite Hnd. cbn. case_match; bool_to_prop; [|lia]. do 2 f_equal; lia.
  - destruct (days_in_month_spec y m0) as (k & -> & Hk & Hb); [lia|]. cbn.
    pose proof (before_month_mono (is_leap_year y) (m0 + 1) m ltac:(lia) Hm').
    case_match; bool_to_prop; [lia|]. rewrite <-(IH (m0 + 1)) by (done || lia). f_equal. lia.
Qed.
Lemma before_month_days y m n :
  1 ≤ m ≤ 12 → days_in_month y m = Some n →
  before_month (is_leap_year y) m + n ≤ days_in_year y.
Proof.
  intros Hm. unfold days_in_month, days_in_year. destruct (is_leap_year y);
    each_month m Hm; intros Hn; vm_compute in Hn; simplify_eq; vm_compute; congruence.
Qed.

(** C40: the broken-down time that gmtime_r gives for the seconds the real-time
    clock stands for is the date and time it was read from: day count and
    breakdown are inverse to each other, on every valid date from 1970 on. *)
Theorem gmtime_r_days_since_epoch {St : Type} (st : St) y m d hour min sec :
  date_ok y m d → 0 ≤ hour < 24 → 0 ≤ min < 60 → 0 ≤ sec < 60 →
  ∃ n yday, days_since_epoch y m d st = Done n st ∧ day_of_year y m d = Some yday ∧
    gmtime_r (((n * 24 + hour) * 60 + min) * 60 + sec) =
      Some (Tm sec min hour d (m - 1) (y - 1900) (day_of_week y m d) yday).
Proof.
  intros Hok Hh Hmi Hs. do 2 eexists. split; [by apply days_since_epoch_run|].
  pose proof (date_ok_day _ _ _ Hok) as Hd. destruct Hok as (Hy & Hm & Hd1 & nd & Hnd & Hle).
  split; [by apply day_of_year_spec|]. unfold gmtime_r.
  pose proof (before_month_days y m nd Hm Hnd). pose proof (before_month_bounds (is_leap_year y) m Hm).
  set (b := before_month (is_leap_year y) m) in *.
  set (tod := (hour * 60 + min) * 60 + sec).
  assert (0 ≤ tod < 86400) as Htod by (unfold tod; lia).
  set (k := Z.to_nat (y - 1970)).
  assert (y = 1970 + Z.of_nat k) as Ek by (unfold k, year_ok in *; lia).
  pose proof (jan1_mono 1970 k) as Hj. rewrite <-Ek in Hj. change (jan1 1970) with 0 in Hj.
  replace ((((jan1 y + b + d - 1) * 24 + hour) * 60 + min) * 60 + sec)
    with (86400 * (jan1 (1970 + Z.of_nat k) - jan1 1970) + (86400 * (b + d - 1) + tod))
    by (rewrite <-Ek; change (jan1 1970) with 0; unfold tod; lia).
  rewrite gmtime_year_spec; [|lia|unfold year_ok in *; lia| |rewrite <-Ek; lia].
  2: { rewrite <-Ek. change (jan1 1970) with 0.
       assert (Z.of_nat k ≤ (86400 * (jan1 y - 0) + (86400 * (b + d - 1) + tod)) / 31536000); [|lia].
       apply Z.div_le_lower_bound; lia. }
  rewrite <-Ek. cbn [mbind option_bind]. unfold divmodi64.
  cbv beta iota.
  rewrite (Z.quot_div_nonneg (_ + tod) 86400), (Z.rem_mod_nonneg (_ + tod) 86400) by lia.
  assert ((86400 * (b + d - 1) + tod) / 86400 = b + d - 1) as -> by (Z.to_euclidean_division_equations; lia).
  assert ((86400 * (b + d - 1) + tod) mod 86400 = tod) as -> by (Z.to_euclidean_division_equations; lia).
  replace (b + d - 1) with (b - before_month (is_leap_year y) 1 + (d - 1))
    by (change (before_month (is_leap_year y) 1) with (before_month (is_leap_year y) 1);
        assert (before_month (is_leap_year y) 1 = 0) by (by destruct (is_leap_year y)); lia).
  unfold b. erewrite gmtime_month_spec; [|lia|lia|lia|lia|exact Hnd|lia]. cbn [mbind option_bind].
  f_equal. f_equal; try (unfold tod; Z.to_euclidean_division_equations; lia).
  f_equal. lia.
Qed.

(** ** Time stamps as nanoseconds *)
Definition ns (t : timespec) : Z := tv_sec t * nanos + tv_nsec t.
Definition ts_ok (t : timespec) : Prop := 0 ≤ tv_nsec t < nanos.

Lemma timespec_add_spec a b :
  ts_ok a → ts_ok b → ts_ok (timespec_add a b) ∧ ns (timespec_add a b) = ns a + ns b.
Proof.
  unfold ts_ok, ns, timespec_add. intros. case_match; bool_to_prop; unfold nanos in *; simpl; lia.
Qed.
Lemma timespec_saturating_sub_spec a b :
  ts_ok a → ts_ok b →
  ts_ok (timespec_saturating_sub a b) ∧ ns (timespec_saturating_sub a b) = Z.max 0 (ns a - ns b).
Proof.
  unfold ts_ok, ns, timespec_saturating_sub. intros.
  destruct (tv_nsec a - tv_nsec b <? 0) eqn:E1; cbv iota beta;
    case_match; bool_to_prop; unfold nanos in *; simpl; lia.
Qed.
Lemma sleep_should_unblock_spec now deadline :
  ts_ok now → ts_ok deadline →
  sleep_should_unblock now deadline = true ↔ ns deadline ≤ ns now.
Proof.
  unfold ts_ok, ns, sleep_should_unblock, nanos. intros.
  rewrite orb_true_iff, andb_true_iff, !Z.ltb_lt, Z.eqb_eq, Z.leb_le. lia.
Qed.
Lemma time_tick_spec t : ts_ok t → ts_ok (time_tick t) ∧ ns (time_tick t) = ns t + 4000000.
Proof.
  unfold ts_ok, ns, time_tick. change (nanos / CLK_TCK) with 4000000. intros.
  case_match; bool_to_prop; unfold nanos in *; simpl; lia.
Qed.
Lemma time_ticks_spec k t :
  ts_ok t → ts_ok (Nat.iter k time_tick t) ∧ ns (Nat.iter k time_tick t) = ns t + 4000000 * Z.of_nat k.
Proof.
  intros Ht. induction k as [|k [IH1 IH2]]; [simpl; split; [done|lia]|].
  cbn [Nat.iter nat_rect]. fold (Nat.iter k time_tick t). destruct (time_tick_spec _ IH1). split; [done|lia].
Qed.

(** A relative sleep wakes at the first timer tick that is not before the
    requested time has passed, and what nanosleep stores as the remaining time is
    the rest of it, zero once it has passed. *)
Lemma nanosleep_spec now request clockid k rc :
  ts_ok now → ts_ok request → (clockid = CLOCK_REALTIME ∨ clockid = CLOCK_MONOTONIC) →
  IS_ERR rc = false →
  let later := Nat.iter k time_tick now in
  ∃ deadline rem, nanosleep_deadline now clockid 0 request = inr deadline ∧
    nanosleep_finish rc later deadline true = (0, Some rem) ∧
    (sleep_should_unblock later deadline = true ↔ ns request ≤ 4000000 * Z.of_nat k) ∧
    ts_ok rem ∧ ns rem = Z.max 0 (ns request - 4000000 * Z.of_nat k).
Proof.
  intros Hn Hr Hc Hrc later. destruct (time_ticks_spec k now Hn) as [Hl1 Hl2].
  destruct (timespec_add_spec _ _ Hn Hr) as [Hd1 Hd2].
  exists (timespec_add now request), (timespec_saturating_sub (timespec_add now request) later).
  destruct (timespec_saturating_sub_spec (timespec_add now request) later Hd1 Hl1) as [Hs1 Hs2].
  split_and!.
  - unfold nanosleep_deadline. by destruct Hc as [->| ->].
  - unfold nanosleep_finish. by rewrite Hrc.
  - rewrite sleep_should_unblock_spec by done. unfold later. lia.
  - done.
  - rewrite Hs2. unfold later. lia.
Qed.

(** ** The real-time clock *)

(** With the clock chip in its 12-hour mode every time is read as a morning
    one: the hour is reduced modulo 12 before its PM bit is tested. *)
Lemma rtc_now_12_hour_mode {St : Type} update_finished cmos_read (st : St) t st' :
  Z.land (cmos_read 11) 2 = 0 → Z.land (cmos_read 11) 4 ≠ 0 →
  0 ≤ cmos_read 2 < 60 → 0 ≤ cmos_read 0 < 60 →
  rtc_poll update_finished 100 0 = true →
  rtc_now update_finished cmos_read st = Done t st' →
  t mod 86400 < 43200.
Proof.
  intros H24 Hbcd Hmin Hsec Hpoll. unfold rtc_now. rewrite Hpoll, H24.
  rewrite (proj2 (Z.eqb_neq _ 0) Hbcd). cbv beta iota zeta. rewrite Z.eqb_refl.
  set (h := cmos_read 4 mod 12). assert (0 ≤ h < 12) as Hh by (apply Z.mod_pos_bound; lia).
  assert (Z.land h 128 = 0) as ->.
  { assert (h = 0 ∨ h = 1 ∨ h = 2 ∨ h = 3 ∨ h = 4 ∨ h = 5 ∨ h = 6 ∨ h = 7 ∨ h = 8 ∨ h = 9 ∨
            h = 10 ∨ h = 11) as Hc by lia.
    clearbody h. repeat (destruct Hc as [->|Hc]; [done|]). by subst. }
  rewrite Z.eqb_refl. intros (n & s1 & _ & Hr)%bind_Done. unfold mret, K_ret in Hr.
  injection Hr as <- _. Z.to_euclidean_division_equations; lia.
Qed.

(** ** Witnesses *)
Lemma date_ok_leap_day : date_ok 2024 2 29.
Proof. unfold date_ok, year_ok. split_and!; try lia. exists 29. split; [reflexivity|lia]. Qed.

Lemma day_of_week_days_since_epoch_witness :
  ∃ n, days_since_epoch 2024 2 29 tt = Done n tt ∧ 0 ≤ n ∧ day_of_week 2024 2 29 = (n + 4) mod 7.
Proof. apply (day_of_week_days_since_epoch 2024 2 29 tt date_ok_leap_day). Defined.
Lemma gmtime_r_days_since_epoch_witness :
  ∃ n yday, days_since_epoch 2024 2 29 tt = Done n tt ∧ day_of_year 2024 2 29 = Some yday ∧
    gmtime_r (((n * 24 + 23) * 60 + 59) * 60 + 58) =
      Some (Tm 58 59 23 29 1 124 (day_of_week 2024 2 29) yday).
Proof. apply (gmtime_r_days_since_epoch tt 2024 2 29 23 59 58 date_ok_leap_day); lia. Defined.
Lemma nanosleep_spec_witness :
  let later := Nat.iter 2 time_tick (Timespec 5 999000000) in
  ∃ deadline rem,
    nanosleep_deadline (Timespec 5 999000000) CLOCK_MONOTONIC 0 (Timespec 0 9000000) = inr deadline ∧
    nanosleep_finish 0 later deadline true = (0, Some rem) ∧
    (sleep_should_unblock later deadline = true ↔ ns (Timespec 0 9000000) ≤ 4000000 * Z.of_nat 2) ∧
    ts_ok rem ∧ ns rem = Z.max 0 (ns (Timespec 0 9000000) - 4000000 * Z.of_nat 2).
Proof.
  apply (nanosleep_spec (Timespec 5 999000000) (Timespec 0 9000000) CLOCK_MONOTONIC 2 0).
  - split; vm_compute; congruence.
  - split; vm_compute; congruence.
  - by right.
  - reflexivity.
Defined.

(** 11:30 pm on 28 February 2023, in binary 12-hour mode. *)
Definition evening (reg : Z) : Z :=
  if reg =? 11 then 4 else if reg =? 0 then 0 else if reg =? 2 then 30
  else if reg =? 4 then 128 + 11 else if reg =? 7 then 28 else if reg =? 8 then 2 else 23.
Lemma rtc_now_12_hour_mode_witness :
  rtc_now (λ _, true) evening tt = Done 1677569400 tt ∧ 1677569400 mod 86400 < 43200.
Proof.
  split; [reflexivity|].
  apply (rtc_now_12_hour_mode (λ _, true) evening tt 1677569400 tt).
  - reflexivity.
  - vm_compute. congruence.
  - unfold evening. simpl. lia.
  - unfold evening. simpl. lia.
  - reflexivity.
  - reflexivity.
Defined.
