(* ===== verification/Lock.v ===== *)
(** * Mutexes (kernel/lock.c, kernel/lock.h)

    A mutex is taken in three steps: the flag [lock] is won by
    compare-and-swap, the holder and level are looked at and changed, the flag
    is cleared. The functions between the swap and the clearing store are
    [lock_body], [unlock_body] and [unlock_if_body]; the step relation of
    section [protocol] interleaves them over any number of processes, and the
    computations [mutex_lock] and [mutex_unlock] are the sequential readings the
    rest of the kernel is modelled with. *)
From stdpp Require Import functions.
From S2P Require Import Prelude.

(** Processes are named by numbers; [level] is a [uint32_t]. *)
Record mutex : Type := Mutex { holder : option nat; level : Z; lock : bool }.
Definition mutex_zero : mutex := Mutex None 0 false.

(** The body of mutex_lock under the flag: whether the mutex was taken. *)
Definition lock_body (current : nat) (m : mutex) : mutex * bool :=
  if (match holder m with None => true | Some h => (h =? current)%nat end)
  then (Mutex (Some current) (u32 (level m + 1)) (lock m), true)
  else (m, false).
(** The body of mutex_unlock; [None] is a failed assertion. *)
Definition unlock_body (current : nat) (m : mutex) : option mutex :=
  if bool_decide (holder m = Some current) && (0 <? level m) then
    let level := level m - 1 in
    Some (Mutex (if level =? 0 then None else holder m) level (lock m))
  else None.
(** The body of mutex_unlock_if_locked and its result. *)
Definition unlock_if_body (current : nat) (m : mutex) : option (mutex * bool) :=
  if level m =? 0 then Some (m, false)
  else if negb (bool_decide (holder m = Some current)) then Some (m, false)
  else if 0 <? level m then
    let level := level m - 1 in
    if level =? 0 then Some (Mutex (holder m) level (lock m), false)
    else Some (Mutex None level (lock m), true)
  else None.
Definition set_lock (b : bool) (m : mutex) : mutex := Mutex (holder m) (level m) b.

(** ** Sequential readings

    One round of each loop. A round that does not get the mutex yields to the
    scheduler; what other processes do then is not part of a computation, which
    stops with [OutOfFuel]. *)
Definition mutex_lock (interrupts_enabled : bool) (current : nat) : K mutex unit :=
  _ ← ASSERT interrupts_enabled;
  m ← get;
  if lock m then out_of_fuel
  else
    let '(m, got) := lock_body current (set_lock true m) in
    _ ← put (set_lock false m);
    if got then mret tt else out_of_fuel.
Definition mutex_unlock (current : nat) : K mutex unit :=
  m ← get;
  if lock m then out_of_fuel
  else
    match unlock_body current (set_lock true m) with
    | Some m => put (set_lock false m)
    | None => panic
    end.
Definition mutex_unlock_if_locked (current : nat) : K mutex bool :=
  m ← get;
  if lock m then out_of_fuel
  else
    match unlock_if_body current (set_lock true m) with
    | Some (m, r) => _ ← put (set_lock false m); mret r
    | None => panic
    end.

(** [current] may take the mutex at once, [n] levels deep already. *)
Definition available (current : nat) (n : Z) (m : mutex) : Prop :=
  0 ≤ n < U32 - 1 ∧ m = Mutex (if n =? 0 then None else Some current) n false.

Lemma available_zero current : available current 0 mutex_zero.
Proof. split; [unfold U32; lia|done]. Qed.
Lemma wp_mutex_lock current n m (Q : unit → mutex → Prop) :
  available current n m → Q tt (Mutex (Some current) (n + 1) false) →
  wp (mutex_lock true current) Q m.
Proof.
  intros [Hn ->] HQ. unfold mutex_lock, lock_body. wp_go.
  destruct (Z.eqb_spec n 0) as [->|]; simpl; rewrite ?Nat.eqb_refl; simpl;
    (rewrite u32_small by (unfold U32 in *; lia)); by wp_go.
Qed.
Lemma wp_mutex_unlock current n m (Q : unit → mutex → Prop) :
  available current n m → Q tt m → wp (mutex_unlock current) Q (Mutex (Some current) (n + 1) false).
Proof.
  intros [Hn ->] HQ.
  assert (unlock_body current (Mutex (Some current) (n + 1) true) =
    Some (Mutex (if n =? 0 then None else Some current) n true)) as E.
  { unfold unlock_body. cbn [holder level lock]. rewrite bool_decide_eq_true_2 by done.
    rewrite (proj2 (Z.ltb_lt 0 (n + 1))) by lia. cbv zeta.
    by replace (n + 1 - 1) with n by lia. }
  unfold mutex_unlock. wp_keep. unfold set_lock at 1; cbn [lock holder level]. rewrite E. by wp_keep.
Qed.

(** ** The protocol of concurrent processes *)

(** Where a process is, with the number [d] of times it holds the mutex. *)
Inductive pc : Type :=
  | Outside (d : Z)
  | LockCas (d : Z)
  | LockBody (d : Z)
  | LockRelease (d : Z) (got : bool)
  | UnlockCas (d : Z)
  | UnlockBody (d : Z)
  | UnlockRelease (d : Z).
Definition depth (c : pc) : Z :=
  match c with
  | Outside d | LockCas d | LockBody d | LockRelease d _
  | UnlockCas d | UnlockBody d | UnlockRelease d => d
  end.
(** Between the compare-and-swap and the clearing store. *)
Definition flagged (c : pc) : bool :=
  match c with
  | LockBody _ | LockRelease _ _ | UnlockBody _ | UnlockRelease _ => true
  | _ => false
  end.

Definition bounded (c : pc) : Prop :=
  match c with
  | LockCas d | LockBody d | LockRelease d false => d < U32 - 1
  | UnlockCas d | UnlockBody d => 0 < d < U32
  | Outside d | LockRelease d true | UnlockRelease d => d < U32
  end.

Record config : Type := Config { mtx : mutex; pcs : nat → pc }.

(** A process locks when it likes (it does not nest 2^32 - 1 deep) and unlocks
    only what it holds; every line below is one atomic access or the accesses
    under the flag. [mutex_unlock_if_locked] is no step: a holder that calls it, as
    file_description_seek does, breaks the protocol (see
    [mutex_unlock_if_locked_inverted]). *)
Inductive step : config → config → Prop :=
  | step_lock p d m f : f p = Outside d → d < U32 - 1 →
      step (Config m f) (Config m (<[p := LockCas d]> f))
  | step_lock_won p d m f : f p = LockCas d → lock m = false →
      step (Config m f) (Config (set_lock true m) (<[p := LockBody d]> f))
  | step_lock_lost p d m f : f p = LockCas d → lock m = true →
      step (Config m f) (Config m f)
  | step_lock_body p d m f m' got : f p = LockBody d → lock_body p m = (m', got) →
      step (Config m f)
           (Config m' (<[p := LockRelease (if got then d + 1 else d) got]> f))
  | step_lock_release p d got m f : f p = LockRelease d got →
      step (Config m f)
           (Config (set_lock false m) (<[p := if got then Outside d else LockCas d]> f))
  | step_unlock p d m f : f p = Outside d → 0 < d →
      step (Config m f) (Config m (<[p := UnlockCas d]> f))
  | step_unlock_won p d m f : f p = UnlockCas d → lock m = false →
      step (Config m f) (Config (set_lock true m) (<[p := UnlockBody d]> f))
  | step_unlock_body p d m f m' : f p = UnlockBody d → unlock_body p m = Some m' →
      step (Config m f) (Config m' (<[p := UnlockRelease (d - 1)]> f))
  | step_unlock_release p d m f : f p = UnlockRelease d →
      step (Config m f) (Config (set_lock false m) (<[p := Outside d]> f)).

Definition start : config := Config mutex_zero (λ _, Outside 0).
Definition reachable (c : config) : Prop := rtc step start c.

(** The flag is up exactly while one process is between its swap and its
    clearing store; the holder is the one process inside, and the level counts
    how often. *)
Record inv (c : config) : Prop := Inv {
  inv_flag : ∀ p, flagged (pcs c p) = true →
    lock (mtx c) = true ∧ ∀ q, flagged (pcs c q) = true → q = p;
  inv_depth : ∀ p, 0 ≤ depth (pcs c p) ∧
    (depth (pcs c p) ≠ 0 → holder (mtx c) = Some p ∧ level (mtx c) = depth (pcs c p));
  inv_holder : ∀ p, holder (mtx c) = Some p → depth (pcs c p) ≠ 0;
  inv_free : holder (mtx c) = None → level (mtx c) = 0;
  inv_bound : ∀ p, bounded (pcs c p);
}.

Lemma inv_start : inv start.
Proof. split; simpl; intros; unfold U32; try done; lia. Qed.

Ltac at_process p q :=
  destruct (decide (q = p)) as [->|?];
  rewrite ?fn_lookup_insert, ?fn_lookup_insert_ne in * by done.

(** What every step that leaves the mutex record alone has to show. *)
Lemma inv_move p c c' m m' f :
  inv (Config m f) → f p = c → depth c' = depth c →
  holder m' = holder m → level m' = level m →
  bounded c' →
  (flagged c' = true → lock m' = true ∧ ∀ q, q ≠ p → flagged (f q) = false) →
  (lock m' = lock m ∨ flagged c' = true ∨ flagged c = true) →
  inv (Config m' (<[p := c']> f)).
Proof.
  intros Hinv Hc Hdep Hho Hle Hbound Hflag Hlock.
  destruct Hinv as [Hfl Hd Hh Hf Hb]. simpl in *. subst c.
  split; simpl.
  - intros q Hq. destruct (decide (q = p)) as [->|Hqp].
    + rewrite fn_lookup_insert in Hq. destruct (Hflag Hq) as [? Ho]. split; [done|].
      intros r Hr. destruct (decide (r = p)) as [|Hrp]; [done|].
      rewrite fn_lookup_insert_ne in Hr by done. by rewrite Ho in Hr.
    + rewrite fn_lookup_insert_ne in Hq by done. destruct (Hfl q Hq) as [Hlk Hu].
      assert (flagged c' = false) as Hc'.
      { destruct (flagged c') eqn:E; [|done]. destruct (Hflag eq_refl) as [_ Ho].
        by rewrite Ho in Hq. }
      split.
      * destruct Hlock as [->|[Hx|Hx]]; [done|congruence|]. destruct Hqp. symmetry. by apply Hu.
      * intros r Hr. destruct (decide (r = p)) as [->|Hrp].
        { rewrite fn_lookup_insert in Hr. congruence. }
        rewrite fn_lookup_insert_ne in Hr by done. by apply Hu.
  - intros q. rewrite Hho, Hle. at_process p q; [|apply Hd]. rewrite Hdep. apply Hd.
  - intros q. rewrite Hho. intros Hq. at_process p q; [|by apply Hh].
    rewrite Hdep. by apply Hh.
  - by rewrite Hho, Hle.
  - intros q. destruct (decide (q = p)) as [->|?]; [rewrite fn_lookup_insert|rewrite fn_lookup_insert_ne by done; apply Hb]. done.
Qed.

Lemma others_unflagged m f p q :
  inv (Config m f) → flagged (f p) = true → q ≠ p → flagged (f q) = false.
Proof.
  intros Hi Hp Hq. destruct (flagged (f q)) eqn:E; [|done].
  destruct (inv_flag _ Hi p Hp) as [_ H]. simpl in H. by rewrite (H q E) in Hq.
Qed.
Lemma all_unflagged m f q : inv (Config m f) → lock m = false → flagged (f q) = false.
Proof.
  intros Hi Hl. destruct (flagged (f q)) eqn:E; [|done].
  destruct (inv_flag _ Hi q E) as [H _]. simpl in H. congruence.
Qed.

Lemma inv_lock_body m f p d m' got :
  inv (Config m f) → f p = LockBody d → lock_body p m = (m', got) →
  inv (Config m' (<[p := LockRelease (if got then d + 1 else d) got]> f)).
Proof.
  intros Hi Hp Hb. pose proof (inv_bound _ Hi p) as Hbd. simpl in Hbd. rewrite Hp in Hbd.
  assert (flagged (f p) = true) as Hfp by by rewrite Hp.
  destruct (inv_flag _ Hi p Hfp) as [Hlk _]. simpl in Hlk.
  unfold lock_body in Hb. case_match eqn:Hfree; simplify_eq.
  - (* taken *)
    assert (level m = d ∧ ∀ q, q ≠ p → depth (f q) = 0) as [Hld Hoth].
    { destruct (inv_depth _ Hi p) as [Hd0 Hdp]. simpl in *. rewrite Hp in *. simpl in *.
      destruct (holder m) as [h|] eqn:Hh.
      - apply Nat.eqb_eq in Hfree as ->. pose proof (inv_holder _ Hi p Hh) as Hne. simpl in Hne.
        rewrite Hp in Hne. destruct (Hdp Hne) as [_ ?]. split; [done|].
        intros q Hq. destruct (inv_depth _ Hi q) as [_ Hdq]. simpl in Hdq.
        destruct (decide (depth (f q) = 0)) as [|Hn]; [done|].
        destruct (Hdq Hn) as [? _]. congruence.
      - pose proof (inv_free _ Hi Hh) as Hl. simpl in Hl. split.
        + destruct (decide (d = 0)) as [|Hn]; [lia|]. destruct (Hdp Hn). congruence.
        + intros q Hq. destruct (inv_depth _ Hi q) as [_ Hdq]. simpl in Hdq.
          destruct (decide (depth (f q) = 0)) as [|Hn]; [done|].
          destruct (Hdq Hn). congruence. }
    destruct (inv_depth _ Hi p) as [Hd0 _]. simpl in Hd0. rewrite Hp in Hd0. simpl in Hd0.
    simpl in Hbd. rewrite u32_small by (unfold U32 in *; lia). split; simpl.
    + intros q Hq. at_process p q.
      * split; [done|]. intros r Hr. at_process p r; [done|].
        pose proof (others_unflagged _ _ _ _ Hi Hfp ltac:(done)). congruence.
      * pose proof (others_unflagged _ _ _ q Hi Hfp ltac:(done)). congruence.
    + intros q. at_process p q; simpl; [split; [lia|]; intros _; split; [done|lia]|].
      rewrite (Hoth q) by done. done.
    + intros q [= <-]. rewrite fn_lookup_insert. simpl. lia.
    + done.
    + intros q. at_process p q; [simpl; lia|]. apply (inv_bound _ Hi q).
  - eapply inv_move; [exact Hi|exact Hp|done|done|done|done| |by right; right].
    intros _. split; [done|]. intros q Hq. by eapply others_unflagged.
Qed.

Lemma inv_unlock_body m f p d m' :
  inv (Config m f) → f p = UnlockBody d → unlock_body p m = Some m' →
  inv (Config m' (<[p := UnlockRelease (d - 1)]> f)).
Proof.
  intros Hi Hp Hb. pose proof (inv_bound _ Hi p) as Hbd. simpl in Hbd. rewrite Hp in Hbd.
  assert (flagged (f p) = true) as Hfp by by rewrite Hp.
  destruct (inv_flag _ Hi p Hfp) as [Hlk _]. simpl in Hlk.
  destruct (inv_depth _ Hi p) as [_ Hdp]. simpl in Hdp. rewrite Hp in Hdp. simpl in Hdp.
  simpl in Hbd. destruct Hdp as [Hh Hl]; [lia|].
  assert (∀ q, q ≠ p → depth (f q) = 0) as Hoth.
  { intros q Hq. destruct (decide (depth (f q) = 0)) as [|Hn]; [done|].
    destruct (inv_depth _ Hi q) as [_ Hdq]. destruct (Hdq Hn). simpl in *. congruence. }
  simpl in Hbd. unfold unlock_body in Hb. case_match; simplify_eq. split; simpl.
  - intros q Hq. at_process p q.
    + split; [done|]. intros r Hr. at_process p r; [done|].
      pose proof (others_unflagged _ _ _ _ Hi Hfp ltac:(done)). congruence.
    + pose proof (others_unflagged _ _ _ q Hi Hfp ltac:(done)). congruence.
  - intros q. at_process p q; simpl.
    + split; [lia|]. intros Hn. rewrite (proj2 (Z.eqb_neq (level m - 1) 0)) by done. done.
    + rewrite (Hoth q) by done. done.
  - intros q Hq. destruct (Z.eqb_spec (level m - 1) 0); [done|].
    rewrite Hh in Hq. injection Hq as <-. rewrite fn_lookup_insert. simpl. lia.
  - intros Hn. destruct (Z.eqb_spec (level m - 1) 0); [done|]. congruence.
  - intros q. at_process p q; [simpl; lia|]. apply (inv_bound _ Hi q).
Qed.

Lemma inv_step c c' : inv c → step c c' → inv c'.
Proof.
  intros Hi Hs. destruct Hs as [p d m f Hp Hd|p d m f Hp Hl|p d m f Hp Hl|p d m f m' got Hp Hb
    |p d got m f Hp|p d m f Hp Hd|p d m f Hp Hl|p d m f m' Hp Hb|p d m f Hp].
  all: pose proof (inv_bound _ Hi p) as Hbd; simpl in Hbd; rewrite Hp in Hbd.
  all: try done.
  3: by eapply inv_lock_body. 6: by eapply inv_unlock_body.
  - eapply inv_move; try done. by left.
  - eapply inv_move; try done; [|by right; left].
    intros _. split; [done|]. intros q _. by eapply all_unflagged.
  - destruct got; (eapply inv_move; [exact Hi|exact Hp|try done..]); by right; right.
  - eapply inv_move; try done. by left.
  - eapply inv_move; try done; [|by right; left].
    intros _. split; [done|]. intros q _. by eapply all_unflagged.
  - eapply inv_move; try done. by right; right.
Qed.
Lemma inv_reachable c : reachable c → inv c.
Proof.
  intros Hr. assert (∀ c c', rtc step c c' → inv c → inv c') as H; [|by eapply H, inv_start].
  clear. induction 1; [done|]. eauto using inv_step.
Qed.

(** C9: whatever the interleaving, at most one process holds a mutex, the
    holder and level fields say who and how often, and no assertion of
    mutex_unlock fails. *)
Theorem mutex_exclusion c p :
  reachable c → 0 < depth (pcs c p) →
  (∀ q, 0 < depth (pcs c q) → q = p) ∧
  holder (mtx c) = Some p ∧ level (mtx c) = depth (pcs c p) ∧
  (∀ d, pcs c p = UnlockBody d → ∃ m', unlock_body p (mtx c) = Some m').
Proof.
  intros Hi%inv_reachable Hp.
  destruct (inv_depth _ Hi p) as [_ [Hh Hl]]; [lia|]. split_and!; [|done|done|].
  - intros q Hq. destruct (inv_depth _ Hi q) as [_ [Hh' _]]; [lia|]. congruence.
  - intros d Hd. unfold unlock_body. rewrite bool_decide_eq_true_2 by done.
    rewrite (proj2 (Z.ltb_lt 0 (level (mtx c)))) by lia. by eexists.
Qed.

(** Mutex_unlock_if_locked inverts its last test. Called by the only holder
    it leaves the mutex marked as held at level 0 and answers false: no other
    process can take it any more. Called on a mutex held more than once it clears
    the holder and answers true, and another process gets in beside the first. *)
Lemma mutex_unlock_if_locked_inverted (p q : nat) n :
  p ≠ q → 1 < n < U32 →
  mutex_unlock_if_locked p (Mutex (Some p) 1 false) = Done false (Mutex (Some p) 0 false) ∧
  mutex_lock true q (Mutex (Some p) 0 false) = OutOfFuel ∧
  mutex_unlock_if_locked p (Mutex (Some p) n false) = Done true (Mutex None (n - 1) false) ∧
  mutex_lock true q (Mutex None (n - 1) false) = Done tt (Mutex (Some q) n false).
Proof.
  intros Hpq Hn.
  assert (unlock_if_body p (Mutex (Some p) n true) = Some (Mutex None (n - 1) true, true)) as E.
  { unfold unlock_if_body. cbn [holder level lock].
    rewrite (proj2 (Z.eqb_neq n 0)), bool_decide_eq_true_2 by (done || lia). simpl.
    rewrite (proj2 (Z.ltb_lt 0 n)), (proj2 (Z.eqb_neq (n - 1) 0)) by lia. done. }
  assert (unlock_if_body p (Mutex (Some p) 1 true) = Some (Mutex (Some p) 0 true, false)) as E1.
  { unfold unlock_if_body. cbn [holder level lock]. by rewrite bool_decide_eq_true_2. }
  split_and!.
  - unfold mutex_unlock_if_locked. erewrite bind_run by reflexivity.
    unfold set_lock at 1; cbn [lock holder level]. by rewrite E1.
  - unfold mutex_lock, lock_body, set_lock. erewrite bind_run by reflexivity.
    erewrite bind_run by reflexivity. cbn [holder level lock].
    by rewrite (proj2 (Nat.eqb_neq p q)).
  - unfold mutex_unlock_if_locked. erewrite bind_run by reflexivity.
    unfold set_lock at 1; cbn [lock holder level]. by rewrite E.
  - unfold mutex_lock, lock_body, set_lock. erewrite bind_run by reflexivity.
    erewrite bind_run by reflexivity. cbn [holder level lock].
    replace (n - 1 + 1) with n by lia. by rewrite u32_small by lia.
Qed.

(** ** Witnesses *)
Lemma reachable_held : reachable (Config (Mutex (Some 7%nat) 1 false)
  (<[7%nat := Outside 1]> (<[7%nat := LockRelease 1 true]>
    (<[7%nat := LockBody 0]> (<[7%nat := LockCas 0]> (λ _, Outside 0)))))).
Proof.
  eapply rtc_l; [apply (step_lock 7%nat 0); [done|unfold U32; lia]|].
  eapply rtc_l; [by apply (step_lock_won 7%nat 0)|].
  eapply rtc_l; [by apply (step_lock_body 7%nat 0)|]. simpl.
  eapply rtc_l; [by apply (step_lock_release 7%nat 1 true)|]. apply rtc_refl.
Qed.
Lemma mutex_exclusion_witness :
  let c := Config (Mutex (Some 7%nat) 1 false)
    (<[7%nat := Outside 1]> (<[7%nat := LockRelease 1 true]>
      (<[7%nat := LockBody 0]> (<[7%nat := LockCas 0]> (λ _, Outside 0))))) in
  (∀ q, 0 < depth (pcs c q) → q = 7%nat) ∧ holder (mtx c) = Some 7%nat ∧
  level (mtx c) = depth (pcs c 7%nat) ∧
  (∀ d, pcs c 7%nat = UnlockBody d → ∃ m', unlock_body 7%nat (mtx c) = Some m').
Proof. apply (mutex_exclusion _ 7%nat reachable_held). vm_compute. reflexivity. Defined.
Lemma mutex_unlock_if_locked_inverted_witness :
  mutex_unlock_if_locked 1 (Mutex (Some 1%nat) 1 false) = Done false (Mutex (Some 1%nat) 0 false) ∧
  mutex_lock true 2 (Mutex (Some 1%nat) 0 false) = OutOfFuel ∧
  mutex_unlock_if_locked 1 (Mutex (Some 1%nat) 2 false) = Done true (Mutex None (2 - 1) false) ∧
  mutex_lock true 2 (Mutex None (2 - 1) false) = Done tt (Mutex (Some 2%nat) 2 false).
Proof. apply (mutex_unlock_if_locked_inverted 1 2 2); [done|unfold U32; lia]. Defined.
