(* ===== verification/PageAllocator.v ===== *)
(** * The physical page allocator (kernel/memory/page_allocator.c)

    A bitmap of the free pages and a saturating 8-bit reference count per page.
    The end of this file states what the rest of the kernel may rely on as a
    class of operations with laws, [PageAlloc], and proves that the bitmap
    allocator is an instance. *)
From S2P Require Import Prelude Errno CString Lock.

Definition PAGE_SIZE : Z := 4096.
Definition KERNEL_VADDR : Z := 3221225472.
Definition MAX_NUM_PAGES : Z := 1024 * 1024.
Definition BITMAP_MAX_LEN : Z := MAX_NUM_PAGES / 32.
Definition UINT8_MAX : Z := 255.

Record physical_memory_info : Type := MemInfo { total : Z; free : Z }.
(** The static variables of the file. *)
Record pages : Type := Pages {
  bitmap_len : Z;
  bitmap : array;
  ref_counts : array;
  plock : mutex;
  memory_info : physical_memory_info;
}.
Definition set_bitmap (b : array) (p : pages) : pages :=
  Pages (bitmap_len p) b (ref_counts p) (plock p) (memory_info p).
Definition set_refs (r : array) (p : pages) : pages :=
  Pages (bitmap_len p) (bitmap p) r (plock p) (memory_info p).
Definition set_plock (m : mutex) (p : pages) : pages :=
  Pages (bitmap_len p) (bitmap p) (ref_counts p) m (memory_info p).
Definition set_info (i : physical_memory_info) (p : pages) : pages :=
  Pages (bitmap_len p) (bitmap p) (ref_counts p) (plock p) i.
Definition add_free (kib : Z) (p : pages) : pages :=
  set_info (MemInfo (total (memory_info p)) (u32 (free (memory_info p) + kib))) p.

(** ** The bitmap *)
Definition word_of (i : Z) : Z := Z.shiftr i 5.
Definition mask_of (i : Z) : Z := Z.shiftl 1 (Z.land i 31).

Definition bitmap_get (i : Z) : K pages bool :=
  p ← get; _ ← ASSERT (word_of i <? bitmap_len p);
  mret (negb (Z.land (aget (bitmap p) (word_of i)) (mask_of i) =? 0)).
Definition bitmap_set (i : Z) : K pages unit :=
  p ← get; _ ← ASSERT (word_of i <? bitmap_len p);
  put (set_bitmap (<[word_of i := Z.lor (aget (bitmap p) (word_of i)) (mask_of i)]> (bitmap p)) p).
Definition bitmap_clear (i : Z) : K pages unit :=
  p ← get; _ ← ASSERT (word_of i <? bitmap_len p);
  put (set_bitmap (<[word_of i := Z.land (aget (bitmap p) (word_of i)) (u32 (Z.lnot (mask_of i)))]>
                     (bitmap p)) p).

(** [__builtin_ffs]: one plus the index of the lowest bit set, 0 for 0. *)
Fixpoint ffs_from (n : nat) (i w : Z) : Z :=
  match n with
  | O => 0
  | S n => if Z.testbit w i then i + 1 else ffs_from n (i + 1) w
  end.
Definition ffs (w : Z) : Z := ffs_from 32 0 w.

Fixpoint find_first_set_loop (n : nat) (i : Z) (b : array) : Z :=
  match n with
  | O => ERR ENOMEM
  | S n =>
      let f := ffs (aget b i) in
      if 0 <? f then Z.lor (Z.shiftl i 5) (f - 1) else find_first_set_loop n (i + 1) b
  end.
Definition bitmap_find_first_set (p : pages) : Z :=
  find_first_set_loop (Z.to_nat (bitmap_len p)) 0 (bitmap p).

(** ** Initialisation from the multiboot header *)
Definition MULTIBOOT_INFO_MODS : Z := 8.
Definition MULTIBOOT_INFO_MEM_MAP : Z := 64.
Definition MULTIBOOT_MEMORY_AVAILABLE : Z := 1.
(** Addresses and lengths of the map are 64 bits wide. *)
Record mmap_entry : Type := MmapEntry { mm_addr : Z; mm_len : Z; mm_type : Z }.
Record module : Type := Module_ { mod_start : Z; mod_end : Z }.
Record multiboot_info : Type := Multiboot {
  mb_flags : Z; mem_upper : Z; mb_mmap : list mmap_entry; mb_mods : list module;
}.
Definition has_flag (mb : multiboot_info) (f : Z) : bool := negb (Z.land (mb_flags mb) f =? 0).

(** [kernel_end] is the address the linker gives the end of the image. *)
Definition get_available_physical_addr_bounds (kernel_end : Z) (mb : multiboot_info) : Z * Z :=
  let lower := u32 (kernel_end - KERNEL_VADDR) in
  if negb (has_flag mb MULTIBOOT_INFO_MEM_MAP)
  then (lower, u32 (u32 (mem_upper mb * 1024) + 1048576))
  else
    (lower, foldl (λ upper e,
       if mm_type e =? MULTIBOOT_MEMORY_AVAILABLE then
         let entry_end := u32 (mm_addr e + mm_len e) in
         if upper <? entry_end then entry_end else upper
       else upper) lower (mb_mmap mb)).

(** [for (i = from; i < from + n; ++i) op(i)] *)
Fixpoint for_pages (n : nat) (from : Z) (op : Z → K pages unit) : K pages unit :=
  match n with
  | O => mret tt
  | S n => _ ← op from; for_pages n (from + 1) op
  end.
Definition for_range (from to : Z) (op : Z → K pages unit) : K pages unit :=
  for_pages (Z.to_nat (to - from)) from op.

Fixpoint init_regions (lower : Z) (es : list mmap_entry) : K pages unit :=
  match es with
  | [] => mret tt
  | e :: es =>
      _ ← (if mm_type e =? MULTIBOOT_MEMORY_AVAILABLE then
             let entry_start := u32 (mm_addr e) in
             let entry_end := u32 (mm_addr e + mm_len e) in
             let entry_start := if entry_start <? lower then lower else entry_start in
             if entry_end <=? entry_start then mret tt
             else for_range (div_ceil entry_start PAGE_SIZE) (entry_end / PAGE_SIZE) bitmap_set
           else mret tt);
      init_regions lower es
  end.
Fixpoint init_modules (ms : list module) : K pages unit :=
  match ms with
  | [] => mret tt
  | m :: ms =>
      _ ← for_range (mod_start m / PAGE_SIZE) (div_ceil (mod_end m) PAGE_SIZE) bitmap_clear;
      init_modules ms
  end.
(** The pages in the bitmap are counted, the others pinned. *)
Fixpoint init_refs (n : nat) (i num_pages : Z) : K pages Z :=
  match n with
  | O => mret num_pages
  | S n =>
      b ← bitmap_get i;
      if (b : bool) then init_refs n (i + 1) (num_pages + 1)
      else _ ← modify (λ p, set_refs (<[i := UINT8_MAX]> (ref_counts p)) p);
           init_refs n (i + 1) num_pages
  end.

Definition bitmap_init (mb : multiboot_info) (lower upper : Z) : K pages unit :=
  _ ← modify (λ p, Pages (div_ceil upper (PAGE_SIZE * 32)) (bitmap p) (ref_counts p)
                         (plock p) (memory_info p));
  p ← get; _ ← ASSERT (bitmap_len p <=? BITMAP_MAX_LEN);
  _ ← (if has_flag mb MULTIBOOT_INFO_MEM_MAP then init_regions lower (mb_mmap mb)
       else for_range (div_ceil lower PAGE_SIZE) (upper / PAGE_SIZE) bitmap_set);
  _ ← when (has_flag mb MULTIBOOT_INFO_MODS) (init_modules (mb_mods mb));
  num_pages ← init_refs (Z.to_nat (bitmap_len p * 32)) 0 0;
  let kib := u32 (num_pages * PAGE_SIZE) / 1024 in
  modify (set_info (MemInfo kib kib)).
Definition page_allocator_init (kernel_end : Z) (mb : multiboot_info) : K pages unit :=
  _ ← ASSERT (kernel_end <=? KERNEL_VADDR + 1022 * PAGE_SIZE);
  let (lower, upper) := get_available_physical_addr_bounds kernel_end mb in
  bitmap_init mb lower upper.

(** ** Operations, in the process [current] *)
Section ops.
Context (current : nat).

Definition acquire : K pages unit := zoom plock set_plock (mutex_lock true current).
Definition release : K pages unit := zoom plock set_plock (mutex_unlock current).

Definition page_allocator_alloc : K pages Z :=
  _ ← acquire;
  first_set ← gets bitmap_find_first_set;
  if IS_ERR first_set then _ ← release; mret first_set
  else
    _ ← bitmap_clear first_set;
    p ← get;
    _ ← ASSERT (aget (ref_counts p) first_set =? 0);
    _ ← put (add_free (- (PAGE_SIZE / 1024)) (set_refs (<[first_set := 1]> (ref_counts p)) p));
    _ ← release;
    mret (u32 (first_set * PAGE_SIZE)).

Definition page_allocator_ref_page (physical_addr : Z) : K pages unit :=
  _ ← ASSERT (physical_addr mod PAGE_SIZE =? 0);
  let idx := physical_addr / PAGE_SIZE in
  _ ← acquire;
  p ← get;
  _ ← when (aget (ref_counts p) idx <? UINT8_MAX)
        (put (set_refs (<[idx := aget (ref_counts p) idx + 1]> (ref_counts p)) p));
  release.

Definition page_allocator_unref_page (physical_addr : Z) : K pages unit :=
  _ ← ASSERT (physical_addr mod PAGE_SIZE =? 0);
  let idx := physical_addr / PAGE_SIZE in
  _ ← acquire;
  p ← get;
  _ ← ASSERT (0 <? aget (ref_counts p) idx);
  _ ← when (aget (ref_counts p) idx <? UINT8_MAX)
        (let count := aget (ref_counts p) idx - 1 in
         _ ← put (set_refs (<[idx := count]> (ref_counts p)) p);
         when (count =? 0)
           (_ ← bitmap_set idx; modify (add_free (PAGE_SIZE / 1024))));
  release.

Definition page_allocator_get_info : K pages physical_memory_info :=
  _ ← acquire; i ← gets memory_info; _ ← release; mret i.
End ops.

(** ** Bits of the bitmap *)
Definition bit (p : pages) (i : Z) : bool := Z.testbit (aget (bitmap p) (i / 32)) (i mod 32).
Definition refs (p : pages) (i : Z) : Z := aget (ref_counts p) i.

Lemma word_of_div i : word_of i = i / 32.
Proof. unfold word_of. by rewrite Z.shiftr_div_pow2. Qed.
Lemma mask_of_pow i : mask_of i = 2 ^ (i mod 32).
Proof.
  unfold mask_of. change 31 with (Z.ones 5). rewrite Z.land_ones by lia.
  rewrite Z.shiftl_1_l. done.
Qed.
Lemma testbit_pow2 k j : 0 ≤ k → Z.testbit (2 ^ k) j = bool_decide (j = k).
Proof.
  intros Hk. destruct (decide (j = k)) as [->|].
  - by rewrite Z.pow2_bits_true, bool_decide_eq_true_2 by lia.
  - rewrite Z.pow2_bits_false by congruence. by rewrite bool_decide_eq_false_2.
Qed.
Lemma land_pow2 w k : 0 ≤ k → negb (Z.land w (2 ^ k) =? 0) = Z.testbit w k.
Proof.
  intros Hk. destruct (Z.testbit w k) eqn:E.
  - apply negb_true_iff, Z.eqb_neq. intros H. apply (f_equal (λ x, Z.testbit x k)) in H.
    by rewrite Z.land_spec, testbit_pow2, Z.testbit_0_l, E, bool_decide_eq_true_2 in H.
  - apply negb_false_iff, Z.eqb_eq. apply Z.bits_inj'. intros j Hj.
    rewrite Z.land_spec, testbit_pow2, Z.testbit_0_l by done.
    case_bool_decide; [subst; by rewrite E|by rewrite andb_false_r].
Qed.
Lemma in_word i len : 0 ≤ i < 32 * len → 0 ≤ i / 32 < len.
Proof. intros. Z.to_euclidean_division_equations; lia. Qed.
Lemma same_bit i j : j / 32 = i / 32 → j mod 32 = i mod 32 → j = i.
Proof. intros. rewrite (Z.div_mod j 32), (Z.div_mod i 32) by lia. congruence. Qed.

Lemma bitmap_get_run p i :
  0 ≤ i < 32 * bitmap_len p → bitmap_get i p = Done (bit p i) p.
Proof.
  intros Hi%in_word. unfold bitmap_get, bit. rewrite word_of_div, mask_of_pow.
  erewrite bind_run by reflexivity. rewrite (proj2 (Z.ltb_lt _ _)) by lia.
  erewrite bind_run by reflexivity. rewrite land_pow2; [done|].
  apply Z.mod_pos_bound. lia.
Qed.
Lemma bitmap_set_run p i :
  0 ≤ i < 32 * bitmap_len p →
  ∃ b, bitmap_set i p = Done tt (set_bitmap b p) ∧
    ∀ j, bit (set_bitmap b p) j = bool_decide (j = i) || bit p j.
Proof.
  intros Hi%in_word. unfold bitmap_set. rewrite word_of_div, mask_of_pow.
  eexists. split.
  { erewrite bind_run by reflexivity. rewrite (proj2 (Z.ltb_lt _ _)) by lia.
    erewrite bind_run by reflexivity. reflexivity. }
  intros j. unfold bit. simpl. destruct (decide (j / 32 = i / 32)) as [E|E].
  - rewrite E, aget_insert, Z.lor_spec, testbit_pow2 by (apply Z.mod_pos_bound; lia).
    rewrite orb_comm. f_equal. apply bool_decide_ext. split; [by intros; apply same_bit|congruence].
  - rewrite aget_insert_ne by congruence. rewrite bool_decide_eq_false_2 by congruence. done.
Qed.
Lemma bitmap_clear_run p i :
  0 ≤ i < 32 * bitmap_len p →
  ∃ b, bitmap_clear i p = Done tt (set_bitmap b p) ∧
    ∀ j, bit (set_bitmap b p) j = negb (bool_decide (j = i)) && bit p j.
Proof.
  intros Hi%in_word. unfold bitmap_clear. rewrite word_of_div, mask_of_pow.
  eexists. split.
  { erewrite bind_run by reflexivity. rewrite (proj2 (Z.ltb_lt _ _)) by lia.
    erewrite bind_run by reflexivity. reflexivity. }
  intros j. unfold bit. simpl. pose proof (Z.mod_pos_bound i 32 ltac:(lia)).
  pose proof (Z.mod_pos_bound j 32 ltac:(lia)).
  destruct (decide (j / 32 = i / 32)) as [E|E].
  - rewrite E, aget_insert, Z.land_spec, andb_comm. f_equal.
    unfold u32. change U32 with (2 ^ 32). rewrite Z.mod_pow2_bits_low by lia.
    rewrite Z.lnot_spec, testbit_pow2 by lia. f_equal.
    apply bool_decide_ext. split; [by intros; apply same_bit|congruence].
  - rewrite aget_insert_ne by congruence. rewrite bool_decide_eq_false_2 by congruence. done.
Qed.

Lemma ffs_from_spec n i w :
  0 ≤ i →
  (ffs_from n i w = 0 ∧ ∀ j, i ≤ j < i + Z.of_nat n → Z.testbit w j = false) ∨
  (∃ k, ffs_from n i w = k + 1 ∧ i ≤ k < i + Z.of_nat n ∧ Z.testbit w k = true ∧
     ∀ j, i ≤ j < k → Z.testbit w j = false).
Proof.
  revert i. induction n as [|n IH]; intros i Hi; cbn [ffs_from]; [left; split; [done|lia]|].
  destruct (Z.testbit w i) eqn:E.
  { right. exists i. split_and!; [done|lia|lia|done|lia]. }
  destruct (IH (i + 1)) as [(-> & H)|(k & -> & Hk & Ht & Hl)]; [lia|left|right].
  - split; [done|]. intros j Hj. destruct (decide (j = i)) as [->|]; [done|]. apply H. lia.
  - exists k. split_and!; [done|lia|lia|done|]. intros j Hj.
    destruct (decide (j = i)) as [->|]; [done|]. apply Hl. lia.
Qed.

(** The search finds the lowest bit set. *)
Lemma find_first_set_loop_spec n w b :
  0 ≤ w → w + Z.of_nat n ≤ BITMAP_MAX_LEN →
  let t i := Z.testbit (aget b (i / 32)) (i mod 32) in
  (find_first_set_loop n w b = ERR ENOMEM ∧ ∀ i, 32 * w ≤ i < 32 * (w + Z.of_nat n) → t i = false) ∨
  (∃ i, find_first_set_loop n w b = i ∧ 32 * w ≤ i < 32 * (w + Z.of_nat n) ∧ t i = true ∧
     ∀ j, 32 * w ≤ j < i → t j = false).
Proof.
  revert w. induction n as [|n IH]; intros w Hw Hn t; cbn [find_first_set_loop].
  { left. split; [done|lia]. }
  assert (∀ i, 32 * w ≤ i < 32 * w + 32 → t i = Z.testbit (aget b w) (i - 32 * w)) as Ht.
  { intros i Hi. unfold t. replace (i / 32) with w by (Z.to_euclidean_division_equations; lia).
    replace (i mod 32) with (i - 32 * w) by (Z.to_euclidean_division_equations; lia). done. }
  unfold ffs. destruct (ffs_from_spec 32 0 (aget b w)) as [(-> & H)|(k & -> & Hk & Hb & Hl)]; [lia|..].
  - destruct (IH (w + 1)) as [(Hr & H')|(i & Hr & Hi & Hti & Hl)]; [lia|lia|left|right].
    + split; [done|]. intros i Hi. destruct (decide (i < 32 * w + 32)); [|apply H'; lia].
      rewrite Ht by lia. apply H. lia.
    + exists i. split_and!; [done|lia|lia|done|]. intros j Hj.
      destruct (decide (j < 32 * w + 32)); [|apply Hl; lia]. rewrite Ht by lia. apply H. lia.
  - right. exists (32 * w + k). rewrite (proj2 (Z.ltb_lt 0 (k + 1))) by lia.
    rewrite Z.shiftl_mul_pow2, lor_add by lia. change (2 ^ 5) with 32.
    split_and!; [lia|lia|lia| |].
    + rewrite Ht by lia. by replace (32 * w + k - 32 * w) with k by lia.
    + intros j Hj. rewrite Ht by lia. apply Hl. lia.
Qed.

(** ** The invariant *)

(** Page numbers of the bitmap and the pages that are free. *)
Definition page_numbers (p : pages) : list Z := seqZ 0 (32 * bitmap_len p).
Definition free_pages (p : pages) : list Z := filter (λ i, refs p i = 0) (page_numbers p).
Definition in_bitmap (p : pages) (i : Z) : Prop := 0 ≤ i < 32 * bitmap_len p.

(** A page is in the bitmap exactly when nothing refers to it, and the counter
    of free memory agrees. *)
Record pages_inv (p : pages) : Prop := PagesInv {
  pi_len : 0 ≤ bitmap_len p ≤ BITMAP_MAX_LEN;
  pi_refs : ∀ i, 0 ≤ refs p i ≤ UINT8_MAX;
  pi_bits : ∀ i, in_bitmap p i → bit p i = true ↔ refs p i = 0;
  pi_outside : ∀ i, ¬ in_bitmap p i → refs p i = 0;
  pi_lock : plock p = mutex_zero;
  pi_free : free (memory_info p) = 4 * Z.of_nat (length (free_pages p));
}.

Lemma elem_of_page_numbers p i : i ∈ page_numbers p ↔ in_bitmap p i.
Proof. unfold page_numbers, in_bitmap. rewrite elem_of_seqZ. lia. Qed.
Lemma elem_of_free_pages p i : i ∈ free_pages p ↔ in_bitmap p i ∧ refs p i = 0.
Proof. unfold free_pages. rewrite list_elem_of_filter, elem_of_page_numbers. tauto. Qed.
Lemma NoDup_page_numbers p : NoDup (page_numbers p).
Proof. apply NoDup_seqZ. Qed.

(** The search under the invariant: no page is free, or the lowest one. *)
Lemma find_first_set_inv p :
  pages_inv p →
  (bitmap_find_first_set p = ERR ENOMEM ∧ free_pages p = []) ∨
  (∃ i, bitmap_find_first_set p = i ∧ in_bitmap p i ∧ refs p i = 0 ∧
     ∀ j, in_bitmap p j → refs p j = 0 → i ≤ j).
Proof.
  intros Hi. pose proof (pi_len p Hi) as Hl. unfold bitmap_find_first_set.
  destruct (find_first_set_loop_spec (Z.to_nat (bitmap_len p)) 0 (bitmap p))
    as [(-> & H)|(i & -> & Hr & Ht & H)]; [lia|lia|left|right].
  - split; [done|]. apply elem_of_nil_inv. intros i [Hin Hz]%elem_of_free_pages.
    apply (pi_bits p Hi i Hin) in Hz. unfold bit in Hz. unfold in_bitmap in Hin.
    rewrite H in Hz by lia. done.
  - assert (in_bitmap p i) as Hin by (unfold in_bitmap; lia).
    exists i. split_and!; [done|done|by apply (pi_bits p Hi)|].
    intros j Hj Hz. apply (pi_bits p Hi j Hj) in Hz. destruct (decide (i ≤ j)); [done|].
    unfold bit in Hz. unfold in_bitmap in Hj. rewrite H in Hz by lia. done.
Qed.

Lemma length_free_pages p :
  0 ≤ bitmap_len p ≤ BITMAP_MAX_LEN → Z.of_nat (length (free_pages p)) ≤ MAX_NUM_PAGES.
Proof.
  intros Hl. assert (length (free_pages p) ≤ length (page_numbers p))%nat as H
    by (apply length_filter). unfold page_numbers in H. rewrite length_seqZ in H.
  change BITMAP_MAX_LEN with 32768 in *. change MAX_NUM_PAGES with 1048576. lia.
Qed.

(** Changing one reference count and the page's bit with it. *)
Lemma pages_inv_update p i n b d :
  pages_inv p → in_bitmap p i → 0 ≤ n ≤ UINT8_MAX →
  (∀ j, bit (set_bitmap b p) j = if bool_decide (j = i) then bool_decide (n = 0) else bit p j) →
  d = (if bool_decide (n = 0) then 4 else 0) - (if bool_decide (refs p i = 0) then 4 else 0) →
  pages_inv (add_free d (set_refs (<[i := n]> (ref_counts p)) (set_bitmap b p))).
Proof.
  intros Hi Hin Hn Hb Hd. set (p' := add_free _ _).
  assert (∀ j, refs p' j = if bool_decide (j = i) then n else refs p j) as Hrefs.
  { intros j. unfold refs. simpl. destruct (bool_decide_reflect (j = i)) as [->|Hj];
      [apply aget_insert|by apply aget_insert_ne]. }
  assert (page_numbers p' = page_numbers p) as Hpn by done.
  assert (i ∈ page_numbers p) as Hel by (by apply elem_of_page_numbers).
  assert (4 * Z.of_nat (length (free_pages p')) = free (memory_info p) + d) as Hfree.
  { rewrite (pi_free p Hi). unfold free_pages. rewrite Hpn.
    destruct (decide (n = 0)) as [Hn0|Hn0]; destruct (decide (refs p i = 0)) as [Hr0|Hr0].
    - rewrite (filter_ext_in (λ i, refs p' i = 0) (λ i, refs p i = 0)).
      { rewrite !bool_decide_eq_true_2 in Hd by done. lia. }
      intros j _. rewrite Hrefs. destruct (bool_decide_reflect (j = i)); subst; lia.
    - rewrite bool_decide_eq_true_2, bool_decide_eq_false_2 in Hd by done.
      rewrite (filter_change (λ i, refs p' i = 0) (λ i, refs p i = 0) _ i); [lia|..]; try done.
      + apply NoDup_page_numbers.
      + rewrite Hrefs, bool_decide_eq_true_2; done.
      + intros j Hj. rewrite Hrefs, bool_decide_eq_false_2 by done. done.
    - rewrite bool_decide_eq_false_2, bool_decide_eq_true_2 in Hd by done.
      rewrite (filter_change (λ i, refs p i = 0) (λ i, refs p' i = 0) _ i); [lia|..]; try done.
      + apply NoDup_page_numbers.
      + rewrite Hrefs, bool_decide_eq_true_2; done.
      + intros j Hj. rewrite Hrefs, bool_decide_eq_false_2 by done. done.
    - rewrite (filter_ext_in (λ i, refs p' i = 0) (λ i, refs p i = 0)).
      { rewrite !bool_decide_eq_false_2 in Hd by done. lia. }
      intros j _. rewrite Hrefs. destruct (bool_decide_reflect (j = i)); subst; lia. }
  assert (Z.of_nat (length (free_pages p')) ≤ MAX_NUM_PAGES) as Hle.
  { apply length_free_pages. apply (pi_len p Hi). }
  split.
  - apply (pi_len p Hi).
  - intros j. rewrite Hrefs. destruct (bool_decide_reflect (j = i)); [done|]. apply (pi_refs p Hi).
  - intros j Hj. rewrite Hrefs. change (bit p' j) with (bit (set_bitmap b p) j). rewrite Hb.
    destruct (bool_decide_reflect (j = i)); [apply bool_decide_eq_true|]. by apply (pi_bits p Hi).
  - intros j Hj. rewrite Hrefs. destruct (bool_decide_reflect (j = i)); [by subst|]. by apply (pi_outside p Hi).
  - apply (pi_lock p Hi).
  - change (free (memory_info p')) with (u32 (free (memory_info p) + d)).
    rewrite <-Hfree, u32_small; [done|]. unfold U32, MAX_NUM_PAGES in *. lia.
Qed.
Lemma free_bounds p : pages_inv p → 0 ≤ free (memory_info p) < U32.
Proof.
  intros Hi. rewrite (pi_free p Hi). pose proof (length_free_pages p (pi_len p Hi)).
  unfold MAX_NUM_PAGES, U32 in *. lia.
Qed.
Lemma add_free_0 p : pages_inv p → add_free 0 p = p.
Proof.
  intros Hf%free_bounds. destruct p as [l b r m [t f]]. unfold add_free, set_info. simpl in *.
  by rewrite Z.add_0_r, u32_small.
Qed.

(** ** Operations *)
Section specs.
Context (current : nat).
Implicit Types p : pages.

Lemma wp_acquire p (Q : unit → pages → Prop) :
  pages_inv p → Q tt (set_plock (Mutex (Some current) 1 false) p) → wp (acquire current) Q p.
Proof.
  intros Hi HQ. unfold acquire. wp_keep. rewrite (pi_lock p Hi).
  eapply wp_mutex_lock; [apply available_zero|done].
Qed.
Lemma wp_release p (Q : unit → pages → Prop) :
  Q tt (set_plock mutex_zero p) →
  wp (release current) Q (set_plock (Mutex (Some current) 1 false) p).
Proof.
  intros HQ. unfold release. wp_keep. cbn [plock set_plock].
  eapply (wp_mutex_unlock _ 0); [apply available_zero|]. exact HQ.
Qed.
Lemma set_plock_zero p : pages_inv p → set_plock mutex_zero p = p.
Proof. intros Hi. rewrite <-(pi_lock p Hi). by destruct p. Qed.

Lemma page_allocator_alloc_wp p :
  pages_inv p →
  wp (page_allocator_alloc current) (λ r p', pages_inv p' ∧ bitmap_len p' = bitmap_len p ∧
    ((r = ERR ENOMEM ∧ p' = p ∧ ∀ i, in_bitmap p i → 0 < refs p i) ∨
     (∃ i, r = i * PAGE_SIZE ∧ IS_ERR r = false ∧ in_bitmap p i ∧ refs p i = 0 ∧
        (∀ j, in_bitmap p j → refs p j = 0 → i ≤ j) ∧ refs p' i = 1 ∧
        (∀ j, j ≠ i → refs p' j = refs p j)))) p.
Proof.
  intros Hi. unfold page_allocator_alloc. wp_keep. apply wp_acquire; [done|]. wp_keep.
  change (bitmap_find_first_set (set_plock _ p)) with (bitmap_find_first_set p).
  destruct (find_first_set_inv p Hi) as [(-> & Hnil)|(i & -> & Hin & Hz & Hmin)].
  - change (IS_ERR (ERR ENOMEM)) with true. cbv iota. wp_keep. apply wp_release. wp_keep.
    rewrite set_plock_zero by done. split_and!; [done|done|]. left. split_and!; [done|done|].
    intros i Hin. pose proof (pi_refs p Hi i). assert (refs p i ≠ 0); [|lia].
    intros Hz. assert (i ∈ free_pages p) as Hel by (by apply elem_of_free_pages).
    rewrite Hnil in Hel. by apply not_elem_of_nil in Hel.
  - pose proof (pi_len p Hi) as Hlen.
    assert (0 ≤ i < 1048576) as Hrange
      by (unfold in_bitmap in *; change BITMAP_MAX_LEN with 32768 in *; lia).
    rewrite IS_ERR_nonneg by lia. wp_keep.
    destruct (bitmap_clear_run (set_plock (Mutex (Some current) 1 false) p) i Hin) as (b & Hrun & Hb).
    eapply wp_run; [exact Hrun|]. wp_keep. apply wp_ASSERT; [by apply Z.eqb_eq|]. wp_keep.
    set (p' := add_free (-4) (set_refs (<[i := 1]> (ref_counts p)) (set_bitmap b p))).
    assert (pages_inv p') as Hi'.
    { apply pages_inv_update; [done|done|by unfold UINT8_MAX|..].
      - intros j. change (bit (set_bitmap b p) j)
          with (bit (set_bitmap b (set_plock (Mutex (Some current) 1 false) p)) j). rewrite Hb.
        destruct (bool_decide_reflect (j = i)); [by subst|]. done.
      - by rewrite (bool_decide_eq_true_2 _ Hz). }
    apply (wp_release p'). wp_keep. rewrite set_plock_zero by done.
    rewrite u32_small by (unfold PAGE_SIZE, U32; lia).
    split_and!; [done|done|]. right. exists i. split_and!; try done.
    + unfold IS_ERR. rewrite first_ERR, u32_small by (unfold PAGE_SIZE, U32; lia).
      apply Z.leb_gt. unfold PAGE_SIZE. lia.
    + unfold refs, p'. simpl. apply aget_insert.
    + intros j Hj. unfold refs, p'. simpl. by rewrite aget_insert_ne.
Qed.

(** C1: page_allocator_alloc hands out the lowest page nobody refers to, with
    one reference, or -ENOMEM when every page is referred to; no other count
    changes, and the lock is free again. *)
Theorem page_allocator_alloc_spec p :
  pages_inv p →
  wp (page_allocator_alloc current) (λ r p', pages_inv p' ∧ bitmap_len p' = bitmap_len p ∧
    ((r = ERR ENOMEM ∧ p' = p ∧ ∀ i, in_bitmap p i → 0 < refs p i) ∨
     (∃ i, r = i * PAGE_SIZE ∧ IS_ERR r = false ∧ in_bitmap p i ∧ refs p i = 0 ∧
        (∀ j, in_bitmap p j → refs p j = 0 → i ≤ j) ∧ refs p' i = 1 ∧
        (∀ j, j ≠ i → refs p' j = refs p j)))) p.
Proof. apply page_allocator_alloc_wp. Qed.

Lemma page_number i : (i * PAGE_SIZE) mod PAGE_SIZE = 0 ∧ i * PAGE_SIZE / PAGE_SIZE = i.
Proof. split; [by apply Z.mod_mul|by apply Z.div_mul]. Qed.

(** One count changed where neither the old nor the new one is zero. *)
Lemma pages_inv_count p i n :
  pages_inv p → in_bitmap p i → 0 < refs p i → 0 < n ≤ UINT8_MAX →
  pages_inv (set_refs (<[i := n]> (ref_counts p)) p).
Proof.
  intros Hi Hin Hr Hn. set (q := set_refs _ p).
  assert (set_bitmap (bitmap p) p = p) as Hb by (by destruct p).
  pose proof (pages_inv_update p i n (bitmap p) 0 Hi Hin) as H. rewrite Hb in H.
  assert (pages_inv (add_free 0 q)) as H'.
  { apply H; [lia| |by rewrite !bool_decide_eq_false_2 by lia].
    intros j. destruct (bool_decide_reflect (j = i)) as [->|]; [|done].
    rewrite bool_decide_eq_false_2 by lia. destruct (bit p i) eqn:E; [|done].
    apply (pi_bits p Hi i Hin) in E. lia. }
  replace q with (add_free 0 q); [done|].
  pose proof (free_bounds p Hi). unfold add_free, set_info. rewrite Z.add_0_r.
  change (memory_info q) with (memory_info p). rewrite u32_small by done.
  unfold q. destruct p as [? ? ? ? []]; done.
Qed.

Lemma page_allocator_ref_page_wp p i :
  pages_inv p → in_bitmap p i → 0 < refs p i →
  wp (page_allocator_ref_page current (i * PAGE_SIZE)) (λ _ p', pages_inv p' ∧
    bitmap_len p' = bitmap_len p ∧ refs p' i = Z.min 255 (refs p i + 1) ∧
    ∀ j, j ≠ i → refs p' j = refs p j) p.
Proof.
  intros Hi Hin Hr. destruct (page_number i) as [Em Ed]. pose proof (pi_refs p Hi i) as Hb.
  unfold UINT8_MAX in Hb. unfold page_allocator_ref_page. wp_keep.
  apply wp_ASSERT; [by rewrite Em|]. rewrite Ed. wp_keep. apply wp_acquire; [done|]. wp_keep.
  change (aget (ref_counts (set_plock _ p)) i) with (refs p i). apply wp_when; intros Hlt.
  - wp_keep. unfold UINT8_MAX in Hlt. bool_to_prop.
    set (p' := set_refs (<[i := refs p i + 1]> (ref_counts p)) p). apply (wp_release p').
    assert (pages_inv p') as Hi' by (apply pages_inv_count; unfold UINT8_MAX; (done || lia)).
    rewrite set_plock_zero by done. split_and!; [done|done| |].
    + unfold refs at 1. simpl. rewrite aget_insert. lia.
    + intros j Hj. unfold refs, p'. simpl. by rewrite aget_insert_ne.
  - unfold UINT8_MAX in Hlt. bool_to_prop. apply (wp_release p).
    rewrite set_plock_zero by done. split_and!; [done|done|lia|done].
Qed.

(** A further reference to a page in use counts up, except that a count of
    255 stays. *)
Lemma page_allocator_ref_page_spec p i :
  pages_inv p → in_bitmap p i → 0 < refs p i →
  wp (page_allocator_ref_page current (i * PAGE_SIZE)) (λ _ p', pages_inv p' ∧
    bitmap_len p' = bitmap_len p ∧ refs p' i = Z.min 255 (refs p i + 1) ∧
    ∀ j, j ≠ i → refs p' j = refs p j) p.
Proof. apply page_allocator_ref_page_wp. Qed.

Lemma page_allocator_unref_page_wp p i :
  pages_inv p → in_bitmap p i → 0 < refs p i →
  wp (page_allocator_unref_page current (i * PAGE_SIZE)) (λ _ p', pages_inv p' ∧
    bitmap_len p' = bitmap_len p ∧
    refs p' i = (if refs p i =? 255 then 255 else refs p i - 1) ∧
    (refs p i = 1 → i ∈ free_pages p') ∧
    ∀ j, j ≠ i → refs p' j = refs p j) p.
Proof.
  intros Hi Hin Hr. destruct (page_number i) as [Em Ed]. pose proof (pi_refs p Hi i) as Hb.
  unfold UINT8_MAX in Hb. unfold page_allocator_unref_page. wp_keep.
  apply wp_ASSERT; [by rewrite Em|]. rewrite Ed. wp_keep. apply wp_acquire; [done|]. wp_keep.
  change (aget (ref_counts (set_plock ?m p)) i) with (refs p i).
  apply wp_ASSERT; [by apply Z.ltb_lt|]. wp_keep. unfold UINT8_MAX. apply wp_when; intros Hlt;
    bool_to_prop; [|apply (wp_release p); rewrite set_plock_zero by done; split_and!;
                    [done|done|rewrite (proj2 (Z.eqb_eq (refs p i) 255)) by lia; lia|lia|done]].
  rewrite (proj2 (Z.eqb_neq (refs p i) 255)) by lia. wp_keep. apply wp_when; intros Hz;
    bool_to_prop.
  - wp_keep. set (q := set_refs _ _).
    destruct (bitmap_set_run q i Hin) as (b & Hrun & Hbit). eapply wp_run; [exact Hrun|]. wp_keep.
    set (p' := add_free 4 (set_refs (<[i := 0]> (ref_counts p)) (set_bitmap b p))).
    assert (pages_inv p') as Hi'.
    { apply pages_inv_update; [done|done|by unfold UINT8_MAX| |].
      - intros j. change (bit (set_bitmap b p) j) with (bit (set_bitmap b q) j). rewrite Hbit.
        by destruct (bool_decide_reflect (j = i)).
      - by rewrite (bool_decide_eq_false_2 (refs p i = 0)) by lia. }
    assert (refs p' i = 0) as Hi0 by (unfold refs; simpl; apply aget_insert).
    replace (add_free _ _) with (set_plock (Mutex (Some current) 1 false) p')
      by (unfold q, p'; by rewrite Hz).
    apply (wp_release p'). rewrite set_plock_zero by done. split_and!; [done|done|lia| |].
    + intros _. by apply elem_of_free_pages.
    + intros j Hj. unfold refs, p'. simpl. by rewrite aget_insert_ne.
  - set (p' := set_refs (<[i := refs p i - 1]> (ref_counts p)) p). apply (wp_release p').
    assert (pages_inv p') as Hi' by (apply pages_inv_count; unfold UINT8_MAX; (done || lia)).
    rewrite set_plock_zero by done. split_and!; [done|done| |lia|].
    + unfold refs at 1. simpl. by rewrite aget_insert.
    + intros j Hj. unfold refs, p'. simpl. by rewrite aget_insert_ne.
Qed.

(** C2: a reference dropped counts down, except that a count of 255 stays for
    ever; the last one makes the page free. *)
Theorem page_allocator_unref_page_spec p i :
  pages_inv p → in_bitmap p i → 0 < refs p i →
  wp (page_allocator_unref_page current (i * PAGE_SIZE)) (λ _ p', pages_inv p' ∧
    bitmap_len p' = bitmap_len p ∧
    refs p' i = (if refs p i =? 255 then 255 else refs p i - 1) ∧
    (refs p i = 1 → i ∈ free_pages p') ∧
    ∀ j, j ≠ i → refs p' j = refs p j) p.
Proof. apply page_allocator_unref_page_wp. Qed.
End specs.

(** ** Initialisation *)

(** Ranges of page numbers: what the boot loader reports as available above
    the kernel image, and what its modules occupy. *)
Definition in_range (i : Z) (r : Z * Z) : bool := (r.1 <=? i) && (i <? r.2).
Definition entry_range (lower : Z) (e : mmap_entry) : Z * Z :=
  let entry_start := Z.max lower (u32 (mm_addr e)) in
  let entry_end := u32 (mm_addr e + mm_len e) in
  if (mm_type e =? MULTIBOOT_MEMORY_AVAILABLE) && (entry_start <? entry_end)
  then (div_ceil entry_start PAGE_SIZE, entry_end / PAGE_SIZE) else (0, 0).
Definition module_range (m : module) : Z * Z :=
  (mod_start m / PAGE_SIZE, div_ceil (mod_end m) PAGE_SIZE).
(** The pages that the code marks. *)
Definition marked (kernel_end : Z) (mb : multiboot_info) (i : Z) : bool :=
  let (lower, upper) := get_available_physical_addr_bounds kernel_end mb in
  (if has_flag mb MULTIBOOT_INFO_MEM_MAP
   then existsb (in_range i) (entry_range lower <$> mb_mmap mb)
   else in_range i (div_ceil lower PAGE_SIZE, upper / PAGE_SIZE)) &&
  negb (has_flag mb MULTIBOOT_INFO_MODS && existsb (in_range i) (module_range <$> mb_mods mb)).

(** [op] gives one bit the value [v]. *)
Definition writes_bit (op : Z → K pages unit) (v : bool) : Prop := ∀ p i,
  in_bitmap p i → ∃ b, op i p = Done tt (set_bitmap b p) ∧
    ∀ j, bit (set_bitmap b p) j = if bool_decide (j = i) then v else bit p j.
Lemma bitmap_set_writes : writes_bit bitmap_set true.
Proof.
  intros p i Hi. destruct (bitmap_set_run p i Hi) as (b & ? & Hb). exists b. split; [done|].
  intros j. rewrite Hb. by destruct (bool_decide_reflect (j = i)).
Qed.
Lemma bitmap_clear_writes : writes_bit bitmap_clear false.
Proof.
  intros p i Hi. destruct (bitmap_clear_run p i Hi) as (b & ? & Hb). exists b. split; [done|].
  intros j. rewrite Hb. by destruct (bool_decide_reflect (j = i)).
Qed.

Lemma set_bitmap_twice b b' p : set_bitmap b (set_bitmap b' p) = set_bitmap b p.
Proof. done. Qed.
Lemma set_bitmap_same p : set_bitmap (bitmap p) p = p.
Proof. by destruct p. Qed.

Lemma in_range_dec j from to : in_range j (from, to) = bool_decide (from ≤ j < to).
Proof.
  unfold in_range. simpl. case_bool_decide; [apply andb_true_iff|apply andb_false_iff];
    rewrite ?Z.leb_gt, ?Z.ltb_ge, ?Z.leb_le, ?Z.ltb_lt; lia.
Qed.
Lemma in_range_empty j from to : to ≤ from → in_range j (from, to) = false.
Proof. intros. rewrite in_range_dec. case_bool_decide; [lia|done]. Qed.
Lemma for_pages_run op v n from p :
  writes_bit op v → 0 ≤ from → from + Z.of_nat n ≤ 32 * bitmap_len p →
  ∃ b, for_pages n from op p = Done tt (set_bitmap b p) ∧
    ∀ j, bit (set_bitmap b p) j = if in_range j (from, from + Z.of_nat n) then v else bit p j.
Proof.
  intros Hop. revert from p. induction n as [|n IH]; intros from p Hf Hn; cbn [for_pages].
  { exists (bitmap p). rewrite set_bitmap_same. split; [done|]. intros j.
    by rewrite in_range_empty by lia. }
  destruct (Hop p from) as (b & Hr & Hb); [unfold in_bitmap; lia|]. rewrite (bind_run _ _ _ _ _ Hr).
  destruct (IH (from + 1) (set_bitmap b p)) as (b' & -> & Hb'); [lia|simpl; lia|].
  exists b'. split; [done|]. intros j. rewrite set_bitmap_twice in Hb'. rewrite Hb', Hb.
  rewrite !in_range_dec. repeat case_bool_decide; done || lia.
Qed.
Lemma for_range_run op v from to p :
  writes_bit op v → 0 ≤ from → (from < to → to ≤ 32 * bitmap_len p) →
  ∃ b, for_range from to op p = Done tt (set_bitmap b p) ∧
    ∀ j, bit (set_bitmap b p) j = if in_range j (from, to) then v else bit p j.
Proof.
  intros Hop Hf Ht. unfold for_range. destruct (decide (from < to)).
  - destruct (for_pages_run op v (Z.to_nat (to - from)) from p) as (b & Hr & Hb); [done|done|lia|].
    exists b. split; [done|]. by replace (from + Z.of_nat (Z.to_nat (to - from))) with to in Hb by lia.
  - replace (Z.to_nat (to - from)) with 0%nat by lia. exists (bitmap p).
    rewrite set_bitmap_same. split; [done|]. intros j. by rewrite in_range_empty by lia.
Qed.

Lemma div_ceil_page x :
  0 ≤ x → x + PAGE_SIZE ≤ U32 → div_ceil x PAGE_SIZE = (x + 4095) / 4096.
Proof. unfold PAGE_SIZE. intros. unfold div_ceil. rewrite u32_small; [f_equal; lia|lia]. Qed.

Lemma init_regions_run lower es p upper :
  0 ≤ lower → upper + PAGE_SIZE * 32 ≤ U32 → upper / PAGE_SIZE ≤ 32 * bitmap_len p →
  Forall (λ e, mm_type e = MULTIBOOT_MEMORY_AVAILABLE → u32 (mm_addr e + mm_len e) ≤ upper) es →
  ∃ b, init_regions lower es p = Done tt (set_bitmap b p) ∧
    ∀ j, bit (set_bitmap b p) j = existsb (in_range j) (entry_range lower <$> es) || bit p j.
Proof.
  intros Hlo Hup. revert p. induction es as [|e es IH]; intros p Hlen Hes; cbn [init_regions].
  { exists (bitmap p). by rewrite set_bitmap_same. }
  apply Forall_cons in Hes as [He Hes].
  assert (∃ b, (if mm_type e =? MULTIBOOT_MEMORY_AVAILABLE then
             let entry_start := u32 (mm_addr e) in
             let entry_end := u32 (mm_addr e + mm_len e) in
             let entry_start := if entry_start <? lower then lower else entry_start in
             if entry_end <=? entry_start then mret tt
             else for_range (div_ceil entry_start PAGE_SIZE) (entry_end / PAGE_SIZE) bitmap_set
           else mret tt) p = Done tt (set_bitmap b p) ∧
    ∀ j, bit (set_bitmap b p) j = in_range j (entry_range lower e) || bit p j) as (b & Hr & Hb).
  { unfold entry_range. cbv zeta. set (s := u32 (mm_addr e)). set (t := u32 (mm_addr e + mm_len e)) in *.
    replace (if s <? lower then lower else s) with (Z.max lower s) by (case_match; bool_to_prop; lia).
    assert (∀ j, in_range j (0, 0) = false) as Hno by (intros; by apply in_range_empty).
    destruct (Z.eqb_spec (mm_type e) MULTIBOOT_MEMORY_AVAILABLE) as [Ht|Ht]; simpl.
    2: { exists (bitmap p). rewrite set_bitmap_same. split; [done|]. intros j. by rewrite Hno. }
    destruct (Z.leb_spec t (Z.max lower s)).
    { exists (bitmap p). rewrite set_bitmap_same, (proj2 (Z.ltb_ge _ _)) by lia.
      split; [done|]. intros j. by rewrite Hno. }
    rewrite (proj2 (Z.ltb_lt _ _)) by lia. pose proof (He Ht) as Ht'.
    destruct (for_range_run bitmap_set true (div_ceil (Z.max lower s) PAGE_SIZE) (t / PAGE_SIZE) p)
      as (b & Hr & Hb); [apply bitmap_set_writes| | |].
    - unfold PAGE_SIZE in *. rewrite div_ceil_page by (unfold PAGE_SIZE; lia). apply Z.div_pos; lia.
    - intros _. etrans; [|exact Hlen]. apply Z.div_le_mono; [done|lia].
    - exists b. split; [done|]. intros j. rewrite Hb. by case_match. }
  rewrite (bind_run _ _ _ _ _ Hr).
  destruct (IH (set_bitmap b p)) as (b' & -> & Hb'); [done|done|].
  exists b'. split; [done|]. intros j. rewrite set_bitmap_twice in Hb'. rewrite Hb', Hb. simpl.
  rewrite !orb_assoc. f_equal. apply orb_comm.
Qed.
Lemma init_modules_run ms p upper :
  upper + PAGE_SIZE * 32 ≤ U32 → div_ceil upper PAGE_SIZE ≤ 32 * bitmap_len p →
  Forall (λ m, 0 ≤ mod_start m ∧ 0 ≤ mod_end m ≤ upper) ms →
  ∃ b, init_modules ms p = Done tt (set_bitmap b p) ∧
    ∀ j, bit (set_bitmap b p) j = negb (existsb (in_range j) (module_range <$> ms)) && bit p j.
Proof.
  intros Hup. revert p. induction ms as [|m ms IH]; intros p Hlen Hms; cbn [init_modules].
  { exists (bitmap p). by rewrite set_bitmap_same. }
  apply Forall_cons in Hms as [[Hs He] Hms].
  destruct (for_range_run bitmap_clear false (mod_start m / PAGE_SIZE)
    (div_ceil (mod_end m) PAGE_SIZE) p) as (b & Hr & Hb); [apply bitmap_clear_writes| | |].
  { apply Z.div_pos; [lia|done]. }
  { intros _. etrans; [|exact Hlen]. unfold PAGE_SIZE in *.
    rewrite !div_ceil_page by (unfold PAGE_SIZE; lia). apply Z.div_le_mono; lia. }
  rewrite (bind_run _ _ _ _ _ Hr).
  destruct (IH (set_bitmap b p)) as (b' & -> & Hb'); [done|done|].
  exists b'. split; [done|]. intros j. rewrite set_bitmap_twice in Hb'. rewrite Hb', Hb. simpl.
  fold (module_range m). destruct (in_range j (module_range m)); simpl; [by rewrite andb_false_r|done].
Qed.

Lemma init_refs_run n i num p :
  0 ≤ i → i + Z.of_nat n ≤ 32 * bitmap_len p →
  ∃ r, init_refs n i num p =
      Done (num + Z.of_nat (length (filter (λ j, bit p j = true) (seqZ i (Z.of_nat n)))))
           (set_refs r p) ∧
    ∀ j, aget r j = if bool_decide (i ≤ j < i + Z.of_nat n) && negb (bit p j)
                    then UINT8_MAX else refs p j.
Proof.
  revert i num p. induction n as [|n IH]; intros i num p Hi Hn; cbn [init_refs].
  { exists (ref_counts p). rewrite Z.add_0_r. split; [by destruct p|]. intros j.
    rewrite bool_decide_eq_false_2 by lia. done. }
  rewrite (bind_run _ _ _ _ _ (bitmap_get_run p i ltac:(lia))).
  rewrite seqZ_cons, filter_cons by lia.
  replace (Z.pred (Z.of_nat (S n))) with (Z.of_nat n) by lia. rewrite <-Z.add_1_r.
  destruct (bit p i) eqn:Eb.
  - destruct (IH (i + 1) (num + 1) p) as (r & -> & Hr); [lia|lia|]. exists r.
    rewrite decide_True by done. split; [f_equal; simpl; lia|]. intros j. rewrite Hr.
    destruct (decide (j = i)) as [->|]; [by rewrite Eb, !andb_false_r|].
    by rewrite (bool_decide_ext (i + 1 ≤ j < i + 1 + Z.of_nat n) (i ≤ j < i + Z.of_nat (S n))) by lia.
  - set (p1 := set_refs (<[i := UINT8_MAX]> (ref_counts p)) p).
    erewrite bind_run by reflexivity. fold p1.
    destruct (IH (i + 1) num p1) as (r & -> & Hr); [lia|simpl; lia|]. exists r.
    rewrite decide_False by done. split; [done|]. intros j. rewrite Hr.
    change (bit p1 j) with (bit p j).
    destruct (decide (j = i)) as [->|Hji].
    + rewrite bool_decide_eq_false_2, bool_decide_eq_true_2, Eb by lia. apply aget_insert.
    + change (refs p1 j) with (aget (<[i := UINT8_MAX]> (ref_counts p)) j).
      rewrite aget_insert_ne by done. fold (refs p j).
      by rewrite (bool_decide_ext (i + 1 ≤ j < i + 1 + Z.of_nat n) (i ≤ j < i + Z.of_nat (S n))) by lia.
Qed.

Definition pages_zero : pages := Pages 0 ∅ ∅ mutex_zero (MemInfo 0 0).
Lemma upper_mono es upper :
  upper ≤ foldl (λ upper e,
       if mm_type e =? MULTIBOOT_MEMORY_AVAILABLE then
         let entry_end := u32 (mm_addr e + mm_len e) in
         if upper <? entry_end then entry_end else upper
       else upper) upper es.
Proof.
  revert upper. induction es as [|e es IH]; intros upper; cbn [foldl]; [done|].
  etrans; [|apply IH]. cbv zeta. repeat case_match; bool_to_prop; lia.
Qed.
Lemma upper_bounds es upper :
  let upper' := foldl (λ upper e,
       if mm_type e =? MULTIBOOT_MEMORY_AVAILABLE then
         let entry_end := u32 (mm_addr e + mm_len e) in
         if upper <? entry_end then entry_end else upper
       else upper) upper es in
  Forall (λ e, mm_type e = MULTIBOOT_MEMORY_AVAILABLE → u32 (mm_addr e + mm_len e) ≤ upper') es.
Proof.
  revert upper. induction es as [|e es IH]; intros upper; cbn [foldl]; [constructor|].
  constructor; [|apply IH]. intros ->. rewrite Z.eqb_refl. cbv zeta.
  etrans; [|apply upper_mono]. case_match; bool_to_prop; lia.
Qed.

Definition bounds_ok (kernel_end : Z) (mb : multiboot_info) : Prop :=
  let (_, upper) := get_available_physical_addr_bounds kernel_end mb in
  KERNEL_VADDR ≤ kernel_end ≤ KERNEL_VADDR + 1022 * PAGE_SIZE ∧
  0 ≤ upper ∧ upper + PAGE_SIZE * 32 ≤ U32 ∧
  Forall (λ m, 0 ≤ mod_start m ∧ 0 ≤ mod_end m ≤ upper) (mb_mods mb).

(** The bitmap after the memory map and the modules. *)
Lemma bitmap_init_bits kernel_end mb lower upper p :
  bounds_ok kernel_end mb → get_available_physical_addr_bounds kernel_end mb = (lower, upper) →
  bitmap p = ∅ → bitmap_len p = div_ceil upper (PAGE_SIZE * 32) →
  ∃ b, (_ ← (if has_flag mb MULTIBOOT_INFO_MEM_MAP then init_regions lower (mb_mmap mb)
             else for_range (div_ceil lower PAGE_SIZE) (upper / PAGE_SIZE) bitmap_set);
        when (has_flag mb MULTIBOOT_INFO_MODS) (init_modules (mb_mods mb))) p
       = Done tt (set_bitmap b p) ∧
    ∀ j, bit (set_bitmap b p) j = marked kernel_end mb j.
Proof.
  unfold bounds_ok, marked. intros Hok Eb He Hlen. rewrite Eb in *.
  destruct Hok as (Hk & Hu0 & Hup & Hms).
  assert (bitmap_len p = (upper + 131071) / 131072) as Hl.
  { rewrite Hlen. unfold div_ceil, PAGE_SIZE in *. rewrite u32_small by lia. f_equal. lia. }
  assert (div_ceil upper PAGE_SIZE ≤ 32 * bitmap_len p) as Hceil.
  { rewrite Hl, div_ceil_page by (unfold PAGE_SIZE in *; lia). Z.to_euclidean_division_equations; lia. }
  assert (upper / PAGE_SIZE ≤ 32 * bitmap_len p) as Hfl.
  { rewrite Hl. unfold PAGE_SIZE. Z.to_euclidean_division_equations; lia. }
  assert (∀ j, bit p j = false) as Hzero.
  { intros j. unfold bit. rewrite He, aget_empty. apply Z.testbit_0_l. }
  assert (lower = kernel_end - KERNEL_VADDR) as Hlow.
  { unfold get_available_physical_addr_bounds in Eb.
    rewrite u32_small in Eb by (unfold KERNEL_VADDR, PAGE_SIZE, U32 in *; lia). by case_match; simplify_eq. }
  assert (∃ b, (if has_flag mb MULTIBOOT_INFO_MEM_MAP then init_regions lower (mb_mmap mb)
     else for_range (div_ceil lower PAGE_SIZE) (upper / PAGE_SIZE) bitmap_set) p
     = Done tt (set_bitmap b p) ∧ ∀ j, bit (set_bitmap b p) j =
       if has_flag mb MULTIBOOT_INFO_MEM_MAP then existsb (in_range j) (entry_range lower <$> mb_mmap mb)
       else in_range j (div_ceil lower PAGE_SIZE, upper / PAGE_SIZE)) as (b & Hr & Hb).
  { unfold get_available_physical_addr_bounds in Eb.
    destruct (has_flag mb MULTIBOOT_INFO_MEM_MAP); simpl in Eb.
    - destruct (init_regions_run lower (mb_mmap mb) p upper) as (b & Hr & Hb); [lia|done|done| |].
      { injection Eb as _ <-. apply upper_bounds. }
      exists b. split; [done|]. intros j. by rewrite Hb, Hzero, orb_false_r.
    - destruct (for_range_run bitmap_set true (div_ceil lower PAGE_SIZE) (upper / PAGE_SIZE) p)
        as (b & Hr & Hb); [apply bitmap_set_writes| |done|].
      { rewrite div_ceil_page by (unfold KERNEL_VADDR, PAGE_SIZE, U32 in *; lia). apply Z.div_pos; lia. }
      exists b. split; [done|]. intros j. rewrite Hb, Hzero. by case_match. }
  rewrite (bind_run _ _ _ _ _ Hr). destruct (has_flag mb MULTIBOOT_INFO_MODS); simpl.
  - destruct (init_modules_run (mb_mods mb) (set_bitmap b p) upper) as (b' & -> & Hb'); [done..|].
    exists b'. rewrite set_bitmap_twice in *. split; [done|]. intros j.
    by rewrite Hb', Hb, andb_comm.
  - exists b. split; [done|]. intros j. by rewrite Hb, andb_true_r.
Qed.

Lemma page_allocator_init_marks kernel_end mb :
  bounds_ok kernel_end mb →
  wp (page_allocator_init kernel_end mb) (λ _ p, pages_inv p ∧
    bitmap_len p = div_ceil (get_available_physical_addr_bounds kernel_end mb).2 (PAGE_SIZE * 32) ∧
    total (memory_info p) = free (memory_info p) ∧
    ∀ i, in_bitmap p i →
      refs p i = (if marked kernel_end mb i then 0 else 255)) pages_zero.
Proof.
  intros Hok. unfold page_allocator_init. wp_keep.
  destruct (get_available_physical_addr_bounds kernel_end mb) as [lower upper] eqn:Eb.
  pose proof Hok as Hok'. unfold bounds_ok in Hok'. rewrite Eb in Hok'.
  destruct Hok' as (Hk & Hu0 & Hup & _). apply wp_ASSERT; [apply Z.leb_le; lia|].
  unfold bitmap_init. wp_keep. set (len := div_ceil upper (PAGE_SIZE * 32)).
  assert (len = (upper + 131071) / 131072) as Hl.
  { unfold len, div_ceil, PAGE_SIZE in *. rewrite u32_small by lia. f_equal. lia. }
  assert (0 ≤ len ≤ 32768 ∧ len * 131072 < U32) as [Hlen Hlen'].
  { unfold U32, PAGE_SIZE in *. Z.to_euclidean_division_equations; lia. }
  apply wp_ASSERT; [apply Z.leb_le; simpl; change BITMAP_MAX_LEN with 32768; lia|]. wp_keep.
  cbn [pages_zero bitmap ref_counts plock memory_info bitmap_len].
  set (p0 := Pages len ∅ ∅ mutex_zero (MemInfo 0 0)).
  destruct (bitmap_init_bits kernel_end mb lower upper p0 Hok Eb) as (b & Hr & Hb); [done|done|].
  rewrite bind_Done in Hr. destruct Hr as ([] & p1 & Hr1 & Hr2).
  eapply wp_run; [exact Hr1|]. wp_keep. eapply wp_run; [exact Hr2|]. wp_keep.
  set (p2 := set_bitmap b p0) in *.
  destruct (init_refs_run (Z.to_nat (len * 32)) 0 0 p2) as (r & Hrun & Hrefs); [lia|simpl; lia|].
  eapply wp_run; [exact Hrun|]. wp_keep. rewrite Z2Nat.id in * by lia.
  set (num := length (filter (λ j, bit p2 j = true) (seqZ 0 (len * 32)))) in *.
  set (p := set_info _ _).
  assert (∀ j, in_bitmap p j → refs p j = if marked kernel_end mb j then 0 else 255) as Hin.
  { intros j Hj. change (refs p j) with (aget r j). unfold in_bitmap in Hj. change (bitmap_len p) with len in Hj.
    rewrite Hrefs, bool_decide_eq_true_2, <-Hb by lia. by destruct (bit p2 j). }
  assert (∀ j, ¬ in_bitmap p j → refs p j = 0) as Hout.
  { intros j Hj. change (refs p j) with (aget r j). unfold in_bitmap in Hj. change (bitmap_len p) with len in Hj.
    rewrite Hrefs, bool_decide_eq_false_2 by lia. apply aget_empty. }
  assert (length (free_pages p) = num) as Hnum.
  { unfold free_pages, num, page_numbers. change (bitmap_len p) with len. rewrite Z.mul_comm.
    f_equal. apply filter_ext_in. intros j Hj%elem_of_seqZ.
    rewrite Hin, Hb by (unfold in_bitmap; simpl; lia). by destruct (marked _ _ _). }
  assert (num ≤ Z.to_nat (len * 32))%nat as Hnle.
  { unfold num. etrans; [apply length_filter|]. by rewrite length_seqZ. }
  split; [|split_and!; done]. split; try done.
  - intros j. destruct (decide (in_bitmap p j)).
    + rewrite Hin by done. unfold UINT8_MAX. destruct (marked _ _ _); lia.
    + rewrite Hout by done. unfold UINT8_MAX. lia.
  - intros j Hj. rewrite Hin by done. change (bit p j) with (bit p2 j). rewrite Hb.
    by destruct (marked _ _ _).
  - simpl. rewrite Hnum. unfold PAGE_SIZE. rewrite u32_small by lia.
    Z.to_euclidean_division_equations; lia.
Qed.

(** *** What the boot loader says, in bytes

    The numbers are those of the multiboot header: bit 6 of its flags says that
    there is a map of the memory, bit 3 that there are modules; without a map,
    [mem_upper] counts the KiB above the first MiB. The addresses of the map are
    64 bits wide, of which the kernel takes 32. The image of the kernel ends at
    [kernel_end], seen at 3 GiB. *)
Definition image_end (kernel_end : Z) : Z := kernel_end - 0xc0000000.
Definition region_start (e : mmap_entry) : Z := mm_addr e mod 2 ^ 32.
Definition region_end (e : mmap_entry) : Z := (mm_addr e + mm_len e) mod 2 ^ 32.
Definition plain_end (mb : multiboot_info) : Z := (mem_upper mb * 1024 + 0x100000) mod 2 ^ 32.
(** Bytes [lo, hi) are memory of the machine. *)
Definition memory (mb : multiboot_info) (lo hi : Z) : Prop :=
  if Z.testbit (mb_flags mb) 6
  then ∃ e, e ∈ mb_mmap mb ∧ mm_type e = 1 ∧ region_start e ≤ lo ∧ hi ≤ region_end e
  else hi ≤ plain_end mb.
Definition in_module (mb : multiboot_info) (lo hi : Z) : Prop :=
  Z.testbit (mb_flags mb) 3 = true ∧ ∃ m, m ∈ mb_mods mb ∧ mod_start m < hi ∧ lo < mod_end m.
(** A page to give away: all of it is memory, behind the image of the kernel, and
    no module touches it. *)
Definition usable (kernel_end : Z) (mb : multiboot_info) (i : Z) : Prop :=
  image_end kernel_end ≤ i * 4096 ∧ memory mb (i * 4096) ((i + 1) * 4096) ∧
  ¬ in_module mb (i * 4096) ((i + 1) * 4096).
(** Where memory may end. *)
Definition ends_at (kernel_end : Z) (mb : multiboot_info) (x : Z) : Prop :=
  if Z.testbit (mb_flags mb) 6
  then x = image_end kernel_end ∨ ∃ e, e ∈ mb_mmap mb ∧ mm_type e = 1 ∧ x = region_end e
  else x = plain_end mb.
(** What the boot loader has to keep to: the image fits its page table, memory
    ends a bitmap word below 4 GiB, and modules lie in memory. *)
Record boot_ok (kernel_end : Z) (mb : multiboot_info) : Prop := BootOk {
  bo_image : 0xc0000000 ≤ kernel_end ≤ 0xc0000000 + 1022 * 4096;
  bo_ends x : ends_at kernel_end mb x → x + 131072 ≤ 2 ^ 32;
  bo_modules m : m ∈ mb_mods mb → 0 ≤ mod_start m ∧ 0 ≤ mod_end m ∧
    ∃ x, ends_at kernel_end mb x ∧ mod_end m ≤ x;
}.

Lemma has_flag_bit mb k : 0 ≤ k → has_flag mb (2 ^ k) = Z.testbit (mb_flags mb) k.
Proof.
  intros Hk. unfold has_flag. rewrite <-(Z.shiftl_1_l k).
  destruct (Z.testbit (mb_flags mb) k) eqn:E; [apply negb_true_iff, Z.eqb_neq|apply negb_false_iff, Z.eqb_eq].
  - intros Hz. apply (f_equal (λ x, Z.testbit x k)) in Hz.
    by rewrite Z.land_spec, Z.shiftl_spec, Z.sub_diag, E, Z.bits_0 in Hz by done.
  - apply Z.bits_inj'. intros j Hj. rewrite Z.land_spec, Z.shiftl_spec, Z.bits_0 by done.
    destruct (decide (j = k)) as [->|]; [by rewrite E|].
    destruct (decide (j < k)); [by rewrite (Z.testbit_neg_r 1), andb_false_r by lia|].
    rewrite (testbit_high 1 1 ltac:(lia) ltac:(lia)) by lia. by rewrite andb_false_r.
Qed.
Lemma upper_attained es upper :
  let upper' := foldl (λ upper e,
       if mm_type e =? MULTIBOOT_MEMORY_AVAILABLE then
         let entry_end := u32 (mm_addr e + mm_len e) in
         if upper <? entry_end then entry_end else upper
       else upper) upper es in
  upper' = upper ∨ ∃ e, e ∈ es ∧ mm_type e = 1 ∧ upper' = region_end e.
Proof.
  revert upper. induction es as [|e es IH]; intros upper; cbn [foldl]; [by left|]. cbv zeta.
  set (u := if mm_type e =? _ then _ else _).
  pose proof (IH u) as Hu. cbv zeta in Hu. destruct Hu as [->|(e' & ? & ? & ->)].
  - unfold u. destruct (Z.eqb_spec (mm_type e) MULTIBOOT_MEMORY_AVAILABLE) as [Ht|]; [|by left].
    case_match; [|by left]. right. exists e. split; [by left|]. split; [exact Ht|done].
  - right. exists e'. split; [by right|done].
Qed.
(** The upper bound of the code is an end of memory, and none is higher. *)
Lemma bounds_end kernel_end mb :
  0xc0000000 ≤ kernel_end ≤ 0xc0000000 + 1022 * 4096 →
  let (lower, upper) := get_available_physical_addr_bounds kernel_end mb in
  lower = image_end kernel_end ∧ ends_at kernel_end mb upper ∧ ∀ x, ends_at kernel_end mb x → x ≤ upper.
Proof.
  intros Hk. unfold get_available_physical_addr_bounds, ends_at.
  change MULTIBOOT_INFO_MEM_MAP with (2 ^ 6). rewrite (has_flag_bit mb 6) by done.
  assert (u32 (kernel_end - KERNEL_VADDR) = image_end kernel_end) as ->.
  { unfold KERNEL_VADDR, image_end. apply u32_small. unfold U32. lia. }
  destruct (Z.testbit (mb_flags mb) 6); cbn [negb]; (split; [done|]).
  - split; [apply upper_attained|]. intros x [->|(e & He & Ht & ->)]; [apply upper_mono|].
    pose proof (upper_bounds (mb_mmap mb) (image_end kernel_end)) as Hall. cbv zeta in Hall.
    rewrite Forall_forall in Hall. by apply Hall.
  - assert (u32 (u32 (mem_upper mb * 1024) + 1048576) = plain_end mb) as ->.
    { unfold u32, U32, plain_end. apply Zplus_mod_idemp_l. }
    split; [done|]. intros x ->. done.
Qed.
Lemma boot_bounds kernel_end mb : boot_ok kernel_end mb → bounds_ok kernel_end mb.
Proof.
  intros [Hk He Hm]. unfold bounds_ok. pose proof (bounds_end kernel_end mb Hk) as Hb.
  destruct (get_available_physical_addr_bounds kernel_end mb) as [lower upper].
  destruct Hb as (_ & Hu & Hmax). pose proof (He _ Hu) as Hup.
  assert (0 ≤ upper).
  { unfold ends_at, image_end, region_end, plain_end in Hu.
    destruct (Z.testbit _ _); [destruct Hu as [->|(e & _ & _ & ->)]; [lia|]|subst upper];
      apply Z.mod_pos_bound; lia. }
  split_and!; [exact (proj1 Hk)|exact (proj2 Hk)|done|unfold PAGE_SIZE, U32; lia|].
  apply Forall_forall. intros m Hin. destruct (Hm m Hin) as (? & ? & x & Hx & ?).
  specialize (Hmax x Hx). lia.
Qed.

Lemma page_inside i lo hi :
  0 ≤ lo → lo + PAGE_SIZE ≤ U32 → in_range i (div_ceil lo PAGE_SIZE, hi / PAGE_SIZE) = true ↔
  lo ≤ i * 4096 ∧ (i + 1) * 4096 ≤ hi.
Proof.
  intros H0 H1. rewrite div_ceil_page by done. rewrite in_range_dec, bool_decide_eq_true. unfold PAGE_SIZE.
  Z.to_euclidean_division_equations; lia.
Qed.
Lemma page_touched i m :
  0 ≤ mod_end m → mod_end m + PAGE_SIZE ≤ U32 → in_range i (module_range m) = true ↔
  mod_start m < (i + 1) * 4096 ∧ i * 4096 < mod_end m.
Proof.
  intros H0 H1. unfold module_range. rewrite div_ceil_page by done.
  rewrite in_range_dec, bool_decide_eq_true. unfold PAGE_SIZE. Z.to_euclidean_division_equations; lia.
Qed.
Lemma existsb_elem {A} (f : A → bool) (l : list A) : existsb f l = true ↔ ∃ x, x ∈ l ∧ f x = true.
Proof. rewrite existsb_exists. by setoid_rewrite list_elem_of_In. Qed.
Lemma region_inside kernel_end mb i e :
  boot_ok kernel_end mb → Z.testbit (mb_flags mb) 6 = true → e ∈ mb_mmap mb →
  in_range i (entry_range (image_end kernel_end) e) = true ↔
  mm_type e = 1 ∧ image_end kernel_end ≤ i * 4096 ∧ region_start e ≤ i * 4096 ∧ (i + 1) * 4096 ≤ region_end e.
Proof.
  intros Hok Hf He. pose proof (bo_image _ _ Hok). unfold entry_range. cbv zeta.
  fold (region_start e) (region_end e). change (u32 (mm_addr e)) with (region_start e).
  change (u32 (mm_addr e + mm_len e)) with (region_end e).
  assert (0 ≤ region_start e) by (apply Z.mod_pos_bound; lia).
  assert (0 ≤ image_end kernel_end) by (unfold image_end; lia).
  destruct (Z.eqb_spec (mm_type e) MULTIBOOT_MEMORY_AVAILABLE) as [Ht|Ht]; cbn [andb].
  2: { rewrite in_range_empty by lia. split; [done|]. intros [? _]. done. }
  assert (region_end e + 131072 ≤ 2 ^ 32).
  { apply (bo_ends _ _ Hok). unfold ends_at. rewrite Hf. right. by exists e. }
  destruct (Z.ltb_spec (Z.max (image_end kernel_end) (region_start e)) (region_end e)).
  - rewrite page_inside by (unfold PAGE_SIZE, U32; lia). split; [intros; split_and!; (exact Ht || lia)|lia].
  - rewrite in_range_empty by lia. split; [done|lia].
Qed.
Lemma marked_usable kernel_end mb i : boot_ok kernel_end mb → marked kernel_end mb i = true ↔ usable kernel_end mb i.
Proof.
  intros Hok. unfold marked, usable, memory, in_module. pose proof (bounds_end kernel_end mb (bo_image _ _ Hok)) as Hb.
  destruct (get_available_physical_addr_bounds kernel_end mb) as [lower upper]. destruct Hb as (-> & Hu & Hmax).
  change MULTIBOOT_INFO_MEM_MAP with (2 ^ 6). change MULTIBOOT_INFO_MODS with (2 ^ 3).
  rewrite (has_flag_bit mb 6), (has_flag_bit mb 3) by done. rewrite andb_true_iff, negb_true_iff, <-not_true_iff_false.
  rewrite andb_true_iff, !existsb_elem. setoid_rewrite list_elem_of_fmap.
  assert ((∃ r, (∃ m, r = module_range m ∧ m ∈ mb_mods mb) ∧ in_range i r = true) ↔
    ∃ m, m ∈ mb_mods mb ∧ mod_start m < (i + 1) * 4096 ∧ i * 4096 < mod_end m) as ->.
  { assert (∀ m, m ∈ mb_mods mb → in_range i (module_range m) = true ↔
      mod_start m < (i + 1) * 4096 ∧ i * 4096 < mod_end m) as Hiff.
    { intros m Hm. destruct (bo_modules _ _ Hok m Hm) as (? & ? & x & Hx & ?).
      pose proof (bo_ends _ _ Hok x Hx). apply page_touched; unfold PAGE_SIZE, U32; lia. }
    split; [intros (r & (m & -> & Hm) & Hr); exists m; by rewrite <-Hiff|].
    intros (m & Hm & Hr). exists (module_range m). split; [by exists m|by apply Hiff]. }
  rewrite (and_assoc (image_end kernel_end ≤ i * 4096)). apply and_iff_compat_r.
  destruct (Z.testbit (mb_flags mb) 6) eqn:Hf.
  - rewrite existsb_elem. setoid_rewrite list_elem_of_fmap. split.
    + intros (r & (e & -> & He) & Hr). apply (region_inside kernel_end mb) in Hr as (? & ? & ? & ?); [|done..].
      split; [done|]. by exists e.
    + intros (Hi & e & He & Ht & H1 & H2). eexists. split; [by exists e|]. by apply (region_inside kernel_end mb).
  - unfold ends_at in Hu. rewrite Hf in Hu. subst upper.
    assert (plain_end mb + 131072 ≤ 2 ^ 32) by (apply (bo_ends _ _ Hok); unfold ends_at; by rewrite Hf).
    pose proof (bo_image _ _ Hok). apply page_inside; unfold image_end, PAGE_SIZE, U32 in *; lia.
Qed.

(** Usable pages are in the bitmap. *)
Lemma usable_below kernel_end mb i :
  boot_ok kernel_end mb → usable kernel_end mb i →
  0 ≤ i < 32 * div_ceil (get_available_physical_addr_bounds kernel_end mb).2 (PAGE_SIZE * 32).
Proof.
  intros Hok (Hlo & Hmem & _). pose proof (bo_image _ _ Hok) as Hk. pose proof (bounds_end kernel_end mb Hk) as Hb.
  destruct (get_available_physical_addr_bounds kernel_end mb) as [lower upper]. destruct Hb as (_ & Hu & Hmax).
  cbn [snd]. pose proof (bo_ends _ _ Hok _ Hu). unfold image_end in Hlo.
  assert ((i + 1) * 4096 ≤ upper).
  { unfold memory in Hmem. unfold ends_at in Hmax. destruct (Z.testbit _ 6).
    - destruct Hmem as (e & He & Ht & _ & ?). specialize (Hmax (region_end e)).
      assert (region_end e ≤ upper) by (apply Hmax; right; by exists e). lia.
    - specialize (Hmax _ eq_refl). lia. }
  unfold div_ceil, PAGE_SIZE. rewrite u32_small by (unfold U32; lia).
  Z.to_euclidean_division_equations; lia.
Qed.
Lemma page_allocator_init_wp kernel_end mb :
  boot_ok kernel_end mb →
  wp (page_allocator_init kernel_end mb) (λ _ p, pages_inv p ∧ total (memory_info p) = free (memory_info p) ∧
    (∀ i, usable kernel_end mb i → in_bitmap p i ∧ refs p i = 0) ∧
    (∀ i, in_bitmap p i → ¬ usable kernel_end mb i → refs p i = 255)) pages_zero.
Proof.
  intros Hok. eapply wp_mono; [apply page_allocator_init_marks, boot_bounds, Hok|].
  intros _ p (Hi & Hl & Ht & Hr). split_and!; [done|done| |].
  - intros i Hu. assert (in_bitmap p i) as Hin.
    { unfold in_bitmap. rewrite Hl. by apply usable_below. }
    split; [done|]. rewrite Hr by done. by rewrite (proj2 (marked_usable _ _ i Hok) Hu).
  - intros i Hin Hu. rewrite Hr by done. destruct (marked kernel_end mb i) eqn:E; [|done].
    by apply (marked_usable _ _ i Hok) in E.
Qed.


(** ** The contract of a page allocator *)

(** What the code that maps pages calls, and what it may rely on: [pa_refs]
    counts the references to a page number, [pa_page] says which numbers are
    pages of the machine. *)
Class PageAllocOps (P : Type) : Type := {
  pa_alloc : K P Z;
  pa_ref : Z → K P unit;
  pa_unref : Z → K P unit;
}.
Class PageAlloc (P : Type) `{PageAllocOps P} : Type := {
  pa_inv : P → Prop;
  pa_page : P → Z → Prop;
  pa_refs : P → Z → Z;
  pa_refs_range p i : pa_inv p → 0 ≤ pa_refs p i ≤ 255;
  pa_page_range p i : pa_inv p → pa_page p i → 0 ≤ i < 1048576;
  pa_alloc_law p : pa_inv p →
    wp pa_alloc (λ r p', pa_inv p' ∧ (∀ j, pa_page p' j ↔ pa_page p j) ∧
      ((r = ERR ENOMEM ∧ p' = p) ∨
       (∃ i, r = i * PAGE_SIZE ∧ IS_ERR r = false ∧ pa_page p i ∧ pa_refs p i = 0 ∧
          pa_refs p' i = 1 ∧ ∀ j, j ≠ i → pa_refs p' j = pa_refs p j))) p;
  pa_ref_law p i : pa_inv p → pa_page p i → 0 < pa_refs p i →
    wp (pa_ref (i * PAGE_SIZE)) (λ _ p', pa_inv p' ∧ (∀ j, pa_page p' j ↔ pa_page p j) ∧
      pa_refs p' i = Z.min 255 (pa_refs p i + 1) ∧
      ∀ j, j ≠ i → pa_refs p' j = pa_refs p j) p;
  pa_unref_law p i : pa_inv p → pa_page p i → 0 < pa_refs p i →
    wp (pa_unref (i * PAGE_SIZE)) (λ _ p', pa_inv p' ∧ (∀ j, pa_page p' j ↔ pa_page p j) ∧
      pa_refs p' i = (if pa_refs p i =? 255 then 255 else pa_refs p i - 1) ∧
      ∀ j, j ≠ i → pa_refs p' j = pa_refs p j) p;
}.

#[global] Instance bitmap_ops : PageAllocOps pages := {|
  pa_alloc := page_allocator_alloc 0;
  pa_ref := page_allocator_ref_page 0;
  pa_unref := page_allocator_unref_page 0;
|}.

(** The bitmap allocator keeps the contract. *)
#[global] Program Instance bitmap_allocator : PageAlloc pages := {|
  pa_inv := pages_inv;
  pa_page := in_bitmap;
  pa_refs := refs;
|}.
Next Obligation. intros p i Hi. apply (pi_refs p Hi). Qed.
Next Obligation.
  intros p i Hi Hin. pose proof (pi_len p Hi). unfold in_bitmap in Hin.
  change BITMAP_MAX_LEN with 32768 in *. lia.
Qed.
Next Obligation.
  intros p Hi. eapply wp_mono; [by apply page_allocator_alloc_wp|]. intros r p' (Hi' & Hl & H).
  split_and!; [done|by unfold in_bitmap; rewrite Hl|]. naive_solver.
Qed.
Next Obligation.
  intros p i Hi Hin Hr. eapply wp_mono; [by apply page_allocator_ref_page_wp|].
  intros _ p' (Hi' & Hl & H). split_and!; [done|by unfold in_bitmap; rewrite Hl|naive_solver..].
Qed.
Next Obligation.
  intros p i Hi Hin Hr. eapply wp_mono; [by apply page_allocator_unref_page_wp|].
  intros _ p' (Hi' & Hl & H). split_and!; [done|by unfold in_bitmap; rewrite Hl|naive_solver..].
Qed.

(** ** Witnesses *)

(** A machine with 1.5 MiB of memory and a kernel image up to 0x150000. *)
Definition small_machine : multiboot_info := Multiboot 0 512 [] [].
Definition small_end : Z := KERNEL_VADDR + 1376256.
Definition booted : pages := final (page_allocator_init small_end small_machine) pages_zero.
Lemma small_boot_ok : boot_ok small_end small_machine.
Proof.
  split; [split; by vm_compute|intros x ->; by vm_compute|by intros m ?%elem_of_nil].
Qed.
Lemma booted_inv : pages_inv booted.
Proof.
  apply (wp_final (page_allocator_init small_end small_machine) pages_inv).
  eapply wp_mono; [apply (page_allocator_init_wp _ _ small_boot_ok)|].
  by intros _ p [Hp _].
Qed.
Definition one_taken : pages := final (page_allocator_alloc 0) booted.
Lemma one_taken_inv : pages_inv one_taken.
Proof.
  apply (wp_final (page_allocator_alloc 0) pages_inv).
  eapply wp_mono; [apply (page_allocator_alloc_wp 0 _ booted_inv)|].
  by intros r p (Hp & _).
Qed.

Lemma page_allocator_alloc_spec_witness :
  wp (page_allocator_alloc 3) (λ r p', pages_inv p' ∧ bitmap_len p' = bitmap_len booted ∧
    ((r = ERR ENOMEM ∧ p' = booted ∧ ∀ i, in_bitmap booted i → 0 < refs booted i) ∨
     (∃ i, r = i * PAGE_SIZE ∧ IS_ERR r = false ∧ in_bitmap booted i ∧ refs booted i = 0 ∧
        (∀ j, in_bitmap booted j → refs booted j = 0 → i ≤ j) ∧ refs p' i = 1 ∧
        (∀ j, j ≠ i → refs p' j = refs booted j)))) booted.
Proof. apply (page_allocator_alloc_spec 3 booted booted_inv). Defined.
Lemma page_allocator_ref_page_spec_witness :
  wp (page_allocator_ref_page 3 (336 * PAGE_SIZE)) (λ _ p', pages_inv p' ∧
    bitmap_len p' = bitmap_len one_taken ∧ refs p' 336 = Z.min 255 (refs one_taken 336 + 1) ∧
    ∀ j, j ≠ 336 → refs p' j = refs one_taken j) one_taken.
Proof.
  apply (page_allocator_ref_page_spec 3 one_taken 336 one_taken_inv).
  - split; vm_compute; congruence.
  - vm_compute. reflexivity.
Defined.
Lemma page_allocator_unref_page_spec_witness :
  wp (page_allocator_unref_page 3 (336 * PAGE_SIZE)) (λ _ p', pages_inv p' ∧
    bitmap_len p' = bitmap_len one_taken ∧
    refs p' 336 = (if refs one_taken 336 =? 255 then 255 else refs one_taken 336 - 1) ∧
    (refs one_taken 336 = 1 → 336 ∈ free_pages p') ∧
    ∀ j, j ≠ 336 → refs p' j = refs one_taken j) one_taken.
Proof.
  apply (page_allocator_unref_page_spec 3 one_taken 336 one_taken_inv).
  - split; vm_compute; congruence.
  - vm_compute. reflexivity.
Defined.
