(* ===== verification/Paging.v ===== *)
(** * Page tables (kernel/memory/paging.c, the i386 half)

    Page directories are objects found by their virtual address, page tables
    objects found by the address of their page frame; an entry is its 32-bit raw
    value, and what the recursive slot of a directory gives (the table behind a
    directory entry) is a lookup of the frame. The contents of data pages are
    kept by frame so that copying a page is visible. The page allocator is used
    through its contract; kaligned_alloc and kfree, which are built on this file,
    are parameters. *)
From S2P Require Import Prelude Errno CString Lock PageAllocator.

Definition PAGE_WRITE : Z := 2.
Definition PAGE_USER : Z := 4.
Definition PAGE_PAT : Z := 128.
Definition PAGE_GLOBAL : Z := 256.
Definition PAGE_SHARED : Z := 512.
Definition KERNEL_PDE_IDX : Z := Z.shiftr KERNEL_VADDR 22.

(** Fields of a raw entry. *)
Definition present (raw : Z) : bool := Z.testbit raw 0.
Definition frame_of (raw : Z) : Z := Z.land raw (u32 (Z.lnot 4095)).
Definition flags_of (raw : Z) : Z := Z.land raw 4095.
Definition set_bits (b raw : Z) : Z := Z.lor raw b.

Record mmu (P : Type) : Type := Mmu {
  mm_pages : P;
  mm_dirs : gmap Z array;
  mm_tables : gmap Z array;
  mm_data : gmap Z (list Z);
  current_pd : Z;
  quickmap_lock : mutex;
}.
Arguments Mmu {P} _ _ _ _ _ _.
Arguments mm_pages {P} _.
Arguments mm_dirs {P} _.
Arguments mm_tables {P} _.
Arguments mm_data {P} _.
Arguments current_pd {P} _.
Arguments quickmap_lock {P} _.

Section paging.
Context {P : Type} `{PageAllocOps P}.
Implicit Types s : mmu P.

Definition set_pages (p : P) s : mmu P :=
  Mmu p (mm_dirs s) (mm_tables s) (mm_data s) (current_pd s) (quickmap_lock s).
Definition set_dirs (d : gmap Z array) s : mmu P :=
  Mmu (mm_pages s) d (mm_tables s) (mm_data s) (current_pd s) (quickmap_lock s).
Definition set_tables (t : gmap Z array) s : mmu P :=
  Mmu (mm_pages s) (mm_dirs s) t (mm_data s) (current_pd s) (quickmap_lock s).
Definition set_data (d : gmap Z (list Z)) s : mmu P :=
  Mmu (mm_pages s) (mm_dirs s) (mm_tables s) d (current_pd s) (quickmap_lock s).
Definition set_pd (pd : Z) s : mmu P :=
  Mmu (mm_pages s) (mm_dirs s) (mm_tables s) (mm_data s) pd (quickmap_lock s).
Definition set_qlock (m : mutex) s : mmu P :=
  Mmu (mm_pages s) (mm_dirs s) (mm_tables s) (mm_data s) (current_pd s) m.
Definition in_pages {A} (m : K P A) : K (mmu P) A := zoom mm_pages set_pages m.

(** Reads and writes of directory and table entries. *)
Definition dir_get (pd i : Z) : K (mmu P) Z :=
  s ← get; d ← access (mm_dirs s !! pd); mret (aget d i).
Definition dir_set (pd i raw : Z) : K (mmu P) unit :=
  s ← get; d ← access (mm_dirs s !! pd);
  put (set_dirs (<[pd := <[i := raw]> d]> (mm_dirs s)) s).
Definition table_get (pt i : Z) : K (mmu P) Z :=
  s ← get; t ← access (mm_tables s !! pt); mret (aget t i).
Definition table_set (pt i raw : Z) : K (mmu P) unit :=
  s ← get; t ← access (mm_tables s !! pt);
  put (set_tables (<[pt := <[i := raw]> t]> (mm_tables s)) s).

Definition pd_index (vaddr : Z) : Z := Z.shiftr vaddr 22.
Definition pt_index (vaddr : Z) : Z := Z.land (Z.shiftr vaddr 12) 1023.

(** The table that the recursive slot shows at [0xffc00000 + 4096 * pd_idx]. *)
Definition get_page_table_from_idx (pd_idx : Z) : K (mmu P) Z :=
  _ ← ASSERT (pd_idx <? 1024);
  s ← get; pde ← dir_get (current_pd s) pd_idx; mret (frame_of pde).

(** A pointer to a table entry is the table and an index. *)
Definition get_or_create_page_table (vaddr : Z) : K (mmu P) (ptr_res Z) :=
  let pd_idx := pd_index vaddr in
  s ← get;
  pde ← dir_get (current_pd s) pd_idx;
  if present pde then pt ← get_page_table_from_idx pd_idx; mret (PTR pt)
  else
    raw ← in_pages pa_alloc;
    _ ← dir_set (current_pd s) pd_idx (u32 raw);
    if IS_ERR raw then mret (ERR_PTR raw)
    else
      _ ← dir_set (current_pd s) pd_idx (set_bits 7 (u32 raw));
      pt ← get_page_table_from_idx pd_idx;
      _ ← modify (λ s, set_tables (<[pt := ∅]> (mm_tables s)) s);
      mret (PTR pt).

Definition get_pte (vaddr : Z) : K (mmu P) (option (Z * Z)) :=
  let pd_idx := pd_index vaddr in
  s ← get;
  pde ← dir_get (current_pd s) pd_idx;
  if present pde then pt ← get_page_table_from_idx pd_idx; mret (Some (pt, pt_index vaddr))
  else mret None.

Definition get_or_create_pte (vaddr : Z) : K (mmu P) (ptr_res (Z * Z)) :=
  r ← get_or_create_page_table vaddr;
  match r with
  | ERR_PTR rc => mret (ERR_PTR rc)
  | PTR pt => mret (PTR (pt, pt_index vaddr))
  end.

(** [ASSERT(pte && pte->present)] and the raw entry. *)
Definition present_pte (vaddr : Z) : K (mmu P) (Z * Z * Z) :=
  pte ← get_pte vaddr;
  match pte with
  | None => panic
  | Some (pt, i) => raw ← table_get pt i; _ ← ASSERT (present raw); mret (pt, i, raw)
  end.

Definition paging_virtual_to_physical_addr (vaddr : Z) : K (mmu P) Z :=
  '(_, _, raw) ← present_pte vaddr;
  mret (Z.lor (frame_of raw) (Z.land vaddr 4095)).

Definition map_page_to_free_page (vaddr flags : Z) : K (mmu P) Z :=
  pte ← get_or_create_pte vaddr;
  match pte with
  | ERR_PTR rc => mret rc
  | PTR (pt, i) =>
      raw ← table_get pt i;
      _ ← ASSERT (negb (present raw));
      physical_page_addr ← in_pages pa_alloc;
      if IS_ERR physical_page_addr then mret physical_page_addr
      else _ ← table_set pt i (set_bits 1 (Z.lor physical_page_addr flags)); mret 0
  end.

Definition map_page_to_physical_addr (vaddr paddr flags : Z) : K (mmu P) Z :=
  pte ← get_or_create_pte vaddr;
  match pte with
  | ERR_PTR rc => mret rc
  | PTR (pt, i) =>
      raw ← table_get pt i;
      _ ← ASSERT (negb (present raw));
      _ ← in_pages (pa_ref paddr);
      _ ← table_set pt i (set_bits 1 (Z.lor paddr flags)); mret 0
  end.

Definition copy_page_mapping (to_vaddr from_vaddr flags : Z) : K (mmu P) Z :=
  '(from_pt, from_i, _) ← present_pte from_vaddr;
  pte ← get_or_create_pte to_vaddr;
  match pte with
  | ERR_PTR rc => mret rc
  | PTR (pt, i) =>
      raw ← table_get pt i;
      _ ← ASSERT (negb (present raw));
      from_raw ← table_get from_pt from_i;
      let paddr := frame_of from_raw in
      _ ← in_pages (pa_ref paddr);
      _ ← table_set pt i (set_bits 1 (Z.lor paddr flags)); mret 0
  end.

Definition unmap_page (vaddr : Z) : K (mmu P) unit :=
  '(pt, i, raw) ← present_pte vaddr;
  _ ← in_pages (pa_unref (frame_of raw));
  table_set pt i 0.

(** [for (offset = 0; offset < size; offset += PAGE_SIZE)] with an early return;
    [n] pages from page number [k]. *)
Fixpoint each_page (n : nat) (k : Z) (op : Z → K (mmu P) Z) : K (mmu P) Z :=
  match n with
  | O => mret 0
  | S n =>
      rc ← op (k * PAGE_SIZE);
      if IS_ERR rc then mret rc else each_page n (k + 1) op
  end.
Definition page_count (size : Z) : nat := Z.to_nat (round_up size PAGE_SIZE / PAGE_SIZE).

Definition paging_map_to_free_pages (vaddr size flags : Z) : K (mmu P) Z :=
  _ ← ASSERT (vaddr mod PAGE_SIZE =? 0);
  each_page (page_count size) 0 (λ offset, map_page_to_free_page (u32 (vaddr + offset)) flags).
Definition paging_map_to_physical_range (vaddr paddr size flags : Z) : K (mmu P) Z :=
  _ ← ASSERT (vaddr mod PAGE_SIZE =? 0);
  _ ← ASSERT (paddr mod PAGE_SIZE =? 0);
  each_page (page_count size) 0 (λ offset,
    map_page_to_physical_addr (u32 (vaddr + offset)) (u32 (paddr + offset)) flags).
Definition paging_copy_mapping (to_vaddr from_vaddr size flags : Z) : K (mmu P) Z :=
  _ ← ASSERT (to_vaddr mod PAGE_SIZE =? 0);
  _ ← ASSERT (from_vaddr mod PAGE_SIZE =? 0);
  each_page (page_count size) 0 (λ offset,
    copy_page_mapping (u32 (to_vaddr + offset)) (u32 (from_vaddr + offset)) flags).
Definition paging_unmap (vaddr size : Z) : K (mmu P) unit :=
  _ ← ASSERT (vaddr mod PAGE_SIZE =? 0);
  _ ← each_page (page_count size) 0 (λ offset, _ ← unmap_page (u32 (vaddr + offset)); mret 0);
  mret tt.

(** ** Cloning *)
Definition QUICKMAP_PAGE : Z := 1022.
Definition QUICKMAP_PAGE_TABLE : Z := 1023.

Definition quickmap (which paddr flags : Z) : K (mmu P) Z :=
  pt ← get_page_table_from_idx KERNEL_PDE_IDX;
  raw ← table_get pt which;
  _ ← ASSERT (raw =? 0);
  _ ← table_set pt which (set_bits 1 (Z.lor paddr flags));
  mret (KERNEL_VADDR + PAGE_SIZE * which).
Definition unquickmap (which : Z) : K (mmu P) unit :=
  pt ← get_page_table_from_idx KERNEL_PDE_IDX;
  raw ← table_get pt which;
  _ ← ASSERT (present raw);
  table_set pt which 0.

(** A store to the table that is mapped at [vaddr]; a frame that was no table
    before becomes one. *)
Definition store_entry (vaddr i raw : Z) : K (mmu P) unit :=
  pt ← paging_virtual_to_physical_addr vaddr;
  modify (λ s, set_tables (<[pt := <[i := raw]> (default ∅ (mm_tables s !! pt))]> (mm_tables s)) s).
(** [memcpy] of one page between virtual addresses. *)
Definition copy_page (dest src : Z) : K (mmu P) unit :=
  d ← paging_virtual_to_physical_addr dest;
  f ← paging_virtual_to_physical_addr src;
  modify (λ s, set_data (<[d := default [] (mm_data s !! f)]> (mm_data s)) s).

(** [n] rounds of the loop over the entries of [src], from entry [i]. *)
Fixpoint clone_loop (n : nat) (i src src_vaddr dest_pt_vaddr : Z) : K (mmu P) (option Z) :=
  match n with
  | O => mret None
  | S n =>
      raw ← table_get src i;
      if negb (present raw) then
        _ ← store_entry dest_pt_vaddr i 0; clone_loop n (i + 1) src src_vaddr dest_pt_vaddr
      else if negb (Z.land raw PAGE_SHARED =? 0) then
        _ ← store_entry dest_pt_vaddr i raw;
        _ ← in_pages (pa_ref (frame_of raw));
        clone_loop n (i + 1) src src_vaddr dest_pt_vaddr
      else
        dest_page_paddr ← in_pages pa_alloc;
        if IS_ERR dest_page_paddr then
          _ ← unquickmap QUICKMAP_PAGE_TABLE; mret (Some dest_page_paddr)
        else
          _ ← store_entry dest_pt_vaddr i (Z.lor dest_page_paddr (flags_of raw));
          dest_page_vaddr ← quickmap QUICKMAP_PAGE dest_page_paddr PAGE_WRITE;
          _ ← copy_page dest_page_vaddr (src_vaddr + PAGE_SIZE * i);
          _ ← unquickmap QUICKMAP_PAGE;
          clone_loop n (i + 1) src src_vaddr dest_pt_vaddr
  end.
Definition clone_page_table (src src_vaddr : Z) : K (mmu P) Z :=
  dest_pt_paddr ← in_pages pa_alloc;
  if IS_ERR dest_pt_paddr then mret dest_pt_paddr
  else
    dest_pt_vaddr ← quickmap QUICKMAP_PAGE_TABLE dest_pt_paddr PAGE_WRITE;
    r ← clone_loop 1024 0 src src_vaddr dest_pt_vaddr;
    match r with
    | Some rc => mret rc
    | None => _ ← unquickmap QUICKMAP_PAGE_TABLE; mret dest_pt_paddr
    end.

(** ** Directories *)
Section directories.
Context (kernel_pd : Z).
(** kaligned_alloc(PAGE_SIZE, sizeof(page_directory)) and kfree *)
Context (kaligned_alloc : K (mmu P) (option Z)) (kfree : Z → K (mmu P) unit).
Context (current : nat).

Fixpoint copy_entries (n : nat) (i from to : Z) : K (mmu P) unit :=
  match n with
  | O => mret tt
  | S n => raw ← dir_get from i; _ ← dir_set to i raw; copy_entries n (i + 1) from to
  end.

Definition paging_create_page_directory : K (mmu P) (ptr_res Z) :=
  dst ← kaligned_alloc;
  match dst with
  | None => mret (ERR_PTR (ERR ENOMEM))
  | Some dst =>
      s ← get;
      _ ← copy_entries (Z.to_nat (1023 - KERNEL_PDE_IDX)) KERNEL_PDE_IDX (current_pd s) dst;
      paddr ← paging_virtual_to_physical_addr dst;
      _ ← dir_set dst 1023 (set_bits 3 paddr);
      mret (PTR dst)
  end.

Fixpoint clone_tables (n : nat) (i dst : Z) : K (mmu P) (option Z) :=
  match n with
  | O => mret None
  | S n =>
      s ← get;
      pde ← dir_get (current_pd s) i;
      if negb (present pde) then _ ← dir_set dst i 0; clone_tables n (i + 1) dst
      else
        pt ← get_page_table_from_idx i;
        cloned_pt_paddr ← clone_page_table pt (i * 4194304);
        if IS_ERR cloned_pt_paddr then mret (Some cloned_pt_paddr)
        else
          pde ← dir_get (current_pd s) i;
          _ ← dir_set dst i (Z.lor cloned_pt_paddr (flags_of pde));
          clone_tables n (i + 1) dst
  end.
Definition paging_clone_current_page_directory : K (mmu P) (ptr_res Z) :=
  dst ← paging_create_page_directory;
  match dst with
  | ERR_PTR rc => mret (ERR_PTR rc)
  | PTR dst =>
      _ ← zoom quickmap_lock set_qlock (mutex_lock true current);
      r ← clone_tables (Z.to_nat KERNEL_PDE_IDX) 0 dst;
      _ ← zoom quickmap_lock set_qlock (mutex_unlock current);
      match r with
      | Some rc => mret (ERR_PTR rc)
      | None => mret (PTR dst)
      end
  end.

(** Loading cr3 (the store to [current->pd] is the process's affair). *)
Definition paging_switch_page_directory (pd : Z) : K (mmu P) unit :=
  paddr ← paging_virtual_to_physical_addr pd;
  _ ← modify (set_pd pd);
  last ← dir_get pd 1023;
  ASSERT (paddr =? frame_of last).

Fixpoint unref_entries (n : nat) (i pt : Z) : K (mmu P) unit :=
  match n with
  | O => mret tt
  | S n =>
      raw ← table_get pt i;
      _ ← when (present raw) (in_pages (pa_unref (frame_of raw)));
      unref_entries n (i + 1) pt
  end.
Fixpoint unref_pages (n : nat) (i : Z) : K (mmu P) unit :=
  match n with
  | O => mret tt
  | S n =>
      s ← get;
      pde ← dir_get (current_pd s) i;
      _ ← when (present pde) (pt ← get_page_table_from_idx i; unref_entries 1024 0 pt);
      unref_pages n (i + 1)
  end.
Fixpoint unref_tables (n : nat) (i pd : Z) : K (mmu P) unit :=
  match n with
  | O => mret tt
  | S n =>
      pde ← dir_get pd i;
      _ ← when (present pde) (in_pages (pa_unref (frame_of pde)));
      unref_tables n (i + 1) pd
  end.
Definition paging_destroy_current_page_directory : K (mmu P) unit :=
  s ← get;
  if current_pd s =? kernel_pd then mret tt
  else
    _ ← unref_pages (Z.to_nat KERNEL_PDE_IDX) 0;
    let pd := current_pd s in
    _ ← paging_switch_page_directory kernel_pd;
    _ ← unref_tables (Z.to_nat KERNEL_PDE_IDX) 0 pd;
    kfree pd.
End directories.
End paging.

(** ** Bits of entries and addresses *)
Lemma land_low_ones x k : 0 ≤ k → Z.land x (Z.ones k) = x mod 2 ^ k.
Proof. apply Z.land_ones. Qed.
Lemma frame_of_div raw : 0 ≤ raw < U32 → frame_of raw = raw / 4096 * 4096.
Proof.
  intros Hr. unfold frame_of. change (u32 (Z.lnot 4095)) with 4294963200.
  change 4096 with (2 ^ 12). rewrite <-Z.shiftr_div_pow2, <-Z.shiftl_mul_pow2 by lia.
  apply Z.bits_inj'. intros j Hj. rewrite Z.land_spec, Z.shiftl_spec by done.
  change 4294963200 with (Z.shiftl (Z.ones 20) 12). rewrite Z.shiftl_spec by done.
  destruct (decide (j < 12)).
  { by rewrite !(Z.testbit_neg_r _ (j - 12)), andb_false_r by lia. }
  rewrite Z.shiftr_spec by lia. replace (j - 12 + 12) with j by lia.
  destruct (decide (j - 12 < 20)).
  - rewrite Z.ones_spec_low by lia. apply andb_true_r.
  - rewrite (testbit_high raw 32) by (unfold U32 in *; lia). done.
Qed.
Lemma flags_of_mod raw : flags_of raw = raw mod 4096.
Proof. unfold flags_of. change 4095 with (Z.ones 12). by rewrite Z.land_ones. Qed.
Lemma lor_bound a b k : 0 ≤ k → 0 ≤ a < 2 ^ k → 0 ≤ b < 2 ^ k → 0 ≤ Z.lor a b < 2 ^ k.
Proof.
  intros Hk Ha Hb. split; [apply Z.lor_nonneg; lia|].
  destruct (decide (Z.lor a b = 0)); [lia|].
  assert (0 < Z.lor a b) by (pose proof (proj2 (Z.lor_nonneg a b)); lia).
  apply Z.log2_lt_pow2; [done|]. rewrite Z.log2_lor by lia.
  destruct (decide (a = 0)) as [->|], (decide (b = 0)) as [->|].
  - done.
  - rewrite Z.max_r by (apply Z.log2_nonneg). apply Z.log2_lt_pow2; lia.
  - rewrite Z.max_l by (apply Z.log2_nonneg). apply Z.log2_lt_pow2; lia.
  - apply Z.max_lub_lt; apply Z.log2_lt_pow2; lia.
Qed.
(** An entry made from a page number and flags. *)
Definition entry (k flags : Z) : Z := k * PAGE_SIZE + Z.lor flags 1.
Lemma make_entry k flags :
  0 ≤ flags < 4096 → set_bits 1 (Z.lor (k * PAGE_SIZE) flags) = entry k flags.
Proof.
  intros Hf. unfold set_bits, entry, PAGE_SIZE. rewrite <-Z.lor_assoc.
  apply (lor_add k 12); [done|]. by apply lor_bound.
Qed.
Lemma set_bits_7 k : set_bits 7 (k * PAGE_SIZE) = entry k 7.
Proof.
  unfold set_bits, entry, PAGE_SIZE. change (Z.lor 7 1) with 7. change 4096 with (2 ^ 12).
  apply lor_add; lia.
Qed.
Lemma entry_range k flags : 0 ≤ k < 1048576 → 0 ≤ flags < 4096 → 0 ≤ entry k flags < U32.
Proof.
  intros. unfold entry, PAGE_SIZE, U32. pose proof (lor_bound flags 1 12). simpl in *. lia.
Qed.
Lemma entry_div k flags : 0 ≤ flags < 4096 → entry k flags / 4096 = k.
Proof.
  intros Hf. unfold entry, PAGE_SIZE. pose proof (lor_bound flags 1 12). simpl in *.
  rewrite Z.div_add_l by done. rewrite Z.div_small by lia. lia.
Qed.
Lemma frame_of_entry k flags :
  0 ≤ k < 1048576 → 0 ≤ flags < 4096 → frame_of (entry k flags) = k * PAGE_SIZE.
Proof. intros. rewrite frame_of_div by (by apply entry_range). by rewrite entry_div. Qed.
Lemma present_entry k flags : 0 ≤ flags < 4096 → present (entry k flags) = true.
Proof.
  intros Hf. rewrite <-make_entry by done. unfold present, set_bits. rewrite Z.lor_spec.
  apply orb_true_r.
Qed.

(** The page of an address, as directory and table index. *)
Definition page_of (vaddr : Z) : Z := vaddr / PAGE_SIZE.
Lemma pd_index_page v : pd_index v = page_of v / 1024.
Proof. unfold pd_index, page_of, PAGE_SIZE. rewrite Z.shiftr_div_pow2, Z.div_div by done. done. Qed.
Lemma pt_index_page v : pt_index v = page_of v mod 1024.
Proof.
  unfold pt_index, page_of, PAGE_SIZE. change 1023 with (Z.ones 10).
  by rewrite Z.land_ones, Z.shiftr_div_pow2.
Qed.
Lemma page_of_indices v w : pd_index v = pd_index w → pt_index v = pt_index w → page_of v = page_of w.
Proof.
  rewrite !pd_index_page, !pt_index_page. intros H1 H2.
  rewrite (Z.div_mod (page_of v) 1024), (Z.div_mod (page_of w) 1024) by done. congruence.
Qed.

(** Addresses below the recursive mapping. *)
Definition TABLES_VADDR : Z := 4290772992.
Definition mappable (v : Z) : Prop := 0 ≤ v < TABLES_VADDR.
Lemma mappable_pd v : mappable v → 0 ≤ pd_index v < 1023.
Proof.
  unfold mappable, TABLES_VADDR. rewrite pd_index_page. unfold page_of, PAGE_SIZE.
  Z.to_euclidean_division_equations; lia.
Qed.

(** ** What an address is mapped to *)
Section proofs.
Context {P : Type} `{PageAlloc P}.
Implicit Types s : mmu P.
#[local] Notation refs s k := (pa_refs (mm_pages s) k).

Definition pte_of s (v : Z) : option Z :=
  d ← mm_dirs s !! current_pd s;
  let pde := aget d (pd_index v) in
  if present pde then t ← mm_tables s !! frame_of pde; Some (aget t (pt_index v)) else None.
(** The raw entry of a mapped address. *)
Definition mapping s (v : Z) : option Z :=
  raw ← pte_of s v; if present raw then Some raw else None.

(** [d] is the current directory, its tables lie in pages that are in use, and
    no table serves two slots. *)
Record dir_inv s (d : array) : Prop := DirInv {
  di_pages : pa_inv (mm_pages s);
  di_dir : mm_dirs s !! current_pd s = Some d;
  di_table i : 0 ≤ i < 1023 → present (aget d i) = true →
    ∃ k, frame_of (aget d i) = k * PAGE_SIZE ∧ pa_page (mm_pages s) k ∧
      0 < refs s k ∧ is_Some (mm_tables s !! (k * PAGE_SIZE));
  di_inj i j : 0 ≤ i < 1023 → 0 ≤ j < 1023 →
    present (aget d i) = true → present (aget d j) = true →
    frame_of (aget d i) = frame_of (aget d j) → i = j;
}.
Definition vm_inv s : Prop := ∃ d, dir_inv s d.

(** Same mappings. *)
Definition same_view s s' : Prop := ∀ v, mappable v → mapping s' v = mapping s v.
(** Pages change hands only from free to used. *)
Definition grows s s' : Prop :=
  (∀ k, pa_page (mm_pages s') k ↔ pa_page (mm_pages s) k) ∧
  (∀ k, 0 < refs s k → refs s' k = refs s k).

Lemma grows_refl s : grows s s.
Proof. done. Qed.
Lemma grows_trans s1 s2 s3 : grows s1 s2 → grows s2 s3 → grows s1 s3.
Proof.
  intros [Hp1 Hr1] [Hp2 Hr2]. split; [naive_solver|].
  intros k Hk. rewrite Hr2; [by apply Hr1|]. by rewrite Hr1.
Qed.

Lemma dir_get_run s pd d i : mm_dirs s !! pd = Some d → dir_get pd i s = Done (aget d i) s.
Proof. intros Hd. unfold dir_get. erewrite bind_run by reflexivity. by rewrite Hd. Qed.
Lemma dir_set_run s pd d i raw :
  mm_dirs s !! pd = Some d →
  dir_set pd i raw s = Done tt (set_dirs (<[pd := <[i := raw]> d]> (mm_dirs s)) s).
Proof. intros Hd. unfold dir_set. erewrite bind_run by reflexivity. by rewrite Hd. Qed.
Lemma table_get_run s pt t i : mm_tables s !! pt = Some t → table_get pt i s = Done (aget t i) s.
Proof. intros Hd. unfold table_get. erewrite bind_run by reflexivity. by rewrite Hd. Qed.
Lemma table_set_run s pt t i raw :
  mm_tables s !! pt = Some t →
  table_set pt i raw s = Done tt (set_tables (<[pt := <[i := raw]> t]> (mm_tables s)) s).
Proof. intros Hd. unfold table_set. erewrite bind_run by reflexivity. by rewrite Hd. Qed.
Lemma page_table_run s d i :
  mm_dirs s !! current_pd s = Some d → i < 1024 →
  get_page_table_from_idx i s = Done (frame_of (aget d i)) s.
Proof.
  intros Hd Hi. unfold get_page_table_from_idx. rewrite (proj2 (Z.ltb_lt _ _)) by done.
  erewrite bind_run by reflexivity. erewrite bind_run by reflexivity.
  by erewrite bind_run by (by apply dir_get_run).
Qed.
Lemma get_pte_run s d v :
  mm_dirs s !! current_pd s = Some d → mappable v →
  get_pte v s = Done (if present (aget d (pd_index v))
                      then Some (frame_of (aget d (pd_index v)), pt_index v) else None) s.
Proof.
  intros Hd Hv%mappable_pd. unfold get_pte. erewrite bind_run by reflexivity.
  erewrite bind_run by (by apply dir_get_run). case_match; [|done].
  erewrite bind_run; [done|]. apply page_table_run; [done|lia].
Qed.
Lemma present_pte_run s v raw :
  mappable v → mapping s v = Some raw →
  ∃ d t, mm_dirs s !! current_pd s = Some d ∧ present (aget d (pd_index v)) = true ∧
    mm_tables s !! frame_of (aget d (pd_index v)) = Some t ∧ aget t (pt_index v) = raw ∧
    present raw = true ∧
    present_pte v s = Done (frame_of (aget d (pd_index v)), pt_index v, raw) s.
Proof.
  unfold mapping, pte_of. intros Hv Hm.
  destruct (mm_dirs s !! current_pd s) as [d|] eqn:Hd; simpl in Hm; [|done].
  destruct (present (aget d (pd_index v))) eqn:Hp; simpl in Hm; [|done].
  destruct (mm_tables s !! frame_of (aget d (pd_index v))) as [t|] eqn:Ht; simpl in Hm; [|done].
  destruct (present (aget t (pt_index v))) eqn:Hr; [|done]. injection Hm as <-.
  exists d, t. split_and!; try done. unfold present_pte.
  erewrite bind_run by (by apply get_pte_run). rewrite Hp.
  erewrite bind_run by (by apply table_get_run). by rewrite Hr.
Qed.

(** Writing one entry of the table behind [v] changes the mapping of its page
    and of no other. *)
Lemma mapping_table_set s d t v raw :
  dir_inv s d → mappable v → present (aget d (pd_index v)) = true →
  mm_tables s !! frame_of (aget d (pd_index v)) = Some t →
  let s' := set_tables (<[frame_of (aget d (pd_index v)) := <[pt_index v := raw]> t]> (mm_tables s)) s in
  dir_inv s' d ∧
  (∀ w, page_of w = page_of v → mapping s' w = if present raw then Some raw else None) ∧
  (∀ w, mappable w → page_of w ≠ page_of v → mapping s' w = mapping s w).
Proof.
  intros Hi Hv Hp Ht s'. split_and!.
  - destruct Hi as [Hpg Hd Htb Hinj]. split; [done|done| |done].
    intros i Hin Hpi. destruct (Htb i Hin Hpi) as (k & Hk & Hpk & Hr & Hs). exists k.
    split_and!; [done..|]. simpl. apply lookup_insert_is_Some'. by right.
  - intros w Hw. assert (pd_index w = pd_index v ∧ pt_index w = pt_index v) as [E1 E2].
    { by rewrite !pd_index_page, !pt_index_page, Hw. }
    unfold mapping, pte_of. simpl. rewrite (di_dir _ _ Hi). simpl. rewrite E1, E2, Hp.
    by rewrite lookup_insert_eq; simpl; rewrite aget_insert.
  - intros w Hw Hne. unfold mapping, pte_of. simpl. rewrite (di_dir _ _ Hi). simpl.
    destruct (present (aget d (pd_index w))) eqn:Hpw; [|done].
    destruct (decide (pd_index w = pd_index v)) as [E|E].
    + rewrite E, lookup_insert_eq, Ht. simpl. rewrite aget_insert_ne; [done|].
      intros E'. apply Hne. by apply page_of_indices.
    + rewrite lookup_insert_ne; [done|]. intros E'. apply E. symmetry.
      apply (di_inj _ _ Hi); [by apply mappable_pd|by apply mappable_pd|done..].
Qed.

(** Getting the table of an address, made on demand: the view stays the same. *)
Lemma get_or_create_pte_spec s v :
  vm_inv s → mappable v →
  wp (get_or_create_pte v) (λ r s', same_view s s' ∧ vm_inv s' ∧ grows s s' ∧
    match r with
    | ERR_PTR rc => rc = ERR ENOMEM
    | PTR (pt, i) => i = pt_index v ∧ ∃ d t, dir_inv s' d ∧
        present (aget d (pd_index v)) = true ∧ pt = frame_of (aget d (pd_index v)) ∧
        mm_tables s' !! pt = Some t ∧
        (mapping s v = None → present (aget t (pt_index v)) = false)
    end) s.
Proof.
  intros [d Hi] Hv. pose proof (mappable_pd v Hv) as Hpd.
  unfold get_or_create_pte, get_or_create_page_table. wp_keep.
  eapply wp_run; [apply dir_get_run, (di_dir _ _ Hi)|]. wp_keep. apply wp_if; intros Hp.
  - wp_keep. eapply wp_run; [apply page_table_run; [apply (di_dir _ _ Hi)|lia]|]. wp_keep.
    destruct (di_table _ _ Hi (pd_index v) Hpd Hp) as (k & Hk & _ & _ & [t Ht]).
    rewrite <-Hk in Ht. split_and!; [done|by exists d|apply grows_refl|done|].
    exists d, t. split_and!; try done. unfold mapping, pte_of.
    rewrite (di_dir _ _ Hi). simpl. rewrite Hp, Ht. simpl. destruct (present (aget t (pt_index v))); naive_solver.
  - wp_keep. unfold in_pages. wp_keep.
    eapply wp_mono; [apply pa_alloc_law, (di_pages _ _ Hi)|]. intros r p' (Hp' & Hpp & Hr).
    wp_keep. eapply wp_run; [apply dir_set_run, (di_dir _ _ Hi)|]. wp_keep.
    destruct Hr as [[-> ->]|(k & -> & Hok & Hpk & Hz & H1 & Hoth)].
    + change (IS_ERR (ERR ENOMEM)) with true. cbv iota. wp_keep.
      set (d' := <[_ := _]> d). set (s' := set_dirs _ _).
      assert (∀ i, present (aget d' i) = present (aget d i) ∧
        (present (aget d i) = true → aget d' i = aget d i)) as Hd'.
      { intros i. unfold d'. destruct (decide (i = pd_index v)) as [->|].
        - rewrite aget_insert, Hp. split; [reflexivity|done].
        - by rewrite aget_insert_ne. }
      assert (dir_inv s' d') as Hi'.
      { split; simpl.
        - done.
        - by rewrite lookup_insert_eq.
        - intros i Hin Hpi. destruct (Hd' i) as [E1 E2]. rewrite E1 in Hpi. rewrite E2 by done.
          by apply (di_table _ _ Hi).
        - intros i j Hin Hjn Hpi Hpj. destruct (Hd' i) as [E1 E2], (Hd' j) as [E3 E4].
          rewrite E1 in Hpi. rewrite E3 in Hpj. rewrite E2, E4 by done. by apply (di_inj _ _ Hi). }
      split_and!; [|by exists d'|done|done].
      intros w Hw. unfold mapping, pte_of. simpl. rewrite lookup_insert_eq, (di_dir _ _ Hi). simpl.
      destruct (Hd' (pd_index w)) as [-> E]. case_match; [|done]. by rewrite E.
    + rewrite Hok. wp_keep. pose proof (pa_page_range _ _ (di_pages _ _ Hi) Hpk) as Hkr.
      eapply wp_run; [apply dir_set_run; cbn [set_dirs mm_dirs]; apply lookup_insert_eq|]. wp_keep.
      rewrite u32_small by (unfold PAGE_SIZE, U32; lia).
      rewrite set_bits_7.
      cbn [set_dirs mm_dirs]. rewrite insert_insert_eq, insert_insert_eq.
      set (d' := <[pd_index v := entry k 7]> d). set (s' := set_dirs _ _).
      eapply wp_run; [apply (page_table_run s' d'); [apply lookup_insert_eq|lia]|].
      assert (aget d' (pd_index v) = entry k 7) as Hdv by (apply aget_insert).
      assert (∀ i, i ≠ pd_index v → aget d' i = aget d i) as Hdo
        by (intros; by apply aget_insert_ne).
      assert (∀ i, 0 ≤ i < 1023 → present (aget d i) = true → frame_of (aget d i) ≠ k * PAGE_SIZE) as Hfresh.
      { intros i Hin Hpi E. destruct (di_table _ _ Hi i Hin Hpi) as (k' & Hk' & _ & Hr' & _).
        rewrite E in Hk'. assert (k' = k) by (unfold PAGE_SIZE in *; lia). subst. lia. }
      wp_keep. rewrite Hdv, frame_of_entry by lia. set (s2 := set_tables _ _).
      assert (dir_inv s2 d') as Hi'.
      { split; simpl.
        - done.
        - by rewrite lookup_insert_eq.
        - intros i Hin Hpi. destruct (decide (i = pd_index v)) as [->|Hiv].
          + exists k. rewrite Hdv, frame_of_entry by lia. rewrite Hpp, H1, lookup_insert_eq. by eauto.
          + rewrite Hdo in * by done. destruct (di_table _ _ Hi i Hin Hpi) as (k' & Hk' & Hpk' & Hr' & Hs').
            exists k'. rewrite Hpp, Hoth by (intros ->; lia).
            split_and!; [done..|]. apply lookup_insert_is_Some'. by right.
        - intros i j Hin Hjn. destruct (decide (i = pd_index v)) as [->|Hiv], (decide (j = pd_index v)) as [->|Hjv];
            rewrite ?Hdv, ?frame_of_entry, ?Hdo by (done || lia); [done|..].
          + intros _ Hpj E. by destruct (Hfresh j Hjn Hpj).
          + intros Hpi _ E. by destruct (Hfresh i Hin Hpi).
          + by apply (di_inj _ _ Hi). }
      split_and!.
      * intros w Hw. unfold mapping, pte_of. simpl. rewrite lookup_insert_eq, (di_dir _ _ Hi). simpl.
        destruct (decide (pd_index w = pd_index v)) as [->|E].
        { rewrite Hdv, present_entry, frame_of_entry, lookup_insert_eq, Hp by lia. simpl.
          by rewrite aget_empty. }
        rewrite Hdo by done. destruct (present (aget d (pd_index w))) eqn:Hpw; [|done].
        rewrite lookup_insert_ne; [done|]. intros E'. symmetry in E'.
        by apply (Hfresh (pd_index w) (mappable_pd w Hw) Hpw).
      * by exists d'.
      * split; [done|]. intros j Hj. simpl. apply Hoth. intros ->. lia.
      * done.
      * exists d', ∅. rewrite Hdv, frame_of_entry by lia. simpl. rewrite lookup_insert_eq.
        split_and!; try done. by apply present_entry.
Qed.

(** A change of reference counts that leaves used pages used. *)
Lemma dir_inv_pages s d p' :
  dir_inv s d → pa_inv p' → (∀ k, pa_page p' k ↔ pa_page (mm_pages s) k) →
  (∀ i k, 0 ≤ i < 1023 → present (aget d i) = true → frame_of (aget d i) = k * PAGE_SIZE →
     0 < pa_refs p' k) →
  dir_inv (set_pages p' s) d.
Proof.
  intros Hi Hp' Hpp Hr. split; simpl; [done|apply (di_dir _ _ Hi)| |apply (di_inj _ _ Hi)].
  intros i Hin Hpi. destruct (di_table _ _ Hi i Hin Hpi) as (k & Hk & Hpk & _ & Hs).
  exists k. rewrite Hpp. split_and!; try done. by eapply Hr.
Qed.
Lemma dir_inv_grows s d p' :
  dir_inv s d → pa_inv p' → grows s (set_pages p' s) → dir_inv (set_pages p' s) d.
Proof.
  intros Hi Hp' [Hpp Hr]. apply dir_inv_pages; try done.
  intros i k Hin Hpi Hk. destruct (di_table _ _ Hi i Hin Hpi) as (k' & Hk' & _ & Hr' & _).
  assert (k' = k) as -> by (unfold PAGE_SIZE in *; lia). rewrite <-(Hr k Hr') in Hr'. done.
Qed.

(** One page mapped to a fresh frame. *)
Definition mapped_fresh s s' (v : Z) (k flags : Z) : Prop :=
  pa_page (mm_pages s) k ∧ refs s k = 0 ∧ refs s' k = 1 ∧
  mapping s' v = Some (entry k flags).
Lemma map_page_to_free_page_spec s v flags :
  vm_inv s → mappable v → 0 ≤ flags < 4096 → mapping s v = None →
  wp (map_page_to_free_page v flags) (λ rc s', vm_inv s' ∧ grows s s' ∧
    (∀ w, mappable w → page_of w ≠ page_of v → mapping s' w = mapping s w) ∧
    ((rc = ERR ENOMEM ∧ same_view s s') ∨
     (rc = 0 ∧ ∃ k, mapped_fresh s s' v k flags))) s.
Proof.
  intros Hinv Hv Hf Hm. unfold map_page_to_free_page. wp_keep.
  eapply wp_mono; [by apply get_or_create_pte_spec|].
  intros [[pt i]|rc] s1 (Hview & Hinv1 & Hg1 & Hr); cbv beta iota; wp_keep.
  2: { split_and!; try done. { intros w Hw _. by apply Hview. } by left. }
  destruct Hr as (-> & d & t & Hi1 & Hpd & -> & Ht & Hfree).
  eapply wp_run; [by apply table_get_run|]. wp_keep.
  apply wp_ASSERT; [by rewrite Hfree|]. wp_keep. unfold in_pages. wp_keep.
  eapply wp_mono; [apply pa_alloc_law, (di_pages _ _ Hi1)|]. intros r p' (Hp' & Hpp & Hr).
  destruct Hr as [[-> ->]|(k & -> & Hok & Hpk & Hz & H1 & Hoth)].
  - change (IS_ERR (ERR ENOMEM)) with true. cbv iota. wp_keep.
    replace (set_pages (mm_pages s1) s1) with s1 by (by destruct s1).
    split_and!; try done. { intros w Hw _. by apply Hview. } by left.
  - rewrite Hok. wp_keep. pose proof (pa_page_range _ _ (di_pages _ _ Hi1) Hpk) as Hkr.
    rewrite make_entry by done. set (s2 := set_pages p' s1).
    assert (grows s1 s2) as Hg2.
    { split; [done|]. intros j Hj. apply Hoth. intros ->. lia. }
    assert (dir_inv s2 d) as Hi2 by (by apply dir_inv_grows).
    eapply wp_run; [by apply (table_set_run s2 _ t)|]. wp_keep.
    destruct (mapping_table_set s2 d t v (entry k flags) Hi2 Hv Hpd Ht) as (Hi3 & Hsame & Hother).
    set (s3 := set_tables _ _) in *.
    assert (grows s s3) as Hg by (by eapply grows_trans).
    split_and!; [by exists d|done| |right; split; [done|exists k; split_and!]].
    + intros w Hw Hne. rewrite Hother by done. by apply Hview.
    + by apply Hg1.
    + destruct (decide (0 < refs s k)) as [Hpos|]; [|].
      * destruct Hg1 as [_ Hg1]. rewrite <-(Hg1 k Hpos) in Hpos. lia.
      * destruct Hinv as [d0 Hi0]. pose proof (pa_refs_range _ k (di_pages _ _ Hi0)). lia.
    + done.
    + by rewrite Hsame, present_entry.
Qed.

Lemma each_page_map_spec flags n k vaddr s :
  vm_inv s → 0 ≤ k → 0 ≤ vaddr → vaddr + (k + Z.of_nat n) * PAGE_SIZE ≤ TABLES_VADDR →
  vaddr mod PAGE_SIZE = 0 → 0 ≤ flags < 4096 →
  (∀ j, k ≤ j < k + Z.of_nat n → mapping s (vaddr + j * PAGE_SIZE) = None) →
  wp (each_page n k (λ offset, map_page_to_free_page (u32 (vaddr + offset)) flags)) (λ rc s',
    vm_inv s' ∧ grows s s' ∧
    (∀ w, mappable w → ¬ (page_of vaddr + k ≤ page_of w < page_of vaddr + k + Z.of_nat n) →
       mapping s' w = mapping s w) ∧
    ∃ frames : list Z, NoDup frames ∧ (length frames ≤ n)%nat ∧
      (rc = 0 ∧ length frames = n ∨ rc = ERR ENOMEM ∧ (length frames < n)%nat) ∧
      (∀ j f, frames !! j = Some f →
         mapped_fresh s s' (vaddr + (k + Z.of_nat j) * PAGE_SIZE) f flags) ∧
      (∀ j, (length frames ≤ j < n)%nat →
         mapping s' (vaddr + (k + Z.of_nat j) * PAGE_SIZE) = None)) s.
Proof.
  intros Hinv Hk Hv Hend Hal Hf. revert k s Hinv Hk Hend.
  induction n as [|n IH]; intros k s Hinv Hk Hend Hun; cbn [each_page].
  { wp_keep. split_and!; try done. exists []. split_and!; [constructor|done|by left|done|simpl; lia]. }
  wp_keep. set (v := vaddr + k * PAGE_SIZE).
  assert (mappable v) as Hmv by (unfold mappable, v, PAGE_SIZE in *; lia).
  assert (∀ j, page_of (vaddr + j * PAGE_SIZE) = page_of vaddr + j) as Hpage.
  { intros j. unfold page_of, PAGE_SIZE. by rewrite Z.div_add. }
  rewrite u32_small by (unfold mappable, TABLES_VADDR, U32 in *; lia).
  eapply wp_mono; [apply map_page_to_free_page_spec; [done|done|done|apply Hun; lia]|].
  intros rc s1 (Hinv1 & Hg1 & Hoth1 & Hr).
  destruct Hr as [[-> Hview]|(-> & f & Hfpg & Hf0 & Hf1 & Hfm)].
  - change (IS_ERR (ERR ENOMEM)) with true. cbv iota. wp_keep. split_and!; try done.
    { intros w Hw _. by apply Hview. }
    exists []. split_and!; [constructor|simpl; lia|right; simpl; split; [done|lia]|done|].
    intros j Hj. simpl in Hj. rewrite Hview; [apply Hun; lia|].
    unfold mappable, PAGE_SIZE in *. lia.
  - change (IS_ERR 0) with false. cbv iota.
    eapply wp_mono; [apply IH; [done|lia|lia|]|].
    { intros j Hj. rewrite Hoth1.
      - apply Hun. lia.
      - unfold mappable, PAGE_SIZE in *. lia.
      - unfold v. rewrite !Hpage. lia. }
    intros rc s2 (Hinv2 & Hg2 & Hoth2 & frames & Hnd & Hlen & Hrc & Hfr & Hrest).
    assert (mapping s2 v = mapping s1 v) as Hv2.
    { apply Hoth2; [done|]. unfold v. rewrite Hpage. lia. }
    split_and!; [done|by eapply grows_trans| |].
    { intros w Hw Hne. rewrite Hoth2; [apply Hoth1; [done|unfold v; rewrite Hpage; lia]|done|lia]. }
    exists (f :: frames). split_and!; simpl.
    + constructor; [|done]. intros [j Hj]%list_elem_of_lookup.
      destruct (Hfr j f Hj) as (_ & Hz0 & _). lia.
    + lia.
    + destruct Hrc as [[-> ->]|[-> ?]]; [by left|right; split; [done|lia]].
    + intros [|j] f' Hj; simpl in Hj.
      * injection Hj as <-. rewrite Z.add_0_r. split_and!; try done.
        { rewrite (proj2 Hg2) by lia. done. }
        fold v. by rewrite Hv2.
      * destruct (Hfr j f' Hj) as (Hpg' & H0' & H1' & Hm').
        replace (k + Z.of_nat (S j)) with (k + 1 + Z.of_nat j) by lia. split_and!; [..|done|done].
        { by apply (proj1 Hg1). }
        destruct (decide (0 < refs s f')) as [Hpos|].
        { rewrite <-(proj2 Hg1 f' Hpos) in Hpos. lia. }
        destruct Hinv as [d0 Hi0]. pose proof (pa_refs_range _ f' (di_pages _ _ Hi0)). lia.
    + intros j Hj. destruct j as [|j]; [lia|].
      replace (k + Z.of_nat (S j)) with (k + 1 + Z.of_nat j) by lia. apply Hrest. lia.
Qed.

Lemma page_count_div size : 0 ≤ size → size + 4095 < U32 → page_count size = Z.to_nat ((size + 4095) / 4096).
Proof.
  intros Hs0 Hs1. unfold page_count, round_up. change (PAGE_SIZE - 1) with 4095.
  fold (frame_of (u32 (size + 4095))). rewrite u32_small by lia. rewrite frame_of_div by lia.
  unfold PAGE_SIZE. by rewrite Z.div_mul.
Qed.

(** C17: mapping an unmapped range to free pages maps a prefix of its pages to
    distinct frames nobody referred to, with the flags asked for; the prefix is
    the whole range exactly when the result is 0, and otherwise the result is
    -ENOMEM and the pages mapped so far stay mapped. No other mapping changes. *)
Theorem paging_map_to_free_pages_spec s vaddr size flags :
  vm_inv s → 0 ≤ vaddr → vaddr mod PAGE_SIZE = 0 → 0 ≤ size → 0 ≤ flags < 4096 →
  let n := Z.to_nat ((size + 4095) / 4096) in
  vaddr + Z.of_nat n * PAGE_SIZE ≤ TABLES_VADDR →
  (∀ j, 0 ≤ j < Z.of_nat n → mapping s (vaddr + j * PAGE_SIZE) = None) →
  wp (paging_map_to_free_pages vaddr size flags) (λ rc s',
    vm_inv s' ∧ grows s s' ∧
    (∀ w, mappable w → ¬ (page_of vaddr ≤ page_of w < page_of vaddr + Z.of_nat n) →
       mapping s' w = mapping s w) ∧
    ∃ frames : list Z, NoDup frames ∧ (length frames ≤ n)%nat ∧
      (rc = 0 ∧ length frames = n ∨ rc = ERR ENOMEM ∧ (length frames < n)%nat) ∧
      (∀ j f, frames !! j = Some f →
         mapped_fresh s s' (vaddr + Z.of_nat j * PAGE_SIZE) f flags) ∧
      (∀ j, (length frames ≤ j < n)%nat →
         mapping s' (vaddr + Z.of_nat j * PAGE_SIZE) = None)) s.
Proof.
  intros Hinv Hv Hal Hs Hf n Hend Hun. unfold paging_map_to_free_pages. wp_keep.
  apply wp_ASSERT; [by rewrite Hal|]. wp_keep.
  rewrite page_count_div; [fold n|done|].
  2: { unfold n, TABLES_VADDR, PAGE_SIZE, U32 in *. Z.to_euclidean_division_equations; lia. }
  eapply wp_mono; [apply (each_page_map_spec flags n 0 vaddr s Hinv); [done|done| |done|done|]|].
  { by rewrite Z.add_0_l. }
  { intros j Hj. apply Hun. lia. }
  intros rc s' (Hi1 & Hg & Ho & frames & Hfs). split_and!; [done|done| |].
  - intros w Hw Hne. apply Ho; [done|rewrite Z.add_0_r; lia].
  - exists frames. naive_solver.
Qed.

(** Unmap_page undoes a mapping: the address is unmapped, the frame it was
    mapped to has one reference less, and no other mapping changes. *)
Lemma unmap_page_spec s v raw k :
  vm_inv s → mappable v → mapping s v = Some raw → frame_of raw = k * PAGE_SIZE →
  pa_page (mm_pages s) k → 0 < refs s k →
  (∀ d i, mm_dirs s !! current_pd s = Some d → present (aget d i) = true →
     frame_of (aget d i) ≠ frame_of raw) →
  wp (unmap_page v) (λ _ s', vm_inv s' ∧
    (∀ w, page_of w = page_of v → mapping s' w = None) ∧
    (∀ w, mappable w → page_of w ≠ page_of v → mapping s' w = mapping s w) ∧
    refs s' k = (if refs s k =? 255 then 255 else refs s k - 1) ∧
    ∀ j, j ≠ k → refs s' j = refs s j) s.
Proof.
  intros [d Hi] Hv Hm Hk Hpk Hr Hnt.
  destruct (present_pte_run s v raw Hv Hm) as (d' & t & Hd' & Hpd & Ht & Hraw & Hpr & Hrun).
  rewrite (di_dir _ _ Hi) in Hd'. injection Hd' as <-.
  unfold unmap_page. wp_keep. eapply wp_run; [exact Hrun|]. cbv beta iota. wp_keep.
  unfold in_pages. wp_keep. rewrite Hk.
  eapply wp_mono; [by apply (pa_unref_law _ k (di_pages _ _ Hi))|].
  intros _ p' (Hp' & Hpp & Hrk & Hro). wp_keep. set (s1 := set_pages p' s).
  assert (dir_inv s1 d) as Hi1.
  { apply dir_inv_pages; try done. intros i j Hin Hpi Hj.
    destruct (di_table _ _ Hi i Hin Hpi) as (j' & Hj' & _ & Hrj & _).
    assert (j' = j) as -> by (unfold PAGE_SIZE in *; lia).
    rewrite Hro; [done|]. intros ->. apply (Hnt d i (di_dir _ _ Hi) Hpi). congruence. }
  eapply wp_run; [by apply (table_set_run s1 _ t)|].
  destruct (mapping_table_set s1 d t v 0 Hi1 Hv Hpd Ht) as (Hi2 & Hsame & Hother).
  split_and!; [by exists d|done|done|done|done].
Qed.
End proofs.

(** ** Witnesses *)

(** A small address space on the machine of PageAllocator: the kernel's table in
    page 300, a user table for 0x400000 in page 301, which maps a private page
    302 and a shared page 303. *)
Definition sample_dir : array := <[768 := entry 300 2]> (<[1 := entry 301 6]> ∅).
Definition sample_table : array := <[0 := entry 302 6]> (<[1 := entry 303 518]> ∅).
Definition sample_vm : mmu pages :=
  Mmu booted {[ 5 := sample_dir ]} (<[300 * PAGE_SIZE := ∅]> {[ 301 * PAGE_SIZE := sample_table ]})
      {[ 302 * PAGE_SIZE := [1; 2; 3] ]} 5 mutex_zero.

Lemma two_entries i a ra b rb :
  present (aget (<[a := ra]> (<[b := rb]> ∅)) i) = true → i = a ∨ i = b.
Proof.
  destruct (decide (i = a)) as [->|]; [by left|]. destruct (decide (i = b)) as [->|]; [by right|].
  rewrite !aget_insert_ne, aget_empty by done. done.
Qed.
Lemma sample_inv : dir_inv sample_vm sample_dir.
Proof.
  split.
  - apply booted_inv.
  - reflexivity.
  - intros i _ [->| ->]%two_entries; [exists 300|exists 301];
      (split_and!; [vm_compute; reflexivity|split; vm_compute; congruence|vm_compute; reflexivity|]);
      eexists; reflexivity.
  - intros i j _ _ [->| ->]%two_entries [->| ->]%two_entries; done.
Qed.

Lemma paging_map_to_free_pages_spec_witness :
  wp (paging_map_to_free_pages 8388608 5000 6) (λ rc s',
    vm_inv s' ∧ grows sample_vm s' ∧
    (∀ w, mappable w → ¬ (page_of 8388608 ≤ page_of w < page_of 8388608 + Z.of_nat 2) →
       mapping s' w = mapping sample_vm w) ∧
    ∃ frames : list Z, NoDup frames ∧ (length frames ≤ 2)%nat ∧
      (rc = 0 ∧ length frames = 2%nat ∨ rc = ERR ENOMEM ∧ (length frames < 2)%nat) ∧
      (∀ j f, frames !! j = Some f →
         mapped_fresh sample_vm s' (8388608 + Z.of_nat j * PAGE_SIZE) f 6) ∧
      (∀ j, (length frames ≤ j < 2)%nat →
         mapping s' (8388608 + Z.of_nat j * PAGE_SIZE) = None)) sample_vm.
Proof.
  apply (paging_map_to_free_pages_spec sample_vm 8388608 5000 6).
  - exists sample_dir. apply sample_inv.
  - lia.
  - reflexivity.
  - lia.
  - lia.
  - vm_compute. congruence.
  - intros j Hj. change (0 ≤ j < 2) in Hj. assert (j = 0 ∨ j = 1) as [->| ->] by lia; reflexivity.
Defined.
Lemma unmap_page_spec_witness :
  wp (unmap_page 4194304) (λ _ s', vm_inv s' ∧
    (∀ w, page_of w = page_of 4194304 → mapping s' w = None) ∧
    (∀ w, mappable w → page_of w ≠ page_of 4194304 → mapping s' w = mapping sample_vm w) ∧
    pa_refs (mm_pages s') 302 = (if pa_refs (mm_pages sample_vm) 302 =? 255 then 255
                                 else pa_refs (mm_pages sample_vm) 302 - 1) ∧
    ∀ j, j ≠ 302 → pa_refs (mm_pages s') j = pa_refs (mm_pages sample_vm) j) sample_vm.
Proof.
  apply (unmap_page_spec sample_vm 4194304 (entry 302 6) 302).
  - exists sample_dir. apply sample_inv.
  - split; vm_compute; congruence.
  - reflexivity.
  - reflexivity.
  - split; vm_compute; congruence.
  - vm_compute. reflexivity.
  - intros d i Hd Hp. change (Some sample_dir = Some d) in Hd. injection Hd as <-.
    apply two_entries in Hp as [->| ->]; vm_compute; congruence.
Defined.
