(* ===== verification/PagingClone.v ===== *)
(** * Cloning an address space (clone_page_table of kernel/memory/paging.c)

    The copy of a page table has the same entries present; private pages are
    copied to fresh frames, pages marked [PAGE_SHARED] are linked, and the
    address space that is copied stays as it was. *)
From S2P Require Import Prelude Errno CString Lock PageAllocator Paging.

Section clone.
Context {P : Type} `{PageAlloc P}.
Implicit Types s : mmu P.
#[local] Notation refs s k := (pa_refs (mm_pages s) k).

(** Entry [i] of the table in frame [f]. *)
Definition tab s (f i : Z) : Z := aget (default ∅ (mm_tables s !! f)) i.
Definition data s (f : Z) : list Z := default [] (mm_data s !! f).

Lemma tab_insert s f t i raw g j :
  mm_tables s !! f = Some t ∨ t = default ∅ (mm_tables s !! f) →
  tab (set_tables (<[f := <[i := raw]> t]> (mm_tables s)) s) g j =
    if bool_decide (g = f ∧ j = i) then raw else tab s g j.
Proof.
  intros Ht. unfold tab. simpl. destruct (decide (g = f)) as [->|].
  - rewrite lookup_insert_eq. simpl. destruct (decide (j = i)) as [->|].
    + by rewrite aget_insert, bool_decide_eq_true_2.
    + rewrite aget_insert_ne, bool_decide_eq_false_2 by naive_solver.
      by destruct Ht as [->| ->].
  - rewrite lookup_insert_ne, bool_decide_eq_false_2 by naive_solver. done.
Qed.
Lemma mapping_tab s d v :
  dir_inv s d → mappable v → present (aget d (pd_index v)) = true →
  mapping s v = let raw := tab s (frame_of (aget d (pd_index v))) (pt_index v) in
                if present raw then Some raw else None.
Proof.
  intros Hi Hv Hp. unfold mapping, pte_of, tab. rewrite (di_dir _ _ Hi). simpl. rewrite Hp.
  destruct (di_table _ _ Hi _ (mappable_pd v Hv) Hp) as (k & -> & _ & _ & [t ->]). done.
Qed.
Lemma virt_run s v raw :
  mappable v → Z.land v 4095 = 0 → mapping s v = Some raw →
  paging_virtual_to_physical_addr v s = Done (frame_of raw) s.
Proof.
  intros Hv Hal Hm. destruct (present_pte_run s v raw Hv Hm) as (d & t & _ & _ & _ & _ & _ & Hrun).
  unfold paging_virtual_to_physical_addr. rewrite (bind_run _ _ _ _ _ Hrun). cbv beta iota.
  by rewrite Hal, Z.lor_0_r.
Qed.

(** A step that writes one table entry. *)
Definition upd_tab s (f i raw : Z) : mmu P :=
  set_tables (<[f := <[i := raw]> (default ∅ (mm_tables s !! f))]> (mm_tables s)) s.
Lemma tab_upd s f i raw g j :
  tab (upd_tab s f i raw) g j = if bool_decide (g = f ∧ j = i) then raw else tab s g j.
Proof. apply tab_insert. by right. Qed.
Lemma dir_inv_upd s d f i raw : dir_inv s d → dir_inv (upd_tab s f i raw) d.
Proof.
  intros [Hpg Hd Htb Hinj]. split; [done|done| |done].
  intros j Hj Hp. destruct (Htb j Hj Hp) as (k & Hk & Hpk & Hr & Hs). exists k.
  split_and!; [done..|]. simpl. apply lookup_insert_is_Some'. by right.
Qed.
Lemma table_set_upd s f i raw :
  is_Some (mm_tables s !! f) → table_set f i raw s = Done tt (upd_tab s f i raw).
Proof.
  intros [t Ht]. rewrite (table_set_run _ _ _ _ _ Ht). unfold upd_tab. by rewrite Ht.
Qed.
Lemma table_get_tab s f i :
  is_Some (mm_tables s !! f) → table_get f i s = Done (tab s f i) s.
Proof. intros [t Ht]. rewrite (table_get_run _ _ _ _ Ht). unfold tab. by rewrite Ht. Qed.

(** The kernel's own table, whose last two entries are the quickmap slots. *)
Context (d : array).
Definition kframe : Z := frame_of (aget d KERNEL_PDE_IDX).
Definition kernel_ok s : Prop := dir_inv s d ∧ present (aget d KERNEL_PDE_IDX) = true.

Lemma ktable_some s : kernel_ok s → is_Some (mm_tables s !! kframe).
Proof.
  intros [Hi Hp]. unfold kframe.
  destruct (di_table _ _ Hi KERNEL_PDE_IDX) as (k & -> & _ & _ & Hs); [by vm_compute|done|done].
Qed.
Lemma ktable_run s : kernel_ok s → get_page_table_from_idx KERNEL_PDE_IDX s = Done kframe s.
Proof. intros [Hi _]. apply page_table_run; [apply (di_dir _ _ Hi)|by vm_compute]. Qed.

Lemma quickmap_run s which k flags :
  kernel_ok s → tab s kframe which = 0 → 0 ≤ flags < 4096 →
  quickmap which (k * PAGE_SIZE) flags s =
    Done (KERNEL_VADDR + PAGE_SIZE * which) (upd_tab s kframe which (entry k flags)).
Proof.
  intros Hk Hz Hf. unfold quickmap. rewrite (bind_run _ _ _ _ _ (ktable_run s Hk)).
  rewrite (bind_run _ _ _ _ _ (table_get_tab s kframe which (ktable_some s Hk))), Hz.
  rewrite Z.eqb_refl. erewrite bind_run by reflexivity. rewrite make_entry by done.
  by rewrite (bind_run _ _ _ _ _ (table_set_upd s kframe which _ (ktable_some s Hk))).
Qed.
Lemma unquickmap_run s which :
  kernel_ok s → present (tab s kframe which) = true →
  unquickmap which s = Done tt (upd_tab s kframe which 0).
Proof.
  intros Hk Hp. unfold unquickmap. rewrite (bind_run _ _ _ _ _ (ktable_run s Hk)).
  rewrite (bind_run _ _ _ _ _ (table_get_tab s kframe which (ktable_some s Hk))), Hp.
  erewrite bind_run by reflexivity. by apply table_set_upd, ktable_some.
Qed.
(** The virtual address of a quickmap slot. *)
Lemma quick_addr which :
  which = QUICKMAP_PAGE ∨ which = QUICKMAP_PAGE_TABLE →
  let v := KERNEL_VADDR + PAGE_SIZE * which in
  mappable v ∧ Z.land v 4095 = 0 ∧ pd_index v = KERNEL_PDE_IDX ∧ pt_index v = which.
Proof. intros [->| ->]; by vm_compute. Qed.
Lemma quick_virt s which k flags :
  kernel_ok s → which = QUICKMAP_PAGE ∨ which = QUICKMAP_PAGE_TABLE →
  tab s kframe which = entry k flags → 0 ≤ k < 1048576 → 0 ≤ flags < 4096 →
  paging_virtual_to_physical_addr (KERNEL_VADDR + PAGE_SIZE * which) s = Done (k * PAGE_SIZE) s.
Proof.
  intros [Hi Hp] Hw Ht Hk Hf. destruct (quick_addr which Hw) as (Hv & Hal & Hpd & Hpt).
  rewrite (virt_run s _ (entry k flags) Hv Hal); [by rewrite frame_of_entry|].
  rewrite (mapping_tab s d _ Hi Hv); [|by rewrite Hpd].
  rewrite Hpd, Hpt. fold kframe. rewrite Ht. cbv zeta. by rewrite present_entry.
Qed.

(** ** The loop over the entries *)
Context (s0 : mmu P) (src_idx : Z).
Definition src : Z := frame_of (aget d src_idx).
Definition src_vaddr : Z := src_idx * 4194304.

(** What a user's table must be: its slot is below the kernel's, and the pages
    behind its entries are pages in use. *)
Record source_ok : Prop := SourceOk {
  so_kernel : kernel_ok s0;
  so_quick1 : tab s0 kframe QUICKMAP_PAGE = 0;
  so_quick2 : tab s0 kframe QUICKMAP_PAGE_TABLE = 0;
  so_idx : 0 ≤ src_idx < KERNEL_PDE_IDX;
  so_present : present (aget d src_idx) = true;
  so_entries i : 0 ≤ i < 1024 → let raw := tab s0 src i in 0 ≤ raw < U32 ∧
    (present raw = true → ∃ k, frame_of raw = k * PAGE_SIZE ∧ pa_page (mm_pages s0) k ∧ 0 < refs s0 k);
}.
Context (Hsrc : source_ok).

Definition shared (raw : Z) : bool := negb (Z.land raw PAGE_SHARED =? 0).
Definition private (raw : Z) : bool := present raw && negb (shared raw).

(** How an entry of the copy relates to the entry of the source. *)
Definition cloned s (raw raw' : Z) : Prop :=
  if negb (present raw) then raw' = 0
  else if shared raw then raw' = raw
  else ∃ k, raw' = k * PAGE_SIZE + flags_of raw ∧ pa_page (mm_pages s0) k ∧
         refs s0 k = 0 ∧ refs s k = 1 ∧ data s (k * PAGE_SIZE) = data s0 (frame_of raw).

(** The state after [i] entries, [dt] being the frame of the copy and [slot]
    what the table's quickmap slot holds. *)
Record progress (dt slot i : Z) s : Prop := Progress {
  pr_dir : dir_inv s d;
  pr_dirs : mm_dirs s = mm_dirs s0;
  pr_pd : current_pd s = current_pd s0;
  pr_pages k : pa_page (mm_pages s) k ↔ pa_page (mm_pages s0) k;
  pr_refs k : 0 < refs s0 k → refs s0 k ≤ refs s k;
  pr_dt : pa_page (mm_pages s0) dt ∧ refs s0 dt = 0 ∧ refs s dt = 1;
  pr_some f : is_Some (mm_tables s0 !! f) → is_Some (mm_tables s !! f);
  pr_tab f j : f ≠ dt * PAGE_SIZE →
    tab s f j = if bool_decide (f = kframe ∧ j = QUICKMAP_PAGE_TABLE) then slot else tab s0 f j;
  pr_done j : 0 ≤ j < i → cloned s (tab s0 src j) (tab s (dt * PAGE_SIZE) j);
  pr_inj j j' : 0 ≤ j < i → 0 ≤ j' < i → private (tab s0 src j) = true →
    private (tab s0 src j') = true →
    frame_of (tab s (dt * PAGE_SIZE) j) = frame_of (tab s (dt * PAGE_SIZE) j') → j = j';
  pr_data k : 0 < refs s0 k → data s (k * PAGE_SIZE) = data s0 (k * PAGE_SIZE);
}.

(** How often page [k] is linked by the first [i] entries of the source. *)
Definition links_page (k j : Z) : bool :=
  present (tab s0 src j) && shared (tab s0 src j) && (frame_of (tab s0 src j) =? k * PAGE_SIZE).
Definition links (k i : Z) : Z := Z.of_nat (length (filter (λ j, links_page k j = true) (seqZ 0 i))).
(** The references after [i] entries: a page in use has one more for each entry
    that links it, up to the 255 that stay; a page that was free has one if it
    holds the copy of the table or of a page of the source, and none otherwise. *)
Record counted (dt i : Z) s : Prop := Counted {
  ct_used k : 0 < refs s0 k → refs s k = Z.min 255 (refs s0 k + links k i);
  ct_fresh k : refs s0 k = 0 → 0 < refs s k → k = dt ∨
    ∃ j, 0 ≤ j < i ∧ private (tab s0 src j) = true ∧ frame_of (tab s (dt * PAGE_SIZE) j) = k * PAGE_SIZE;
}.
Lemma links_next k i : 0 ≤ i → links k (i + 1) = links k i + (if links_page k i then 1 else 0).
Proof.
  intros Hi. unfold links. rewrite seqZ_app by lia. rewrite filter_app, length_app, Z.add_0_l.
  rewrite (seqZ_cons i 1) by lia. change (seqZ (Z.succ i) (Z.pred 1)) with (@nil Z). rewrite filter_cons, filter_nil.
  destruct (links_page k i); [rewrite decide_True by done|rewrite decide_False by done]; simpl; lia.
Qed.
Lemma counted_next dt i s s' raw' :
  counted dt i s → 0 ≤ i →
  (∀ k, 0 < refs s0 k → refs s' k = Z.min 255 (refs s k + (if links_page k i then 1 else 0))) →
  (∀ k, refs s0 k = 0 → 0 < refs s' k →
     0 < refs s k ∨ private (tab s0 src i) = true ∧ frame_of raw' = k * PAGE_SIZE) →
  (∀ j, tab s' (dt * PAGE_SIZE) j = if bool_decide (j = i) then raw' else tab s (dt * PAGE_SIZE) j) →
  counted dt (i + 1) s'.
Proof.
  intros [Hu Hf] Hi Hu' Hf' Htab. split; intros k Hk.
  - rewrite Hu', Hu, links_next by done. case_match; lia.
  - intros Hk'. destruct (Hf' k Hk Hk') as [Hold|[Hp Hr]].
    + destruct (Hf k Hk Hold) as [->|(j & Hj & Hp & Hr)]; [by left|]. right. exists j.
      split_and!; [lia|lia|done|]. rewrite Htab, bool_decide_eq_false_2 by lia. done.
    + right. exists i. split_and!; [lia|lia|done|]. by rewrite Htab, bool_decide_eq_true_2.
Qed.

Lemma used_not_fresh s k k' : 0 < refs s0 k → refs s0 k' = 0 → k * PAGE_SIZE ≠ k' * PAGE_SIZE.
Proof. unfold PAGE_SIZE. intros Hk Hk' E. assert (k = k') as -> by lia. lia. Qed.
Lemma src_frame : ∃ k, src = k * PAGE_SIZE ∧ 0 < refs s0 k ∧ is_Some (mm_tables s0 !! src).
Proof.
  destruct (so_kernel Hsrc) as [Hi _].
  destruct (di_table _ _ Hi src_idx) as (k & Hk & _ & Hr & Hs).
  - pose proof (so_idx Hsrc). change KERNEL_PDE_IDX with 768 in *. lia.
  - apply (so_present Hsrc).
  - exists k. unfold src. rewrite Hk. done.
Qed.
Lemma kframe_used : ∃ k, kframe = k * PAGE_SIZE ∧ 0 < refs s0 k.
Proof.
  destruct (so_kernel Hsrc) as [Hi Hp].
  destruct (di_table _ _ Hi KERNEL_PDE_IDX) as (k & Hk & _ & Hr & _); [by vm_compute|done|].
  exists k. done.
Qed.
Lemma src_kframe : src ≠ kframe.
Proof.
  destruct (so_kernel Hsrc) as [Hi Hp]. pose proof (so_idx Hsrc). intros E.
  apply (di_inj _ _ Hi) in E; [lia| |by vm_compute|apply (so_present Hsrc)|done].
  change KERNEL_PDE_IDX with 768 in *. lia.
Qed.
Lemma pr_refs_zero dt slot i s k : progress dt slot i s → refs s k = 0 → refs s0 k = 0.
Proof.
  intros Hp Hz. destruct (decide (0 < refs s0 k)) as [Hk|].
  - pose proof (pr_refs _ _ _ _ Hp k Hk). lia.
  - pose proof (pa_refs_range _ k (di_pages _ _ (proj1 (so_kernel Hsrc)))). lia.
Qed.
Lemma pr_src dt slot i s j : progress dt slot i s → tab s src j = tab s0 src j.
Proof.
  intros Hp. destruct src_frame as (k & Hk & Hr & _). destruct (pr_dt _ _ _ _ Hp) as (_ & Hz & _).
  rewrite (pr_tab _ _ _ _ Hp) by (rewrite Hk; by apply (used_not_fresh s)).
  rewrite bool_decide_eq_false_2; [done|]. intros [E _]. by apply src_kframe.
Qed.
Lemma pr_kernel dt slot i s : progress dt slot i s → kernel_ok s.
Proof. intros Hp. split; [apply (pr_dir _ _ _ _ Hp)|apply (so_kernel Hsrc)]. Qed.
Lemma kframe_dt dt slot i s : progress dt slot i s → kframe ≠ dt * PAGE_SIZE.
Proof.
  intros Hp. destruct kframe_used as (k & -> & Hr). destruct (pr_dt _ _ _ _ Hp) as (_ & Hz & _).
  by apply (used_not_fresh s).
Qed.
Lemma src_addr i : 0 ≤ i < 1024 →
  let v := src_vaddr + PAGE_SIZE * i in
  mappable v ∧ Z.land v 4095 = 0 ∧ pd_index v = src_idx ∧ pt_index v = i.
Proof.
  intros Hi v. pose proof (so_idx Hsrc). change KERNEL_PDE_IDX with 768 in *.
  assert (page_of v = src_idx * 1024 + i) as Hp.
  { unfold page_of, v, src_vaddr, PAGE_SIZE. Z.to_euclidean_division_equations; lia. }
  split_and!.
  - unfold mappable, v, src_vaddr, PAGE_SIZE, TABLES_VADDR. lia.
  - change 4095 with (Z.ones 12). rewrite Z.land_ones by done.
    unfold v, src_vaddr, PAGE_SIZE. Z.to_euclidean_division_equations; lia.
  - rewrite pd_index_page, Hp. Z.to_euclidean_division_equations; lia.
  - rewrite pt_index_page, Hp. Z.to_euclidean_division_equations; lia.
Qed.

Lemma frame_of_flags k raw :
  0 ≤ k < 1048576 → frame_of (k * PAGE_SIZE + flags_of raw) = k * PAGE_SIZE.
Proof.
  intros Hk. rewrite flags_of_mod. pose proof (Z.mod_pos_bound raw 4096 ltac:(lia)).
  rewrite frame_of_div by (unfold PAGE_SIZE, U32; lia). unfold PAGE_SIZE.
  rewrite Z.div_add_l, (Z.div_small (raw mod 4096)) by lia. lia.
Qed.
Lemma page_bound k : pa_page (mm_pages s0) k → 0 ≤ k < 1048576.
Proof. apply pa_page_range, (di_pages _ _ (proj1 (so_kernel Hsrc))). Qed.

(** What one round has to establish. *)
Lemma progress_next dt slot i s s' raw' :
  progress dt slot i s → 0 ≤ i →
  dir_inv s' d → mm_dirs s' = mm_dirs s → current_pd s' = current_pd s →
  (∀ k, pa_page (mm_pages s') k ↔ pa_page (mm_pages s) k) →
  (∀ k, 0 < refs s k → refs s k ≤ refs s' k ∧ (refs s0 k = 0 → refs s' k = refs s k)) →
  (∀ f, is_Some (mm_tables s !! f) → is_Some (mm_tables s' !! f)) →
  (∀ f j, tab s' f j = if bool_decide (f = dt * PAGE_SIZE ∧ j = i) then raw' else tab s f j) →
  (∀ k, 0 < refs s k → data s' (k * PAGE_SIZE) = data s (k * PAGE_SIZE)) →
  cloned s' (tab s0 src i) raw' →
  (private (tab s0 src i) = true → ∃ k, frame_of raw' = k * PAGE_SIZE ∧ refs s k = 0) →
  progress dt slot (i + 1) s'.
Proof.
  intros Hp Hi0 Hdir Hdirs Hpd Hpages Hrefs Hsome Htab Hdata Hcl Hpriv.
  assert (∀ k, 0 < refs s0 k → 0 < refs s k) as Hpos.
  { intros k Hk. pose proof (pr_refs _ _ _ _ Hp k Hk). lia. }
  assert (∀ j, j ≠ i → tab s' (dt * PAGE_SIZE) j = tab s (dt * PAGE_SIZE) j) as Hold.
  { intros j Hj. rewrite Htab, bool_decide_eq_false_2; naive_solver. }
  assert (tab s' (dt * PAGE_SIZE) i = raw') as Hnew by (by rewrite Htab, bool_decide_eq_true_2).
  assert (∀ j, 0 ≤ j < i → private (tab s0 src j) = true →
    ∃ k, frame_of (tab s (dt * PAGE_SIZE) j) = k * PAGE_SIZE ∧ refs s k = 1) as Hfr.
  { intros j Hj Hpj. pose proof (pr_done _ _ _ _ Hp j Hj) as Hc. unfold cloned in Hc.
    unfold private in Hpj. apply andb_true_iff in Hpj as [Hpr Hs%negb_true_iff].
    rewrite Hpr, Hs in Hc. simpl in Hc. destruct Hc as (k & -> & Hk & _ & H1 & _). exists k.
    split; [|done]. apply frame_of_flags, page_bound, Hk. }
  assert (∀ k k', refs s k = 1 → refs s k' = 0 → k * PAGE_SIZE ≠ k' * PAGE_SIZE) as Hne.
  { unfold PAGE_SIZE. intros k k' Hk Hk' E. assert (k = k') as -> by lia. lia. }
  destruct (pr_dt _ _ _ _ Hp) as (Hdp & Hdz & Hd1).
  split.
  - done.
  - rewrite Hdirs. apply (pr_dirs _ _ _ _ Hp).
  - rewrite Hpd. apply (pr_pd _ _ _ _ Hp).
  - intros k. rewrite Hpages. apply (pr_pages _ _ _ _ Hp).
  - intros k Hk. pose proof (pr_refs _ _ _ _ Hp k Hk). destruct (Hrefs k (Hpos k Hk)). lia.
  - split_and!; [done|done|]. destruct (Hrefs dt ltac:(lia)) as [_ E]. rewrite E; done.
  - intros f Hf. apply Hsome, (pr_some _ _ _ _ Hp), Hf.
  - intros f j Hf. rewrite Htab, bool_decide_eq_false_2 by naive_solver.
    by apply (pr_tab _ _ _ _ Hp).
  - intros j Hj. destruct (decide (j = i)) as [->|Hji]; [by rewrite Hnew|]. rewrite Hold by done.
    pose proof (pr_done _ _ _ _ Hp j ltac:(lia)) as Hc. unfold cloned in *.
    destruct (negb (present (tab s0 src j))); [done|]. destruct (shared (tab s0 src j)); [done|].
    destruct Hc as (k & -> & Hk & Hz & H1 & Hd). exists k.
    destruct (Hrefs k ltac:(lia)) as [_ E]. rewrite E, Hdata by (done || lia). done.
  - intros j j' Hj Hj' Hpj Hpj'.
    destruct (decide (j = i)) as [->|Hji], (decide (j' = i)) as [->|Hji']; [done|..].
    + rewrite Hnew, Hold by done. destruct (Hpriv Hpj) as (k & -> & Hk).
      destruct (Hfr j' ltac:(lia) Hpj') as (k' & -> & Hk'). intros E. by destruct (Hne k' k Hk' Hk).
    + rewrite Hnew, Hold by done. destruct (Hpriv Hpj') as (k & -> & Hk).
      destruct (Hfr j ltac:(lia) Hpj) as (k' & -> & Hk'). intros E. by destruct (Hne k' k Hk' Hk).
    + rewrite !Hold by done. apply (pr_inj _ _ _ _ Hp); (done || lia).
  - intros k Hk. rewrite Hdata by auto. by apply (pr_data _ _ _ _ Hp).
Qed.

Lemma store_run dt i s j raw :
  progress dt (entry dt 2) i s →
  store_entry (KERNEL_VADDR + PAGE_SIZE * QUICKMAP_PAGE_TABLE) j raw s =
    Done tt (upd_tab s (dt * PAGE_SIZE) j raw).
Proof.
  intros Hp. unfold store_entry.
  assert (0 ≤ dt < 1048576) as Hdt by (apply page_bound, (pr_dt _ _ _ _ Hp)).
  erewrite bind_run.
  2: { apply (quick_virt s QUICKMAP_PAGE_TABLE dt 2); [by eapply pr_kernel|by right| |done|done].
       rewrite (pr_tab _ _ _ _ Hp) by (by eapply kframe_dt).
       by rewrite bool_decide_eq_true_2. }
  done.
Qed.
(** A round that copies the entry as it is, or a zero for an absent one. *)
Lemma progress_plain dt i s raw :
  progress dt (entry dt 2) i s → 0 ≤ i → private (tab s0 src i) = false →
  (raw = if present (tab s0 src i) then tab s0 src i else 0) →
  progress dt (entry dt 2) (i + 1) (upd_tab s (dt * PAGE_SIZE) i raw).
Proof.
  intros Hp Hi Hpriv Hraw. eapply (progress_next _ _ _ s _ raw); try done.
  - apply dir_inv_upd, (pr_dir _ _ _ _ Hp).
  - intros f Hf. simpl. apply lookup_insert_is_Some'. by right.
  - intros f j. apply tab_upd.
  - unfold cloned, private in *. subst raw.
    destruct (present (tab s0 src i)), (shared (tab s0 src i)); done.
  - by rewrite Hpriv.
Qed.
Lemma progress_refs dt slot i s p' :
  progress dt slot i s → pa_inv p' → (∀ k, pa_page p' k ↔ pa_page (mm_pages s) k) →
  (∀ k, 0 < refs s k → refs s k ≤ pa_refs p' k ∧ (refs s0 k = 0 → pa_refs p' k = refs s k)) →
  progress dt slot i (set_pages p' s).
Proof.
  intros Hp Hp' Hpp Hr. destruct (pr_dt _ _ _ _ Hp) as (Hdp & Hdz & Hd1).
  split.
  - apply dir_inv_pages; try done; [apply (pr_dir _ _ _ _ Hp)|].
    intros j k Hj Hpj Hk. destruct (di_table _ _ (pr_dir _ _ _ _ Hp) j Hj Hpj) as (k' & Hk' & _ & Hr' & _).
    assert (k' = k) as -> by (unfold PAGE_SIZE in *; lia). destruct (Hr k Hr'). lia.
  - apply (pr_dirs _ _ _ _ Hp).
  - apply (pr_pd _ _ _ _ Hp).
  - intros k. simpl. rewrite Hpp. apply (pr_pages _ _ _ _ Hp).
  - intros k Hk. simpl. pose proof (pr_refs _ _ _ _ Hp k Hk). destruct (Hr k ltac:(lia)). lia.
  - simpl. split_and!; [done|done|]. destruct (Hr dt ltac:(lia)) as [_ E]. rewrite E; done.
  - apply (pr_some _ _ _ _ Hp).
  - apply (pr_tab _ _ _ _ Hp).
  - intros j Hj. pose proof (pr_done _ _ _ _ Hp j Hj) as Hc. unfold cloned in *.
    change (tab (set_pages p' s)) with (tab s).
    destruct (negb (present (tab s0 src j))); [done|]. destruct (shared (tab s0 src j)); [done|].
    destruct Hc as (k & Hk' & Hk & Hz & H1 & Hd). exists k. simpl.
    destruct (Hr k ltac:(lia)) as [_ E]. rewrite E by done. done.
  - apply (pr_inj _ _ _ _ Hp).
  - apply (pr_data _ _ _ _ Hp).
Qed.

(** The three steps that fill a private page through the second slot. *)
Definition page_filled s (k i raw' : Z) (dt : Z) : mmu P :=
  let s2 := upd_tab s (dt * PAGE_SIZE) i raw' in
  let s3 := upd_tab s2 kframe QUICKMAP_PAGE (entry k 2) in
  let s4 := set_data (<[k * PAGE_SIZE := data s3 (frame_of (tab s0 src i))]> (mm_data s3)) s3 in
  upd_tab s4 kframe QUICKMAP_PAGE 0.
Lemma fill_run {A} dt i s k (rest : K (mmu P) A) Q :
  progress dt (entry dt 2) i s → 0 ≤ i < 1024 → private (tab s0 src i) = true →
  pa_page (mm_pages s) k → k ≠ dt →
  wp rest Q (page_filled s k i (Z.lor (k * PAGE_SIZE) (flags_of (tab s0 src i))) dt) →
  wp (_ ← store_entry (KERNEL_VADDR + PAGE_SIZE * QUICKMAP_PAGE_TABLE) i
            (Z.lor (k * PAGE_SIZE) (flags_of (tab s0 src i)));
      dest_page_vaddr ← quickmap QUICKMAP_PAGE (k * PAGE_SIZE) PAGE_WRITE;
      _ ← copy_page dest_page_vaddr (src_vaddr + PAGE_SIZE * i);
      _ ← unquickmap QUICKMAP_PAGE; rest) Q s.
Proof.
  intros Hp Hi Hpriv Hpk Hkd HQ. set (raw := tab s0 src i) in *.
  assert (0 ≤ k < 1048576) as Hk by (apply page_bound; by apply (pr_pages _ _ _ _ Hp)).
  pose proof (kframe_dt _ _ _ _ Hp) as Hkf. pose proof src_kframe as Hsk.
  wp_keep. eapply wp_run; [by eapply store_run|]. wp_keep.
  set (raw' := Z.lor _ _) in *. set (s2 := upd_tab s (dt * PAGE_SIZE) i raw') in *.
  assert (kernel_ok s2) as Hk2.
  { split; [apply dir_inv_upd, (pr_dir _ _ _ _ Hp)|apply (so_kernel Hsrc)]. }
  assert (tab s2 kframe QUICKMAP_PAGE = 0) as Hq.
  { unfold s2. rewrite tab_upd, bool_decide_eq_false_2 by naive_solver.
    rewrite (pr_tab _ _ _ _ Hp) by done. rewrite bool_decide_eq_false_2 by (intros [_ E]; done).
    apply (so_quick1 Hsrc). }
  eapply wp_run; [by apply (quickmap_run s2 QUICKMAP_PAGE k 2)|]. wp_keep.
  set (s3 := upd_tab s2 kframe QUICKMAP_PAGE (entry k 2)) in *.
  assert (kernel_ok s3) as Hk3 by (split; [apply dir_inv_upd, Hk2|apply Hk2]).
  unfold copy_page. wp_keep. eapply wp_run.
  { apply (quick_virt s3 QUICKMAP_PAGE k 2); [done|by left| |done|done].
    unfold s3. by rewrite tab_upd, bool_decide_eq_true_2. }
  wp_keep. destruct (src_addr i Hi) as (Hv & Hal & Hpd & Hpt).
  assert (tab s3 src i = raw) as Ht3.
  { unfold s3, s2. rewrite !tab_upd. destruct src_frame as (ks & Hks & Hrs & _).
    destruct (pr_dt _ _ _ _ Hp) as (_ & Hdz & _).
    rewrite bool_decide_eq_false_2 by naive_solver. rewrite bool_decide_eq_false_2.
    - by eapply pr_src.
    - rewrite Hks. intros [E _]. by apply (used_not_fresh s ks dt). }
  assert (present raw = true) as Hpr by (by apply andb_true_iff in Hpriv as [? _]).
  eapply wp_run.
  { apply (virt_run s3 _ raw Hv Hal). rewrite (mapping_tab s3 d _ (proj1 Hk3) Hv) by
      (rewrite Hpd; apply (so_present Hsrc)).
    rewrite Hpd, Hpt. fold src. rewrite Ht3. cbv zeta. by rewrite Hpr. }
  wp_keep. set (s4 := set_data _ s3).
  assert (kernel_ok s4) as Hk4.
  { split; [|apply (so_kernel Hsrc)]. destruct Hk3 as [[Hpg Hd Htb Hinj] _]. by split. }
  wp_keep. eapply wp_run; [|exact HQ]. apply unquickmap_run; [done|].
  change (tab s4) with (tab s3). unfold s3. rewrite tab_upd, bool_decide_eq_true_2 by done.
  by apply present_entry.
Qed.

Lemma progress_page dt i s p' k :
  progress dt (entry dt 2) i s → 0 ≤ i < 1024 → private (tab s0 src i) = true →
  pa_inv p' → (∀ j, pa_page p' j ↔ pa_page (mm_pages s) j) → pa_page (mm_pages s) k →
  refs s k = 0 → pa_refs p' k = 1 → (∀ j, j ≠ k → pa_refs p' j = refs s j) →
  progress dt (entry dt 2) (i + 1)
    (page_filled (set_pages p' s) k i (Z.lor (k * PAGE_SIZE) (flags_of (tab s0 src i))) dt).
Proof.
  intros Hp Hi Hpriv Hp' Hpp Hpk Hz H1 Hoth. set (raw := tab s0 src i) in *.
  pose proof (kframe_dt _ _ _ _ Hp) as Hkf.
  assert (progress dt (entry dt 2) i (set_pages p' s)) as Hp1.
  { apply progress_refs; try done. intros j Hj. rewrite Hoth by (intros ->; lia). done. }
  assert (Z.lor (k * PAGE_SIZE) (flags_of raw) = k * PAGE_SIZE + flags_of raw) as ->.
  { unfold PAGE_SIZE. rewrite flags_of_mod. change 4096 with (2 ^ 12). apply lor_add; [done|].
    apply Z.mod_pos_bound. done. }
  assert (present raw = true ∧ shared raw = false) as [Hpr Hsh].
  { unfold private in Hpriv. apply andb_true_iff in Hpriv as [? ?%negb_true_iff]. done. }
  assert (0 ≤ k < 1048576) as Hk by (apply page_bound; by apply (pr_pages _ _ _ _ Hp)).
  eapply (progress_next dt _ i s _ (k * PAGE_SIZE + flags_of raw) Hp); [lia|..].
  - apply dir_inv_upd. assert (∀ x dd, dir_inv x d → dir_inv (set_data dd x) d) as Hsd.
    { intros x dd [? ? ? ?]. by split. }
    apply Hsd. do 2 apply dir_inv_upd. apply (pr_dir _ _ _ _ Hp1).
  - done.
  - done.
  - done.
  - intros j Hj. simpl. rewrite Hoth by (intros ->; lia). done.
  - intros f Hf. simpl. apply lookup_insert_is_Some'. right. apply lookup_insert_is_Some'. right.
    apply lookup_insert_is_Some'. by right.
  - intros f j. unfold page_filled. rewrite tab_upd.
    match goal with |- context [tab (set_data ?x ?y)] => change (tab (set_data x y)) with (tab y) end.
    rewrite !tab_upd. change (tab (set_pages p' s)) with (tab s).
    destruct (bool_decide_reflect (f = kframe ∧ j = QUICKMAP_PAGE)) as [[-> ->]|]; [|done].
    rewrite bool_decide_eq_false_2 by naive_solver. rewrite (pr_tab _ _ _ _ Hp) by done.
    rewrite bool_decide_eq_false_2 by (intros [_ E]; done). symmetry. apply (so_quick1 Hsrc).
  - intros j Hj. unfold data at 1. simpl. rewrite lookup_insert_ne; [done|].
    unfold PAGE_SIZE. intros E. assert (j = k) as -> by lia. lia.
  - unfold cloned. fold raw. rewrite Hpr, Hsh. simpl. exists k. split_and!; [done| | |done|].
    + by apply (pr_pages _ _ _ _ Hp).
    + exact (pr_refs_zero _ _ _ _ _ Hp Hz).
    + unfold data at 1. simpl. rewrite lookup_insert_eq. simpl.
      destruct (so_entries Hsrc i Hi) as [_ He]. destruct (He Hpr) as (kr & Hkr & _ & Hrr).
      fold raw in Hkr |- *. rewrite Hkr. exact (pr_data _ _ _ _ Hp kr Hrr).
  - intros _. exists k. split; [by apply frame_of_flags|done].
Qed.

(** The slot of the new table closed again. *)
Lemma progress_close dt i s :
  progress dt (entry dt 2) i s →
  ∃ s', unquickmap QUICKMAP_PAGE_TABLE s = Done tt s' ∧ progress dt 0 i s'.
Proof.
  intros Hp. pose proof (kframe_dt _ _ _ _ Hp) as Hkf. eexists. split.
  { apply unquickmap_run; [by eapply pr_kernel|]. rewrite (pr_tab _ _ _ _ Hp) by done.
    rewrite bool_decide_eq_true_2 by done. by apply present_entry. }
  assert (∀ j, tab (upd_tab s kframe QUICKMAP_PAGE_TABLE 0) (dt * PAGE_SIZE) j = tab s (dt * PAGE_SIZE) j) as Hd.
  { intros j. rewrite tab_upd, bool_decide_eq_false_2 by naive_solver. done. }
  destruct Hp as [Hdir Hdirs Hpd Hpages Hrefs Hdt Hsome Htab Hdone Hinj Hdata]. split; try done.
  - by apply dir_inv_upd.
  - intros f Hf. simpl. apply lookup_insert_is_Some'. right. by apply Hsome.
  - intros f j Hf. rewrite tab_upd. case_bool_decide; [done|]. rewrite Htab by done.
    by rewrite bool_decide_eq_false_2.
  - intros j Hj. rewrite Hd. by apply Hdone.
  - intros j j' Hj Hj'. rewrite !Hd. by apply Hinj.
Qed.
Lemma counted_close dt i s s' :
  progress dt (entry dt 2) i s → counted dt i s → unquickmap QUICKMAP_PAGE_TABLE s = Done tt s' →
  counted dt i s'.
Proof.
  intros Hp [Hu Hf] Hrun. pose proof (kframe_dt _ _ _ _ Hp) as Hkf.
  rewrite unquickmap_run in Hrun.
  2: { by eapply pr_kernel. }
  2: { rewrite (pr_tab _ _ _ _ Hp) by done. rewrite bool_decide_eq_true_2 by done. by apply present_entry. }
  injection Hrun as <-. split; [exact Hu|]. intros k Hk Hk'.
  destruct (Hf k Hk Hk') as [->|(j & Hj & Hpj & Hr)]; [by left|]. right. exists j. split_and!; [lia|lia|done|].
  rewrite tab_upd, bool_decide_eq_false_2 by naive_solver. done.
Qed.
Lemma progress_view dt i s : progress dt 0 i s → same_view s0 s.
Proof.
  intros Hp w Hw. destruct (so_kernel Hsrc) as [Hi0 _]. pose proof (pr_dir _ _ _ _ Hp) as Hi.
  destruct (present (aget d (pd_index w))) eqn:Hpr.
  - rewrite (mapping_tab s d w Hi Hw Hpr), (mapping_tab s0 d w Hi0 Hw Hpr).
    destruct (di_table _ _ Hi0 _ (mappable_pd w Hw) Hpr) as (k & Hk & _ & Hr & _).
    rewrite (pr_tab _ _ _ _ Hp).
    + case_bool_decide as E; [|done]. destruct E as [-> ->]. by rewrite (so_quick2 Hsrc).
    + rewrite Hk. destruct (pr_dt _ _ _ _ Hp) as (_ & Hz & _). by apply (used_not_fresh s).
  - unfold mapping, pte_of. rewrite (di_dir _ _ Hi), (di_dir _ _ Hi0). simpl. by rewrite Hpr.
Qed.

Lemma refs_most s k : dir_inv s d → refs s k ≤ 255.
Proof. intros Hi. by apply (pa_refs_range _ k (di_pages _ _ Hi)). Qed.
Lemma counted_plain dt i s :
  progress dt (entry dt 2) i s → counted dt i s → 0 ≤ i → present (tab s0 src i) = false →
  counted dt (i + 1) (upd_tab s (dt * PAGE_SIZE) i 0).
Proof.
  intros Hp Hc Hi Hpr. apply (counted_next dt i s _ 0 Hc Hi).
  - intros k Hk. unfold links_page. rewrite Hpr. simpl.
    pose proof (refs_most s k (pr_dir _ _ _ _ Hp)). lia.
  - auto.
  - intros j. rewrite tab_upd. by rewrite (bool_decide_ext (_ ∧ j = i) (j = i)) by naive_solver.
Qed.
(** A round that links a page: the entry, then the reference. *)
Lemma linked_next dt i s p' k :
  progress dt (entry dt 2) i s → counted dt i s → 0 ≤ i →
  present (tab s0 src i) = true → shared (tab s0 src i) = true → frame_of (tab s0 src i) = k * PAGE_SIZE →
  0 < refs s0 k → pa_inv p' → (∀ j, pa_page p' j ↔ pa_page (mm_pages s) j) →
  pa_refs p' k = Z.min 255 (refs s k + 1) → (∀ j, j ≠ k → pa_refs p' j = refs s j) →
  let s' := set_pages p' (upd_tab s (dt * PAGE_SIZE) i (tab s0 src i)) in
  progress dt (entry dt 2) (i + 1) s' ∧ counted dt (i + 1) s'.
Proof.
  intros Hp Hc Hi Hpr Hsh Hfr Hr Hp' Hpp Hk Hoth s'.
  assert (progress dt (entry dt 2) (i + 1) (upd_tab s (dt * PAGE_SIZE) i (tab s0 src i))) as Hp1.
  { apply progress_plain; try done; [by unfold private; rewrite Hpr, Hsh|by rewrite Hpr]. }
  pose proof (λ j, pa_refs_range _ j (di_pages _ _ (pr_dir _ _ _ _ Hp))) as Hrange.
  pose proof (pr_refs _ _ _ _ Hp k Hr) as Hr'. split.
  - apply progress_refs; try done. intros j Hj. simpl in Hj. destruct (decide (j = k)) as [->|].
    + rewrite Hk. specialize (Hrange k). simpl. lia.
    + rewrite Hoth by done. done.
  - apply (counted_next dt i s _ (tab s0 src i) Hc Hi).
    + intros j Hj. simpl. unfold links_page. rewrite Hpr, Hsh, Hfr. simpl. specialize (Hrange j).
      destruct (Z.eqb_spec (k * PAGE_SIZE) (j * PAGE_SIZE)) as [E|E].
      * assert (k = j) as -> by (unfold PAGE_SIZE in E; lia). rewrite Hk. lia.
      * rewrite Hoth by (intros ->; done). lia.
    + intros j Hj. simpl. destruct (decide (j = k)) as [->|]; [lia|]. rewrite Hoth by done. auto.
    + intros j. change (tab s') with (tab (upd_tab s (dt * PAGE_SIZE) i (tab s0 src i))).
      rewrite tab_upd. by rewrite (bool_decide_ext (_ ∧ j = i) (j = i)) by naive_solver.
Qed.
Lemma counted_page dt i s p' k :
  progress dt (entry dt 2) i s → counted dt i s → 0 ≤ i < 1024 → private (tab s0 src i) = true →
  pa_page (mm_pages s) k → refs s k = 0 → pa_refs p' k = 1 → (∀ j, j ≠ k → pa_refs p' j = refs s j) →
  counted dt (i + 1)
    (page_filled (set_pages p' s) k i (Z.lor (k * PAGE_SIZE) (flags_of (tab s0 src i))) dt).
Proof.
  intros Hp Hc Hi Hpriv Hpk Hz H1 Hoth. pose proof (kframe_dt _ _ _ _ Hp) as Hkf.
  assert (Z.lor (k * PAGE_SIZE) (flags_of (tab s0 src i)) = k * PAGE_SIZE + flags_of (tab s0 src i)) as ->.
  { unfold PAGE_SIZE. rewrite flags_of_mod. change 4096 with (2 ^ 12). apply lor_add; [done|].
    apply Z.mod_pos_bound. done. }
  assert (0 ≤ k < 1048576) as Hk by (apply page_bound; by apply (pr_pages _ _ _ _ Hp)).
  apply (counted_next dt i s _ (k * PAGE_SIZE + flags_of (tab s0 src i)) Hc); [lia|..].
  - intros j Hj. pose proof (pr_refs _ _ _ _ Hp j Hj). simpl. rewrite Hoth by (intros ->; lia).
    unfold private in Hpriv. apply andb_true_iff in Hpriv as [Hpr Hsh%negb_true_iff].
    unfold links_page. rewrite Hpr, Hsh. simpl. pose proof (refs_most s j (pr_dir _ _ _ _ Hp)). lia.
  - intros j Hj Hj'. simpl in Hj'. destruct (decide (j = k)) as [->|Hjk].
    + right. split; [done|]. by apply frame_of_flags.
    + left. by rewrite Hoth in Hj'.
  - intros j. unfold page_filled. rewrite tab_upd, bool_decide_eq_false_2 by naive_solver.
    match goal with |- context [tab (set_data ?x ?y)] => change (tab (set_data x y)) with (tab y) end.
    rewrite tab_upd, bool_decide_eq_false_2 by naive_solver.
    rewrite tab_upd. by rewrite (bool_decide_ext (_ ∧ j = i) (j = i)) by naive_solver.
Qed.

(** What is left when memory runs out after [i] entries: every page that was
    taken or linked keeps its reference. *)
Definition leaked s : Prop :=
  (∀ k, refs s k = refs s0 k) ∨ ∃ dt i, refs s0 dt = 0 ∧ refs s dt = 1 ∧ 0 ≤ i < 1024 ∧ counted dt i s.
Lemma clone_loop_spec dt n i s :
  progress dt (entry dt 2) i s → counted dt i s → 0 ≤ i → i + Z.of_nat n = 1024 →
  wp (clone_loop n i src src_vaddr (KERNEL_VADDR + PAGE_SIZE * QUICKMAP_PAGE_TABLE)) (λ r s',
    match r with
    | None => progress dt (entry dt 2) 1024 s' ∧ counted dt 1024 s'
    | Some rc => rc = ERR ENOMEM ∧ same_view s0 s' ∧ leaked s'
    end) s.
Proof.
  revert i s. induction n as [|n IH]; intros i s Hp Hcn Hi Hn; cbn [clone_loop].
  { wp_keep. by replace 1024 with i by lia. }
  wp_keep. destruct src_frame as (_ & _ & _ & Hss). apply (pr_some _ _ _ _ Hp) in Hss.
  eapply wp_run; [by apply table_get_tab|]. rewrite (pr_src _ _ _ _ i Hp).
  destruct (present (tab s0 src i)) eqn:Hpr; cbn [negb].
  2: { wp_keep. eapply wp_run; [by eapply store_run|]. apply IH; [|by apply counted_plain|lia|lia].
       apply progress_plain; try done; [by unfold private; rewrite Hpr|by rewrite Hpr]. }
  fold (shared (tab s0 src i)). destruct (shared (tab s0 src i)) eqn:Hsh.
  - wp_keep. eapply wp_run; [by eapply store_run|]. wp_keep. unfold in_pages. wp_keep.
    destruct (so_entries Hsrc i ltac:(lia)) as [_ He]. destruct (He Hpr) as (k & Hfr & Hpk & Hr).
    rewrite Hfr. pose proof (pr_refs _ _ _ _ Hp k Hr) as Hr'.
    eapply wp_mono; [apply (pa_ref_law _ k (di_pages _ _ (pr_dir _ _ _ _ Hp)))|].
    { by apply (pr_pages _ _ _ _ Hp). } { lia. }
    intros _ p' (Hp' & Hpp & Hk & Hoth).
    destruct (linked_next dt i s p' k) as [Hp2 Hc2]; try done. apply IH; [done|done|lia|lia].
  - wp_keep. unfold in_pages. wp_keep.
    eapply wp_mono; [apply pa_alloc_law, (di_pages _ _ (pr_dir _ _ _ _ Hp))|].
    intros r p' (Hp' & Hpp & Hr). destruct Hr as [[-> ->]|(k & -> & Hok & Hpk & Hz & H1 & Hoth)].
    + change (IS_ERR (ERR ENOMEM)) with true. cbv iota. wp_keep.
      replace (set_pages (mm_pages s) s) with s by (by destruct s).
      destruct (progress_close _ _ _ Hp) as (s' & Hrun & Hc). eapply wp_run; [exact Hrun|].
      wp_keep. split_and!; [done|by eapply progress_view|]. right. exists dt, i.
      pose proof (pr_dt _ _ _ _ Hc) as (_ & ? & ?). split_and!; [done|done|lia|lia|].
      by eapply counted_close.
    + rewrite Hok. assert (private (tab s0 src i) = true) as Hpriv.
      { unfold private. by rewrite Hpr, Hsh. }
      assert (progress dt (entry dt 2) i (set_pages p' s)) as Hp1.
      { apply progress_refs; try done. intros j Hj. rewrite Hoth by (intros ->; lia). done. }
      assert (k ≠ dt) as Hkd.
      { destruct (pr_dt _ _ _ _ Hp) as (_ & _ & Hd1). intros ->. lia. }
      apply (fill_run dt i (set_pages p' s) k _ _ Hp1); [lia|done|by apply Hpp|done|].
      apply IH; [apply progress_page; (done || lia)|apply counted_page; (done || lia)|lia|lia].
Qed.

(** C4: cloning a page table keeps every mapping of the running address space.
    It fails only with -ENOMEM; otherwise its result is a fresh frame whose
    table has, entry by entry, nothing where the source has nothing, the same
    entry where the source is marked shared, and elsewhere a fresh private frame
    with the same flags and contents; no two entries get the same fresh frame,
    and the contents of all pages in use are unchanged. The references are exact:
    a page in use gets one for each entry that links it (up to 255, which stays),
    the new table and each copied page have one, and no other page has any.
    After a failure the pages taken and linked so far keep their references. *)
Theorem clone_page_table_spec :
  wp (clone_page_table src src_vaddr) (λ rc s', same_view s0 s' ∧
    ((rc = ERR ENOMEM ∧ leaked s') ∨
     (∃ dt, rc = dt * PAGE_SIZE ∧ pa_page (mm_pages s0) dt ∧ refs s0 dt = 0 ∧ refs s' dt = 1 ∧
        (∀ i, 0 ≤ i < 1024 → cloned s' (tab s0 src i) (tab s' (dt * PAGE_SIZE) i)) ∧
        (∀ i j, 0 ≤ i < 1024 → 0 ≤ j < 1024 →
           private (tab s0 src i) = true → private (tab s0 src j) = true →
           frame_of (tab s' (dt * PAGE_SIZE) i) = frame_of (tab s' (dt * PAGE_SIZE) j) → i = j) ∧
        (∀ k, 0 < refs s0 k → data s' (k * PAGE_SIZE) = data s0 (k * PAGE_SIZE)) ∧
        (∀ k, 0 < refs s0 k → refs s' k = Z.min 255 (refs s0 k + links k 1024)) ∧
        (∀ k, refs s0 k = 0 → 0 < refs s' k → k = dt ∨ ∃ i, 0 ≤ i < 1024 ∧
           private (tab s0 src i) = true ∧ frame_of (tab s' (dt * PAGE_SIZE) i) = k * PAGE_SIZE)))) s0.
Proof.
  destruct (so_kernel Hsrc) as [Hi0 Hkp]. unfold clone_page_table. wp_keep. unfold in_pages. wp_keep.
  eapply wp_mono; [apply pa_alloc_law, (di_pages _ _ Hi0)|]. intros r p' (Hp' & Hpp & Hr).
  destruct Hr as [[-> ->]|(dt & -> & Hok & Hpk & Hz & H1 & Hoth)].
  { change (IS_ERR (ERR ENOMEM)) with true. cbv iota. wp_keep.
    replace (set_pages (mm_pages s0) s0) with s0 by (by destruct s0). split; [done|left].
    split; [done|by left]. }
  rewrite Hok. wp_keep. set (s1 := set_pages p' s0).
  assert (dir_inv s1 d) as Hi1.
  { apply dir_inv_grows; try done. split; [done|]. intros k Hk. apply Hoth. intros ->. lia. }
  eapply wp_run; [apply quickmap_run; [by split|apply (so_quick2 Hsrc)|done]|]. wp_keep.
  eapply wp_mono; [apply (clone_loop_spec dt 1024 0); [| |done|done]|].
  - split; try done.
    + by apply dir_inv_upd.
    + intros k Hk. simpl. rewrite Hoth; [done|]. intros ->. lia.
    + intros f Hf. simpl. apply lookup_insert_is_Some'. by right.
    + intros f j Hf. rewrite tab_upd. done.
    + lia.
    + lia.
  - split; intros k Hk.
    + simpl. rewrite Hoth by (intros ->; lia). change (links k 0) with 0.
      pose proof (pa_refs_range _ k (di_pages _ _ Hi0)). lia.
    + simpl. destruct (decide (k = dt)) as [->|]; [by left|]. rewrite Hoth by done. lia.
  - intros [rc|] s' Hs'; cbv beta iota; wp_keep.
    + destruct Hs' as (-> & Hv & Hl). split; [done|by left].
    + destruct Hs' as [Hs' Hc]. destruct (progress_close _ _ _ Hs') as (s2 & Hrun & Hp2).
      pose proof (counted_close _ _ _ _ Hs' Hc Hrun) as [Hcu Hcf]. eapply wp_run; [exact Hrun|].
      wp_keep. split; [by eapply progress_view|]. right. exists dt.
      destruct (pr_dt _ _ _ _ Hp2) as (? & ? & ?). split_and!; try done; apply Hp2.
Qed.
End clone.

(** ** Witness *)
Lemma sample_source_ok : source_ok sample_dir sample_vm 1.
Proof.
  split.
  - split; [apply sample_inv|reflexivity].
  - reflexivity.
  - reflexivity.
  - split; vm_compute; congruence.
  - reflexivity.
  - intros i Hi. change (tab sample_vm (src sample_dir 1) i) with (aget sample_table i). split.
    + destruct (decide (i = 0)) as [->|]; [split; vm_compute; congruence|].
      destruct (decide (i = 1)) as [->|]; [split; vm_compute; congruence|].
      unfold sample_table. rewrite !aget_insert_ne, aget_empty by congruence. by vm_compute.
    + intros [->| ->]%two_entries; [exists 302|exists 303];
        (split_and!; [vm_compute; reflexivity|split; vm_compute; congruence|vm_compute; reflexivity]).
Qed.
Lemma clone_page_table_spec_witness :
  let src := src sample_dir 1 in
  wp (clone_page_table src (src_vaddr 1)) (λ rc s', same_view sample_vm s' ∧
    ((rc = ERR ENOMEM ∧ leaked sample_dir sample_vm 1 s') ∨
     (∃ dt, rc = dt * PAGE_SIZE ∧ pa_page (mm_pages sample_vm) dt ∧
        pa_refs (mm_pages sample_vm) dt = 0 ∧ pa_refs (mm_pages s') dt = 1 ∧
        (∀ i, 0 ≤ i < 1024 →
           cloned sample_vm s' (tab sample_vm src i) (tab s' (dt * PAGE_SIZE) i)) ∧
        (∀ i j, 0 ≤ i < 1024 → 0 ≤ j < 1024 →
           private (tab sample_vm src i) = true → private (tab sample_vm src j) = true →
           frame_of (tab s' (dt * PAGE_SIZE) i) = frame_of (tab s' (dt * PAGE_SIZE) j) → i = j) ∧
        (∀ k, 0 < pa_refs (mm_pages sample_vm) k →
           data s' (k * PAGE_SIZE) = data sample_vm (k * PAGE_SIZE)) ∧
        (∀ k, 0 < pa_refs (mm_pages sample_vm) k → pa_refs (mm_pages s') k =
           Z.min 255 (pa_refs (mm_pages sample_vm) k + links sample_dir sample_vm 1 k 1024)) ∧
        (∀ k, pa_refs (mm_pages sample_vm) k = 0 → 0 < pa_refs (mm_pages s') k → k = dt ∨
           ∃ i, 0 ≤ i < 1024 ∧ private (tab sample_vm src i) = true ∧
             frame_of (tab s' (dt * PAGE_SIZE) i) = k * PAGE_SIZE)))) sample_vm.
Proof. apply (clone_page_table_spec sample_dir sample_vm 1 sample_source_ok). Defined.
