(* ===== verification/RangeAllocator.v ===== *)
(** * The virtual address allocator (kernel/memory/range_allocator.c)

    The free ranges of an address region form a linked list in address order.
    Each [struct range] lies in the first page of the range it describes, so
    that exactly that page is mapped: moving a list node is copying a mapping.
    The list is modelled by its nodes, (address, size), and the page tables by
    the class [VmOps] of the three functions used, with their laws in [Vm]. *)
From S2P Require Import Prelude Errno CString Lock PageAllocator Paging.

Class VmOps (M : Type) : Type := {
  vm_map_to_free_pages : Z → Z → Z → K M Z;
  vm_copy_mapping : Z → Z → Z → Z → K M Z;
  vm_unmap : Z → Z → K M unit;
}.
#[global] Instance paging_vm_ops {P} `{PageAllocOps P} : VmOps (mmu P) := {|
  vm_map_to_free_pages := paging_map_to_free_pages;
  vm_copy_mapping := paging_copy_mapping;
  vm_unmap := paging_unmap;
|}.

(** [struct range] with its address, and its size in bytes. *)
Definition range : Type := Z * Z.
Definition sizeof_range : Z := 8.

Record range_allocator (M : Type) : Type := RangeAllocator {
  ra_start : Z;
  ra_end : Z;
  ranges : list range;
  ra_lock : mutex;
  ra_vm : M;
}.
Arguments RangeAllocator {M} _ _ _ _ _.
Arguments ra_start {M} _.
Arguments ra_end {M} _.
Arguments ranges {M} _.
Arguments ra_lock {M} _.
Arguments ra_vm {M} _.

(** The loops leave [prev] and [it] at a place of the list: the nodes before it,
    last first, and the nodes from it on. *)
Fixpoint find_fit (size : Z) (prev it : list range) : list range * list range :=
  match it with
  | (a, n) :: rest => if n <? size then find_fit size ((a, n) :: prev) rest else (prev, it)
  | [] => (prev, [])
  end.
Fixpoint find_place (addr : Z) (prev it : list range) : list range * list range :=
  match it with
  | (a, n) :: rest => if a + n <=? addr then find_place addr ((a, n) :: prev) rest else (prev, it)
  | [] => (prev, [])
  end.

Section ops.
Context {M : Type} `{VmOps M} (current : nat).
Implicit Types s : range_allocator M.

Definition set_ranges (l : list range) s : range_allocator M :=
  RangeAllocator (ra_start s) (ra_end s) l (ra_lock s) (ra_vm s).
Definition set_ra_lock (m : mutex) s : range_allocator M :=
  RangeAllocator (ra_start s) (ra_end s) (ranges s) m (ra_vm s).
Definition set_ra_vm (v : M) s : range_allocator M :=
  RangeAllocator (ra_start s) (ra_end s) (ranges s) (ra_lock s) v.
Definition in_vm {A} (m : K M A) : K (range_allocator M) A := zoom ra_vm set_ra_vm m.
Definition lock_ra : K (range_allocator M) unit := zoom ra_lock set_ra_lock (mutex_lock true current).
Definition unlock_ra : K (range_allocator M) unit := zoom ra_lock set_ra_lock (mutex_unlock current).

Definition range_allocator_init (start end_ : Z) : K (range_allocator M) Z :=
  _ ← ASSERT (start mod PAGE_SIZE =? 0);
  _ ← ASSERT (end_ mod PAGE_SIZE =? 0);
  _ ← modify (λ s, RangeAllocator start end_ [] mutex_zero (ra_vm s));
  rc ← in_vm (vm_map_to_free_pages start sizeof_range PAGE_WRITE);
  if IS_ERR rc then mret rc
  else _ ← modify (set_ranges [(start, u32 (end_ - start))]); mret 0.

Definition range_allocator_alloc (size : Z) : K (range_allocator M) Z :=
  s ← get;
  _ ← ASSERT (negb (bool_decide (ranges s = [])));
  let size := round_up size PAGE_SIZE in
  _ ← lock_ra;
  match find_fit size [] (ranges s) with
  | (_, []) => mret (ERR ENOMEM)
  | (prev, (a, n) :: next) =>
      if n =? size then
        _ ← modify (set_ranges (rev_append prev next));
        _ ← in_vm (vm_unmap a sizeof_range);
        _ ← unlock_ra; mret a
      else
        let addr := u32 (a + size) in
        rc ← in_vm (vm_copy_mapping addr a sizeof_range PAGE_WRITE);
        if IS_ERR rc then _ ← unlock_ra; mret rc
        else
          _ ← in_vm (vm_unmap a sizeof_range);
          _ ← modify (set_ranges (rev_append prev ((addr, u32 (n - size)) :: next)));
          _ ← unlock_ra; mret a
  end.

(** The last part of range_allocator_free: a node of its own. *)
Definition insert_range (addr size : Z) (prev it : list range) : K (range_allocator M) Z :=
  _ ← (match prev with (p, n) :: _ => ASSERT (p + n <? addr) | [] => mret tt end);
  _ ← (match it with (a, _) :: _ => ASSERT (addr + size <? a) | [] => mret tt end);
  rc ← in_vm (vm_map_to_free_pages addr sizeof_range PAGE_WRITE);
  if IS_ERR rc then _ ← unlock_ra; mret rc
  else
    _ ← modify (set_ranges (rev_append prev ((addr, size) :: it)));
    _ ← unlock_ra; mret 0.
(** The middle part: joining the range behind. *)
Definition join_next (addr size : Z) (prev it : list range) : K (range_allocator M) Z :=
  match it with
  | (a, n) :: next =>
      if a =? addr + size then
        rc ← in_vm (vm_copy_mapping addr a sizeof_range PAGE_WRITE);
        if IS_ERR rc then _ ← unlock_ra; mret rc
        else
          _ ← in_vm (vm_unmap a sizeof_range);
          _ ← modify (set_ranges (rev_append prev ((addr, u32 (n + size)) :: next)));
          _ ← unlock_ra; mret 0
      else insert_range addr size prev it
  | [] => insert_range addr size prev it
  end.
(** The first part: joining the range before, [(p, pn)]. *)
Definition join_last (size p pn : Z) (prev it : list range) : K (range_allocator M) Z :=
  let pn := u32 (pn + size) in
  match it with
  | (a, n) :: next =>
      if a =? p + pn then
        _ ← modify (set_ranges (rev_append prev ((p, u32 (pn + n)) :: next)));
        _ ← in_vm (vm_unmap a sizeof_range);
        _ ← unlock_ra; mret 0
      else
        _ ← modify (set_ranges (rev_append prev ((p, pn) :: it)));
        _ ← unlock_ra; mret 0
  | [] =>
      _ ← modify (set_ranges (rev_append prev [(p, pn)]));
      _ ← unlock_ra; mret 0
  end.
Definition range_allocator_free (addr size : Z) : K (range_allocator M) Z :=
  _ ← ASSERT (addr mod PAGE_SIZE =? 0);
  s ← get;
  _ ← ASSERT (negb (bool_decide (ranges s = [])));
  let size := round_up size PAGE_SIZE in
  if (addr <? ra_start s) || (ra_end s <? u32 (addr + size)) then mret (ERR EINVAL)
  else
    _ ← lock_ra;
    let '(prev, it) := find_place addr [] (ranges s) in
    match prev with
    | (p, pn) :: prev' =>
        if p + pn =? addr then join_last size p pn prev' it
        else join_next addr size prev it
    | [] => join_next addr size prev it
    end.
End ops.

(** ** The contract of the page tables *)

(** [vm_mapped] holds of the page addresses that are mapped, [vm_range] of those
    the functions accept; mapping can fail for lack of memory and then changes
    nothing. *)
Class Vm (M : Type) `{VmOps M} : Type := {
  vm_ok : M → Prop;
  vm_range : Z → Prop;
  vm_mapped : M → Z → Prop;
  vm_map_law m p : vm_ok m → vm_range p → ¬ vm_mapped m p →
    wp (vm_map_to_free_pages p sizeof_range PAGE_WRITE) (λ rc m', vm_ok m' ∧
      ((rc = 0 ∧ ∀ q, vm_mapped m' q ↔ q = p ∨ vm_mapped m q) ∨
       (rc = ERR ENOMEM ∧ ∀ q, vm_mapped m' q ↔ vm_mapped m q))) m;
  vm_copy_law m p q : vm_ok m → vm_range p → vm_range q → vm_mapped m q → ¬ vm_mapped m p →
    wp (vm_copy_mapping p q sizeof_range PAGE_WRITE) (λ rc m', vm_ok m' ∧
      ((rc = 0 ∧ ∀ r, vm_mapped m' r ↔ r = p ∨ vm_mapped m r) ∨
       (rc = ERR ENOMEM ∧ ∀ r, vm_mapped m' r ↔ vm_mapped m r))) m;
  vm_unmap_law m p : vm_ok m → vm_range p → vm_mapped m p →
    wp (vm_unmap p sizeof_range) (λ _ m', vm_ok m' ∧
      ∀ q, vm_mapped m' q ↔ q ≠ p ∧ vm_mapped m q) m;
}.

(** ** Well-formed lists of ranges: aligned, ascending, never adjacent *)
Fixpoint wf_list (lo hi : Z) (l : list range) : Prop :=
  match l with
  | [] => True
  | (a, n) :: l =>
      lo ≤ a ∧ a mod PAGE_SIZE = 0 ∧ 0 < n ∧ n mod PAGE_SIZE = 0 ∧ a + n ≤ hi ∧
      wf_list (a + n + 1) hi l
  end.
Definition member (p : Z) (l : list range) : Prop := ∃ a n, (a, n) ∈ l ∧ a ≤ p < a + n.
Definition header (p : Z) (l : list range) : Prop := ∃ n, (p, n) ∈ l.
(** Where a further range may start. *)
Definition after (lo : Z) (l : list range) : Z := foldl (λ _ '(a, n), a + n + 1) lo l.

Lemma after_app lo l1 l2 : after lo (l1 ++ l2) = after (after lo l1) l2.
Proof. apply foldl_app. Qed.
Lemma after_snoc lo l a n : after lo (l ++ [(a, n)]) = a + n + 1.
Proof. by rewrite after_app. Qed.
Lemma wf_app lo hi l1 l2 : wf_list lo hi (l1 ++ l2) ↔ wf_list lo hi l1 ∧ wf_list (after lo l1) hi l2.
Proof.
  revert lo. induction l1 as [|[a n] l1 IH]; intros lo; simpl; [tauto|]. rewrite IH. tauto.
Qed.
Lemma wf_mono lo lo' hi l : lo' ≤ lo → wf_list lo hi l → wf_list lo' hi l.
Proof. destruct l as [|[a n] l]; simpl; [done|]. intros ? (?&?). split; [lia|done]. Qed.
Lemma member_nil p : ¬ member p [].
Proof. intros (a & n & H & _). by apply not_elem_of_nil in H. Qed.
Lemma member_cons p a n l : member p ((a, n) :: l) ↔ a ≤ p < a + n ∨ member p l.
Proof.
  split.
  - intros (b & m & [[= -> ->]|H]%elem_of_cons & Hp); [by left|right; by exists b, m].
  - intros [Hp|(b & m & H & Hp)]; [exists a, n|exists b, m]; (split; [|done]); set_solver.
Qed.
Lemma member_app p l1 l2 : member p (l1 ++ l2) ↔ member p l1 ∨ member p l2.
Proof.
  induction l1 as [|[a n] l1 IH]; simpl.
  - split; [by right|]. intros [H|H]; [by apply member_nil in H|done].
  - rewrite !member_cons, IH. tauto.
Qed.
Lemma header_cons p a n l : header p ((a, n) :: l) ↔ p = a ∨ header p l.
Proof.
  split.
  - intros (m & [[= -> ->]|H]%elem_of_cons); [by left|right; by exists m].
  - intros [->|(m & H)]; [exists n|exists m]; set_solver.
Qed.
Lemma header_app p l1 l2 : header p (l1 ++ l2) ↔ header p l1 ∨ header p l2.
Proof.
  split.
  - intros (m & [H|H]%elem_of_app); [left|right]; by exists m.
  - intros [(m & H)|(m & H)]; exists m; set_solver.
Qed.
Lemma header_nil p : ¬ header p [].
Proof. intros (m & H). by apply not_elem_of_nil in H. Qed.

Lemma wf_member lo hi l p : wf_list lo hi l → member p l → lo ≤ p < hi.
Proof.
  revert lo. induction l as [|[a n] l IH]; intros lo; [by intros _ ?%member_nil|].
  rewrite member_cons. simpl. intros (?&?&?&?&?&Hl) [?|Hp]; [lia|]. specialize (IH _ Hl Hp). lia.
Qed.
Lemma wf_member_after lo hi l p : wf_list lo hi l → member p l → p + 1 < after lo l.
Proof.
  revert lo. induction l as [|[a n] l IH] using rev_ind; intros lo; [by intros _ ?%member_nil|].
  rewrite wf_app, member_app, member_cons, after_snoc. simpl.
  intros [Hl (?&?&?&?&?&_)] [Hp|[Hp|Hp]]; [|lia|by apply member_nil in Hp].
  specialize (IH _ Hl Hp). lia.
Qed.
Lemma wf_after lo hi l : wf_list lo hi l → lo ≤ after lo l ≤ Z.max lo (hi + 1).
Proof.
  induction l as [|[a n] l IH] using rev_ind; simpl; [lia|].
  rewrite wf_app, after_snoc. simpl. intros [Hl (?&?&?&?&?&_)]. specialize (IH Hl). lia.
Qed.
Lemma header_member lo hi l p : wf_list lo hi l → header p l → member p l.
Proof.
  intros Hwf (n & H). exists p, n. split; [done|].
  apply list_elem_of_split in H as (l1 & l2 & ->). apply wf_app in Hwf as [_ (?&?&?&_)]. lia.
Qed.
(** A list taken apart at a range: what is before it and behind it is apart from
    it. *)
Lemma wf_split lo hi l1 a n l2 :
  wf_list lo hi (l1 ++ (a, n) :: l2) →
  wf_list lo hi l1 ∧ wf_list (a + n + 1) hi l2 ∧ after lo l1 ≤ a ∧ a mod PAGE_SIZE = 0 ∧
  0 < n ∧ n mod PAGE_SIZE = 0 ∧ lo ≤ a ∧ a + n ≤ hi ∧
  (∀ p, member p l1 → p < a) ∧ (∀ p, member p l2 → a + n < p).
Proof.
  intros [Hl (?&?&?&?&?&Hr)]%wf_app. pose proof (wf_after _ _ _ Hl). split_and!; try done; try lia.
  - intros p Hp%(wf_member_after _ _ _ _ Hl). lia.
  - intros p Hp%(wf_member _ _ _ _ Hr). lia.
Qed.

Lemma find_fit_spec size prev it p i :
  find_fit size prev it = (p, i) →
  ∃ skipped, it = skipped ++ i ∧ rev_append p i = rev_append prev it ∧
    Forall (λ r : range, r.2 < size) skipped ∧
    match i with [] => True | (_, n) :: _ => size ≤ n end ∧ p = rev_append skipped prev.
Proof.
  revert prev. induction it as [|[a n] it IH]; intros prev; simpl.
  { intros [= <- <-]. by exists []. }
  destruct (n <? size) eqn:E; bool_to_prop.
  - intros Hf. destruct (IH _ Hf) as (sk & -> & Hr & HF & Hi & ->).
    exists ((a, n) :: sk). split_and!; [done|done|by constructor|done|done].
  - intros [= <- <-]. exists []. split_and!; try done.
Qed.
Lemma find_place_spec addr prev it p i :
  find_place addr prev it = (p, i) →
  ∃ skipped, it = skipped ++ i ∧ rev_append p i = rev_append prev it ∧
    Forall (λ r : range, r.1 + r.2 ≤ addr) skipped ∧
    match i with [] => True | (a, n) :: _ => addr < a + n end ∧ p = rev_append skipped prev.
Proof.
  revert prev. induction it as [|[a n] it IH]; intros prev; simpl.
  { intros [= <- <-]. by exists []. }
  destruct (a + n <=? addr) eqn:E; bool_to_prop.
  - intros Hf. destruct (IH _ Hf) as (sk & -> & Hr & HF & Hi & ->).
    exists ((a, n) :: sk). split_and!; [done|done|by constructor|done|done].
  - intros [= <- <-]. exists []. split_and!; try done.
Qed.

(** ** Invariant *)
Section proofs.
Context {M : Type} `{Vm M} (current : nat).
Implicit Types s : range_allocator M.

Definition free_at s (p : Z) : Prop := member p (ranges s).
Definition page_at (p : Z) : Prop := p mod PAGE_SIZE = 0.

Record ra_inv s : Prop := RaInv {
  ri_bounds : 0 ≤ ra_start s ∧ ra_end s ≤ TABLES_VADDR;
  ri_wf : wf_list (ra_start s) (ra_end s) (ranges s);
  ri_lock : ra_lock s = mutex_zero;
  ri_vm : vm_ok (ra_vm s);
  ri_range p : page_at p → ra_start s ≤ p < ra_end s → vm_range p;
  ri_mapped p : page_at p → free_at s p → vm_mapped (ra_vm s) p ↔ header p (ranges s);
}.

(** Pages that are not free keep their mapping. *)
Definition others_kept s s' : Prop :=
  ra_start s' = ra_start s ∧ ra_end s' = ra_end s ∧
  ∀ p, page_at p → ¬ free_at s p → vm_mapped (ra_vm s') p ↔ vm_mapped (ra_vm s) p.

Lemma wp_lock_ra s (Q : unit → range_allocator M → Prop) :
  ra_lock s = mutex_zero → Q tt (set_ra_lock (Mutex (Some current) 1 false) s) →
  wp (lock_ra current) Q s.
Proof.
  intros Hl HQ. unfold lock_ra. wp_keep. rewrite Hl.
  eapply wp_mutex_lock; [apply available_zero|done].
Qed.
Lemma wp_unlock_ra s (Q : unit → range_allocator M → Prop) :
  ra_lock s = Mutex (Some current) 1 false → Q tt (set_ra_lock mutex_zero s) →
  wp (unlock_ra current) Q s.
Proof.
  intros Hl HQ. unfold unlock_ra. wp_keep. rewrite Hl.
  eapply (wp_mutex_unlock _ 0); [apply available_zero|]. exact HQ.
Qed.
Lemma round_up_page size :
  0 ≤ size → size + PAGE_SIZE ≤ U32 → round_up size PAGE_SIZE = (size + 4095) / 4096 * PAGE_SIZE.
Proof.
  unfold PAGE_SIZE. intros Hs0 Hs1. unfold round_up. change (4096 - 1) with 4095.
  fold (frame_of (u32 (size + 4095))). rewrite u32_small by lia. by rewrite frame_of_div by lia.
Qed.
Lemma round_up_aligned size :
  0 ≤ size → size + PAGE_SIZE ≤ U32 →
  round_up size PAGE_SIZE mod PAGE_SIZE = 0 ∧ size ≤ round_up size PAGE_SIZE.
Proof.
  intros Hs0 Hs1. rewrite round_up_page by done. split; [by apply Z.mod_mul|].
  unfold PAGE_SIZE. Z.to_euclidean_division_equations; lia.
Qed.
Lemma aligned_add a b : page_at a → page_at b → page_at (a + b).
Proof. unfold page_at, PAGE_SIZE. intros. Z.to_euclidean_division_equations; lia. Qed.
Lemma aligned_sub a b : page_at a → page_at b → page_at (a - b).
Proof. unfold page_at, PAGE_SIZE. intros. Z.to_euclidean_division_equations; lia. Qed.

Lemma rev_append_twice {A} (l k : list A) : rev_append (rev_append l []) k = l ++ k.
Proof. rewrite !rev_append_rev, app_nil_r. by rewrite rev_involutive. Qed.

Lemma rev_append_snoc {A} (l : list A) x : rev_append (l ++ [x]) [] = x :: rev_append l [].
Proof. by rewrite !rev_append_rev, rev_app_distr, !app_nil_r. Qed.

(** What a successful allocation promises. *)
Definition block_taken s s' (n r : Z) : Prop :=
  IS_ERR r = false ∧ page_at r ∧
  (∀ p, r ≤ p < r + n → free_at s p) ∧
  (∀ p, free_at s' p ↔ free_at s p ∧ ¬ (r ≤ p < r + n)) ∧
  (∀ p, page_at p → r ≤ p < r + n → ¬ vm_mapped (ra_vm s') p) ∧
  (∀ x, x ∈ ranges s → n ≤ x.2 → r ≤ x.1).

Lemma take_block s s' skipped a n0 next n tail :
  ra_inv s → ranges s = skipped ++ (a, n0) :: next → 0 < n ≤ n0 → page_at n →
  (tail = next ∧ n = n0 ∨ tail = (a + n, n0 - n) :: next ∧ n < n0) →
  Forall (λ x : range, x.2 < n) skipped →
  ranges s' = skipped ++ tail → ra_start s' = ra_start s → ra_end s' = ra_end s →
  ra_lock s' = mutex_zero → vm_ok (ra_vm s') →
  (∀ q, vm_mapped (ra_vm s') q ↔ q ≠ a ∧ (vm_mapped (ra_vm s) q ∨ n < n0 ∧ q = a + n)) →
  ra_inv s' ∧ others_kept s s' ∧ block_taken s s' n a.
Proof.
  intros Hi Hr Hn Hpn Htail Hsk Hr' Hst Hen Hlk Hok Hmap.
  pose proof (ri_wf s Hi) as Hwf. rewrite Hr in Hwf.
  destruct (wf_split _ _ _ _ _ _ Hwf) as (Hw1 & Hw2 & Haft & Hpa & Hn0 & Hpn0 & Hlo & Hhi & Hb1 & Hb2).
  destruct (ri_bounds s Hi) as [Hs0 He0].
  assert (page_at (a + n)) as Hpan by (by apply aligned_add).
  assert (∀ p, free_at s p ↔ member p skipped ∨ a ≤ p < a + n0 ∨ member p next) as Hfree.
  { intros p. unfold free_at. rewrite Hr, member_app, member_cons. tauto. }
  assert (∀ p, member p tail ↔ a + n ≤ p < a + n0 ∨ member p next) as Hmt.
  { intros p. destruct Htail as [[-> ->]|[-> ?]].
    - split; [by right|]. intros [?|?]; [lia|done].
    - rewrite member_cons. by replace (a + n + (n0 - n)) with (a + n0) by lia. }
  assert (∀ p, header p (skipped ++ tail) ↔
    header p skipped ∨ (n < n0 ∧ p = a + n) ∨ header p next) as Hht.
  { intros p. rewrite header_app. destruct Htail as [[-> ->]|[-> ?]].
    - split; [tauto|]. intros [?|[[? _]|?]]; [by left|lia|by right].
    - rewrite header_cons. tauto. }
  assert (∀ p, free_at s' p ↔ free_at s p ∧ ¬ (a ≤ p < a + n)) as Hfree'.
  { intros p. rewrite Hfree. unfold free_at. rewrite Hr', member_app, Hmt. split.
    - intros [Hm|[?|Hm]]; [|split; [right; left|]; lia|].
      + specialize (Hb1 p Hm). split; [by left|lia].
      + specialize (Hb2 p Hm). split; [by right; right|lia].
    - intros [[?|[?|?]] ?]; [by left|right; left; lia|by right; right]. }
  assert (wf_list (ra_start s) (ra_end s) (skipped ++ tail)) as Hwf'.
  { apply wf_app. split; [done|]. destruct Htail as [[-> ->]|[-> ?]]; simpl.
    - eapply wf_mono; [|exact Hw2]. lia.
    - split_and!; [lia|done|lia|by apply aligned_sub|lia|]. eapply wf_mono; [|exact Hw2]. lia. }
  assert (vm_mapped (ra_vm s) a) as Hma.
  { apply (ri_mapped s Hi); [done|apply Hfree; right; left; lia|].
    rewrite Hr, header_app, header_cons. tauto. }
  split_and!.
  - split; rewrite ?Hst, ?Hen; try done; [by rewrite Hr'|apply (ri_range s Hi)|].
    intros p Hp Hf. rewrite Hmap, Hr', Hht. apply Hfree' in Hf as [Hf Hout].
    rewrite (ri_mapped s Hi p Hp Hf), Hr, header_app, header_cons.
    split; [|intros Hh; split; [intros ->; lia|tauto]].
    intros [Hpa' [[?|[?|?]]|?]]; [by left|done|by right; right|by right; left].
  - split_and!; [done|done|]. intros p Hp Hf. rewrite Hmap. split; [|intros Hm; split; [|by left]].
    + intros [_ [?|[? ->]]]; [done|]. destruct Hf. apply Hfree. right. left. lia.
    + intros ->. apply Hf, Hfree. right. left. lia.
  - split_and!; [|done| |done| |].
    + unfold IS_ERR. rewrite first_ERR, u32_small by (unfold TABLES_VADDR, U32 in *; lia).
      apply Z.leb_gt. unfold TABLES_VADDR in *. lia.
    + intros p Hp. apply Hfree. right. left. lia.
    + intros p Hp Hin. rewrite Hmap. intros [Hne [Hm|[? ->]]]; [|lia].
      apply (ri_mapped s Hi p Hp) in Hm; [|apply Hfree; right; left; lia].
      rewrite Hr, header_app, header_cons in Hm. destruct Hm as [Hm|[?|Hm]]; [|done|].
      * specialize (Hb1 p (header_member _ _ _ _ Hw1 Hm)). lia.
      * specialize (Hb2 p (header_member _ _ _ _ Hw2 Hm)). lia.
    + intros [b m] Hin Hm. simpl in *. rewrite Hr in Hin.
      apply elem_of_app in Hin as [Hin|[[= -> ->]|Hin]%elem_of_cons]; [|lia|].
      * rewrite Forall_forall in Hsk. specialize (Hsk _ Hin). simpl in Hsk. lia.
      * assert (header b next) as Hh by (by exists m).
        specialize (Hb2 b (header_member _ _ _ _ Hw2 Hh)). lia.
Qed.

Lemma range_allocator_alloc_wp s size :
  ra_inv s → ranges s ≠ [] → 0 < size → size + PAGE_SIZE ≤ U32 →
  let n := round_up size PAGE_SIZE in
  wp (range_allocator_alloc current size) (λ r s', others_kept s s' ∧
    ((r = ERR ENOMEM ∧ ranges s' = ranges s ∧
        (ra_inv s' ∨ (Forall (λ x : range, x.2 < n) (ranges s) ∧
                      s' = set_ra_lock (Mutex (Some current) 1 false) s))) ∨
     (ra_inv s' ∧ block_taken s s' n r))) s.
Proof.
  intros Hi Hne Hs0 Hs1 n. destruct (round_up_aligned size) as [Han Hsn]; [lia|done|].
  fold n in Han, Hsn. unfold range_allocator_alloc. wp_keep.
  apply wp_ASSERT; [by rewrite bool_decide_eq_false_2|]. wp_keep.
  apply wp_lock_ra; [apply (ri_lock s Hi)|]. fold n.
  destruct (find_fit n [] (ranges s)) as [prev it] eqn:Ef.
  destruct (find_fit_spec _ _ _ _ _ Ef) as (sk & Hr & _ & Hsk & Hfit & ->).
  destruct it as [|[a n0] next].
  { wp_keep. split; [done|]. left. split_and!; [done|done|]. right. split; [|done].
    by rewrite Hr, app_nil_r. }
  pose proof (ri_wf s Hi) as Hwf. rewrite Hr in Hwf.
  destruct (wf_split _ _ _ _ _ _ Hwf) as (Hw1 & Hw2 & Haft & Hpa & Hn0 & Hpn0 & Hlo & Hhi & Hb1 & Hb2).
  destruct (ri_bounds s Hi) as [Hst He0].
  assert (free_at s a) as Hfa.
  { unfold free_at. rewrite Hr, member_app, member_cons. right. left. lia. }
  assert (vm_mapped (ra_vm s) a) as Hma.
  { apply (ri_mapped s Hi); [done|done|]. rewrite Hr, header_app, header_cons. tauto. }
  assert (vm_range a) as Hra by (apply (ri_range s Hi); [done|lia]).
  apply wp_if; intros E; bool_to_prop.
  - subst n0. wp_keep. unfold in_vm. wp_keep.
    eapply wp_mono; [by apply (vm_unmap_law _ a (ri_vm s Hi))|]. intros _ m' (Hok & Hm').
    wp_keep. apply wp_unlock_ra; [done|]. wp_keep.
    destruct (take_block s (set_ra_lock mutex_zero (set_ra_vm m' (set_ranges
      (rev_append (rev_append sk []) next) (set_ra_lock (Mutex (Some current) 1 false) s))))
      sk a n next n next Hi Hr) as (Hi' & Hk & Hb); simpl; try done;
      try solve [lia|by left|by rewrite rev_append_twice].
    { intros q. rewrite Hm'. simpl. split; [tauto|]. intros [? [?|[? _]]]; [done|lia]. }
    split; [done|]. by right.
  - wp_keep. unfold in_vm. rewrite u32_small by (unfold TABLES_VADDR, U32 in *; lia). wp_keep.
    assert (page_at (a + n)) as Hpan by (by apply aligned_add).
    assert (¬ vm_mapped (ra_vm s) (a + n)) as Hun.
    { intros Hm. apply (ri_mapped s Hi) in Hm; [|done|].
      - rewrite Hr, header_app, header_cons in Hm. destruct Hm as [Hm|[?|Hm]]; [|lia|].
        + specialize (Hb1 _ (header_member _ _ _ _ Hw1 Hm)). lia.
        + specialize (Hb2 _ (header_member _ _ _ _ Hw2 Hm)). lia.
      - unfold free_at. rewrite Hr, member_app, member_cons. right. left. lia. }
    eapply wp_mono; [apply (vm_copy_law _ (a + n) a (ri_vm s Hi)); [|done|done|done]|].
    { apply (ri_range s Hi); [done|lia]. }
    intros rc m1 (Hok1 & [[-> Hm1]|[-> Hm1]]).
    + change (IS_ERR 0) with false. cbv iota. wp_keep.
      assert (vm_mapped m1 a) as Hma1 by (apply Hm1; by right).
      eapply wp_mono; [by apply (vm_unmap_law _ a Hok1)|]. intros _ m' (Hok & Hm').
      wp_keep. apply wp_unlock_ra; [done|]. wp_keep. rewrite u32_small by (unfold TABLES_VADDR, U32 in *; lia).
      destruct (take_block s (set_ra_lock mutex_zero (set_ranges
        (rev_append (rev_append sk []) ((a + n, n0 - n) :: next)) (set_ra_vm m' (set_ra_vm m1
          (set_ra_lock (Mutex (Some current) 1 false) s)))))
        sk a n0 next n ((a + n, n0 - n) :: next) Hi Hr) as (Hi' & Hk & Hb); simpl; try done;
        try solve [lia|right; split; [done|lia]|by rewrite rev_append_twice].
      { intros q. rewrite Hm', Hm1. simpl.
        assert (n < n0) by lia. tauto. }
      split; [done|]. by right.
    + change (IS_ERR (ERR ENOMEM)) with true. cbv iota. wp_keep. apply wp_unlock_ra; [done|]. wp_keep.
      split; [split_and!; [done|done|]; intros p _ _; simpl; by rewrite Hm1|].
      left. split_and!; [done|done|left]. split; try apply Hi; simpl; try done.
      intros p Hp Hf. rewrite Hm1. by apply (ri_mapped s Hi).
Qed.

(** C21: first fit. Allocating from a non-empty list gives the lowest free range
    that is large enough: the block was free, is free no longer, none of its
    pages is mapped, and everything else stays free or in use as it was. When a
    mapping cannot be made nothing changes. When no range is large enough the
    result is -ENOMEM and nothing changes either, except that the lock stays
    locked. *)
Theorem range_allocator_alloc_spec s size :
  ra_inv s → ranges s ≠ [] → 0 < size → size + PAGE_SIZE ≤ U32 →
  let n := round_up size PAGE_SIZE in
  wp (range_allocator_alloc current size) (λ r s', others_kept s s' ∧
    ((r = ERR ENOMEM ∧ ranges s' = ranges s ∧
        (ra_inv s' ∨ (Forall (λ x : range, x.2 < n) (ranges s) ∧
                      s' = set_ra_lock (Mutex (Some current) 1 false) s))) ∨
     (ra_inv s' ∧ block_taken s s' n r))) s.
Proof. apply range_allocator_alloc_wp. Qed.

(** What giving back the block [addr .. addr + n) promises. *)
Definition block_given s s' (addr n : Z) : Prop :=
  (∀ p, free_at s' p ↔ free_at s p ∨ addr ≤ p < addr + n) ∧
  ra_start s' = ra_start s ∧ ra_end s' = ra_end s ∧
  ∀ p, page_at p → ¬ free_at s' p → vm_mapped (ra_vm s') p ↔ vm_mapped (ra_vm s) p.

(** A block in use: none of it is free or mapped. *)
Record block_ok s (addr n : Z) : Prop := BlockOk {
  bo_page : page_at addr;
  bo_size : 0 < n ∧ page_at n;
  bo_bounds : ra_start s ≤ addr ∧ addr + n ≤ ra_end s;
  bo_used p : addr ≤ p < addr + n → ¬ free_at s p;
  bo_unmapped p : page_at p → addr ≤ p < addr + n → ¬ vm_mapped (ra_vm s) p;
}.

(** The last range before the block ends where the block starts. *)
Definition joins (sk : list range) (addr : Z) : Prop := ∃ p k, (p, k) ∈ sk ∧ p + k = addr.

(** The list with the block in it: joined to the range before it ([join1]), to
    the range behind it ([join2]), to both or to none. *)
Lemma give_block s s' addr n sk it l' m' :
  ra_inv s → block_ok s addr n → ranges s = sk ++ it →
  Forall (λ r : range, r.1 + r.2 ≤ addr) sk →
  match it with [] => True | (a, k) :: _ => addr + n ≤ a end →
  s' = RangeAllocator (ra_start s) (ra_end s) l' mutex_zero m' → vm_ok m' →
  wf_list (ra_start s) (ra_end s) l' →
  (∀ q, member q l' ↔ free_at s q ∨ addr ≤ q < addr + n) →
  (∀ q, page_at q → header q l' ↔
     (header q (ranges s) ∧ q ≠ addr + n) ∨
     (q = addr ∧ ¬ joins sk addr)) →
  (∀ q, vm_mapped m' q ↔ (vm_mapped (ra_vm s) q ∧ ¬ (header q (ranges s) ∧ q = addr + n)) ∨
     (q = addr ∧ ¬ joins sk addr)) →
  ra_inv s' ∧ block_given s s' addr n.
Proof.
  intros Hi Hb Hr Hsk Hit -> Hok Hwf Hmem Hhd Hmap.
  pose proof (bo_size _ _ _ Hb) as [Hn _].
  assert (∀ p, member p (ranges s) → ¬ addr ≤ p < addr + n) as Hd.
  { intros p Hp Hin. by apply (bo_used _ _ _ Hb p). }
  split.
  - split; simpl; try done; [apply (ri_bounds s Hi)|apply (ri_range s Hi)|].
    intros p Hp Hf. apply Hmem in Hf. rewrite Hmap, Hhd by done.
    destruct Hf as [Hf|Hin].
    + rewrite (ri_mapped s Hi p Hp Hf). tauto.
    + pose proof (bo_unmapped _ _ _ Hb p Hp Hin) as Hun.
      assert (¬ header p (ranges s)) as Hnh.
      { intros Hh. apply (Hd p); [|done]. eapply header_member; [apply (ri_wf s Hi)|done]. }
      tauto.
  - split_and!; try done. intros p Hp Hf. simpl. rewrite Hmap.
    unfold free_at in Hf. simpl in Hf. rewrite Hmem in Hf. split; [|intros Hm; left; split; [done|]].
    + intros [[? _]|[-> _]]; [done|]. destruct Hf. right. lia.
    + intros [Hh ->]. apply Hf. left. eapply header_member; [apply (ri_wf s Hi)|done].
Qed.

(** Where the search stops: the block lies between the ranges before and from
    that place. *)
Lemma place_facts s addr n sk it :
  ra_inv s → block_ok s addr n → ranges s = sk ++ it →
  Forall (λ r : range, r.1 + r.2 ≤ addr) sk →
  match it with [] => True | (a, k) :: _ => addr < a + k end →
  wf_list (ra_start s) (ra_end s) sk ∧ wf_list (addr + n) (ra_end s) it ∧
  (∀ q, member q sk → q < addr) ∧ (∀ q, member q it → addr + n ≤ q) ∧
  match it with [] => True | (a, k) :: _ => addr + n ≤ a end.
Proof.
  intros Hi Hb Hr Hsk Hit. pose proof (ri_wf s Hi) as Hwf. rewrite Hr in Hwf.
  apply wf_app in Hwf as [Hw1 Hw2]. pose proof (bo_size _ _ _ Hb) as [Hn _].
  assert (match it with [] => True | (a, k) :: _ => addr + n ≤ a end) as Hle.
  { destruct it as [|[a k] next]; [done|]. destruct Hw2 as (?&?&?&_).
    destruct (decide (addr + n ≤ a)); [done|]. destruct (bo_used _ _ _ Hb (Z.max addr a)); [lia|].
    unfold free_at. rewrite Hr, member_app, member_cons. right. left. lia. }
  assert (wf_list (addr + n) (ra_end s) it) as Hw3.
  { destruct it as [|[a k] next]; [done|]. destruct Hw2 as (?&?&?&?&?&?). simpl. done. }
  split_and!; try done.
  - intros q (a & k & Hin & Hq). rewrite Forall_forall in Hsk. specialize (Hsk _ Hin). simpl in Hsk. lia.
  - intros q Hq%(wf_member _ _ _ _ Hw3). lia.
Qed.

(** The block joined to the range behind it, if that is adjacent. *)
Definition right_join (addr n : Z) (it : list range) : Z * list range :=
  match it with
  | (a, k) :: next => if a =? addr + n then (n + k, next) else (n, it)
  | [] => (n, [])
  end.
Lemma right_join_spec s addr n it m rest :
  block_ok s addr n → wf_list (addr + n) (ra_end s) it → right_join addr n it = (m, rest) →
  n ≤ m ∧ page_at m ∧ addr + m ≤ ra_end s ∧ wf_list (addr + m + 1) (ra_end s) rest ∧
  (∀ q, addr ≤ q < addr + m ∨ member q rest ↔ addr ≤ q < addr + n ∨ member q it) ∧
  (∀ q, header q rest ↔ header q it ∧ q ≠ addr + n).
Proof.
  intros Hb Hw Hj. destruct (bo_size _ _ _ Hb) as [Hn Hpn]. destruct (bo_bounds _ _ _ Hb) as [Hlo Hhi].
  destruct it as [|[a k] next]; simpl in Hj.
  { simplify_eq. split_and!; try done. intros q. split; [by intros ?%header_nil|].
    by intros [?%header_nil _]. }
  pose proof Hw as (Hw0&Hpa&Hk&Hpk&Hak&Hw'). destruct (Z.eqb_spec a (addr + n)) as [->|Hne].
  - simplify_eq. split_and!; [lia|by apply aligned_add|lia| | |].
    + by replace (addr + (n + k) + 1) with (addr + n + k + 1) by lia.
    + intros q. rewrite member_cons. replace (addr + (n + k)) with (addr + n + k) by lia.
      split; [|intros [?|[?|?]]; [left; lia|left; lia|by right]].
      intros [Hq|?]; [|by right; right]. destruct (decide (q < addr + n)); [left; lia|right; left; lia].
    + intros q. rewrite header_cons. split; [|tauto]. intros Hh. split; [by right|].
      intros ->. pose proof (wf_member _ _ _ _ Hw' (header_member _ _ _ _ Hw' Hh)). lia.
  - injection Hj as <- <-. split_and!; try done.
    + simpl. split_and!; try done. lia.
    + intros q. split; [|tauto]. intros Hh. split; [done|]. intros ->.
      apply header_cons in Hh as [?|Hh]; [done|].
      pose proof (wf_member _ _ _ _ Hw' (header_member _ _ _ _ Hw' Hh)). lia.
Qed.

(** The result joined to the range before it, if that is adjacent. *)
Lemma left_join_spec s addr n sk it m rest l' :
  ra_inv s → block_ok s addr n → ranges s = sk ++ it →
  Forall (λ r : range, r.1 + r.2 ≤ addr) sk →
  match it with [] => True | (a, k) :: _ => addr < a + k end →
  right_join addr n it = (m, rest) →
  (∃ sk' p pn, sk = sk' ++ [(p, pn)] ∧ p + pn = addr ∧ l' = sk' ++ (p, pn + m) :: rest) ∨
  (¬ joins sk addr ∧ l' = sk ++ (addr, m) :: rest) →
  wf_list (ra_start s) (ra_end s) l' ∧
  (∀ q, member q l' ↔ free_at s q ∨ addr ≤ q < addr + n) ∧
  (∀ q, page_at q → header q l' ↔
     (header q (ranges s) ∧ q ≠ addr + n) ∨ (q = addr ∧ ¬ joins sk addr)).
Proof.
  intros Hi Hb Hr Hsk Hit Hj Hl'.
  destruct (place_facts s addr n sk it Hi Hb Hr Hsk Hit) as (Hw1 & Hw2 & Hb1 & Hb2 & Hle).
  destruct (right_join_spec s addr n it m rest Hb Hw2 Hj) as (Hm & Hpm & Hme & Hw3 & Hmem & Hhd).
  destruct (bo_size _ _ _ Hb) as [Hn Hpn]. destruct (bo_bounds _ _ _ Hb) as [Hlo Hhi].
  pose proof (bo_page _ _ _ Hb) as Hpa. unfold page_at in *.
  assert (∀ q, free_at s q ∨ addr ≤ q < addr + n ↔
    member q sk ∨ addr ≤ q < addr + m ∨ member q rest) as Hall.
  { intros q. unfold free_at. rewrite Hr, member_app. specialize (Hmem q). tauto. }
  assert (∀ q, header q sk → q ≠ addr + n) as Hskn.
  { intros q Hq%(header_member _ _ _ _ Hw1)%Hb1. lia. }
  destruct Hl' as [(sk' & p & pn & -> & Hp & ->)|[Hno ->]].
  - apply wf_app in Hw1 as [Hw1 (Hap & Hpp & Hpn0 & Hppn & _ & _)].
    split_and!.
    + apply wf_app. split; [done|]. simpl. split_and!; [lia|done|lia|by apply aligned_add|lia|].
      by replace (p + (pn + m) + 1) with (addr + m + 1) by lia.
    + intros q. rewrite Hall, !member_app, !member_cons.
      replace (p + (pn + m)) with (addr + m) by lia.
      assert (¬ member q []) by apply member_nil.
      assert (p ≤ q < addr + m ↔ p ≤ q < p + pn ∨ addr ≤ q < addr + m) by lia. tauto.
    + intros q _. assert (joins (sk' ++ [(p, pn)]) addr) as Hjn by (exists p, pn; set_solver).
      rewrite Hr, !header_app, !header_cons, Hhd.
      assert (¬ header q []) by apply header_nil.
      assert (header q sk' ∨ q = p → q ≠ addr + n).
      { intros Hq. apply Hskn. rewrite header_app, header_cons. tauto. }
      tauto.
  - split_and!.
    + apply wf_app. split; [done|]. simpl. split_and!; [|done|lia|done|done|done].
      destruct (last sk) as [[p pn]|] eqn:El.
      * apply last_Some in El as (sk' & ->). rewrite after_snoc.
        assert (p + pn ≠ addr) by (intros E; apply Hno; exists p, pn; set_solver).
        apply Forall_app in Hsk as [_ Hsk]. apply Forall_cons in Hsk as [Hsk _]. simpl in Hsk. lia.
      * apply last_None in El as ->. done.
    + intros q. rewrite Hall, member_app, member_cons. tauto.
    + intros q _. rewrite Hr, !header_app, header_cons, Hhd. specialize (Hskn q). tauto.
Qed.

(** What range_allocator_free promises. *)
Definition freed s (addr n : Z) (r : Z) s' : Prop :=
  (r = 0 ∧ ra_inv s' ∧ block_given s s' addr n) ∨
  (r = ERR ENOMEM ∧ ra_inv s' ∧ ranges s' = ranges s ∧ others_kept s s').

Lemma freed_failed s addr n m' :
  ra_inv s → vm_ok m' → (∀ q, vm_mapped m' q ↔ vm_mapped (ra_vm s) q) →
  freed s addr n (ERR ENOMEM) (set_ra_lock mutex_zero (set_ra_vm m' (set_ra_lock (Mutex (Some current) 1 false) s))).
Proof.
  intros Hi Hok Hm. right. split_and!; try done.
  split; simpl; try done; try apply Hi. intros p Hp Hf. rewrite Hm. by apply (ri_mapped s Hi).
Qed.

(** The block is not adjacent to the range before it. *)
Lemma join_next_spec s addr n sk it :
  ra_inv s → block_ok s addr n → ranges s = sk ++ it →
  Forall (λ r : range, r.1 + r.2 ≤ addr) sk →
  match it with [] => True | (a, k) :: _ => addr < a + k end →
  ¬ joins sk addr →
  wp (join_next current addr n (rev_append sk []) it) (freed s addr n)
     (set_ra_lock (Mutex (Some current) 1 false) s).
Proof.
  intros Hi Hb Hr Hsk Hit Hno. set (s1 := set_ra_lock _ s).
  destruct (right_join addr n it) as [m rest] eqn:Hj.
  destruct (left_join_spec s addr n sk it m rest _ Hi Hb Hr Hsk Hit Hj (or_intror (conj Hno eq_refl)))
    as (Hwf & Hmem & Hhd).
  destruct (place_facts s addr n sk it Hi Hb Hr Hsk Hit) as (Hw1 & Hw2 & Hb1 & Hb2 & Hle).
  destruct (bo_size _ _ _ Hb) as [Hn Hpn]. destruct (bo_bounds _ _ _ Hb) as [Hlo Hhi].
  destruct (ri_bounds s Hi) as [Hst Hen]. pose proof (bo_page _ _ _ Hb) as Hpa.
  assert (vm_range addr) as Hra by (apply (ri_range s Hi); [done|lia]).
  assert (¬ vm_mapped (ra_vm s) addr) as Hun by (apply (bo_unmapped _ _ _ Hb); [done|lia]).
  (* the range behind is not adjacent *)
  assert (right_join addr n it = (n, it) → match it with [] => True | (a, _) :: _ => a ≠ addr + n end →
    wp (insert_range current addr n (rev_append sk []) it) (freed s addr n) s1) as Hins.
  { intros Hj' Hne. rewrite Hj in Hj'. injection Hj' as -> ->. unfold insert_range. wp_keep.
    apply (wp_mono _ (λ _ s', s' = s1)).
    { destruct sk as [|[p pn] sk'] using rev_ind; [done|]. rewrite rev_append_rev, rev_app_distr. simpl.
      apply wp_ASSERT; [|done]. apply Z.ltb_lt.
      apply Forall_app in Hsk as [_ Hsk]. apply Forall_cons in Hsk as [Hsk _]. simpl in Hsk.
      assert (p + pn ≠ addr); [|lia]. intros E. apply Hno. exists p, pn. set_solver. }
    intros _ ? ->. wp_keep. apply (wp_mono _ (λ _ s', s' = s1)).
    { destruct it as [|[a k] next]; [done|]. apply wp_ASSERT; [apply Z.ltb_lt; lia|done]. }
    intros _ ? ->. wp_keep. unfold in_vm. wp_keep.
    eapply wp_mono; [by apply (vm_map_law _ addr (ri_vm s Hi))|].
    intros rc m' (Hok & [[-> Hm]|[-> Hm]]).
    - change (IS_ERR 0) with false. cbv iota. wp_keep. apply wp_unlock_ra; [done|]. wp_keep. left.
      split; [done|]. apply (λ s' E X, give_block s s' addr n sk it _ m' Hi Hb Hr Hsk Hle E Hok Hwf Hmem Hhd X).
      { rewrite rev_append_twice. done. }
      intros q. rewrite Hm. split.
      + intros [->|Hq]; [by right|]. left. split; [done|]. intros [Hh ->].
        rewrite Hr, header_app in Hh. destruct Hh as [Hh|Hh].
        * specialize (Hb1 _ (header_member _ _ _ _ Hw1 Hh)). lia.
        * destruct it as [|[a k] next]; [by apply header_nil in Hh|].
          apply header_cons in Hh as [?|Hh]; [done|]. destruct Hw2 as (?&?&?&?&?&Hw2).
          pose proof (wf_member _ _ _ _ Hw2 (header_member _ _ _ _ Hw2 Hh)). lia.
      + tauto.
    - change (IS_ERR (ERR ENOMEM)) with true. cbv iota. wp_keep. apply wp_unlock_ra; [done|]. wp_keep.
      by apply freed_failed. }
  unfold join_next. destruct it as [|[a k] next]; [by apply Hins|].
  cbn [right_join] in Hj, Hins. destruct (Z.eqb_spec a (addr + n)) as [->|Hne]; [|by apply Hins].
  injection Hj as <- <-. destruct Hw2 as (Hx0&Hpan&Hk&Hpk&Hak&Hw2').
  assert (vm_range (addr + n)) as Hran by (apply (ri_range s Hi); [done|lia]).
  assert (vm_mapped (ra_vm s) (addr + n)) as Hman.
  { apply (ri_mapped s Hi); [done| |rewrite Hr, header_app, header_cons; tauto].
    unfold free_at. rewrite Hr, member_app, member_cons. right. left. lia. }
  wp_keep. unfold in_vm. wp_keep.
  eapply wp_mono; [by apply (vm_copy_law _ addr (addr + n) (ri_vm s Hi))|].
  intros rc m1 (Hok1 & [[-> Hm1]|[-> Hm1]]).
  - change (IS_ERR 0) with false. cbv iota. wp_keep.
    assert (vm_mapped m1 (addr + n)) as Hman1 by (apply Hm1; by right).
    eapply wp_mono; [by apply (vm_unmap_law _ (addr + n) Hok1)|]. intros _ m' (Hok & Hm').
    wp_keep. apply wp_unlock_ra; [done|]. wp_keep. left.
    split; [done|]. apply (λ s' E X, give_block s s' addr n sk ((addr + n, k) :: next) _ m' Hi Hb Hr Hsk Hle E Hok Hwf Hmem Hhd X).
    { rewrite rev_append_twice, u32_small by (unfold TABLES_VADDR, U32 in *; lia).
      by rewrite (Z.add_comm k n). }
    intros q. rewrite Hm', Hm1. split.
    + intros [Hq [->|Hmq]]; [by right|]. left. split; [done|]. by intros [_ ?].
    + intros [[Hq Hnq]|[-> _]]; [|split; [lia|by left]]. split; [|by right].
      intros ->. apply Hnq. split; [|done]. rewrite Hr, header_app, header_cons. tauto.
  - change (IS_ERR (ERR ENOMEM)) with true. cbv iota. wp_keep. apply wp_unlock_ra; [done|]. wp_keep.
    by apply freed_failed.
Qed.

(** No header lies at the end of a block that nothing adjoins. *)
Lemma no_header_behind s addr n sk it q :
  ra_inv s → block_ok s addr n → ranges s = sk ++ it →
  Forall (λ r : range, r.1 + r.2 ≤ addr) sk →
  match it with [] => True | (a, k) :: _ => addr < a + k end →
  match it with [] => True | (a, _) :: _ => a ≠ addr + n end →
  ¬ (header q (ranges s) ∧ q = addr + n).
Proof.
  intros Hi Hb Hr Hsk Hit Hna [Hh ->]. destruct (place_facts s addr n sk it Hi Hb Hr Hsk Hit) as (Hw1 & Hw2 & Hb1 & _).
  destruct (bo_size _ _ _ Hb) as [Hn _]. rewrite Hr, header_app in Hh. destruct Hh as [Hh|Hh].
  - specialize (Hb1 _ (header_member _ _ _ _ Hw1 Hh)). lia.
  - destruct it as [|[a k] next]; [by apply header_nil in Hh|].
    apply header_cons in Hh as [?|Hh]; [done|]. destruct Hw2 as (?&?&?&?&?&Hw2).
    pose proof (wf_member _ _ _ _ Hw2 (header_member _ _ _ _ Hw2 Hh)). lia.
Qed.

(** The block follows the range [(p, pn)]. *)
Lemma join_last_spec s addr n sk p pn it :
  ra_inv s → block_ok s addr n → ranges s = (sk ++ [(p, pn)]) ++ it →
  Forall (λ r : range, r.1 + r.2 ≤ addr) (sk ++ [(p, pn)]) →
  match it with [] => True | (a, k) :: _ => addr < a + k end →
  p + pn = addr →
  wp (join_last current n p pn (rev_append sk []) it) (freed s addr n)
     (set_ra_lock (Mutex (Some current) 1 false) s).
Proof.
  intros Hi Hb Hr Hsk Hit Hpe.
  destruct (place_facts s addr n _ it Hi Hb Hr Hsk Hit) as (Hw1 & Hw2 & Hb1 & _ & Hle).
  pose proof Hw1 as (Hw1' & Hap & Hpp & Hpn0 & Hppn & _)%wf_app. pose proof (wf_after _ _ _ Hw1').
  destruct (bo_size _ _ _ Hb) as [Hn _]. destruct (bo_bounds _ _ _ Hb) as [_ Hhi].
  destruct (ri_bounds s Hi) as [Hst Hen]. unfold join_last. cbv zeta.
  rewrite (u32_small (pn + n)) by (unfold TABLES_VADDR, U32 in *; lia).
  destruct (right_join addr n it) as [m rest] eqn:Hj.
  destruct (left_join_spec s addr n _ it m rest (sk ++ (p, pn + m) :: rest) Hi Hb Hr Hsk Hit Hj
    (or_introl (ex_intro _ sk (ex_intro _ p (ex_intro _ pn (conj eq_refl (conj Hpe eq_refl)))))))
    as (Hwf & Hmem & Hhd).
  assert (∀ m' l', l' = sk ++ (p, pn + m) :: rest → vm_ok m' →
    (∀ q, vm_mapped m' q ↔ vm_mapped (ra_vm s) q ∧ ¬ (header q (ranges s) ∧ q = addr + n)) →
    freed s addr n 0 (RangeAllocator (ra_start s) (ra_end s) l' mutex_zero m')) as Hdone.
  { intros m' l' -> Hok Hm. left. split; [done|].
    apply (λ s' E X, give_block s s' addr n _ it _ m' Hi Hb Hr Hsk Hle E Hok Hwf Hmem Hhd X); [done|].
    intros q. rewrite Hm. assert (joins (sk ++ [(p, pn)]) addr) by (exists p, pn; set_solver). tauto. }
  pose proof (λ q, no_header_behind s addr n _ it q Hi Hb Hr Hsk Hit) as Hnh.
  destruct it as [|[a k] next].
  - injection Hj as <- <-. wp_keep. apply wp_unlock_ra; [done|]. wp_keep.
    apply Hdone; [by rewrite rev_append_twice|apply (ri_vm s Hi)|]. intros q. specialize (Hnh q I). tauto.
  - cbn [right_join] in Hj. replace (p + (pn + n)) with (addr + n) by lia.
    destruct (Z.eqb_spec a (addr + n)) as [->|Hna].
    + injection Hj as <- <-. destruct Hw2 as (Hx0&Hpan&Hk&Hpk&Hak&Hw2'). wp_keep.
      assert (header (addr + n) (ranges s)) as Hhdr by (rewrite Hr, header_app, header_cons; tauto).
      unfold in_vm. wp_keep.
      eapply wp_mono; [apply (vm_unmap_law _ (addr + n) (ri_vm s Hi))|].
      { apply (ri_range s Hi); [done|lia]. }
      { apply (ri_mapped s Hi); [done| |done].
        unfold free_at. rewrite Hr, member_app, member_cons. right. left. lia. }
      intros _ m' (Hok & Hm'). wp_keep. apply wp_unlock_ra; [done|]. wp_keep.
      apply Hdone; [|done|].
      * rewrite rev_append_twice, u32_small by (unfold TABLES_VADDR, U32 in *; lia).
        by replace (pn + n + k) with (pn + (n + k)) by lia.
      * intros q. rewrite Hm'. split; [intros [? ?]; split; [done|tauto]|].
        intros [Hq Hnq]. split; [|done]. intros ->. by apply Hnq.
    + injection Hj as <- <-. wp_keep. apply wp_unlock_ra; [done|]. wp_keep.
      apply Hdone; [by rewrite rev_append_twice|apply (ri_vm s Hi)|]. intros q. specialize (Hnh q Hna). tauto.
Qed.

(** C29: giving a block back makes its pages free and joins it to the adjacent
    free ranges, so that the list stays minimal; or, for lack of memory for the
    list node, the result is -ENOMEM and nothing changes. *)
Theorem range_allocator_free_spec s addr size :
  ra_inv s → ranges s ≠ [] → 0 < size → size + PAGE_SIZE ≤ U32 →
  let n := round_up size PAGE_SIZE in
  block_ok s addr n →
  wp (range_allocator_free current addr size) (freed s addr n) s.
Proof.
  intros Hi Hne Hs0 Hs1 n Hb. unfold range_allocator_free. pose proof (bo_page _ _ _ Hb) as Hpa.
  destruct (bo_size _ _ _ Hb) as [Hn Hpn]. destruct (bo_bounds _ _ _ Hb) as [Hlo Hhi].
  destruct (ri_bounds s Hi) as [Hst Hen]. wp_keep. apply wp_ASSERT; [by rewrite Hpa|]. wp_keep.
  apply wp_ASSERT; [by rewrite bool_decide_eq_false_2|]. wp_keep. fold n.
  rewrite u32_small by (unfold TABLES_VADDR, U32 in *; lia).
  rewrite (proj2 (Z.ltb_ge addr _)), (proj2 (Z.ltb_ge (ra_end s) _)) by lia. simpl. wp_keep.
  apply wp_lock_ra; [apply (ri_lock s Hi)|].
  destruct (find_place addr [] (ranges s)) as [prev it] eqn:Ef.
  destruct (find_place_spec _ _ _ _ _ Ef) as (sk & Hr & _ & Hsk & Hit & ->).
  destruct (last sk) as [[p pn]|] eqn:El.
  2: { apply last_None in El as ->. simpl. apply (join_next_spec s addr n []); try done.
       intros (? & ? & Hin & _). by apply not_elem_of_nil in Hin. }
  apply last_Some in El as (sk' & ->).
  destruct (place_facts s addr n _ it Hi Hb Hr Hsk Hit) as (Hw1 & Hw2 & Hb1 & Hb2 & Hle).
  pose proof Hw1 as (Hw1' & Hap & Hpp & Hpn0 & Hppn & _)%wf_app.
  rewrite rev_append_snoc. cbv beta iota.
  destruct (Z.eqb_spec (p + pn) addr) as [Hpe|Hpe].
  2: { rewrite <-rev_append_snoc.
       apply (join_next_spec s addr n); try done.
       intros (b & c & [Hin|[= -> ->]%list_elem_of_singleton]%elem_of_app & E); [|done].
       apply list_elem_of_split in Hin as (l1 & l2 & ->).
       apply wf_split in Hw1' as (_ & Hx2 & _). rewrite after_app in Hap.
       change (after (b + c + 1) l2 ≤ p) in Hap. apply Forall_app in Hsk as [_ Hsk].
       apply Forall_cons in Hsk as [Hsk _]. simpl in Hsk.
       pose proof (wf_after _ _ _ Hx2). lia. }
  by apply (join_last_spec s addr n).
Qed.
End proofs.

(** ** Witnesses

    The contract holds of page tables that never run out of memory, kept as the
    set of the mapped pages. *)
#[local] Instance set_vm_ops : VmOps (gset Z) := {|
  vm_map_to_free_pages := λ p _ _ m, Done 0 ({[p]} ∪ m);
  vm_copy_mapping := λ p _ _ _ m, Done 0 ({[p]} ∪ m);
  vm_unmap := λ p _ m, Done tt (m ∖ {[p]});
|}.
#[local] Program Instance set_vm : Vm (gset Z) := {|
  vm_ok := λ _, True;
  vm_range := λ _, True;
  vm_mapped := λ m p, p ∈ m;
|}.
Next Obligation. intros m p _ _ _. unfold wp; simpl. split; [done|]. left. set_solver. Qed.
Next Obligation. intros m p q _ _ _ _ _. unfold wp; simpl. split; [done|]. left. set_solver. Qed.
Next Obligation. intros m p _ _ _. unfold wp; simpl. set_solver. Qed.

(** A region of 16 pages with the pages 2..5 and 8..15 free. *)
Definition sample_ra : range_allocator (gset Z) :=
  RangeAllocator 65536 131072 [(73728, 16384); (98304, 32768)] mutex_zero {[73728; 98304]}.
Lemma sample_header p : header p (ranges sample_ra) ↔ p = 73728 ∨ p = 98304.
Proof. change (ranges sample_ra) with [(73728, 16384); (98304, 32768)].
  rewrite !header_cons. pose proof (header_nil p). tauto. Qed.
Lemma sample_free p :
  free_at sample_ra p ↔ 73728 ≤ p < 73728 + 16384 ∨ 98304 ≤ p < 98304 + 32768.
Proof.
  unfold free_at. change (ranges sample_ra) with [(73728, 16384); (98304, 32768)].
  rewrite !member_cons. pose proof (member_nil p). tauto.
Qed.
Lemma sample_mapped p : vm_mapped (ra_vm sample_ra) p ↔ p = 73728 ∨ p = 98304.
Proof. change (p ∈ ({[73728; 98304]} : gset Z) ↔ p = 73728 ∨ p = 98304). set_solver. Qed.
Lemma sample_ra_inv : ra_inv sample_ra.
Proof.
  split; try done. intros p _ _. by rewrite sample_mapped, sample_header.
Qed.
Lemma range_allocator_alloc_spec_witness :
  wp (range_allocator_alloc 0 5000) (λ r s', others_kept sample_ra s' ∧
    ((r = ERR ENOMEM ∧ ranges s' = ranges sample_ra ∧
        (ra_inv s' ∨ (Forall (λ x : range, x.2 < round_up 5000 PAGE_SIZE) (ranges sample_ra) ∧
                      s' = set_ra_lock (Mutex (Some 0%nat) 1 false) sample_ra))) ∨
     (ra_inv s' ∧ block_taken sample_ra s' (round_up 5000 PAGE_SIZE) r))) sample_ra.
Proof.
  apply (range_allocator_alloc_spec 0 sample_ra 5000 sample_ra_inv);
    [done|lia|unfold PAGE_SIZE, U32; lia].
Defined.
Lemma range_allocator_free_spec_witness :
  wp (range_allocator_free 0 90112 8000) (freed sample_ra 90112 (round_up 8000 PAGE_SIZE)) sample_ra.
Proof.
  apply (range_allocator_free_spec 0 sample_ra 90112 8000 sample_ra_inv);
    [done|lia|unfold PAGE_SIZE, U32; lia|].
  change (round_up 8000 PAGE_SIZE) with 8192. split.
  - reflexivity.
  - split; [lia|reflexivity].
  - split; vm_compute; congruence.
  - intros p Hp. rewrite sample_free. lia.
  - intros p _ Hp. rewrite sample_mapped. lia.
Defined.
