(* ===== verification/Kmalloc.v ===== *)
(** * The kernel heap (kernel/memory/kmalloc.c)

    Every block starts on a page of its own with a header (magic number and
    size); memory is bytes by virtual address, present exactly where a page of
    the heap is mapped. A fresh page holds whatever [garbage] says. *)
From S2P Require Import Prelude Errno CString Lock PageAllocator Paging RangeAllocator.

Definition MAGIC : Z := 492670544.
(** sizeof(struct header) and alignof(max_align_t) on the i686 target. *)
Definition sizeof_header : Z := 8.
Definition max_align : Z := 16.

Record heap (M : Type) : Type := Heap {
  kernel_vaddr_allocator : range_allocator M;
  bytes_at : gmap Z Z;
}.
Arguments Heap {M} _ _.
Arguments kernel_vaddr_allocator {M} _.
Arguments bytes_at {M} _.

Section kmalloc.
Context {M : Type} `{VmOps M} (current : nat) (garbage : Z → Z).

Definition set_allocator (r : range_allocator M) (h : heap M) : heap M := Heap r (bytes_at h).
Definition set_bytes (b : gmap Z Z) (h : heap M) : heap M := Heap (kernel_vaddr_allocator h) b.
Definition in_allocator {A} (m : K (range_allocator M) A) : K (heap M) A :=
  zoom kernel_vaddr_allocator set_allocator m.

Definition get_byte (p : Z) : K (heap M) Z := h ← get; access (bytes_at h !! p).
Definition set_byte (p c : Z) : K (heap M) unit :=
  h ← get; _ ← access (bytes_at h !! p); put (set_bytes (<[p := u8 c]> (bytes_at h)) h).
Definition get_word (p : Z) : K (heap M) Z :=
  b0 ← get_byte p; b1 ← get_byte (p + 1); b2 ← get_byte (p + 2); b3 ← get_byte (p + 3);
  mret (b0 + 256 * b1 + 65536 * b2 + 16777216 * b3).
Definition set_word (p v : Z) : K (heap M) unit :=
  _ ← set_byte p v; _ ← set_byte (p + 1) (Z.shiftr v 8);
  _ ← set_byte (p + 2) (Z.shiftr v 16); set_byte (p + 3) (Z.shiftr v 24).
Fixpoint fill_bytes (n : nat) (p c : Z) : K (heap M) unit :=
  match n with O => mret tt | S n => _ ← set_byte p c; fill_bytes n (p + 1) c end.
Fixpoint copy_bytes (n : nat) (dest src : Z) : K (heap M) unit :=
  match n with
  | O => mret tt
  | S n => c ← get_byte src; _ ← set_byte dest c; copy_bytes n (dest + 1) (src + 1)
  end.

(** Pages appear with garbage in them and disappear with their contents. *)
Definition page_bytes (size : Z) : nat := Z.to_nat (round_up size PAGE_SIZE).
Fixpoint map_bytes (f : Z → gmap Z Z → gmap Z Z) (n : nat) (p : Z) (b : gmap Z Z) : gmap Z Z :=
  match n with O => b | S n => map_bytes f n (p + 1) (f p b) end.
Definition add_pages (addr size : Z) (b : gmap Z Z) : gmap Z Z :=
  map_bytes (λ p b, <[p := u8 (garbage p)]> b) (page_bytes size) addr b.
Definition remove_pages (addr size : Z) (b : gmap Z Z) : gmap Z Z :=
  map_bytes delete (page_bytes size) addr b.

(** [NULL] is [None]. *)
Definition kaligned_alloc (alignment size : Z) : K (heap M) (option Z) :=
  if size =? 0 then mret None
  else
    _ ← ASSERT (alignment <=? PAGE_SIZE);
    let data_offset := round_up sizeof_header alignment in
    let real_size := u32 (data_offset + size) in
    addr ← in_allocator (range_allocator_alloc current real_size);
    if IS_ERR addr then mret None
    else
      rc ← in_allocator (in_vm (vm_map_to_free_pages addr real_size (Z.lor PAGE_WRITE PAGE_GLOBAL)));
      if IS_ERR rc then mret None
      else
        _ ← modify (λ h, set_bytes (add_pages addr real_size (bytes_at h)) h);
        _ ← set_word addr MAGIC;
        _ ← set_word (addr + 4) real_size;
        let ptr := addr + data_offset in
        _ ← fill_bytes (Z.to_nat size) ptr 0;
        mret (Some ptr).

Definition kmalloc (size : Z) : K (heap M) (option Z) := kaligned_alloc max_align size.

Definition header_addr (ptr : Z) : Z :=
  let addr := round_down ptr PAGE_SIZE in
  if u32 (ptr - addr) <? sizeof_header then u32 (addr - PAGE_SIZE) else addr.
Definition header_from_ptr (ptr : Z) : K (heap M) Z :=
  let header := header_addr ptr in
  magic ← get_word header;
  _ ← ASSERT (magic =? MAGIC);
  mret header.

Definition kfree (ptr : option Z) : K (heap M) unit :=
  match ptr with
  | None => mret tt
  | Some ptr =>
      header ← header_from_ptr ptr;
      size ← get_word (header + 4);
      _ ← in_allocator (in_vm (vm_unmap header size));
      _ ← modify (λ h, set_bytes (remove_pages header size (bytes_at h)) h);
      rc ← in_allocator (range_allocator_free current header size);
      ASSERT (negb (IS_ERR rc))
  end.

Definition krealloc (ptr : option Z) (new_size : Z) : K (heap M) (option Z) :=
  match ptr with
  | None => kmalloc new_size
  | Some ptr =>
      if new_size =? 0 then _ ← kfree (Some ptr); mret None
      else
        old_header ← header_from_ptr ptr;
        new_ptr ← kmalloc new_size;
        match new_ptr with
        | None => mret None
        | Some new_ptr =>
            new_header ← header_from_ptr new_ptr;
            old_size ← get_word (old_header + 4);
            _ ← copy_bytes (Z.to_nat old_size) new_header old_header;
            _ ← kfree (Some ptr);
            mret (Some new_ptr)
        end
  end.

(** The string functions read their argument like strlen and strnlen. *)
Fixpoint heap_strnlen (n : nat) (p len : Z) : K (heap M) Z :=
  match n with
  | O => mret len
  | S n => c ← get_byte p; if c =? 0 then mret len else heap_strnlen n (p + 1) (len + 1)
  end.
Fixpoint heap_strlen (fuel : nat) (p len : Z) : K (heap M) Z :=
  match fuel with
  | O => out_of_fuel
  | S fuel => c ← get_byte p; if c =? 0 then mret len else heap_strlen fuel (p + 1) (len + 1)
  end.
Definition dup_bytes (src len : Z) : K (heap M) (option Z) :=
  buf ← kmalloc (len + 1);
  match buf with
  | None => mret None
  | Some buf => _ ← copy_bytes (Z.to_nat len) buf src; _ ← set_byte (buf + len) 0; mret (Some buf)
  end.
(** Memory holds fewer bytes than it has entries, so that the search for the
    terminator ends or leaves memory. *)
Definition kstrdup (src : Z) : K (heap M) (option Z) :=
  h ← get; len ← heap_strlen (S (size (bytes_at h))) src 0; dup_bytes src len.
Definition kstrndup (src : Z) (n : nat) : K (heap M) (option Z) :=
  len ← heap_strnlen n src 0; dup_bytes src len.
End kmalloc.

(** ** Pointers and headers *)

(** Header_from_ptr finds the header of every pointer that kaligned_alloc
    makes: for each alignment up to a page that is a power of two, the pointer
    computed from the page-aligned block leads back to the block and is aligned. *)
Lemma header_addr_aligned addr k :
  page_at addr → 0 ≤ addr → addr + 2 * PAGE_SIZE ≤ U32 → 0 ≤ k ≤ 12 →
  let ptr := addr + round_up sizeof_header (2 ^ k) in
  header_addr ptr = addr ∧ ptr mod 2 ^ k = 0 ∧ addr + sizeof_header ≤ ptr ≤ addr + PAGE_SIZE.
Proof.
  unfold page_at, PAGE_SIZE. intros Hp H0 H1 Hk.
  assert (∀ off, 8 ≤ off ≤ 4096 → header_addr (addr + off) = addr) as Hh.
  { intros off Hoff. unfold header_addr.
    change (round_down (addr + off) PAGE_SIZE) with (frame_of (addr + off)). rewrite frame_of_div by (unfold U32 in *; lia).
    unfold sizeof_header, PAGE_SIZE. destruct (decide (off = 4096)) as [->|].
    - assert ((addr + 4096) / 4096 * 4096 = addr + 4096) as -> by (Z.to_euclidean_division_equations; lia).
      rewrite Z.sub_diag. change (u32 0 <? 8) with true. cbv iota. rewrite u32_small; lia.
    - assert ((addr + off) / 4096 * 4096 = addr) as -> by (Z.to_euclidean_division_equations; lia).
      replace (addr + off - addr) with off by lia. rewrite u32_small by (unfold U32; lia).
      by rewrite (proj2 (Z.ltb_ge off 8)) by lia. }
  assert (k = 0 ∨ k = 1 ∨ k = 2 ∨ k = 3 ∨ k = 4 ∨ k = 5 ∨ k = 6 ∨ k = 7 ∨ k = 8 ∨ k = 9 ∨ k = 10 ∨
          k = 11 ∨ k = 12) as Hc by lia.
  repeat (destruct Hc as [->|Hc] || subst k);
    match goal with |- context [round_up sizeof_header ?a] =>
      let v := eval vm_compute in (round_up sizeof_header a) in change (round_up sizeof_header a) with v end;
    match goal with |- context [?a mod 2 ^ ?b] =>
      let v := eval vm_compute in (2 ^ b) in change (2 ^ b) with v end;
    cbv zeta; unfold sizeof_header; (split; [apply Hh; lia|]);
    (split; [Z.to_euclidean_division_equations; lia|lia]).
Qed.

(** ** A heap of four pages on the machine of PageAllocator *)
Definition small_vm : mmu pages :=
  Mmu booted {[ 5 := <[769 := entry 304 2]> (<[768 := entry 300 2]> ∅) ]}
      (<[300 * PAGE_SIZE := ∅]> {[ 304 * PAGE_SIZE := ∅ ]}) ∅ 5 mutex_zero.
Definition heap_start : Z := KERNEL_VADDR + 1024 * PAGE_SIZE.
Definition small_heap : heap (mmu pages) :=
  Heap (final (range_allocator_init heap_start (heap_start + 4 * PAGE_SIZE))
              (RangeAllocator 0 0 [] mutex_zero small_vm)) ∅.
Definition free_kib (h : heap (mmu pages)) : Z :=
  free (memory_info (mm_pages (ra_vm (kernel_vaddr_allocator h)))).
Definition outcome_of {S A} (o : outcome S A) : option A :=
  match o with Done a _ => Some a | _ => None end.

Definition zero_garbage (p : Z) : Z := 0.
(** Grow a block from 10 to 5000 bytes, then free it. *)
Definition grow_and_free : K (heap (mmu pages)) unit :=
  p ← kmalloc 0 zero_garbage 10; q ← krealloc 0 zero_garbage p 5000; kfree 0 q.
(** Shrink a block from 5000 to 10 bytes. *)
Definition shrink : K (heap (mmu pages)) (option Z) :=
  p ← kmalloc 0 zero_garbage 5000; krealloc 0 zero_garbage p 10.

(** Krealloc copies the old header over the new one, and as many bytes as
    the old block has. A block that was grown and freed is given back only up to
    its old size: of a heap of four pages the second page of the block is lost
    and stays allocated. Shrinking a block to one page writes behind the new
    block, which is not mapped. *)
Lemma krealloc_copies_old_header :
  ranges (kernel_vaddr_allocator small_heap) = [(heap_start, 4 * PAGE_SIZE)] ∧
  ranges (kernel_vaddr_allocator (final grow_and_free small_heap)) =
    [(heap_start, 2 * PAGE_SIZE); (heap_start + 3 * PAGE_SIZE, PAGE_SIZE)] ∧
  mapping (ra_vm (kernel_vaddr_allocator (final grow_and_free small_heap)))
    (heap_start + 2 * PAGE_SIZE) ≠ None ∧
  shrink small_heap = Undef.
Proof.
  split; [vm_compute; reflexivity|].
  assert ((ranges (kernel_vaddr_allocator (final grow_and_free small_heap)),
           match mapping (ra_vm (kernel_vaddr_allocator (final grow_and_free small_heap)))
             (heap_start + 2 * PAGE_SIZE) with Some _ => true | None => false end) =
    ([(heap_start, 2 * PAGE_SIZE); (heap_start + 3 * PAGE_SIZE, PAGE_SIZE)], true)) as Hg
    by (vm_compute; reflexivity).
  apply pair_equal_spec in Hg as [Hr Hm]. split; [exact Hr|]. split.
  - intros E. rewrite E in Hm. discriminate Hm.
  - vm_compute. reflexivity.
Qed.

Lemma header_addr_aligned_witness :
  let ptr := heap_start + round_up sizeof_header (2 ^ 4) in
  header_addr ptr = heap_start ∧ ptr mod 2 ^ 4 = 0 ∧
  heap_start + sizeof_header ≤ ptr ≤ heap_start + PAGE_SIZE.
Proof.
  apply (header_addr_aligned heap_start 4).
  - reflexivity.
  - vm_compute. congruence.
  - vm_compute. congruence.
  - lia.
Defined.
