(* ===== verification/GrowableBuf.v ===== *)
(** * Growable buffers (kernel/growable_buf.c)

    The contents of tmpfs files, sockets' ancestors in procfs and the like: a
    mapped region of [capacity] bytes of which the first [size] count. What the
    memory layer answers (range_allocator_alloc, paging_copy_mapping,
    paging_map_to_free_pages, range_allocator_free either succeed or fail with
    -ENOMEM, see RangeAllocator and Paging) is a list of grants in the state,
    consumed request by request; the list exhausted, every request is granted. *)
From S2P Require Import Prelude Errno CString PageAllocator CLib.

(** [gb_addr] says that [addr] is not null; [gb_mem] is the memory at [addr],
    unmapped if [None]. *)
Record growable_buf : Type := GrowableBuf {
  gb_addr : bool;
  capacity : Z;
  gb_size : Z;
  gb_mem : option (list Z);
}.
Definition growable_buf_zero : growable_buf := GrowableBuf false 0 0 None.

Record gstate : Type := GState { g_buf : growable_buf; g_grants : list bool }.
(** One request to the memory layer. *)
Definition grant : K gstate bool := λ s,
  match g_grants s with
  | [] => Done true s
  | b :: g => Done b (GState (g_buf s) g)
  end.
Definition set_buf (b : growable_buf) (s : gstate) : gstate := GState b (g_grants s).

(** memcpy and memset on the mapped memory. *)
Definition gb_read (off count : Z) : K gstate (list Z) :=
  s ← get; m ← access (gb_mem (g_buf s));
  if (off <? 0) || (Z.of_nat (length m) <? off + count) then undef
  else mret (take (Z.to_nat count) (drop (Z.to_nat off) m)).
Definition gb_write (off : Z) (bytes : list Z) : K gstate unit :=
  match bytes with
  | [] => mret tt
  | _ =>
      s ← get; m ← access (gb_mem (g_buf s));
      if (off <? 0) || (Z.of_nat (length m) <? off + Z.of_nat (length bytes)) then undef
      else let b := g_buf s in
           put (set_buf (GrowableBuf (gb_addr b) (capacity b) (gb_size b)
                           (Some (splice (Z.to_nat off) bytes m))) s)
  end.
Definition zeros (n : Z) : list Z := replicate (Z.to_nat n) 0.

Definition growable_buf_pread (count offset : Z) : K gstate (Z * list Z) :=
  s ← get;
  let size := gb_size (g_buf s) in
  if size <=? u32 offset then mret (0, [])
  else
    let count := if size <=? u32 (offset + count) then u32 (size - offset) else count in
    bytes ← gb_read offset count; mret (s32 count, bytes).

Definition MAX (a b : Z) : Z := if b <? a then a else b.
Definition grow_buf (requested_size : Z) : K gstate Z :=
  s ← get;
  let buf := g_buf s in
  let new_capacity := round_up (MAX (u32 (capacity buf * 2)) requested_size) PAGE_SIZE in
  let new_capacity := if new_capacity =? 0 then PAGE_SIZE else new_capacity in
  ok ← grant; (* range_allocator_alloc *)
  if negb ok then mret (ERR ENOMEM)
  else
    copied ← (if gb_addr buf then grant (* paging_copy_mapping *)
              else _ ← ASSERT (capacity buf =? 0); mret true);
    if negb (copied : bool) then mret (ERR ENOMEM)
    else
      ok ← grant; (* paging_map_to_free_pages *)
      if negb ok then mret (ERR ENOMEM)
      else
        old ← (if gb_addr buf then access (gb_mem buf) else mret []);
        if new_capacity <? gb_size buf then undef
        else
          let mem := take (Z.to_nat (gb_size buf)) old ++ zeros (new_capacity - gb_size buf) in
          freed ← (if gb_addr buf then
                     _ ← modify (set_buf (GrowableBuf true (capacity buf) (gb_size buf) None));
                     grant (* range_allocator_free *)
                   else mret true);
          if negb (freed : bool) then mret (ERR ENOMEM)
          else
            _ ← modify (set_buf (GrowableBuf true new_capacity (gb_size buf) (Some mem)));
            mret 0.

Definition set_size (n : Z) : K gstate unit :=
  modify (λ s, let b := g_buf s in
               set_buf (GrowableBuf (gb_addr b) (capacity b) n (gb_mem b)) s).

Definition growable_buf_pwrite (bytes : list Z) (offset : Z) : K gstate Z :=
  let count := Z.of_nat (length bytes) in
  let end_ := u32 (offset + count) in
  s ← get;
  rc ← (if capacity (g_buf s) <? end_ then grow_buf end_ else mret 0);
  if IS_ERR rc then mret rc
  else
    _ ← gb_write offset bytes;
    s ← get;
    _ ← when (gb_size (g_buf s) <? end_) (set_size end_);
    mret (s32 count).
Definition growable_buf_append (bytes : list Z) : K gstate Z :=
  s ← get; growable_buf_pwrite bytes (gb_size (g_buf s)).

Definition growable_buf_truncate (length : Z) : K gstate Z :=
  s ← get;
  let buf := g_buf s in
  let len := u32 length in
  rc ← (if len <=? gb_size buf then _ ← gb_write len (zeros (gb_size buf - len)); mret 0
        else if len <=? capacity buf then
          _ ← gb_write (gb_size buf) (zeros (len - gb_size buf)); mret 0
        else grow_buf len);
  if IS_ERR rc then mret rc else _ ← set_size len; mret 0.

(** Unmaps the region; its virtual addresses are not given back. *)
Definition growable_buf_destroy : K gstate unit :=
  modify (λ s, let b := g_buf s in
    if gb_addr b then set_buf (GrowableBuf true (capacity b) (gb_size b) None) s else s).

Definition growable_buf_mmap (addr length offset page_flags : Z) : K gstate Z :=
  if negb (offset =? 0) || (Z.land page_flags 512 =? 0) then mret (ERR ENOTSUP)
  else
    s ← get;
    if gb_size (g_buf s) <? length then mret (ERR EINVAL)
    else
      ok ← grant; (* paging_copy_mapping *)
      if negb ok then mret (ERR ENOMEM) else mret addr.

(** One pass over the buffer with the formatted string stored at its end: what
    [vsnprintf] returns, or more room asked for. *)
Fixpoint growable_buf_vsprintf (fuel : nat) (format : list Z) (args : list arg) : K gstate Z :=
  match fuel with
  | O => out_of_fuel
  | S fuel =>
      s ← get;
      let buf := g_buf s in
      let max_len := capacity buf - gb_size buf in
      let grow := rc ← grow_buf 0;
                  if IS_ERR rc then mret rc else growable_buf_vsprintf fuel format args in
      if 0 <? max_len then
        m ← access (gb_mem buf);
        match vsnprintf (Z.to_nat (gb_size buf)) max_len format args m with
        | Done len m' =>
            _ ← put (set_buf (GrowableBuf (gb_addr buf) (capacity buf) (gb_size buf) (Some m')) s);
            if u32 len <? max_len then _ ← set_size (gb_size buf + len); mret len else grow
        | Panic => panic
        | Undef => undef
        | OutOfFuel => out_of_fuel
        end
      else grow
  end.
Definition growable_buf_printf := growable_buf_vsprintf.

(** ** The file it stands for *)

Record gb_inv (b : growable_buf) : Prop := GbInv {
  gi_size : 0 ≤ gb_size b ≤ capacity b;
  gi_cap : capacity b mod PAGE_SIZE = 0 ∧ capacity b ≤ 2147483648;
  gi_addr : gb_addr b = false → capacity b = 0;
  gi_mem : gb_addr b = true → ∃ m, gb_mem b = Some m ∧ Z.of_nat (length m) = capacity b ∧
    ∀ i c, gb_size b ≤ Z.of_nat i → m !! i = Some c → c = 0;
  gi_none : gb_addr b = false → gb_mem b = None;
}.
(** The bytes of the file. *)
Definition file (b : growable_buf) : list Z :=
  take (Z.to_nat (gb_size b)) (default [] (gb_mem b)).
(** [f] extended with zeros to [n] bytes. *)
Definition extend (n : nat) (f : list Z) : list Z := f ++ replicate (n - length f) 0.
(** What writing [bytes] at [offset] makes of the file [f]. *)
Definition written (offset : nat) (bytes f : list Z) : list Z :=
  splice offset bytes (extend (offset + length bytes) f).
(** The buffer of which the old region is unmapped while [addr] still points to
    it. *)
Definition lost (b : growable_buf) : Prop := gb_addr b = true ∧ gb_mem b = None.

Lemma length_file b : gb_inv b → length (file b) = Z.to_nat (gb_size b).
Proof.
  intros Hi. unfold file. rewrite length_take. destruct (gi_size b Hi).
  destruct (gb_addr b) eqn:Ea.
  - destruct (gi_mem b Hi Ea) as (m & -> & Hl & _). simpl. lia.
  - rewrite (gi_none b Hi Ea). pose proof (gi_addr b Hi Ea). simpl. lia.
Qed.
(** Behind the file there are zeros up to the capacity. *)
Lemma mem_file b m :
  gb_inv b → gb_mem b = Some m →
  m = file b ++ zeros (capacity b - gb_size b) ∧ Z.of_nat (length m) = capacity b.
Proof.
  intros Hi Hm. destruct (gi_size b Hi). destruct (gb_addr b) eqn:Ea.
  2: { rewrite (gi_none b Hi Ea) in Hm. done. }
  destruct (gi_mem b Hi Ea) as (m' & Hm' & Hl & Hz). rewrite Hm in Hm'. injection Hm' as <-.
  split; [|done]. unfold file. rewrite Hm. simpl.
  rewrite <-(take_drop (Z.to_nat (gb_size b)) m) at 1. f_equal. unfold zeros.
  apply list_eq. intros i. destruct (decide (i < Z.to_nat (capacity b - gb_size b))%nat).
  - rewrite lookup_drop, lookup_replicate_2 by done.
    destruct (lookup_lt_is_Some_2 m (Z.to_nat (gb_size b) + i)) as [c Hc]; [lia|].
    rewrite Hc. f_equal. eapply Hz; [|exact Hc]. lia.
  - rewrite !lookup_ge_None_2; [done|rewrite length_replicate; lia|rewrite length_drop; lia].
Qed.

Lemma wp_grant s (Q : bool → gstate → Prop) :
  (∀ ok g, Q ok (GState (g_buf s) g)) → wp grant Q s.
Proof. intros HQ. unfold wp, grant. destruct s as [b [|x g]]; apply HQ. Qed.

Lemma round_up_range x :
  0 ≤ x ≤ 2147483648 →
  let y := round_up x PAGE_SIZE in x ≤ y ≤ 2147483648 ∧ y mod PAGE_SIZE = 0 ∧ (0 < x → 0 < y) ∧ y ≤ x + 4095.
Proof.
  intros Hx. assert (round_up x PAGE_SIZE = (x + 4095) / 4096 * 4096) as ->.
  { unfold round_up, PAGE_SIZE. change (4096 - 1) with 4095. change (u32 (Z.lnot 4095)) with 4294963200.
    rewrite u32_small by (unfold U32; lia). change 4096 with (2 ^ 12).
    rewrite <-Z.shiftr_div_pow2, <-Z.shiftl_mul_pow2 by lia. apply Z.bits_inj'. intros j Hj.
    rewrite Z.land_spec, Z.shiftl_spec by done. change 4294963200 with (Z.shiftl (Z.ones 20) 12).
    rewrite Z.shiftl_spec by done. destruct (decide (j < 12)).
    { by rewrite !(Z.testbit_neg_r _ (j - 12)), andb_false_r by lia. }
    rewrite Z.shiftr_spec by lia. replace (j - 12 + 12) with j by lia.
    destruct (decide (j - 12 < 20)); [rewrite Z.ones_spec_low by lia; apply andb_true_r|].
    rewrite (testbit_high _ 32) by lia. done. }
  unfold PAGE_SIZE. split_and!; Z.to_euclidean_division_equations; lia.
Qed.

Lemma file_grown n (m : list Z) k b :
  gb_size b = n → 0 ≤ n → Z.of_nat (length m) = n → file (GrowableBuf true k n (Some (m ++ zeros (k - n)))) = m.
Proof. intros _ Hn Hm. unfold file. simpl. rewrite take_app_le, take_ge by lia. done. Qed.

Lemma grow_buf_spec s req :
  gb_inv (g_buf s) → capacity (g_buf s) ≤ 1073741824 → 0 ≤ req ≤ 1073741824 →
  wp (grow_buf req) (λ rc s',
    (rc = 0 ∧ gb_inv (g_buf s') ∧ file (g_buf s') = file (g_buf s) ∧
       gb_size (g_buf s') = gb_size (g_buf s) ∧ req ≤ capacity (g_buf s') ∧
       capacity (g_buf s) < capacity (g_buf s') ≤ 2 * Z.max (capacity (g_buf s)) req + 4096 ∧
       gb_addr (g_buf s') = true) ∨
    (rc = ERR ENOMEM ∧ (g_buf s' = g_buf s ∨ lost (g_buf s')))) s.
Proof.
  intros Hi Hc Hreq. unfold grow_buf. wp_keep. set (b := g_buf s) in *.
  destruct (gi_size b Hi) as [Hs0 Hs1]. destruct (gi_cap b Hi) as [Hca _].
  rewrite u32_small by (unfold U32; lia). set (x := MAX _ _).
  assert (0 ≤ x ≤ 2147483648 ∧ capacity b * 2 ≤ x ∧ req ≤ x ∧ x ≤ 2 * Z.max (capacity b) req) as (Hx & Hx1 & Hx2 & Hx3)
    by (unfold x, MAX; case_match; bool_to_prop; lia).
  destruct (round_up_range x Hx) as (Hy & Hya & Hy0 & Hyx). set (y := round_up x PAGE_SIZE) in *.
  set (k := if y =? 0 then PAGE_SIZE else y).
  assert (capacity b < k ≤ 2147483648 ∧ req ≤ k ∧ k mod PAGE_SIZE = 0 ∧
    k ≤ 2 * Z.max (capacity b) req + 4096) as (Hk & Hk2 & Hka & Hkm).
  { unfold k. destruct (Z.eqb_spec y 0); [unfold PAGE_SIZE|]; (split_and!; [lia|lia|lia|done|lia]). }
  apply wp_grant. intros ok1 g1. destruct ok1; cbn [negb]; [|wp_keep; by right; split; [|left]].
  wp_keep. apply (wp_mono _ (λ ok s', g_buf s' = b ∧
    (gb_addr b = false → capacity b = 0 ∧ ok = true))).
  { apply wp_if; intros Ha.
    - apply wp_grant. intros. split; [done|]. by rewrite Ha.
    - wp_keep. apply wp_ASSERT; [by rewrite (gi_addr b Hi Ha)|]. wp_keep. split; [done|].
      split; [by apply (gi_addr b Hi)|done]. }
  intros ok2 s2 [Hb2 _]. destruct ok2; cbn [negb]; [|wp_keep; by right; split; [|left]].
  wp_keep. apply wp_grant. intros ok3 g3. destruct ok3; cbn [negb]; [|wp_keep; by right; split; [|left]].
  wp_keep.
  apply (wp_mono _ (λ old s', g_buf s' = b ∧ take (Z.to_nat (gb_size b)) old = file b)).
  { apply wp_if; intros Ha.
    - destruct (gi_mem b Hi Ha) as (m & Hm & _). eapply wp_access; [exact Hm|]. split; [done|].
      unfold file. by rewrite Hm.
    - wp_keep. split; [done|]. unfold file. by rewrite (gi_none b Hi Ha). }
  intros old s3 [Hb3 Hold]. rewrite (proj2 (Z.ltb_ge k (gb_size b))) by lia. wp_keep. rewrite Hold.
  apply (wp_mono _ (λ ok s', ok = true ∨ lost (g_buf s'))).
  { apply wp_if; intros Ha.
    - wp_keep. apply wp_grant. intros. by right.
    - wp_keep. by left. }
  intros ok4 s4 H4. destruct ok4; cbn [negb]; [|destruct H4 as [?|Hlost]; [done|]; wp_keep; by right; split; [|right]].
  wp_keep. left. cbn [set_buf g_buf gb_size capacity gb_addr].
  pose proof (length_file b Hi) as Hlf.
  split_and!; try done; [|by apply (file_grown _ _ _ b); [|lia|lia]|lia].
  split; simpl; try done; [lia|lia|]. intros _. eexists. split; [reflexivity|].
  rewrite length_app. unfold zeros. rewrite length_replicate. split; [lia|].
  intros i c Hic Hl. rewrite lookup_app_r in Hl by lia.
  by apply lookup_replicate_1 in Hl as [-> _].
Qed.

Lemma length_extend n f : length (extend n f) = (length f `max` n)%nat.
Proof. unfold extend. rewrite length_app, length_replicate. lia. Qed.
Lemma lookup_extend n f i :
  extend n f !! i = if decide (i < length f)%nat then f !! i
                    else if decide (i < n)%nat then Some 0 else None.
Proof.
  unfold extend. case_decide; [by apply lookup_app_l|]. rewrite lookup_app_r by lia.
  case_decide; [apply lookup_replicate_2; lia|].
  apply lookup_ge_None_2. rewrite length_replicate. lia.
Qed.
Lemma lookup_written offset bytes f i :
  written offset bytes f !! i =
    if decide (offset ≤ i < offset + length bytes)%nat then bytes !! (i - offset)%nat
    else extend (offset + length bytes) f !! i.
Proof.
  unfold written. pose proof (length_extend (offset + length bytes) f).
  case_decide; [apply splice_lookup_in|apply splice_lookup_out]; lia.
Qed.

(** Storing bytes within the capacity and raising the size. *)
Lemma store_written b m offset bytes n :
  gb_inv b → gb_addr b = true → gb_mem b = Some m →
  Z.of_nat (offset + length bytes) ≤ capacity b →
  n = Z.max (gb_size b) (Z.of_nat (offset + length bytes)) →
  let b' := GrowableBuf true (capacity b) n (Some (splice offset bytes m)) in
  gb_inv b' ∧ file b' = written offset bytes (file b).
Proof.
  intros Hi Ha Hm Hle Hn b'. destruct (gi_size b Hi).
  destruct (gi_mem b Hi Ha) as (m' & Hm' & Hl & Hz). rewrite Hm in Hm'. injection Hm' as <-.
  pose proof (length_file b Hi) as Hlf. split.
  - split; simpl; try done; [lia|apply (gi_cap b Hi)|]. intros _. eexists. split; [reflexivity|].
    rewrite length_splice by lia. split; [done|]. intros i c Hic.
    rewrite splice_lookup_out by lia. apply Hz. lia.
  - apply list_eq. intros i. rewrite lookup_written. unfold file at 1. simpl.
    destruct (decide (i < Z.to_nat n)%nat).
    2: { rewrite (lookup_ge_None_2 (take _ _)) by (rewrite length_take; lia).
         rewrite lookup_extend. repeat (rewrite decide_False by lia). done. }
    rewrite lookup_take_lt by done. case_decide; [by apply splice_lookup_in; lia|].
    rewrite splice_lookup_out, lookup_extend by lia.
    destruct (decide (i < length (file b))%nat).
    + unfold file. rewrite Hm. simpl. by rewrite lookup_take_lt by lia.
    + rewrite decide_True by lia. destruct (lookup_lt_is_Some_2 m i) as [c Hc]; [lia|].
      rewrite Hc. f_equal. eapply Hz; [|exact Hc]. lia.
Qed.

Lemma written_nil offset f : written offset [] f = extend offset f.
Proof. unfold written. by rewrite splice_nil, Nat.add_0_r. Qed.

(** [growable_buf_pwrite] up to the growth of the buffer. *)
Lemma write_tail bytes offset s :
  gb_inv (g_buf s) → 0 ≤ offset → Z.of_nat (length bytes) + offset ≤ 1073741824 →
  Z.of_nat (length bytes) + offset ≤ capacity (g_buf s) →
  let count := Z.of_nat (length bytes) in let end_ := u32 (offset + count) in
  wp (_ ← gb_write offset bytes; s ← get;
      _ ← when (gb_size (g_buf s) <? end_) (set_size end_); mret (s32 count))
     (λ rc s', rc = count ∧ gb_inv (g_buf s') ∧
        file (g_buf s') = written (Z.to_nat offset) bytes (file (g_buf s)) ∧
        capacity (g_buf s') = capacity (g_buf s)) s.
Proof.
  intros Hi Ho Hb Hc count end_. destruct (gi_size _ Hi).
  assert (end_ = offset + count) as -> by (apply u32_small; unfold count, U32; lia).
  assert (s32 count = count) as -> by (apply s32_small; unfold count; lia).
  destruct (gb_addr (g_buf s)) eqn:Ha.
  - destruct (gi_mem _ Hi Ha) as (m & Hm & Hl & _). wp_keep.
    pose proof (store_written _ m (Z.to_nat offset) bytes
      (Z.max (gb_size (g_buf s)) (offset + count)) Hi Ha Hm) as Hst.
    assert (g_buf s = GrowableBuf true (capacity (g_buf s)) (gb_size (g_buf s)) (Some m)) as Hg
      by (destruct (g_buf s); simpl in *; congruence).
    apply (wp_mono _ (λ _ s', g_buf s' = GrowableBuf true (capacity (g_buf s)) (gb_size (g_buf s))
      (Some (splice (Z.to_nat offset) bytes m)))).
    { unfold gb_write. destruct bytes as [|c l]; [rewrite splice_nil; by wp_keep|].
      wp_keep. eapply wp_access; [exact Hm|]. wp_keep.
      rewrite (proj2 (Z.ltb_ge offset 0)), (proj2 (Z.ltb_ge (Z.of_nat (length m)) _))
        by (unfold count in *; lia). wp_keep. simpl. by rewrite Ha. }
    intros _ s' Hs'. wp_keep. rewrite Hs'. cbn [gb_size].
    apply wp_when; intros Hlt; bool_to_prop; unfold set_size; wp_keep; split; try done;
      cbn [set_buf g_buf]; rewrite Hs'; cbn [gb_addr capacity gb_mem];
      rewrite ?Z.max_l, ?Z.max_r in Hst by lia; split_and!; try done; apply Hst; unfold count in *; lia.
  - assert (capacity (g_buf s) = 0) as Hc0 by by apply gi_addr.
    assert (bytes = [] ∧ offset = 0) as [-> ->].
    { destruct bytes; simpl in *; split; try done; lia. }
    wp_keep. unfold gb_write. wp_keep. rewrite (proj2 (Z.ltb_ge _ _)) by (unfold count in *; simpl; lia).
    wp_keep. split_and!; [done|done| |done]. rewrite written_nil. simpl. unfold extend. simpl.
    by rewrite app_nil_r.
Qed.

Lemma growable_buf_pwrite_wp s bytes offset :
  gb_inv (g_buf s) → capacity (g_buf s) ≤ 1073741824 →
  0 ≤ offset → Z.of_nat (length bytes) + offset ≤ 1073741824 →
  wp (growable_buf_pwrite bytes offset) (λ rc s',
    (rc = Z.of_nat (length bytes) ∧ gb_inv (g_buf s') ∧
       file (g_buf s') = written (Z.to_nat offset) bytes (file (g_buf s)) ∧
       capacity (g_buf s') ≤ Z.max (capacity (g_buf s)) (2 * (Z.of_nat (length bytes) + offset) + 4096)) ∨
    (rc = ERR ENOMEM ∧ (g_buf s' = g_buf s ∨ lost (g_buf s')))) s.
Proof.
  intros Hi Hc Ho Hb. unfold growable_buf_pwrite. wp_keep.
  assert (u32 (offset + Z.of_nat (length bytes)) = offset + Z.of_nat (length bytes)) as He
    by (apply u32_small; unfold U32; lia).
  destruct (Z.ltb_spec (capacity (g_buf s)) (u32 (offset + Z.of_nat (length bytes)))) as [Hlt|Hge].
  - eapply wp_mono; [apply grow_buf_spec; [done|done|lia]|].
    intros rc s' [(-> & Hi' & Hf & _ & Hr & Hm & _)|(-> & H')].
    + change (IS_ERR 0) with false. cbv iota. rewrite <-Hf.
      eapply wp_mono; [apply write_tail; [done|done|done|lia]|]. intros ? s2 (-> & ? & ? & Hcap). left. split_and!; [done..|lia].
    + change (IS_ERR (ERR ENOMEM)) with true. cbv iota. wp_keep. tauto.
  - wp_keep. change (IS_ERR 0) with false. cbv iota.
    eapply wp_mono; [apply write_tail; [done|done|done|lia]|]. intros ? s2 (-> & ? & ? & Hcap). left. split_and!; [done..|lia].
Qed.

Lemma growable_buf_pread_run s count offset :
  gb_inv (g_buf s) → gb_size (g_buf s) < 2147483648 →
  0 ≤ offset → 0 ≤ count < 2147483648 → offset + count < U32 →
  let bytes := take (Z.to_nat count) (drop (Z.to_nat offset) (file (g_buf s))) in
  growable_buf_pread count offset s = Done (Z.of_nat (length bytes), bytes) s.
Proof.
  intros Hi Hsz Ho Hc Hoc bytes. unfold growable_buf_pread. destruct (gi_size _ Hi).
  unfold mbind, K_bind, get, mret, K_ret. cbn beta iota zeta.
  rewrite !u32_small by lia. pose proof (length_file _ Hi) as Hlf.
  assert (length bytes = Z.to_nat (Z.min count (gb_size (g_buf s) - offset))) as Hlb
    by (unfold bytes; rewrite length_take, length_drop; lia).
  destruct (Z.leb_spec (gb_size (g_buf s)) offset).
  { rewrite Hlb. replace (Z.to_nat (Z.min _ _)) with 0%nat by lia.
    destruct bytes; [done|]. simpl in Hlb. lia. }
  destruct (gb_addr (g_buf s)) eqn:Ha; [|rewrite (gi_addr _ Hi Ha) in *; lia].
  destruct (gi_mem _ Hi Ha) as (m & Hm & Hl & _).
  set (n := if gb_size (g_buf s) <=? offset + count then _ else count).
  assert (n = Z.min count (gb_size (g_buf s) - offset)) as Hn.
  { unfold n. destruct (Z.leb_spec (gb_size (g_buf s)) (offset + count)); [|lia].
    rewrite u32_small by (unfold U32; lia). lia. }
  unfold gb_read, mbind, K_bind, get, mret, K_ret, access. cbn beta iota zeta. rewrite Hm.
  unfold mret, K_ret.
  rewrite (proj2 (Z.ltb_ge offset 0)), (proj2 (Z.ltb_ge (Z.of_nat (length m)) _)) by lia. simpl.
  rewrite s32_small by lia. rewrite Hlb, Z2Nat.id by lia. do 2 f_equal; [lia|].
  unfold bytes, file. rewrite Hm. simpl. rewrite skipn_firstn_comm, firstn_firstn. f_equal. lia.
Qed.

(** ** Properties *)

(** Writing bytes at an offset of a file either answers the number of bytes
    and makes the file exactly [written]: the bytes at their offset, zeros in
    the gap behind the old end, the rest as it was; or it answers -ENOMEM, the
    buffer being as it was or, when the old region could not be given back, its
    contents being unmapped while the buffer still points to it. *)
Lemma growable_buf_pwrite_spec s bytes offset :
  gb_inv (g_buf s) → capacity (g_buf s) ≤ 1073741824 →
  0 ≤ offset → Z.of_nat (length bytes) + offset ≤ 1073741824 →
  wp (growable_buf_pwrite bytes offset) (λ rc s',
    (rc = Z.of_nat (length bytes) ∧ gb_inv (g_buf s') ∧
       file (g_buf s') = written (Z.to_nat offset) bytes (file (g_buf s))) ∨
    (rc = ERR ENOMEM ∧ (g_buf s' = g_buf s ∨ lost (g_buf s')))) s.
Proof.
  intros. eapply wp_mono; [by apply growable_buf_pwrite_wp|]. intros rc s' [(? & ? & ? & _)|?]; tauto.
Qed.

(** A read returns the bytes of the file from the offset on, as many as are
    asked for and there, and changes nothing; behind the end it returns none. *)
Lemma growable_buf_pread_spec s count offset :
  gb_inv (g_buf s) → gb_size (g_buf s) < 2147483648 →
  0 ≤ offset → 0 ≤ count < 2147483648 → offset + count < U32 →
  let bytes := take (Z.to_nat count) (drop (Z.to_nat offset) (file (g_buf s))) in
  growable_buf_pread count offset s = Done (Z.of_nat (length bytes), bytes) s.
Proof. apply growable_buf_pread_run. Qed.

(** ** Witnesses *)
Definition hello : growable_buf :=
  GrowableBuf true 4096 5 (Some (lit "hello" ++ zeros 4091)).
Lemma hello_inv : gb_inv hello.
Proof.
  split; cbn [gb_addr gb_mem gb_size capacity hello]; [lia|by split|done| |done].
  intros _. eexists. split; [reflexivity|]. split; [done|].
  intros i c Hi Hl. change (104 :: 101 :: 108 :: 108 :: 111 :: ?l) with ([104;101;108;108;111] ++ l) in Hl.
  rewrite lookup_app_r in Hl by (simpl; lia). by apply lookup_replicate_1 in Hl as [-> _].
Qed.
Lemma growable_buf_pwrite_spec_witness :
  wp (growable_buf_pwrite (lit "world") 7) (λ rc s',
    (rc = 5 ∧ gb_inv (g_buf s') ∧ file (g_buf s') = written 7 (lit "world") (lit "hello")) ∨
    (rc = ERR ENOMEM ∧ (g_buf s' = hello ∨ lost (g_buf s')))) (GState hello [false]).
Proof.
  apply (growable_buf_pwrite_spec (GState hello [false]) (lit "world") 7 hello_inv); simpl; lia.
Defined.
Lemma growable_buf_pread_spec_witness :
  growable_buf_pread 100 1 (GState hello []) = Done (4, lit "ello") (GState hello []).
Proof.
  apply (growable_buf_pread_spec (GState hello []) 100 1 hello_inv); unfold U32; simpl; lia.
Defined.
Example written_example : written 7 (lit "wor") (lit "hello") = lit "hello" ++ [0; 0] ++ lit "wor".
Proof. reflexivity. Qed.
