(* ===== verification/Kernel.v ===== *)
(** * The state of the kernel: inodes, descriptions, processes (kernel/fs/fs.h,
    kernel/fs/dentry.h, kernel/fs/tmpfs.c, kernel/fs/fifo.c, kernel/process.h)

    Objects on the kernel heap are named by numbers; a freed object is gone from
    its map, so that a use after free is undefined. [kmalloc] answers from a list
    of grants: exhausted, every request succeeds. *)
From stdpp Require Import countable fin_maps.
From S2P Require Import Prelude Errno Lock RingBuf GrowableBuf.

(** ** Inodes *)

(** The tables of operations of the file systems and devices. *)
Inductive file_ops : Set :=
  | dir_fops
  | non_dir_fops
  | fifo_fops
  | null_fops
  | zero_fops
  | full_fops
  | random_fops
  | socket_fops.
#[global] Instance file_ops_eq_dec : EqDecision file_ops.
Proof. solve_decision. Defined.

(** [struct dentry]: a name and the inode it points to; the list links are the
    list. *)
Definition dentry : Type := list Z * nat.

(** [unix_socket] of kernel/socket.h behind its inode: [next] is the link of the
    pending queue the socket waits in, and for a listener its first element;
    [connector_fd] a description. *)
Record unix_socket : Type := UnixSocket {
  backlog : Z;
  num_pending : Z;
  next : option nat;
  connected : bool;
  connector_fd : option nat;
  server_to_client_buf : ring_buf;
  client_to_server_buf : ring_buf;
}.

(** What follows [struct inode] in the objects of each kind: [tmpfs_inode],
    [struct fifo], [unix_socket], or nothing (devices). *)
Inductive inode_data : Type :=
  | TmpfsData (buf : growable_buf) (children : list dentry)
  | FifoData (buf : ring_buf) (num_readers num_writers : Z)
  | SocketData (socket : unix_socket)
  | NoData.

Record inode : Type := Inode {
  fs_root_inode : option nat;
  fops : file_ops;
  device_id : Z;
  bound_socket : option nat;
  num_links : Z;
  ref_count : Z;
  mode : Z;
  data : inode_data;
}.
Definition set_data (d : inode_data) (nd : inode) : inode :=
  Inode (fs_root_inode nd) (fops nd) (device_id nd) (bound_socket nd) (num_links nd)
    (ref_count nd) (mode nd) d.
Definition set_ref_count (n : Z) (nd : inode) : inode :=
  Inode (fs_root_inode nd) (fops nd) (device_id nd) (bound_socket nd) (num_links nd)
    n (mode nd) (data nd).
Definition set_num_links (n : Z) (nd : inode) : inode :=
  Inode (fs_root_inode nd) (fops nd) (device_id nd) (bound_socket nd) n
    (ref_count nd) (mode nd) (data nd).
Definition set_device_id (n : Z) (nd : inode) : inode :=
  Inode (fs_root_inode nd) (fops nd) n (bound_socket nd) (num_links nd)
    (ref_count nd) (mode nd) (data nd).
Definition set_bound_socket (s : option nat) (nd : inode) : inode :=
  Inode (fs_root_inode nd) (fops nd) (device_id nd) s (num_links nd)
    (ref_count nd) (mode nd) (data nd).

(** [struct file_description]; [flags] as an unsigned word. *)
Record file_description : Type := FileDescription {
  d_inode : nat;
  d_flags : Z;
  d_offset : Z;
  d_ref_count : Z;
}.
Definition set_offset (o : Z) (d : file_description) : file_description :=
  FileDescription (d_inode d) (d_flags d) o (d_ref_count d).
Definition set_flags (f : Z) (d : file_description) : file_description :=
  FileDescription (d_inode d) f (d_offset d) (d_ref_count d).
Definition set_d_ref_count (n : Z) (d : file_description) : file_description :=
  FileDescription (d_inode d) (d_flags d) (d_offset d) n.

(** The mutexes of these objects. *)
Inductive lock_name : Set :=
  | ChildrenLock (i : nat)
  | BufLock (i : nat)
  | RingLock (i : nat)
  | OffsetLock (d : nat)
  | SocketBufLock (i : nat) (to_client : bool)
  | PendingQueueLock (i : nat).
#[global] Instance lock_name_eq_dec : EqDecision lock_name.
Proof. solve_decision. Defined.
#[global] Instance lock_name_countable : Countable lock_name.
Proof.
  apply (inj_countable'
    (λ l, match l with ChildrenLock i => (0%nat, i) | BufLock i => (1%nat, i)
                     | RingLock i => (2%nat, i) | OffsetLock d => (3%nat, d)
                     | SocketBufLock i true => (4%nat, i) | SocketBufLock i false => (5%nat, i)
                     | PendingQueueLock i => (6%nat, i) end)
    (λ '(k, i), match k with O => ChildrenLock i | 1%nat => BufLock i
                           | 2%nat => RingLock i | 3%nat => OffsetLock i
                           | 4%nat => SocketBufLock i true | 5%nat => SocketBufLock i false
                           | _ => PendingQueueLock i end)).
  by intros [| | | |? []|].
Defined.

(** ** Processes *)
Inductive process_state : Set :=
  | PROCESS_STATE_RUNNABLE
  | PROCESS_STATE_RUNNING
  | PROCESS_STATE_BLOCKED
  | PROCESS_STATE_DYING
  | PROCESS_STATE_DEAD.
#[global] Instance process_state_eq_dec : EqDecision process_state.
Proof. solve_decision. Defined.

(** The conditions processes wait for: [should_unblock] with [blocker_data]. *)
Inductive blocker : Set :=
  | FifoReadable (desc : nat)
  | FifoWritable (desc : nat)
  | SocketReadable (desc : nat)
  | SocketWritable (desc : nat)
  | SocketPending (listener : nat)
  | SocketConnected (connector : nat)
  | Waitpid (param_pid current_pid current_pgid : Z).

(** [struct process] without its register and memory-management fields;
    [waited_process] is the result field of a waitpid blocker. *)
Record process : Type := Process {
  pid : Z;
  ppid : Z;
  pgid : Z;
  pstate : process_state;
  exit_status : Z;
  comm : list Z;
  cwd_path : list Z;
  cwd_inode : option nat;
  fd_table : list (option nat);
  should_unblock : option blocker;
  waited_process : option nat;
  blocker_was_interrupted : bool;
  user_ticks : Z;
  kernel_ticks : Z;
  pending_signals : Z;
}.

Record kstate : Type := KState {
  inodes : gmap nat inode;
  descs : gmap nat file_description;
  root : option nat;
  mount_points : list (nat * nat);
  devices : list nat;
  locks : gmap lock_name mutex;
  procs : gmap nat process;
  all_processes : list nat;
  ready_queue : list nat;
  idle : option nat;
  current : nat;
  next_pid : Z;
  rand_state : Z;
  grants : list bool;
}.

Definition with_inodes (f : gmap nat inode → gmap nat inode) (s : kstate) : kstate :=
  KState (f (inodes s)) (descs s) (root s) (mount_points s) (devices s) (locks s) (procs s)
    (all_processes s) (ready_queue s) (idle s) (current s) (next_pid s) (rand_state s) (grants s).
Definition with_descs (f : gmap nat file_description → gmap nat file_description)
    (s : kstate) : kstate :=
  KState (inodes s) (f (descs s)) (root s) (mount_points s) (devices s) (locks s) (procs s)
    (all_processes s) (ready_queue s) (idle s) (current s) (next_pid s) (rand_state s) (grants s).
Definition with_mounts (r : option nat) (ms : list (nat * nat)) (ds : list nat)
    (s : kstate) : kstate :=
  KState (inodes s) (descs s) r ms ds (locks s) (procs s)
    (all_processes s) (ready_queue s) (idle s) (current s) (next_pid s) (rand_state s) (grants s).
Definition with_locks (l : gmap lock_name mutex) (s : kstate) : kstate :=
  KState (inodes s) (descs s) (root s) (mount_points s) (devices s) l (procs s)
    (all_processes s) (ready_queue s) (idle s) (current s) (next_pid s) (rand_state s) (grants s).
Definition with_procs (f : gmap nat process → gmap nat process) (s : kstate) : kstate :=
  KState (inodes s) (descs s) (root s) (mount_points s) (devices s) (locks s) (f (procs s))
    (all_processes s) (ready_queue s) (idle s) (current s) (next_pid s) (rand_state s) (grants s).
Definition with_sched (all ready : list nat) (cur : nat) (s : kstate) : kstate :=
  KState (inodes s) (descs s) (root s) (mount_points s) (devices s) (locks s) (procs s)
    all ready (idle s) cur (next_pid s) (rand_state s) (grants s).
Definition with_next_pid (n : Z) (s : kstate) : kstate :=
  KState (inodes s) (descs s) (root s) (mount_points s) (devices s) (locks s) (procs s)
    (all_processes s) (ready_queue s) (idle s) (current s) n (rand_state s) (grants s).
Definition with_rand (r : Z) (s : kstate) : kstate :=
  KState (inodes s) (descs s) (root s) (mount_points s) (devices s) (locks s) (procs s)
    (all_processes s) (ready_queue s) (idle s) (current s) (next_pid s) r (grants s).
Definition with_grants (g : list bool) (s : kstate) : kstate :=
  KState (inodes s) (descs s) (root s) (mount_points s) (devices s) (locks s) (procs s)
    (all_processes s) (ready_queue s) (idle s) (current s) (next_pid s) (rand_state s) g.

(** ** Access to the objects *)
Definition node (i : nat) : K kstate inode := s ← get; access (inodes s !! i).
Definition set_node (i : nat) (nd : inode) : K kstate unit := modify (with_inodes <[i := nd]>).
Definition free_node (i : nat) : K kstate unit := modify (with_inodes (delete i)).
Definition desc (d : nat) : K kstate file_description := s ← get; access (descs s !! d).
Definition set_desc (d : nat) (x : file_description) : K kstate unit :=
  modify (with_descs <[d := x]>).
Definition free_desc (d : nat) : K kstate unit := modify (with_descs (delete d)).
Definition proc (p : nat) : K kstate process := s ← get; access (procs s !! p).
Definition set_proc (p : nat) (x : process) : K kstate unit := modify (with_procs <[p := x]>).
Definition current_process : K kstate process := s ← get; proc (current s).

(** Whether a [kmalloc] finds memory. *)
Definition kmalloc_ok : K kstate bool := λ s,
  match grants s with
  | [] => Done true s
  | b :: g => Done b (with_grants g s)
  end.

(** A number that names no object yet. *)
Definition fresh_node (s : kstate) : nat := fresh (dom (inodes s)).
Definition fresh_desc (s : kstate) : nat := fresh (dom (descs s)).

(** Mutexes that nobody holds are not listed. *)
Definition put_mutex (l : lock_name) (m : mutex) (s : kstate) : kstate :=
  with_locks (match m with Mutex None 0 false => delete l (locks s)
                         | _ => <[l := m]> (locks s) end) s.
Definition get_mutex (l : lock_name) (s : kstate) : mutex := default mutex_zero (locks s !! l).
Definition lock_mutex (l : lock_name) : K kstate unit :=
  s ← get; zoom (get_mutex l) (put_mutex l) (mutex_lock true (current s)).
Definition unlock_mutex (l : lock_name) : K kstate unit :=
  s ← get; zoom (get_mutex l) (put_mutex l) (mutex_unlock (current s)).
Definition unlock_mutex_if_locked (l : lock_name) : K kstate bool :=
  s ← get; zoom (get_mutex l) (put_mutex l) (mutex_unlock_if_locked (current s)).

(** [mutex_lock(l); r = m; mutex_unlock(l); return r;] *)
Definition locked {A} (l : lock_name) (m : K kstate A) : K kstate A :=
  _ ← lock_mutex l; a ← m; _ ← unlock_mutex l; mret a.

(** ** File modes (kernel/api/sys/stat.h) *)
Definition S_IFMT : Z := 0xf000.
Definition S_IFDIR : Z := 0x4000.
Definition S_IFCHR : Z := 0x2000.
Definition S_IFBLK : Z := 0x6000.
Definition S_IFREG : Z := 0x8000.
Definition S_IFIFO : Z := 0x1000.
Definition S_IFLNK : Z := 0xa000.
Definition S_IFSOCK : Z := 0xc000.
Definition S_ISDIR (m : Z) : bool := Z.land m S_IFMT =? S_IFDIR.
Definition S_ISCHR (m : Z) : bool := Z.land m S_IFMT =? S_IFCHR.
Definition S_ISSOCK (m : Z) : bool := Z.land m S_IFMT =? S_IFSOCK.
Definition S_ISBLK (m : Z) : bool := Z.land m S_IFMT =? S_IFBLK.
(** kernel/api/fcntl.h *)
Definition O_RDONLY : Z := 1.
Definition O_WRONLY : Z := 2.
Definition O_RDWR : Z := 3.
Definition O_CREAT : Z := 8.
Definition O_EXCL : Z := 16.
Definition O_NONBLOCK : Z := 256.
Definition has_flag (flags f : Z) : bool := negb (Z.land flags f =? 0).
Definition OPEN_MAX : nat := 1024.
#[global] Arguments OPEN_MAX : simpl never.

(** ** Locks in sequential computations *)
Definition held_mutex (s : kstate) : mutex := Mutex (Some (current s)) 1 false.

Lemma with_locks_id s : with_locks (locks s) s = s.
Proof. by destruct s. Qed.
Lemma with_locks_twice l l' s : with_locks l (with_locks l' s) = with_locks l s.
Proof. done. Qed.

Lemma wp_lock_mutex l s (Q : unit → kstate → Prop) :
  locks s !! l = None → Q tt (with_locks (<[l := held_mutex s]> (locks s)) s) →
  wp (lock_mutex l) Q s.
Proof.
  intros Hl HQ. unfold lock_mutex. wp_keep. unfold get_mutex. rewrite Hl.
  by apply (wp_mutex_lock _ 0); [apply available_zero|].
Qed.
Lemma wp_unlock_mutex l s (Q : unit → kstate → Prop) :
  locks s !! l = Some (held_mutex s) → Q tt (with_locks (delete l (locks s)) s) →
  wp (unlock_mutex l) Q s.
Proof.
  intros Hl HQ. unfold unlock_mutex. wp_keep. unfold get_mutex. rewrite Hl.
  by apply (wp_mutex_unlock _ 0 mutex_zero); [apply available_zero|].
Qed.
(** A critical section entered with the mutex free. *)
Lemma wp_locked {A} l (m : K kstate A) (Q : A → kstate → Prop) s :
  locks s !! l = None →
  wp m (λ a s', locks s' = <[l := held_mutex s]> (locks s) ∧ current s' = current s ∧
                Q a (with_locks (locks s) s'))
     (with_locks (<[l := held_mutex s]> (locks s)) s) →
  wp (locked l m) Q s.
Proof.
  intros Hl Hm. unfold locked. wp_keep. apply wp_lock_mutex; [done|]. wp_keep.
  eapply wp_mono; [exact Hm|]. intros a s' (Hs' & Hc & HQ). wp_keep.
  apply wp_unlock_mutex.
  - rewrite Hs'. unfold held_mutex. rewrite Hc. apply lookup_insert_eq.
  - wp_keep. rewrite Hs'. rewrite delete_insert_id by done. done.
Qed.

(** ** Updates in a row *)
Lemma with_descs_inodes f g s : with_descs g (with_inodes f s) = with_inodes f (with_descs g s).
Proof. done. Qed.
Lemma with_inodes_twice i x y s :
  with_inodes <[i := x]> (with_inodes <[i := y]> s) = with_inodes <[i := x]> s.
Proof. unfold with_inodes. cbn. by rewrite insert_insert_eq. Qed.
Lemma with_procs_twice i x y s :
  with_procs <[i := x]> (with_procs <[i := y]> s) = with_procs <[i := x]> s.
Proof. unfold with_procs. cbn. by rewrite insert_insert_eq. Qed.
Lemma with_procs_id s f : f (procs s) = procs s → with_procs f s = s.
Proof. intros Hf. unfold with_procs. rewrite Hf. by destruct s. Qed.
Lemma with_inodes_procs f g s : with_inodes f (with_procs g s) = with_procs g (with_inodes f s).
Proof. done. Qed.
