(* ===== verification/Inode.v ===== *)
(** * References to inodes and directory entries (kernel/fs/fs.c,
    kernel/fs/dentry.c, the destructors of kernel/fs/tmpfs.c, kernel/fs/fifo.c
    and kernel/unix_socket.c)

    An inode lives while it has references or links. [inode_unref] destroys it
    otherwise, which drops the references its directory entries hold, and so on;
    the recursion is bounded by the number of inodes. *)
From stdpp Require Import fin_maps.
From S2P Require Import Prelude Errno RingBuf GrowableBuf Kernel.

Definition inode_ref (i : nat) : K kstate unit :=
  nd ← node i; set_node i (set_ref_count (u32 (ref_count nd + 1)) nd).

(** A computation on the buffer of a tmpfs inode. *)
Definition with_buf {A} (i : nat) (m : K gstate A) : K kstate A :=
  s ← get; nd ← node i;
  match data nd with
  | TmpfsData buf children =>
      zoom (λ s, GState buf (grants s))
           (λ g s, with_inodes <[i := set_data (TmpfsData (g_buf g) children) nd]>
                     (with_grants (g_grants g) s)) m
  | _ => undef
  end.
Definition children (i : nat) : K kstate (list dentry) :=
  nd ← node i; match data nd with TmpfsData _ children => mret children | _ => undef end.
Definition set_children (i : nat) (l : list dentry) : K kstate unit :=
  nd ← node i;
  match data nd with
  | TmpfsData buf _ => set_node i (set_data (TmpfsData buf l) nd)
  | _ => undef
  end.

(** The destructors call back [inode_unref]. *)
Section destroy.
Context (inode_unref : nat → K kstate unit).

Fixpoint dentry_clear (head : list dentry) : K kstate unit :=
  match head with
  | [] => mret tt
  | (_, i) :: next =>
      nd ← node i;
      _ ← ASSERT (0 <? num_links nd);
      _ ← set_node i (set_num_links (u32 (num_links nd - 1)) nd);
      _ ← inode_unref i;
      dentry_clear next
  end.

Definition tmpfs_destroy_inode (i : nat) : K kstate unit :=
  _ ← with_buf i growable_buf_destroy;
  l ← children i;
  _ ← dentry_clear l;
  free_node i.

Definition fifo_destroy_inode (i : nat) : K kstate unit :=
  nd ← node i;
  match data nd with
  | FifoData _ _ _ => free_node i (* ring_buf_destroy and kfree *)
  | _ => undef
  end.

Definition unix_socket_destroy_inode (i : nat) : K kstate unit :=
  nd ← node i;
  match data nd with
  | SocketData _ => free_node i (* ring_buf_destroy and kfree *)
  | _ => undef
  end.

(** [inode->fops->destroy_inode]. *)
Definition fops_destroy_inode (f : file_ops) : option (nat → K kstate unit) :=
  match f with
  | dir_fops | non_dir_fops => Some tmpfs_destroy_inode
  | fifo_fops => Some fifo_destroy_inode
  | socket_fops => Some unix_socket_destroy_inode
  | null_fops | zero_fops | full_fops | random_fops => None
  end.

Definition inode_destroy (i : nat) : K kstate unit :=
  nd ← node i;
  _ ← ASSERT ((ref_count nd =? 0) && (num_links nd =? 0));
  match fops_destroy_inode (fops nd) with
  | Some destroy_inode => destroy_inode i
  | None => panic
  end.
End destroy.

Fixpoint inode_unref_fuel (fuel : nat) (i : nat) : K kstate unit :=
  nd ← node i;
  _ ← ASSERT (0 <? ref_count nd);
  let n := ref_count nd - 1 in
  _ ← set_node i (set_ref_count n nd);
  if (n =? 0) && (num_links nd =? 0) then
    match fuel with
    | O => out_of_fuel
    | S fuel => inode_destroy (inode_unref_fuel fuel) i
    end
  else mret tt.
Definition inode_unref (i : nat) : K kstate unit :=
  s ← get; inode_unref_fuel (S (size (inodes s))) i.
(** [inode_unref] of a pointer that may be null. *)
Definition inode_unref_opt (i : option nat) : K kstate unit :=
  match i with Some i => inode_unref i | None => mret tt end.

(** ** Directory entries; names are compared by strcmp, which tells strings
    apart exactly when they differ (CString.strcmp_spec). *)
Definition same_name (a b : list Z) : bool := bool_decide (a = b).

Fixpoint dentry_find (head : list dentry) (name : list Z) : K kstate (ptr_res nat) :=
  match head with
  | [] => mret (ERR_PTR (ERR ENOENT))
  | (n, i) :: next =>
      if same_name n name then _ ← inode_ref i; mret (PTR i) else dentry_find next name
  end.

(** The entries at [*head] are returned with the result. *)
Definition dentry_append (head : list dentry) (name : list Z) (child : nat)
    : K kstate (Z * list dentry) :=
  if existsb (λ e, same_name e.1 name) head then mret (ERR EEXIST, head)
  else
    ok ← kmalloc_ok;
    if negb ok then mret (ERR ENOMEM, head)
    else
      ok ← kmalloc_ok; (* kstrdup *)
      if negb ok then mret (ERR ENOMEM, head)
      else
        nd ← node child;
        _ ← set_node child (set_num_links (u32 (num_links nd + 1)) nd);
        mret (0, head ++ [(name, child)]).

Fixpoint dentry_remove (head : list dentry) (name : list Z)
    : K kstate (ptr_res nat * list dentry) :=
  match head with
  | [] => mret (ERR_PTR (ERR ENOENT), [])
  | (n, i) :: next =>
      if same_name n name then
        nd ← node i;
        _ ← ASSERT (0 <? num_links nd);
        _ ← set_node i (set_num_links (u32 (num_links nd - 1)) nd);
        mret (PTR i, next)
      else '(r, next) ← dentry_remove next name; mret (r, (n, i) :: next)
  end.

(** ** References added and dropped *)

(** [s] with [n] more references to [i]. *)
Definition bump (i : nat) (n : Z) : kstate → kstate :=
  with_inodes (alter (λ nd, set_ref_count (u32 (ref_count nd + n)) nd) i).

Lemma with_inodes_id s f : f (inodes s) = inodes s → with_inodes f s = s.
Proof. destruct s; unfold with_inodes; simpl. by intros ->. Qed.
Lemma lookup_bump i n s : inodes (bump i n s) !! i =
  (λ nd, set_ref_count (u32 (ref_count nd + n)) nd) <$> inodes s !! i.
Proof. apply lookup_alter_eq. Qed.
Lemma lookup_bump_ne i j n s : i ≠ j → inodes (bump i n s) !! j = inodes s !! j.
Proof. apply lookup_alter_ne. Qed.
Lemma bump_bump i a b s : bump i a (bump i b s) = bump i (a + b) s.
Proof.
  unfold bump, with_inodes; simpl. f_equal. apply map_eq. intros j.
  destruct (decide (i = j)) as [->|]; [|by rewrite !lookup_alter_ne].
  rewrite !lookup_alter_eq. destruct (inodes s !! j) as [nd|]; simpl; [|done].
  unfold set_ref_count; simpl. do 2 f_equal. unfold u32.
  rewrite Zplus_mod_idemp_l. f_equal. lia.
Qed.
Lemma bump_comm i j a b s : bump i a (bump j b s) = bump j b (bump i a s).
Proof.
  destruct (decide (i = j)) as [->|]; [rewrite !bump_bump; f_equal; lia|].
  unfold bump, with_inodes; simpl. f_equal. by apply alter_alter_ne.
Qed.
(** The counter of [i] is a proper 32-bit word. *)
Definition counted (i : nat) (s : kstate) : Prop :=
  ∀ nd, inodes s !! i = Some nd → 0 ≤ ref_count nd < U32.
Lemma bump_0 i s : counted i s → bump i 0 s = s.
Proof.
  intros Hc. apply with_inodes_id. apply map_eq. intros j.
  destruct (decide (i = j)) as [->|]; [|by rewrite lookup_alter_ne].
  rewrite lookup_alter_eq. destruct (inodes s !! j) as [nd|] eqn:E; simpl; [|done].
  f_equal. rewrite Z.add_0_r, u32_small by by apply Hc. by destruct nd.
Qed.

Lemma node_run i nd s : inodes s !! i = Some nd → node i s = Done nd s.
Proof. unfold node, mbind, K_bind, get. by intros ->. Qed.
Lemma wp_node i nd s Q : inodes s !! i = Some nd → Q nd s → wp (node i) Q s.
Proof. intros H HQ. eapply wp_run; [by apply node_run|done]. Qed.
Lemma inode_ref_run i s : is_Some (inodes s !! i) → inode_ref i s = Done tt (bump i 1 s).
Proof.
  intros [nd Hnd]. unfold inode_ref. rewrite (bind_run _ _ _ _ _ (node_run _ _ _ Hnd)).
  assert (bump i 1 s = with_inodes <[i := set_ref_count (u32 (ref_count nd + 1)) nd]> s) as ->;
    [|done].
  unfold bump, with_inodes. f_equal. by rewrite alter_alt, Hnd.
Qed.

(** The state after the counter went down. *)
Lemma inode_unref_start fuel i nd s :
  inodes s !! i = Some nd → 0 < ref_count nd < U32 →
  inode_unref_fuel fuel i s =
    (if (ref_count nd - 1 =? 0) && (num_links nd =? 0) then
       match fuel with
       | O => out_of_fuel
       | S fuel => inode_destroy (inode_unref_fuel fuel) i
       end
     else mret tt) (bump i (-1) s).
Proof.
  intros Hnd Hr.
  assert (bump i (-1) s = with_inodes <[i := set_ref_count (ref_count nd - 1) nd]> s) as ->.
  { unfold bump, with_inodes. f_equal. rewrite alter_alt, Hnd.
    do 2 f_equal. apply u32_small. lia. }
  destruct fuel; cbn [inode_unref_fuel];
    rewrite (bind_run _ _ _ _ _ (node_run _ _ _ Hnd));
    rewrite (proj2 (Z.ltb_lt 0 (ref_count nd))) by lia; done.
Qed.
(** A reference that is not the last one. *)
Lemma inode_unref_run i nd s :
  inodes s !! i = Some nd → 0 < ref_count nd < U32 → ref_count nd ≠ 1 ∨ num_links nd ≠ 0 →
  inode_unref i s = Done tt (bump i (-1) s).
Proof.
  intros Hnd Hr Hor. unfold inode_unref. unfold mbind, K_bind, get.
  rewrite (inode_unref_start _ _ _ _ Hnd Hr).
  destruct (Z.eqb_spec (ref_count nd - 1) 0), (Z.eqb_spec (num_links nd) 0); simpl; try done; lia.
Qed.

(** ** Destruction ends *)

(** The inodes with a reference, and their number. *)
Definition live_set (s : kstate) : gset nat :=
  dom (filter (λ x : nat * inode, 0 < ref_count x.2) (inodes s)).
Definition live (s : kstate) : nat := size (live_set s).
(** [m] does not run out of fuel and leaves at most [n] inodes live. *)
Definition ends {A} (m : K kstate A) (n : nat) (s : kstate) : Prop :=
  match m s with Done _ s' => (live s' ≤ n)%nat | OutOfFuel => False | Panic | Undef => True end.

Lemma elem_of_live i s : i ∈ live_set s ↔ ∃ nd, inodes s !! i = Some nd ∧ 0 < ref_count nd.
Proof.
  unfold live_set. rewrite elem_of_dom. split.
  - intros [nd H%map_lookup_filter_Some]. by exists nd.
  - intros (nd & H1 & H2). exists nd. by apply map_lookup_filter_Some.
Qed.
Lemma live_le s s' : (∀ i, i ∈ live_set s' → i ∈ live_set s) → (live s' ≤ live s)%nat.
Proof. intros H. unfold live. apply subseteq_size. set_solver. Qed.
Lemma live_lt i s s' :
  (∀ j, j ∈ live_set s' → j ∈ live_set s ∧ j ≠ i) → i ∈ live_set s → (live s' < live s)%nat.
Proof. intros H Hi. unfold live. apply subset_size. set_solver. Qed.
Lemma live_total s : (live s ≤ size (inodes s))%nat.
Proof. unfold live, live_set. rewrite size_dom. apply map_size_filter. Qed.
Lemma live_set_node s i nd nd' :
  inodes s !! i = Some nd → ref_count nd' = ref_count nd →
  (live (with_inodes <[i := nd']> s) ≤ live s)%nat.
Proof.
  intros Hnd Hr. apply live_le. intros j. rewrite !elem_of_live. intros (x & Hx & Hx0).
  cbn [with_inodes inodes] in Hx. destruct (decide (i = j)) as [->|].
  - rewrite lookup_insert_eq in Hx. injection Hx as <-. exists nd. split; [done|lia].
  - rewrite lookup_insert_ne in Hx by done. by exists x.
Qed.

Lemma ends_bind {A B} (m : K kstate A) (f : A → K kstate B) n s :
  ends m (live s) s →
  (∀ a s', m s = Done a s' → (live s' ≤ live s)%nat → ends (f a) n s') → ends (m ≫= f) n s.
Proof.
  unfold ends, mbind, K_bind. intros Hm Hf.
  destruct (m s) eqn:E; [by apply Hf|done|done|done].
Qed.
Lemma ends_ret {A} (a : A) n s : (live s ≤ n)%nat → ends (mret a) n s.
Proof. done. Qed.
Lemma ends_mono {A} (m : K kstate A) n n' s : ends m n s → (n ≤ n')%nat → ends m n' s.
Proof. unfold ends. destruct (m s); auto; lia. Qed.
Lemma ends_node i n s : (live s ≤ n)%nat → ends (node i) n s.
Proof. unfold ends, node, mbind, K_bind, get, access. by destruct (inodes s !! i). Qed.
Lemma node_Done i nd s s' : node i s = Done nd s' → s' = s ∧ inodes s !! i = Some nd.
Proof.
  unfold node, mbind, K_bind, get, access. destruct (inodes s !! i) eqn:E; [|done].
  intros [= -> ->]. done.
Qed.
Lemma ends_ASSERT b n s : (live s ≤ n)%nat → ends (ASSERT b) n s.
Proof. by destruct b. Qed.
Lemma ASSERT_Done b a (s s' : kstate) : ASSERT b s = Done a s' → b = true ∧ s' = s.
Proof. destruct b; simpl; [|done]. by intros [= _ ->]. Qed.

Section ends.
Context (unref : nat → K kstate unit) (bound : nat).
Context (unref_ends : ∀ i s, (live s ≤ bound)%nat → ends (unref i) (live s) s).

Lemma ends_dentry_clear head s : (live s ≤ bound)%nat → ends (dentry_clear unref head) (live s) s.
Proof.
  revert s. induction head as [|[n i] head IH]; intros s Hb; [by apply ends_ret|]. cbn [dentry_clear].
  apply ends_bind; [by apply ends_node|]. intros nd s1 [-> Hnd]%node_Done _.
  apply ends_bind; [by apply ends_ASSERT|]. intros _ s1 [_ ->]%ASSERT_Done _.
  assert (live (with_inodes <[i := set_num_links (u32 (num_links nd - 1)) nd]> s) ≤ live s)%nat
    as Hl by by eapply live_set_node.
  apply ends_bind; [done|]. intros ? s1 [= <- <-] _.
  apply ends_bind; [apply unref_ends; lia|]. intros ? s2 _ Hl2.
  eapply ends_mono; [apply IH; lia|lia].
Qed.

Lemma ends_free_node i s : ends (free_node i) (live s) s.
Proof.
  unfold ends, free_node, modify. apply live_le. intros j. rewrite !elem_of_live.
  cbn [with_inodes inodes]. intros (x & Hx & Hr). apply lookup_delete_Some in Hx as [_ Hx]. by exists x.
Qed.

Lemma ends_tmpfs_destroy i s :
  (live s ≤ bound)%nat → ends (tmpfs_destroy_inode unref i) (live s) s.
Proof.
  intros Hb. unfold tmpfs_destroy_inode.
  apply ends_bind.
  { unfold ends, with_buf, mbind, K_bind, get. destruct (node i s) as [nd s1| | |] eqn:E; try done.
    - apply node_Done in E as [-> E]. destruct (data nd) as [b l| | |]; try done.
      unfold zoom, growable_buf_destroy, modify. cbv beta iota.
      apply (live_set_node (with_grants _ s) i nd); [exact E|reflexivity].
    - unfold node, mbind, K_bind, get, access in E. destruct (inodes s !! i); discriminate E. }
  intros _ s1 _ Hl1. apply ends_bind.
  { unfold children. apply ends_bind; [by apply ends_node|]. intros nd s2 [-> _]%node_Done _.
    destruct (data nd); [by apply ends_ret|exact I..]. }
  intros l s2 _ Hl2. apply ends_bind; [apply ends_dentry_clear; lia|].
  intros _ s3 _ Hl3. eapply ends_mono; [apply ends_free_node|lia].
Qed.

Lemma ends_inode_destroy i s : (live s ≤ bound)%nat → ends (inode_destroy unref i) (live s) s.
Proof.
  intros Hb. unfold inode_destroy.
  apply ends_bind; [by apply ends_node|]. intros nd s1 [-> Hnd]%node_Done _.
  apply ends_bind; [by apply ends_ASSERT|]. intros _ s1 [_ ->]%ASSERT_Done _.
  destruct (fops nd); simpl; try done; [by apply ends_tmpfs_destroy..| |].
  all: unfold fifo_destroy_inode, unix_socket_destroy_inode.
  all: rewrite <-(Nat.add_0_r (live s)); apply ends_bind; [by apply ends_node|];
    intros nd' s1 [-> Hnd']%node_Done _; destruct (data nd'); try done;
    rewrite Nat.add_0_r; apply ends_free_node.
Qed.
End ends.

Lemma ends_unref_fuel fuel i s : (live s ≤ fuel)%nat → ends (inode_unref_fuel fuel i) (live s) s.
Proof.
  revert i s. induction fuel as [|fuel IH]; intros i s Hf; cbn [inode_unref_fuel].
  all: apply ends_bind; [by apply ends_node|]; intros nd s1 [-> Hnd]%node_Done _.
  all: apply ends_bind; [by apply ends_ASSERT|]; intros _ s1 [Hr ->]%ASSERT_Done _; bool_to_prop.
  - assert (i ∈ live_set s) as Hi by (apply elem_of_live; by exists nd).
    unfold live in Hf. assert (live_set s = ∅) as He by (apply leibniz_equiv, size_empty_inv; lia).
    set_solver.
  - set (s2 := with_inodes <[i := set_ref_count (ref_count nd - 1) nd]> s).
    assert (∀ j, j ∈ live_set s2 → j ∈ live_set s ∧ (ref_count nd = 1 → j ≠ i)) as Hs2.
    { intros j. rewrite !elem_of_live. intros (x & Hx & Hx0). unfold s2 in Hx.
      cbn [with_inodes inodes] in Hx. destruct (decide (i = j)) as [<-|].
      - rewrite lookup_insert_eq in Hx. injection Hx as <-. simpl in Hx0.
        split; [by exists nd|lia].
      - rewrite lookup_insert_ne in Hx by done. split; [by exists x|done]. }
    assert (live s2 ≤ live s)%nat as Hle by (apply live_le; naive_solver).
    apply ends_bind; [done|]. intros ? s3 [= <- <-] _. fold s2.
    destruct (Z.eqb_spec (ref_count nd - 1) 0) as [H1|]; simpl; [|by apply ends_ret].
    destruct (num_links nd =? 0); [|by apply ends_ret].
    assert (live s2 < live s)%nat.
    { apply (live_lt i); [intros j Hj; destruct (Hs2 j Hj); split; [done|]; auto with lia|].
      apply elem_of_live. by exists nd. }
    eapply ends_mono; [apply (ends_inode_destroy _ fuel IH); lia|lia].
Qed.


(** ** Holding references *)

(** [i] has a reference in [s], and room for [n] more. *)
Definition room (n : Z) (i : nat) (s : kstate) : Prop :=
  ∃ nd, inodes s !! i = Some nd ∧ 0 < ref_count nd ∧ ref_count nd + n < U32.

Lemma room_bump n i j s : room (n + 1) i s → 0 ≤ n → room n i (bump j 1 s).
Proof.
  intros (nd & Hnd & Hr & Hn) H0. destruct (decide (j = i)) as [->|].
  - exists (set_ref_count (u32 (ref_count nd + 1)) nd). rewrite lookup_bump, Hnd. simpl.
    rewrite u32_small by lia. split; [done|lia].
  - exists nd. rewrite lookup_bump_ne by done. split; [done|lia].
Qed.
Lemma room_mono n m i s : room n i s → m ≤ n → room m i s.
Proof. intros (nd & ? & ? & ?) ?. exists nd. split; [done|lia]. Qed.
Lemma room_some n i s : room n i s → is_Some (inodes s !! i).
Proof. intros (nd & -> & _). done. Qed.
Lemma room_counted n i s : room n i s → 0 ≤ n → counted i s.
Proof. intros (nd & Hnd & ?) Hn nd' Hnd'. simplify_eq. lia. Qed.

Lemma wp_inode_ref i s Q : is_Some (inodes s !! i) → Q tt (bump i 1 s) → wp (inode_ref i) Q s.
Proof. intros H HQ. eapply wp_run; [by apply inode_ref_run|done]. Qed.
(** Giving back a reference that was taken. *)
Lemma unref_bump i s : room 1 i s → inode_unref i (bump i 1 s) = Done tt s.
Proof.
  intros Hr. pose proof Hr as (nd & Hnd & H0 & H1).
  erewrite inode_unref_run with (nd := set_ref_count (u32 (ref_count nd + 1)) nd).
  - f_equal. rewrite bump_bump. apply bump_0. by apply (room_counted 1).
  - by rewrite lookup_bump, Hnd.
  - simpl. rewrite u32_small; lia.
  - left. simpl. rewrite u32_small; lia.
Qed.
Lemma wp_unref_bump i s (Q : unit → kstate → Prop) :
  room 1 i s → Q tt s → wp (inode_unref i) Q (bump i 1 s).
Proof. intros H HQ. eapply wp_run; [by apply unref_bump|done]. Qed.

Lemma lookup_bump_Some i n s j nd :
  inodes s !! j = Some nd → ∃ r, inodes (bump i n s) !! j = Some (set_ref_count r nd).
Proof.
  intros Hnd. destruct (decide (i = j)) as [->|].
  - rewrite lookup_bump, Hnd. by eexists.
  - rewrite lookup_bump_ne by done. exists (ref_count nd). rewrite Hnd. by destruct nd.
Qed.

(** [dentry_find] on a list of entries. *)
Fixpoint entry (head : list dentry) (name : list Z) : option nat :=
  match head with
  | [] => None
  | (n, i) :: next => if decide (n = name) then Some i else entry next name
  end.
Lemma entry_in head name i : entry head name = Some i → (name, i) ∈ head.
Proof.
  induction head as [|[n j] head IH]; simpl; [done|]. case_decide as Hn.
  - intros [= ->]. subst. left.
  - intros. right. auto.
Qed.
Lemma dentry_find_run head name s :
  (∀ n i, (n, i) ∈ head → is_Some (inodes s !! i)) →
  dentry_find head name s =
    match entry head name with
    | Some i => Done (PTR i) (bump i 1 s)
    | None => Done (ERR_PTR (ERR ENOENT)) s
    end.
Proof.
  induction head as [|[n i] head IH]; intros Hin; cbn [dentry_find entry]; [done|].
  unfold same_name, bool_decide. change (decide_rel eq n name) with (decide (n = name)).
  destruct (decide (n = name)).
  - unfold mbind, K_bind. rewrite inode_ref_run; [done|]. apply (Hin n). left.
  - apply IH. intros m j Hj. apply (Hin m). by right.
Qed.

(** The entries without the first of that name. *)
Fixpoint remove_entry (name : list Z) (head : list dentry) : list dentry :=
  match head with
  | [] => []
  | (n, i) :: next => if decide (n = name) then next else (n, i) :: remove_entry name next
  end.
(** One link fewer. *)
Definition drop_link (nd : inode) : inode := set_num_links (u32 (num_links nd - 1)) nd.
Lemma dentry_remove_run head name i nd s :
  entry head name = Some i → inodes s !! i = Some nd → 0 < num_links nd →
  dentry_remove head name s =
    Done (PTR i, remove_entry name head) (with_inodes <[i := drop_link nd]> s).
Proof.
  intros He Hnd Hl. revert He.
  induction head as [|[n j] head IH]; cbn [dentry_remove entry remove_entry]; [done|].
  unfold same_name, bool_decide. change (decide_rel eq n name) with (decide (n = name)).
  destruct (decide (n = name)).
  - intros [= ->]. rewrite (bind_run _ _ _ _ _ (node_run _ _ _ Hnd)).
    rewrite (proj2 (Z.ltb_lt 0 (num_links nd))) by done. done.
  - intros He. rewrite (bind_run _ _ _ _ _ (IH He)). done.
Qed.
Lemma dentry_remove_none head name s :
  entry head name = None → dentry_remove head name s = Done (ERR_PTR (ERR ENOENT), head) s.
Proof.
  induction head as [|[n j] head IH]; cbn [dentry_remove entry]; [done|].
  unfold same_name, bool_decide. change (decide_rel eq n name) with (decide (n = name)).
  destruct (decide (n = name)); [done|]. intros He. rewrite (bind_run _ _ _ _ _ (IH He)). done.
Qed.

(** The last reference of a file without links frees it. *)
Lemma inode_unref_free i nd b s :
  inodes s !! i = Some nd → ref_count nd = 1 → num_links nd = 0 →
  (fops nd = dir_fops ∨ fops nd = non_dir_fops) → data nd = TmpfsData b [] →
  inode_unref i s = Done tt (with_inodes (delete i) s).
Proof.
  intros Hnd Hr Hn Hf Hd. unfold inode_unref, mbind, K_bind, get.
  rewrite (inode_unref_start _ _ _ _ Hnd) by (unfold U32; lia).
  rewrite Hr, Hn. change ((1 - 1 =? 0) && (0 =? 0)) with true. cbv iota.
  set (s1 := bump i (-1) s).
  assert (inodes s1 !! i = Some (set_ref_count 0 nd)) as H1.
  { unfold s1. rewrite lookup_bump, Hnd. simpl. by rewrite Hr. }
  assert (∀ nd', with_inodes (delete i) (with_inodes <[i := nd']> s1) = with_inodes (delete i) s) as Hdel.
  { intros nd'. unfold s1, bump, with_inodes; simpl. f_equal. rewrite delete_insert_eq.
    apply delete_alter_eq. }
  unfold inode_destroy. rewrite (bind_run _ _ _ _ _ (node_run _ _ _ H1)).
  cbn [set_ref_count ref_count num_links fops]. rewrite Hn. cbn [Z.eqb andb ASSERT].
  unfold mbind, K_bind at 1. cbn [mret K_ret].
  assert (tmpfs_destroy_inode (inode_unref_fuel (size (inodes s))) i s1 =
    Done tt (with_inodes (delete i) s)) as Ht.
  { unfold tmpfs_destroy_inode, with_buf, children. unfold mbind, K_bind, get.
    rewrite (node_run _ _ _ H1). cbn [data set_ref_count]. rewrite Hd.
    unfold zoom, growable_buf_destroy, modify. cbn [with_grants grants g_grants].
    set (g := if gb_addr _ then _ else _). assert (g_grants g = grants s1) as Hg by by unfold g; case_match.
    set (s2 := with_inodes _ _).
    assert (inodes s2 !! i = Some (set_data (TmpfsData (g_buf g) []) (set_ref_count 0 nd))) as H2
      by apply lookup_insert_eq.
    rewrite (node_run _ _ _ H2). cbn [data set_data]. cbn [dentry_clear mret K_ret].
    unfold mret, K_ret, free_node, modify. unfold s2. rewrite Hg.
    f_equal. rewrite <-(Hdel (set_data (TmpfsData (g_buf g) []) (set_ref_count 0 nd))). by destruct s. }
  by destruct Hf as [-> | ->].
Qed.

(** Entries and counts are independent. *)
Definition with_children (l : list dentry) (nd : inode) : inode :=
  match data nd with TmpfsData b _ => set_data (TmpfsData b l) nd | _ => nd end.
Definition put_children (i : nat) (l : list dentry) : kstate → kstate :=
  with_inodes (alter (with_children l) i).
Lemma put_children_bump i l j n s :
  put_children i l (bump j n s) = bump j n (put_children i l s).
Proof.
  unfold put_children, bump, with_inodes; simpl. f_equal.
  destruct (decide (i = j)) as [->|]; [|by apply alter_alter_ne].
  apply map_eq. intros k. destruct (decide (j = k)) as [->|]; [|by rewrite !lookup_alter_ne].
  rewrite !lookup_alter_eq. destruct (inodes s !! k) as [nd|]; simpl; [|done]. f_equal.
  by destruct nd as [? ? ? ? ? ? ? []].
Qed.
Lemma insert_bump i nd j n s :
  i ≠ j → with_inodes <[i := nd]> (bump j n s) = bump j n (with_inodes <[i := nd]> s).
Proof.
  intros Hij. unfold bump, with_inodes; simpl. f_equal. apply map_eq. intros k.
  destruct (decide (i = k)) as [->|].
  - by rewrite lookup_insert_eq, lookup_alter_ne, lookup_insert_eq by done.
  - rewrite lookup_insert_ne by done. destruct (decide (j = k)) as [->|].
    + by rewrite !lookup_alter_eq, lookup_insert_ne by done.
    + by rewrite !lookup_alter_ne, lookup_insert_ne by done.
Qed.
Lemma set_children_run i nd b l l' s :
  inodes s !! i = Some nd → data nd = TmpfsData b l →
  set_children i l' s = Done tt (put_children i l' s).
Proof.
  intros Hnd Hd. unfold set_children. rewrite (bind_run _ _ _ _ _ (node_run _ _ _ Hnd)), Hd.
  unfold set_node, modify, put_children. f_equal. unfold with_inodes. f_equal.
  rewrite alter_alt, Hnd. unfold with_children. by rewrite Hd.
Qed.

(** A reference given back: the inode is freed with the last one, if it has no
    links. *)
Definition release (i : nat) (s : kstate) : kstate :=
  match inodes s !! i with
  | Some nd =>
      if (ref_count nd =? 1) && (num_links nd =? 0) then with_inodes (delete i) s
      else bump i (-1) s
  | None => s
  end.
(** A file without entries of its own. *)
Definition leaf (nd : inode) : Prop := fops nd = non_dir_fops ∧ ∃ b, data nd = TmpfsData b [].
Lemma inode_unref_release i nd s :
  inodes s !! i = Some nd → 0 < ref_count nd < U32 → leaf nd →
  inode_unref i s = Done tt (release i s).
Proof.
  intros Hnd Hr [Hf [b Hd]]. unfold release. rewrite Hnd.
  destruct (Z.eqb_spec (ref_count nd) 1); [destruct (Z.eqb_spec (num_links nd) 0)|]; cbn [andb].
  - eapply inode_unref_free; eauto.
  - eapply inode_unref_run; eauto.
  - eapply inode_unref_run; eauto.
Qed.

Lemma wp_with_buf {A} i nd b l (m : K gstate A) (Q : A → kstate → Prop) s :
  inodes s !! i = Some nd → data nd = TmpfsData b l →
  wp m (λ a g, Q a (with_inodes <[i := set_data (TmpfsData (g_buf g) l) nd]>
                      (with_grants (g_grants g) s))) (GState b (grants s)) →
  wp (with_buf i m) Q s.
Proof.
  intros Hnd Hd Hm. unfold with_buf. wp_keep. eapply wp_node; [done|]. rewrite Hd.
  apply wp_zoom. exact Hm.
Qed.
