(* ===== verification/Path.v ===== *)
(** * Paths (kernel/fs/vfs.c: the component list, vfs_canonicalize_path)

    A path is cut at its separators by strtok_r (CString.strtok_all); a relative
    one starts from the components of the current directory. *)
From stdpp Require Import fin_maps.
From S2P Require Import Prelude Errno CString Kernel.

Definition PATH_SEPARATOR : Z := ch "/".
Definition PATH_SEPARATOR_STR : list Z := lit "/".
Definition ROOT_DIR : list Z := PATH_SEPARATOR_STR.

(** [path[0] == PATH_SEPARATOR]; the terminator of an empty path is no
    separator. *)
Definition is_absolute_path (path : list Z) : bool :=
  match path with c :: _ => c =? PATH_SEPARATOR | [] => false end.
Definition is_root_path (path : list Z) : bool :=
  match path with [c] => c =? PATH_SEPARATOR | _ => false end.

(** The list of components; its end is appended to. *)
Definition list_push (l : list (list Z)) (value : list Z) : K kstate (Z * list (list Z)) :=
  ok ← kmalloc_ok;
  if negb ok then mret (ERR ENOMEM, l)
  else
    ok ← kmalloc_ok; (* kstrdup *)
    if negb ok then mret (ERR ENOMEM, l) else mret (0, l ++ [value]).
Definition list_pop (l : list (list Z)) : list (list Z) := removelast l.

(** The two loops over the tokens of the current directory and of the path. *)
Fixpoint push_cwd (tokens l : list (list Z)) (num_components : Z)
    : K kstate (Z * list (list Z) * Z) :=
  match tokens with
  | [] => mret (0, l, num_components)
  | component :: tokens =>
      '(rc, l) ← list_push l component;
      if IS_ERR rc then mret (rc, [], num_components)
      else push_cwd tokens l (num_components + 1)
  end.
Fixpoint push_path (tokens l : list (list Z)) (num_components : Z)
    : K kstate (Z * list (list Z) * Z) :=
  match tokens with
  | [] => mret (0, l, num_components)
  | component :: tokens =>
      if bool_decide (component = lit ".") then push_path tokens l num_components
      else if bool_decide (component = lit "..") then
        if 0 <? num_components then push_path tokens (list_pop l) (num_components - 1)
        else push_path tokens l num_components
      else
        '(rc, l) ← list_push l component;
        if IS_ERR rc then mret (rc, [], num_components)
        else push_path tokens l (num_components + 1)
  end.

(** The result, [*out_list] and [*out_num_components]. *)
Definition create_path_component_list (pathname : list Z) : K kstate (Z * list (list Z) * Z) :=
  if is_root_path pathname then mret (0, [], 0)
  else
    '(rc, l, num_components) ←
      (if negb (is_absolute_path pathname) then
         p ← current_process;
         ok ← kmalloc_ok; (* kstrdup *)
         if negb ok then mret (ERR ENOMEM, [], 0)
         else
           tokens ← strtok_all (cwd_path p) PATH_SEPARATOR_STR;
           push_cwd tokens [] 0
       else mret (0, [], 0));
    if IS_ERR rc then mret (rc, [], 0)
    else
      ok ← kmalloc_ok; (* kstrdup *)
      if negb ok then mret (ERR ENOMEM, [], 0)
      else
        tokens ← strtok_all pathname PATH_SEPARATOR_STR;
        '(rc, l, num_components) ← push_path tokens l num_components;
        if IS_ERR rc then mret (rc, [], 0) else mret (0, l, num_components).

(** The string that the components spell. *)
Definition spell (l : list (list Z)) : list Z := concat ((λ c, PATH_SEPARATOR :: c) <$> l).

Definition vfs_canonicalize_path (pathname : list Z) : K kstate (ptr_res (list Z)) :=
  '(rc, component_list, num_components) ← create_path_component_list pathname;
  if IS_ERR rc then mret (ERR_PTR rc)
  else if num_components =? 0 then
    ok ← kmalloc_ok; (* kstrdup *)
    if negb ok then mret (ERR_PTR (ERR ENOMEM)) else mret (PTR ROOT_DIR)
  else
    ok ← kmalloc_ok;
    if negb ok then mret (ERR_PTR (ERR ENOMEM)) else mret (PTR (spell component_list)).

(** ** What a path means *)

Fixpoint normalize (l tokens : list (list Z)) : list (list Z) :=
  match tokens with
  | [] => l
  | c :: tokens =>
      if decide (c = lit ".") then normalize l tokens
      else if decide (c = lit "..") then normalize (removelast l) tokens
      else normalize (l ++ [c]) tokens
  end.
(** The components that [path] names for a process in directory [cwd]. *)
Definition components (cwd path : list Z) : list (list Z) :=
  normalize (if is_absolute_path path then [] else split PATH_SEPARATOR_STR cwd)
    (split PATH_SEPARATOR_STR path).

(** Only [kmalloc] was called between the states. *)
Definition allocs (s s' : kstate) : Prop :=
  ∃ g, s' = with_grants g s ∧ (grants s = [] → g = []).
#[global] Instance allocs_preorder : PreOrder allocs.
Proof.
  split.
  - intros s. exists (grants s). split; [by destruct s|done].
  - intros s1 s2 s3 (g2 & -> & H2) (g3 & -> & H3). exists g3. split; [done|].
    intros E. apply H3. simpl. auto.
Qed.
Lemma wp_kmalloc s (Q : bool → kstate → Prop) :
  (∀ ok s', allocs s s' → (grants s = [] → ok = true) → Q ok s') → wp kmalloc_ok Q s.
Proof.
  intros HQ. unfold wp, kmalloc_ok. destruct (grants s) as [|b g] eqn:E.
  - apply HQ; [|done]. exists []. split; [|done]. destruct s; simpl in *. by subst.
  - apply HQ; [|congruence]. exists g. split; [done|congruence].
Qed.

(** The outcome of a component list: [l], or no memory. *)
Definition listed (s : kstate) (l : list (list Z)) (r : Z * list (list Z) * Z) (s' : kstate)
    : Prop :=
  allocs s s' ∧
  (r = (0, l, Z.of_nat (length l)) ∨
   (grants s ≠ [] ∧ r.1.1 = ERR ENOMEM)).

Lemma allocs_memory s s' : allocs s s' → grants s = [] → grants s' = [].
Proof. intros (g & -> & H) E. simpl. auto. Qed.
Lemma listed_trans s s' l r s'' : allocs s s' → listed s' l r s'' → listed s l r s''.
Proof.
  intros H [H1 H2]. split; [by etrans|]. destruct H2 as [?|[Hg ?]]; [by left|right].
  split; [|done]. intros E. by apply Hg, (allocs_memory s).
Qed.

Lemma wp_list_push s l c (Q : Z * list (list Z) → kstate → Prop) :
  (∀ s', allocs s s' → Q (0, l ++ [c]) s') →
  (∀ s', allocs s s' → grants s ≠ [] → Q (ERR ENOMEM, l) s') →
  wp (list_push l c) Q s.
Proof.
  intros Hok Herr. unfold list_push. wp_keep. apply wp_kmalloc. intros ok1 s1 H1 Hm1.
  destruct ok1; simpl; [|apply wp_ret, Herr; [done|]; intros E; by specialize (Hm1 E)].
  wp_keep. apply wp_kmalloc. intros ok2 s2 H2 Hm2.
  destruct ok2; simpl; wp_keep; [apply Hok; by etrans|apply Herr; [by etrans|]].
  intros E. by specialize (Hm2 (allocs_memory _ _ H1 E)).
Qed.

Lemma push_cwd_spec s tokens l :
  wp (push_cwd tokens l (Z.of_nat (length l))) (listed s (l ++ tokens)) s.
Proof.
  revert s l. induction tokens as [|c tokens IH]; intros s l; cbn [push_cwd].
  { wp_keep. rewrite app_nil_r. split; [done|by left]. }
  wp_keep. apply wp_list_push; intros s1 H1.
  - cbv iota beta. change (IS_ERR 0) with false. cbv iota.
    specialize (IH s1 (l ++ [c])). rewrite length_app in IH. simpl in IH.
    rewrite Nat2Z.inj_add in IH. rewrite <-app_assoc in IH.
    eapply wp_mono; [exact IH|]. intros r s2. by apply listed_trans.
  - intros Hg. change (IS_ERR (ERR ENOMEM)) with true. cbv iota. wp_keep.
    split; [done|by right].
Qed.

Lemma length_removelast {A} (l : list A) : length (removelast l) = Nat.pred (length l).
Proof. induction l as [|x [|y l] IH]; simpl in *; [done|done|]. by rewrite IH. Qed.

Lemma push_path_spec s tokens l :
  wp (push_path tokens l (Z.of_nat (length l))) (listed s (normalize l tokens)) s.
Proof.
  revert s l. induction tokens as [|c tokens IH]; intros s l; cbn [push_path normalize].
  { wp_keep. split; [done|by left]. }
  destruct (bool_decide_reflect (c = lit ".")) as [->|?]; [apply IH|]. rewrite decide_False by done.
  destruct (bool_decide_reflect (c = lit "..")) as [->|?].
  - destruct (Z.ltb_spec 0 (Z.of_nat (length l))).
    + unfold list_pop.
      replace (Z.of_nat (length l) - 1) with (Z.of_nat (length (removelast l)))
        by (rewrite length_removelast; lia).
      apply IH.
    + destruct l; simpl in *; [apply IH|lia].
  - rewrite decide_False by done. wp_keep. apply wp_list_push; intros s1 H1.
    + cbv iota beta. change (IS_ERR 0) with false. cbv iota.
      specialize (IH s1 (l ++ [c])). rewrite length_app in IH. simpl in IH.
      rewrite Nat2Z.inj_add in IH. eapply wp_mono; [exact IH|].
      intros r s2. by apply listed_trans.
    + intros Hg. change (IS_ERR (ERR ENOMEM)) with true. cbv iota. wp_keep.
      split; [done|by right].
Qed.

Lemma create_path_spec s p path :
  procs s !! current s = Some p → Forall (λ c, c ≠ 0) (cwd_path p) → Forall (λ c, c ≠ 0) path →
  wp (create_path_component_list path) (listed s (components (cwd_path p) path)) s.
Proof.
  intros Hp Hcwd Hpath. unfold create_path_component_list, components.
  assert (Forall (λ c, c ≠ 0) PATH_SEPARATOR_STR) as Hsep by (repeat constructor; done).
  destruct (is_root_path path) eqn:Er.
  { destruct path as [|c [|? ?]]; try done. apply Z.eqb_eq in Er as ->. wp_keep.
    split; [done|by left]. }
  wp_keep. apply (wp_mono _ (listed s
    (if is_absolute_path path then [] else split PATH_SEPARATOR_STR (cwd_path p)))).
  { destruct (is_absolute_path path); cbn [negb].
    { wp_keep. split; [done|by left]. }
    wp_keep. unfold current_process, proc. wp_keep. eapply wp_access; [done|]. wp_keep.
    apply wp_kmalloc. intros ok s1 H1 Hm. destruct ok; cbn [negb].
    - wp_keep. eapply wp_run; [by apply strtok_all_spec|].
      eapply wp_mono; [apply (push_cwd_spec s1 _ [])|]. intros r s2. by apply listed_trans.
    - wp_keep. split; [done|]. right. split; [|done]. intros E. by specialize (Hm E). }
  intros [[rc l] n] s1 [Hs1 [[= -> -> ->]|[Hg Hrc]]]; cycle 1.
  { simpl in Hrc. subst rc. change (IS_ERR (ERR ENOMEM)) with true. cbv iota. wp_keep.
    split; [done|by right]. }
  change (IS_ERR 0) with false. cbv iota. wp_keep. apply wp_kmalloc. intros ok s2 H2 Hm.
  destruct ok; cbn [negb]; cycle 1.
  { wp_keep. split; [by etrans|]. right. split; [|done]. intros E.
    by specialize (Hm (allocs_memory _ _ Hs1 E)). }
  wp_keep. eapply wp_run; [by apply strtok_all_spec|]. wp_keep.
  eapply wp_mono; [apply push_path_spec|].
  intros [[rc l] n] s3 [Hs3 Hr]. assert (allocs s s3) as H13 by (etrans; [exact Hs1|by etrans]).
  destruct Hr as [[= -> -> ->]|[Hg Hrc]].
  - change (IS_ERR 0) with false. cbv iota. wp_keep. split; [done|by left].
  - simpl in Hrc. subst rc. change (IS_ERR (ERR ENOMEM)) with true. cbv iota. wp_keep.
    split; [done|]. right. split; [|done]. intros E.
    eapply Hg, allocs_memory; [done|]. by apply (allocs_memory s).
Qed.

(** ** Canonical paths *)

(** A component a canonical path may have. *)
Definition plain (c : list Z) : Prop :=
  c ≠ [] ∧ Forall (λ b, is_sep PATH_SEPARATOR_STR b = false) c ∧ c ≠ lit "." ∧ c ≠ lit "..".
Definition canonical (cwd path : list Z) : list Z :=
  match components cwd path with [] => ROOT_DIR | l => spell l end.

Lemma split_aux_app f cur s1 s2 :
  Forall (λ b, f b = false) s1 → split_aux f cur (s1 ++ s2) = split_aux f (cur ++ s1) s2.
Proof.
  intros Hs. revert cur. induction Hs as [|b s1 Hb Hs IH]; intros cur; simpl.
  - by rewrite app_nil_r.
  - rewrite Hb, IH. by rewrite <-app_assoc.
Qed.
Lemma split_spell_aux l c :
  c ≠ [] → Forall plain l → split_aux (is_sep PATH_SEPARATOR_STR) c (spell l) = c :: l.
Proof.
  revert c. induction l as [|d l IH]; intros c Hc Hl; [by destruct c|].
  inversion_clear Hl as [|?? (Hd0 & Hd1 & _) Hl'].
  change (spell (d :: l)) with (PATH_SEPARATOR :: d ++ spell l). cbn [split_aux].
  change (is_sep PATH_SEPARATOR_STR PATH_SEPARATOR) with true. cbv iota.
  destruct c as [|b c]; [done|]. f_equal. rewrite split_aux_app by done. by apply IH.
Qed.
(** Cutting a canonical path gives its components back. *)
Lemma split_spell l : Forall plain l → split PATH_SEPARATOR_STR (spell l) = l.
Proof.
  destruct 1 as [|d l (Hd0 & Hd1 & _) Hl]; [done|]. unfold split.
  change (spell (d :: l)) with (PATH_SEPARATOR :: d ++ spell l). cbn [split_aux].
  change (is_sep PATH_SEPARATOR_STR PATH_SEPARATOR) with true. cbv iota.
  rewrite split_aux_app by done. by apply split_spell_aux.
Qed.

(** The pieces of a split are no separators and not empty. *)
Lemma split_aux_pieces f cur s :
  Forall (λ b, f b = false) cur →
  Forall (λ c, c ≠ [] ∧ Forall (λ b, f b = false) c) (split_aux f cur s).
Proof.
  revert cur. induction s as [|b s IH]; intros cur Hc; simpl.
  - destruct cur; [constructor|]. constructor; [by split|constructor].
  - destruct (f b) eqn:E.
    + destruct cur; [by apply IH|]. constructor; [by split|]. by apply IH.
    + apply IH. apply Forall_app. split; [done|]. by constructor.
Qed.
Lemma Forall_removelast {A} (P : A → Prop) l : Forall P l → Forall P (removelast l).
Proof.
  induction 1 as [|x [|y l] Hx Hl IH]; [done|constructor|]. simpl in *. by constructor.
Qed.
(** Directories of processes are canonical paths. *)
Definition no_dots (cwd : list Z) : Prop :=
  Forall (λ c, c ≠ lit "." ∧ c ≠ lit "..") (split PATH_SEPARATOR_STR cwd).
Lemma components_plain cwd path : no_dots cwd → Forall plain (components cwd path).
Proof.
  intros Hcwd. unfold components, normalize.
  pose proof (split_aux_pieces (is_sep PATH_SEPARATOR_STR) [] path ltac:(done)) as Hp.
  change (split_aux _ [] path) with (split PATH_SEPARATOR_STR path) in Hp.
  assert (Forall plain (if is_absolute_path path then [] else split PATH_SEPARATOR_STR cwd)) as Hl.
  { destruct (is_absolute_path path); [constructor|].
    pose proof (split_aux_pieces (is_sep PATH_SEPARATOR_STR) [] cwd ltac:(done)) as Hc.
    eapply Forall_impl; [apply Forall_and; split; [exact Hcwd|exact Hc]|].
    unfold plain. naive_solver. }
  revert Hl. generalize (if is_absolute_path path then [] else split PATH_SEPARATOR_STR cwd).
  induction Hp as [|c tokens [Hc1 Hc2] Hp IH]; intros l Hl; [done|].
  case_decide; [by apply IH|]. case_decide; [by apply IH, Forall_removelast|].
  apply IH. apply Forall_app. split; [done|]. constructor; [by split_and!|constructor].
Qed.
(** Components without dots stay as they are. *)
Lemma normalize_plain l k : Forall plain k → normalize l k = l ++ k.
Proof.
  intros Hk. revert l. induction Hk as [|c k (_ & _ & H1 & H2) Hk IH]; intros l; simpl.
  - by rewrite app_nil_r.
  - rewrite !decide_False by done. rewrite IH. by rewrite <-app_assoc.
Qed.
Lemma canonical_components cwd cwd' path :
  no_dots cwd → components cwd' (canonical cwd path) = components cwd path.
Proof.
  intros Hcwd. pose proof (components_plain cwd path Hcwd) as Hp. unfold canonical.
  destruct (components cwd path) as [|c l] eqn:E; [done|].
  unfold components at 1. change (is_absolute_path (spell (c :: l))) with true. cbv iota.
  rewrite split_spell by done. by rewrite normalize_plain.
Qed.

(** ** Properties *)

(** C18: the canonical path of a path is the absolute path of the components that
    are left when "." is dropped and ".." takes back the component before it
    ("/.." is "/"); it has no such components and no empty ones, means the same
    in every directory, and is its own canonical path. The one other outcome is
    -ENOMEM, and only when a kmalloc fails. *)
Theorem vfs_canonicalize_path_spec s p path :
  procs s !! current s = Some p → no_dots (cwd_path p) →
  Forall (λ c, c ≠ 0) (cwd_path p) → Forall (λ c, c ≠ 0) path →
  let c := canonical (cwd_path p) path in
  wp (vfs_canonicalize_path path) (λ r s', allocs s s' ∧
    (r = PTR c ∨ (grants s ≠ [] ∧ r = ERR_PTR (ERR ENOMEM)))) s ∧
  is_absolute_path c = true ∧
  Forall plain (split PATH_SEPARATOR_STR c) ∧
  (∀ cwd, components cwd c = components (cwd_path p) path ∧ canonical cwd c = c).
Proof.
  intros Hp Hdots Hcwd Hpath c.
  pose proof (components_plain _ path Hdots) as Hplain. split_and!.
  - unfold vfs_canonicalize_path. wp_keep. eapply wp_mono; [by apply create_path_spec|].
    intros [[rc l] n] s1 [H1 [[= -> -> ->]|[Hg Hrc]]]; cycle 1.
    { simpl in Hrc. subst rc. change (IS_ERR (ERR ENOMEM)) with true. cbv iota. wp_keep. auto. }
    change (IS_ERR 0) with false. cbv iota.
    assert (∀ x, c = x → wp (ok ← kmalloc_ok; if negb ok then mret (ERR_PTR (ERR ENOMEM)) else mret (PTR x))
      (λ r s', allocs s s' ∧ (r = PTR c ∨ (grants s ≠ [] ∧ r = ERR_PTR (ERR ENOMEM)))) s1) as Hk.
    { intros x <-. wp_keep. apply wp_kmalloc. intros ok s2 H2 Hm. destruct ok; cbn [negb]; wp_keep.
      - split; [by etrans|by left].
      - split; [by etrans|]. right. split; [|done]. intros E.
        by specialize (Hm (allocs_memory _ _ H1 E)). }
    unfold c, canonical in *.
    destruct (components (cwd_path p) path); simpl length; case_match; bool_to_prop; try lia; by apply Hk.
  - unfold c, canonical. by destruct (components (cwd_path p) path).
  - unfold c, canonical. destruct (components (cwd_path p) path) eqn:E; [constructor|].
    rewrite <-E in *. by rewrite split_spell.
  - intros cwd. split; [by apply canonical_components|].
    unfold canonical at 1. unfold c. by rewrite canonical_components.
Qed.

(** ** Witnesses *)

(** A kernel with nothing but one process, in directory [cwd]. *)
Definition process_at (cwd : list Z) : process :=
  Process 1 0 0 PROCESS_STATE_RUNNING 0 [] cwd None (replicate OPEN_MAX None)
    None None false 0 0 0.
Definition one_process (cwd : list Z) : kstate :=
  KState ∅ ∅ None [] [] ∅ {[0%nat := process_at cwd]} [0%nat] [] None 0 2 1 [].
Example canonical_example : canonical (lit "/usr") (lit "../bin//./x/..") = lit "/bin".
Proof. reflexivity. Qed.
Lemma vfs_canonicalize_path_spec_witness :
  let c := canonical (lit "/usr") (lit "../bin//./x/..") in
  wp (vfs_canonicalize_path (lit "../bin//./x/.."))
    (λ r s', allocs (one_process (lit "/usr")) s' ∧
      (r = PTR c ∨ (grants (one_process (lit "/usr")) ≠ [] ∧ r = ERR_PTR (ERR ENOMEM))))
    (one_process (lit "/usr")) ∧
  is_absolute_path c = true ∧
  Forall plain (split PATH_SEPARATOR_STR c) ∧
  (∀ cwd, components cwd c = components (lit "/usr") (lit "../bin//./x/..") ∧ canonical cwd c = c).
Proof.
  apply (vfs_canonicalize_path_spec (one_process (lit "/usr")) (process_at (lit "/usr"))
    (lit "../bin//./x/..")).
  - apply lookup_singleton_eq.
  - repeat constructor; vm_compute; congruence.
  - repeat constructor; vm_compute; congruence.
  - repeat constructor; vm_compute; congruence.
Defined.
