(* ===== verification/Tmpfs.v ===== *)
(** * Directory listings and the memory file system (kernel/fs/dentry.c,
    kernel/fs/tmpfs.c, the getdents callback of kernel/fs/fs.c) *)
From stdpp Require Import fin_maps.
From S2P Require Import Prelude Errno CString GrowableBuf Kernel Inode.

(** [struct stat]. *)
Record stat : Type := Stat { st_mode : Z; st_nlink : Z; st_rdev : Z; st_size : Z }.

(** ** Listings *)

Definition mode_to_dirent_type (mode : Z) : K kstate Z :=
  let t := Z.land mode S_IFMT in
  if t =? S_IFDIR then mret 4
  else if t =? S_IFCHR then mret 2
  else if t =? S_IFBLK then mret 6
  else if t =? S_IFREG then mret 8
  else if t =? S_IFIFO then mret 1
  else if t =? S_IFLNK then mret 10
  else if t =? S_IFSOCK then mret 12
  else panic.

(** [struct dirent], and [struct getdents_ctx] with the records stored at
    [dirp]. *)
Record dirent : Type := Dirent { d_reclen : Z; d_type : Z; d_namlen : Z; d_name : list Z }.
Record getdents_ctx : Type := GetdentsCtx {
  dirp : list dirent;
  remaining_count : Z;
  nwritten : Z;
  buffer_is_too_small : bool;
}.
(** offsetof(struct dirent, d_name) *)
Definition d_name_offset : Z := 4.

Definition getdents_callback (ctx : getdents_ctx) (name : list Z) (type : Z)
    : bool * getdents_ctx :=
  let name_len := Z.of_nat (length name) in
  let name_size := name_len + 1 in
  let size := d_name_offset + name_size in
  if remaining_count ctx <? size then
    (false, GetdentsCtx (dirp ctx) (remaining_count ctx) (nwritten ctx) true)
  else
    (true, GetdentsCtx (dirp ctx ++ [Dirent (u16 size) (u8 type) (u8 name_len) name])
             (remaining_count ctx - size) (nwritten ctx + size) (buffer_is_too_small ctx)).

(** The first loop: [i] entries to skip; [None] if the list ends. *)
Fixpoint skip_dentries (i : nat) (dentry : list dentry) : option (list Kernel.dentry) :=
  match i, dentry with
  | O, _ => Some dentry
  | S i, _ :: ([] as next) => None
  | S i, _ :: next => skip_dentries i next
  | S i, [] => None
  end.
Fixpoint list_dentries (ctx : getdents_ctx) (d : nat) (dentry : list dentry)
    : K kstate getdents_ctx :=
  match dentry with
  | [] => mret ctx
  | (name, i) :: next =>
      nd ← node i;
      type ← mode_to_dirent_type (mode nd);
      let '(more, ctx) := getdents_callback ctx name type in
      if negb (more : bool) then mret ctx
      else
        x ← desc d;
        _ ← set_desc d (set_offset (s32 (d_offset x + 1)) x);
        list_dentries ctx d next
  end.
Definition dentry_getdents (ctx : getdents_ctx) (d : nat) (head : list dentry)
    : K kstate (Z * getdents_ctx) :=
  match head with
  | [] => mret (0, ctx)
  | _ =>
      x ← desc d;
      match skip_dentries (Z.to_nat (d_offset x)) head with
      | None => mret (0, ctx)
      | Some dentry => ctx ← list_dentries ctx d dentry; mret (0, ctx)
      end
  end.

(** ** tmpfs *)

Definition tmpfs_lookup_child (i : nat) (name : list Z) : K kstate (ptr_res nat) :=
  child ← locked (ChildrenLock i) (l ← children i; dentry_find l name);
  _ ← inode_unref i;
  mret child.

Definition tmpfs_stat (i : nat) : K kstate (Z * stat) :=
  nd ← node i;
  size ← with_buf i (gets (λ g, gb_size (g_buf g)));
  _ ← inode_unref i;
  mret (0, Stat (mode nd) (num_links nd) 0 (s32 size)).

Definition tmpfs_read (d : nat) (count : Z) : K kstate (Z * list Z) :=
  x ← desc d;
  locked (OffsetLock d) (
    r ← locked (BufLock (d_inode x)) (
      y ← desc d; with_buf (d_inode x) (growable_buf_pread count (d_offset y)));
    y ← desc d;
    _ ← when (IS_OK r.1) (set_desc d (set_offset (s32 (d_offset y + r.1)) y));
    mret r).

Definition tmpfs_write (d : nat) (bytes : list Z) : K kstate Z :=
  x ← desc d;
  locked (OffsetLock d) (
    nwritten ← locked (BufLock (d_inode x)) (
      y ← desc d; with_buf (d_inode x) (growable_buf_pwrite bytes (d_offset y)));
    y ← desc d;
    _ ← when (IS_OK nwritten) (set_desc d (set_offset (s32 (d_offset y + nwritten)) y));
    mret nwritten).

Definition tmpfs_mmap (d : nat) (addr length offset page_flags : Z) : K kstate Z :=
  x ← desc d;
  locked (BufLock (d_inode x)) (
    with_buf (d_inode x) (growable_buf_mmap addr length offset page_flags)).

Definition tmpfs_truncate (d : nat) (length : Z) : K kstate Z :=
  x ← desc d;
  locked (BufLock (d_inode x)) (with_buf (d_inode x) (growable_buf_truncate length)).

Definition tmpfs_getdents (ctx : getdents_ctx) (d : nat) : K kstate (Z * getdents_ctx) :=
  x ← desc d;
  locked (ChildrenLock (d_inode x)) (
    locked (OffsetLock d) (l ← children (d_inode x); dentry_getdents ctx d l)).

Definition tmpfs_link_child (i : nat) (name : list Z) (child : nat) : K kstate Z :=
  rc ← locked (ChildrenLock i) (
    l ← children i;
    '(rc, l) ← dentry_append l name child;
    _ ← set_children i l;
    mret rc);
  _ ← inode_unref i;
  mret rc.

Definition tmpfs_unlink_child (i : nat) (name : list Z) : K kstate (ptr_res nat) :=
  child ← locked (ChildrenLock i) (
    l ← children i;
    '(child, l) ← dentry_remove l name;
    _ ← set_children i l;
    mret child);
  _ ← inode_unref i;
  mret child.

Definition tmpfs_create_child (i : nat) (name : list Z) (mode : Z) : K kstate (ptr_res nat) :=
  ok ← kmalloc_ok;
  if negb ok then mret (ERR_PTR (ERR ENOMEM))
  else
    nd ← node i;
    s ← get;
    let child := fresh_node s in
    _ ← set_node child
          (Inode (fs_root_inode nd) (if S_ISDIR mode then dir_fops else non_dir_fops)
             0 None 0 1 mode (TmpfsData growable_buf_zero []));
    _ ← inode_ref child;
    rc ← tmpfs_link_child i name child;
    if IS_ERR rc then _ ← free_node child; mret (ERR_PTR rc) else mret (PTR child).

Definition tmpfs_create_root : K kstate (ptr_res nat) :=
  ok ← kmalloc_ok;
  if negb ok then mret (ERR_PTR (ERR ENOMEM))
  else
    s ← get;
    let root := fresh_node s in
    _ ← set_node root (Inode (Some root) dir_fops 0 None 0 1 S_IFDIR (TmpfsData growable_buf_zero []));
    mret (PTR root).

(** ** Facts *)

(** A directory of tmpfs with the entries [l]. *)
Definition directory (s : kstate) (i : nat) (l : list dentry) : Prop :=
  ∃ nd b, inodes s !! i = Some nd ∧ fops nd = dir_fops ∧ S_ISDIR (mode nd) = true ∧
    data nd = TmpfsData b l.
Lemma directory_bump s i l j n : directory s i l → directory (bump j n s) i l.
Proof.
  intros (nd & b & Hnd & ? & ? & ?).
  destruct (lookup_bump_Some j n _ _ _ Hnd) as [r Hr]. by exists (set_ref_count r nd), b.
Qed.
Lemma wp_children i l s (Q : list dentry → kstate → Prop) :
  directory s i l → Q l s → wp (children i) Q s.
Proof.
  intros (nd & b & Hnd & _ & _ & Hd) HQ. unfold children. wp_keep.
  eapply wp_node; [done|]. rewrite Hd. by wp_keep.
Qed.

(** A lookup gives back the reference to the directory and takes one to the
    inode found. *)
Lemma tmpfs_lookup_spec s i l name :
  directory s i l → locks s !! ChildrenLock i = None → room 2 i s →
  (∀ n c, (n, c) ∈ l → room 1 c s) →
  wp (tmpfs_lookup_child i name) (λ r s',
    match entry l name with
    | Some c => r = PTR c ∧ s' = bump c 1 s
    | None => r = ERR_PTR (ERR ENOENT) ∧ s' = s
    end) (bump i 1 s).
Proof.
  intros Hd Hl Hr Hin. unfold tmpfs_lookup_child. wp_keep. apply wp_locked; [done|].
  wp_keep. set (s1 := with_locks _ _).
  assert (directory s1 i l) as Hd1 by by apply (directory_bump s i l i 1).
  apply (wp_children i l); [done|].
  assert (dentry_find l name s1 = match entry l name with
    | Some c => Done (PTR c) (bump c 1 s1) | None => Done (ERR_PTR (ERR ENOENT)) s1 end) as Hf.
  { apply dentry_find_run. intros n c Hc. destruct (Hin n c Hc) as (nd & Hnd & _).
    destruct (lookup_bump_Some i 1 s c nd Hnd) as [r Hrc]. by eexists. }
  destruct (entry l name) as [c|] eqn:E; (eapply wp_run; [exact Hf|]); wp_keep;
    (split; [done|]); (split; [done|]).
  - change (with_locks _ _) with (with_locks (locks s) (bump c 1 (bump i 1 s))).
    rewrite (bump_comm c i). change (locks s) with (locks (bump i 1 (bump c 1 s))).
    rewrite with_locks_id. wp_keep. apply wp_unref_bump; [by apply room_bump|]. by wp_keep.
  - change (with_locks _ _) with (with_locks (locks (bump i 1 s)) (bump i 1 s)).
    rewrite with_locks_id. wp_keep. apply wp_unref_bump; [by eapply room_mono|]. by wp_keep.
Qed.

(** An entry removed: the reference to the directory is given back, the inode
    is handed out with one link fewer. *)
Lemma tmpfs_unlink_spec s p l name i nd :
  directory s p l → locks s !! ChildrenLock p = None → room 2 p s →
  entry l name = Some i → inodes s !! i = Some nd → 0 < num_links nd → i ≠ p →
  tmpfs_unlink_child p name (bump p 1 s) =
    Done (PTR i) (put_children p (remove_entry name l) (with_inodes <[i := drop_link nd]> s)).
Proof.
  intros Hd Hl Hr He Hnd Hn Hip. set (s' := put_children _ _ _).
  cut (wp (tmpfs_unlink_child p name) (λ r t, r = PTR i ∧ t = s') (bump p 1 s)).
  { unfold wp. destruct (tmpfs_unlink_child _ _ _); try done. by intros [-> ->]. }
  unfold tmpfs_unlink_child. wp_keep. apply wp_locked; [done|].
  set (s1 := with_locks _ _).
  assert (directory s1 p l) as Hd1 by by apply (directory_bump s p l p 1).
  wp_keep. apply (wp_children p l); [done|]. wp_keep.
  assert (inodes s1 !! i = Some nd) as Hnd1 by (unfold s1; by rewrite <-(lookup_bump_ne p i 1 s) in Hnd).
  eapply wp_run; [by apply (dentry_remove_run l name i nd)|]. cbv beta iota. wp_keep.
  set (s2 := with_inodes <[i := drop_link nd]> s1).
  assert (∃ ndp b, inodes s2 !! p = Some ndp ∧ data ndp = TmpfsData b l) as (ndp & b & Hp & Hpd).
  { destruct Hd1 as (ndp & b & Hp & _ & _ & Hpd). exists ndp, b. unfold s2. cbn [with_inodes inodes].
    by rewrite lookup_insert_ne. }
  eapply wp_run; [by apply (set_children_run p ndp b l)|]. wp_keep. split_and!; [done|done|].
  assert (with_locks (locks (bump p 1 s)) (put_children p (remove_entry name l) s2) = bump p 1 s') as ->.
  { change (with_locks _ _) with (with_locks (locks s) (put_children p (remove_entry name l)
      (with_inodes <[i := drop_link nd]> (bump p 1 s)))).
    rewrite insert_bump, put_children_bump by done.
    change (locks s) with (locks (bump p 1 s')). apply with_locks_id. }
  wp_keep. apply wp_unref_bump; [|by wp_keep].
  destruct Hr as (ndq & Hq & Hq0 & Hq1). unfold s', room.
  exists (with_children (remove_entry name l) ndq). cbn [put_children with_inodes inodes].
  rewrite lookup_alter_eq, lookup_insert_ne, Hq by done. split; [done|].
  unfold with_children. destruct (data ndq); simpl; lia.
Qed.

(** ** Reading and writing files *)

Lemma desc_run d x s : descs s !! d = Some x → desc d s = Done x s.
Proof. intros H. unfold desc, mbind, K_bind, get, access. by rewrite H. Qed.
Lemma wp_desc d x s (Q : file_description → kstate → Prop) :
  descs s !! d = Some x → Q x s → wp (desc d) Q s.
Proof. intros H HQ. eapply wp_run; [by apply desc_run|done]. Qed.

(** Description [d], at [x], of the file [i] with the contents of [b]. *)
Definition file_at (s : kstate) (d : nat) (x : file_description) (nd : inode) (b : growable_buf)
    (l : list dentry) : Prop :=
  descs s !! d = Some x ∧ inodes s !! d_inode x = Some nd ∧ data nd = TmpfsData b l ∧
  locks s = ∅.
(** [s] with the contents of the file changed and the offset moved. *)
Definition at_file (d : nat) (x : file_description) (nd : inode) (b : growable_buf)
    (l : list dentry) (s : kstate) : kstate :=
  with_descs <[d := x]> (with_inodes <[d_inode x := set_data (TmpfsData b l) nd]> s).

Lemma with_descs_id s f : f (descs s) = descs s → with_descs f s = s.
Proof. destruct s; unfold with_descs; simpl. by intros ->. Qed.
Lemma at_file_same d x nd b l s : file_at s d x nd b l → at_file d x nd b l s = s.
Proof.
  intros (Hx & Hnd & Hd & _). unfold at_file. rewrite with_inodes_id.
  - apply with_descs_id. by apply insert_id.
  - rewrite insert_id; [done|]. rewrite Hnd. destruct nd; simpl in *. by subst.
Qed.

(** The two nested critical sections around an operation [m] of the buffer that
    answers [a], and the offset that is moved by the count [n a]. *)
Lemma file_section {A} d x nd b l s (m : Z → K gstate A) (n : A → Z) (Q : A → kstate → Prop) :
  file_at s d x nd b l →
  wp (m (d_offset x)) (λ a g, Q a (with_grants (g_grants g)
         (at_file d (if IS_OK (n a) then set_offset (s32 (d_offset x + n a)) x else x)
            nd (g_buf g) l s))) (GState b (grants s)) →
  wp (locked (OffsetLock d) (
        a ← locked (BufLock (d_inode x)) (
          y ← desc d; with_buf (d_inode x) (m (d_offset y)));
        y ← desc d;
        _ ← when (IS_OK (n a)) (set_desc d (set_offset (s32 (d_offset y + n a)) y));
        mret a)) Q s.
Proof.
  intros (Hx & Hnd & Hd & Hl) Hm. apply wp_locked; [by rewrite Hl|].
  set (s1 := with_locks _ _). wp_keep. apply wp_locked.
  { unfold s1. cbn [with_locks locks]. by rewrite lookup_insert_ne, Hl. }
  set (s2 := with_locks _ _). wp_keep. apply (wp_desc d x); [done|]. apply (wp_with_buf _ nd b l); [done|done|].
  eapply wp_mono; [exact Hm|]. intros a g HQ. split_and!; [done|done|]. wp_keep.
  apply (wp_desc d x); [done|].
  assert (∀ g, with_inodes <[d_inode x := set_data (TmpfsData (g_buf g) l) nd]>
      (with_grants (g_grants g) s) = with_grants (g_grants g)
    (at_file d x nd (g_buf g) l s)) as Hsame.
  { intros g'. unfold at_file, with_descs, with_grants, with_inodes; simpl. f_equal.
    by rewrite insert_id. }
  cbv beta in HQ. wp_keep. apply wp_when; intros Hok; rewrite Hok in HQ; unfold set_desc; wp_keep; split_and!; try done.
  replace (with_locks _ _) with (with_grants (g_grants g) (at_file d x nd (g_buf g) l s)); [done|].
  rewrite <-Hsame. by destruct s.
Qed.
