(* ===== verification/Listing.v ===== *)
(** * Listings of directories (dentry_getdents of kernel/fs/dentry.c)

    What the callback takes of a sequence of entries, and dentry_getdents as the
    run of this callback over the entries behind the offset of the description:
    facts that the listings of tmpfs and of /proc share. *)
From S2P Require Import Prelude Kernel Inode Tmpfs.

(** An entry of a listing: its name and type and the offset behind it. *)
Record item : Type := Item { i_name : list Z; i_type : Z; i_next : Z }.
Definition item_size (e : item) : Z := 5 + Z.of_nat (length (i_name e)).
Definition record_of (e : item) : dirent :=
  Dirent (u16 (item_size e)) (u8 (i_type e)) (u8 (Z.of_nat (length (i_name e)))) (i_name e).
(** How many entries the callback takes. *)
Fixpoint fitting (count : Z) (es : list item) : nat :=
  match es with
  | [] => 0
  | e :: es => if count <? item_size e then 0 else S (fitting (count - item_size e) es)
  end.
Definition sizes (es : list item) : Z := foldr (λ e n, item_size e + n) 0 es.
(** The records handed out and the offset after them. *)
Definition filled (ctx : getdents_ctx) (es : list item) : getdents_ctx :=
  let k := fitting (remaining_count ctx) es in
  GetdentsCtx (dirp ctx ++ (record_of <$> take k es)) (remaining_count ctx - sizes (take k es))
    (nwritten ctx + sizes (take k es)) (bool_decide (k < length es)%nat || buffer_is_too_small ctx).
Definition behind (o : Z) (es : list item) : Z := default o (i_next <$> last es).

Lemma sizes_cons e es : sizes (e :: es) = item_size e + sizes es.
Proof. done. Qed.
Lemma callback_item ctx e :
  getdents_callback ctx (i_name e) (i_type e) =
    if remaining_count ctx <? item_size e
    then (false, GetdentsCtx (dirp ctx) (remaining_count ctx) (nwritten ctx) true)
    else (true, GetdentsCtx (dirp ctx ++ [record_of e]) (remaining_count ctx - item_size e)
                  (nwritten ctx + item_size e) (buffer_is_too_small ctx)).
Proof.
  unfold getdents_callback, item_size, record_of, d_name_offset.
  replace (4 + (Z.of_nat (length (i_name e)) + 1)) with (5 + Z.of_nat (length (i_name e))) by lia. done.
Qed.
Lemma filled_nil ctx : filled ctx [] = ctx.
Proof. destruct ctx. unfold filled. cbn. by rewrite app_nil_r, Z.sub_0_r, Z.add_0_r. Qed.
Lemma filled_cons ctx e es :
  filled ctx (e :: es) =
    let '(more, ctx') := getdents_callback ctx (i_name e) (i_type e) in
    if more : bool then filled ctx' es else ctx'.
Proof.
  rewrite callback_item. unfold filled. cbn [fitting].
  destruct (remaining_count ctx <? item_size e); cbn [take fmap list_fmap length]; rewrite ?sizes_cons.
  - change (sizes []) with 0. rewrite app_nil_r, Z.sub_0_r, Z.add_0_r, bool_decide_eq_true_2 by lia. done.
  - cbn [remaining_count dirp nwritten buffer_is_too_small]. rewrite <-app_assoc. f_equal; [lia|lia|].
    f_equal. apply bool_decide_ext. lia.
Qed.
Lemma behind_cons o e es : behind o (e :: es) = behind (i_next e) es.
Proof. unfold behind. destruct es as [|e' es]; [done|]. rewrite last_cons. by destruct (last (e' :: es)) eqn:E; [|apply last_None in E]. Qed.

(** The entries of the items: [types] of their inodes, offsets counted up. *)
Definition typed (s : kstate) (l : list dentry) (es : list item) : Prop :=
  Forall2 (λ e i, i_name i = e.1 ∧ ∃ nd, inodes s !! e.2 = Some nd ∧
    mode_to_dirent_type (mode nd) s = Done (i_type i) s) l es.
Definition moved (d : nat) (o : Z) (s : kstate) : kstate := with_descs (alter (set_offset o) d) s.

Lemma mode_type_state m k s s' : mode_to_dirent_type m s = Done k s → mode_to_dirent_type m s' = Done k s'.
Proof. unfold mode_to_dirent_type. intros H. repeat case_match; try discriminate H; by injection H as <-. Qed.
Lemma moved_moved d o o' s : moved d o' (moved d o s) = moved d o' s.
Proof.
  unfold moved, with_descs. cbn. f_equal. apply map_eq. intros j. destruct (decide (j = d)) as [->|].
  - rewrite !lookup_alter_eq. by destruct (descs s !! d).
  - by rewrite !lookup_alter_ne by done.
Qed.
Lemma moved_set d x o s : descs s !! d = Some x → with_descs <[d := set_offset o x]> s = moved d o s.
Proof.
  intros Hx. unfold moved, with_descs. f_equal. apply map_eq. intros j. destruct (decide (j = d)) as [->|].
  - by rewrite lookup_insert_eq, lookup_alter_eq, Hx.
  - by rewrite lookup_insert_ne, lookup_alter_ne by done.
Qed.
Lemma moved_here d x s : descs s !! d = Some x → moved d (d_offset x) s = s.
Proof.
  intros Hx. destruct s. unfold moved, with_descs. cbn in *. f_equal. apply map_eq. intros j.
  destruct (decide (j = d)) as [->|]; [|by rewrite lookup_alter_ne by done].
  rewrite lookup_alter_eq, Hx. by destruct x.
Qed.
Lemma moved_desc d x o s : descs s !! d = Some x → descs (moved d o s) !! d = Some (set_offset o x).
Proof. intros Hx. unfold moved. cbn. by rewrite lookup_alter_eq, Hx. Qed.

(** Offsets of consecutive entries. *)
Fixpoint counted_from (o : Z) (es : list item) : Prop :=
  match es with [] => True | e :: es => i_next e = o + 1 ∧ o + 1 < 2147483648 ∧ counted_from (o + 1) es end.
Lemma list_dentries_run ctx d x l es s :
  typed s l es → descs s !! d = Some x → 0 ≤ d_offset x → counted_from (d_offset x) es →
  list_dentries ctx d l s =
    Done (filled ctx es) (moved d (behind (d_offset x) (take (fitting (remaining_count ctx) es) es)) s).
Proof.
  intros Ht. revert ctx x s es Ht. induction l as [|[n i] l IH]; intros ctx x s es Ht Hx Ho Hc;
    inversion Ht as [|? e ? es' (Hn & nd & Hnd & Hm) Ht']; subst.
  { cbn [list_dentries fitting take]. rewrite filled_nil. unfold behind. cbn. by rewrite moved_here. }
  cbn [list_dentries]. rewrite (bind_run _ _ s nd s) by (unfold node, mbind, K_bind, get; cbn in Hnd; by rewrite Hnd).
  rewrite (bind_run _ _ _ _ _ Hm). cbn [fst] in Hn. rewrite <-Hn, filled_cons, callback_item.
  cbn [fitting]. destruct (remaining_count ctx <? item_size e); cbv iota beta zeta; cbn [negb].
  { unfold behind. cbn. by rewrite moved_here. }
  rewrite (bind_run _ _ _ _ _ (desc_run d x s Hx)). destruct Hc as (Hnext & Hlt & Hc).
  rewrite (bind_run (set_desc _ _) _ s tt (moved d (d_offset x + 1) s)).
  2: { unfold set_desc, modify. by rewrite (moved_set d x), s32_small by (done || lia). }
  cbn [take]. rewrite behind_cons, Hnext.
  rewrite (IH _ (set_offset (d_offset x + 1) x) _ es'); cbn [d_offset set_offset remaining_count].
  - by rewrite moved_moved.
  - eapply Forall2_impl; [exact Ht'|]. intros [n' i'] e' (? & nd' & ? & Hm'). split; [done|]. exists nd'.
    split; [done|]. exact (mode_type_state _ _ _ _ Hm').
  - by apply moved_desc.
  - lia.
  - done.
Qed.

Lemma filter_true {A} (P : A → Prop) `{∀ x, Decision (P x)} l : Forall P l → filter P l = l.
Proof. induction 1 as [|x l Hx Hl IH]; [done|]. by rewrite filter_cons_True, IH by done. Qed.
Lemma filter_false {A} (P : A → Prop) `{∀ x, Decision (P x)} l : Forall (λ x, ¬ P x) l → filter P l = [].
Proof. induction 1 as [|x l Hx Hl IH]; [done|]. by rewrite filter_cons_False, IH by done. Qed.

Lemma skip_dentries_drop i (l : list dentry) : (i < length l)%nat → skip_dentries i l = Some (drop i l).
Proof.
  revert l. induction i as [|i IH]; intros l Hi; [done|]. destruct l as [|e [|e' l]]; cbn in *; [lia|lia|].
  apply IH. cbn. lia.
Qed.

(** *** Prefixes *)
Lemma fitting_le c es : (fitting c es ≤ length es)%nat.
Proof. revert c. induction es as [|e es IH]; intros c; cbn [fitting length]; [lia|]. case_match; [lia|]. specialize (IH (c - item_size e)). lia. Qed.
Lemma sizes_app a b : sizes (a ++ b) = sizes a + sizes b.
Proof. induction a as [|e a IH]; [done|]. cbn [app]. rewrite !sizes_cons, IH. lia. Qed.
Lemma fitting_app c a b :
  fitting c (a ++ b) = if (fitting c a =? length a)%nat then (length a + fitting (c - sizes a) b)%nat else fitting c a.
Proof.
  revert c. induction a as [|e a IH]; intros c; cbn [fitting length app].
  { change (sizes []) with 0. by rewrite Z.sub_0_r. }
  destruct (c <? item_size e); [done|]. rewrite IH, sizes_cons. cbn [Nat.eqb].
  replace (c - (item_size e + sizes a)) with (c - item_size e - sizes a) by lia. by destruct (_ =? _)%nat.
Qed.
Lemma filled_app ctx a b :
  filled ctx (a ++ b) =
    if (fitting (remaining_count ctx) a =? length a)%nat then filled (filled ctx a) b else filled ctx a.
Proof.
  unfold filled. rewrite fitting_app. pose proof (fitting_le (remaining_count ctx) a).
  destruct (Nat.eqb_spec (fitting (remaining_count ctx) a) (length a)) as [He|He].
  - cbn [remaining_count dirp nwritten buffer_is_too_small]. rewrite He, (take_ge a) by lia.
    rewrite take_app_add, fmap_app, app_assoc, sizes_app, length_app. f_equal; [lia|lia|].
    rewrite (bool_decide_eq_false_2 (length a < length a)%nat) by lia. cbn [orb]. f_equal.
    apply bool_decide_ext. lia.
  - rewrite take_app_le by lia. f_equal. rewrite length_app, !bool_decide_eq_true_2 by lia. done.
Qed.

Lemma behind_counted o es k :
  counted_from o es → (k ≤ length es)%nat → behind o (take k es) = o + Z.of_nat k.
Proof.
  revert o es. induction k as [|k IH]; intros o es Hc Hk; [rewrite take_0; change (o = o + Z.of_nat 0); lia|].
  destruct es as [|e es]; [cbn in Hk; lia|]. destruct Hc as (He & _ & Hc). cbn [take length] in *.
  rewrite behind_cons, He, IH by (done || lia). lia.
Qed.
Lemma counted_drop o es k : counted_from o es → counted_from (o + Z.of_nat k) (drop k es).
Proof.
  revert o es. induction k as [|k IH]; intros o es Hc; [by rewrite Z.add_0_r|].
  destruct es as [|e es]; [done|]. destruct Hc as (_ & _ & Hc). cbn [drop].
  replace (o + Z.of_nat (S k)) with (o + 1 + Z.of_nat k) by lia. by apply IH.
Qed.
Lemma behind_app o a b : behind o (a ++ b) = behind (behind o a) b.
Proof. revert o. induction a as [|e a IH]; intros o; [done|]. cbn [app]. by rewrite !behind_cons, IH. Qed.

Lemma elem_of_prefix {A} k (l : list A) x : x ∈ take k l → x ∈ l.
Proof. intros Hx. rewrite <-(take_drop k l). apply elem_of_app. by left. Qed.

Lemma take_fitting_app c a b :
  take (fitting c (a ++ b)) (a ++ b) =
    if (fitting c a =? length a)%nat then a ++ take (fitting (c - sizes a) b) b else take (fitting c a) a.
Proof.
  rewrite fitting_app. pose proof (fitting_le c a). destruct (Nat.eqb_spec (fitting c a) (length a)).
  - apply take_app_add.
  - apply take_app_le. lia.
Qed.

(** *** A whole call *)
Lemma skip_dentries_past i (l : list dentry) : (0 < length l ≤ i)%nat → skip_dentries i l = None.
Proof.
  revert l. induction i as [|i IH]; intros l Hi; [lia|]. destruct l as [|e [|e' l]]; cbn in *; [lia|done|].
  apply IH. cbn. lia.
Qed.
Lemma dentry_getdents_run ctx d x l es s (R := drop (Z.to_nat (d_offset x)) es) :
  typed s l es → counted_from 0 es → descs s !! d = Some x → 0 ≤ d_offset x →
  dentry_getdents ctx d l s =
    Done (0, filled ctx R) (moved d (d_offset x + Z.of_nat (fitting (remaining_count ctx) R)) s).
Proof.
  intros Ht Hc Hx Ho. pose proof (Forall2_length _ _ _ Ht) as Hlen.
  assert (Hend : (length es ≤ Z.to_nat (d_offset x))%nat →
    Done (0, ctx) s = Done (0, filled ctx R) (moved d (d_offset x + Z.of_nat (fitting (remaining_count ctx) R)) s)).
  { intros H. unfold R. rewrite drop_ge by done. cbn [fitting]. rewrite filled_nil, Z.add_0_r. by rewrite moved_here. }
  unfold dentry_getdents. destruct l as [|e l]; [destruct es; [apply Hend; cbn; lia|discriminate Hlen]|].
  rewrite (bind_run _ _ _ _ _ (desc_run d x s Hx)).
  destruct (decide (Z.to_nat (d_offset x) < length (e :: l))%nat) as [Hlt|Hge].
  - rewrite skip_dentries_drop by done.
    assert (counted_from (d_offset x) R) as HcR.
    { pose proof (counted_drop 0 es (Z.to_nat (d_offset x)) Hc) as HcR.
      by replace (0 + Z.of_nat (Z.to_nat (d_offset x))) with (d_offset x) in HcR by lia. }
    assert (typed s (drop (Z.to_nat (d_offset x)) (e :: l)) R) as HtR by (by apply Forall2_drop).
    rewrite (bind_run _ _ _ _ _ (list_dentries_run ctx d x _ _ s HtR Hx Ho HcR)).
    by rewrite behind_counted by (done || apply fitting_le).
  - rewrite skip_dentries_past by (unfold dentry in *; cbn [length] in *; lia). apply Hend. rewrite <-Hlen. unfold dentry in *. lia.
Qed.

Lemma item_size_pos e : 0 < item_size e.
Proof. unfold item_size. lia. Qed.
Lemma sizes_range c es : 0 ≤ c → 0 ≤ sizes (take (fitting c es) es) ≤ c.
Proof.
  revert c. induction es as [|e es IH]; intros c Hc; cbn [fitting take]; [change (sizes []) with 0; lia|].
  destruct (Z.ltb_spec c (item_size e)); cbn [take]; [change (sizes []) with 0; lia|].
  rewrite sizes_cons. specialize (IH (c - item_size e)). pose proof (item_size_pos e). lia.
Qed.
Lemma sizes_zero es : sizes es = 0 → es = [].
Proof.
  destruct es as [|e es]; [done|]. rewrite sizes_cons. pose proof (item_size_pos e).
  assert (0 ≤ sizes es) as Hs by (clear; induction es as [|e es IH]; [done|]; rewrite sizes_cons; pose proof (item_size_pos e); lia).
  lia.
Qed.
