(* ===== verification/Process.v ===== *)
(** * Processes: lookup, file descriptors, signals (kernel/process.c) *)
From stdpp Require Import fin_maps.
From S2P Require Import Prelude Errno Kernel Path.

(** Field updates of a process. *)
Definition set_fd_table (t : list (option nat)) (p : process) : process :=
  Process (pid p) (ppid p) (pgid p) (pstate p) (exit_status p) (comm p) (cwd_path p)
    (cwd_inode p) t (should_unblock p) (waited_process p) (blocker_was_interrupted p)
    (user_ticks p) (kernel_ticks p) (pending_signals p).
Definition set_pstate (st : process_state) (p : process) : process :=
  Process (pid p) (ppid p) (pgid p) st (exit_status p) (comm p) (cwd_path p)
    (cwd_inode p) (fd_table p) (should_unblock p) (waited_process p) (blocker_was_interrupted p)
    (user_ticks p) (kernel_ticks p) (pending_signals p).
Definition set_exit_status (n : Z) (p : process) : process :=
  Process (pid p) (ppid p) (pgid p) (pstate p) n (comm p) (cwd_path p)
    (cwd_inode p) (fd_table p) (should_unblock p) (waited_process p) (blocker_was_interrupted p)
    (user_ticks p) (kernel_ticks p) (pending_signals p).
Definition set_pending (n : Z) (p : process) : process :=
  Process (pid p) (ppid p) (pgid p) (pstate p) (exit_status p) (comm p) (cwd_path p)
    (cwd_inode p) (fd_table p) (should_unblock p) (waited_process p) (blocker_was_interrupted p)
    (user_ticks p) (kernel_ticks p) n.
Definition set_ids (parent group : Z) (p : process) : process :=
  Process (pid p) parent group (pstate p) (exit_status p) (comm p) (cwd_path p)
    (cwd_inode p) (fd_table p) (should_unblock p) (waited_process p) (blocker_was_interrupted p)
    (user_ticks p) (kernel_ticks p) (pending_signals p).
Definition set_cwd (path : list Z) (i : option nat) (p : process) : process :=
  Process (pid p) (ppid p) (pgid p) (pstate p) (exit_status p) (comm p) path
    i (fd_table p) (should_unblock p) (waited_process p) (blocker_was_interrupted p)
    (user_ticks p) (kernel_ticks p) (pending_signals p).
Definition set_blocker (b : option blocker) (interrupted : bool) (p : process) : process :=
  Process (pid p) (ppid p) (pgid p) (pstate p) (exit_status p) (comm p) (cwd_path p)
    (cwd_inode p) (fd_table p) b (waited_process p) interrupted
    (user_ticks p) (kernel_ticks p) (pending_signals p).
Definition set_waited (w : option nat) (p : process) : process :=
  Process (pid p) (ppid p) (pgid p) (pstate p) (exit_status p) (comm p) (cwd_path p)
    (cwd_inode p) (fd_table p) (should_unblock p) w (blocker_was_interrupted p)
    (user_ticks p) (kernel_ticks p) (pending_signals p).
Definition set_ticks (u k : Z) (p : process) : process :=
  Process (pid p) (ppid p) (pgid p) (pstate p) (exit_status p) (comm p) (cwd_path p)
    (cwd_inode p) (fd_table p) (should_unblock p) (waited_process p) (blocker_was_interrupted p)
    u k (pending_signals p).
Definition update_proc (p : nat) (f : process → process) : K kstate unit :=
  x ← proc p; set_proc p (f x).
Definition update_current (f : process → process) : K kstate unit :=
  s ← get; update_proc (current s) f.

(** ** Lookup *)
Fixpoint find_process (f : process → bool) (it : list nat) : K kstate (option nat) :=
  match it with
  | [] => mret None
  | p :: next => x ← proc p; if f x then mret (Some p) else find_process f next
  end.
Definition process_find_process_by_pid (id : Z) : K kstate (option nat) :=
  s ← get; find_process (λ p, pid p =? id) (all_processes s).
Definition process_find_process_by_ppid (id : Z) : K kstate (option nat) :=
  s ← get; find_process (λ p, ppid p =? id) (all_processes s).
Definition process_generate_next_pid : K kstate Z :=
  s ← get; _ ← put (with_next_pid (s32 (next_pid s + 1)) s); mret (next_pid s).
Definition process_tick (in_kernel : bool) : K kstate unit :=
  update_current (λ p,
    if in_kernel then set_ticks (user_ticks p) (u32 (kernel_ticks p + 1)) p
    else set_ticks (u32 (user_ticks p + 1)) (kernel_ticks p) p).

(** ** File descriptors *)

(** The first index from [i] on of a free entry. *)
Fixpoint free_entry {A : Type} (it : list (option A)) (i : nat) : option nat :=
  match it with
  | [] => None
  | Some _ :: it => free_entry it (S i)
  | None :: _ => Some i
  end.
Definition process_alloc_file_descriptor (fd : Z) (d : nat) : K kstate Z :=
  if Z.of_nat OPEN_MAX <=? fd then mret (ERR EBADF)
  else
    p ← current_process;
    if 0 <=? fd then
      entry ← access (fd_table p !! Z.to_nat fd);
      match entry with
      | Some _ => mret (ERR EEXIST)
      | None =>
          _ ← update_current (set_fd_table (<[Z.to_nat fd := Some d]> (fd_table p)));
          mret fd
      end
    else
      match free_entry (take OPEN_MAX (fd_table p)) 0 with
      | Some i =>
          _ ← update_current (set_fd_table (<[i := Some d]> (fd_table p)));
          mret (Z.of_nat i)
      | None => mret (ERR EMFILE)
      end.

Definition process_free_file_descriptor (fd : Z) : K kstate Z :=
  if (fd <? 0) || (Z.of_nat OPEN_MAX <=? fd) then mret (ERR EBADF)
  else
    p ← current_process;
    entry ← access (fd_table p !! Z.to_nat fd);
    match entry with
    | None => mret (ERR EBADF)
    | Some _ =>
        _ ← update_current (set_fd_table (<[Z.to_nat fd := None]> (fd_table p)));
        mret 0
    end.

Definition process_get_file_description (fd : Z) : K kstate (ptr_res nat) :=
  if (fd <? 0) || (Z.of_nat OPEN_MAX <=? fd) then mret (ERR_PTR (ERR EBADF))
  else
    p ← current_process;
    entry ← access (fd_table p !! Z.to_nat fd);
    match entry with
    | None => mret (ERR_PTR (ERR EBADF))
    | Some d => mret (PTR d)
    end.

(** ** Signals *)
Definition SIGPIPE : Z := 13.
Definition NSIG : Z := 32.
Inductive disposition : Set := DISP_TERM | DISP_IGN | DISP_CORE | DISP_STOP | DISP_CONT.
(** By the numbers of kernel/api/signum.h; the default case is UNREACHABLE. *)
Definition get_default_disposition_for_signal (signum : Z) : K kstate disposition :=
  if bool_decide (signum ∈ [1; 2; 9; 13; 14; 10; 12; 26; 16; 29; 27; 30; 15]) then mret DISP_TERM
  else if bool_decide (signum ∈ [17; 23; 28]) then mret DISP_IGN
  else if bool_decide (signum ∈ [3; 4; 5; 6; 7; 8; 11; 24; 25; 31]) then mret DISP_CORE
  else if bool_decide (signum ∈ [19; 20; 21; 22]) then mret DISP_STOP
  else if signum =? 18 then mret DISP_CONT
  else panic.

Definition terminate_with_signal (signum : Z) : K kstate unit :=
  update_current (λ p,
    set_pstate PROCESS_STATE_DYING (set_exit_status (Z.land signum 0xff) p)).

(** __builtin_ffs: one plus the lowest bit set. *)
Fixpoint lowest_bit (n : nat) (i x : Z) : option Z :=
  match n with
  | O => None
  | S n => if Z.testbit x i then Some i else lowest_bit n (i + 1) x
  end.
Definition ffs (x : Z) : Z := match lowest_bit 32 0 x with Some i => i + 1 | None => 0 end.

(** One round clears one of 32 bits. *)
Fixpoint handle_signals (fuel : nat) : K kstate unit :=
  match fuel with
  | O => out_of_fuel
  | S fuel =>
      p ← current_process;
      if pending_signals p =? 0 then mret tt
      else
        let b := ffs (pending_signals p) in
        _ ← ASSERT (0 <? b);
        let signum := b - 1 in
        _ ← update_current (set_pending
              (Z.land (pending_signals p) (u32 (Z.lnot (Z.shiftl 1 signum)))));
        disp ← get_default_disposition_for_signal signum;
        match disp with
        | DISP_TERM | DISP_CORE => _ ← terminate_with_signal signum; handle_signals fuel
        | DISP_IGN => handle_signals fuel
        | DISP_STOP | DISP_CONT => panic
        end
  end.
Definition process_handle_pending_signals : K kstate unit :=
  p ← current_process;
  if pending_signals p =? 0 then mret tt else handle_signals 33.

Definition send_signal (p : nat) (signum : Z) : K kstate Z :=
  if (signum <? 0) || (NSIG <=? signum) then mret (ERR EINVAL)
  else
    disp ← get_default_disposition_for_signal signum;
    let deliver :=
      _ ← update_proc p (λ x, set_pending (u32 (Z.lor (pending_signals x) (Z.shiftl 1 signum))) x);
      s ← get;
      _ ← when (p =? current s)%nat process_handle_pending_signals;
      mret 0 in
    match disp with
    | DISP_TERM | DISP_CORE => deliver
    | DISP_IGN => mret 0
    | DISP_STOP | DISP_CONT => panic
    end.

Definition process_send_signal_to_one (id signum : Z) : K kstate Z :=
  p ← process_find_process_by_pid id;
  match p with
  | None => mret (ERR ESRCH)
  | Some p => send_signal p signum
  end.

Fixpoint send_to_those (skip : process → bool) (it : list nat) (signum : Z) : K kstate Z :=
  match it with
  | [] => mret 0
  | p :: next =>
      x ← proc p;
      if skip x then send_to_those skip next signum
      else
        rc ← send_signal p signum;
        if IS_ERR rc then mret rc else send_to_those skip next signum
  end.
Definition process_send_signal_to_group (group signum : Z) : K kstate Z :=
  s ← get; send_to_those (λ p, negb (pgid p =? group)) (all_processes s) signum.
Definition process_send_signal_to_all (signum : Z) : K kstate Z :=
  s ← get; send_to_those (λ p, pid p <=? 1) (all_processes s) signum.

(** ** Descriptors of the current process *)

(** [fd] is open and names description [d]. *)
Definition opened (s : kstate) (fd : Z) (d : nat) : Prop :=
  0 ≤ fd < Z.of_nat OPEN_MAX ∧
  ∃ p, procs s !! current s = Some p ∧ fd_table p !! Z.to_nat fd = Some (Some d).
Lemma current_process_run p s :
  procs s !! current s = Some p → current_process s = Done p s.
Proof. intros Hp. unfold current_process, proc, mbind, K_bind, get, access. by rewrite Hp. Qed.
Lemma get_file_description_run fd d s :
  opened s fd d → process_get_file_description fd s = Done (PTR d) s.
Proof.
  intros (Hfd & p & Hp & Ht). unfold process_get_file_description.
  rewrite (proj2 (Z.ltb_ge fd 0)), (proj2 (Z.leb_gt (Z.of_nat OPEN_MAX) fd)) by lia. cbn [orb].
  rewrite (bind_run _ _ _ _ _ (current_process_run p s Hp)).
  unfold mbind, K_bind, access. by rewrite Ht.
Qed.

(** The lowest free descriptor. *)
Lemma free_entry_spec {A : Type} (t : list (option A)) k a :
  free_entry t k = Some (k + a)%nat ↔
  t !! a = Some None ∧ ∀ j, (j < a)%nat → ∃ d, t !! j = Some (Some d).
Proof.
  revert k a. induction t as [|[d|] t IH]; intros k a; cbn [free_entry].
  - split; [done|]. rewrite lookup_nil. by intros [? _].
  - destruct a as [|a].
    + split; [|intros [? _]; done]. intros H. exfalso.
      assert (∀ (t : list (option A)) k x, free_entry t k = Some x → (k ≤ x)%nat) as Hge.
      { clear. induction t as [|[d|] t IH]; intros k x; cbn [free_entry]; [done| |].
        - intros H%IH. lia.
        - by intros [= ->]. }
      apply Hge in H. lia.
    + replace (k + S a)%nat with (S k + a)%nat by lia. rewrite (IH (S k) a). cbn [lookup list_lookup].
      split; intros [H1 H2]; (split; [exact H1|]).
      * intros [|j] Hj; [by exists d|]. apply (H2 j). lia.
      * intros j Hj. apply (H2 (S j)). lia.
  - destruct a as [|a].
    + rewrite Nat.add_0_r. split; [|done]. intros _. split; [done|]. intros; lia.
    + split; [intros [= H]; lia|]. intros [_ H]. destruct (H 0%nat) as [d Hd]; [lia|done].
Qed.
(** Descriptor [a] is the lowest free one of process [p]. *)
Definition lowest_free (p : process) (a : nat) : Prop :=
  (a < OPEN_MAX)%nat ∧ length (fd_table p) = OPEN_MAX ∧
  fd_table p !! a = Some None ∧ ∀ j, (j < a)%nat → ∃ d, fd_table p !! j = Some (Some d).
Definition with_fd (a : nat) (d : option nat) (p : process) : process :=
  set_fd_table (<[a := d]> (fd_table p)) p.
Lemma alloc_file_descriptor_run p a d s :
  procs s !! current s = Some p → lowest_free p a →
  process_alloc_file_descriptor (-1) d s =
    Done (Z.of_nat a) (with_procs <[current s := with_fd a (Some d) p]> s).
Proof.
  intros Hp (Ha & Hlen & Hfree). unfold process_alloc_file_descriptor.
  change (Z.of_nat OPEN_MAX <=? -1) with false. change (0 <=? -1) with false. cbv iota.
  rewrite (bind_run _ _ _ _ _ (current_process_run p s Hp)).
  rewrite take_ge by lia. rewrite (proj2 (free_entry_spec (fd_table p) 0 a) Hfree).
  unfold update_current, update_proc, proc, mbind, K_bind, get, access. rewrite Hp. done.
Qed.
Lemma free_file_descriptor_run p fd d s :
  0 ≤ fd < Z.of_nat OPEN_MAX → procs s !! current s = Some p →
  fd_table p !! Z.to_nat fd = Some (Some d) →
  process_free_file_descriptor fd s =
    Done 0 (with_procs <[current s := with_fd (Z.to_nat fd) None p]> s).
Proof.
  intros Hfd Hp Ht. unfold process_free_file_descriptor.
  rewrite (proj2 (Z.ltb_ge fd 0)), (proj2 (Z.leb_gt (Z.of_nat OPEN_MAX) fd)) by lia. cbn [orb].
  rewrite (bind_run _ _ _ _ _ (current_process_run p s Hp)).
  unfold mbind, K_bind, access. rewrite Ht. cbn.
  unfold update_current, update_proc, proc, mbind, K_bind, get, access. by rewrite Hp.
Qed.
Lemma alloc_fd_at_run p fd d s :
  0 ≤ fd < Z.of_nat OPEN_MAX → procs s !! current s = Some p →
  fd_table p !! Z.to_nat fd = Some None →
  process_alloc_file_descriptor fd d s =
    Done fd (with_procs <[current s := with_fd (Z.to_nat fd) (Some d) p]> s).
Proof.
  intros Hfd Hp Ht. unfold process_alloc_file_descriptor.
  rewrite (proj2 (Z.leb_gt (Z.of_nat OPEN_MAX) fd)), (proj2 (Z.leb_le 0 fd)) by lia.
  rewrite (bind_run _ _ _ _ _ (current_process_run p s Hp)).
  unfold mbind, K_bind, access. rewrite Ht. cbn.
  unfold update_current, update_proc, proc, mbind, K_bind, get, access. by rewrite Hp.
Qed.

(** ** Facts about lookup and signals *)

Lemma proc_run p x s : procs s !! p = Some x → proc p s = Done x s.
Proof. intros H. unfold proc, mbind, K_bind, get, access. by rewrite H. Qed.
Lemma update_proc_run p x f s :
  procs s !! p = Some x → update_proc p f s = Done tt (with_procs <[p := f x]> s).
Proof. intros H. unfold update_proc. by rewrite (bind_run _ _ _ _ _ (proc_run p x s H)). Qed.
Lemma update_current_run x f s :
  procs s !! current s = Some x → update_current f s = Done tt (with_procs <[current s := f x]> s).
Proof. intros H. unfold update_current, mbind, K_bind, get. by apply update_proc_run. Qed.
(** Every process of [l] exists and does not satisfy [f]. *)
Definition none_of (s : kstate) (f : process → bool) (l : list nat) : Prop :=
  Forall (λ q, ∃ y, procs s !! q = Some y ∧ f y = false) l.
Lemma find_process_none f l s : none_of s f l → find_process f l s = Done None s.
Proof.
  induction 1 as [|q l (y & Hy & Hf) Hl IH]; cbn [find_process]; [done|].
  by rewrite (bind_run _ _ _ _ _ (proc_run q y s Hy)), Hf.
Qed.
Lemma find_process_some f l1 p x l2 s :
  none_of s f l1 → procs s !! p = Some x → f x = true →
  find_process f (l1 ++ p :: l2) s = Done (Some p) s.
Proof.
  intros Hl Hp Hx. induction Hl as [|q l1 (y & Hy & Hf) Hl IH]; cbn [find_process app].
  - by rewrite (bind_run _ _ _ _ _ (proc_run p x s Hp)), Hx.
  - by rewrite (bind_run _ _ _ _ _ (proc_run q y s Hy)), Hf.
Qed.

(** The signals by what they do. *)
Definition ignored (signum : Z) : Prop := signum ∈ [17; 23; 28].
Definition job_control (signum : Z) : Prop := signum ∈ [18; 19; 20; 21; 22].
Definition fatal (signum : Z) : Prop :=
  0 < signum < NSIG ∧ ¬ ignored signum ∧ ¬ job_control signum.
Lemma disposition_of (signum : Z) (s : kstate) :
  0 ≤ signum < NSIG →
  (signum = 0 ∧ get_default_disposition_for_signal signum s = Panic) ∨
  (ignored signum ∧ get_default_disposition_for_signal signum s = Done DISP_IGN s) ∨
  (job_control signum ∧ ∃ d, get_default_disposition_for_signal signum s = Done d s ∧
     (d = DISP_STOP ∨ d = DISP_CONT)) ∨
  (fatal signum ∧ ∃ d, get_default_disposition_for_signal signum s = Done d s ∧
     (d = DISP_TERM ∨ d = DISP_CORE)).
Proof.
  intros H. unfold get_default_disposition_for_signal, fatal, ignored, job_control, NSIG in *.
  repeat match goal with |- context [bool_decide (signum ∈ ?l)] =>
    destruct (bool_decide_reflect (signum ∈ l)) as [Hin|Hnot];
      [|rewrite !not_elem_of_cons in Hnot; destruct_and? Hnot] end.
  1, 3: right; right; right; (split; [|eexists; split; [reflexivity|auto]]);
    rewrite !not_elem_of_cons; repeat (apply elem_of_cons in Hin as [->|Hin];
      [split_and!; first [lia | apply not_elem_of_nil]|]);
    by apply not_elem_of_nil in Hin.
  - by right; left.
  - right; right; left. split; [|eexists; split; [reflexivity|auto]].
    rewrite elem_of_cons. by right.
  - destruct (Z.eqb_spec signum 18) as [->|].
    + right; right; left. split; [left|]. eexists. split; [reflexivity|auto].
    + left. split; [lia|done].
Qed.

Lemma fatal_disposition signum s :
  fatal signum → ∃ d, (d = DISP_TERM ∨ d = DISP_CORE) ∧
    get_default_disposition_for_signal signum s = Done d s.
Proof.
  intros (H1 & H2 & H3). destruct (disposition_of signum s) as [[? _]|[[? _]|[[? _]|(_ & d & ? & ?)]]];
    try done; [lia|lia|eauto].
Qed.

(** The lowest pending signal, and the others. *)
Lemma ffs_spec v : 0 < v < U32 →
  ∃ b, 0 ≤ b < 32 ∧ ffs v = b + 1 ∧ Z.testbit v b = true ∧
       ∀ j, 0 ≤ j < b → Z.testbit v j = false.
Proof.
  intros Hv. unfold ffs.
  assert (∀ n i, 0 ≤ i → (∀ j, 0 ≤ j < i → Z.testbit v j = false) → i + Z.of_nat n = 32 →
    ∃ b, i ≤ b < 32 ∧ lowest_bit n i v = Some b ∧ Z.testbit v b = true ∧
         ∀ j, 0 ≤ j < b → Z.testbit v j = false) as Hlb.
  { induction n as [|n IH]; intros i Hi Hlow Hn.
    - exfalso. assert (v = 0) as ->; [|lia]. apply Z.bits_inj'. intros j Hj. rewrite Z.bits_0.
      destruct (decide (j < i)); [by apply Hlow|]. apply (testbit_high v 32); [|lia|lia].
      unfold U32 in Hv. lia.
    - cbn [lowest_bit]. destruct (Z.testbit v i) eqn:E; [by exists i; split_and!; try done; lia|].
      destruct (IH (i + 1)) as (b & Hb & ? & ? & ?); [lia| |lia|exists b; split_and!; try done; lia].
      intros j Hj. destruct (decide (j = i)) as [->|]; [done|]. apply Hlow. lia. }
  destruct (Hlb 32%nat 0) as (b & Hb & -> & ? & ?); [lia|lia|done|]. by exists b.
Qed.
Lemma clear_bit v b j : 0 ≤ v < U32 → 0 ≤ b < 32 → 0 ≤ j →
  Z.testbit (Z.land v (u32 (Z.lnot (Z.shiftl 1 b)))) j = Z.testbit v j && negb (j =? b).
Proof.
  intros Hv Hb Hj. unfold u32, U32. change 4294967296 with (2 ^ 32). rewrite Z.land_spec.
  destruct (decide (j < 32)).
  - rewrite Z.mod_pow2_bits_low by lia. rewrite Z.lnot_spec, Z.shiftl_1_l by done.
    destruct (Z.eqb_spec j b) as [->|]; [by rewrite Z.pow2_bits_true by lia|].
    by rewrite Z.pow2_bits_false by lia.
  - rewrite (testbit_high v 32 ltac:(unfold U32 in Hv; lia)) by lia. done.
Qed.
Lemma clear_bit_range v b : 0 ≤ v < U32 → 0 ≤ Z.land v (u32 (Z.lnot (Z.shiftl 1 b))) ≤ v.
Proof.
  intros Hv. pose proof (u32_range (Z.lnot (Z.shiftl 1 b))). split; [by apply Z.land_nonneg; left; lia|].
  apply Z.ldiff_le; [lia|]. apply Z.bits_inj'. intros j Hj.
  rewrite Z.ldiff_spec, Z.land_spec, Z.bits_0. by destruct (Z.testbit v j), (Z.testbit (u32 _) j).
Qed.
Lemma shiftl_1_range signum : 0 ≤ signum < 32 → 0 < Z.shiftl 1 signum < U32.
Proof.
  intros H. rewrite Z.shiftl_1_l. split; [apply Z.pow_pos_nonneg; lia|].
  change U32 with (2 ^ 32). apply Z.pow_lt_mono_r; lia.
Qed.

(** Pending signals that all end the process, and the process they ended: the
    highest one is left as its status. *)
Definition deliverable (v : Z) : Prop :=
  0 ≤ v < U32 ∧ ∀ i, Z.testbit v i = true → fatal i.
Definition killed (x : process) : process :=
  set_pstate PROCESS_STATE_DYING
    (set_exit_status (Z.land (Z.log2 (pending_signals x)) 0xff) (set_pending 0 x)).
Lemma log2_clear v b : 0 < v < U32 → 0 ≤ b < 32 → Z.testbit v b = true →
  (∀ j, 0 ≤ j < b → Z.testbit v j = false) →
  let v' := Z.land v (u32 (Z.lnot (Z.shiftl 1 b))) in
  (v' = 0 ∧ Z.log2 v = b) ∨ (0 < v' ∧ Z.log2 v' = Z.log2 v).
Proof.
  intros Hv Hb Hbit Hlow v'. pose proof (clear_bit_range v b ltac:(lia)) as Hr. fold v' in Hr.
  destruct (decide (Z.log2 v = b)) as [Hl|Hl].
  - left. split; [|done]. apply Z.bits_inj'. intros j Hj. unfold v'.
    rewrite clear_bit, Z.bits_0 by lia. destruct (Z.eqb_spec j b) as [->|]; [by rewrite andb_false_r|].
    rewrite andb_true_r. destruct (decide (j < b)); [apply Hlow; lia|].
    apply Z.bits_above_log2; lia.
  - right. assert (Z.testbit v' (Z.log2 v) = true) as Htop.
    { unfold v'. rewrite clear_bit by (try lia; apply Z.log2_nonneg). rewrite Z.bit_log2 by lia.
      by rewrite (proj2 (Z.eqb_neq _ _) Hl). }
    assert (v' ≠ 0) as Hne by by intros E; rewrite E, Z.bits_0 in Htop.
    split; [lia|]. apply Z.le_antisymm; [apply Z.log2_le_mono; lia|].
    destruct (Z.le_gt_cases (Z.log2 v) (Z.log2 v')); [done|].
    rewrite Z.bits_above_log2 in Htop by lia. done.
Qed.
Lemma handle_signals_run s x fuel i :
  procs s !! current s = Some x → deliverable (pending_signals x) →
  (∀ j, 0 ≤ j < i → Z.testbit (pending_signals x) j = false) →
  0 ≤ i → 33 ≤ Z.of_nat fuel + i →  (0 < fuel)%nat → pending_signals x ≠ 0 →
  handle_signals fuel s = Done tt (with_procs <[current s := killed x]> s).
Proof.
  revert s x i. induction fuel as [|fuel IH]; intros s x i Hp Hd Hlow Hi Hf Hpos Hne; [lia|].
  destruct Hd as [Hr Hfat]. set (v := pending_signals x) in *.
  destruct (ffs_spec v ltac:(lia)) as (b & Hb & Hffs & Hbit & Hbl).
  cbn [handle_signals]. rewrite (bind_run _ _ _ _ _ (current_process_run x s Hp)). fold v.
  rewrite (proj2 (Z.eqb_neq v 0)), Hffs, (proj2 (Z.ltb_lt 0 (b + 1))) by lia.
  replace (b + 1 - 1) with b by lia. set (v' := Z.land v _).
  rewrite (bind_run (ASSERT true) _ s tt s eq_refl).
  rewrite (bind_run _ _ _ _ _ (update_current_run x _ s Hp)). set (s1 := with_procs _ s).
  destruct (fatal_disposition b s1 (Hfat b Hbit)) as (d & Hdd & Hdisp).
  rewrite (bind_run _ _ _ _ _ Hdisp).
  set (x' := set_pstate PROCESS_STATE_DYING (set_exit_status (Z.land b 0xff) (set_pending v' x))).
  set (s2 := with_procs <[current s := x']> s).
  assert (terminate_with_signal b s1 = Done tt s2) as Ht.
  { unfold terminate_with_signal.
    rewrite (update_current_run (set_pending v' x) _ s1) by apply lookup_insert_eq.
    unfold s1, s2. by rewrite with_procs_twice. }
  assert (procs s2 !! current s2 = Some x') as Hp2 by apply lookup_insert_eq.
  assert (handle_signals fuel s2 = Done tt (with_procs <[current s := killed x]> s)) as Hrec.
  { assert (Hfuel : (0 < fuel)%nat) by (destruct (decide (b < i)) as [Hbi|]; [rewrite Hlow in Hbit; [done|lia]|lia]).
    pose proof (clear_bit_range v b Hr) as Hr'. fold v' in Hr'.
    destruct (log2_clear v b ltac:(lia) Hb Hbit Hbl) as [[Hz Hl]|[Hz Hl]]; fold v' in Hz; try fold v' in Hl.
    - destruct fuel as [|fuel]; [lia|]. cbn [handle_signals].
      rewrite (bind_run _ _ _ _ _ (current_process_run x' s2 Hp2)). unfold x' at 1.
      cbn [set_pstate set_exit_status set_pending pending_signals]. rewrite Hz. simpl.
      unfold s2, x', killed. fold v. rewrite Hz, Hl. done.
    - rewrite (IH s2 x' (b + 1) Hp2).
      + unfold s2. cbn [with_procs current]. rewrite with_procs_twice. unfold killed, x'. fold v.
        cbn [set_pstate set_exit_status set_pending pending_signals]. rewrite Hl. done.
      + split; [unfold x'; simpl; lia|]. unfold x'. simpl. intros j Hj. apply Hfat.
        assert (0 ≤ j) by (destruct (decide (0 ≤ j)); [done|]; rewrite Z.testbit_neg_r in Hj by lia; done).
        unfold v' in Hj. rewrite clear_bit in Hj by lia. by apply andb_true_iff in Hj as [? _].
      + unfold x'. simpl. intros j Hj. unfold v'. rewrite clear_bit by lia.
        destruct (Z.eqb_spec j b); [by rewrite andb_false_r|]. rewrite Hbl by lia. done.
      + lia.
      + destruct (decide (b < i)); [rewrite Hlow in Hbit; [done|lia]|lia].
      + done.
      + unfold x'. simpl. lia. }
  destruct Hdd as [-> | ->]; by rewrite (bind_run _ _ _ _ _ Ht).
Qed.
Lemma handle_pending_run s x :
  procs s !! current s = Some x → deliverable (pending_signals x) →
  process_handle_pending_signals s =
    Done tt (if pending_signals x =? 0 then s else with_procs <[current s := killed x]> s).
Proof.
  intros Hp Hd. unfold process_handle_pending_signals.
  rewrite (bind_run _ _ _ _ _ (current_process_run x s Hp)).
  destruct (Z.eqb_spec (pending_signals x) 0); [done|].
  assert (∀ k, (33 ≤ k)%nat → handle_signals k s = Done tt (with_procs <[current s := killed x]> s)) as H.
  { intros k Hk. apply (handle_signals_run s x k 0); try done; lia. }
  by apply H.
Qed.
(** The current process with one pending fatal signal. *)
Lemma deliverable_one signum : fatal signum → deliverable (Z.shiftl 1 signum).
Proof.
  intros Hf. pose proof Hf as [Hr _]. unfold NSIG in Hr. split.
  - pose proof (shiftl_1_range signum). lia.
  - intros i. rewrite Z.shiftl_1_l. destruct (decide (i = signum)) as [->|]; [done|].
    by rewrite Z.pow2_bits_false by lia.
Qed.

(** ** Properties *)

(** [send_signal] on each kind of signal. *)
Lemma send_signal_in_range p signum s : 0 ≤ signum < NSIG →
  send_signal p signum s =
    (disp ← get_default_disposition_for_signal signum;
     match disp with
     | DISP_TERM | DISP_CORE =>
         _ ← update_proc p (λ x, set_pending (u32 (Z.lor (pending_signals x) (Z.shiftl 1 signum))) x);
         s ← get;
         _ ← when (p =? current s)%nat process_handle_pending_signals;
         mret 0
     | DISP_IGN => mret 0
     | DISP_STOP | DISP_CONT => panic
     end) s.
Proof.
  intros H. unfold send_signal.
  by rewrite (proj2 (Z.ltb_ge signum 0)), (proj2 (Z.leb_gt NSIG signum)) by lia.
Qed.
Lemma send_signal_bad p signum s : ¬ 0 ≤ signum < NSIG → send_signal p signum s = Done (ERR EINVAL) s.
Proof.
  intros H. unfold send_signal.
  destruct (Z.ltb_spec signum 0), (Z.leb_spec NSIG signum); cbn [orb]; try done. lia.
Qed.
Lemma job_control_range signum : job_control signum → 0 ≤ signum < NSIG.
Proof.
  unfold NSIG, job_control. intros Hj.
  repeat (apply elem_of_cons in Hj as [->|Hj]; [lia|]). by apply not_elem_of_nil in Hj.
Qed.
Lemma ignored_range signum : ignored signum → 0 ≤ signum < NSIG ∧ signum ≠ 0 ∧ ¬ job_control signum.
Proof.
  unfold NSIG, ignored, job_control. intros Hi.
  repeat (apply elem_of_cons in Hi as [->|Hi];
    [rewrite !not_elem_of_cons; split_and!; first [lia|apply not_elem_of_nil]|]).
  by apply not_elem_of_nil in Hi.
Qed.
Lemma send_signal_panics p signum s :
  signum = 0 ∨ job_control signum → send_signal p signum s = Panic.
Proof.
  intros Hz. assert (0 ≤ signum < NSIG) as Hr.
  { destruct Hz as [->|Hj]; [unfold NSIG; lia|by apply job_control_range]. }
  rewrite (send_signal_in_range _ _ _ Hr).
  destruct (disposition_of signum s Hr) as [[? Hd]|[[Hi _]|[(_ & d & Hd & Hor)|[(? & ? & ?) _]]]].
  - unfold mbind, K_bind. by rewrite Hd.
  - exfalso. apply ignored_range in Hi as (_ & ? & ?). naive_solver.
  - rewrite (bind_run _ _ _ _ _ Hd). by destruct Hor as [-> | ->].
  - exfalso. destruct Hz as [->|?]; [lia|done].
Qed.
Lemma send_signal_ignored p signum s : ignored signum → send_signal p signum s = Done 0 s.
Proof.
  intros Hi. destruct (ignored_range _ Hi) as (Hr & Hz & Hj). rewrite (send_signal_in_range _ _ _ Hr).
  destruct (disposition_of signum s Hr) as [[? Hd]|[[_ Hd]|[[? _]|[(? & ? & ?) _]]]]; [done| |done|done].
  by rewrite (bind_run _ _ _ _ _ Hd).
Qed.
Lemma send_signal_other p x signum s :
  fatal signum → procs s !! p = Some x → p ≠ current s →
  send_signal p signum s = Done 0 (with_procs <[p := set_pending
    (u32 (Z.lor (pending_signals x) (Z.shiftl 1 signum))) x]> s).
Proof.
  intros Hf Hp Hne. destruct (fatal_disposition signum s Hf) as (d & Hd & Hdisp). destruct Hf as (Hr & _).
  rewrite send_signal_in_range by lia. rewrite (bind_run _ _ _ _ _ Hdisp).
  destruct Hd as [-> | ->]; rewrite (bind_run _ _ _ _ _ (update_proc_run p x _ s Hp));
    unfold mbind, K_bind, get; cbn [with_procs current];
    by rewrite (proj2 (Nat.eqb_neq p (current s))).
Qed.
(** Handling the one pending signal. *)
Lemma handle_one_pending x signum s :
  fatal signum → pending_signals x = 0 →
  process_handle_pending_signals (with_procs <[current s := set_pending (Z.shiftl 1 signum) x]> s) =
    Done tt (with_procs <[current s := set_pstate PROCESS_STATE_DYING (set_exit_status signum x)]> s).
Proof.
  intros Hf Hpend. pose proof Hf as (Hr & _). unfold NSIG in Hr.
  pose proof (shiftl_1_range signum ltac:(lia)) as Hsh. set (s1 := with_procs _ s).
  rewrite (handle_pending_run s1 (set_pending (Z.shiftl 1 signum) x));
    [|apply lookup_insert_eq|by apply deliverable_one]. cbn [set_pending pending_signals].
  rewrite (proj2 (Z.eqb_neq _ 0)) by lia. change (current s1) with (current s).
  f_equal. unfold s1. rewrite with_procs_twice. do 2 f_equal. unfold killed. cbn [set_pending pending_signals].
  assert (Z.land (Z.log2 (Z.shiftl 1 signum)) 0xff = signum) as ->.
  { rewrite Z.shiftl_1_l, Z.log2_pow2 by lia. change 0xff with (Z.ones 8).
    rewrite Z.land_ones by lia. apply Z.mod_small. lia. }
  destruct x; simpl in *. by subst.
Qed.
Lemma send_signal_self x signum s :
  fatal signum → procs s !! current s = Some x → pending_signals x = 0 →
  send_signal (current s) signum s =
    Done 0 (with_procs <[current s := set_pstate PROCESS_STATE_DYING (set_exit_status signum x)]> s).
Proof.
  intros Hf Hp Hpend. destruct (fatal_disposition signum s Hf) as (d & Hd & Hdisp). pose proof Hf as (Hr & _).
  rewrite send_signal_in_range by lia. rewrite (bind_run _ _ _ _ _ Hdisp). unfold NSIG in Hr.
  pose proof (shiftl_1_range signum ltac:(lia)) as Hsh.
  pose proof (update_proc_run _ x (λ x, set_pending
    (u32 (Z.lor (pending_signals x) (Z.shiftl 1 signum))) x) s Hp) as Hup.
  cbv beta in Hup. rewrite Hpend, Z.lor_0_l, u32_small in Hup by lia.
  destruct Hd as [-> | ->]; rewrite (bind_run _ _ _ _ _ Hup);
    unfold mbind at 1, K_bind at 1, get; cbn [with_procs current];
    rewrite Nat.eqb_refl; cbn [when]; by rewrite (bind_run _ _ _ _ _ (handle_one_pending x signum s Hf Hpend)).
Qed.

(** C31: sending a signal to a process by its number. No such process: -ESRCH; a
    number that is no signal: -EINVAL; an ignored signal: 0; in these cases
    nothing happens. A fatal signal is marked pending in another process, and
    ends the current one: it is dying, with the signal as its exit status. Signal
    0 and the job control signals stop the whole machine. *)
Theorem process_send_signal_to_one_spec s id signum :
  (none_of s (λ y, pid y =? id) (all_processes s) →
     process_send_signal_to_one id signum s = Done (ERR ESRCH) s) ∧
  (∀ l1 p x l2, all_processes s = l1 ++ p :: l2 → none_of s (λ y, pid y =? id) l1 →
     procs s !! p = Some x → pid x = id →
     (¬ 0 ≤ signum < NSIG → process_send_signal_to_one id signum s = Done (ERR EINVAL) s) ∧
     (signum = 0 ∨ job_control signum → process_send_signal_to_one id signum s = Panic) ∧
     (ignored signum → process_send_signal_to_one id signum s = Done 0 s) ∧
     (fatal signum → p ≠ current s → process_send_signal_to_one id signum s =
        Done 0 (with_procs <[p := set_pending
          (u32 (Z.lor (pending_signals x) (Z.shiftl 1 signum))) x]> s)) ∧
     (fatal signum → p = current s → pending_signals x = 0 →
        process_send_signal_to_one id signum s =
        Done 0 (with_procs <[p := set_pstate PROCESS_STATE_DYING (set_exit_status signum x)]> s))).
Proof.
  unfold process_send_signal_to_one, process_find_process_by_pid, mbind, K_bind, get. split.
  { intros Hn. by rewrite (find_process_none _ _ s Hn). }
  intros l1 p x l2 Hall Hl1 Hp Hid.
  rewrite Hall, (find_process_some _ l1 p x l2 s Hl1 Hp) by (by apply Z.eqb_eq). split_and!.
  - apply send_signal_bad.
  - apply send_signal_panics.
  - apply send_signal_ignored.
  - intros ? ?. by apply send_signal_other.
  - intros ? -> ?. by apply send_signal_self.
Qed.

(** ** Witnesses *)
Lemma process_send_signal_to_one_spec_witness :
  process_send_signal_to_one 7 9 (one_process (lit "/")) = Done (ERR ESRCH) (one_process (lit "/")) ∧
  process_send_signal_to_one 1 0 (one_process (lit "/")) = Panic ∧
  process_send_signal_to_one 1 9 (one_process (lit "/")) =
    Done 0 (with_procs <[0%nat := set_pstate PROCESS_STATE_DYING
      (set_exit_status 9 (process_at (lit "/")))]> (one_process (lit "/"))).
Proof.
  assert (procs (one_process (lit "/")) !! 0%nat = Some (process_at (lit "/"))) as Hp
    by apply lookup_singleton_eq.
  split; [|split].
  - apply (proj1 (process_send_signal_to_one_spec (one_process (lit "/")) 7 9)).
    constructor; [|constructor]. exists (process_at (lit "/")). split; [exact Hp|reflexivity].
  - apply (proj2 (process_send_signal_to_one_spec (one_process (lit "/")) 1 0)
      [] 0%nat (process_at (lit "/")) [] eq_refl (List.Forall_nil _) Hp eq_refl).
    left. reflexivity.
  - apply (proj2 (process_send_signal_to_one_spec (one_process (lit "/")) 1 9)
      [] 0%nat (process_at (lit "/")) [] eq_refl (List.Forall_nil _) Hp eq_refl).
    + split; [unfold NSIG; lia|]. split; apply (bool_decide_unpack _); reflexivity.
    + reflexivity.
    + reflexivity.
Defined.
