(* ===== verification/Scheduler.v ===== *)
(** * The scheduler (kernel/scheduler.c), with the conditions processes block on
    (kernel/fs/fifo.c, kernel/unix_socket.c, kernel/syscall/process.c)

    The queues are lists of process numbers. A context switch saves and loads
    registers in assembly; here it is the change of [current], so that a
    computation that switches goes on in the name of another process. *)
From stdpp Require Import fin_maps.
From S2P Require Import Prelude Errno RingBuf Kernel Process.

(** ** Conditions to wait for *)

(** The fifo of a description. *)
Definition fifo_of (d : nat) : K kstate (ring_buf * Z * Z) :=
  x ← desc d;
  nd ← node (d_inode x);
  match data nd with FifoData buf r w => mret (buf, r, w) | _ => undef end.
Definition read_should_unblock (d : nat) : K kstate bool :=
  '(buf, _, num_writers) ← fifo_of d;
  mret ((num_writers =? 0) || negb (ring_buf_is_empty buf)).
Definition write_should_unblock (d : nat) : K kstate bool :=
  '(buf, num_readers, _) ← fifo_of d;
  mret ((num_readers =? 0) || negb (ring_buf_is_full buf)).

(** The socket that is inode [i]; [(unix_socket* )inode] of an inode that is none
    has no meaning. *)
Definition socket (i : nat) : K kstate unix_socket :=
  nd ← node i; match data nd with SocketData x => mret x | _ => undef end.
Definition socket_of (d : nat) : K kstate unix_socket := x ← desc d; socket (d_inode x).
Definition is_client (x : unix_socket) (d : nat) : bool := bool_decide (connector_fd x = Some d).
Definition get_buf_to_read (x : unix_socket) (d : nat) : ring_buf :=
  if is_client x d then server_to_client_buf x else client_to_server_buf x.
Definition get_buf_to_write (x : unix_socket) (d : nat) : ring_buf :=
  if is_client x d then client_to_server_buf x else server_to_client_buf x.
Definition socket_read_should_unblock (d : nat) : K kstate bool :=
  x ← socket_of d; mret (negb (ring_buf_is_empty (get_buf_to_read x d))).
Definition socket_write_should_unblock (d : nat) : K kstate bool :=
  x ← socket_of d; mret (negb (ring_buf_is_full (get_buf_to_write x d))).
Definition accept_should_unblock (listener : nat) : K kstate bool :=
  x ← socket listener; mret (0 <? num_pending x).
Definition connect_should_unblock (connector : nat) : K kstate bool :=
  x ← socket connector; mret (connected x).

(** The process a waitpid asks for. *)
Definition is_target (param_pid current_pid current_pgid : Z) (it : process) : bool :=
  if param_pid <? -1 then pgid it =? - param_pid
  else if param_pid =? -1 then ppid it =? current_pid
  else if param_pid =? 0 then pgid it =? current_pgid
  else pid it =? param_pid.
(** The loop over [all_processes]: the processes before the dead target, last
    first, the target and the ones behind it; or whether there was any target. *)
Fixpoint find_dead (target : process → bool) (prev it : list nat) (any : bool)
    : K kstate (option (list nat * nat * list nat) * bool) :=
  match it with
  | [] => mret (None, any)
  | p :: next =>
      x ← proc p;
      let any := any || target x in
      if target x && bool_decide (pstate x = PROCESS_STATE_DEAD)
      then mret (Some (prev, p, next), any)
      else find_dead target (p :: prev) next any
  end.
(** [b] is the process in whose stack frame the blocker lies. *)
Definition waitpid_should_unblock (b : nat) (param_pid current_pid current_pgid : Z)
    : K kstate bool :=
  s ← get;
  '(r, any_target_exists) ←
    find_dead (is_target param_pid current_pid current_pgid) [] (all_processes s) false;
  match r with
  | None =>
      if negb (any_target_exists : bool) then _ ← update_proc b (set_waited None); mret true
      else mret false
  | Some (prev, p, next) =>
      s ← get;
      _ ← put (with_sched (rev_append prev next) (ready_queue s) (current s) s);
      _ ← update_proc b (set_waited (Some p));
      mret true
  end.

Definition run_blocker (p : nat) (b : blocker) : K kstate bool :=
  match b with
  | FifoReadable d => read_should_unblock d
  | FifoWritable d => write_should_unblock d
  | SocketReadable d => socket_read_should_unblock d
  | SocketWritable d => socket_write_should_unblock d
  | SocketPending l => accept_should_unblock l
  | SocketConnected c => connect_should_unblock c
  | Waitpid param_pid current_pid current_pgid =>
      waitpid_should_unblock p param_pid current_pid current_pgid
  end.

(** ** The queues *)

Definition set_all (l : list nat) : K kstate unit :=
  modify (λ s, with_sched l (ready_queue s) (current s) s).
Definition set_ready (l : list nat) : K kstate unit :=
  modify (λ s, with_sched (all_processes s) l (current s) s).
Definition set_current (p : nat) : K kstate unit :=
  modify (λ s, with_sched (all_processes s) (ready_queue s) p s).

Definition scheduler_enqueue (p : nat) : K kstate unit :=
  x ← proc p;
  _ ← ASSERT (negb (bool_decide (pstate x = PROCESS_STATE_DEAD)));
  s ← get; set_ready (ready_queue s ++ [p]).

(** The place in the list by [pid]. *)
Fixpoint insert_by_pid (id : Z) (p : nat) (it : list nat) : K kstate (list nat) :=
  match it with
  | [] => mret [p]
  | q :: next =>
      x ← proc q;
      if pid x <? id then rest ← insert_by_pid id p next; mret (q :: rest)
      else mret (p :: q :: next)
  end.
Definition scheduler_register (p : nat) : K kstate unit :=
  x ← proc p;
  _ ← ASSERT (bool_decide (pstate x = PROCESS_STATE_RUNNABLE));
  s ← get;
  l ← insert_by_pid (pid x) p (all_processes s);
  _ ← set_all l;
  scheduler_enqueue p.

(** The loop of scheduler_unregister: when [it] is the process, it is unlinked
    and stays [it]. *)
Fixpoint unregister_loop (fuel : nat) (p : nat) (prev it : list nat) : K kstate unit :=
  match fuel with
  | O => out_of_fuel
  | S fuel =>
      match it with
      | [] => mret tt
      | q :: next =>
          if negb (q =? p)%nat then unregister_loop fuel p (q :: prev) next
          else _ ← set_all (rev_append prev next); unregister_loop fuel p prev it
      end
  end.
Definition scheduler_unregister (fuel p : nat) : K kstate unit :=
  s ← get; unregister_loop fuel p [] (all_processes s).

Definition scheduler_deque : K kstate (option nat) :=
  s ← get;
  match ready_queue s with
  | [] => mret (idle s)
  | p :: next =>
      _ ← set_ready next;
      x ← proc p;
      _ ← ASSERT (negb (bool_decide (pstate x = PROCESS_STATE_DEAD)));
      mret (Some p)
  end.

(** The loop reads the list links while the conditions run; a waitpid condition
    unlinks a dead process only, which the loop passes over anyway. *)
Fixpoint unblock_those (it : list nat) : K kstate unit :=
  match it with
  | [] => mret tt
  | p :: next =>
      x ← proc p;
      if negb (bool_decide (pstate x = PROCESS_STATE_BLOCKED)) then unblock_those next
      else
        match should_unblock x with
        | None => panic
        | Some b =>
            ready ← (if negb (pending_signals x =? 0) then mret true else run_blocker p b);
            _ ← (if ready : bool then
                   _ ← update_proc p (λ x, set_pstate PROCESS_STATE_RUNNING
                         (set_blocker None (negb (pending_signals x =? 0)) x));
                   scheduler_enqueue p
                 else mret tt);
            unblock_those next
        end
  end.
Definition unblock_processes : K kstate unit := s ← get; unblock_those (all_processes s).

Definition switch_to_next_process : K kstate unit :=
  _ ← unblock_processes;
  p ← scheduler_deque;
  match p with
  | None => panic
  | Some p =>
      _ ← set_current p;
      x ← proc p;
      _ ← ASSERT (negb (bool_decide (pstate x = PROCESS_STATE_DEAD)));
      _ ← process_handle_pending_signals;
      update_current (λ x, if decide (pstate x = PROCESS_STATE_RUNNABLE)
                           then set_pstate PROCESS_STATE_RUNNING x else x)
  end.

Definition scheduler_yield (requeue_current : bool) : K kstate unit :=
  s ← get;
  if bool_decide (idle s = Some (current s)) then
    _ ← update_current (set_pstate PROCESS_STATE_RUNNABLE);
    switch_to_next_process
  else
    _ ← when requeue_current (scheduler_enqueue (current s));
    switch_to_next_process.

(** The branch of scheduler_block that waits. *)
Definition block_current (b : blocker) : K kstate unit :=
  _ ← update_current (λ x, set_pstate PROCESS_STATE_BLOCKED (set_blocker (Some b) false x));
  scheduler_yield false.
(** When the condition holds the caller goes on; otherwise it goes on only after
    other processes ran, which is not part of its computation. *)
Definition scheduler_block (b : blocker) : K kstate Z :=
  x ← current_process;
  _ ← ASSERT (bool_decide (should_unblock x = None));
  s ← get;
  r ← run_blocker (current s) b;
  if r : bool then mret 0 else _ ← block_current b; out_of_fuel.
(** What a blocked call returns once its process runs again. *)
Definition block_result (x : process) : Z :=
  if blocker_was_interrupted x then ERR EINTR else 0.
