(* ===== verification/Fifo.v ===== *)
(** * Fifos and the null, zero, full and random devices (kernel/fs/fifo.c,
    kernel/pseudo_device.c, kernel/random.c) *)
From stdpp Require Import fin_maps.
From S2P Require Import Prelude Errno RingBuf Kernel Process Scheduler.

(** ** Fifos *)

Definition set_fifo (i : nat) (buf : ring_buf) (r w : Z) : K kstate unit :=
  nd ← node i; set_node i (set_data (FifoData buf r w) nd).

Definition fifo_open (d : nat) (flags : Z) : K kstate Z :=
  if has_flag flags O_RDONLY && has_flag flags O_WRONLY then mret (ERR EINVAL)
  else
    x ← desc d;
    '(buf, r, w) ← fifo_of d;
    _ ← set_fifo (d_inode x) buf
          (if has_flag flags O_RDONLY then u32 (r + 1) else r)
          (if has_flag flags O_WRONLY then u32 (w + 1) else w);
    mret 0.

Definition fifo_close (d : nat) : K kstate Z :=
  x ← desc d;
  let flags := d_flags x in
  _ ← ASSERT (negb (has_flag flags O_RDONLY && has_flag flags O_WRONLY));
  '(buf, r, w) ← fifo_of d;
  _ ← set_fifo (d_inode x) buf
        (if has_flag flags O_RDONLY then u32 (r - 1) else r)
        (if has_flag flags O_WRONLY then u32 (w - 1) else w);
  mret 0.

(** A computation on the ring of the fifo. *)
Definition with_ring {A} (d : nat) (m : K ring_buf A) : K kstate A :=
  x ← desc d;
  '(buf, r, w) ← fifo_of d;
  nd ← node (d_inode x);
  zoom (λ _, buf) (λ buf, with_inodes <[d_inode x := set_data (FifoData buf r w) nd]>) m.

Definition file_description_block (d : nat) (b : blocker) : K kstate Z :=
  x ← desc d;
  again ← (if has_flag (d_flags x) O_NONBLOCK then
             s ← get; r ← run_blocker (current s) b; mret (negb r)
           else mret false);
  if again : bool then mret (ERR EAGAIN) else scheduler_block b.

(** One round of the loop of each; that the fifo is still empty (or full) and
    the other end still open sends the process round again. *)
Fixpoint fifo_read (fuel : nat) (d : nat) (count : Z) : K kstate (Z * list Z) :=
  match fuel with
  | O => out_of_fuel
  | S fuel =>
      rc ← file_description_block d (FifoReadable d);
      if IS_ERR rc then mret (rc, [])
      else
        x ← desc d;
        let lock := RingLock (d_inode x) in
        _ ← lock_mutex lock;
        '(buf, _, num_writers) ← fifo_of d;
        if negb (ring_buf_is_empty buf) then
          bytes ← with_ring d (ring_buf_read (Z.to_nat count));
          _ ← unlock_mutex lock;
          mret (Z.of_nat (length bytes), bytes)
        else
          _ ← unlock_mutex lock;
          if num_writers =? 0 then mret (0, []) else fifo_read fuel d count
  end.

Fixpoint fifo_write (fuel : nat) (d : nat) (bytes : list Z) : K kstate Z :=
  match fuel with
  | O => out_of_fuel
  | S fuel =>
      rc ← file_description_block d (FifoWritable d);
      if IS_ERR rc then mret rc
      else
        x ← desc d;
        let lock := RingLock (d_inode x) in
        _ ← lock_mutex lock;
        '(buf, num_readers, _) ← fifo_of d;
        if num_readers =? 0 then
          _ ← unlock_mutex lock;
          p ← current_process;
          rc ← process_send_signal_to_one (pid p) SIGPIPE;
          if IS_ERR rc then mret rc else mret (ERR EPIPE)
        else if ring_buf_is_full buf then _ ← unlock_mutex lock; fifo_write fuel d bytes
        else
          n ← with_ring d (ring_buf_write bytes);
          _ ← unlock_mutex lock;
          mret (Z.of_nat n)
  end.

Definition fifo_create : K kstate (ptr_res nat) :=
  ok ← kmalloc_ok;
  if negb ok then mret (ERR_PTR (ERR ENOMEM))
  else
    ok ← kmalloc_ok;
    match ring_buf_init ok with
    | (_, Some buf) =>
        s ← get;
        let fifo := fresh_node s in
        _ ← set_node fifo (Inode None fifo_fops 0 None 0 1 S_IFIFO (FifoData buf 0 0));
        mret (PTR fifo)
    | (rc, None) => mret (ERR_PTR rc)
    end.

(** ** Devices *)

Definition makedev (major minor : Z) : Z :=
  Z.lor (Z.lor (Z.land minor 0xff) (u32 (Z.shiftl major 8)))
        (u32 (Z.shiftl (Z.land minor (u32 (Z.lnot 0xff))) 12)).
Definition device_create (f : file_ops) (id : Z) : K kstate (ptr_res nat) :=
  ok ← kmalloc_ok;
  if negb ok then mret (ERR_PTR (ERR ENOMEM))
  else
    s ← get;
    let i := fresh_node s in
    _ ← set_node i (Inode None f id None 0 1 S_IFCHR NoData);
    mret (PTR i).
Definition null_device_create : K kstate (ptr_res nat) := device_create null_fops (makedev 1 3).
Definition zero_device_create : K kstate (ptr_res nat) := device_create zero_fops (makedev 1 5).
Definition full_device_create : K kstate (ptr_res nat) := device_create full_fops (makedev 1 7).
Definition random_device_create : K kstate (ptr_res nat) :=
  device_create random_fops (makedev 1 9).

(** Result and bytes stored. *)
Definition read_nothing : K kstate (Z * list Z) := mret (0, []).
Definition read_zeros (count : Z) : K kstate (Z * list Z) :=
  mret (s32 count, replicate (Z.to_nat count) 0).
Definition write_to_bit_bucket (bytes : list Z) : K kstate Z :=
  mret (s32 (Z.of_nat (length bytes))).
Definition write_to_full_disk (bytes : list Z) : K kstate Z :=
  mret (if 0 <? Z.of_nat (length bytes) then ERR ENOSPC else 0).

(** The generator; [rand_state] is an [int]. *)
Definition rand : K kstate Z :=
  s ← get;
  let x := Z.land (u32 (u32 (rand_state s) * 1103515245 + 12345)) 0x7fffffff in
  _ ← put (with_rand x s); mret x.
Definition urand : K kstate Z :=
  s ← get;
  let x := u32 (u32 (rand_state s) * 1103515245 + 12345) in
  _ ← put (with_rand (s32 x) s); mret x.
Definition srand (seed : Z) : K kstate unit :=
  modify (with_rand (if seed =? 0 then 1 else s32 seed)).
Definition word_of (x : Z) : list Z :=
  [u8 x; u8 (Z.shiftr x 8); u8 (Z.shiftr x 16); u8 (Z.shiftr x 24)].
Fixpoint read_words (n : nat) : K kstate (list Z) :=
  match n with
  | O => mret []
  | S n => x ← urand; rest ← read_words n; mret (word_of x ++ rest)
  end.
(** Whole words only are stored. *)
Definition read_random (count : Z) : K kstate (Z * list Z) :=
  bytes ← read_words (Z.to_nat (count / 4)); mret (s32 count, bytes).

(** ** Facts *)

(** A fifo with [refs] references. *)
Definition fifo_inode (refs : Z) (buf : ring_buf) (r w : Z) : inode :=
  Inode None fifo_fops 0 None 0 refs S_IFIFO (FifoData buf r w).
Definition new_ring : ring_buf := RingBuf (replicate BUF_CAPACITY 0) 0 0.

Lemma kmalloc_run s : grants s = [] → kmalloc_ok s = Done true s.
Proof. unfold kmalloc_ok. by intros ->. Qed.
Lemma fifo_create_run s :
  grants s = [] →
  fifo_create s = Done (PTR (fresh_node s))
                    (with_inodes <[fresh_node s := fifo_inode 1 new_ring 0 0]> s).
Proof.
  intros Hg. unfold fifo_create. rewrite (bind_run _ _ _ _ _ (kmalloc_run s Hg)). cbn [negb].
  by rewrite (bind_run _ _ _ _ _ (kmalloc_run s Hg)).
Qed.
(** Description [d] of a fifo. *)
Definition fifo_at (s : kstate) (d : nat) (x : file_description) (nd : inode)
    (buf : ring_buf) (r w : Z) : Prop :=
  descs s !! d = Some x ∧ inodes s !! d_inode x = Some nd ∧ data nd = FifoData buf r w.
Lemma fifo_of_run s d x nd buf r w :
  fifo_at s d x nd buf r w → fifo_of d s = Done (buf, r, w) s.
Proof.
  intros (Hx & Hnd & Hd). unfold fifo_of, desc, node, mbind, K_bind, get, access.
  rewrite Hx. cbn. rewrite Hnd. cbn. by rewrite Hd.
Qed.
Lemma wp_with_ring {A} s d x nd buf r w (m : K ring_buf A) (Q : A → kstate → Prop) :
  fifo_at s d x nd buf r w →
  wp m (λ a b, Q a (with_inodes <[d_inode x := set_data (FifoData b r w) nd]> s)) buf →
  wp (with_ring d m) Q s.
Proof.
  intros Hf Hm. pose proof Hf as (Hx & Hnd & Hd). unfold with_ring. wp_keep.
  unfold desc. wp_keep. eapply wp_access; [done|]. wp_keep.
  eapply wp_run; [by eapply fifo_of_run|]. cbv beta iota. wp_keep.
  unfold node. wp_keep. eapply wp_access; [done|]. apply wp_zoom. exact Hm.
Qed.
(** Waiting for a condition that holds. *)
Lemma block_run s p d x b :
  descs s !! d = Some x → procs s !! current s = Some p → should_unblock p = None →
  run_blocker (current s) b s = Done true s →
  file_description_block d b s = Done 0 s.
Proof.
  intros Hx Hp Hu Hr. unfold file_description_block, scheduler_block.
  unfold desc, current_process, proc, mbind, K_bind, get, access. rewrite Hx. cbn.
  destruct (has_flag (d_flags x) O_NONBLOCK); cbn.
  all: rewrite ?Hr; cbn; rewrite Hp; cbn; rewrite bool_decide_eq_true_2 by done; cbn;
    unfold mbind, K_bind; by rewrite Hr.
Qed.

(** [s] with the bytes of the fifo changed. *)
Definition with_bytes (i : nat) (nd : inode) (buf : ring_buf) (r w : Z) : kstate → kstate :=
  with_inodes <[i := set_data (FifoData buf r w) nd]>.

(** The critical section of a transfer. *)
Lemma ring_section {A B} s d x nd buf r w (m : K ring_buf A) (f : A → B) (Q : B → kstate → Prop) :
  fifo_at s d x nd buf r w → locks s !! RingLock (d_inode x) = None →
  wp m (λ a b, Q (f a) (with_bytes (d_inode x) nd b r w s)) buf →
  wp (a ← with_ring d m; _ ← unlock_mutex (RingLock (d_inode x)); mret (f a)) Q
     (with_locks (<[RingLock (d_inode x) := held_mutex s]> (locks s)) s).
Proof.
  intros Hf Hl Hm. wp_keep. eapply wp_with_ring; [exact Hf|].
  eapply wp_mono; [exact Hm|]. intros a b HQ. wp_keep.
  apply wp_unlock_mutex; [apply lookup_insert_eq|]. wp_keep. cbn [with_inodes with_locks locks].
  rewrite delete_insert_id by done. unfold with_bytes in HQ.
  replace (with_locks _ _) with (with_inodes <[d_inode x := set_data (FifoData b r w) nd]> s);
    [done|by destruct s].
Qed.

Lemma fifo_write_wp fuel s p d x nd buf r w bytes :
  fifo_at s d x nd buf r w → locks s !! RingLock (d_inode x) = None →
  procs s !! current s = Some p → should_unblock p = None →
  wf buf → r ≠ 0 → ring_buf_is_full buf = false →
  wp (fifo_write (S fuel) d bytes) (λ n s', ∃ k buf',
    k = (length bytes `min` room buf)%nat ∧ n = Z.of_nat k ∧ wf buf' ∧
    contents buf' = contents buf ++ take k bytes ∧ s' = with_bytes (d_inode x) nd buf' r w s) s.
Proof.
  intros Hf Hl Hp Hu Hwf Hr Hfull. pose proof Hf as (Hx & _). cbn [fifo_write]. wp_keep.
  eapply wp_run.
  { eapply block_run; [done|done|done|]. cbn [run_blocker]. unfold write_should_unblock.
    rewrite (bind_run _ _ _ _ _ (fifo_of_run s d x nd buf r w Hf)). rewrite Hfull.
    by rewrite orb_true_r. }
  change (IS_ERR 0) with false. cbv iota. wp_keep. unfold desc. wp_keep.
  eapply wp_access; [done|]. wp_keep. apply wp_lock_mutex; [done|]. wp_keep.
  eapply wp_run; [by eapply (fifo_of_run (with_locks _ s))|]. cbv beta iota.
  rewrite (proj2 (Z.eqb_neq r 0)), Hfull by done.
  eapply (ring_section s d x nd buf r w _ Z.of_nat); [done|done|].
  eapply wp_mono; [by apply ring_buf_write_wp|]. intros k b (-> & Hc & Hb).
  by exists (length bytes `min` RingBuf.room buf)%nat, b.
Qed.
Lemma fifo_read_wp fuel s p d x nd buf r w count :
  fifo_at s d x nd buf r w → locks s !! RingLock (d_inode x) = None →
  procs s !! current s = Some p → should_unblock p = None →
  wf buf → contents buf ≠ [] → 0 < count →
  wp (fifo_read (S fuel) d count) (λ '(n, out) s', ∃ buf',
    out = take (Z.to_nat count) (contents buf) ∧ n = Z.of_nat (length out) ∧ wf buf' ∧
    contents buf' = drop (Z.to_nat count) (contents buf) ∧
    s' = with_bytes (d_inode x) nd buf' r w s) s.
Proof.
  intros Hf Hl Hp Hu Hwf Hne Hcount. pose proof Hf as (Hx & _). cbn [fifo_read]. wp_keep.
  assert (ring_buf_is_empty buf = false) as Hemp.
  { destruct (ring_buf_is_empty buf) eqn:E; [|done]. by apply is_empty_spec in E. }
  eapply wp_run.
  { eapply block_run; [done|done|done|]. cbn [run_blocker]. unfold read_should_unblock.
    rewrite (bind_run _ _ _ _ _ (fifo_of_run s d x nd buf r w Hf)). rewrite Hemp.
    by rewrite orb_true_r. }
  change (IS_ERR 0) with false. cbv iota. wp_keep. unfold desc. wp_keep.
  eapply wp_access; [done|]. wp_keep. apply wp_lock_mutex; [done|]. wp_keep.
  eapply wp_run; [by eapply (fifo_of_run (with_locks _ s))|]. cbv beta iota.
  rewrite Hemp. cbn [negb].
  eapply (ring_section s d x nd buf r w _ (λ bytes, (Z.of_nat (length bytes), bytes))); [done|done|].
  eapply wp_mono; [by apply ring_buf_read_wp; [..|lia]|]. intros out b (-> & Hc & Hb).
  by exists b.
Qed.
