(* ===== verification/Socket.v ===== *)
(** * Local sockets (kernel/unix_socket.c)

    A socket is an inode with a ring of bytes for each direction. Clients wait in
    the pending queue of a listener until they are accepted; the queue is linked
    through the sockets themselves. The end of a connection a description stands
    for is told by [connector_fd]. *)
From stdpp Require Import fin_maps.
From S2P Require Import Prelude Errno RingBuf Kernel Inode Path Process Scheduler Fifo.

(** ** Field updates *)
Definition set_backlog (n : Z) (x : unix_socket) : unix_socket :=
  UnixSocket n (num_pending x) (next x) (connected x) (connector_fd x)
    (server_to_client_buf x) (client_to_server_buf x).
Definition set_num_pending (n : Z) (x : unix_socket) : unix_socket :=
  UnixSocket (backlog x) n (next x) (connected x) (connector_fd x)
    (server_to_client_buf x) (client_to_server_buf x).
Definition set_next (n : option nat) (x : unix_socket) : unix_socket :=
  UnixSocket (backlog x) (num_pending x) n (connected x) (connector_fd x)
    (server_to_client_buf x) (client_to_server_buf x).
Definition set_connected (b : bool) (x : unix_socket) : unix_socket :=
  UnixSocket (backlog x) (num_pending x) (next x) b (connector_fd x)
    (server_to_client_buf x) (client_to_server_buf x).
Definition set_connector_fd (d : option nat) (x : unix_socket) : unix_socket :=
  UnixSocket (backlog x) (num_pending x) (next x) (connected x) d
    (server_to_client_buf x) (client_to_server_buf x).
(** The ring towards the client, or towards the server. *)
Definition ring (to_client : bool) (x : unix_socket) : ring_buf :=
  if to_client then server_to_client_buf x else client_to_server_buf x.
Definition set_ring (to_client : bool) (buf : ring_buf) (x : unix_socket) : unix_socket :=
  UnixSocket (backlog x) (num_pending x) (next x) (connected x) (connector_fd x)
    (if to_client then buf else server_to_client_buf x)
    (if to_client then client_to_server_buf x else buf).
Definition update_socket (i : nat) (f : unix_socket → unix_socket) : K kstate unit :=
  nd ← node i;
  match data nd with
  | SocketData x => set_node i (set_data (SocketData (f x)) nd)
  | _ => undef
  end.

(** ** Transfers *)

(** A computation on a ring of socket [i]. *)
Definition with_socket_ring {A} (i : nat) (to_client : bool) (m : K ring_buf A) : K kstate A :=
  nd ← node i;
  match data nd with
  | SocketData x =>
      zoom (λ _, ring to_client x)
           (λ buf, with_inodes <[i := set_data (SocketData (set_ring to_client buf x)) nd]>) m
  | _ => undef
  end.

(** The ring is chosen once, before the loop. *)
Fixpoint read_loop (fuel : nat) (d i : nat) (to_client : bool) (count : Z)
    : K kstate (Z * list Z) :=
  match fuel with
  | O => out_of_fuel
  | S fuel =>
      rc ← file_description_block d (SocketReadable d);
      if IS_ERR rc then mret (rc, [])
      else
        _ ← lock_mutex (SocketBufLock i to_client);
        x ← socket i;
        if ring_buf_is_empty (ring to_client x) then
          _ ← unlock_mutex (SocketBufLock i to_client); read_loop fuel d i to_client count
        else
          bytes ← with_socket_ring i to_client (ring_buf_read (Z.to_nat count));
          _ ← unlock_mutex (SocketBufLock i to_client);
          mret (Z.of_nat (length bytes), bytes)
  end.
Definition unix_socket_read (fuel : nat) (d : nat) (count : Z) : K kstate (Z * list Z) :=
  y ← desc d;
  x ← socket_of d;
  read_loop fuel d (d_inode y) (is_client x d) count.

Fixpoint write_loop (fuel : nat) (d i : nat) (to_client : bool) (bytes : list Z) : K kstate Z :=
  match fuel with
  | O => out_of_fuel
  | S fuel =>
      rc ← file_description_block d (SocketWritable d);
      if IS_ERR rc then mret rc
      else
        _ ← lock_mutex (SocketBufLock i to_client);
        x ← socket i;
        if ring_buf_is_full (ring to_client x) then
          _ ← unlock_mutex (SocketBufLock i to_client); write_loop fuel d i to_client bytes
        else
          n ← with_socket_ring i to_client (ring_buf_write bytes);
          _ ← unlock_mutex (SocketBufLock i to_client);
          mret (Z.of_nat n)
  end.
Definition unix_socket_write (fuel : nat) (d : nat) (bytes : list Z) : K kstate Z :=
  y ← desc d;
  x ← socket_of d;
  write_loop fuel d (d_inode y) (negb (is_client x d)) bytes.

(** ** Connections *)

Definition unix_socket_create : K kstate (ptr_res nat) :=
  ok ← kmalloc_ok;
  if negb ok then mret (ERR_PTR (ERR ENOMEM))
  else
    ok ← kmalloc_ok;
    match ring_buf_init ok with
    | (rc, None) => mret (ERR_PTR rc)
    | (_, Some to_server) =>
        ok ← kmalloc_ok;
        match ring_buf_init ok with
        | (rc, None) => mret (ERR_PTR rc)
        | (_, Some to_client) =>
            s ← get;
            let i := fresh_node s in
            _ ← set_node i (Inode None socket_fops 0 None 0 1 S_IFSOCK
                  (SocketData (UnixSocket 0 0 None false None to_client to_server)));
            mret (PTR i)
        end
    end.

Definition unix_socket_set_backlog (i : nat) (n : Z) : K kstate unit :=
  update_socket i (set_backlog n).

(** The socket at the end of the list that starts with [it]. *)
Fixpoint last_pending (fuel : nat) (it : nat) : K kstate nat :=
  match fuel with
  | O => out_of_fuel
  | S fuel =>
      x ← socket it;
      match next x with Some it => last_pending fuel it | None => mret it end
  end.
Definition enqueue_pending (fuel : nat) (listener connector : nat) : K kstate unit :=
  _ ← update_socket connector (set_next None);
  _ ← lock_mutex (PendingQueueLock listener);
  x ← socket listener;
  _ ← (match next x with
       | Some it => it ← last_pending fuel it; update_socket it (set_next (Some connector))
       | None => update_socket listener (set_next (Some connector))
       end);
  _ ← unlock_mutex (PendingQueueLock listener);
  x ← socket listener;
  update_socket listener (set_num_pending (u32 (num_pending x + 1))).
Definition deque_pending (listener : nat) : K kstate nat :=
  _ ← lock_mutex (PendingQueueLock listener);
  x ← socket listener;
  match next x with
  | None => undef (* [connector->next] of a null pointer *)
  | Some connector =>
      c ← socket connector;
      _ ← update_socket listener (set_next (next c));
      _ ← unlock_mutex (PendingQueueLock listener);
      x ← socket listener;
      _ ← update_socket listener (set_num_pending (u32 (num_pending x - 1)));
      mret connector
  end.

Definition unix_socket_accept (listener : nat) : K kstate (ptr_res nat) :=
  rc ← scheduler_block (SocketPending listener);
  if IS_ERR rc then mret (ERR_PTR rc)
  else
    connector ← deque_pending listener;
    c ← socket connector;
    _ ← ASSERT (negb (connected c));
    _ ← update_socket connector (set_connected true);
    mret (PTR connector).

(** What happens before the client waits to be accepted; [None] when it waits.
    The backlog is compared as a [size_t]. *)
Definition connect_enqueue (fuel : nat) (d listener : nat) : K kstate (option Z) :=
  y ← desc d;
  _ ← update_socket (d_inode y) (set_connector_fd (Some d));
  x ← socket listener;
  if u32 (backlog x) <=? num_pending x then mret (Some (ERR ECONNREFUSED))
  else _ ← enqueue_pending fuel listener (d_inode y); mret None.
Definition unix_socket_connect (fuel : nat) (d listener : nat) : K kstate Z :=
  refused ← connect_enqueue fuel d listener;
  match refused with
  | Some rc => mret rc
  | None => y ← desc d; scheduler_block (SocketConnected (d_inode y))
  end.

(** ** Facts *)

(** Inode [i] is the socket [x]. *)
Definition is_socket (s : kstate) (i : nat) (x : unix_socket) : Prop :=
  ∃ nd, inodes s !! i = Some nd ∧ data nd = SocketData x.
Definition put_socket (i : nat) (x : unix_socket) : kstate → kstate :=
  with_inodes (alter (set_data (SocketData x)) i).

Lemma is_socket_fun s i x y : is_socket s i x → is_socket s i y → x = y.
Proof. intros (nd & Hnd & Hd) (nd' & Hnd' & Hd'). congruence. Qed.
Lemma is_socket_put s i x y : is_socket s i x → is_socket (put_socket i y s) i y.
Proof.
  intros (nd & Hnd & _). exists (set_data (SocketData y) nd). split; [|done].
  unfold put_socket. cbn [with_inodes inodes]. by rewrite lookup_alter_eq, Hnd.
Qed.
Lemma is_socket_put_ne s i j y z : i ≠ j → is_socket (put_socket i y s) j z ↔ is_socket s j z.
Proof. intros Hij. unfold is_socket, put_socket. cbn [with_inodes inodes]. by rewrite lookup_alter_ne. Qed.
Lemma put_socket_twice i x y s : put_socket i x (put_socket i y s) = put_socket i x s.
Proof.
  unfold put_socket, with_inodes. cbn. f_equal. apply map_eq. intros j.
  destruct (decide (i = j)) as [->|]; [|by rewrite !lookup_alter_ne].
  rewrite !lookup_alter_eq. by destruct (inodes s !! j).
Qed.
Lemma put_socket_same s i x : is_socket s i x → put_socket i x s = s.
Proof.
  intros (nd & Hnd & Hd). apply with_inodes_id, alter_id. intros nd' Hnd'.
  rewrite Hnd in Hnd'. injection Hnd' as <-. rewrite <-Hd. by destruct nd.
Qed.
Lemma socket_run s i x : is_socket s i x → socket i s = Done x s.
Proof.
  intros (nd & Hnd & Hd). unfold socket. rewrite (bind_run _ _ _ _ _ (node_run _ _ _ Hnd)).
  by rewrite Hd.
Qed.
Lemma put_socket_insert i x nd s :
  inodes s !! i = Some nd →
  put_socket i x s = with_inodes <[i := set_data (SocketData x) nd]> s.
Proof.
  intros Hnd. unfold put_socket, with_inodes. f_equal.
  apply map_eq. intros j. destruct (decide (i = j)) as [->|].
  - by rewrite lookup_insert_eq, lookup_alter_eq, Hnd.
  - by rewrite lookup_insert_ne, lookup_alter_ne.
Qed.
Lemma update_socket_run s i x f :
  is_socket s i x → update_socket i f s = Done tt (put_socket i (f x) s).
Proof.
  intros (nd & Hnd & Hd). unfold update_socket. rewrite (bind_run _ _ _ _ _ (node_run _ _ _ Hnd)), Hd.
  by rewrite (put_socket_insert _ _ nd).
Qed.
Lemma wp_socket s i x (Q : unix_socket → kstate → Prop) :
  is_socket s i x → Q x s → wp (socket i) Q s.
Proof. intros Hx. by apply wp_run, socket_run. Qed.
Lemma wp_update_socket s i x f (Q : unit → kstate → Prop) :
  is_socket s i x → Q tt (put_socket i (f x) s) → wp (update_socket i f) Q s.
Proof. intros Hx. by apply wp_run, update_socket_run. Qed.

(** Description [d] of socket [i]. *)
Definition socket_at (s : kstate) (d i : nat) (x : unix_socket) : Prop :=
  (∃ y, descs s !! d = Some y ∧ d_inode y = i) ∧ is_socket s i x.
Lemma socket_of_run s d i x : socket_at s d i x → socket_of d s = Done x s.
Proof.
  intros ((y & Hy & <-) & Hx). unfold socket_of, desc, mbind, K_bind, get, access. rewrite Hy.
  by apply socket_run.
Qed.
Lemma with_socket_ring_run {A} s i x c (m : K ring_buf A) a b :
  is_socket s i x → m (ring c x) = Done a b →
  with_socket_ring i c m s = Done a (put_socket i (set_ring c b x) s).
Proof.
  intros Hx Hm. pose proof Hx as (nd & Hnd & Hd). unfold with_socket_ring.
  rewrite (bind_run _ _ _ _ _ (node_run _ _ _ Hnd)), Hd. unfold zoom. rewrite Hm.
  by rewrite (put_socket_insert _ _ nd).
Qed.
(** The critical section of a transfer. *)
Lemma socket_section {A B} s i x c (m : K ring_buf A) (f : A → B) (Q : B → kstate → Prop) :
  is_socket s i x → locks s !! SocketBufLock i c = None →
  wp m (λ a b, Q (f a) (put_socket i (set_ring c b x) s)) (ring c x) →
  wp (a ← with_socket_ring i c m; _ ← unlock_mutex (SocketBufLock i c); mret (f a)) Q
     (with_locks (<[SocketBufLock i c := held_mutex s]> (locks s)) s).
Proof.
  intros Hx Hl (a & b & Hm & HQ)%wp_done. set (s1 := with_locks _ s).
  assert (is_socket s1 i x) as Hx1 by exact Hx. wp_keep.
  eapply wp_run; [by apply (with_socket_ring_run s1 i x c m a b)|]. wp_keep.
  apply wp_unlock_mutex; [apply lookup_insert_eq|]. wp_keep.
  unfold s1. cbn [put_socket with_inodes with_locks locks]. rewrite delete_insert_id by done.
  exact HQ.
Qed.
(** Waiting for a condition that holds. *)
Lemma scheduler_block_run s p b :
  procs s !! current s = Some p → should_unblock p = None →
  run_blocker (current s) b s = Done true s → scheduler_block b s = Done 0 s.
Proof.
  intros Hp Hu Hr. unfold scheduler_block.
  rewrite (bind_run _ _ _ _ _ (current_process_run p s Hp)). rewrite bool_decide_eq_true_2 by done.
  rewrite (bind_run (ASSERT true) _ s tt s eq_refl). unfold mbind at 1, K_bind at 1, get.
  by rewrite (bind_run _ _ _ _ _ Hr).
Qed.

Lemma unix_socket_write_wp fuel s p d y i x bytes :
  descs s !! d = Some y → d_inode y = i → is_socket s i x →
  let c := negb (is_client x d) in
  locks s !! SocketBufLock i c = None → procs s !! current s = Some p → should_unblock p = None →
  wf (ring c x) → ring_buf_is_full (ring c x) = false →
  wp (unix_socket_write (S fuel) d bytes) (λ n s', ∃ k b,
    k = (length bytes `min` RingBuf.room (ring c x))%nat ∧ n = Z.of_nat k ∧ wf b ∧
    contents b = contents (ring c x) ++ take k bytes ∧ s' = put_socket i (set_ring c b x) s) s.
Proof.
  intros Hy Hi Hx c Hl Hp Hu Hwf Hfull. assert (socket_at s d i x) as Hat by (split; eauto).
  unfold unix_socket_write. wp_keep. unfold desc. wp_keep. eapply wp_access; [done|]. wp_keep.
  eapply wp_run; [by apply (socket_of_run s d i x)|]. cbn [write_loop]. wp_keep. rewrite Hi. fold c.
  eapply wp_run.
  { eapply block_run; [done|done|done|]. cbn [run_blocker]. unfold socket_write_should_unblock.
    rewrite (bind_run _ _ _ _ _ (socket_of_run s d i x Hat)). unfold get_buf_to_write.
    unfold ring, c in Hfull. destruct (is_client x d); cbn [negb] in Hfull; by rewrite Hfull. }
  change (IS_ERR 0) with false. cbv iota. wp_keep. apply wp_lock_mutex; [done|]. wp_keep.
  eapply wp_socket; [exact Hx|]. rewrite Hfull.
  eapply (socket_section s i x c _ Z.of_nat); [done|done|].
  eapply wp_mono; [by apply ring_buf_write_wp|]. intros k b (-> & Hc & Hb).
  by exists (length bytes `min` RingBuf.room (ring c x))%nat, b.
Qed.
Lemma unix_socket_read_wp fuel s p d y i x count :
  descs s !! d = Some y → d_inode y = i → is_socket s i x →
  let c := is_client x d in
  locks s !! SocketBufLock i c = None → procs s !! current s = Some p → should_unblock p = None →
  wf (ring c x) → contents (ring c x) ≠ [] → 0 < count →
  wp (unix_socket_read (S fuel) d count) (λ r s', ∃ b,
    let out := take (Z.to_nat count) (contents (ring c x)) in
    r = (Z.of_nat (length out), out) ∧ wf b ∧
    contents b = drop (Z.to_nat count) (contents (ring c x)) ∧
    s' = put_socket i (set_ring c b x) s) s.
Proof.
  intros Hy Hi Hx c Hl Hp Hu Hwf Hne Hcount. assert (socket_at s d i x) as Hat by (split; eauto).
  assert (ring_buf_is_empty (ring c x) = false) as Hemp.
  { destruct (ring_buf_is_empty (ring c x)) eqn:E; [|done]. by apply is_empty_spec in E. }
  unfold unix_socket_read. wp_keep. unfold desc. wp_keep. eapply wp_access; [done|]. wp_keep.
  eapply wp_run; [by apply (socket_of_run s d i x)|]. cbn [read_loop]. wp_keep. rewrite Hi. fold c.
  eapply wp_run.
  { eapply block_run; [done|done|done|]. cbn [run_blocker]. unfold socket_read_should_unblock.
    rewrite (bind_run _ _ _ _ _ (socket_of_run s d i x Hat)). unfold get_buf_to_read.
    unfold ring, c in Hemp. destruct (is_client x d); by rewrite Hemp. }
  change (IS_ERR 0) with false. cbv iota. wp_keep. apply wp_lock_mutex; [done|]. wp_keep.
  eapply wp_socket; [exact Hx|]. rewrite Hemp.
  eapply (socket_section s i x c _ (λ bytes, (Z.of_nat (length bytes), bytes))); [done|done|].
  eapply wp_mono; [by apply ring_buf_read_wp; [..|lia]|]. intros out b (-> & Hc & Hb).
  by exists b.
Qed.

(** ** The pending queue *)

(** From [o] on, the links run through the sockets [l] and end. *)
Fixpoint chain (s : kstate) (o : option nat) (l : list nat) : Prop :=
  match l with
  | [] => o = None
  | c :: l => o = Some c ∧ ∃ x, is_socket s c x ∧ chain s (next x) l
  end.
(** The sockets that wait at listener [i], first come first. *)
Definition waiting (s : kstate) (i : nat) (l : list nat) : Prop :=
  chain s (Some i) (i :: l) ∧ NoDup (i :: l) ∧
  ∃ x, is_socket s i x ∧ num_pending x = Z.of_nat (length l).
(** [s] and [s'] agree up to links and counts of queues. *)
Definition strip (nd : inode) : inode :=
  match data nd with
  | SocketData x => set_data (SocketData (set_next None (set_num_pending 0 x))) nd
  | _ => nd
  end.
Definition links_only (s s' : kstate) : Prop :=
  s' = with_inodes (λ _, inodes s') s ∧ strip <$> inodes s' = strip <$> inodes s.

#[export] Instance links_only_equivalence : Equivalence links_only.
Proof.
  split.
  - intros s. split; [by destruct s|done].
  - intros s s' [H1 H2]. split; [|done]. rewrite H1. by destruct s.
  - intros s s1 s2 [H1 H2] [H3 H4]. split; [|congruence]. rewrite H3, H1. by destruct s.
Qed.
Lemma links_only_put s i x y :
  is_socket s i x → set_next None (set_num_pending 0 y) = set_next None (set_num_pending 0 x) →
  links_only s (put_socket i y s).
Proof.
  intros (nd & Hnd & Hd) Hy. split; [done|]. unfold put_socket. cbn [with_inodes inodes].
  apply map_eq. intros j. rewrite !lookup_fmap. destruct (decide (i = j)) as [<-|].
  - rewrite lookup_alter_eq, Hnd. simpl. f_equal. unfold strip. rewrite Hd. cbn [data set_data].
    rewrite Hy. by destruct nd.
  - by rewrite lookup_alter_ne.
Qed.
Lemma links_only_both s s' i x x' y :
  links_only s s' → is_socket s i x → is_socket s' i x' →
  links_only (put_socket i y s) (put_socket i y s').
Proof.
  intros [H1 H2] (nd & Hnd & Hd) (nd' & Hnd' & Hd'). split.
  { rewrite H1 at 1. by destruct s. }
  unfold put_socket. cbn [with_inodes inodes]. apply map_eq. intros j.
  pose proof (f_equal (lookup j) H2) as Hj. rewrite !lookup_fmap in Hj |- *.
  destruct (decide (i = j)) as [<-|]; [|by rewrite !lookup_alter_ne].
  rewrite !lookup_alter_eq, Hnd, Hnd' in *. injection Hj as Hj. simpl. f_equal.
  unfold strip in *. rewrite Hd, Hd' in Hj. destruct nd, nd'. cbn in *. by simplify_eq.
Qed.
Lemma chain_put_ne s i y o l : i ∉ l → chain (put_socket i y s) o l ↔ chain s o l.
Proof.
  revert o. induction l as [|c l IH]; intros o; cbn [chain]; [done|].
  intros [Hc Hl]%not_elem_of_cons. setoid_rewrite IH; [|done].
  by setoid_rewrite is_socket_put_ne; [|done].
Qed.
Lemma waiting_put_ne s i c y l : c ∉ i :: l → waiting s i l → waiting (put_socket c y s) i l.
Proof.
  intros Hc (Hch & Hnd & x & Hx & Hn). split; [by apply chain_put_ne|]. split; [done|].
  exists x. split; [|done]. apply is_socket_put_ne; [|done]. intros ->. apply Hc. by left.
Qed.
Lemma chain_inodes s s' o l : inodes s' = inodes s → chain s o l → chain s' o l.
Proof.
  intros Hs. revert o. induction l as [|c l IH]; intros o; cbn [chain]; [done|].
  intros (-> & x & Hx & Hl). split; [done|]. exists x. split; [|by apply IH].
  unfold is_socket. by rewrite Hs.
Qed.
Lemma chain_in s o l c : chain s o l → c ∈ l → ∃ x, is_socket s c x.
Proof.
  revert o. induction l as [|d l IH]; intros o; [by intros _ ?%elem_of_nil|].
  cbn [chain]. intros (_ & x & Hx & Hl) [->|Hc]%elem_of_cons; [by exists x|]. by eapply IH.
Qed.
Lemma last_pending_run s fuel it l z :
  chain s (Some it) l → (length l ≤ fuel)%nat → last l = Some z →
  last_pending fuel it s = Done z s.
Proof.
  revert fuel it. induction l as [|c l IH]; intros fuel it; cbn [chain]; [done|].
  intros (Hc & x & Hx & Hl) Hf Hz. injection Hc as <-.
  destruct fuel as [|fuel]; [simpl in Hf; lia|]. cbn [last_pending].
  rewrite (bind_run _ _ _ _ _ (socket_run _ _ _ Hx)).
  destruct l as [|c l]; cbn [chain] in Hl.
  - rewrite Hl. by injection Hz as <-.
  - pose proof Hl as [Hn _]. rewrite Hn in *. apply IH; [done|simpl in *; lia|done].
Qed.
(** The link that a new last element needs. *)
Lemma chain_snoc s o l z xz c xc :
  chain s o l → NoDup l → c ∉ l → last l = Some z → is_socket s z xz →
  is_socket s c xc → next xc = None →
  chain (put_socket z (set_next (Some c) xz) s) o (l ++ [c]).
Proof.
  intros Hl Hnd Hc Hz Hxz Hxc Hn. revert o Hl Hz.
  induction l as [|e l IH]; intros o; [done|]. apply NoDup_cons in Hnd as [He Hnd].
  apply not_elem_of_cons in Hc as [Hec Hc]. cbn [chain app]. intros (-> & x & Hx & Hl) Hz.
  split; [done|]. destruct l as [|e' l].
  - injection Hz as ->. exists (set_next (Some c) xz). split; [by eapply is_socket_put|].
    cbn [chain app]. split; [done|]. exists xc. split; [|done]. by apply is_socket_put_ne.
  - exists x. split; [|by apply IH].
    apply is_socket_put_ne; [|done]. intros ->. apply He. by apply last_Some_elem_of.
Qed.
Lemma chain_put_same s i x y o l :
  is_socket s i x → next y = next x → chain s o l → chain (put_socket i y s) o l.
Proof.
  intros Hx Hy. revert o. induction l as [|c l IH]; intros o; cbn [chain]; [done|].
  intros (-> & z & Hz & Hl). split; [done|]. destruct (decide (i = c)) as [->|].
  - exists y. split; [by eapply is_socket_put|]. rewrite Hy.
    rewrite (is_socket_fun _ _ _ _ Hx Hz). by apply IH.
  - exists z. split; [by apply is_socket_put_ne|]. by apply IH.
Qed.

Lemma enqueue_pending_wp fuel s i l c xc :
  waiting s i l → is_socket s c xc → c ∉ i :: l → locks s !! PendingQueueLock i = None →
  (length l ≤ fuel)%nat → Z.of_nat (length l) + 1 < U32 →
  wp (enqueue_pending fuel i c) (λ _ s', waiting s' i (l ++ [c]) ∧ links_only s s') s.
Proof.
  intros (Hch & Hnd & x & Hx & Hnum) Hxc Hc Hlock Hfuel Hlen. unfold enqueue_pending. wp_keep.
  apply (wp_update_socket _ _ _ _ _ Hxc). set (s1 := put_socket c _ s). wp_keep.
  assert (links_only s s1) as L1 by by apply (links_only_put _ _ xc).
  assert (is_socket s1 c (set_next None xc)) as Hxc1 by by eapply is_socket_put.
  assert (c ≠ i) as Hci by by intros ->; apply Hc; left.
  assert (is_socket s1 i x) as Hx1 by by apply is_socket_put_ne.
  assert (chain s1 (Some i) (i :: l)) as Hch1 by by apply chain_put_ne.
  apply wp_lock_mutex; [done|]. wp_keep. apply (wp_socket _ i x); [exact Hx1|].
  set (sl := with_locks _ s1).
  destruct (last_is_Some (i :: l)) as [_ Hl]. destruct Hl as [z Hz]; [done|].
  destruct (chain_in s1 _ _ z Hch1) as [xz Hxz]; [by apply last_Some_elem_of|].
  set (s2 := put_socket z (set_next (Some c) xz) s1).
  assert (links_only s1 s2) as L2 by by apply (links_only_put _ _ xz).
  assert (chain s2 (Some i) (i :: l ++ [c])) as Hch2.
  { apply (chain_snoc s1 _ (i :: l) z xz c (set_next None xc)); done. }
  assert (wp (match next x with
       | Some it => it ← last_pending fuel it; update_socket it (set_next (Some c))
       | None => update_socket i (set_next (Some c)) end)
     (λ _ s', s' = with_locks (locks sl) s2) sl) as Hlink.
  { pose proof Hch1 as (_ & x' & Hx' & Hl). rewrite <-(is_socket_fun _ _ _ _ Hx1 Hx') in Hl.
    destruct l as [|e l]; cbn [chain] in Hl.
    - rewrite Hl. injection Hz as <-. pose proof (is_socket_fun _ _ _ _ Hxz Hx1) as ->.
      by apply (wp_update_socket sl i x).
    - pose proof Hl as [Hn _]. rewrite Hn in *. wp_keep.
      eapply wp_run; [apply (last_pending_run sl fuel e (e :: l) z); [by apply (chain_inodes s1)|done|done]|].
      by apply (wp_update_socket sl z xz). }
  wp_keep. eapply wp_mono; [exact Hlink|]. intros _ s' ->. wp_keep.
  apply wp_unlock_mutex; [apply lookup_insert_eq|]. wp_keep.
  assert (with_locks (delete (PendingQueueLock i) (locks (with_locks (locks sl) s2)))
    (with_locks (locks sl) s2) = s2) as ->.
  { unfold sl. cbn [with_locks locks]. change (locks s1) with (locks s).
    rewrite delete_insert_id by done. by destruct s. }
  destruct (chain_in s2 _ _ i Hch2) as [x2 Hx2]; [by left|].
  assert (num_pending x2 = num_pending x) as Hn2.
  { destruct (decide (z = i)) as [->|].
    - rewrite (is_socket_fun _ _ _ _ Hx2 (is_socket_put _ _ _ _ Hxz)).
      by rewrite (is_socket_fun _ _ _ _ Hxz Hx1).
    - apply is_socket_put_ne in Hx2; [|done]. by rewrite (is_socket_fun _ _ _ _ Hx2 Hx1). }
  apply (wp_socket _ i x2); [done|]. apply (wp_update_socket _ i x2); [done|].
  rewrite Hn2, Hnum, u32_small by lia. split.
  - split; [by apply (chain_put_same _ _ x2)|]. split.
    + apply (NoDup_app (i :: l) [c]). split_and!; [done| |apply NoDup_singleton].
      by intros e He ->%list_elem_of_singleton.
    + eexists. split; [by eapply is_socket_put|]. cbn [set_num_pending num_pending].
      rewrite length_app. simpl. lia.
  - rewrite L1, L2. by apply (links_only_put _ _ x2).
Qed.

Lemma deque_pending_wp s i l c xc :
  waiting s i (c :: l) → is_socket s c xc → locks s !! PendingQueueLock i = None →
  Z.of_nat (length l) + 1 < U32 →
  wp (deque_pending i) (λ r s', r = c ∧ waiting s' i l ∧ links_only s s' ∧ is_socket s' c xc) s.
Proof.
  intros (Hch & Hnd & x & Hx & Hnum) Hxc Hlock Hlen. unfold deque_pending. wp_keep.
  apply wp_lock_mutex; [done|]. wp_keep. set (sl := with_locks _ s).
  apply (wp_socket sl i x); [exact Hx|].
  pose proof Hch as (_ & x' & Hx' & Hn & xc' & Hxc' & Hl).
  pose proof (is_socket_fun _ _ _ _ Hx' Hx) as ->.
  pose proof (is_socket_fun _ _ _ _ Hxc' Hxc) as ->. rewrite Hn. wp_keep.
  apply (wp_socket sl c xc); [exact Hxc|]. wp_keep.
  apply (wp_update_socket sl i x); [exact Hx|]. wp_keep.
  apply wp_unlock_mutex; [apply lookup_insert_eq|]. wp_keep.
  set (s1 := put_socket i (set_next (next xc) x) s).
  assert (∀ y, with_locks (delete (PendingQueueLock i) (locks (put_socket i y sl)))
    (put_socket i y sl) = put_socket i y s) as ->.
  { intros y. unfold sl, put_socket. cbn [with_inodes with_locks locks].
    rewrite delete_insert_id by done. by destruct s. }
  fold s1. assert (is_socket s1 i (set_next (next xc) x)) as Hx1 by by eapply is_socket_put.
  apply (wp_socket s1 i (set_next (next xc) x)); [exact Hx1|]. wp_keep.
  apply (wp_update_socket s1 i (set_next (next xc) x)); [exact Hx1|]. wp_keep.
  apply NoDup_cons in Hnd as [Hi Hnd].
  cbn [set_next num_pending]. rewrite Hnum. cbn [length].
  rewrite u32_small by lia. apply not_elem_of_cons in Hi as Hi'. destruct Hi' as [Hci _].
  split_and!; [done| | |by do 2 (apply is_socket_put_ne; [done|])].
  - split; [|split].
    + eapply chain_put_same; [exact Hx1|done|]. cbn [chain]. split; [done|].
      eexists. split; [exact Hx1|]. cbn [set_next next]. apply chain_put_ne; [|done].
      intros Hin. apply Hi. by right.
    + apply NoDup_cons in Hnd as [_ Hnd]. apply NoDup_cons. split; [|done].
      intros Hin. apply Hi. by right.
    + eexists. split; [by eapply is_socket_put|]. cbn [set_num_pending num_pending]. lia.
  - transitivity s1; [by apply (links_only_put s i x)|].
    by apply (links_only_put s1 i (set_next (next xc) x)).
Qed.

(** ** Properties *)

(** C14: the listener's side of a connection implements a bounded queue. With the
    clients [l] waiting at listener [i] (an abstract list; the code links them
    through their sockets): a client that connects is refused when the backlog is
    used up, and only notes its description; otherwise it becomes the last of the
    queue. An accept waits when the queue is empty; otherwise it answers the
    first client, which is connected then and leaves the queue. Nothing else
    changes but links and counts of the queue. *)
Theorem unix_socket_queue_refines fuel s p i l x d y c xc :
  waiting s i l → is_socket s i x → locks s !! PendingQueueLock i = None →
  (length l ≤ fuel)%nat → Z.of_nat (length l) + 1 < U32 →
  procs s !! current s = Some p → should_unblock p = None →
  (descs s !! d = Some y → d_inode y = c → is_socket s c xc → c ∉ i :: l →
     let s1 := put_socket c (set_connector_fd (Some d) xc) s in
     (u32 (backlog x) ≤ Z.of_nat (length l) →
        unix_socket_connect fuel d i s = Done (ERR ECONNREFUSED) s1) ∧
     (Z.of_nat (length l) < u32 (backlog x) →
        wp (connect_enqueue fuel d i) (λ r s', r = None ∧ waiting s' i (l ++ [c]) ∧
          links_only s1 s') s)) ∧
  (l = [] → run_blocker (current s) (SocketPending i) s = Done false s) ∧
  (∀ l', l = c :: l' → is_socket s c xc → connected xc = false →
     wp (unix_socket_accept i) (λ r s', r = PTR c ∧ waiting s' i l' ∧
       links_only (put_socket c (set_connected true xc) s) s') s).
Proof.
  intros Hw Hx Hlock Hfuel Hlen Hp Hu. pose proof Hw as (Hch & Hnd & x' & Hx' & Hnum).
  pose proof (is_socket_fun _ _ _ _ Hx' Hx) as ->. split_and!.
  - intros Hy Hi Hxc Hc s1.
    assert (waiting s1 i l) as Hw1 by by apply waiting_put_ne.
    assert (is_socket s1 i x) as Hx1.
    { apply is_socket_put_ne; [|done]. intros ->. apply Hc. by left. }
    assert (is_socket s1 c (set_connector_fd (Some d) xc)) as Hxc1 by by eapply is_socket_put.
    assert (wp (connect_enqueue fuel d i) (λ r s',
      (r = Some (ERR ECONNREFUSED) ∧ s' = s1 ∧ u32 (backlog x) ≤ Z.of_nat (length l)) ∨
      (r = None ∧ Z.of_nat (length l) < u32 (backlog x) ∧ waiting s' i (l ++ [c]) ∧
       links_only s1 s')) s) as Hcon.
    { unfold connect_enqueue, desc. wp_keep. eapply wp_access; [done|]. rewrite Hi. wp_keep.
      apply (wp_update_socket s c xc); [done|]. fold s1. wp_keep.
      apply (wp_socket s1 i x); [done|]. rewrite Hnum. apply wp_if; intros; bool_to_prop; wp_keep.
      - by left.
      - eapply wp_mono; [by eapply enqueue_pending_wp|]. intros _ s' [? ?]. wp_keep. by right. }
    apply wp_done in Hcon as (r & s' & Hrun & Hcon). split.
    + intros Hfull. destruct Hcon as [(-> & -> & _)|(_ & ? & _)]; [|lia].
      unfold unix_socket_connect. by rewrite (bind_run _ _ _ _ _ Hrun).
    + intros Hroom. destruct Hcon as [(_ & _ & ?)|(-> & _ & ? & ?)]; [lia|].
      by eapply wp_run.
  - intros ->. cbn [run_blocker]. unfold accept_should_unblock.
    rewrite (bind_run _ _ _ _ _ (socket_run _ _ _ Hx)), Hnum. done.
  - intros l' -> Hxc Hcon. unfold unix_socket_accept. wp_keep. eapply wp_run.
    { apply (scheduler_block_run s p); [done|done|]. cbn [run_blocker]. unfold accept_should_unblock.
      by rewrite (bind_run _ _ _ _ _ (socket_run _ _ _ Hx)), Hnum. }
    change (IS_ERR 0) with false. cbv iota. wp_keep. cbn [length] in Hlen.
    eapply wp_mono; [apply (deque_pending_wp s i l' c xc); [done|done|done|lia]|].
    intros r s' (-> & Hw' & Hs' & Hxc'). wp_keep. apply (wp_socket s' c xc); [done|].
    rewrite Hcon. wp_keep. apply wp_ASSERT; [done|]. wp_keep.
    apply (wp_update_socket s' c xc); [done|]. wp_keep. split_and!; [done| |].
    + apply waiting_put_ne; [|done]. intros Hin.
      pose proof (NoDup_cons_1_1 _ _ (NoDup_cons_1_2 _ _ Hnd)) as Hc.
      apply elem_of_cons in Hin as [->|Hin]; [|done]. apply (NoDup_cons_1_1 _ _ Hnd). by left.
    + by apply (links_only_both s s' c xc xc).
Qed.

(** A client that connects again while it waits (a child of fork shares its
    descriptor) is linked to itself, and the next client to connect walks the
    queue forever with the mutex of the queue held. *)
Lemma unix_socket_connect_twice_hangs fuel fuel' s i c xc c' x' :
  waiting s i [c] → is_socket s c xc → locks s !! PendingQueueLock i = None →
  is_socket s c' x' → c' ∉ [i; c] →
  ∃ s', enqueue_pending (S fuel) i c s = Done tt s' ∧
        enqueue_pending fuel' i c' s' = OutOfFuel.
Proof.
  intros (Hch & Hnd & x & Hx & Hnum) Hxc Hlock Hx' Hc'.
  pose proof Hch as (_ & y & Hy & Hn & z & Hz & Hnz). cbn [chain] in Hnz.
  pose proof (is_socket_fun _ _ _ _ Hy Hx) as ->. pose proof (is_socket_fun _ _ _ _ Hz Hxc) as ->.
  assert (i ≠ c) as Hic by by apply NoDup_cons_1_1 in Hnd; set_solver.
  apply not_elem_of_cons in Hc' as [Hc'i Hc'c]. apply not_elem_of_cons in Hc'c as [Hc'c _].
  (* the client is its own successor *)
  assert (wp (enqueue_pending (S fuel) i c) (λ _ s', (∃ x, is_socket s' i x ∧ next x = Some c) ∧
    (∃ xc, is_socket s' c xc ∧ next xc = Some c) ∧ is_socket s' c' x' ∧
    locks s' !! PendingQueueLock i = None) s) as Hw.
  { unfold enqueue_pending. wp_keep. apply (wp_update_socket _ _ _ _ _ Hxc). wp_keep.
    set (s1 := put_socket c _ s). assert (is_socket s1 c (set_next None xc)) as Hxc1 by by eapply is_socket_put.
    assert (is_socket s1 i x) as Hx1 by by apply is_socket_put_ne.
    apply wp_lock_mutex; [done|]. wp_keep. apply (wp_socket _ i x); [exact Hx1|]. rewrite Hn. wp_keep.
    set (sl := with_locks _ s1). cbn [last_pending]. wp_keep.
    apply (wp_socket sl c (set_next None xc)); [exact Hxc1|]. cbn [set_next next]. wp_keep.
    apply (wp_update_socket sl c (set_next None xc)); [exact Hxc1|]. wp_keep.
    apply wp_unlock_mutex; [apply lookup_insert_eq|]. wp_keep.
    set (s3 := with_locks _ (put_socket c _ sl)).
    assert (is_socket s3 i x) as Hx3 by by apply (is_socket_put_ne sl).
    apply (wp_socket s3 i x); [done|]. apply (wp_update_socket s3 i x); [done|]. split_and!.
    - eexists. split; [by eapply is_socket_put|]. exact Hn.
    - exists (set_next (Some c) (set_next None xc)). split; [|done].
      apply is_socket_put_ne; [done|]. apply (is_socket_put sl c (set_next None xc)). exact Hxc1.
    - apply is_socket_put_ne; [done|]. apply (is_socket_put_ne sl); [done|].
      by apply (is_socket_put_ne s).
    - apply lookup_delete_eq. }
  apply wp_done in Hw as ([] & s' & Hrun & (xi & Hxi & Hni) & (xe & Hxe & Hne) & Hx's & Hl').
  exists s'. split; [exact Hrun|]. unfold enqueue_pending.
  rewrite (bind_run _ _ _ _ _ (update_socket_run _ _ _ _ Hx's)).
  set (s1 := put_socket c' _ s').
  assert (is_socket s1 i xi) as Hxi1 by by apply is_socket_put_ne.
  assert (is_socket s1 c xe) as Hxe1 by by apply is_socket_put_ne.
  assert (lock_mutex (PendingQueueLock i) s1 =
    Done tt (with_locks (<[PendingQueueLock i := held_mutex s1]> (locks s1)) s1)) as Hlk.
  { pose proof (wp_lock_mutex (PendingQueueLock i) s1 (λ _ s2, s2 =
      with_locks (<[PendingQueueLock i := held_mutex s1]> (locks s1)) s1) Hl' eq_refl) as Hw.
    apply wp_done in Hw as ([] & s2 & -> & ->). done. }
  rewrite (bind_run _ _ _ _ _ Hlk). set (sl := with_locks _ s1).
  rewrite (bind_run _ _ sl xi sl) by by apply socket_run. rewrite Hni.
  assert (∀ n, last_pending n c sl = OutOfFuel) as Hloop.
  { induction n as [|n IH]; cbn [last_pending]; [done|].
    rewrite (bind_run _ _ sl xe sl) by by apply socket_run. by rewrite Hne. }
  unfold mbind, K_bind. by rewrite Hloop.
Qed.

(** ** Witnesses *)

(** A listener (0) with room for one client, and two sockets with a description
    each. *)
Definition new_socket (n : Z) : inode :=
  Inode None socket_fops 0 None 0 2 S_IFSOCK
    (SocketData (UnixSocket n 0 None false None new_ring new_ring)).
Definition sample_sockets : kstate :=
  with_inodes (λ _, {[ 0%nat := new_socket 1; 1%nat := new_socket 0; 2%nat := new_socket 0 ]})
    (with_descs (λ _, {[ 0%nat := FileDescription 1 O_RDWR 0 1;
                         1%nat := FileDescription 2 O_RDWR 0 1 ]})
      (one_process (lit "/"))).
Lemma sample_socket i x :
  (i = 0%nat ∧ x = 1) ∨ (i = 1%nat ∨ i = 2%nat) ∧ x = 0 →
  is_socket sample_sockets i (UnixSocket x 0 None false None new_ring new_ring).
Proof.
  intros H. exists (new_socket x). split; [|done].
  by destruct H as [[-> ->]|[[-> | ->] ->]].
Qed.
Lemma sample_waiting : waiting sample_sockets 0 [].
Proof.
  split; [|split].
  - split; [done|]. eexists. split; [apply (sample_socket 0 1); by left|done].
  - apply NoDup_singleton.
  - eexists. split; [apply (sample_socket 0 1); by left|done].
Qed.

Lemma unix_socket_queue_refines_witness :
  run_blocker 0 (SocketPending 0) sample_sockets = Done false sample_sockets ∧
  wp (connect_enqueue 3 0 0) (λ r s', r = None ∧ waiting s' 0 [1%nat] ∧
    links_only (put_socket 1 (set_connector_fd (Some 0%nat)
      (UnixSocket 0 0 None false None new_ring new_ring)) sample_sockets) s') sample_sockets.
Proof.
  pose proof (λ H1 H2 H3 H4 H5, unix_socket_queue_refines 3 sample_sockets (process_at (lit "/")) 0 []
    (UnixSocket 1 0 None false None new_ring new_ring) 0 (FileDescription 1 O_RDWR 0 1) 1
    (UnixSocket 0 0 None false None new_ring new_ring) sample_waiting
    (sample_socket 0 1 (or_introl (conj eq_refl eq_refl))) H1 H2 H3 H4 H5) as H.
  destruct H as (Hcon & Hacc & _);
    [reflexivity|simpl; lia|simpl; unfold U32; lia|apply lookup_singleton_eq|reflexivity|].
  split; [by apply Hacc|]. destruct Hcon as [_ Hcon].
  - reflexivity.
  - reflexivity.
  - apply (sample_socket 1 0). right. auto.
  - apply (bool_decide_unpack _). reflexivity.
  - apply Hcon. vm_compute. reflexivity.
Defined.

Definition sample_queue : kstate :=
  final (connect_enqueue 3 0 0) sample_sockets.
Lemma unix_socket_connect_twice_hangs_witness :
  ∃ s', enqueue_pending 2 0 1 sample_queue = Done tt s' ∧
        enqueue_pending 100 0 2 s' = OutOfFuel.
Proof.
  pose proof (λ x' H1 H2 H3 H4 H5, unix_socket_connect_twice_hangs 1 100 sample_queue 0 1
    (UnixSocket 0 0 None false (Some 0%nat) new_ring new_ring) 2 x' H1 H2 H3 H4 H5) as H.
  apply (H (UnixSocket 0 0 None false None new_ring new_ring)).
  - split; [|split].
    + split; [done|]. eexists. split; [eexists; split; [reflexivity|reflexivity]|].
      split; [done|]. eexists. split; [eexists; split; [reflexivity|reflexivity]|]. done.
    + apply (bool_decide_unpack _). reflexivity.
    + eexists. split; [eexists; split; [reflexivity|reflexivity]|]. done.
  - eexists. split; reflexivity.
  - reflexivity.
  - eexists. split; reflexivity.
  - apply (bool_decide_unpack _). reflexivity.
Defined.
