(* ===== verification/Scheduling.v ===== *)
(** * What the scheduler does (theorems about Scheduler.v)

    The state is [fit] when the objects the scheduler looks at are there. From
    such a state every switch returns, keeps the state fit and treats the ready
    queue as a queue: the process at its head runs, those that woke up stand at
    its end. So every process in the queue gets to run. Who wakes up is the relation
    [wakes], stated on the objects alone: [condition] for pipes and sockets,
    [awaited] for the processes of a waitpid. *)
From stdpp Require Import fin_maps.
From S2P Require Import Prelude Errno RingBuf Kernel Inode Path Tmpfs Process Scheduler Fifo Socket.

(** ** Conditions *)

(** What the objects say: the fifo of a description, the socket of an inode. *)
Definition fifo_at (s : kstate) (d : nat) : option (ring_buf * Z * Z) :=
  x ← descs s !! d; nd ← inodes s !! d_inode x;
  match data nd with FifoData buf readers writers => Some (buf, readers, writers) | _ => None end.
Definition socket_at (s : kstate) (i : nat) : option unix_socket :=
  nd ← inodes s !! i; match data nd with SocketData x => Some x | _ => None end.
Definition has_bytes (buf : ring_buf) : bool := negb (write_idx buf =? read_idx buf)%nat.
Definition has_room (buf : ring_buf) : bool := negb ((write_idx buf + 1) mod BUF_CAPACITY =? read_idx buf)%nat.
(** Whether what a process waits for has happened; a waitpid depends on the
    processes instead. *)
Definition condition (s : kstate) (b : blocker) : option bool :=
  match b with
  | FifoReadable d => '(buf, _, writers) ← fifo_at s d; Some ((writers =? 0) || has_bytes buf)
  | FifoWritable d => '(buf, readers, _) ← fifo_at s d; Some ((readers =? 0) || has_room buf)
  | SocketReadable d =>
      y ← descs s !! d; x ← socket_at s (d_inode y);
      Some (has_bytes (if decide (connector_fd x = Some d) then server_to_client_buf x else client_to_server_buf x))
  | SocketWritable d =>
      y ← descs s !! d; x ← socket_at s (d_inode y);
      Some (has_room (if decide (connector_fd x = Some d) then client_to_server_buf x else server_to_client_buf x))
  | SocketPending l => x ← socket_at s l; Some (0 <? num_pending x)
  | SocketConnected c => x ← socket_at s c; Some (connected x)
  | Waitpid _ _ _ => None
  end.
Definition is_waitpid (b : blocker) : bool :=
  match b with Waitpid _ _ _ => true | _ => false end.

Lemma fifo_at_run s d r : fifo_at s d = Some r → fifo_of d s = Done r s.
Proof.
  unfold fifo_at. intros (x & Hx & (nd & Hnd & H)%bind_Some)%bind_Some. unfold fifo_of.
  rewrite (bind_run _ _ _ _ _ (desc_run _ _ _ Hx)), (bind_run _ _ _ _ _ (node_run _ _ _ Hnd)).
  destruct (data nd); try done. by injection H as <-.
Qed.
Lemma socket_at_run s i x : socket_at s i = Some x → socket i s = Done x s.
Proof.
  unfold socket_at. intros (nd & Hnd & H)%bind_Some. unfold socket.
  rewrite (bind_run _ _ _ _ _ (node_run _ _ _ Hnd)). destruct (data nd); try done. by injection H as <-.
Qed.
Lemma socket_desc_run s d y x :
  descs s !! d = Some y → socket_at s (d_inode y) = Some x → socket_of d s = Done x s.
Proof.
  intros Hy Hx. unfold socket_of. rewrite (bind_run _ _ _ _ _ (desc_run _ _ _ Hy)). by apply socket_at_run.
Qed.
Lemma condition_run s p b r : condition s b = Some r → run_blocker p b s = Done r s.
Proof.
  destruct b; cbn [condition run_blocker]; try done.
  1,2: intros ([[buf readers] writers] & Hf & [= <-])%bind_Some;
    unfold read_should_unblock, write_should_unblock; by rewrite (bind_run _ _ _ _ _ (fifo_at_run _ _ _ Hf)).
  1,2: intros (y & Hy & (x & Hx & [= <-])%bind_Some)%bind_Some;
    unfold socket_read_should_unblock, socket_write_should_unblock;
    rewrite (bind_run _ _ _ _ _ (socket_desc_run _ _ _ _ Hy Hx));
    unfold get_buf_to_read, get_buf_to_write, is_client; case_decide;
    by rewrite ?bool_decide_eq_true_2, ?bool_decide_eq_false_2 by done.
  all: intros (x & Hx & [= <-])%bind_Some; unfold accept_should_unblock, connect_should_unblock;
    by rewrite (bind_run _ _ _ _ _ (socket_at_run _ _ _ Hx)).
Qed.
Lemma condition_same s t b :
  inodes t = inodes s → descs t = descs s → condition t b = condition s b.
Proof. intros Hi Hd. unfold condition, fifo_at, socket_at. by rewrite Hi, Hd. Qed.
Lemma condition_waitpid s b r : condition s b = Some r → is_waitpid b = false.
Proof. by destruct b. Qed.

(** ** Waking processes up *)

Definition dead (s : kstate) (p : nat) : Prop :=
  ∃ x, procs s !! p = Some x ∧ pstate x = PROCESS_STATE_DEAD.
(** [l'] is [l] without some of the dead. *)
Definition reaped (s : kstate) (l l' : list nat) : Prop :=
  l' `sublist_of` l ∧ ∀ p, p ∈ l → p ∈ l' ∨ dead s p.
Definition known (s : kstate) (l : list nat) : Prop := ∀ p, p ∈ l → is_Some (procs s !! p).

(** The processes that waitpid([param_pid]) waits for when a process [current_pid]
    of group [current_pgid] calls it: the group [- param_pid], the children of the
    caller, the group of the caller, or a single process. *)
Definition awaited (param_pid current_pid current_pgid : Z) (y : process) : Prop :=
  param_pid < -1 ∧ pgid y = - param_pid ∨ param_pid = -1 ∧ ppid y = current_pid ∨
  param_pid = 0 ∧ pgid y = current_pgid ∨ 0 < param_pid ∧ pid y = param_pid.
Definition target (s : kstate) (a c g : Z) (p : nat) : Prop :=
  ∃ y, procs s !! p = Some y ∧ awaited a c g y.
Definition dead_target (s : kstate) (a c g : Z) (p : nat) : Prop :=
  ∃ y, procs s !! p = Some y ∧ awaited a c g y ∧ pstate y = PROCESS_STATE_DEAD.
Lemma is_target_awaited a c g y : is_target a c g y = true ↔ awaited a c g y.
Proof.
  unfold is_target, awaited. destruct (Z.ltb_spec a (-1)); [rewrite Z.eqb_eq; lia|].
  destruct (Z.eqb_spec a (-1)); [rewrite Z.eqb_eq; lia|].
  destruct (Z.eqb_spec a 0); rewrite Z.eqb_eq; lia.
Qed.

(** What a blocked process [x] gets when [all] are listed: [None] when it stays
    blocked; otherwise the process that its waitpid found, if it is in one; and the
    list from then on. A signal wakes it up; else what it waits for does. A waitpid
    takes the first dead process of those it waits for off the list; it fails when
    there is none to wait for. *)
Inductive answers (s : kstate) (all : list nat) (x : process) : option (option nat) → list nat → Prop :=
| by_signal : pending_signals x ≠ 0 → answers s all x (Some (waited_process x)) all
| by_event b :
    pending_signals x = 0 → should_unblock x = Some b → condition s b = Some true →
    answers s all x (Some (waited_process x)) all
| no_event b :
    pending_signals x = 0 → should_unblock x = Some b → condition s b = Some false → answers s all x None all
| by_death a c g l1 p l2 :
    pending_signals x = 0 → should_unblock x = Some (Waitpid a c g) → all = l1 ++ p :: l2 →
    dead_target s a c g p → (∀ q, q ∈ l1 → ¬ dead_target s a c g q) →
    answers s all x (Some (Some p)) (l1 ++ l2)
| no_target a c g :
    pending_signals x = 0 → should_unblock x = Some (Waitpid a c g) → (∀ q, q ∈ all → ¬ target s a c g q) →
    answers s all x (Some None) all
| no_death a c g q :
    pending_signals x = 0 → should_unblock x = Some (Waitpid a c g) → q ∈ all → target s a c g q →
    (∀ q, q ∈ all → ¬ dead_target s a c g q) → answers s all x None all.
(** The blocked processes of [l] are asked one after the other: [W] are those that
    wake up, with what their waitpid found. *)
Inductive wakes (s : kstate) : list nat → list nat → list (nat * option nat) → list nat → Prop :=
| wakes_end all : wakes s [] all [] all
| wakes_awake p x l all W all' :
    procs s !! p = Some x → pstate x ≠ PROCESS_STATE_BLOCKED → wakes s l all W all' → wakes s (p :: l) all W all'
| wakes_not p x l all all1 W all' :
    procs s !! p = Some x → pstate x = PROCESS_STATE_BLOCKED → answers s all x None all1 →
    wakes s l all1 W all' → wakes s (p :: l) all W all'
| wakes_up p x w l all all1 W all' :
    procs s !! p = Some x → pstate x = PROCESS_STATE_BLOCKED → answers s all x (Some w) all1 →
    wakes s l all1 W all' → wakes s (p :: l) all ((p, w) :: W) all'.

(** States in which the processes of [l] are asked with the same result. *)
Record alike (l : list nat) (s t : kstate) : Prop := Alike {
  al_inodes : inodes t = inodes s;
  al_descs : descs t = descs s;
  al_target a c g p : target t a c g p ↔ target s a c g p;
  al_dead a c g p : dead_target t a c g p ↔ dead_target s a c g p;
  al_asked p : p ∈ l → procs t !! p = procs s !! p ∨
    ∃ x y, procs s !! p = Some x ∧ procs t !! p = Some y ∧
      pstate x ≠ PROCESS_STATE_BLOCKED ∧ pstate y ≠ PROCESS_STATE_BLOCKED;
}.
Lemma answers_alike l s t all x r all' : alike l s t → answers t all x r all' → answers s all x r all'.
Proof.
  intros [Hi Hd Ht Hdt _] Ha.
  assert (∀ b, condition t b = condition s b) as Hc by by intros; apply condition_same.
  destruct Ha; subst.
  - by apply by_signal.
  - eapply by_event; [done..|]. by rewrite <-Hc.
  - eapply no_event; [done..|]. by rewrite <-Hc.
  - eapply by_death; [done..|by apply Hdt|]. intros q Hq. rewrite <-Hdt. auto.
  - eapply no_target; [done..|]. intros q Hq. rewrite <-Ht. auto.
  - eapply no_death; [done..|by apply Ht|]. intros r Hr. rewrite <-Hdt. auto.
Qed.
Lemma wakes_alike l s t all W all' : alike l s t → wakes t l all W all' → wakes s l all W all'.
Proof.
  intros Hal Hw. induction Hw as [all|p x l all W all' Hx Hb _ IH|p x l all all1 W all' Hx Hb Ha _ IH|
    p x w l all all1 W all' Hx Hb Ha _ IH].
  - constructor.
  - assert (wakes s l all W all') as Hw by (apply IH; destruct Hal as [? ? ? ? H]; split; try done; intros q Hq; apply H; by right).
    destruct (al_asked _ _ _ Hal p) as [E|(y & z & Hy & _ & Hyb & _)]; [by left| |by eapply wakes_awake].
    eapply wakes_awake; [|exact Hb|done]. congruence.
  - assert (wakes s l all1 W all') as Hw by (apply IH; destruct Hal as [? ? ? ? H]; split; try done; intros q Hq; apply H; by right).
    destruct (al_asked _ _ _ Hal p) as [E|(y & z & _ & Hz & _ & Hzb)]; [by left| |congruence].
    eapply wakes_not; [by rewrite <-E|done|by eapply answers_alike|done].
  - assert (wakes s l all1 W all') as Hw by (apply IH; destruct Hal as [? ? ? ? H]; split; try done; intros q Hq; apply H; by right).
    destruct (al_asked _ _ _ Hal p) as [E|(y & z & _ & Hz & _ & Hzb)]; [by left| |congruence].
    eapply wakes_up; [by rewrite <-E|done|by eapply answers_alike|done].
Qed.
Lemma wakes_sublist s l all W all' : wakes s l all W all' → W.*1 `sublist_of` l.
Proof. induction 1; cbn [fmap list_fmap fst]; [done|by apply sublist_cons..|by apply sublist_skip]. Qed.

(** *** The search of waitpid *)
Lemma find_dead_spec a c g prev l any s :
  known s l →
  (∃ any', (∀ q, q ∈ l → ¬ dead_target s a c g q) ∧
     (any' = true ↔ any = true ∨ ∃ q, q ∈ l ∧ target s a c g q) ∧
     find_dead (is_target a c g) prev l any s = Done (None, any') s) ∨
  (∃ any' l1 p l2, l = l1 ++ p :: l2 ∧ dead_target s a c g p ∧ (∀ q, q ∈ l1 → ¬ dead_target s a c g q) ∧
     find_dead (is_target a c g) prev l any s = Done (Some (rev_append l1 prev, p, l2), any') s).
Proof.
  revert prev any. induction l as [|p l IH]; intros prev any Hk; cbn [find_dead].
  { left. exists any. split_and!; [by intros q ?%elem_of_nil| |done]. split; [by left|].
    intros [?|(q & ?%elem_of_nil & _)]; done. }
  destruct (Hk p) as [x Hx]; [by left|]. rewrite (bind_run _ _ _ _ _ (proc_run p x s Hx)). cbv beta zeta.
  destruct (is_target a c g x && bool_decide (pstate x = PROCESS_STATE_DEAD)) eqn:E.
  - right. eexists _, [], p, l. split; [done|]. bool_to_prop. split_and!; [|by intros q ?%elem_of_nil|done].
    exists x. split_and!; [done|by apply is_target_awaited|done].
  - assert (¬ dead_target s a c g p) as Hp.
    { intros (y & Hy & Ha & Hd). rewrite Hx in Hy. injection Hy as <-. apply is_target_awaited in Ha.
      by rewrite Ha, bool_decide_eq_true_2 in E. }
    destruct (IH (p :: prev) (any || is_target a c g x)) as [(any' & Hno & Hany & ->)|(any' & l1 & q & l2 & -> & Hq & Hno & ->)].
    + intros q Hq. apply Hk. by right.
    + left. exists any'. split_and!; [|rewrite Hany|done].
      * intros q [->|Hq]%elem_of_cons; auto.
      * rewrite orb_true_iff, is_target_awaited. split.
        -- intros [[?|Ha]|(q & Hq & Ht)]; [by left|right; exists p; split; [by left|by exists x]|].
           right. exists q. split; [by right|done].
        -- intros [?|(q & [->|Hq]%elem_of_cons & Ht)]; [left; by left| |right; by exists q].
           destruct Ht as (y & Hy & Ha). rewrite Hx in Hy. injection Hy as <-. left. by right.
    + right. exists any', (p :: l1), q, l2. split_and!; [done|done| |done].
      intros r [->|Hr]%elem_of_cons; auto.
Qed.
Lemma dead_target_dead s a c g p : dead_target s a c g p → dead s p.
Proof. intros (y & Hy & _ & Hd). by exists y. Qed.
Lemma reaped_one s l1 p l2 : dead s p → reaped s (l1 ++ p :: l2) (l1 ++ l2).
Proof.
  intros Hp. split; [apply sublist_app; [done|by apply sublist_cons]|].
  intros q. rewrite !elem_of_app, elem_of_cons. intros [?|[->|?]]; auto.
Qed.
Lemma reaped_refl s l : reaped s l l.
Proof. split; auto. Qed.

(** The state in which a process was answered, before it is made ready. *)
Definition answered (s : kstate) (p : nat) (x : process) (w : option nat) (all : list nat) : kstate :=
  with_procs <[p := set_waited w x]> (with_sched all (ready_queue s) (current s) s).
Lemma answered_same s p x : procs s !! p = Some x → answered s p x (waited_process x) (all_processes s) = s.
Proof.
  intros Hx. unfold answered, with_procs. cbn.
  replace (set_waited (waited_process x) x) with x by by destruct x.
  rewrite insert_id by done. by destruct s.
Qed.
Lemma run_blocker_wp s p x b :
  known s (all_processes s) → procs s !! p = Some x → pending_signals x = 0 → should_unblock x = Some b →
  (is_waitpid b = true ∨ is_Some (condition s b)) →
  wp (run_blocker p b) (λ r s', if r : bool then
      ∃ w all, answers s (all_processes s) x (Some w) all ∧ reaped s (all_processes s) all ∧ s' = answered s p x w all
    else s' = s ∧ answers s (all_processes s) x None (all_processes s)) s.
Proof.
  intros Hk Hx Hz Hub Hb. destruct (is_waitpid b) eqn:Hw.
  - destruct b as [| | | | | |a c g]; try discriminate Hw. cbn [run_blocker].
    unfold waitpid_should_unblock. wp_keep.
    destruct (find_dead_spec a c g [] (all_processes s) false s Hk)
      as [(any & Hno & Hany & Hf)|(any & l1 & q & l2 & Hall & Hq & Hno & Hf)].
    + eapply wp_run; [exact Hf|]. cbv beta iota. destruct any; cbn [negb].
      * wp_keep. split; [done|]. destruct (proj1 Hany eq_refl) as [?|(q & Hq & Ht)]; [done|].
        by eapply no_death.
      * wp_keep. eapply wp_run; [by apply update_proc_run|]. wp_keep. exists None, (all_processes s).
        split_and!; [|apply reaped_refl|by destruct s]. eapply no_target; [done..|].
        intros q Hq Ht. assert (false = true) as [=]. apply Hany. right. by exists q.
    + eapply wp_run; [exact Hf|]. cbv beta iota. wp_keep. eapply wp_run; [by apply update_proc_run|].
      wp_keep. exists (Some q), (l1 ++ l2). split_and!.
      * by eapply by_death.
      * rewrite Hall. eapply reaped_one, dead_target_dead, Hq.
      * unfold answered. do 2 f_equal. by rewrite !rev_append_rev, app_nil_r, rev_involutive.
  - destruct Hb as [|[r Hr]]; [done|]. eapply wp_run; [by apply condition_run|]. destruct r.
    + exists (waited_process x), (all_processes s). split_and!; [by eapply by_event|apply reaped_refl|].
      by rewrite answered_same.
    + split; [done|]. by eapply no_event.
Qed.

(** A process that is woken up: it runs, waits for nothing, and knows whether a
    signal interrupted it; the rest of it is as before. *)
Definition awoken (x : process) (w : option nat) : process :=
  Process (pid x) (ppid x) (pgid x) PROCESS_STATE_RUNNING (exit_status x) (comm x) (cwd_path x) (cwd_inode x)
    (fd_table x) None w (negb (pending_signals x =? 0)) (user_ticks x) (kernel_ticks x) (pending_signals x).
Definition blocked (s : kstate) (p : nat) : Prop :=
  ∃ x, procs s !! p = Some x ∧ pstate x = PROCESS_STATE_BLOCKED.
(** The processes [W] were woken up, in this order. *)
Record unblocked (s : kstate) (W : list (nat * option nat)) (s' : kstate) : Prop := Unblocked {
  ub_state : s' = with_procs (λ _, procs s')
    (with_sched (all_processes s') (ready_queue s ++ W.*1) (current s) s);
  ub_all : reaped s (all_processes s) (all_processes s');
  ub_other : ∀ p, p ∉ W.*1 → procs s' !! p = procs s !! p;
  ub_woken : ∀ p w, (p, w) ∈ W → ∃ x, procs s !! p = Some x ∧ pstate x = PROCESS_STATE_BLOCKED ∧
    procs s' !! p = Some (awoken x w);
}.
(** Every blocked process of [l] waits for something that can be asked. *)
Definition waits (s : kstate) (l : list nat) : Prop :=
  ∀ p x, p ∈ l → procs s !! p = Some x → pstate x = PROCESS_STATE_BLOCKED →
    ∃ b, should_unblock x = Some b ∧ (is_waitpid b = true ∨ is_Some (condition s b)).

Lemma unblocked_refl s : unblocked s [] s.
Proof.
  split; [rewrite app_nil_r; by destruct s|apply reaped_refl|done|].
  by intros p w ?%elem_of_nil.
Qed.
Lemma ub_first s W s' p :
  unblocked s W s' → p ∈ W.*1 → ∃ x w, procs s !! p = Some x ∧ pstate x = PROCESS_STATE_BLOCKED ∧
    procs s' !! p = Some (awoken x w).
Proof.
  intros Hu ([q w] & -> & Hp)%list_elem_of_fmap. destruct (ub_woken _ _ _ Hu q w Hp) as (x & ?). by exists x, w.
Qed.
Lemma unblocked_inodes s W s' : unblocked s W s' → inodes s' = inodes s ∧ descs s' = descs s.
Proof. intros [-> _ _ _]. done. Qed.
Lemma unblocked_condition s W s' b : unblocked s W s' → condition s' b = condition s b.
Proof. intros Hu. destruct (unblocked_inodes _ _ _ Hu). by apply condition_same. Qed.
Lemma unblocked_dead s W s' p : unblocked s W s' → dead s' p → dead s p.
Proof.
  intros Hu (x & Hx & Hd). destruct (decide (p ∈ W.*1)) as [Hp|Hp].
  - destruct (ub_first _ _ _ p Hu Hp) as (y & w & _ & _ & Hy). rewrite Hx in Hy.
    injection Hy as ->. done.
  - exists x. by rewrite <-(ub_other _ _ _ Hu p Hp).
Qed.
(** Waking up changes neither who is waited for nor who is dead. *)
Lemma unblocked_targets s W s' a c g p :
  unblocked s W s' → (target s' a c g p ↔ target s a c g p) ∧ (dead_target s' a c g p ↔ dead_target s a c g p).
Proof.
  intros Hu. unfold target, dead_target. destruct (decide (p ∈ W.*1)) as [Hp|Hp].
  - destruct (ub_first _ _ _ p Hu Hp) as (x & w & Hx & Hb & Hx'). rewrite Hx, Hx'. split; split.
    + intros (y & [= <-] & Ha). exists x. split; [done|exact Ha].
    + intros (y & [= <-] & Ha). exists (awoken x w). split; [done|exact Ha].
    + by intros (y & [= <-] & _ & [=]).
    + intros (y & [= <-] & _ & Hd). congruence.
  - by rewrite (ub_other _ _ _ Hu p Hp).
Qed.
Lemma unblocked_alike s W s' l : unblocked s W s' → (∀ p, p ∈ l → p ∉ W.*1) → alike l s s'.
Proof.
  intros Hu Hl. destruct (unblocked_inodes _ _ _ Hu) as [Hi Hd]. split; [done|done| | |].
  - intros a c g p. by apply (unblocked_targets s W s').
  - intros a c g p. by apply (unblocked_targets s W s').
  - intros p Hp. left. by apply (ub_other _ _ _ Hu), Hl.
Qed.
Lemma reaped_trans s s1 l l1 l2 :
  (∀ p, dead s1 p → dead s p) → reaped s l l1 → reaped s1 l1 l2 → reaped s l l2.
Proof.
  intros Hd [Hs Hr] [Hs1 Hr1]. split; [by etrans|]. intros p Hp.
  destruct (Hr p Hp) as [Hp1|?]; [|by right]. destruct (Hr1 p Hp1) as [?|?]; [by left|].
  right. by apply Hd.
Qed.
Lemma unblocked_known s W s' l : unblocked s W s' → known s l → known s' l.
Proof.
  intros Hu Hk p Hp. destruct (decide (p ∈ W.*1)) as [Hw|Hw].
  - destruct (ub_first _ _ _ p Hu Hw) as (? & ? & _ & _ & ->). done.
  - rewrite (ub_other _ _ _ Hu p Hw). by apply Hk.
Qed.
(** One process after another. *)
Lemma unblocked_trans s W s1 W1 s2 :
  unblocked s W s1 → unblocked s1 W1 s2 → (∀ p, p ∈ W1.*1 → p ∉ W.*1) → unblocked s (W ++ W1) s2.
Proof.
  intros H1 H2 Hdis. split.
  - rewrite (ub_state _ _ _ H2). rewrite (ub_state _ _ _ H1). cbn. by rewrite fmap_app, app_assoc.
  - eapply reaped_trans; [|apply (ub_all _ _ _ H1)|apply (ub_all _ _ _ H2)].
    intros p. by eapply unblocked_dead.
  - intros p. rewrite fmap_app. intros [Hp Hp1]%not_elem_of_app.
    by rewrite (ub_other _ _ _ H2 p Hp1), (ub_other _ _ _ H1 p Hp).
  - intros p w [Hw|Hw]%elem_of_app.
    + destruct (ub_woken _ _ _ H1 p w Hw) as (x & Hx & Hb & Hx1). exists x. split_and!; try done.
      rewrite (ub_other _ _ _ H2); [done|]. intros Hw1. apply (Hdis p Hw1). apply list_elem_of_fmap. by exists (p, w).
    + destruct (ub_woken _ _ _ H2 p w Hw) as (x & Hx & Hb & Hx1). exists x.
      rewrite <-(ub_other _ _ _ H1 p); [done|]. apply Hdis, list_elem_of_fmap. by exists (p, w).
Qed.

Lemma wake_one s p x w all :
  procs s !! p = Some x → pstate x = PROCESS_STATE_BLOCKED → reaped s (all_processes s) all →
  wp (_ ← update_proc p (λ x, set_pstate PROCESS_STATE_RUNNING
            (set_blocker None (negb (pending_signals x =? 0)) x)); scheduler_enqueue p)
    (λ _ s', unblocked s [(p, w)] s' ∧ all_processes s' = all) (answered s p x w all).
Proof.
  intros Hx Hb Hl. unfold answered. set (s1 := with_procs _ _).
  set (x1 := set_waited w x). assert (procs s1 !! p = Some x1) as H1 by apply lookup_insert_eq.
  wp_keep. eapply wp_run; [by apply update_proc_run|]. unfold scheduler_enqueue. wp_keep.
  eapply wp_run; [apply proc_run, lookup_insert_eq|]. wp_keep. apply wp_ASSERT; [done|]. wp_keep.
  unfold set_ready. apply wp_modify. unfold s1. split; [|done].
  split; cbn [with_procs with_sched procs all_processes ready_queue current].
  - done.
  - exact Hl.
  - intros q Hq. change ([(p, w)].*1) with [p] in Hq. rewrite not_elem_of_cons in Hq. destruct Hq as [Hq _].
    by rewrite !lookup_insert_ne by done.
  - intros q w' [= -> ->]%list_elem_of_singleton. exists x. split_and!; try done. apply lookup_insert_eq.
Qed.
Lemma waits_after s s1 p l W :
  unblocked s W s1 → (∀ q, q ∈ W.*1 → q ∉ l) → waits s (p :: l) → waits s1 l.
Proof.
  intros Hu Hdis Hw q y Hq Hy Hb. rewrite (ub_other _ _ _ Hu q) in Hy.
  - destruct (Hw q y) as (b & ? & Hc); [by right|done|done|]. exists b. split; [done|].
    by rewrite (unblocked_condition s W s1).
  - intros Hin. by apply (Hdis q).
Qed.
Lemma known_all s W s1 : unblocked s W s1 → known s (all_processes s) → known s1 (all_processes s1).
Proof.
  intros Hu Hk. eapply unblocked_known; [done|]. intros p Hp. apply Hk.
  destruct (ub_all _ _ _ Hu) as [Hs _]. by eapply elem_of_sublist.
Qed.

Lemma unblock_those_wp l s :
  NoDup l → known s (all_processes s) → known s l → waits s l →
  wp (unblock_those l) (λ _ s', ∃ W, wakes s l (all_processes s) W (all_processes s') ∧ unblocked s W s') s.
Proof.
  revert s. induction l as [|p l IH]; intros s Hnd Hk Hkl Hwt; cbn [unblock_those].
  { wp_keep. exists []. split; [constructor|apply unblocked_refl]. }
  destruct (Hkl p) as [x Hx]; [by left|].
  assert (known s l) as Hkl' by by intros q Hq; apply Hkl; right.
  pose proof Hnd as [Hp Hnd']%NoDup_cons.
  (* the process is passed over *)
  assert (Hskip : (∀ W all', wakes s l (all_processes s) W all' → wakes s (p :: l) (all_processes s) W all') →
    wp (unblock_those l) (λ _ s', ∃ W, wakes s (p :: l) (all_processes s) W (all_processes s') ∧ unblocked s W s') s).
  { intros Hcons. eapply wp_mono; [apply (IH s); try done|].
    - intros q y Hq. apply Hwt. by right.
    - intros _ s' (W & Hw & Hu). exists W. split; [by apply Hcons|done]. }
  (* the process is woken up *)
  assert (Hwake : ∀ w all, pstate x = PROCESS_STATE_BLOCKED → answers s (all_processes s) x (Some w) all →
      reaped s (all_processes s) all →
    wp (_ ← (_ ← update_proc p (λ x, set_pstate PROCESS_STATE_RUNNING
                    (set_blocker None (negb (pending_signals x =? 0)) x)); scheduler_enqueue p); unblock_those l)
      (λ _ s', ∃ W, wakes s (p :: l) (all_processes s) W (all_processes s') ∧ unblocked s W s') (answered s p x w all)).
  { intros w all Hb Ha Hr. apply wp_bind. eapply wp_mono; [by apply (wake_one s p x w all)|].
    intros [] s2 [Hu Hall].
    assert (∀ q, q ∈ l → q ∉ ([(p, w)].*1)) as Hdis.
    { intros q Hq Hqp%list_elem_of_singleton. by subst q. }
    eapply wp_mono; [apply (IH s2)|].
    - done.
    - by eapply known_all.
    - by eapply unblocked_known.
    - eapply waits_after; [exact Hu| |exact Hwt]. intros q Hq Hql. by apply (Hdis q).
    - intros _ s' (W & Hw & Hu'). exists ((p, w) :: W). split.
      + eapply wakes_up; [done|done|done|]. rewrite <-Hall. eapply wakes_alike; [|exact Hw].
        by eapply unblocked_alike.
      + apply (unblocked_trans s [(p, w)] s2 W s' Hu Hu'). intros q Hq. apply Hdis.
        eapply elem_of_sublist; [exact Hq|]. by eapply wakes_sublist. }
  wp_keep. eapply wp_run; [by apply proc_run|].
  destruct (bool_decide_reflect (pstate x = PROCESS_STATE_BLOCKED)) as [Hb|Hb]; cbn [negb].
  2: { apply Hskip. intros W all'. by apply (wakes_awake s p x). }
  destruct (Hwt p x) as (b & Hub & Hc); [by left|done|done|]. rewrite Hub. wp_keep.
  destruct (Z.eqb_spec (pending_signals x) 0) as [Hz|Hz]; cbn [negb].
  - eapply wp_mono; [by apply (run_blocker_wp s p x b)|]. intros [] s1 Hs1; cbv iota in Hs1 |- *.
    + destruct Hs1 as (w & all & Ha & Hr & ->). by apply Hwake.
    + destruct Hs1 as [-> Ha]. wp_keep. apply Hskip. intros W all'. by apply (wakes_not s p x).
  - apply wp_ret. cbv beta iota.
    assert (answers s (all_processes s) x (Some (waited_process x)) (all_processes s)) as Ha by by apply by_signal.
    pose proof (Hwake _ _ Hb Ha (reaped_refl _ _)) as Hgo. by rewrite answered_same in Hgo.
Qed.

(** ** Switching *)

(** A process that may run. *)
Definition runnable (s : kstate) (p : nat) : Prop :=
  ∃ x, procs s !! p = Some x ∧ pstate x ≠ PROCESS_STATE_BLOCKED ∧
       pstate x ≠ PROCESS_STATE_DEAD ∧ deliverable (pending_signals x).
(** The processes are as a switch needs them. *)
Record poised (s : kstate) : Prop := Poised {
  po_all : NoDup (all_processes s);
  po_known : known s (all_processes s);
  po_waits : waits s (all_processes s);
  po_signals : ∀ p x, p ∈ all_processes s → procs s !! p = Some x →
    deliverable (pending_signals x);
  po_ready : ∀ p, p ∈ ready_queue s → runnable s p;
  po_idle : ∃ i, idle s = Some i ∧ runnable s i;
}.
(** The invariant of the queues. *)
Record fit (s : kstate) : Prop := Fit {
  fit_poised : poised s;
  fit_distinct : NoDup (ready_queue s);
  fit_current : is_Some (procs s !! current s) ∧ current s ∉ ready_queue s;
}.
(** The head of a queue and the rest; the idle process when there is none. *)
Definition chosen (i : option nat) (queue : list nat) (p : nat) (rest : list nat) : Prop :=
  match queue with [] => i = Some p ∧ rest = [] | q :: queue => p = q ∧ rest = queue end.
(** What becomes of a process that is switched to: it runs, or the highest of the
    signals sent to it ends it. *)
Definition resumed (x : process) : process :=
  let quiet := pending_signals x =? 0 in
  Process (pid x) (ppid x) (pgid x)
    (if quiet then if decide (pstate x = PROCESS_STATE_RUNNABLE) then PROCESS_STATE_RUNNING else pstate x
     else PROCESS_STATE_DYING)
    (if quiet then exit_status x else Z.log2 (pending_signals x))
    (comm x) (cwd_path x) (cwd_inode x) (fd_table x) (should_unblock x) (waited_process x)
    (blocker_was_interrupted x) (user_ticks x) (kernel_ticks x) 0.

Lemma unblocked_runnable s W s1 p :
  unblocked s W s1 → (∀ x, p ∈ W.*1 → procs s !! p = Some x → deliverable (pending_signals x)) →
  runnable s p ∨ p ∈ W.*1 → runnable s1 p.
Proof.
  intros Hu Hs Hp. destruct (decide (p ∈ W.*1)) as [Hw|Hw].
  - destruct (ub_first _ _ _ p Hu Hw) as (x & w & Hx & _ & Hx1). exists (awoken x w).
    split_and!; [done..|]. by apply (Hs x Hw).
  - destruct Hp as [(x & Hx & Hr)|?]; [|done]. exists x. by rewrite (ub_other _ _ _ Hu p Hw).
Qed.
Lemma woken_distinct s l W :
  NoDup l → (∀ p, p ∈ l → ¬ blocked s p) → NoDup W → (∀ p, p ∈ W → blocked s p) → NoDup (l ++ W).
Proof. intros. apply NoDup_app. split_and!; [done| |done]. intros p Hp Hw. naive_solver. Qed.
Lemma runnable_not_blocked s p : runnable s p → ¬ blocked s p.
Proof. intros (x & Hx & Hb & _) (y & Hy & Hyb). congruence. Qed.
Lemma resumed_runs x :
  pstate x ≠ PROCESS_STATE_BLOCKED → pstate x ≠ PROCESS_STATE_DEAD →
  pstate (resumed x) = PROCESS_STATE_RUNNING ∨ pstate (resumed x) = PROCESS_STATE_DYING.
Proof.
  intros Hb Hd. unfold resumed. cbn [pstate]. destruct (pending_signals x =? 0); [|by right].
  case_decide as H; [by left|]. destruct (pstate x) eqn:E; auto; congruence.
Qed.
Lemma resumed_signals x : deliverable (pending_signals (resumed x)).
Proof. split; [unfold U32; simpl; lia|]. intros i. simpl. by rewrite Z.bits_0. Qed.
Lemma resumed_quiet x :
  pending_signals x = 0 →
  (if decide (pstate x = PROCESS_STATE_RUNNABLE) then set_pstate PROCESS_STATE_RUNNING x else x) = resumed x.
Proof.
  intros Hz. unfold resumed. rewrite Hz. cbn [Z.eqb]. case_decide; destruct x; cbn in *; by subst.
Qed.
Lemma resumed_killed x :
  deliverable (pending_signals x) → pending_signals x ≠ 0 → killed x = resumed x.
Proof.
  intros [Hr _] Hz. unfold resumed, killed. rewrite (proj2 (Z.eqb_neq _ _) Hz).
  assert (0 ≤ Z.log2 (pending_signals x) < 32) as Hl.
  { split; [apply Z.log2_nonneg|]. apply Z.log2_lt_pow2; unfold U32 in Hr; lia. }
  change 0xff with (Z.ones 8). by rewrite Z.land_ones, Z.mod_small by lia.
Qed.

(** Loading the state of process [p]. *)
Lemma resume_run s p x :
  current s = p → procs s !! p = Some x → deliverable (pending_signals x) →
  (_ ← process_handle_pending_signals;
   update_current (λ x, if decide (pstate x = PROCESS_STATE_RUNNABLE)
                        then set_pstate PROCESS_STATE_RUNNING x else x)) s =
  Done tt (with_procs <[p := resumed x]> s).
Proof.
  intros <- Hx Hd. rewrite (bind_run _ _ _ _ _ (handle_pending_run s x Hx Hd)).
  destruct (Z.eqb_spec (pending_signals x) 0) as [Hz|Hz].
  - by rewrite (update_current_run x), resumed_quiet.
  - rewrite (update_current_run (killed x)) by apply lookup_insert_eq.
    cbn [with_procs current]. rewrite with_procs_twice, <-resumed_killed by done. done.
Qed.
Lemma switch_wp s :
  poised s →
  wp switch_to_next_process (λ _ s', ∃ W s1 x,
    wakes s (all_processes s) (all_processes s) W (all_processes s1) ∧ unblocked s W s1 ∧
    chosen (idle s) (ready_queue s ++ W.*1) (current s') (ready_queue s') ∧
    runnable s1 (current s') ∧ procs s1 !! current s' = Some x ∧
    s' = with_procs <[current s' := resumed x]>
           (with_sched (all_processes s1) (ready_queue s') (current s') s1)) s.
Proof.
  intros [Hnd Hk Hwt Hsig Hready Hidle]. unfold switch_to_next_process, unblock_processes. wp_keep.
  eapply wp_mono; [by apply unblock_those_wp|]. intros [] s1 (W & Hw & Hu).
  pose proof (wakes_sublist _ _ _ _ _ Hw) as Hsub.
  assert (HW : ∀ p, p ∈ ready_queue s ++ W.*1 → runnable s1 p).
  { intros p Hp. apply (unblocked_runnable s W s1); [done| |].
    - intros x HxW. apply Hsig. by eapply elem_of_sublist.
    - apply elem_of_app in Hp as [?|?]; auto. }
  assert (Hi : ∃ i, idle s = Some i ∧ runnable s1 i).
  { destruct Hidle as (i & Hi & Hri). exists i. split; [done|]. apply (unblocked_runnable s W s1); auto.
    intros x HxW. apply Hsig. by eapply elem_of_sublist. }
  assert (wp scheduler_deque (λ r s2, ∃ p, r = Some p ∧ runnable s1 p ∧
    chosen (idle s) (ready_queue s ++ W.*1) p (ready_queue s2) ∧
    s2 = with_sched (all_processes s1) (ready_queue s2) (current s1) s1) s1) as Hdeq.
  { unfold scheduler_deque. wp_keep. assert (ready_queue s1 = ready_queue s ++ W.*1) as Hq
      by by rewrite (ub_state _ _ _ Hu).
    assert (idle s1 = idle s) as Hid by by rewrite (ub_state _ _ _ Hu).
    rewrite Hq, Hid. destruct (ready_queue s ++ W.*1) as [|p q].
    - wp_keep. destruct Hi as (i & -> & Hri). exists i. rewrite Hq.
      split_and!; try done. rewrite <-Hq. by destruct s1.
    - unfold set_ready. wp_keep. destruct (HW p) as (x & Hx & Hnb & Hnd' & Hd); [by left|].
      eapply wp_run; [by apply proc_run|]. wp_keep. apply wp_ASSERT.
      { by rewrite bool_decide_eq_false_2. }
      wp_keep. exists p. split_and!; try done. by exists x. }
  wp_keep. eapply wp_mono; [exact Hdeq|].
  intros r s2 (p & -> & (x & Hx & Hnb & Hnd' & Hd) & Hch & Hs2). cbv iota. unfold set_current. wp_keep.
  assert (procs s2 !! p = Some x) as Hx2 by by rewrite Hs2.
  eapply wp_run; [by apply proc_run|]. wp_keep. apply wp_ASSERT.
  { by rewrite bool_decide_eq_false_2. }
  cbv beta. eapply wp_run; [by apply (resume_run _ p x)|].
  exists W, s1, x. cbn [with_procs with_sched current ready_queue].
  split_and!; try done; [by exists x|]. by rewrite Hs2.
Qed.

Lemma waits_unblocked s W s1 :
  unblocked s W s1 → waits s (all_processes s) → waits s1 (all_processes s1).
Proof.
  intros Hu Hw p x Hp Hx Hb. destruct (decide (p ∈ W.*1)) as [HpW|HpW].
  - destruct (ub_first _ _ _ p Hu HpW) as (y & w & _ & _ & Hy). rewrite Hx in Hy.
    injection Hy as ->. done.
  - rewrite (ub_other _ _ _ Hu p HpW) in Hx. destruct (ub_all _ _ _ Hu) as [Hs _].
    destruct (Hw p x) as (b & Hb' & Hc); [by eapply elem_of_sublist|done|done|].
    exists b. split; [done|]. by rewrite (unblocked_condition s W s1).
Qed.
Lemma runnable_resumed s p q x :
  procs s !! p = Some x → runnable s p → runnable s q →
  runnable (with_procs <[p := resumed x]> s) q.
Proof.
  intros Hx Hp Hq. destruct (decide (p = q)) as [<-|Hne].
  - destruct Hp as (y & Hy & Hb & Hd & Hdel). rewrite Hx in Hy. injection Hy as <-.
    exists (resumed x). split; [apply lookup_insert_eq|].
    destruct (resumed_runs x Hb Hd) as [-> | ->]; split_and!; try done; apply resumed_signals.
  - destruct Hq as (y & Hy & Hq). exists y. split; [|done]. cbn [with_procs procs].
    by rewrite lookup_insert_ne.
Qed.
Lemma fit_after s W s1 p q x :
  poised s →
  NoDup (ready_queue s ++ W.*1) → (∀ p, p ∈ W.*1 → p ∈ all_processes s) → unblocked s W s1 →
  chosen (idle s) (ready_queue s ++ W.*1) p q → runnable s1 p → procs s1 !! p = Some x →
  fit (with_procs <[p := resumed x]> (with_sched (all_processes s1) q p s1)).
Proof.
  intros [Hnd Hk Hwt Hsig Hready Hidle] Hnd' HW Hu Hch Hp Hx.
  set (s2 := with_sched (all_processes s1) q p s1).
  assert (Hrun : ∀ r, r ∈ ready_queue s ++ W.*1 → runnable s1 r).
  { intros r Hr. apply (unblocked_runnable s W s1); [done|intros y Hw; apply Hsig; auto|].
    apply elem_of_app in Hr as [?|?]; auto. }
  assert (q `sublist_of` ready_queue s ++ W.*1 ∧ p ∉ q) as [Hsub Hpq].
  { destruct (ready_queue s ++ W.*1) as [|r l]; cbn [chosen] in Hch.
    - destruct Hch as [_ ->]. split; [done|]. by intros ?%elem_of_nil.
    - destruct Hch as [-> ->]. apply NoDup_cons in Hnd' as [? _]. split; [by apply sublist_cons|done]. }
  split; [split|..]; unfold known, waits; cbn [with_procs with_sched all_processes ready_queue idle current procs s2].
  - eapply sublist_NoDup; [exact Hnd|]. apply (ub_all _ _ _ Hu).
  - intros r Hr. destruct (decide (p = r)) as [<-|]; [rewrite lookup_insert_eq; done|].
    rewrite lookup_insert_ne by done. by apply (known_all s W s1).
  - intros r y Hr Hy Hb. destruct (decide (p = r)) as [<-|].
    + rewrite lookup_insert_eq in Hy. injection Hy as <-. destruct Hp as (z & Hz & Hzb & Hzd & _).
      rewrite Hx in Hz. injection Hz as <-. destruct (resumed_runs x Hzb Hzd); congruence.
    + rewrite lookup_insert_ne in Hy by done.
      destruct (waits_unblocked s W s1 Hu Hwt r y Hr Hy Hb) as (b & Hb' & Hc). exists b. split; [done|].
      by rewrite (condition_same s1).
  - intros r y Hr Hy. destruct (decide (p = r)) as [<-|].
    + rewrite lookup_insert_eq in Hy. injection Hy as <-. apply resumed_signals.
    + rewrite lookup_insert_ne in Hy by done. destruct (ub_all _ _ _ Hu) as [Hs _].
      assert (r ∈ all_processes s) as Hr' by by eapply elem_of_sublist.
      destruct (decide (r ∈ W.*1)) as [Hw|Hw].
      * destruct (ub_first _ _ _ r Hu Hw) as (z & w & Hz & _ & Hz1). rewrite Hy in Hz1.
        injection Hz1 as ->. by apply (Hsig r z).
      * rewrite (ub_other _ _ _ Hu r Hw) in Hy. by apply (Hsig r y).
  - intros r Hr. apply (runnable_resumed s2 p r x Hx Hp). apply Hrun. by eapply elem_of_sublist.
  - destruct Hidle as (i & Hi & Hri). exists i. split; [by rewrite (ub_state _ _ _ Hu)|].
    apply (runnable_resumed s2 p i x Hx Hp).
    apply (unblocked_runnable s W s1); [done|intros y Hw; apply Hsig; auto|by left].
  - eapply sublist_NoDup; [exact Hnd'|exact Hsub].
  - by rewrite lookup_insert_eq.
Qed.

(** What the current process adds to the queue when it gives up the processor. *)
Definition requeued (requeue : bool) (s : kstate) : list nat :=
  if bool_decide (idle s = Some (current s)) then [] else if requeue then [current s] else [].
(** What the others become meanwhile: the idle process is runnable again when it is
    the one that yields; those that wake up run. *)
Definition with_state (st : process_state) (x : process) : process :=
  Process (pid x) (ppid x) (pgid x) st (exit_status x) (comm x) (cwd_path x) (cwd_inode x) (fd_table x)
    (should_unblock x) (waited_process x) (blocker_was_interrupted x) (user_ticks x) (kernel_ticks x)
    (pending_signals x).
Definition idled (s : kstate) (p : nat) (x : process) : process :=
  if decide (idle s = Some p ∧ current s = p) then with_state PROCESS_STATE_RUNNABLE x else x.
Definition stirred (s : kstate) (W : list (nat * option nat)) (p : nat) (x : process) : process :=
  match (list_to_map W : gmap nat (option nat)) !! p with Some w => awoken x w | None => idled s p x end.
(** The outcome of a switch: the processes [W] wake up; the head of the queue, the
    caller and they behind it, is resumed; this and the loss of the dead that a
    waitpid found is all that changes. *)
Definition switched (requeue : bool) (s s' : kstate) : Prop :=
  fit s' ∧ ∃ W, wakes s (all_processes s) (all_processes s) W (all_processes s') ∧
  chosen (idle s) (ready_queue s ++ requeued requeue s ++ W.*1) (current s') (ready_queue s') ∧
  s' = with_procs (λ _, procs s')
         (with_sched (all_processes s') (ready_queue s') (current s') s) ∧
  (∀ p, procs s' !! p =
    (λ x, if decide (p = current s') then resumed (stirred s W p x) else stirred s W p x) <$> procs s !! p) ∧
  (∃ x, procs s' !! current s' = Some x ∧
        (pstate x = PROCESS_STATE_RUNNING ∨ pstate x = PROCESS_STATE_DYING)).

(** Before the switch: the queue has grown by [r], the idle process may be made
    runnable again. *)
Section switch.
Context (s s0 : kstate) (requeue : bool).
Context (Hfit : fit s).
Context (Hrequeue : ∀ p, p ∈ requeued requeue s → runnable s p).
Context (Hs0 : s0 = with_procs (λ _, procs s0)
  (with_sched (all_processes s) (ready_queue s ++ requeued requeue s) (current s) s)).
Context (Hstep : ∀ p, procs s0 !! p = idled s p <$> procs s !! p).
Context (Hidle : ∀ i, idle s = Some i → runnable s0 i).

Lemma Hprocs p : Some p ≠ idle s → procs s0 !! p = procs s !! p.
Proof.
  intros Hp. rewrite Hstep. unfold idled. case_decide as E; [destruct E as [E _]; by rewrite E in Hp|].
  by destruct (procs s !! p).
Qed.
Lemma from_blocked p x :
  pstate x = PROCESS_STATE_BLOCKED → procs s0 !! p = Some x ↔ procs s !! p = Some x.
Proof.
  intros Hb. destruct (decide (Some p = idle s)) as [E|E]; [|by rewrite Hprocs].
  destruct (Hidle p) as (y & Hy & Hyb & _); [done|]. destruct Hfit as [[_ _ _ _ _ (i & Hi & z & Hz & Hzb & _)] _ _].
  rewrite Hi in E. injection E as ->. split; intros Hx; congruence.
Qed.
Lemma from_condition b : condition s0 b = condition s b.
Proof. apply condition_same; by rewrite Hs0. Qed.
Lemma from_known p : is_Some (procs s !! p) → is_Some (procs s0 !! p).
Proof.
  intros Hp. destruct (decide (Some p = idle s)) as [E|E]; [|by rewrite Hprocs].
  destruct (Hidle p) as (y & Hy & _); [done|]. by rewrite Hy.
Qed.
Lemma from_runnable p : runnable s p → runnable s0 p.
Proof.
  intros (x & Hx & H). destruct (decide (Some p = idle s)) as [E|E]; [by apply Hidle|].
  exists x. by rewrite Hprocs.
Qed.
Lemma from_poised : poised s0.
Proof.
  destruct Hfit as [[Hnd Hk Hwt Hsig Hready (i & Hi & Hri)] _ _].
  rewrite Hs0. split; cbn [with_procs with_sched all_processes ready_queue idle]; rewrite <-?Hs0.
  - done.
  - intros p Hp. rewrite Hs0. cbn. apply from_known. auto.
  - intros p x Hp Hx Hb. rewrite Hs0 in Hx. cbn in Hx. rewrite from_blocked in Hx by done.
    destruct (Hwt p x Hp Hx Hb) as (b & Hb' & Hc). exists b. split; [done|].
    destruct Hc as [?|Hc]; [by left|right]. by rewrite from_condition.
  - intros p x Hp Hx. rewrite Hs0 in Hx. cbn in Hx. destruct (decide (Some p = idle s)) as [E|E].
    + destruct (Hidle p) as (y & Hy & _ & _ & Hd); [done|]. congruence.
    + rewrite Hprocs in Hx by done. by apply (Hsig p).
  - intros p [Hp|Hp]%elem_of_app; apply from_runnable; auto.
  - exists i. split; [done|]. by apply Hidle.
Qed.

Lemma from_alike l : alike l s s0.
Proof.
  destruct Hfit as [[_ _ _ _ _ (i & Hi & y & Hy & Hyb & Hyd & _)] _ _].
  assert (∀ p, procs s0 !! p = procs s !! p ∨
    p = i ∧ procs s !! p = Some y ∧ procs s0 !! p = Some (with_state PROCESS_STATE_RUNNABLE y)) as Hcase.
  { intros p. rewrite Hstep. unfold idled. case_decide as E; [|left; by destruct (procs s !! p)].
    destruct E as [E _]. rewrite Hi in E. injection E as ->. right. by rewrite Hy. }
  split.
  - by rewrite Hs0.
  - by rewrite Hs0.
  - intros a c g p. unfold target. destruct (Hcase p) as [->|(_ & -> & ->)]; [done|].
    split; intros (? & [= <-] & ?); by eexists.
  - intros a c g p. unfold dead_target. destruct (Hcase p) as [->|(_ & -> & ->)]; [done|].
    split; intros (? & [= <-] & _ & ?); done.
  - intros p _. destruct (Hcase p) as [->|(_ & -> & ->)]; [by left|right].
    eexists _, _. by split_and!.
Qed.
Lemma from_unblocked W s1 p :
  unblocked s0 W s1 → NoDup W.*1 → procs s1 !! p = stirred s W p <$> procs s !! p.
Proof.
  intros Hu Hnd. unfold stirred. destruct (list_to_map W !! p) as [w|] eqn:E.
  - apply elem_of_list_to_map_2 in E. destruct (ub_woken _ _ _ Hu p w E) as (x & Hx & Hb & ->).
    rewrite from_blocked in Hx by done. by rewrite Hx.
  - apply not_elem_of_list_to_map_2 in E. by rewrite (ub_other _ _ _ Hu p E), Hstep.
Qed.

Lemma switch_from : wp switch_to_next_process (λ _ s', switched requeue s s') s0.
Proof using Hfit Hidle Hstep Hrequeue Hs0.
  eapply wp_mono; [apply switch_wp, from_poised|].
  intros [] s' (W & s1 & x & Hw & Hu & Hch & Hp & Hx & Hs').
  pose proof from_poised as Hpo. destruct Hfit as [[Hnd Hk Hwt Hsig Hready (i & Hi & Hri)] Hdis [_ Hcur]].
  assert (all_processes s0 = all_processes s ∧ idle s0 = idle s ∧
    ready_queue s0 = ready_queue s ++ requeued requeue s) as (Hall & Hid & Hrd) by by rewrite Hs0.
  rewrite Hall in Hw. pose proof (wakes_sublist _ _ _ _ _ Hw) as Hsub.
  assert (NoDup W.*1) as HndW by (eapply sublist_NoDup; [exact Hnd|done]).
  assert (∀ p, p ∈ W.*1 → blocked s p) as HW.
  { intros p HpW. destruct (ub_first _ _ _ p Hu HpW) as (y & w & Hy & Hb & _).
    rewrite from_blocked in Hy by done. by exists y. }
  split.
  - rewrite Hs'. apply (fit_after s0 W s1); try done.
    + rewrite Hrd. apply (woken_distinct s); [| |done|done].
      * unfold requeued. case_bool_decide; [by rewrite app_nil_r|].
        destruct requeue; [|by rewrite app_nil_r]. apply NoDup_app. split_and!; [done| |apply NoDup_singleton].
        intros p HpA HpC%list_elem_of_singleton. by subst p.
      * intros p [HpA|HpA]%elem_of_app; apply runnable_not_blocked; auto.
    + intros p HpW. rewrite Hall. by eapply elem_of_sublist.
  - exists W. rewrite Hid, Hrd, <-app_assoc in Hch. split_and!; try done.
    + eapply wakes_alike; [apply from_alike|]. by rewrite Hs'.
    + rewrite Hs' at 1. rewrite (ub_state _ _ _ Hu). rewrite Hs0. rewrite Hs'. done.
    + intros p. rewrite Hs' at 1. cbn [with_procs procs]. case_decide as E.
      * subst p. rewrite lookup_insert_eq. rewrite (from_unblocked W s1) in Hx by done.
        apply fmap_Some in Hx as (y & -> & ->). done.
      * rewrite lookup_insert_ne by done. by apply (from_unblocked W s1).
    + rewrite Hs'. exists (resumed x). split; [apply lookup_insert_eq|].
      destruct Hp as (z & Hz & Hzb & Hzd & _). rewrite Hx in Hz. injection Hz as <-.
      by apply resumed_runs.
Qed.
End switch.

Lemma not_idled s p : idle s ≠ Some (current s) → procs s !! p = idled s p <$> procs s !! p.
Proof.
  intros Hid. unfold idled. case_decide as E; [by destruct E as [E <-]|]. by destruct (procs s !! p).
Qed.
Lemma scheduler_yield_wp requeue s :
  fit s → (requeue = true → idle s ≠ Some (current s) → runnable s (current s)) →
  wp (scheduler_yield requeue) (λ _ s', switched requeue s s') s.
Proof.
  intros Hfit Hrq. pose proof Hfit as [[_ _ _ _ _ (i & Hi & Hri)] _ [[c Hc] _]].
  unfold scheduler_yield. wp_keep.
  assert (Hreq : ∀ p, p ∈ requeued requeue s → runnable s p).
  { intros p. unfold requeued. case_bool_decide as Hid; [by intros ?%elem_of_nil|].
    destruct requeue; [|by intros ?%elem_of_nil]. intros ->%list_elem_of_singleton. auto. }
  destruct (bool_decide_reflect (idle s = Some (current s))) as [Hid|Hid].
  - wp_keep. eapply wp_run; [by apply update_current_run|]. apply (switch_from s); try done.
    + unfold requeued. rewrite bool_decide_eq_true_2 by done. rewrite app_nil_r. by destruct s.
    + intros p. cbn. unfold idled. case_decide as E.
      * destruct E as [_ <-]. by rewrite lookup_insert_eq, Hc.
      * rewrite lookup_insert_ne by (intros <-; by apply E). by destruct (procs s !! p).
    + intros j Hj. rewrite Hid in Hj. injection Hj as <-. rewrite Hid in Hi. injection Hi as <-.
      destruct Hri as (x & Hx & _ & _ & Hd). exists (set_pstate PROCESS_STATE_RUNNABLE c).
      split; [apply lookup_insert_eq|]. split_and!; try done. cbn. congruence.
  - apply wp_bind, wp_when; intros E.
    + unfold scheduler_enqueue. wp_keep. destruct (Hreq (current s)) as (x & Hx & Hb & Hd & Hdel).
      { unfold requeued. rewrite bool_decide_eq_false_2, E by done. by left. }
      eapply wp_run; [by apply proc_run|]. wp_keep. apply wp_ASSERT.
      { by rewrite bool_decide_eq_false_2. }
      unfold set_ready. wp_keep. apply (switch_from s); try done.
      * unfold requeued. rewrite bool_decide_eq_false_2, E by done. by destruct s.
      * intros p. cbn. by apply not_idled.
      * intros j Hj. rewrite Hi in Hj. injection Hj as <-. exact Hri.
    + apply (switch_from s); try done.
      * unfold requeued. rewrite bool_decide_eq_false_2, E by done. rewrite app_nil_r. by destruct s.
      * intros p. by apply not_idled.
      * intros j Hj. rewrite Hi in Hj. by injection Hj as <-.
Qed.

(** ** Properties *)

(** C6: giving up the processor. From a state whose queues are in order, the switch
    always happens. The blocked processes are asked in the order of their numbers:
    exactly those with a pending signal, a true condition, or a waitpid that finds a
    dead process or none to wait for, wake up and queue behind the ready ones (and
    the caller, if it asked for that); each learns whether a signal woke it and what
    its waitpid found, and a process found dead leaves the list. The head of the
    queue runs, or ends with the highest signal sent to it; the idle process when
    the queue is empty. Every field of every process and of the kernel that is not
    named here stays as it is, and the queues are in order again. *)
Theorem scheduler_yield_spec requeue s :
  fit s → (requeue = true → idle s ≠ Some (current s) → runnable s (current s)) →
  wp (scheduler_yield requeue) (λ _ s', switched requeue s s') s.
Proof.
  apply scheduler_yield_wp.
Qed.


(** A stretch in which the current process works: it may send signals, wake or
    start processes, which queue at the end; then it gives up the processor. *)
Definition works (s s' : kstate) : Prop :=
  fit s' ∧ current s' = current s ∧ idle s' = idle s ∧ ∃ new, ready_queue s' = ready_queue s ++ new.
Inductive turns : nat → kstate → kstate → Prop :=
  | turns_none s : turns 0 s s
  | turns_more k requeue s s1 s2 s' :
      works s s1 → (requeue = true → idle s1 ≠ Some (current s1) → runnable s1 (current s1)) →
      scheduler_yield requeue s1 = Done tt s2 → turns k s2 s' → turns (S k) s s'.

Lemma works_refl s : fit s → works s s.
Proof. intros Hf. split_and!; try done. exists []. by rewrite app_nil_r. Qed.
Lemma yield_switched requeue s s' :
  fit s → (requeue = true → idle s ≠ Some (current s) → runnable s (current s)) →
  scheduler_yield requeue s = Done tt s' → switched requeue s s'.
Proof.
  intros Hf Hr Hrun.
  assert (wp (scheduler_yield requeue) (λ _ s', switched requeue s s') s) as Hw by by apply scheduler_yield_wp.
  apply wp_done in Hw as ([] & s1 & Hrun' & Hs). congruence.
Qed.
Lemma turns_exist k s : fit s → ∃ s', turns k s s'.
Proof.
  revert s. induction k as [|k IH]; intros s Hf; [exists s; constructor|].
  assert (wp (scheduler_yield false) (λ _ s', switched false s s') s) as Hw by by apply scheduler_yield_wp.
  apply wp_done in Hw as ([] & s1 & Hrun & Hs). destruct (IH s1) as [s' Hs']; [apply Hs|].
  exists s'. by eapply (turns_more k false); [apply works_refl| |exact Hrun|].
Qed.
(** The queue moves up by one place. *)
Lemma turn_moves_up requeue s s1 s2 k p :
  works s s1 → (requeue = true → idle s1 ≠ Some (current s1) → runnable s1 (current s1)) →
  scheduler_yield requeue s1 = Done tt s2 → ready_queue s !! k = Some p →
  fit s2 ∧ match k with O => current s2 = p | S k => ready_queue s2 !! k = Some p end.
Proof.
  intros (Hf & _ & _ & new & Hq) Hr Hrun Hk.
  destruct (yield_switched _ _ _ Hf Hr Hrun) as (Hf2 & W & _ & Hch & _). split; [done|].
  rewrite Hq, <-app_assoc in Hch. apply (lookup_app_l_Some _ (new ++ requeued requeue s1 ++ W.*1)) in Hk.
  destruct (ready_queue s ++ new ++ requeued requeue s1 ++ W.*1) as [|q l]; [done|].
  destruct Hch as [-> ->].
  destruct k; [by injection Hk|exact Hk].
Qed.

(** C7: no process in the ready queue starves. The process in place [k] runs after
    exactly [k + 1] switches, whatever the processes that run before it do and
    whoever wakes up meanwhile; and these switches always happen. *)
Theorem ready_process_runs k p s :
  fit s → ready_queue s !! k = Some p →
  (∃ s', turns (S k) s s') ∧ ∀ s', turns (S k) s s' → current s' = p ∧ fit s'.
Proof.
  intros Hf Hk. split; [by apply turns_exist|]. revert s Hf Hk.
  induction k as [|k IH]; intros s Hf Hk s' Ht.
  all: inversion Ht as [|? requeue ? s1 s2 ? Hw Hr Hrun Ht']; subst.
  all: destruct (turn_moves_up requeue s s1 s2 _ p Hw Hr Hrun Hk) as [Hf2 Hk2].
  - by inversion Ht'; subst.
  - by apply (IH s2).
Qed.

(** ** Witnesses *)

(** Init (0) runs, a second process (1) is ready, a third (3) waits for it to end;
    process 2 is the idle process. *)
Definition sample_process (id : Z) (st : process_state) (b : option blocker) : process :=
  Process id 1 1 st 0 [] (lit "/") None (replicate OPEN_MAX None) b None false 0 0 0.
Definition sample_sched : kstate :=
  KState ∅ ∅ None [] [] ∅
    {[ 0%nat := sample_process 1 PROCESS_STATE_RUNNING None;
       1%nat := sample_process 2 PROCESS_STATE_RUNNABLE None;
       2%nat := sample_process 0 PROCESS_STATE_RUNNABLE None;
       3%nat := sample_process 3 PROCESS_STATE_BLOCKED (Some (Waitpid 2 3 1)) ]}
    [0%nat; 1%nat; 3%nat] [1%nat] (Some 2%nat) 0 4 1 [].
Lemma deliverable_0 : deliverable 0.
Proof. split; [unfold U32; lia|]. intros i. by rewrite Z.bits_0. Qed.
Lemma sample_runnable p : p = 0%nat ∨ p = 1%nat ∨ p = 2%nat → runnable sample_sched p.
Proof.
  intros Hp. destruct Hp as [->|[->| ->]];
    (eexists; split; [reflexivity|split_and!; [done|done|apply deliverable_0]]).
Qed.
Lemma sample_fit : fit sample_sched.
Proof.
  assert (Hin : ∀ p, p ∈ all_processes sample_sched → p = 0%nat ∨ p = 1%nat ∨ p = 3%nat).
  { intros p. cbn. rewrite !elem_of_cons. intros [|[|[|H]]]; auto. by apply elem_of_nil in H. }
  split; [split|..].
  - apply (bool_decide_unpack _). reflexivity.
  - intros p [->|[->| ->]]%Hin; done.
  - intros p x [->|[->| ->]]%Hin; intros [= <-]; try done. intros _. eexists. split; [done|]. by left.
  - intros p x [->|[->| ->]]%Hin; intros [= <-]; apply deliverable_0.
  - intros p Hp. apply sample_runnable. apply list_elem_of_singleton in Hp. auto.
  - exists 2%nat. split; [done|]. apply sample_runnable. auto.
  - apply (bool_decide_unpack _). reflexivity.
  - split; [done|]. apply (bool_decide_unpack _). reflexivity.
Qed.
Lemma scheduler_yield_spec_witness :
  wp (scheduler_yield true) (λ _ s', switched true sample_sched s') sample_sched.
Proof.
  apply scheduler_yield_spec; [apply sample_fit|]. intros _ _. apply sample_runnable. left. reflexivity.
Defined.
Lemma ready_process_runs_witness :
  (∃ s', turns 1 sample_sched s') ∧ ∀ s', turns 1 sample_sched s' → current s' = 1%nat ∧ fit s'.
Proof. apply (ready_process_runs 0 1 sample_sched); [apply sample_fit|reflexivity]. Defined.
