(* ===== verification/Fs.v ===== *)
(** * Operations of inodes and file descriptions (kernel/fs/fs.c)

    A call through the table of operations of an inode is a match on its
    [fops]; an operation the table leaves out is [None]. *)
From stdpp Require Import fin_maps.
From S2P Require Import Prelude Errno GrowableBuf Kernel Inode Tmpfs Process Scheduler Fifo Socket.

(** ** The tables *)

Definition fops_lookup_child (f : file_ops) : option (nat → list Z → K kstate (ptr_res nat)) :=
  match f with dir_fops => Some tmpfs_lookup_child | _ => None end.
Definition fops_create_child (f : file_ops)
    : option (nat → list Z → Z → K kstate (ptr_res nat)) :=
  match f with dir_fops => Some tmpfs_create_child | _ => None end.
Definition fops_link_child (f : file_ops) : option (nat → list Z → nat → K kstate Z) :=
  match f with dir_fops => Some tmpfs_link_child | _ => None end.
Definition fops_unlink_child (f : file_ops) : option (nat → list Z → K kstate (ptr_res nat)) :=
  match f with dir_fops => Some tmpfs_unlink_child | _ => None end.
Definition fops_open (f : file_ops) : option (nat → Z → K kstate Z) :=
  match f with fifo_fops => Some fifo_open | _ => None end.
Definition fops_stat (f : file_ops) : option (nat → K kstate (Z * stat)) :=
  match f with dir_fops | non_dir_fops => Some tmpfs_stat | _ => None end.
Definition fops_close (f : file_ops) : option (nat → K kstate Z) :=
  match f with fifo_fops => Some fifo_close | _ => None end.
(** The rounds a fifo or socket is waited for: nothing else runs between them, so that the
    condition of the first still holds. *)
Definition FIFO_ROUNDS : nat := 1.
Definition SOCKET_ROUNDS : nat := 1.
Definition fops_read (f : file_ops) : option (nat → Z → K kstate (Z * list Z)) :=
  match f with
  | dir_fops => None
  | non_dir_fops => Some tmpfs_read
  | fifo_fops => Some (fifo_read FIFO_ROUNDS)
  | null_fops => Some (λ _ _, read_nothing)
  | zero_fops | full_fops => Some (λ _, read_zeros)
  | random_fops => Some (λ _, read_random)
  | socket_fops => Some (unix_socket_read SOCKET_ROUNDS)
  end.
Definition fops_write (f : file_ops) : option (nat → list Z → K kstate Z) :=
  match f with
  | dir_fops => None
  | non_dir_fops => Some tmpfs_write
  | fifo_fops => Some (fifo_write FIFO_ROUNDS)
  | null_fops | zero_fops | random_fops => Some (λ _, write_to_bit_bucket)
  | full_fops => Some (λ _, write_to_full_disk)
  | socket_fops => Some (unix_socket_write SOCKET_ROUNDS)
  end.
Definition fops_mmap (f : file_ops) : option (nat → Z → Z → Z → Z → K kstate Z) :=
  match f with non_dir_fops => Some tmpfs_mmap | _ => None end.
Definition fops_truncate (f : file_ops) : option (nat → Z → K kstate Z) :=
  match f with non_dir_fops => Some tmpfs_truncate | _ => None end.
Definition fops_getdents (f : file_ops)
    : option (getdents_ctx → nat → K kstate (Z * getdents_ctx)) :=
  match f with dir_fops => Some tmpfs_getdents | _ => None end.

(** ** Inodes *)

Definition inode_lookup_child (i : nat) (name : list Z) : K kstate (ptr_res nat) :=
  nd ← node i;
  match fops_lookup_child (fops nd), S_ISDIR (mode nd) with
  | Some lookup_child, true => lookup_child i name
  | _, _ => _ ← inode_unref i; mret (ERR_PTR (ERR ENOTDIR))
  end.

Definition inode_create_child (i : nat) (name : list Z) (m : Z) : K kstate (ptr_res nat) :=
  nd ← node i;
  match fops_create_child (fops nd), S_ISDIR (mode nd) with
  | Some create_child, true =>
      _ ← ASSERT (negb (Z.land m S_IFMT =? 0));
      create_child i name m
  | _, _ => _ ← inode_unref i; mret (ERR_PTR (ERR ENOTDIR))
  end.

Definition inode_link_child (i : nat) (name : list Z) (child : nat) : K kstate Z :=
  nd ← node i;
  match fops_link_child (fops nd), S_ISDIR (mode nd) with
  | Some link_child, true =>
      cd ← node child;
      if negb (bool_decide (fs_root_inode nd = fs_root_inode cd)) then
        _ ← inode_unref i; _ ← inode_unref child; mret (ERR EXDEV)
      else
        _ ← inode_ref child;
        rc ← link_child i name child;
        if IS_ERR rc then _ ← inode_unref child; mret rc
        else _ ← inode_unref child; mret 0
  | _, _ => _ ← inode_unref i; _ ← inode_unref child; mret (ERR ENOTDIR)
  end.

Definition inode_unlink_child (i : nat) (name : list Z) : K kstate Z :=
  nd ← node i;
  match fops_unlink_child (fops nd), S_ISDIR (mode nd) with
  | Some unlink_child, true =>
      child ← unlink_child i name;
      match child with
      | ERR_PTR rc => mret rc
      | PTR child => _ ← inode_unref child; mret 0
      end
  | _, _ => _ ← inode_unref i; mret (ERR ENOTDIR)
  end.

Definition inode_open (i : nat) (flags mode : Z) : K kstate (ptr_res nat) :=
  nd ← node i;
  if S_ISDIR (Kernel.mode nd) && has_flag flags O_WRONLY then
    _ ← inode_unref i; mret (ERR_PTR (ERR EISDIR))
  else
    ok ← kmalloc_ok;
    if negb ok then _ ← inode_unref i; mret (ERR_PTR (ERR ENOMEM))
    else
      s ← get;
      let d := fresh_desc s in
      _ ← set_desc d (FileDescription i flags 0 1);
      match fops_open (fops nd) with
      | None => mret (PTR d)
      | Some open =>
          rc ← open d flags;
          if IS_ERR rc then _ ← inode_unref i; _ ← free_desc d; mret (ERR_PTR rc)
          else mret (PTR d)
      end.

Definition inode_stat (i : nat) : K kstate (Z * stat) :=
  nd ← node i;
  match fops_stat (fops nd) with
  | Some stat => stat i
  | None =>
      _ ← inode_unref i;
      mret (0, Stat (mode nd) (num_links nd) (device_id nd) 0)
  end.

(** ** File descriptions *)

Definition file_description_close (d : nat) : K kstate Z :=
  x ← desc d;
  _ ← ASSERT (0 <? d_ref_count x);
  let n := d_ref_count x - 1 in
  _ ← set_desc d (set_d_ref_count n x);
  if 0 <? n then mret 0
  else
    nd ← node (d_inode x);
    rc ← (match fops_close (fops nd) with Some close => close d | None => mret 0 end);
    if IS_ERR rc then mret rc
    else _ ← free_desc d; _ ← inode_unref (d_inode x); mret 0.

(** The result and the bytes stored to the buffer. *)
Definition file_description_read (d : nat) (count : Z) : K kstate (Z * list Z) :=
  x ← desc d;
  nd ← node (d_inode x);
  if S_ISDIR (mode nd) then mret (ERR EISDIR, [])
  else
    match fops_read (fops nd) with
    | None => mret (ERR EINVAL, [])
    | Some read =>
        if negb (has_flag (d_flags x) O_RDONLY) then mret (ERR EBADF, [])
        else read d count
    end.

Definition file_description_write (d : nat) (bytes : list Z) : K kstate Z :=
  x ← desc d;
  nd ← node (d_inode x);
  if S_ISDIR (mode nd) then mret (ERR EISDIR)
  else
    match fops_write (fops nd) with
    | None => mret (ERR EINVAL)
    | Some write =>
        if negb (has_flag (d_flags x) O_WRONLY) then mret (ERR EBADF) else write d bytes
    end.

(** PAGE_WRITE and PAGE_SHARED are 2 and 512. *)
Definition file_description_mmap (d : nat) (addr length offset page_flags : Z) : K kstate Z :=
  x ← desc d;
  nd ← node (d_inode x);
  match fops_mmap (fops nd) with
  | None => mret (ERR ENODEV)
  | Some mmap =>
      if negb (has_flag (d_flags x) O_RDONLY) then mret (ERR EACCES)
      else if has_flag page_flags 512 && has_flag page_flags 2 &&
              negb (Z.land (d_flags x) O_RDWR =? O_RDWR) then mret (ERR EACCES)
      else mmap d addr length offset page_flags
  end.

Definition file_description_truncate (d : nat) (length : Z) : K kstate Z :=
  x ← desc d;
  nd ← node (d_inode x);
  if S_ISDIR (mode nd) then mret (ERR EISDIR)
  else
    match fops_truncate (fops nd) with
    | None => mret (ERR EROFS)
    | Some truncate =>
        if negb (has_flag (d_flags x) O_WRONLY) then mret (ERR EBADF) else truncate d length
    end.

(** [whence] is SEEK_SET, SEEK_CUR or SEEK_END. *)
Definition file_description_lseek (d : nat) (offset whence : Z) : K kstate Z :=
  new ← (if whence =? 0 then mret (Some (0, offset))
         else if whence =? 1 then
           _ ← lock_mutex (OffsetLock d);
           x ← desc d; mret (Some (0, s32 (d_offset x + offset)))
         else if whence =? 2 then
           x ← desc d;
           _ ← inode_ref (d_inode x);
           '(rc, st) ← inode_stat (d_inode x);
           mret (Some (rc, s32 (st_size st + offset)))
         else mret None);
  match new with
  | None => mret (ERR EINVAL)
  | Some (rc, new_offset) =>
      if IS_ERR rc then mret rc
      else if new_offset <? 0 then
        _ ← unlock_mutex_if_locked (OffsetLock d); mret (ERR EINVAL)
      else
        x ← desc d;
        _ ← set_desc d (set_offset new_offset x);
        _ ← unlock_mutex_if_locked (OffsetLock d);
        mret new_offset
  end.

(** No table of the modelled kinds has an ioctl. *)
Definition file_description_ioctl (d : nat) : K kstate Z :=
  x ← desc d; _ ← node (d_inode x); mret (ERR ENOTTY).

(** The result and the records stored. *)
Definition file_description_getdents (d : nat) (count : Z) : K kstate (Z * list dirent) :=
  x ← desc d;
  nd ← node (d_inode x);
  match fops_getdents (fops nd), S_ISDIR (mode nd) with
  | Some getdents, true =>
      '(rc, ctx) ← getdents (GetdentsCtx [] count 0 false) d;
      if IS_ERR rc then mret (rc, dirp ctx)
      else if (nwritten ctx =? 0) && buffer_is_too_small ctx then mret (ERR EINVAL, dirp ctx)
      else mret (nwritten ctx, dirp ctx)
  | _, _ => mret (ERR ENOTDIR, [])
  end.

(** ** Tables of file descriptors *)

(** A new table; the answer of kmalloc is the argument. *)
Definition file_descriptor_table_init (ok : bool) : Z * list (option nat) :=
  if ok then (0, replicate OPEN_MAX None) else (ERR ENOMEM, []).
Fixpoint close_all (it : list (option nat)) : K kstate unit :=
  match it with
  | [] => mret tt
  | Some d :: it => _ ← file_description_close d; close_all it
  | None :: it => close_all it
  end.
Definition file_descriptor_table_destroy (table : list (option nat)) : K kstate unit :=
  close_all table.
Fixpoint ref_all (it : list (option nat)) : K kstate unit :=
  match it with
  | [] => mret tt
  | Some d :: it =>
      x ← desc d; _ ← set_desc d (set_d_ref_count (u32 (d_ref_count x + 1)) x); ref_all it
  | None :: it => ref_all it
  end.
Definition file_descriptor_table_clone_from (from : list (option nat))
    : K kstate (Z * list (option nat)) :=
  ok ← kmalloc_ok;
  if negb ok then mret (ERR ENOMEM, []) else _ ← ref_all from; mret (0, from).

(** ** Facts *)

Lemma inode_open_fifo s i refs buf r w flags m :
  grants s = [] → inodes s !! i = Some (fifo_inode refs buf r w) →
  has_flag flags O_RDONLY && has_flag flags O_WRONLY = false →
  inode_open i flags m s = Done (PTR (fresh_desc s))
    (with_inodes <[i := fifo_inode refs buf
                          (if has_flag flags O_RDONLY then u32 (r + 1) else r)
                          (if has_flag flags O_WRONLY then u32 (w + 1) else w)]>
      (with_descs <[fresh_desc s := FileDescription i flags 0 1]> s)).
Proof.
  intros Hg Hi Hfl. unfold inode_open. rewrite (bind_run _ _ _ _ _ (node_run _ _ _ Hi)).
  change (S_ISDIR (Kernel.mode (fifo_inode refs buf r w))) with false. cbn [andb].
  rewrite (bind_run _ _ _ _ _ (kmalloc_run s Hg)). cbn [negb].
  unfold mbind at 1, K_bind at 1, get. unfold mbind at 1, K_bind at 1, set_desc, modify.
  cbn [fifo_inode fops fops_open].
  set (d := fresh_desc s). set (s1 := with_descs _ s).
  assert (fifo_at s1 d (FileDescription i flags 0 1) (fifo_inode refs buf r w) buf r w) as Hf.
  { split_and!; [apply lookup_insert_eq|exact Hi|done]. }
  assert (fifo_open d flags s1 = Done 0 (with_inodes <[i := fifo_inode refs buf
      (if has_flag flags O_RDONLY then u32 (r + 1) else r)
      (if has_flag flags O_WRONLY then u32 (w + 1) else w)]> s1)) as Ho.
  { unfold fifo_open. rewrite Hfl. destruct Hf as (Hx & _).
    rewrite (bind_run _ _ _ _ _ (desc_run _ _ _ Hx)).
    rewrite (bind_run _ _ _ _ _ (fifo_of_run s1 d _ _ buf r w (conj Hx (conj Hi eq_refl)))).
    cbv beta iota. cbn [d_inode]. unfold set_fifo.
    unfold mbind at 1, K_bind at 1. assert (inodes s1 !! i = Some (fifo_inode refs buf r w)) as Hi1 by done.
    rewrite (bind_run _ _ _ _ _ (node_run _ _ _ Hi1)). done. }
  rewrite (bind_run _ _ _ _ _ Ho). done.
Qed.

(** The last reference to a description without a close operation, when its inode
    lives on. *)
Lemma file_description_close_run s d x nd :
  descs s !! d = Some x → d_ref_count x = 1 →
  inodes s !! d_inode x = Some nd → fops_close (fops nd) = None →
  0 < ref_count nd < U32 → (ref_count nd ≠ 1 ∨ num_links nd ≠ 0) →
  file_description_close d s = Done 0 (bump (d_inode x) (-1) (with_descs (delete d) s)).
Proof.
  intros Hx Hr Hnd Hc Hrc Hor.
  unfold file_description_close. rewrite (bind_run _ _ _ _ _ (desc_run _ _ _ Hx)), Hr.
  change (ASSERT (0 <? 1)) with (mret tt : K kstate unit). change (0 <? 1 - 1) with false. cbv iota.
  unfold mbind at 1, K_bind at 1, mret, K_ret. unfold mbind at 1, K_bind at 1, set_desc, modify.
  set (s1 := with_descs _ s). assert (inodes s1 !! d_inode x = Some nd) as H1 by done.
  rewrite (bind_run _ _ _ _ _ (node_run _ _ _ H1)), Hc.
  unfold mbind at 1, K_bind at 1. change (IS_ERR 0) with false. cbv iota.
  unfold mbind at 1, K_bind at 1, free_desc, modify.
  assert (with_descs (delete d) s1 = with_descs (delete d) s) as ->.
  { unfold s1, with_descs. cbn. by rewrite delete_insert_eq. }
  by rewrite (bind_run _ _ _ _ _ (inode_unref_run _ nd (with_descs (delete d) s) Hnd Hrc Hor)).
Qed.
