(* ===== verification/Vfs.v ===== *)
(** * Mounts, devices and paths to inodes (kernel/fs/vfs.c) *)
From stdpp Require Import fin_maps.
From S2P Require Import Prelude Errno CString GrowableBuf Kernel Inode Path Tmpfs Fs.

(** The list ends with the newest mount point. *)
Definition mount_at (host guest : nat) : K kstate Z :=
  ok ← kmalloc_ok;
  if negb ok then _ ← inode_unref host; _ ← inode_unref guest; mret (ERR ENOMEM)
  else
    s ← get;
    _ ← put (with_mounts (root s) (mount_points s ++ [(host, guest)]) (devices s) s);
    mret 0.

Fixpoint find_guest (host : nat) (it : list (nat * nat)) : K kstate (option nat) :=
  match it with
  | [] => _ ← inode_unref host; mret None
  | (h, guest) :: next =>
      if (h =? host)%nat then _ ← inode_unref host; _ ← inode_ref guest; mret (Some guest)
      else find_guest host next
  end.
Definition find_mounted_guest (host : nat) : K kstate (option nat) :=
  s ← get; find_guest host (mount_points s).

Definition vfs_get_root : K kstate nat :=
  s ← get;
  match root s with
  | None => panic
  | Some root => _ ← inode_ref root; mret root
  end.

Fixpoint mount_walk (parent : nat) (tokens : list (list Z)) : K kstate (ptr_res nat) :=
  match tokens with
  | [] => mret (PTR parent)
  | component :: tokens =>
      child ← inode_lookup_child parent component;
      match child with
      | ERR_PTR rc => mret (ERR_PTR rc)
      | PTR child => mount_walk child tokens
      end
  end.
Definition vfs_mount (path : list Z) (fs_root : nat) : K kstate Z :=
  _ ← ASSERT (is_absolute_path path);
  if is_root_path path then
    s ← get; _ ← put (with_mounts (Some fs_root) (mount_points s) (devices s) s); mret 0
  else
    ok ← kmalloc_ok; (* kstrdup *)
    _ ← ASSERT ok;
    parent ← vfs_get_root;
    tokens ← strtok_all path PATH_SEPARATOR_STR;
    parent ← mount_walk parent tokens;
    match parent with
    | ERR_PTR rc => mret rc
    | PTR parent => mount_at parent fs_root
    end.

(** Whether a registered device has the number [id]. *)
Fixpoint search_device (id : Z) (it : list nat) : K kstate (option nat) :=
  match it with
  | [] => mret None
  | i :: next =>
      nd ← node i; if device_id nd =? id then mret (Some i) else search_device id next
  end.
Definition vfs_register_device (i : nat) : K kstate Z :=
  nd ← node i;
  s ← get;
  r ← search_device (device_id nd) (devices s);
  match r with
  | Some _ => _ ← inode_unref i; mret (ERR EEXIST)
  | None =>
      ok ← kmalloc_ok;
      if negb ok then mret (ERR ENOMEM)
      else
        s ← get;
        _ ← put (with_mounts (root s) (mount_points s) (devices s ++ [i]) s);
        mret 0
  end.
Definition find_device (id : Z) : K kstate (option nat) :=
  s ← get;
  r ← search_device id (devices s);
  match r with
  | Some i => _ ← inode_ref i; mret (Some i)
  | None => mret None
  end.

(** The result with [*out_parent] and [*out_basename]; [want] says whether the
    caller passes pointers for them. *)
Record resolved : Type := Resolved {
  r_inode : ptr_res nat;
  out_parent : option nat;
  out_basename : option (list Z);
}.

Fixpoint resolve_components (want : bool) (parent : nat) (component_list : list (list Z))
    : K kstate resolved :=
  match component_list with
  | [] => mret (Resolved (PTR parent) None None)
  | component :: next =>
      let last := bool_decide (next = []) in
      dup ← (if last && want then kmalloc_ok (* kstrdup *) else mret true);
      if negb dup then
        _ ← inode_unref parent; mret (Resolved (ERR_PTR (ERR ENOMEM)) None None)
      else
        _ ← when (last && want) (inode_ref parent);
        let out_parent := if last && want then Some parent else None in
        let out_basename := if last && want then Some component else None in
        child ← inode_lookup_child parent component;
        match child with
        | ERR_PTR rc => mret (Resolved (ERR_PTR rc) out_parent out_basename)
        | PTR child =>
            _ ← inode_ref child;
            guest ← find_mounted_guest child;
            child ← (match guest with
                     | Some guest => _ ← inode_unref child; mret guest
                     | None => mret child
                     end);
            if last then mret (Resolved (PTR child) out_parent out_basename)
            else resolve_components want child next
        end
  end.
Definition vfs_resolve_path (pathname : list Z) (want : bool) : K kstate resolved :=
  '(rc, component_list, num_components) ← create_path_component_list pathname;
  if IS_ERR rc then mret (Resolved (ERR_PTR rc) None None)
  else if num_components =? 0 then
    root ← vfs_get_root; mret (Resolved (PTR root) None None)
  else
    parent ← vfs_get_root; resolve_components want parent component_list.

(** The loop of create_inode; another process may create and remove the name
    between the two calls, and only then is there another round. *)
Fixpoint create_retry (fuel parent : nat) (basename : list Z) (mode : Z) (exclusive : bool)
    : K kstate (ptr_res nat) :=
  match fuel with
  | O => out_of_fuel
  | S fuel =>
      _ ← inode_ref parent;
      inode ← inode_create_child parent basename mode;
      match inode with
      | PTR i => mret (PTR i)
      | ERR_PTR rc =>
          if negb (rc =? ERR EEXIST) || exclusive then mret (ERR_PTR rc)
          else
            _ ← inode_ref parent;
            inode ← inode_lookup_child parent basename;
            match inode with
            | PTR i => mret (PTR i)
            | ERR_PTR rc =>
                if negb (rc =? ERR ENOENT) then mret (ERR_PTR rc)
                else create_retry fuel parent basename mode exclusive
            end
      end
  end.
Definition create_inode (pathname : list Z) (mode : Z) (exclusive : bool)
    : K kstate (ptr_res nat) :=
  r ← vfs_resolve_path pathname true;
  match r_inode r with
  | PTR i =>
      _ ← inode_unref_opt (out_parent r);
      if exclusive then _ ← inode_unref i; mret (ERR_PTR (ERR EEXIST)) else mret (PTR i)
  | ERR_PTR rc =>
      match rc =? ERR ENOENT, out_parent r with
      | true, Some parent =>
          name ← access (out_basename r);
          inode ← create_retry 1 parent name mode exclusive;
          _ ← inode_unref parent;
          mret inode
      | _, _ => _ ← inode_unref_opt (out_parent r); mret (ERR_PTR rc)
      end
  end.
Definition vfs_create (pathname : list Z) (mode : Z) : K kstate (ptr_res nat) :=
  create_inode pathname mode true.

(** A device node stands for the registered device of its number. *)
Definition device_of (i : nat) : K kstate (ptr_res nat) :=
  nd ← node i;
  if S_ISBLK (mode nd) || S_ISCHR (mode nd) then
    device ← find_device (device_id nd);
    _ ← inode_unref i;
    match device with
    | None => mret (ERR_PTR (ERR ENODEV))
    | Some device => mret (PTR device)
    end
  else mret (PTR i).

Definition vfs_open (pathname : list Z) (flags mode : Z) : K kstate (ptr_res nat) :=
  inode ← (if has_flag flags O_CREAT then create_inode pathname mode (has_flag flags O_EXCL)
           else r ← vfs_resolve_path pathname false; mret (r_inode r));
  match inode with
  | ERR_PTR rc => mret (ERR_PTR rc)
  | PTR i =>
      inode ← device_of i;
      match inode with
      | ERR_PTR rc => mret (ERR_PTR rc)
      | PTR i => inode_open i flags mode
      end
  end.

Definition vfs_stat (pathname : list Z) : K kstate (Z * option stat) :=
  r ← vfs_resolve_path pathname false;
  match r_inode r with
  | ERR_PTR rc => mret (rc, None)
  | PTR i =>
      inode ← device_of i;
      match inode with
      | ERR_PTR rc => mret (rc, None)
      | PTR i => '(rc, st) ← inode_stat i; mret (rc, Some st)
      end
  end.

(** ** What a path resolves to *)

(** The entries of inode [i], if it can be searched. *)
Definition entries (s : kstate) (i : nat) : option (list dentry) :=
  match inodes s !! i with
  | Some nd =>
      match fops nd, S_ISDIR (mode nd), data nd with
      | dir_fops, true, TmpfsData _ l => Some l
      | _, _, _ => None
      end
  | None => None
  end.
Definition child_of (s : kstate) (i : nat) (name : list Z) : ptr_res nat :=
  match entries s i with
  | None => ERR_PTR (ERR ENOTDIR)
  | Some l => match entry l name with Some c => PTR c | None => ERR_PTR (ERR ENOENT) end
  end.
(** The first file system mounted on [i], or [i]. *)
Fixpoint guest_of (it : list (nat * nat)) (i : nat) : nat :=
  match it with
  | [] => i
  | (h, g) :: next => if decide (h = i) then g else guest_of next i
  end.
(** The walk along [names] from [parent], without counts. *)
Fixpoint walk (s : kstate) (want : bool) (parent : nat) (names : list (list Z)) : resolved :=
  match names with
  | [] => Resolved (PTR parent) None None
  | name :: next =>
      let out (r : ptr_res nat) :=
        if decide (next = []) then
          Resolved r (if want then Some parent else None) (if want then Some name else None)
        else Resolved r None None in
      match child_of s parent name with
      | ERR_PTR rc => out (ERR_PTR rc)
      | PTR c =>
          let c := guest_of (mount_points s) c in
          if decide (next = []) then out (PTR c) else walk s want c next
      end
  end.
(** A reference taken to the inode of a result, if it is one. *)
Definition hold (r : ptr_res nat) (s : kstate) : kstate :=
  match r with PTR i => bump i 1 s | ERR_PTR _ => s end.
Definition hold_opt (i : option nat) (s : kstate) : kstate :=
  match i with Some i => bump i 1 s | None => s end.
Definition hold_all (r : resolved) (s : kstate) : kstate :=
  hold (r_inode r) (hold_opt (out_parent r) s).

(** Every inode a walk can meet has a reference already, and room for [n] more;
    no mutex is held. *)
Record fs_ok (n : Z) (s : kstate) : Prop := FsOk {
  ok_entries : ∀ i l name c, entries s i = Some l → (name, c) ∈ l → room n c s;
  ok_dirs : ∀ i nd, inodes s !! i = Some nd → fops nd = dir_fops →
    ∃ b l, data nd = TmpfsData b l;
  ok_root : ∃ r, root s = Some r ∧ room n r s;
  ok_guests : ∀ h g, (h, g) ∈ mount_points s → room n g s;
  ok_locks : locks s = ∅;
}.

Lemma entries_bump i n s j : entries (bump i n s) j = entries s j.
Proof.
  unfold entries. destruct (decide (i = j)) as [->|]; [|by rewrite lookup_bump_ne].
  rewrite lookup_bump. by destruct (inodes s !! j).
Qed.
Lemma child_of_bump i n s j name : child_of (bump i n s) j name = child_of s j name.
Proof. unfold child_of. by rewrite entries_bump. Qed.
Lemma fs_ok_bump n i s : fs_ok (n + 1) s → 0 ≤ n → fs_ok n (bump i 1 s).
Proof.
  intros [He Hd (r & Hr & Hrr) Hg Hl] Hn. split.
  - intros j l name c. rewrite entries_bump. intros. apply room_bump; eauto.
  - intros j nd Hnd. destruct (decide (i = j)) as [->|].
    + rewrite lookup_bump in Hnd. destruct (inodes s !! j) as [nd'|] eqn:E; [|done].
      injection Hnd as <-. exact (Hd j nd' E).
    + rewrite lookup_bump_ne in Hnd by done. by apply (Hd j).
  - exists r. split; [done|]. by apply room_bump.
  - intros h g Hin. apply room_bump; eauto.
  - done.
Qed.
Lemma fs_ok_mono n m s : fs_ok n s → m ≤ n → fs_ok m s.
Proof.
  intros [He Hd (r & Hr & Hrr) Hg Hl] Hn. split; eauto using room_mono.
Qed.
Lemma fs_ok_allocs n s s' : allocs s s' → fs_ok n s → fs_ok n s'.
Proof. intros (g & -> & _) [He Hd Hr Hg Hl]. by split. Qed.
Lemma child_of_room n s i name c : fs_ok n s → child_of s i name = PTR c → room n c s.
Proof.
  intros Hok. unfold child_of. destruct (entries s i) as [l|] eqn:E; [|done].
  destruct (entry l name) eqn:En; [|done]. intros [= ->]. eapply (ok_entries n s Hok); [done|].
  by apply entry_in.
Qed.
Lemma guest_of_room n s c : fs_ok n s → room n c s → room n (guest_of (mount_points s) c) s.
Proof.
  intros Hok Hc. pose proof (ok_guests n s Hok) as Hg. revert Hg.
  induction (mount_points s) as [|[h g] l IH]; intros Hg; simpl; [done|].
  case_decide; [apply (Hg h); left|]. apply IH. intros h' g' ?. apply (Hg h'). by right.
Qed.

Lemma inode_lookup_spec s i name :
  fs_ok 2 s → room 2 i s →
  wp (inode_lookup_child i name) (λ r s', r = child_of s i name ∧ s' = hold r s) (bump i 1 s).
Proof.
  intros Hok Hi. pose proof Hi as (nd & Hnd & _). unfold inode_lookup_child.
  destruct (lookup_bump_Some i 1 s i nd Hnd) as [r Hr].
  wp_keep. eapply wp_node; [exact Hr|]. cbn [set_ref_count fops mode].
  assert (child_of s i name = ERR_PTR (ERR ENOTDIR) →
    wp (_ ← inode_unref i; mret (ERR_PTR (ERR ENOTDIR)))
      (λ r s', r = child_of s i name ∧ s' = hold r s) (bump i 1 s)) as Hnot.
  { intros ->. wp_keep. apply wp_unref_bump; [by eapply room_mono|]. by wp_keep. }
  destruct (decide (fops nd = dir_fops)) as [Hf|Hf].
  2: { assert (fops_lookup_child (fops nd) = None) as -> by by destruct (fops nd).
       apply Hnot. unfold child_of, entries. rewrite Hnd. by destruct (fops nd). }
  destruct (ok_dirs 2 s Hok i nd Hnd Hf) as (b & l & Hdata). rewrite Hf. cbn [fops_lookup_child].
  destruct (S_ISDIR (mode nd)) eqn:Hm.
  2: { apply Hnot. unfold child_of, entries. by rewrite Hnd, Hf, Hm. }
  assert (entries s i = Some l) as He by (unfold entries; by rewrite Hnd, Hf, Hm, Hdata).
  eapply wp_mono; [apply (tmpfs_lookup_spec s i l name)|].
  - by exists nd, b.
  - by rewrite (ok_locks 2 s Hok).
  - done.
  - intros m c Hin. eapply room_mono; [by eapply (ok_entries 2 s Hok)|lia].
  - intros r' s'. unfold child_of. rewrite He. destruct (entry l name); intros [-> ->]; done.
Qed.

(** The step over a mount point. *)
Lemma find_guest_spec s c it :
  room 2 c s → (∀ h g, (h, g) ∈ it → room 2 g s) →
  wp (find_guest c it) (λ r s',
    match r with
    | None => guest_of it c = c ∧ s' = bump c 1 s
    | Some g => guest_of it c = g ∧ s' = bump c 1 (bump g 1 s)
    end) (bump c 1 (bump c 1 s)).
Proof.
  intros Hc. induction it as [|[h g] it IH]; intros Hg; cbn [find_guest guest_of].
  - wp_keep. apply wp_unref_bump; [by apply room_bump|]. by wp_keep.
  - destruct (Nat.eqb_spec h c) as [->|Hh].
    + rewrite decide_True by done. wp_keep. apply wp_unref_bump; [by apply room_bump|]. wp_keep.
      apply wp_inode_ref.
      { destruct (Hg c g) as (nd & Hnd & _); [left|]. destruct (lookup_bump_Some c 1 s g nd Hnd) as [r Hr].
        by eexists. }
      wp_keep. split; [done|apply bump_comm].
    + rewrite decide_False by done. apply IH. intros h' g' ?. apply (Hg h'). by right.
Qed.
Lemma mounted_spec s c :
  fs_ok 2 s → room 2 c s →
  wp (guest ← find_mounted_guest c;
      match guest with Some guest => _ ← inode_unref c; mret guest | None => mret c end)
     (λ r s', r = guest_of (mount_points s) c ∧ s' = bump r 1 s) (bump c 1 (bump c 1 s)).
Proof.
  intros Hok Hc. unfold find_mounted_guest. wp_keep.
  eapply wp_mono; [apply (find_guest_spec s c (mount_points s) Hc)|].
  { intros h g. apply (ok_guests 2 s Hok). }
  intros [g|] s' [Hgo ->].
  - wp_keep. apply wp_unref_bump.
    + apply room_bump; [|lia]. eapply room_mono; [exact Hc|lia].
    + wp_keep. by rewrite Hgo.
  - wp_keep. by rewrite Hgo.
Qed.

Lemma walk_same s s' want p names :
  inodes s' = inodes s → mount_points s' = mount_points s → walk s' want p names = walk s want p names.
Proof.
  intros Hi Hm. revert p. induction names as [|name next IH]; intros p; cbn [walk]; [done|].
  assert (child_of s' p name = child_of s p name) as -> by (unfold child_of, entries; by rewrite Hi).
  destruct (child_of s p name); [|done]. rewrite Hm. case_decide; [done|apply IH].
Qed.

(** The outcome of a resolution that means [r]: its references are taken and
    nothing else happened; or a kmalloc failed and nothing happened at all. *)
Definition resolves (s : kstate) (r : resolved) (r' : resolved) (s' : kstate) : Prop :=
  ∃ s1, allocs s s1 ∧
    ((r' = r ∧ s' = hold_all r s1) ∨
     (grants s ≠ [] ∧ r' = Resolved (ERR_PTR (ERR ENOMEM)) None None ∧ s' = s1)).
Lemma resolves_trans s s1 r r' s' :
  allocs s s1 → resolves s1 r r' s' → resolves s r r' s'.
Proof.
  intros H (s2 & H2 & Hr). exists s2. split; [by etrans|].
  destruct Hr as [?|[Hg ?]]; [by left|right]. split; [|done].
  intros E. by apply Hg, (allocs_memory s).
Qed.

(** One component, from the reference to [p] on. *)
Lemma step_component s p name (last want : bool) (Q : resolved → kstate → Prop) k :
  fs_ok 3 s → room 3 p s →
  let out := if last && want then Some p else None in
  let base := if last && want then Some name else None in
  (∀ rc, child_of s p name = ERR_PTR rc → Q (Resolved (ERR_PTR rc) out base) (hold_opt out s)) →
  (∀ c, child_of s p name = PTR c → let c := guest_of (mount_points s) c in
     wp (if last then mret (Resolved (PTR c) out base) else k c) Q (bump c 1 (hold_opt out s))) →
  wp (_ ← when (last && want) (inode_ref p);
      child ← inode_lookup_child p name;
      match child with
      | ERR_PTR rc => mret (Resolved (ERR_PTR rc) out base)
      | PTR child =>
          _ ← inode_ref child;
          guest ← find_mounted_guest child;
          child ← (match guest with
                   | Some guest => _ ← inode_unref child; mret guest
                   | None => mret child
                   end);
          if last then mret (Resolved (PTR child) out base) else k child
      end) Q (bump p 1 s).
Proof.
  intros Hok Hp out base Herr Hptr. wp_keep.
  set (s0 := hold_opt out s) in *.
  assert (fs_ok 2 s0 ∧ room 2 p s0 ∧ (∀ n, child_of s0 p n = child_of s p n) ∧
          mount_points s0 = mount_points s) as (Hok0 & Hp0 & Hch & Hmp).
  { unfold s0, out. destruct (last && want); simpl.
    - split_and!; [by apply fs_ok_bump|by apply room_bump|intros; apply child_of_bump|done].
    - split_and!; [eapply fs_ok_mono; [done|lia]|eapply room_mono; [done|lia]|done|done]. }
  apply (wp_mono _ (λ _ s', s' = bump p 1 s0)).
  { unfold s0, out. apply wp_when; intros ->; simpl; [|done].
    apply wp_inode_ref; [|done]. by eapply room_some, (room_bump 2). }
  intros _ s' ->. wp_keep. eapply wp_mono; [by apply inode_lookup_spec|].
  intros r s' [-> ->]. rewrite Hch. destruct (child_of s p name) as [c|rc] eqn:E; cbn [hold].
  2: { wp_keep. by apply Herr. }
  assert (room 2 c s0) as Hc by (apply (child_of_room 2 s0 p name); [done|by rewrite Hch]).
  wp_keep. apply wp_inode_ref; [by eapply room_some, (room_bump 1)|].
  pose proof (mounted_spec s0 c Hok0 Hc) as Hm. rewrite Hmp in Hm.
  apply wp_assoc, wp_bind. eapply wp_mono; [exact Hm|].
  intros c' s2 [-> ->]. by apply Hptr.
Qed.

Lemma resolve_components_spec s want p names :
  fs_ok 3 s → room 3 p s →
  wp (resolve_components want p names) (resolves s (walk s want p names)) (bump p 1 s).
Proof.
  revert s p. induction names as [|name next IH]; intros s p Hok Hp; cbn [resolve_components walk].
  { wp_keep. exists s. split; [done|by left]. }
  cbv zeta. set (last := bool_decide (next = [])).
  apply wp_bind.
  apply (wp_mono _ (λ (ok : bool) s', ∃ s1, allocs s s1 ∧ s' = bump p 1 s1 ∧
                     (ok = false → grants s ≠ []))).
  { apply wp_if; intros.
    - apply wp_kmalloc. intros ok s' (g & -> & Hg) Hok'. exists (with_grants g s).
      split; [by exists g|]. split; [done|]. intros -> E. by specialize (Hok' E).
    - wp_keep. exists s. done. }
  intros ok s' (s1 & H1 & -> & Hmem).
  assert (fs_ok 3 s1 ∧ room 3 p s1 ∧ (∀ n, child_of s1 p n = child_of s p n) ∧
          mount_points s1 = mount_points s ∧ inodes s1 = inodes s) as (Hok1 & Hp1 & Hch & Hmp & Hin).
  { split; [by eapply fs_ok_allocs|]. destruct H1 as (g & -> & _). done. }
  destruct ok; cbn [negb].
  2: { wp_keep. apply wp_unref_bump; [eapply room_mono; [done|lia]|]. wp_keep.
       exists s1. split; [done|right]. auto. }
  apply (step_component s1 p name last want); [done|done|..]; rewrite Hch, ?Hmp.
  - intros rc ->. exists s1. split; [done|]. left. unfold last.
    destruct (bool_decide_reflect (next = [])) as [->|Hn].
    + rewrite decide_True by done. by destruct want.
    + by rewrite decide_False.
  - intros c Hc. rewrite Hc. unfold last. destruct (bool_decide_reflect (next = [])) as [->|Hn].
    + rewrite decide_True by done. wp_keep. exists s1. split; [done|]. left. by destruct want.
    + rewrite decide_False by done. cbn [andb hold_opt].
      rewrite <-(walk_same s s1) by done. eapply wp_mono; [apply IH|].
      * done.
      * rewrite <-Hmp. apply guest_of_room; [done|]. by apply (child_of_room 3 s1 p name); [|by rewrite Hch].
      * intros r s'. by apply resolves_trans.
Qed.

(** What a walk hands out has references, and the last name is an entry of the
    parent. *)
Lemma walk_room n s want p names i :
  fs_ok n s → room n p s → r_inode (walk s want p names) = PTR i → room n i s.
Proof.
  intros Hok. revert p. induction names as [|name next IH]; intros p Hp; cbn [walk].
  { by intros [= <-]. }
  destruct (child_of s p name) as [c|rc] eqn:E; [|by case_decide].
  pose proof (guest_of_room n s c Hok (child_of_room n s p name c Hok E)) as Hg.
  case_decide; [|by apply IH]. by intros [= <-].
Qed.
Lemma walk_parent n s want p names d :
  fs_ok n s → room n p s → out_parent (walk s want p names) = Some d →
  room n d s ∧ ∃ name, out_basename (walk s want p names) = Some name ∧
    match r_inode (walk s want p names) with
    | PTR i => ∃ c, child_of s d name = PTR c ∧ i = guest_of (mount_points s) c
    | ERR_PTR rc => child_of s d name = ERR_PTR rc
    end.
Proof.
  intros Hok. revert p. induction names as [|name next IH]; intros p Hp; cbn [walk]; [done|].
  destruct (child_of s p name) as [c|rc] eqn:E.
  - pose proof (guest_of_room n s c Hok (child_of_room n s p name c Hok E)) as Hg.
    case_decide; [|by apply IH]. destruct want; [|done]. intros [= <-]. cbn.
    split; [done|]. exists name. split; [done|]. by exists c.
  - case_decide; [|done]. destruct want; [|done]. intros [= <-]. cbn.
    split; [done|]. by exists name.
Qed.

Lemma vfs_resolve_path_wp s p path want r :
  fs_ok 3 s → procs s !! current s = Some p → root s = Some r →
  Forall (λ c, c ≠ 0) (cwd_path p) → Forall (λ c, c ≠ 0) path →
  wp (vfs_resolve_path path want)
     (resolves s (walk s want r (components (cwd_path p) path))) s.
Proof.
  intros Hok Hp Hr Hcwd Hpath. unfold vfs_resolve_path. wp_keep.
  eapply wp_mono; [by apply create_path_spec|].
  intros [[rc l] n] s1 [H1 [[= -> -> ->]|[Hg Hrc]]]; cycle 1.
  { simpl in Hrc. subst rc. change (IS_ERR (ERR ENOMEM)) with true. cbv iota. wp_keep.
    exists s1. split; [done|]. by right. }
  assert (fs_ok 3 s1) as Hok1 by by eapply fs_ok_allocs.
  assert (root s1 = Some r) as Hr1 by (destruct H1 as (g & -> & _); done).
  destruct (ok_root 3 s1 Hok1) as (r' & Hr' & Hroom). assert (r' = r) as -> by congruence.
  assert (∀ Q : nat → kstate → Prop, Q r (bump r 1 s1) → wp vfs_get_root Q s1) as Hroot.
  { intros Q HQ. unfold vfs_get_root. wp_keep. rewrite Hr1. wp_keep.
    apply wp_inode_ref; [by eapply room_some|]. by wp_keep. }
  assert (∀ names, walk s1 want r names = walk s want r names) as Hw.
  { intros. apply walk_same; by destruct H1 as (g & -> & _). }
  change (IS_ERR 0) with false. cbv iota.
  destruct (components (cwd_path p) path) as [|c l] eqn:E.
  - change (Z.of_nat (length []) =? 0) with true. cbv iota. wp_keep. apply Hroot. wp_keep.
    exists s1. split; [done|]. by left.
  - rewrite (proj2 (Z.eqb_neq _ 0)) by (simpl; lia). wp_keep. apply Hroot. wp_keep.
    eapply wp_mono; [by apply resolve_components_spec|]. rewrite Hw.
    intros r1 s2. by apply resolves_trans.
Qed.

(** ** Properties *)

(** C3: path resolution. On a file system whose reachable inodes are held, the
    result is the inode, or the error, that the walk along the normalised
    components from the root, crossing mount points, comes to, with the parent
    directory and the last name if the caller asks for them. One reference is
    taken to each inode handed out and every other count, entry and mutex is as
    before, on the error paths too. Without memory the answer is -ENOMEM and
    nothing is held. *)
Theorem vfs_resolve_path_spec s p path want r :
  fs_ok 3 s → procs s !! current s = Some p → root s = Some r →
  Forall (λ c, c ≠ 0) (cwd_path p) → Forall (λ c, c ≠ 0) path →
  wp (vfs_resolve_path path want)
     (resolves s (walk s want r (components (cwd_path p) path))) s.
Proof. apply vfs_resolve_path_wp. Qed.

(** ** A checker for concrete file systems *)
Definition roomb (n : Z) (i : nat) (s : kstate) : bool :=
  match inodes s !! i with
  | Some nd => (0 <? ref_count nd) && (ref_count nd + n <? U32)
  | None => false
  end.
Lemma roomb_sound n i s : roomb n i s = true → room n i s.
Proof.
  unfold roomb. destruct (inodes s !! i) as [nd|] eqn:E; [|done]. intros. bool_to_prop.
  by exists nd.
Qed.
Definition fs_okb (n : Z) (s : kstate) : bool :=
  forallb (λ x : nat * inode,
    match fops x.2, data x.2 with
    | dir_fops, TmpfsData _ l => forallb (λ e : dentry, roomb n e.2 s) l
    | dir_fops, _ => false
    | _, _ => true
    end) (map_to_list (inodes s)) &&
  match root s with Some r => roomb n r s | None => false end &&
  forallb (λ m : nat * nat, roomb n m.2 s) (mount_points s) &&
  bool_decide (locks s = ∅).
Lemma forallb_in {A} (f : A → bool) l x : forallb f l = true → x ∈ l → f x = true.
Proof. intros H Hx. rewrite forallb_forall in H. apply H. by apply list_elem_of_In. Qed.
Lemma fs_okb_sound n s : fs_okb n s = true → fs_ok n s.
Proof.
  unfold fs_okb. intros [[[Hi Hr]%andb_true_iff Hm]%andb_true_iff Hl]%andb_true_iff.
  apply bool_decide_eq_true in Hl. split; [..|done].
  - intros i l name c. unfold entries. destruct (inodes s !! i) as [nd|] eqn:E; [|done].
    apply elem_of_map_to_list in E. pose proof (forallb_in _ _ _ Hi E) as Hn. simpl in Hn.
    destruct (fops nd), (S_ISDIR (mode nd)), (data nd); try done. intros [= ->] Hin.
    apply roomb_sound. apply (forallb_in _ _ _ Hn Hin).
  - intros i nd E Hf. apply elem_of_map_to_list in E. pose proof (forallb_in _ _ _ Hi E) as Hn.
    simpl in Hn. rewrite Hf in Hn. destruct (data nd); try done. by eexists _, _.
  - destruct (root s) as [r|]; [|done]. exists r. split; [done|]. by apply roomb_sound.
  - intros h g Hin. apply roomb_sound. apply (forallb_in _ _ _ Hm Hin).
Qed.

(** ** Witnesses

    /bin (inode 1) holds sh (2), a file; on /mnt (3) a second file system with
    root 4 is mounted, which holds a (5). *)
Definition file_inode (n : Z) (b : growable_buf) : inode :=
  Inode (Some 0%nat) non_dir_fops 0 None n n (Z.lor S_IFREG 0x1ff) (TmpfsData b []).
Definition dir_inode (fs : nat) (links refs : Z) (l : list dentry) : inode :=
  Inode (Some fs) dir_fops 0 None links refs S_IFDIR (TmpfsData growable_buf_zero l).
Definition sample_fs (cwd : list Z) : kstate :=
  KState
    (list_to_map [(0%nat, dir_inode 0 0 1 [(lit "bin", 1%nat); (lit "mnt", 3%nat)]);
                  (1%nat, dir_inode 0 1 1 [(lit "sh", 2%nat)]);
                  (2%nat, file_inode 1 growable_buf_zero);
                  (3%nat, dir_inode 0 1 1 []);
                  (4%nat, dir_inode 4 0 1 [(lit "a", 5%nat)]);
                  (5%nat, file_inode 1 growable_buf_zero)])
    ∅ (Some 0%nat) [(3%nat, 4%nat)] [] ∅ {[0%nat := process_at cwd]} [0%nat] [] None 0 2 1 [].
Lemma sample_fs_ok cwd : fs_ok 3 (sample_fs cwd).
Proof. apply fs_okb_sound. reflexivity. Qed.
Example walk_example :
  walk (sample_fs (lit "/bin")) true 0 (components (lit "/bin") (lit "../mnt/a")) =
    Resolved (PTR 5%nat) (Some 4%nat) (Some (lit "a")).
Proof. reflexivity. Qed.
Lemma vfs_resolve_path_spec_witness :
  wp (vfs_resolve_path (lit "../mnt/a") true)
     (resolves (sample_fs (lit "/bin"))
        (walk (sample_fs (lit "/bin")) true 0 (components (lit "/bin") (lit "../mnt/a"))))
     (sample_fs (lit "/bin")).
Proof.
  apply (vfs_resolve_path_spec (sample_fs (lit "/bin")) (process_at (lit "/bin"))
    (lit "../mnt/a") true 0 (sample_fs_ok (lit "/bin"))).
  - apply lookup_singleton_eq.
  - reflexivity.
  - repeat constructor; vm_compute; congruence.
  - repeat constructor; vm_compute; congruence.
Defined.
