(* ===== verification/SyscallFs.v ===== *)
(** * File system calls (kernel/syscall/fs.c)

    A pointer argument of the process is the value stored there; a buffer that
    the call fills is part of its result. *)
From stdpp Require Import fin_maps.
From S2P Require Import Prelude Errno RingBuf GrowableBuf Kernel Inode Path Tmpfs Process Fifo Fs Vfs.

Definition sys_open (pathname : list Z) (flags mode : Z) : K kstate Z :=
  d ← vfs_open pathname flags (Z.lor (Z.land mode 0x1ff) S_IFREG);
  match d with
  | ERR_PTR rc => mret rc
  | PTR d => process_alloc_file_descriptor (-1) d
  end.

Definition sys_close (fd : Z) : K kstate Z :=
  d ← process_get_file_description fd;
  match d with
  | ERR_PTR rc => mret rc
  | PTR d =>
      rc ← file_description_close d;
      if IS_ERR rc then mret rc else process_free_file_descriptor fd
  end.

Definition sys_read (fd count : Z) : K kstate (Z * list Z) :=
  d ← process_get_file_description fd;
  match d with
  | ERR_PTR rc => mret (rc, [])
  | PTR d => file_description_read d count
  end.
Definition sys_write (fd : Z) (buf : list Z) : K kstate Z :=
  d ← process_get_file_description fd;
  match d with
  | ERR_PTR rc => mret rc
  | PTR d => file_description_write d buf
  end.
Definition sys_ftruncate (fd length : Z) : K kstate Z :=
  d ← process_get_file_description fd;
  match d with
  | ERR_PTR rc => mret rc
  | PTR d => file_description_truncate d length
  end.
Definition sys_lseek (fd offset whence : Z) : K kstate Z :=
  d ← process_get_file_description fd;
  match d with
  | ERR_PTR rc => mret rc
  | PTR d => file_description_lseek d offset whence
  end.
Definition sys_ioctl (fd : Z) : K kstate Z :=
  d ← process_get_file_description fd;
  match d with
  | ERR_PTR rc => mret rc
  | PTR d => file_description_ioctl d
  end.
Definition sys_getdents (fd count : Z) : K kstate (Z * list dirent) :=
  d ← process_get_file_description fd;
  match d with
  | ERR_PTR rc => mret (rc, [])
  | PTR d => file_description_getdents d (u32 count)
  end.
Definition sys_stat (pathname : list Z) : K kstate (Z * option stat) := vfs_stat pathname.

Definition sys_mkdir (pathname : list Z) (mode : Z) : K kstate Z :=
  inode ← vfs_create pathname (Z.lor (Z.land mode 0x1ff) S_IFDIR);
  match inode with
  | ERR_PTR rc => mret rc
  | PTR i => _ ← inode_unref i; mret 0
  end.

Definition sys_mknod (pathname : list Z) (mode dev : Z) : K kstate Z :=
  if negb (bool_decide (Z.land mode S_IFMT ∈ [S_IFREG; S_IFCHR; S_IFBLK; S_IFIFO; S_IFSOCK]))
  then mret (ERR EINVAL)
  else
    inode ← vfs_create pathname mode;
    match inode with
    | ERR_PTR rc => mret rc
    | PTR i =>
        nd ← node i;
        _ ← set_node i (set_device_id dev nd);
        _ ← inode_unref i;
        mret 0
    end.

Definition sys_link (oldpath newpath : list Z) : K kstate Z :=
  r ← vfs_resolve_path oldpath false;
  match r_inode r with
  | ERR_PTR rc => mret rc
  | PTR old_inode =>
      nd ← node old_inode;
      if S_ISDIR (mode nd) then _ ← inode_unref old_inode; mret (ERR EPERM)
      else
        n ← vfs_resolve_path newpath true;
        match r_inode n with
        | PTR new_inode =>
            _ ← inode_unref old_inode;
            _ ← inode_unref_opt (out_parent n);
            _ ← inode_unref new_inode;
            mret (ERR EEXIST)
        | ERR_PTR rc =>
            if negb (rc =? ERR ENOENT) then
              _ ← inode_unref old_inode; _ ← inode_unref_opt (out_parent n); mret rc
            else
              match out_parent n with
              | None => _ ← inode_unref old_inode; mret (ERR EPERM)
              | Some new_parent =>
                  match out_basename n with
                  | None => panic
                  | Some new_basename => inode_link_child new_parent new_basename old_inode
                  end
              end
        end
  end.

Definition sys_unlink (pathname : list Z) : K kstate Z :=
  r ← vfs_resolve_path pathname true;
  match r_inode r with
  | ERR_PTR rc => _ ← inode_unref_opt (out_parent r); mret rc
  | PTR i =>
      nd ← node i;
      match out_parent r, S_ISDIR (mode nd) with
      | Some parent, false =>
          match out_basename r with
          | None => panic
          | Some basename => _ ← inode_unref i; inode_unlink_child parent basename
          end
      | _, _ => _ ← inode_unref_opt (out_parent r); _ ← inode_unref i; mret (ERR EPERM)
      end
  end.

(** A listing of 1024 bytes, or twice as much when the first record does not
    fit; a record has 4 + 255 + 1 bytes at most, so that one doubling is more
    than enough. The answer of krealloc comes from [kmalloc_ok]. *)
Fixpoint list_directory (fuel : nat) (d : nat) (capacity : Z) : K kstate Z :=
  match fuel with
  | O => out_of_fuel
  | S fuel =>
      ok ← kmalloc_ok;
      if negb ok then mret (ERR ENOMEM)
      else
        '(nread, _) ← file_description_getdents d capacity;
        if negb (nread =? ERR EINVAL) then mret nread
        else list_directory fuel d (u32 (capacity * 2))
  end.
Definition make_sure_directory_is_empty (i : nat) : K kstate Z :=
  nd ← node i;
  _ ← ASSERT (S_ISDIR (mode nd));
  d ← inode_open i O_RDONLY 0;
  match d with
  | ERR_PTR rc => mret rc
  | PTR d =>
      nread ← list_directory 32 d 1024;
      _ ← file_description_close d;
      mret (if 0 <? nread then ERR ENOTEMPTY else nread)
  end.

(** The label [fail] of sys_rename: the references that are given back. *)
Definition rename_fail (rc : Z) (old_parent old_inode new_parent new_inode : option nat)
    : K kstate Z :=
  _ ← ASSERT (rc <? 0);
  _ ← inode_unref_opt old_parent;
  _ ← inode_unref_opt old_inode;
  _ ← inode_unref_opt new_parent;
  _ ← inode_unref_opt new_inode;
  mret rc.

Definition sys_rename (oldpath newpath : list Z) : K kstate Z :=
  o ← vfs_resolve_path oldpath true;
  match r_inode o with
  | ERR_PTR rc => rename_fail rc (out_parent o) None None None
  | PTR old_inode =>
      match out_parent o with
      | None => rename_fail (ERR EPERM) None (Some old_inode) None None
      | Some old_parent =>
          old_basename ← (match out_basename o with Some b => mret b | None => panic end);
          n ← vfs_resolve_path newpath true;
          (* link the new name and unlink the old one *)
          let move :=
            new_parent ← access (out_parent n);
            new_basename ← (match out_basename n with Some b => mret b | None => panic end);
            rc ← inode_link_child new_parent new_basename old_inode;
            if IS_ERR rc then
              rename_fail rc (Some old_parent) None None
                (match r_inode n with PTR i => Some i | ERR_PTR _ => None end)
            else inode_unlink_child old_parent old_basename in
          match r_inode n with
          | PTR new_inode =>
              let fail rc new_inode :=
                rename_fail rc (Some old_parent) (Some old_inode) (out_parent n) new_inode in
              if (new_inode =? old_inode)%nat then fail 0 (Some new_inode)
              else
                nd ← node new_inode;
                od ← node old_inode;
                if S_ISDIR (mode nd) && negb (S_ISDIR (mode od)) then
                  fail (ERR EISDIR) (Some new_inode)
                else
                  rc ← (if S_ISDIR (mode nd) then make_sure_directory_is_empty new_inode
                        else mret 0);
                  if IS_ERR rc then fail rc None
                  else
                    new_parent ← (match out_parent n with Some p => mret p | None => panic end);
                    _ ← inode_ref new_parent;
                    name ← access (out_basename n);
                    rc ← inode_unlink_child new_parent name;
                    if IS_ERR rc then fail rc (Some new_inode) else move
          | ERR_PTR rc =>
              let fail rc :=
                rename_fail rc (Some old_parent) (Some old_inode) (out_parent n) None in
              if negb (rc =? ERR ENOENT) then fail rc
              else match out_parent n with None => fail (ERR EPERM) | Some _ => move end
          end
      end
  end.

Definition sys_rmdir (pathname : list Z) : K kstate Z :=
  r ← vfs_resolve_path pathname true;
  match r_inode r with
  | ERR_PTR rc => _ ← inode_unref_opt (out_parent r); mret rc
  | PTR i =>
      match out_parent r with
      | None => _ ← inode_unref i; mret (ERR EPERM)
      | Some parent =>
          basename ← (match out_basename r with Some b => mret b | None => panic end);
          nd ← node i;
          if negb (S_ISDIR (mode nd)) then
            _ ← inode_unref parent; _ ← inode_unref i; mret (ERR ENOTDIR)
          else
            rc ← make_sure_directory_is_empty i;
            if IS_ERR rc then _ ← inode_unref parent; mret rc
            else inode_unlink_child parent basename
      end
  end.

Definition F_DUPFD : Z := 0.
Definition F_GETFL : Z := 3.
Definition F_SETFL : Z := 4.
Definition sys_fcntl (fd cmd arg : Z) : K kstate Z :=
  d ← process_get_file_description fd;
  match d with
  | ERR_PTR rc => mret rc
  | PTR d =>
      if cmd =? F_DUPFD then
        ret ← process_alloc_file_descriptor (-1) d;
        if IS_ERR ret then mret ret
        else
          x ← desc d;
          _ ← set_desc d (set_d_ref_count (u32 (d_ref_count x + 1)) x);
          mret ret
      else if cmd =? F_GETFL then x ← desc d; mret (s32 (d_flags x))
      else if cmd =? F_SETFL then x ← desc d; _ ← set_desc d (set_flags (u32 arg) x); mret 0
      else mret (ERR EINVAL)
  end.

Definition sys_dup2 (oldfd newfd : Z) : K kstate Z :=
  oldfd_desc ← process_get_file_description oldfd;
  match oldfd_desc with
  | ERR_PTR rc => mret rc
  | PTR old =>
      newfd_desc ← process_get_file_description newfd;
      rc ← (match newfd_desc with
            | ERR_PTR _ => mret 0
            | PTR new =>
                rc ← file_description_close new;
                if IS_ERR rc then mret rc else process_free_file_descriptor newfd
            end);
      if IS_ERR rc then mret rc
      else
        ret ← process_alloc_file_descriptor newfd old;
        if IS_ERR ret then mret ret
        else
          x ← desc old;
          _ ← set_desc old (set_d_ref_count (u32 (d_ref_count x + 1)) x);
          mret ret
  end.

(** The result and the two descriptors stored. *)
Definition sys_pipe : K kstate (Z * list Z) :=
  fifo ← fifo_create;
  match fifo with
  | ERR_PTR rc => mret (rc, [])
  | PTR fifo =>
      _ ← inode_ref fifo;
      reader ← inode_open fifo O_RDONLY 0;
      match reader with
      | ERR_PTR rc => _ ← inode_unref fifo; mret (rc, [])
      | PTR reader =>
          writer ← inode_open fifo O_WRONLY 0;
          match writer with
          | ERR_PTR rc => _ ← file_description_close reader; mret (rc, [])
          | PTR writer =>
              reader_fd ← process_alloc_file_descriptor (-1) reader;
              if IS_ERR reader_fd then
                _ ← file_description_close reader;
                _ ← file_description_close writer;
                mret (reader_fd, [])
              else
                writer_fd ← process_alloc_file_descriptor (-1) writer;
                if IS_ERR writer_fd then
                  _ ← file_description_close reader;
                  _ ← file_description_close writer;
                  _ ← process_free_file_descriptor reader_fd;
                  mret (writer_fd, [])
                else mret (0, [reader_fd; writer_fd])
          end
      end
  end.

(** ** Unlinking *)

(** What the entries of a well-formed tree point to: linked inodes, which are
    directories or files; what is mounted are directories. *)
Record tree_ok (s : kstate) : Prop := TreeOk {
  to_entries : ∀ d l name c, entries s d = Some l → (name, c) ∈ l →
    ∃ nd, inodes s !! c = Some nd ∧ 0 < num_links nd < U32 ∧
      (S_ISDIR (mode nd) = false → leaf nd);
  to_mounts : ∀ h g, (h, g) ∈ mount_points s →
    ∃ nd, inodes s !! g = Some nd ∧ S_ISDIR (mode nd) = true;
}.
Lemma tree_ok_allocs s s' : allocs s s' → tree_ok s → tree_ok s'.
Proof. intros (g & -> & _) [He Hm]. by split. Qed.
Definition is_dir (s : kstate) (i : nat) : bool :=
  match inodes s !! i with Some nd => S_ISDIR (mode nd) | None => false end.
(** [s] without the entry [name] of directory [d], which was [i]. *)
Definition unlinked (d : nat) (name : list Z) (i : nat) (s : kstate) : kstate :=
  release i (put_children d (remove_entry name (default [] (entries s d)))
               (with_inodes (alter drop_link i) s)).

Lemma entries_directory s d l : entries s d = Some l → directory s d l.
Proof.
  unfold entries, directory. destruct (inodes s !! d) as [nd|]; [|done].
  destruct (fops nd) eqn:Hf, (S_ISDIR (mode nd)) eqn:Hm, (data nd) as [b k| | |] eqn:Hd; try done.
  intros [= ->]. by exists nd, b.
Qed.
Lemma not_guest it i c (P : nat → Prop) :
  (∀ h g, (h, g) ∈ it → P g) → ¬ P i → i = guest_of it c → i = c.
Proof.
  intros HP Hi. induction it as [|[h g] it IH]; cbn [guest_of]; [done|].
  case_decide; [|apply IH; intros h' g' ?; apply (HP h'); by right].
  intros ->. destruct Hi. apply (HP h). left.
Qed.

(** Unlinking a file that [d] has an entry for. *)
Lemma inode_unlink_file s d name i nd l :
  fs_ok 2 s → room 2 d s → entries s d = Some l → entry l name = Some i →
  inodes s !! i = Some nd → S_ISDIR (mode nd) = false → leaf nd → 0 < num_links nd < U32 →
  inode_unlink_child d name (bump d 1 s) = Done 0 (unlinked d name i s).
Proof.
  intros Hok Hr He Hen Hnd Hm Hleaf Hl.
  pose proof (entries_directory s d l He) as Hdir.
  assert (i ≠ d) as Hid by (intros ->; destruct Hdir as (nd' & b & ? & ? & ? & ?); congruence).
  unfold inode_unlink_child.
  pose proof (directory_bump s d l d 1 Hdir) as (ndd & b & Hdd & Hf & Hmd & _).
  rewrite (bind_run _ _ _ _ _ (node_run _ _ _ Hdd)), Hf, Hmd. cbn [fops_unlink_child].
  erewrite bind_run; [|eapply (tmpfs_unlink_spec s d l name i nd); try done].
  2: by rewrite (ok_locks 2 s Hok). 2: lia.
  unfold unlinked. rewrite He. cbn [default].
  assert (with_inodes (alter drop_link i) s = with_inodes <[i := drop_link nd]> s) as ->.
  { unfold with_inodes. f_equal. by rewrite alter_alt, Hnd. }
  set (s3 := put_children _ _ _).
  assert (inodes s3 !! i = Some (drop_link nd)) as H3.
  { unfold s3. cbn [put_children with_inodes inodes]. rewrite lookup_alter_ne by done.
    apply lookup_insert_eq. }
  destruct (ok_entries 2 s Hok d l name i He (entry_in _ _ _ Hen)) as (nd' & Hnd' & H0 & H1).
  simplify_eq.
  erewrite bind_run; [done|]. eapply inode_unref_release; [done|simpl; lia|exact Hleaf].
Qed.

(** Unlinking what a walk found under [name] of [d] when it is no directory. *)
Lemma unlink_found s s1 d name i c nd :
  fs_ok 3 s1 → tree_ok s → allocs s s1 → room 3 d s1 →
  inodes s1 !! i = Some nd → S_ISDIR (mode nd) = false → is_dir s i = false →
  child_of s d name = PTR c → i = guest_of (mount_points s) c →
  inode_unlink_child d name (bump d 1 s1) = Done 0 (unlinked d name i s1).
Proof.
  intros Hok1 Htree H1 Hd Hnd Hm Hdir Hc Hgo.
  assert (i = c) as <-.
  { eapply (not_guest (mount_points s) i c (λ g, is_dir s g = true)); [| |done].
    - intros h g Hin. destruct (to_mounts s Htree h g Hin) as (ng & Hng & ?).
      unfold is_dir. by rewrite Hng.
    - by rewrite Hdir. }
  assert (child_of s1 d name = PTR i) as Hc1 by (destruct H1 as (g & -> & _); exact Hc).
  unfold child_of in Hc1. destruct (entries s1 d) as [l|] eqn:Hl; [|done].
  destruct (entry l name) eqn:Hen; [|done]. injection Hc1 as ->.
  destruct (to_entries s1 (tree_ok_allocs s s1 H1 Htree) d l name i Hl (entry_in _ _ _ Hen))
    as (nd' & Hnd' & Hlk & Hleaf).
  assert (nd' = nd) as -> by congruence.
  apply (inode_unlink_file s1 d name i nd l); try done.
  - eapply fs_ok_mono; [done|lia].
  - eapply room_mono; [done|lia].
  - by apply Hleaf.
Qed.

Lemma sys_unlink_wp s p path r :
  fs_ok 3 s → tree_ok s → procs s !! current s = Some p → root s = Some r →
  Forall (λ c, c ≠ 0) (cwd_path p) → Forall (λ c, c ≠ 0) path →
  let t := walk s true r (components (cwd_path p) path) in
  wp (sys_unlink path) (λ rc s', ∃ s1, allocs s s1 ∧
    ((grants s ≠ [] ∧ rc = ERR ENOMEM ∧ s' = s1) ∨
     match r_inode t, out_parent t, out_basename t with
     | ERR_PTR e, _, _ => rc = e ∧ s' = s1
     | PTR i, Some d, Some name =>
         if is_dir s i then rc = ERR EPERM ∧ s' = s1
         else rc = 0 ∧ s' = unlinked d name i s1
     | PTR _, _, _ => rc = ERR EPERM ∧ s' = s1
     end)) s.
Proof.
  intros Hok Htree Hp Hr Hcwd Hpath t. unfold sys_unlink. wp_keep.
  destruct (ok_root 3 s Hok) as (r' & Hr' & Hroom). assert (r' = r) as -> by congruence.
  eapply wp_mono; [by apply (vfs_resolve_path_wp s p path true r)|].
  intros r1 s' (s1 & H1 & [[-> ->]|(Hg & -> & ->)]); cycle 1.
  { simpl. wp_keep. exists s1. split; [done|]. by left. }
  fold t. assert (fs_ok 3 s1) as Hok1 by by eapply fs_ok_allocs.
  assert (∀ i, room 3 i s → room 3 i s1) as Hrm by by destruct H1 as (g & -> & _).
  unfold hold_all. destruct (r_inode t) as [i|e] eqn:Ei; cbn [hold].
  - assert (room 3 i s1) as Hi by by eapply Hrm, walk_room.
    destruct Hi as (nd & Hnd & Hi0 & Hi1). assert (room 3 i s1) as Hi by by exists nd.
    assert (is_dir s i = S_ISDIR (mode nd)) as Hdir.
    { unfold is_dir. destruct H1 as (g & -> & _). cbn in Hnd. by rewrite Hnd. }
    destruct (out_parent t) as [d|] eqn:Ed; cbn [hold_opt].
    + destruct (walk_parent 3 s true r (components (cwd_path p) path) d Hok Hroom Ed)
        as (Hd%Hrm & name & Hn & Hch). fold t in Hn, Hch. rewrite Ei in Hch. rewrite Hn, Hdir.
      assert (∃ x, inodes (bump i 1 (bump d 1 s1)) !! i = Some (set_ref_count x nd)) as [x Hx].
      { destruct (lookup_bump_Some d 1 s1 i nd Hnd) as [x Hx].
        destruct (lookup_bump_Some i 1 _ i _ Hx) as [y Hy]. by exists y. }
      wp_keep. eapply wp_node; [exact Hx|]. cbn [set_ref_count mode].
      destruct (S_ISDIR (mode nd)) eqn:Hm.
      * cbn [inode_unref_opt]. wp_keep. rewrite bump_comm.
        apply wp_unref_bump; [apply room_bump; [by eapply room_mono|lia]|].
        wp_keep. apply wp_unref_bump; [by eapply room_mono|]. wp_keep. exists s1.
        split; [done|]. by right.
      * wp_keep. apply wp_unref_bump; [apply room_bump; [by eapply room_mono|lia]|]. wp_keep.
        destruct Hch as (c & Hc & Hgo).
        eapply wp_run; [by apply (unlink_found s s1 d name i c nd)|].
        exists s1. split; [done|]. by right.
    + wp_keep. assert (∃ x, inodes (bump i 1 s1) !! i = Some (set_ref_count x nd)) as [x Hx].
      { by apply lookup_bump_Some. }
      eapply wp_node; [exact Hx|]. cbn [set_ref_count mode]. cbn [inode_unref_opt]. wp_keep.
      apply wp_unref_bump; [by eapply room_mono|]. wp_keep. exists s1. split; [done|]. by right.
  - wp_keep. destruct (out_parent t) as [d|] eqn:Ed; cbn [hold_opt inode_unref_opt].
    + destruct (walk_parent 3 s true r (components (cwd_path p) path) d Hok Hroom Ed) as [Hd%Hrm _].
      wp_keep. apply wp_unref_bump; [by eapply room_mono|]. wp_keep. exists s1. split; [done|]. by right.
    + wp_keep. exists s1. split; [done|]. by right.
Qed.

(** C8: sys_unlink. A path that leads nowhere gives the error of the resolution,
    a directory and the root give -EPERM, and all is as before. Of a file the
    entry is removed and its link and reference given back: the inode is freed
    exactly when these were the last, and nothing else changes. *)
Theorem sys_unlink_spec s p path r :
  fs_ok 3 s → tree_ok s → procs s !! current s = Some p → root s = Some r →
  Forall (λ c, c ≠ 0) (cwd_path p) → Forall (λ c, c ≠ 0) path →
  let t := walk s true r (components (cwd_path p) path) in
  wp (sys_unlink path) (λ rc s', ∃ s1, allocs s s1 ∧
    ((grants s ≠ [] ∧ rc = ERR ENOMEM ∧ s' = s1) ∨
     match r_inode t, out_parent t, out_basename t with
     | ERR_PTR e, _, _ => rc = e ∧ s' = s1
     | PTR i, Some d, Some name =>
         if is_dir s i then rc = ERR EPERM ∧ s' = s1
         else rc = 0 ∧ s' = unlinked d name i s1
     | PTR _, _, _ => rc = ERR EPERM ∧ s' = s1
     end)) s.
Proof. apply sys_unlink_wp. Qed.

(** ** Reading and writing files *)

(** Writing to a file, with a bound on what its buffer grows to. *)
Lemma sys_write_wp s fd d x nd b l bytes :
  opened s fd d → file_at s d x nd b l → fops nd = non_dir_fops → S_ISDIR (mode nd) = false →
  has_flag (d_flags x) O_WRONLY = true → gb_inv b → capacity b ≤ 1073741824 →
  0 ≤ d_offset x → Z.of_nat (length bytes) + d_offset x ≤ 1073741824 →
  let n := Z.of_nat (length bytes) in
  wp (sys_write fd bytes) (λ rc s', ∃ b' g,
    (rc = n ∧ gb_inv b' ∧ file b' = written (Z.to_nat (d_offset x)) bytes (file b) ∧
       capacity b' ≤ Z.max (capacity b) (2 * (n + d_offset x) + 4096) ∧
       s' = with_grants g (at_file d (set_offset (d_offset x + n) x) nd b' l s)) ∨
    (rc = ERR ENOMEM ∧ (b' = b ∨ lost b') ∧ s' = with_grants g (at_file d x nd b' l s))) s.
Proof.
  intros Ho Hf Hfops Hm Hfl Hb Hc Hoff Hlen n. unfold sys_write. wp_keep.
  eapply wp_run; [by apply get_file_description_run|]. cbv iota. unfold file_description_write.
  pose proof Hf as (Hx & Hnd & _). wp_keep. apply (wp_desc d x); [done|]. wp_keep.
  eapply wp_node; [done|]. rewrite Hm, Hfops, Hfl. cbn [fops_write negb].
  unfold tmpfs_write. wp_keep. apply (wp_desc d x); [done|].
  apply (file_section d x nd b l s (growable_buf_pwrite bytes) (λ a, a)); [done|].
  eapply wp_mono; [by apply (growable_buf_pwrite_wp (GState b (grants s)))|].
  intros rc g [(-> & Hi & Hfile & Hcap)|(-> & Hlost)]; cbn [g_buf] in *; exists (g_buf g), (g_grants g).
  - left. split_and!; try done. unfold IS_OK. rewrite IS_ERR_nonneg by lia. cbn [negb].
    rewrite s32_small by lia. done.
  - right. change (IS_OK (ERR ENOMEM)) with false. split_and!; done.
Qed.

(** C11: sys_write to a file opened for writing answers the number of bytes,
    makes the file its old bytes with the new ones at the offset (zeros in a
    gap), moves the offset behind them and changes nothing else; or it answers
    -ENOMEM with the offset where it was, the file being as it was or lost
    (GrowableBuf.lost). No mutex stays held. *)
Theorem sys_write_spec s fd d x nd b l bytes :
  opened s fd d → file_at s d x nd b l → fops nd = non_dir_fops → S_ISDIR (mode nd) = false →
  has_flag (d_flags x) O_WRONLY = true → gb_inv b → capacity b ≤ 1073741824 →
  0 ≤ d_offset x → Z.of_nat (length bytes) + d_offset x ≤ 1073741824 →
  let n := Z.of_nat (length bytes) in
  wp (sys_write fd bytes) (λ rc s', ∃ b' g,
    (rc = n ∧ gb_inv b' ∧ file b' = written (Z.to_nat (d_offset x)) bytes (file b) ∧
       s' = with_grants g (at_file d (set_offset (d_offset x + n) x) nd b' l s)) ∨
    (rc = ERR ENOMEM ∧ (b' = b ∨ lost b') ∧ s' = with_grants g (at_file d x nd b' l s))) s.
Proof.
  intros. eapply wp_mono; [by apply (sys_write_wp s fd d x nd b l bytes)|].
  intros rc s' (b' & g & Hr). exists b', g. cbv zeta in Hr. tauto.
Qed.

Lemma file_read_wp s d x nd b l count :
  file_at s d x nd b l → fops nd = non_dir_fops → S_ISDIR (mode nd) = false →
  has_flag (d_flags x) O_RDONLY = true → gb_inv b → gb_size b < 1073741824 →
  0 ≤ d_offset x < 1073741824 → 0 ≤ count < 2147483648 →
  let bytes := take (Z.to_nat count) (drop (Z.to_nat (d_offset x)) (file b)) in
  let n := Z.of_nat (length bytes) in
  wp (file_description_read d count) (λ r s', r = (n, bytes) ∧
    s' = at_file d (set_offset (d_offset x + n) x) nd b l s) s.
Proof.
  intros Hf Hfops Hm Hfl Hb Hsz Hoff Hc bytes n. unfold file_description_read.
  pose proof Hf as (Hx & Hnd & _). wp_keep. apply (wp_desc d x); [done|]. wp_keep.
  eapply wp_node; [done|]. rewrite Hm, Hfops, Hfl. cbn [fops_read negb].
  unfold tmpfs_read. wp_keep. apply (wp_desc d x); [done|].
  apply (file_section d x nd b l s (growable_buf_pread count) fst); [done|].
  eapply wp_run; [apply (growable_buf_pread_run (GState b (grants s))); simpl; try done; unfold U32; lia|].
  cbn [g_buf g_grants fst]. fold bytes n. split; [done|].
  assert (0 ≤ n < 1073741824) as Hn.
  { unfold n, bytes. rewrite length_take, length_drop, length_file by done.
    destruct (gi_size b Hb). lia. }
  unfold IS_OK. rewrite IS_ERR_nonneg by lia. cbn [negb]. rewrite s32_small by lia.
  by destruct s.
Qed.
Lemma sys_read_wp s fd d x nd b l count :
  opened s fd d → file_at s d x nd b l → fops nd = non_dir_fops → S_ISDIR (mode nd) = false →
  has_flag (d_flags x) O_RDONLY = true → gb_inv b → gb_size b < 1073741824 →
  0 ≤ d_offset x < 1073741824 → 0 ≤ count < 2147483648 →
  let bytes := take (Z.to_nat count) (drop (Z.to_nat (d_offset x)) (file b)) in
  let n := Z.of_nat (length bytes) in
  wp (sys_read fd count) (λ r s', r = (n, bytes) ∧
    s' = at_file d (set_offset (d_offset x + n) x) nd b l s) s.
Proof.
  intros Ho. intros. unfold sys_read. apply wp_bind.
  eapply wp_run; [by apply get_file_description_run|]. by apply file_read_wp.
Qed.

(** sys_read from a file opened for reading stores the bytes of the file from
    the offset on, as many as are asked for and there, answers their number,
    moves the offset behind them and changes nothing else. *)
Lemma sys_read_spec s fd d x nd b l count :
  opened s fd d → file_at s d x nd b l → fops nd = non_dir_fops → S_ISDIR (mode nd) = false →
  has_flag (d_flags x) O_RDONLY = true → gb_inv b → gb_size b < 1073741824 →
  0 ≤ d_offset x < 1073741824 → 0 ≤ count < 2147483648 →
  let bytes := take (Z.to_nat count) (drop (Z.to_nat (d_offset x)) (file b)) in
  let n := Z.of_nat (length bytes) in
  wp (sys_read fd count) (λ r s', r = (n, bytes) ∧
    s' = at_file d (set_offset (d_offset x + n) x) nd b l s) s.
Proof. apply sys_read_wp. Qed.

(** ** Pipes *)

Lemma fresh_desc_new s : descs s !! fresh_desc s = None.
Proof. unfold fresh_desc. apply (not_elem_of_dom (D:=gset nat)). apply is_fresh. Qed.

(** The kernel after a pipe was made: the fifo [i], its ends [rd] and [wr] on the
    descriptors [a] and [b]. *)
Definition piped (i rd wr a b : nat) (buf : ring_buf) (p : process) (s : kstate) : kstate :=
  with_procs <[current s := with_fd b (Some wr) (with_fd a (Some rd) p)]>
    (with_inodes <[i := fifo_inode 2 buf 1 1]>
       (with_descs <[wr := FileDescription i O_WRONLY 0 1]>
          (with_descs <[rd := FileDescription i O_RDONLY 0 1]> s))).

Lemma sys_pipe_run s p a b :
  grants s = [] → procs s !! current s = Some p → lowest_free p a →
  (∀ d, lowest_free (with_fd a (Some d) p) b) →
  ∃ rd wr, rd ≠ wr ∧
  sys_pipe s = Done (0, [Z.of_nat a; Z.of_nat b]) (piped (fresh_node s) rd wr a b new_ring p s).
Proof.
  intros Hg Hp Ha Hb. set (i := fresh_node s). set (rd := fresh_desc s).
  set (s1 := with_inodes <[i := fifo_inode 2 new_ring 0 0]> s).
  set (s2 := with_inodes <[i := fifo_inode 2 new_ring 1 0]>
               (with_descs <[rd := FileDescription i O_RDONLY 0 1]> s1)).
  set (wr := fresh_desc s2).
  set (s3 := with_inodes <[i := fifo_inode 2 new_ring 1 1]>
               (with_descs <[wr := FileDescription i O_WRONLY 0 1]> s2)).
  exists rd, wr. split.
  { intros Hrw. pose proof (fresh_desc_new s2) as Hn. fold wr in Hn. rewrite <-Hrw in Hn.
    unfold s2 in Hn. cbn [with_inodes with_descs descs] in Hn. by rewrite lookup_insert_eq in Hn. }
  unfold sys_pipe. rewrite (bind_run _ _ _ _ _ (fifo_create_run s Hg)). cbv iota. fold i.
  assert (inode_ref i (with_inodes <[i := fifo_inode 1 new_ring 0 0]> s) = Done tt s1) as Href.
  { rewrite inode_ref_run by (eexists; apply lookup_insert_eq). f_equal. unfold s1, bump, with_inodes.
    simpl. f_equal. by rewrite alter_insert_eq. }
  rewrite (bind_run _ _ _ _ _ Href).
  assert (inode_open i O_RDONLY 0 s1 = Done (PTR rd) s2) as Hrd.
  { rewrite (inode_open_fifo s1 i 2 new_ring 0 0); [done|done|apply lookup_insert_eq|done]. }
  rewrite (bind_run _ _ _ _ _ Hrd). cbv iota.
  assert (inode_open i O_WRONLY 0 s2 = Done (PTR wr) s3) as Hwr.
  { rewrite (inode_open_fifo s2 i 2 new_ring 1 0); [done|done|apply lookup_insert_eq|done]. }
  rewrite (bind_run _ _ _ _ _ Hwr). cbv iota.
  assert (procs s3 !! current s3 = Some p) as Hp3 by done.
  rewrite (bind_run _ _ _ _ _ (alloc_file_descriptor_run p a rd s3 Hp3 Ha)).
  destruct Ha as [Ha _]. rewrite IS_ERR_nonneg by (unfold OPEN_MAX in Ha; lia).
  set (s4 := with_procs _ s3).
  assert (procs s4 !! current s4 = Some (with_fd a (Some rd) p)) as Hp4 by apply lookup_insert_eq.
  rewrite (bind_run _ _ _ _ _ (alloc_file_descriptor_run _ b wr s4 Hp4 (Hb rd))).
  destruct (Hb rd) as [Hb' _]. rewrite IS_ERR_nonneg by (unfold OPEN_MAX in Hb'; lia).
  unfold mret, K_ret. f_equal. unfold s4. cbn [with_procs current]. 
  rewrite with_procs_twice. unfold s3, s2, s1, piped.
  by rewrite !with_descs_inodes, !with_inodes_twice.
Qed.

(** A process with the two ends of a pipe, [rd] at [a] and [wr] at [b]. *)
Section piped_ends.
Context (s : kstate) (p : process) (a b rd wr : nat).
Context (Hl : locks s = ∅) (Hu : should_unblock p = None) (Hrw : rd ≠ wr).
Context (Ha : lowest_free p a) (Hb : ∀ d, lowest_free (with_fd a (Some d) p) b).
Let i := fresh_node s.
Let q := with_fd b (Some wr) (with_fd a (Some rd) p).

Lemma piped_opened buf fd d :
  fd_table q !! fd = Some (Some d) → (fd < OPEN_MAX)%nat →
  opened (piped i rd wr a b buf p s) (Z.of_nat fd) d.
Proof.
  intros Hd Hfd. split; [unfold OPEN_MAX in *; lia|]. exists q. rewrite Nat2Z.id.
  split; [apply lookup_insert_eq|done].
Qed.
Lemma piped_write_end buf : opened (piped i rd wr a b buf p s) (Z.of_nat b) wr.
Proof.
  destruct (Hb rd) as (Hb1 & Hb2 & _). apply piped_opened; [|done].
  unfold q. cbn [with_fd set_fd_table fd_table].
  apply list_lookup_insert_eq. rewrite <-Hb2 in Hb1. exact Hb1.
Qed.
Lemma piped_read_end buf : opened (piped i rd wr a b buf p s) (Z.of_nat a) rd.
Proof.
  pose proof Ha as (Ha1 & Ha2 & Ha3 & _). destruct (Hb rd) as (Hb1 & Hb2 & Hb3 & _).
  apply piped_opened; [|done]. unfold q. cbn [with_fd set_fd_table fd_table].
  rewrite list_lookup_insert_ne.
  - apply list_lookup_insert_eq. by rewrite Ha2.
  - intros ->. cbn [with_fd set_fd_table fd_table] in Hb3. rewrite list_lookup_insert_eq in Hb3; [done|].
    by rewrite Ha2.
Qed.
Lemma piped_at_write buf : fifo_at (piped i rd wr a b buf p s) wr (FileDescription i O_WRONLY 0 1)
  (fifo_inode 2 buf 1 1) buf 1 1.
Proof. split_and!; [apply lookup_insert_eq|apply lookup_insert_eq|done]. Qed.
Lemma piped_at_read buf : fifo_at (piped i rd wr a b buf p s) rd (FileDescription i O_RDONLY 0 1)
  (fifo_inode 2 buf 1 1) buf 1 1.
Proof.
  split_and!; [|apply lookup_insert_eq|done]. cbn [piped with_procs with_inodes with_descs descs].
  rewrite lookup_insert_ne by done. apply lookup_insert_eq.
Qed.
Lemma piped_unlocked buf : locks (piped i rd wr a b buf p s) !! RingLock i = None.
Proof. change (locks s !! RingLock i = None). by rewrite Hl. Qed.

(** Writing to the empty pipe, and reading what has been written. *)
Lemma piped_write bytes (Q : Z → kstate → Prop) :
  bytes ≠ [] →
  (∀ buf, let k := (length bytes `min` 1023)%nat in
    wf buf → contents buf = take k bytes → Q (Z.of_nat k) (piped i rd wr a b buf p s)) →
  wp (sys_write (Z.of_nat b) bytes) Q (piped i rd wr a b new_ring p s).
Proof.
  intros Hne HQ.
  assert (wf new_ring ∧ contents new_ring = [] ∧ RingBuf.room new_ring = 1023%nat) as (Hwf & Hemp & Hroom).
  { split_and!; [split_and!; vm_compute; [done|lia|lia]|done|done]. }
  unfold sys_write. wp_keep. eapply wp_run; [apply get_file_description_run, piped_write_end|].
  cbv iota. unfold file_description_write. wp_keep. eapply wp_desc; [apply piped_at_write|]. wp_keep.
  eapply wp_node; [apply piped_at_write|]. change (S_ISDIR _) with false. cbv iota.
  change (fops_write _) with (Some (fifo_write 1)). cbv iota.
  change (negb (has_flag _ _)) with false. cbv iota.
  eapply wp_mono.
  { eapply (fifo_write_wp 0); [apply piped_at_write|apply piped_unlocked|apply lookup_insert_eq|done|done|done|].
    destruct (ring_buf_is_full new_ring) eqn:E; [|done]. apply is_full_spec in E; [lia|done]. }
  cbn [d_inode]. intros n s' (k & buf & -> & -> & Hwf' & Hc & ->). rewrite Hroom, Hemp in *.
  assert (with_bytes i (fifo_inode 2 new_ring 1 1) buf 1 1 (piped i rd wr a b new_ring p s) =
    piped i rd wr a b buf p s) as ->.
  { unfold with_bytes, piped. by rewrite with_inodes_procs, with_inodes_twice. }
  by apply HQ.
Qed.
Lemma piped_read buf bytes count (Q : Z * list Z → kstate → Prop) :
  wf buf → contents buf = bytes → bytes ≠ [] → 0 < count →
  (∀ s', let out := take (Z.to_nat count) bytes in Q (Z.of_nat (length out), out) s') →
  wp (sys_read (Z.of_nat a) count) Q (piped i rd wr a b buf p s).
Proof.
  intros Hwf Hc Hne Hcount HQ.
  unfold sys_read. wp_keep. eapply wp_run; [apply get_file_description_run, piped_read_end|].
  cbv iota. unfold file_description_read. wp_keep. eapply wp_desc; [apply piped_at_read|]. wp_keep.
  eapply wp_node; [apply piped_at_read|]. change (S_ISDIR _) with false. cbv iota.
  change (fops_read _) with (Some (fifo_read 1)). cbv iota.
  change (negb (has_flag _ _)) with false. cbv iota.
  eapply wp_mono.
  { eapply (fifo_read_wp 0); [apply piped_at_read|apply piped_unlocked|apply lookup_insert_eq|done|done| |exact Hcount].
    by rewrite Hc. }
  intros [m out] s' (buf' & -> & -> & _). rewrite Hc. apply HQ.
Qed.
End piped_ends.

(** C12: what is written to one end of a new pipe is read at the other: as many
    bytes as the ring holds (1023) are taken, and the first [count] of them come
    out, in order, on the two lowest free descriptors. *)
Theorem sys_pipe_roundtrip s p a b bytes count :
  grants s = [] → locks s = ∅ → procs s !! current s = Some p → should_unblock p = None →
  lowest_free p a → (∀ d, lowest_free (with_fd a (Some d) p) b) →
  bytes ≠ [] → 0 < count →
  wp ('(rc, fds) ← sys_pipe;
      n ← sys_write (Z.of_nat b) bytes;
      '(m, out) ← sys_read (Z.of_nat a) count;
      mret (rc, fds, n, m, out))
     (λ '(rc, fds, n, m, out) _,
        rc = 0 ∧ fds = [Z.of_nat a; Z.of_nat b] ∧
        n = Z.min (Z.of_nat (length bytes)) 1023 ∧
        out = take (Z.to_nat (Z.min n count)) bytes ∧ m = Z.min n count) s.
Proof.
  intros Hg Hl Hp Hu Ha Hb Hne Hcount. wp_keep.
  destruct (sys_pipe_run s p a b Hg Hp Ha Hb) as (rd & wr & Hrw & Hpipe).
  eapply wp_run; [exact Hpipe|]. cbv beta iota. wp_keep.
  apply piped_write; [done..|]. cbv zeta. intros buf Hwf Hc. wp_keep.
  eapply (piped_read s p a b rd wr); [done..| |done|].
  { destruct bytes; [done|]. simpl. by destruct (length bytes `min` 1022)%nat. }
  cbv zeta. intros s'. rewrite take_take, length_take. wp_keep.
  split_and!; try done; [lia|f_equal; lia|lia].
Qed.

(** ** Two calls that go wrong *)

Lemma walk_bump i n s want p names : walk (bump i n s) want p names = walk s want p names.
Proof.
  revert p. induction names as [|name next IH]; intros p; cbn [walk]; [done|].
  rewrite child_of_bump. destruct (child_of s p name); [|done]. by case_decide.
Qed.

(** Renaming a file to a name it has already stops the machine: with memory at
    hand, when both paths lead to the same inode (the same path, or two links of
    one file), sys_rename sets [rc] to 0 and fails the assertion [rc < 0]. *)
Lemma sys_rename_same_panics s p old new r i d name :
  fs_ok 5 s → grants s = [] → procs s !! current s = Some p → root s = Some r →
  Forall (λ c, c ≠ 0) (cwd_path p) → Forall (λ c, c ≠ 0) old → Forall (λ c, c ≠ 0) new →
  walk s true r (components (cwd_path p) old) = Resolved (PTR i) (Some d) (Some name) →
  r_inode (walk s true r (components (cwd_path p) new)) = PTR i →
  sys_rename old new s = Panic.
Proof.
  intros Hok Hg Hp Hr Hcwd Hold Hnew Ho Hn.
  assert (∀ t path, fs_ok 3 t → grants t = [] → procs t !! current t = Some p → root t = Some r →
    Forall (λ c, c ≠ 0) path → ∃ q, q = walk t true r (components (cwd_path p) path) ∧
      vfs_resolve_path path true t = Done q (hold_all q t)) as Hres.
  { intros t path Hokt Hgt Hpt Hrt Hpath. pose proof (vfs_resolve_path_wp t p path true r Hokt Hpt Hrt Hcwd Hpath) as Hw.
    unfold wp in Hw. destruct (vfs_resolve_path path true t) as [q t'| | |]; try done.
    destruct Hw as (t1 & (g & -> & Hgg) & Hq). rewrite Hgg in Hq by done.
    assert (with_grants [] t = t) as Ht by (destruct t; simpl in *; by subst).
    rewrite Ht in Hq. destruct Hq as [[-> ->]|[? _]]; [eauto|done]. }
  unfold sys_rename.
  destruct (Hres s old ltac:(eapply fs_ok_mono; [done|lia]) Hg Hp Hr Hold) as (q & Hq & Hrun).
  rewrite Ho in Hq. subst q. rewrite (bind_run _ _ _ _ _ Hrun). cbn [r_inode out_parent out_basename].
  unfold hold_all. cbn [hold hold_opt r_inode out_parent].
  set (s1 := bump i 1 (bump d 1 s)).
  destruct (Hres s1 new) as (q & Hq & Hrun1); try done.
  { apply fs_ok_bump; [|lia]. by apply fs_ok_bump. }
  unfold s1 in Hq. rewrite !walk_bump in Hq. rewrite <-Hq in Hn.
  unfold mbind at 1, K_bind at 1. cbn [mret K_ret]. unfold mret at 1, K_ret at 1.
  rewrite (bind_run _ _ _ _ _ Hrun1). rewrite Hn. by rewrite Nat.eqb_refl.
Qed.

(** Dup2 of a descriptor onto itself, which is to do nothing, closes and frees
    the description (if this is its only reference), puts the dangling pointer
    back into the table and then counts a reference in freed memory. *)
Lemma sys_dup2_same_uses_freed s fd d x nd :
  opened s fd d → descs s !! d = Some x → d_ref_count x = 1 →
  inodes s !! d_inode x = Some nd → fops_close (fops nd) = None →
  0 < ref_count nd < U32 → (ref_count nd ≠ 1 ∨ num_links nd ≠ 0) →
  sys_dup2 fd fd s = Undef.
Proof.
  intros Ho Hx Hr Hnd Hc Hrc Hor. unfold sys_dup2.
  rewrite (bind_run _ _ _ _ _ (get_file_description_run fd d s Ho)). cbv beta iota.
  rewrite (bind_run _ _ _ _ _ (get_file_description_run fd d s Ho)). cbv beta iota.
  pose proof Ho as (Hfd & p & Hp & Ht).
  assert (file_description_close d s = Done 0 (bump (d_inode x) (-1) (with_descs (delete d) s))) as Hcl
    by by eapply file_description_close_run.
  set (s1 := bump _ _ _) in Hcl. assert (procs s1 !! current s1 = Some p) as Hp1 by done.
  pose proof (free_file_descriptor_run p fd d s1 Hfd Hp1 Ht) as Hfree.
  set (s2 := with_procs _ s1) in Hfree.
  rewrite (bind_run _ _ s 0 s2).
  2: { rewrite (bind_run _ _ _ _ _ Hcl). exact Hfree. }
  change (IS_ERR 0) with false. cbv iota.
  assert (procs s2 !! current s2 = Some (with_fd (Z.to_nat fd) None p)) as Hp2 by apply lookup_insert_eq.
  assert (fd_table (with_fd (Z.to_nat fd) None p) !! Z.to_nat fd = Some None) as Ht2.
  { cbn [with_fd set_fd_table fd_table]. apply list_lookup_insert_eq. by eapply lookup_lt_Some. }
  rewrite (bind_run _ _ _ _ _ (alloc_fd_at_run _ fd d s2 Hfd Hp2 Ht2)).
  rewrite IS_ERR_nonneg by (unfold OPEN_MAX in Hfd; lia).
  unfold desc, mbind, K_bind, get, access.
  assert (descs s2 !! d = None) as Hd by apply lookup_delete_eq.
  cbn [with_procs descs]. rewrite Hd. done.
Qed.

(** ** Witnesses *)

Definition tree_okb (s : kstate) : bool :=
  forallb (λ x : nat * inode,
    match fops x.2, S_ISDIR (mode x.2), data x.2 with
    | dir_fops, true, TmpfsData _ l =>
        forallb (λ e : dentry,
          match inodes s !! e.2 with
          | Some nd =>
              (0 <? num_links nd) && (num_links nd <? U32) &&
              (S_ISDIR (mode nd) ||
               match fops nd, data nd with non_dir_fops, TmpfsData _ [] => true | _, _ => false end)
          | None => false
          end) l
    | _, _, _ => true
    end) (map_to_list (inodes s)) &&
  forallb (λ m : nat * nat, is_dir s m.2) (mount_points s).
Lemma tree_okb_sound s : tree_okb s = true → tree_ok s.
Proof.
  unfold tree_okb. intros [Hi Hm]%andb_true_iff. split.
  - intros d l name c. unfold entries. destruct (inodes s !! d) as [nd|] eqn:E; [|done].
    apply elem_of_map_to_list in E. pose proof (forallb_in _ _ _ Hi E) as Hn. simpl in Hn.
    destruct (fops nd), (S_ISDIR (mode nd)), (data nd); try done. intros [= ->] Hin.
    pose proof (forallb_in _ _ _ Hn Hin) as Hc. cbn in Hc.
    destruct (inodes s !! c) as [nc|]; [|done]. exists nc. split; [done|].
    apply andb_true_iff in Hc as [Hc Hleaf]. bool_to_prop. split; [lia|]. intros Hd.
    destruct Hleaf as [?|Hleaf]; [congruence|]. unfold leaf.
    destruct (fops nc); try discriminate Hleaf. split; [done|].
    destruct (data nc) as [b [|]| | |]; try discriminate Hleaf.
    by exists b.
  - intros h g Hin. pose proof (forallb_in _ _ _ Hm Hin) as Hg. unfold is_dir in Hg. cbn in Hg.
    destruct (inodes s !! g) as [nd|]; [|done]. by exists nd.
Qed.
Lemma sample_fs_tree cwd : tree_ok (sample_fs cwd).
Proof. apply tree_okb_sound. reflexivity. Qed.

Lemma sys_unlink_spec_witness :
  wp (sys_unlink (lit "sh")) (λ rc s', ∃ s1, allocs (sample_fs (lit "/bin")) s1 ∧
    ((grants (sample_fs (lit "/bin")) ≠ [] ∧ rc = ERR ENOMEM ∧ s' = s1) ∨
     (rc = 0 ∧ s' = unlinked 1 (lit "sh") 2 s1))) (sample_fs (lit "/bin")).
Proof.
  apply (sys_unlink_spec (sample_fs (lit "/bin")) (process_at (lit "/bin")) (lit "sh") 0).
  - exact (sample_fs_ok (lit "/bin")).
  - exact (sample_fs_tree (lit "/bin")).
  - apply lookup_singleton_eq.
  - reflexivity.
  - repeat constructor; vm_compute; congruence.
  - repeat constructor; vm_compute; congruence.
Defined.

(** A process with the file of inode 0, which holds "hello", open for reading and
    writing on descriptor 0, at offset 1. *)
Definition hello_inode : inode :=
  Inode (Some 9%nat) non_dir_fops 0 None 1 2 (Z.lor S_IFREG 0x1ff) (TmpfsData hello []).
Definition hello_desc : file_description := FileDescription 0 O_RDWR 1 1.
Definition sample_open : kstate :=
  KState {[0%nat := hello_inode]} {[0%nat := hello_desc]} None [] [] ∅
    {[0%nat := with_fd 0 (Some 0%nat) (process_at (lit "/"))]} [0%nat] [] None 0 2 1 [].
Lemma sample_opened : opened sample_open 0 0.
Proof.
  split; [unfold OPEN_MAX; lia|]. exists (with_fd 0 (Some 0%nat) (process_at (lit "/"))).
  split; [apply lookup_singleton_eq|reflexivity].
Qed.
Lemma sample_file : file_at sample_open 0 hello_desc hello_inode hello [].
Proof. split_and!; [apply lookup_singleton_eq|apply lookup_singleton_eq|done|done]. Qed.
Lemma sys_write_spec_witness :
  wp (sys_write 0 (lit "xyz")) (λ rc s', ∃ b' g,
    (rc = 3 ∧ gb_inv b' ∧ file b' = written 1 (lit "xyz") (file hello) ∧
       s' = with_grants g (at_file 0 (set_offset 4 hello_desc) hello_inode b' [] sample_open)) ∨
    (rc = ERR ENOMEM ∧ (b' = hello ∨ lost b') ∧
       s' = with_grants g (at_file 0 hello_desc hello_inode b' [] sample_open))) sample_open.
Proof.
  apply (sys_write_spec sample_open 0 0 hello_desc hello_inode hello [] (lit "xyz")
    sample_opened sample_file); try reflexivity; [exact hello_inv|simpl; lia|simpl; lia|simpl; lia].
Defined.
Lemma sys_read_spec_witness :
  wp (sys_read 0 3) (λ r s', r = (3, lit "ell") ∧
    s' = at_file 0 (set_offset 4 hello_desc) hello_inode hello [] sample_open) sample_open.
Proof.
  apply (sys_read_spec sample_open 0 0 hello_desc hello_inode hello [] 3
    sample_opened sample_file); try reflexivity; [exact hello_inv|simpl; lia|lia].
Defined.

Lemma sample_lowest : lowest_free (process_at (lit "/")) 0.
Proof.
  split_and!; [unfold OPEN_MAX; lia|apply length_replicate|reflexivity|]. intros; lia.
Qed.
Lemma sample_lowest' d : lowest_free (with_fd 0 (Some d) (process_at (lit "/"))) 1.
Proof.
  split_and!; [unfold OPEN_MAX; lia| |reflexivity|].
  - cbn [with_fd set_fd_table fd_table]. rewrite length_insert. apply length_replicate.
  - intros [|j] Hj; [by exists d|lia].
Qed.
Lemma sys_pipe_roundtrip_witness :
  wp ('(rc, fds) ← sys_pipe;
      n ← sys_write 1 (lit "hello");
      '(m, out) ← sys_read 0 3;
      mret (rc, fds, n, m, out))
     (λ '(rc, fds, n, m, out) _,
        rc = 0 ∧ fds = [0; 1] ∧ n = Z.min 5 1023 ∧
        out = take (Z.to_nat (Z.min n 3)) (lit "hello") ∧ m = Z.min n 3) (one_process (lit "/")).
Proof.
  apply (sys_pipe_roundtrip (one_process (lit "/")) (process_at (lit "/")) 0 1 (lit "hello") 3).
  - reflexivity.
  - reflexivity.
  - apply lookup_singleton_eq.
  - reflexivity.
  - exact sample_lowest.
  - exact sample_lowest'.
  - discriminate.
  - lia.
Defined.

Lemma sample_fs_ok5 cwd : fs_ok 5 (sample_fs cwd).
Proof. apply fs_okb_sound. reflexivity. Qed.
Lemma sys_rename_same_panics_witness :
  sys_rename (lit "/bin/sh") (lit "sh") (sample_fs (lit "/bin")) = Panic.
Proof.
  apply (sys_rename_same_panics (sample_fs (lit "/bin")) (process_at (lit "/bin"))
    (lit "/bin/sh") (lit "sh") 0 2 1 (lit "sh") (sample_fs_ok5 (lit "/bin"))).
  - reflexivity.
  - apply lookup_singleton_eq.
  - reflexivity.
  - repeat constructor; vm_compute; congruence.
  - repeat constructor; vm_compute; congruence.
  - repeat constructor; vm_compute; congruence.
  - reflexivity.
  - reflexivity.
Defined.
Lemma sys_dup2_same_uses_freed_witness : sys_dup2 0 0 sample_open = Undef.
Proof.
  apply (sys_dup2_same_uses_freed sample_open 0 0 hello_desc hello_inode sample_opened).
  - apply lookup_singleton_eq.
  - reflexivity.
  - apply lookup_singleton_eq.
  - reflexivity.
  - unfold U32; simpl; lia.
  - left. simpl. lia.
Defined.
