(* ===== verification/SyscallSocket.v ===== *)
(** * Socket system calls (kernel/syscall/socket.c) *)
From stdpp Require Import fin_maps.
From S2P Require Import Prelude Errno RingBuf GrowableBuf Kernel Inode Path Tmpfs Process.
From S2P Require Import Scheduler Fifo Socket Fs Vfs SyscallFs.

(** kernel/api/sys/socket.h; an address as the caller's memory has it. *)
Definition AF_UNIX : Z := 1.
Definition SOCK_STREAM : Z := 1.
Record sockaddr_un : Type := SockaddrUn { sun_family : Z; sun_path : list Z }.
Definition sizeof_sa_family : Z := 2.
Definition sizeof_sockaddr_un : Z := 110.

(** The string that starts a memory of which at most [n] bytes are looked at. *)
Fixpoint string_of (n : nat) (m : list Z) : K kstate (list Z) :=
  match n with
  | O => mret []
  | S n =>
      c ← access (head m);
      if c =? 0 then mret [] else rest ← string_of n (tail m); mret (c :: rest)
  end.
Definition kstrndup_path (a : sockaddr_un) (addrlen : Z) : K kstate (option (list Z)) :=
  path ← string_of (Z.to_nat (addrlen - sizeof_sa_family)) (sun_path a);
  ok ← kmalloc_ok;
  mret (if ok : bool then Some path else None).

Definition sys_socket (domain type : Z) : K kstate Z :=
  if negb (domain =? AF_UNIX) || negb (type =? SOCK_STREAM) then mret (ERR EAFNOSUPPORT)
  else
    socket ← unix_socket_create;
    match socket with
    | ERR_PTR rc => mret rc
    | PTR i =>
        _ ← inode_ref i;
        d ← inode_open i O_RDWR 0;
        match d with
        | ERR_PTR rc => mret rc
        | PTR d => process_alloc_file_descriptor (-1) d
        end
    end.

(** The description behind a descriptor whose inode says it is a socket. *)
Definition with_socket_fd (fd : Z) (f : nat → nat → K kstate Z) : K kstate Z :=
  d ← process_get_file_description fd;
  match d with
  | ERR_PTR rc => mret rc
  | PTR d =>
      x ← desc d;
      nd ← node (d_inode x);
      if negb (S_ISSOCK (mode nd)) then mret (ERR ENOTSOCK) else f d (d_inode x)
  end.
Definition bad_address (a : sockaddr_un) (addrlen : Z) : bool :=
  (addrlen <=? sizeof_sa_family) || (sizeof_sockaddr_un <? addrlen)
  || negb (sun_family a =? AF_UNIX).

Definition sys_bind (fd : Z) (a : sockaddr_un) (addrlen : Z) : K kstate Z :=
  with_socket_fd fd (λ _ i,
    if bad_address a addrlen then mret (ERR EINVAL)
    else
      path ← kstrndup_path a addrlen;
      match path with
      | None => mret (ERR ENOMEM)
      | Some path =>
          bound ← vfs_open path (Z.lor O_CREAT O_EXCL) S_IFSOCK;
          match bound with
          | ERR_PTR rc => mret (if rc =? ERR EEXIST then ERR EADDRINUSE else rc)
          | PTR bound =>
              x ← desc bound;
              nd ← node (d_inode x);
              _ ← set_node (d_inode x) (set_bound_socket (Some i) nd);
              mret 0
          end
      end).

Definition sys_listen (fd backlog : Z) : K kstate Z :=
  with_socket_fd fd (λ _ i, _ ← unix_socket_set_backlog i backlog; mret 0).

(** The result; on success an address of the family AF_UNIX with an empty path
    and its size are stored where the caller asks for them. *)
Definition sys_accept (fd : Z) : K kstate Z :=
  with_socket_fd fd (λ _ listener,
    connector ← unix_socket_accept listener;
    match connector with
    | ERR_PTR rc => mret rc
    | PTR connector =>
        _ ← inode_ref connector;
        d ← inode_open connector O_RDWR 0;
        match d with
        | ERR_PTR rc => mret rc
        | PTR d => process_alloc_file_descriptor (-1) d
        end
    end).

(** The walk over the pending queue has the number of inodes as fuel: a queue that
    is no cycle has fewer elements. *)
Definition sys_connect (fd : Z) (a : sockaddr_un) (addrlen : Z) : K kstate Z :=
  with_socket_fd fd (λ d i,
    x ← socket i;
    if connected x then mret (ERR EISCONN)
    else if bad_address a addrlen then mret (ERR EINVAL)
    else
      path ← kstrndup_path a addrlen;
      match path with
      | None => mret (ERR ENOMEM)
      | Some path =>
          l ← vfs_open path 0 0;
          match l with
          | ERR_PTR rc => mret rc
          | PTR l =>
              y ← desc l;
              nd ← node (d_inode y);
              match bound_socket nd with
              | None => mret (ERR ECONNREFUSED)
              | Some listener =>
                  s ← get;
                  unix_socket_connect (size (inodes s)) d listener
              end
          end
      end).

(** ** Facts *)

(** A socket with [refs] references. *)
Definition socket_inode (refs : Z) (x : unix_socket) : inode :=
  Inode None socket_fops 0 None 0 refs S_IFSOCK (SocketData x).
Definition unconnected : unix_socket := UnixSocket 0 0 None false None new_ring new_ring.
Lemma unix_socket_create_run s :
  grants s = [] →
  unix_socket_create s = Done (PTR (fresh_node s))
    (with_inodes <[fresh_node s := socket_inode 1 unconnected]> s).
Proof.
  intros Hg. unfold unix_socket_create. rewrite (bind_run _ _ _ _ _ (kmalloc_run s Hg)). cbn [negb].
  rewrite (bind_run _ _ _ _ _ (kmalloc_run s Hg)). cbn [ring_buf_init].
  by rewrite (bind_run _ _ _ _ _ (kmalloc_run s Hg)).
Qed.
Lemma undo_updates fp fi fd gp gi gd s :
  with_procs fp (with_inodes fi (with_descs fd (with_procs gp (with_inodes gi (with_descs gd s))))) =
  with_inodes (λ m, fi (gi m)) (with_procs (λ m, fp (gp m)) (with_descs (λ m, fd (gd m)) s)).
Proof. done. Qed.
(** Descriptor [fd] is an end, read and write, of the socket [x] at inode [i]. *)
Definition socket_end (s : kstate) (fd : Z) (d i : nat) (x : unix_socket) : Prop :=
  opened s fd d ∧
  (∃ y, descs s !! d = Some y ∧ d_inode y = i ∧ has_flag (d_flags y) O_RDONLY = true ∧
        has_flag (d_flags y) O_WRONLY = true) ∧
  ∃ nd, inodes s !! i = Some nd ∧ fops nd = socket_fops ∧ S_ISDIR (mode nd) = false ∧
        data nd = SocketData x.

(** ** Properties *)

(** C13: data over a socket. A write at one end appends to the ring towards the
    other end as many bytes as it has room for and answers how many; a read takes
    the first bytes of the ring towards its own end, as many as are asked for and
    there. The other ring and everything else stays as it was: the two directions
    are independent queues, chosen by which description connected. *)
Theorem sys_socket_stream s p fd d i x :
  socket_end s fd d i x → procs s !! current s = Some p → should_unblock p = None →
  (∀ bytes, let c := negb (is_client x d) in
     locks s !! SocketBufLock i c = None → wf (ring c x) → ring_buf_is_full (ring c x) = false →
     wp (sys_write fd bytes) (λ n s', ∃ k b,
       k = (length bytes `min` RingBuf.room (ring c x))%nat ∧ n = Z.of_nat k ∧ wf b ∧
       contents b = contents (ring c x) ++ take k bytes ∧
       s' = put_socket i (set_ring c b x) s) s) ∧
  (∀ count, let c := is_client x d in
     locks s !! SocketBufLock i c = None → wf (ring c x) → contents (ring c x) ≠ [] → 0 < count →
     wp (sys_read fd count) (λ r s', ∃ b,
       let out := take (Z.to_nat count) (contents (ring c x)) in
       r = (Z.of_nat (length out), out) ∧ wf b ∧
       contents b = drop (Z.to_nat count) (contents (ring c x)) ∧
       s' = put_socket i (set_ring c b x) s) s).
Proof.
  intros (Ho & (y & Hy & Hi & Hr & Hw) & nd & Hnd & Hf & Hm & Hd) Hp Hu.
  assert (is_socket s i x) as Hx by by exists nd. split.
  - intros bytes c Hl Hwf Hfull. unfold sys_write. wp_keep.
    eapply wp_run; [by apply get_file_description_run|]. cbv iota. unfold file_description_write.
    wp_keep. apply (wp_desc d y); [done|]. wp_keep. rewrite Hi. eapply wp_node; [done|].
    rewrite Hm, Hf, Hw. cbn [fops_write negb]. by apply (unix_socket_write_wp 0 s p d y i x).
  - intros count c Hl Hwf Hne Hc. unfold sys_read. wp_keep.
    eapply wp_run; [by apply get_file_description_run|]. cbv iota. unfold file_description_read.
    wp_keep. apply (wp_desc d y); [done|]. wp_keep. rewrite Hi. eapply wp_node; [done|].
    rewrite Hm, Hf, Hr. cbn [fops_read negb]. by apply (unix_socket_read_wp 0 s p d y i x).
Qed.

(** The inode that a name in the file system gets when a socket is bound to it
    says S_IFSOCK, but is no socket: listen, accept and connect on a descriptor
    of it use it as one. *)
Lemma bound_name_is_no_socket s fd d y nd b l n a len :
  opened s fd d → descs s !! d = Some y → inodes s !! d_inode y = Some nd →
  S_ISSOCK (mode nd) = true → data nd = TmpfsData b l →
  sys_listen fd n s = Undef ∧ sys_connect fd a len s = Undef.
Proof.
  intros Ho Hy Hnd Hm Hd. unfold sys_listen, sys_connect, with_socket_fd.
  rewrite !(bind_run _ _ _ _ _ (get_file_description_run fd d s Ho)).
  rewrite !(bind_run _ _ _ _ _ (desc_run d y s Hy)), !(bind_run _ _ _ _ _ (node_run _ _ _ Hnd)), Hm.
  cbn [negb]. unfold unix_socket_set_backlog, update_socket, socket.
  unfold mbind, K_bind. rewrite (node_run _ _ _ Hnd), Hd. done.
Qed.

(** Closing the only descriptor of a socket does not free it: the reference
    unix_socket_create made besides the one of the description stays. Nothing
    refers to the inode any more. *)
Lemma sys_socket_close_leaks s p a :
  grants s = [] → procs s !! current s = Some p → lowest_free p a →
  wp (fd ← sys_socket AF_UNIX SOCK_STREAM; rc ← sys_close fd; mret (fd, rc))
     (λ '(fd, rc) s', fd = Z.of_nat a ∧ rc = 0 ∧
        s' = with_inodes <[fresh_node s := socket_inode 1 unconnected]> s) s.
Proof.
  intros Hg Hp Ha. set (i := fresh_node s). set (d := fresh_desc s).
  set (nd := socket_inode 2 unconnected). set (y := FileDescription i O_RDWR 0 1).
  set (s1 := with_inodes <[i := nd]> (with_descs <[d := y]> s)).
  set (s2 := with_procs <[current s := with_fd a (Some d) p]> s1).
  assert (sys_socket AF_UNIX SOCK_STREAM s = Done (Z.of_nat a) s2) as Hsock.
  { unfold sys_socket. change (negb _ || negb _) with false. cbv iota.
    rewrite (bind_run _ _ _ _ _ (unix_socket_create_run s Hg)). fold i.
    assert (inode_ref i (with_inodes <[i := socket_inode 1 unconnected]> s) =
      Done tt (with_inodes <[i := nd]> s)) as Href.
    { unfold inode_ref. rewrite (bind_run _ _ _ _ _ (node_run i (socket_inode 1 unconnected) _
        (lookup_insert_eq _ _ _))).
      unfold set_node, modify. by rewrite with_inodes_twice. }
    rewrite (bind_run _ _ _ _ _ Href).
    assert (inode_open i O_RDWR 0 (with_inodes <[i := nd]> s) = Done (PTR d) s1) as Hopen.
    { unfold inode_open. rewrite (bind_run _ _ _ _ _ (node_run i nd _ (lookup_insert_eq _ _ _))).
      change (S_ISDIR _ && _) with false. cbv iota.
      by rewrite (bind_run _ _ _ _ _ (kmalloc_run (with_inodes <[i := nd]> s) Hg)). }
    rewrite (bind_run _ _ _ _ _ Hopen).
    by rewrite (alloc_file_descriptor_run p a d s1 Hp Ha). }
  wp_keep. eapply wp_run; [exact Hsock|]. wp_keep.
  assert (procs s2 !! current s2 = Some (with_fd a (Some d) p)) as Hp2 by apply lookup_insert_eq.
  destruct Ha as (Ha & Hlen & Hfree & _).
  assert (opened s2 (Z.of_nat a) d) as Ho.
  { split; [unfold OPEN_MAX in *; lia|]. exists (with_fd a (Some d) p). split; [done|].
    rewrite Nat2Z.id. apply list_lookup_insert_eq. lia. }
  unfold sys_close. wp_keep. eapply wp_run; [by apply get_file_description_run|]. cbv beta iota.
  wp_keep. eapply wp_run.
  { apply (file_description_close_run s2 d y nd); [apply lookup_insert_eq|done| |done| |left; done].
    - apply lookup_insert_eq.
    - unfold U32. simpl. lia. }
  change (IS_ERR 0) with false. cbv iota. set (s3 := bump _ _ _).
  assert (procs s3 !! current s3 = Some (with_fd a (Some d) p)) as Hp3 by exact Hp2.
  eapply wp_run.
  { eapply (free_file_descriptor_run _ _ d s3); [unfold OPEN_MAX in *; lia|exact Hp3|].
    rewrite Nat2Z.id. apply list_lookup_insert_eq. lia. }
  wp_keep. split_and!; [done|done|]. rewrite Nat2Z.id.
  assert (with_fd a None (with_fd a (Some d) p) = p) as ->.
  { unfold with_fd. destruct p. cbn in *. by rewrite list_insert_insert_eq, list_insert_id. }
  unfold s3, bump, s2, s1. rewrite undo_updates.
  rewrite (with_descs_id s (λ m, delete d (<[d:=y]> m)))
    by apply delete_insert_id, fresh_desc_new.
  rewrite (with_procs_id s (λ m, <[current s:=p]> (<[current s:=with_fd a (Some d) p]> m)))
    by (rewrite insert_insert_eq; by apply insert_id).
  unfold with_inodes. by rewrite alter_insert_eq.
Qed.

(** ** Witnesses *)

(** A client (descriptor 3, description 0) and a server (4, 1) of a connection. *)
Definition joined : unix_socket := UnixSocket 0 0 None true (Some 0%nat) two_bytes new_ring.
Definition sample_joined : kstate :=
  with_inodes (λ _, {[ 5%nat := socket_inode 3 joined ]})
    (with_descs (λ _, {[ 0%nat := FileDescription 5 O_RDWR 0 1;
                         1%nat := FileDescription 5 O_RDWR 0 1 ]})
      (with_procs (λ _, {[0%nat := set_fd_table
          ([None; None; None; Some 0%nat; Some 1%nat] ++ replicate 1019 None)
          (process_at (lit "/"))]}) (one_process (lit "/")))).
Lemma sample_end fd d : (fd = 3 ∧ d = 0%nat) ∨ (fd = 4 ∧ d = 1%nat) → socket_end sample_joined fd d 5 joined.
Proof.
  intros H. split; [|split].
  - destruct H as [[-> ->]|[-> ->]]; (split; [unfold OPEN_MAX; lia|]); eexists;
      (split; [apply lookup_singleton_eq|reflexivity]).
  - exists (FileDescription 5 O_RDWR 0 1). by destruct H as [[-> ->]|[-> ->]].
  - by exists (socket_inode 3 joined).
Qed.
Lemma sys_socket_stream_witness :
  wp (sys_write 3 [1; 2; 3]) (λ n _, n = 3) sample_joined ∧
  wp (sys_read 3 9) (λ r _, r = (2, [7; 8])) sample_joined.
Proof.
  destruct (sys_socket_stream sample_joined _ 3 0 5 joined (sample_end 3 0 (or_introl (conj eq_refl eq_refl)))
    (lookup_singleton_eq _ _) eq_refl) as [Hw Hr].
  split.
  - eapply wp_mono; [apply (Hw [1; 2; 3]); [reflexivity| |reflexivity]|].
    + split_and!; vm_compute; [done|lia|lia].
    + intros n s' (k & b & -> & -> & _). vm_compute. reflexivity.
  - eapply wp_mono; [apply (Hr 9); [reflexivity| |by vm_compute|done]|].
    + split_and!; vm_compute; [done|lia|lia].
    + intros r s' (b & -> & _). vm_compute. reflexivity.
Defined.

(** Binding a socket to a name and opening the name gives a descriptor of an inode
    that says S_IFSOCK and is a file of tmpfs. *)
Definition bound_address : sockaddr_un := SockaddrUn AF_UNIX (lit "/s" ++ replicate 106 0).
Example bound_then_opened :
  match (fd ← sys_socket AF_UNIX SOCK_STREAM;
         _ ← sys_bind fd bound_address 110;
         fd ← sys_open (lit "/s") O_RDONLY 0;
         d ← process_get_file_description fd;
         match d with PTR d => x ← desc d; nd ← node (d_inode x); mret (fd, nd) | _ => panic end)
        (sample_fs (lit "/")) with
  | Done (fd, nd) _ => (fd, S_ISSOCK (mode nd), fops nd, match data nd with TmpfsData _ l => l | _ => [] end)
  | _ => (0, false, null_fops, [])
  end = (1, true, non_dir_fops, []).
Proof. vm_compute. reflexivity. Qed.
Definition sample_bound : kstate :=
  with_inodes (λ _, {[ 5%nat := Inode (Some 0%nat) non_dir_fops 0 (Some 6%nat) 1 3 S_IFSOCK
      (TmpfsData growable_buf_zero []) ]})
    (with_descs (λ _, {[ 2%nat := FileDescription 5 O_RDONLY 0 1 ]})
      (with_procs (λ _, {[0%nat := set_fd_table [None; Some 2%nat] (process_at (lit "/"))]})
        (one_process (lit "/")))).
Lemma bound_name_is_no_socket_witness :
  sys_listen 1 5 sample_bound = Undef ∧ sys_connect 1 bound_address 110 sample_bound = Undef.
Proof.
  eapply (bound_name_is_no_socket sample_bound 1 2 _ _ growable_buf_zero []).
  - split; [unfold OPEN_MAX; lia|]. eexists. split; [apply lookup_singleton_eq|reflexivity].
  - apply lookup_singleton_eq.
  - apply lookup_singleton_eq.
  - reflexivity.
  - reflexivity.
Defined.
Lemma sys_socket_close_leaks_witness :
  wp (fd ← sys_socket AF_UNIX SOCK_STREAM; rc ← sys_close fd; mret (fd, rc))
     (λ '(fd, rc) s', fd = 0 ∧ rc = 0 ∧
        s' = with_inodes <[0%nat := socket_inode 1 unconnected]> (one_process (lit "/")))
     (one_process (lit "/")).
Proof.
  apply (sys_socket_close_leaks (one_process (lit "/")) (process_at (lit "/")) 0).
  - reflexivity.
  - apply lookup_singleton_eq.
  - apply sample_lowest.
Defined.
