(* ===== verification/SyscallProcess.v ===== *)
(** * Process system calls and the end of a process (kernel/syscall/process.c,
    the exit paths of kernel/process.c)

    The address space of a process is not part of this state: cloning it is a
    request that succeeds or fails with -ENOMEM (see PagingClone). *)
From stdpp Require Import fin_maps.
From S2P Require Import Prelude Errno Kernel Inode Path Process Scheduler Fs Vfs.

(** ** The end of a process *)

(** Orphaned children are adopted by init. *)
Fixpoint adopt (parent : Z) (it : list nat) : K kstate unit :=
  match it with
  | [] => mret tt
  | p :: next =>
      x ← proc p;
      _ ← when (ppid x =? parent) (set_proc p (set_ids 1 (pgid x) x));
      adopt parent next
  end.
(** What [die] does up to its switch to another process. *)
Definition die_body : K kstate unit :=
  p ← current_process;
  _ ← ASSERT (negb (pid p =? 1)); (* PANIC *)
  _ ← file_descriptor_table_destroy (fd_table p);
  _ ← inode_unref_opt (cwd_inode p);
  s ← get;
  _ ← adopt (pid p) (all_processes s);
  update_current (set_pstate PROCESS_STATE_DEAD).
Definition die : K kstate unit := _ ← die_body; scheduler_yield false.
Definition process_die_if_needed : K kstate unit :=
  p ← current_process;
  when (bool_decide (pstate p = PROCESS_STATE_DYING)) die.
Definition process_exit (status : Z) : K kstate unit :=
  _ ← update_current (set_exit_status (Z.shiftl (Z.land status 0xff) 8)); die.
Definition process_crash_in_userland (signum : Z) : K kstate unit :=
  _ ← update_current (set_exit_status (Z.land signum 0xff)); die.
Definition scheduler_tick (in_kernel : bool) : K kstate unit :=
  _ ← (if negb in_kernel then process_die_if_needed else mret tt);
  _ ← process_tick in_kernel;
  scheduler_yield true.

(** ** System calls *)

Definition sys_exit (status : Z) : K kstate unit := process_exit status.
Definition sys_getpid : K kstate Z := p ← current_process; mret (pid p).

Definition sys_setpgid (id group : Z) : K kstate Z :=
  if group <? 0 then mret (ERR EINVAL)
  else
    c ← current_process;
    let target_pid := if id =? 0 then pid c else id in
    target ← process_find_process_by_pid target_pid;
    match target with
    | None => mret (ERR ESRCH)
    | Some target =>
        _ ← update_proc target
              (λ x, set_ids (ppid x) (if group =? 0 then target_pid else group) x);
        mret 0
    end.
Definition sys_getpgid (id : Z) : K kstate Z :=
  if id =? 0 then c ← current_process; mret (pgid c)
  else
    p ← process_find_process_by_pid id;
    match p with
    | None => mret (ERR ESRCH)
    | Some p => x ← proc p; mret (pgid x)
    end.
Definition sys_sched_yield : K kstate Z := _ ← scheduler_yield true; mret 0.

Definition sys_fork : K kstate Z :=
  ok ← kmalloc_ok; (* kaligned_alloc *)
  if negb ok then mret (ERR ENOMEM)
  else
    ok ← kmalloc_ok; (* paging_clone_current_page_directory *)
    if negb ok then mret (ERR ENOMEM)
    else
      c ← current_process;
      id ← process_generate_next_pid;
      ok ← kmalloc_ok; (* kstrdup *)
      if negb ok then mret (ERR ENOMEM)
      else
        _ ← (match cwd_inode c with Some i => inode_ref i | None => panic end);
        '(rc, table) ← file_descriptor_table_clone_from (fd_table c);
        if IS_ERR rc then mret rc
        else
          ok ← kmalloc_ok; (* the kernel stack *)
          if negb ok then mret (ERR ENOMEM)
          else
            s ← get;
            let p := fresh (dom (procs s)) in
            _ ← set_proc p
                  (Process id (pid c) (pgid c) PROCESS_STATE_RUNNABLE 0 (take 15 (comm c))
                     (cwd_path c) (cwd_inode c) table None None false
                     (user_ticks c) (kernel_ticks c) 0);
            _ ← scheduler_register p;
            mret id.

Definition sys_kill (id sig : Z) : K kstate Z :=
  if 0 <? id then process_send_signal_to_one id sig
  else if id =? 0 then c ← current_process; process_send_signal_to_group (pgid c) sig
  else if id =? -1 then process_send_signal_to_all sig
  else process_send_signal_to_group (s32 (- id)) sig.

Definition WNOHANG : Z := 1.
(** The end of sys_waitpid, when the process goes on: the result and the status
    stored at [wstatus]. *)
Definition reap : K kstate (Z * option Z) :=
  c ← current_process;
  match waited_process c with
  | None => mret (ERR ECHILD, None)
  | Some w =>
      s ← get;
      _ ← scheduler_unregister (S (length (all_processes s))) w;
      x ← proc w;
      _ ← modify (with_procs (delete w));
      mret (pid x, Some (exit_status x))
  end.
Definition sys_waitpid (id options : Z) : K kstate (Z * option Z) :=
  if negb (Z.land options (u32 (Z.lnot WNOHANG)) =? 0) then mret (ERR ENOTSUP, None)
  else
    s ← get;
    c ← current_process;
    _ ← update_current (set_waited None);
    let blocker := Waitpid id (pid c) (pgid c) in
    rc ← (if has_flag options WNOHANG then
            r ← run_blocker (current s) blocker;
            if negb r then c ← current_process;
                           mret (Some (if decide (waited_process c = None) then ERR ECHILD else 0))
            else mret None
          else rc ← scheduler_block blocker; mret (if IS_ERR rc then Some rc else None));
    match rc with
    | Some rc => mret (rc, None)
    | None => reap
    end.

(** The result and what is stored; [uptime] is the clock of kernel/time.c. *)
Definition sys_times (uptime : Z) : K kstate (Z * (Z * Z)) :=
  c ← current_process; mret (uptime, (user_ticks c, kernel_ticks c)).

(** The string stored in a buffer of [size] bytes, if there is one. *)
Definition sys_getcwd (buf : bool) (size : Z) : K kstate (ptr_res (list Z)) :=
  if negb buf || (size =? 0) then mret (ERR_PTR (ERR EINVAL))
  else
    c ← current_process;
    if size <? Z.of_nat (length (cwd_path c)) + 1 then mret (ERR_PTR (ERR ERANGE))
    else mret (PTR (cwd_path c)).

Definition sys_chdir (path : list Z) : K kstate Z :=
  new_cwd_path ← vfs_canonicalize_path path;
  match new_cwd_path with
  | ERR_PTR rc => mret rc
  | PTR new_cwd_path =>
      r ← vfs_resolve_path path false;
      match r_inode r with
      | ERR_PTR rc => mret rc
      | PTR i =>
          nd ← node i;
          if negb (S_ISDIR (mode nd)) then _ ← inode_unref i; mret (ERR ENOTDIR)
          else
            c ← current_process;
            _ ← inode_unref_opt (cwd_inode c);
            _ ← update_current (set_cwd new_cwd_path (Some i));
            mret 0
      end
  end.
