(* ===== verification/Lifecycle.v ===== *)
(** * The life of a process: creation, fork, exit and wait (kernel/process.c,
    kernel/scheduler.c, kernel/syscall/process.c)

    How kernel processes are made, and what the calls of the life of a process do
    to the objects it shares. A fork adds one reference for each use of a
    description and one to the working directory; the end of the child takes away
    the same ones; the wait of the parent removes the child. A crash ends the current
    process the same way and leaves its children to init. The register frame,
    the page directory and the stack of a process are not part of the state:
    making them succeeds or fails with -ENOMEM. *)
From stdpp Require Import fin_maps.
From S2P Require Import Prelude.
From S2P Require Import Errno.
From S2P Require Import GrowableBuf.
From S2P Require Import Kernel.
From S2P Require Import Inode.
From S2P Require Import Path.
From S2P Require Import Tmpfs.
From S2P Require Import Process.
From S2P Require Import Scheduler.
From S2P Require Import Scheduling.
From S2P Require Import Fs.
From S2P Require Import Vfs.
From S2P Require Import SyscallProcess.

(** ** Kernel processes *)

(** strlcpy to [comm]. *)
Definition comm_of (name : list Z) : list Z := take 15 name.

(** What is made before the process is listed anywhere. *)
Definition process_create_kernel_process (name : list Z) : K kstate (ptr_res process) :=
  ok ← kmalloc_ok; (* kaligned_alloc *)
  if negb ok then mret (ERR_PTR (ERR ENOMEM))
  else
    ok ← kmalloc_ok; (* paging_create_page_directory *)
    if negb ok then mret (ERR_PTR (ERR ENOMEM))
    else
      ok ← kmalloc_ok; (* kstrdup *)
      if negb ok then mret (ERR_PTR (ERR ENOMEM))
      else
        cwd ← vfs_get_root;
        ok ← kmalloc_ok;
        let '(rc, table) := file_descriptor_table_init ok in
        if IS_ERR rc then mret (ERR_PTR rc)
        else
          ok ← kmalloc_ok; (* the stack *)
          if negb ok then mret (ERR_PTR (ERR ENOMEM))
          else
            mret (PTR (Process 0 0 0 PROCESS_STATE_RUNNABLE 0 (comm_of name) ROOT_DIR (Some cwd)
                         table None None false 0 0 0)).
(** The object gets a number of its own. *)
Definition place_process (x : process) : K kstate nat :=
  s ← get; let p := fresh (dom (procs s)) in _ ← set_proc p x; mret p.
Definition process_spawn_kernel_process (name : list Z) : K kstate Z :=
  process ← process_create_kernel_process name;
  match process with
  | ERR_PTR rc => mret rc
  | PTR x => p ← place_process x; _ ← scheduler_register p; mret (pid x)
  end.
Definition set_idle (p : option nat) (s : kstate) : kstate :=
  KState (inodes s) (descs s) (root s) (mount_points s) (devices s) (locks s) (procs s)
    (all_processes s) (ready_queue s) p (current s) (next_pid s) (rand_state s) (grants s).
Definition scheduler_init : K kstate unit :=
  process ← process_create_kernel_process (lit "idle");
  match process with
  | ERR_PTR _ => panic
  | PTR x => p ← place_process x; modify (set_idle (Some p))
  end.
(** The process that runs from the start; it is not listed. *)
Definition process_init : K kstate unit :=
  ok ← kmalloc_ok; (* kaligned_alloc *)
  _ ← ASSERT ok;
  ok ← kmalloc_ok; (* kstrdup *)
  _ ← ASSERT ok;
  cwd ← vfs_get_root;
  ok ← kmalloc_ok;
  let '(rc, table) := file_descriptor_table_init ok in
  _ ← ASSERT (negb (IS_ERR rc));
  p ← place_process (Process 0 0 0 PROCESS_STATE_RUNNING 0 (comm_of (lit "kernel_init")) ROOT_DIR
                       (Some cwd) table None None false 0 0 0);
  set_current p.

(** ** References to descriptions *)

(** How often a table names a description. *)
Fixpoint uses (d : nat) (table : list (option nat)) : Z :=
  match table with
  | [] => 0
  | Some e :: table => (if decide (d = e) then 1 else 0) + uses d table
  | None :: table => uses d table
  end.
(** Every description with the references of [table] added [n] times. *)
Definition referred (n : Z) (table : list (option nat)) (s : kstate) : kstate :=
  with_descs (map_imap (λ d x, Some (set_d_ref_count (d_ref_count x + n * uses d table) x))) s.
(** The table names existing descriptions, and one more reference for every use
    fits their counters. *)
Definition can_share (table : list (option nat)) (s : kstate) : Prop :=
  ∀ d, 0 < uses d table →
    ∃ x, descs s !! d = Some x ∧ 0 < d_ref_count x ∧ d_ref_count x + uses d table < U32.
(** Every description of the table is in use elsewhere too. *)
Definition is_shared (table : list (option nat)) (s : kstate) : Prop :=
  ∀ d, 0 < uses d table → ∃ x, descs s !! d = Some x ∧ uses d table < d_ref_count x.

Lemma uses_nonneg d table : 0 ≤ uses d table.
Proof. induction table as [|[e|] table IH]; cbn [uses]; [done| |done]. case_decide; lia. Qed.
Lemma uses_head d table : uses d (Some d :: table) = 1 + uses d table.
Proof. cbn [uses]. by rewrite decide_True. Qed.
Lemma referred_nil n s : referred n [] s = s.
Proof.
  apply with_descs_id, map_eq. intros d. rewrite map_lookup_imap.
  destruct (descs s !! d) as [[? ? ? ?]|]; cbn; [|done]. unfold set_d_ref_count. cbn [uses]. cbn. do 2 f_equal; lia.
Qed.
(** One entry and the rest of the table. *)
Lemma referred_cons n d x table s :
  descs s !! d = Some x →
  referred n table (with_descs <[d := set_d_ref_count (d_ref_count x + n) x]> s) =
    referred n (Some d :: table) s.
Proof.
  intros Hx. unfold referred, with_descs. cbn. f_equal. apply map_eq. intros e.
  rewrite !map_lookup_imap. cbn [uses]. destruct (decide (e = d)) as [->|Hne].
  - rewrite lookup_insert_eq, Hx. unfold mbind, option_bind, set_d_ref_count.
    cbn [d_inode d_flags d_offset d_ref_count]. do 2 f_equal. lia.
  - rewrite lookup_insert_ne by done. by rewrite Z.add_0_l.
Qed.
Lemma referred_again n m table s :
  referred n table (referred m table s) = referred (n + m) table s.
Proof.
  unfold referred, with_descs. cbn. f_equal. apply map_eq. intros e. rewrite !map_lookup_imap.
  destruct (descs s !! e); [|done]. unfold mbind, option_bind, set_d_ref_count.
  cbn [d_inode d_flags d_offset d_ref_count]. do 2 f_equal. lia.
Qed.
Lemma referred_zero table s : referred 0 table s = s.
Proof.
  apply with_descs_id, map_eq. intros d. rewrite map_lookup_imap.
  destruct (descs s !! d) as [[? ? ? ?]|]; cbn; [|done]. unfold set_d_ref_count. cbn [uses]. cbn. do 2 f_equal; lia.
Qed.

Lemma ref_all_run table s : can_share table s → ref_all table s = Done tt (referred 1 table s).
Proof.
  revert s. induction table as [|[d|] table IH]; intros s Hs; cbn [ref_all].
  - by rewrite referred_nil.
  - destruct (Hs d) as (x & Hx & Hp & Hb); [rewrite uses_head; pose proof (uses_nonneg d table); lia|].
    rewrite uses_head in Hb. pose proof (uses_nonneg d table).
    rewrite (bind_run _ _ _ _ _ (desc_run _ _ _ Hx)), u32_small by lia.
    unfold mbind, K_bind, set_desc, modify. rewrite IH; [by rewrite referred_cons|].
    intros e He. cbn [with_descs descs]. destruct (decide (e = d)) as [->|Hne].
    + rewrite lookup_insert_eq. eexists. split; [done|]. cbn. lia.
    + rewrite lookup_insert_ne by done. destruct (Hs e) as (y & Hy & Hyp & Hyb).
      { cbn [uses]. rewrite decide_False by done. lia. }
      exists y. cbn [uses] in Hyb. rewrite decide_False in Hyb by done. split_and!; [done|lia|lia].
  - rewrite IH; [done|]. intros d Hd. by apply Hs.
Qed.
(** Closing a description that is in use elsewhere only counts down. *)
Lemma close_shared d x s :
  descs s !! d = Some x → 1 < d_ref_count x →
  file_description_close d s = Done 0 (with_descs <[d := set_d_ref_count (d_ref_count x + -1) x]> s).
Proof.
  intros Hx Hr. unfold file_description_close. rewrite (bind_run _ _ _ _ _ (desc_run _ _ _ Hx)).
  unfold ASSERT. rewrite (proj2 (Z.ltb_lt 0 (d_ref_count x))) by lia.
  unfold mbind, K_bind, mret, K_ret, set_desc, modify.
  by rewrite (proj2 (Z.ltb_lt 0 (d_ref_count x - 1))) by lia.
Qed.
Lemma close_all_run table s : is_shared table s → close_all table s = Done tt (referred (-1) table s).
Proof.
  revert s. induction table as [|[d|] table IH]; intros s Hs; cbn [close_all].
  - by rewrite referred_nil.
  - destruct (Hs d) as (x & Hx & Hb); [rewrite uses_head; pose proof (uses_nonneg d table); lia|].
    rewrite uses_head in Hb. pose proof (uses_nonneg d table).
    rewrite (bind_run _ _ _ _ _ (close_shared d x s Hx ltac:(lia))).
    rewrite IH; [by rewrite referred_cons|].
    intros e He. cbn [with_descs descs]. destruct (decide (e = d)) as [->|Hne].
    + rewrite lookup_insert_eq. eexists. split; [done|]. cbn. lia.
    + rewrite lookup_insert_ne by done. destruct (Hs e) as (y & Hy & Hyb).
      { cbn [uses]. rewrite decide_False by done. lia. }
      exists y. cbn [uses] in Hyb. rewrite decide_False in Hyb by done. split; [done|lia].
  - rewrite IH; [done|]. intros d Hd. by apply Hs.
Qed.
(** With the references of the child, the descriptions are shared. *)
Lemma referred_is_shared table s : can_share table s → is_shared table (referred 1 table s).
Proof.
  intros Hs d Hd. destruct (Hs d Hd) as (x & Hx & Hp & _). unfold referred. cbn [with_descs descs].
  rewrite map_lookup_imap, Hx. cbn. eexists. split; [done|]. cbn. lia.
Qed.

(** ** Fork *)

Lemma kmalloc_ok_run s :
  kmalloc_ok s = Done (default true (head (grants s))) (with_grants (tail (grants s)) s).
Proof. unfold kmalloc_ok. destruct s as [? ? ? ? ? ? ? ? ? ? ? ? ? g]. by destruct g. Qed.
Lemma insert_by_pid_splits id p l s :
  known s l → ∃ l1 l2, l = l1 ++ l2 ∧ insert_by_pid id p l s = Done (l1 ++ p :: l2) s.
Proof.
  induction l as [|q l IH]; intros Hk; cbn [insert_by_pid]; [by exists [], []|].
  destruct (Hk q) as [x Hx]; [by left|]. rewrite (bind_run _ _ _ _ _ (proc_run q x s Hx)).
  destruct (pid x <? id); [|by exists [], (q :: l)].
  destruct IH as (l1 & l2 & -> & Hrun); [intros r Hr; apply Hk; by right|].
  exists (q :: l1), l2. split; [done|]. by rewrite (bind_run _ _ _ _ _ Hrun).
Qed.
(** A new process goes in its place of the list and to the end of the queue. *)
Lemma scheduler_register_run p x s :
  known s (all_processes s) → procs s !! p = Some x → pstate x = PROCESS_STATE_RUNNABLE →
  ∃ l1 l2, all_processes s = l1 ++ l2 ∧
    scheduler_register p s = Done tt (with_sched (l1 ++ p :: l2) (ready_queue s ++ [p]) (current s) s).
Proof.
  intros Hk Hx Hr. destruct (insert_by_pid_splits (pid x) p (all_processes s) s Hk) as (l1 & l2 & Hl & Hrun).
  exists l1, l2. split; [done|]. unfold scheduler_register.
  rewrite (bind_run _ _ _ _ _ (proc_run p x s Hx)). rewrite Hr. cbn [ASSERT bool_decide].
  unfold mbind at 1, K_bind at 1, ASSERT, mret, K_ret. cbn [bool_decide decide_rel].
  rewrite bool_decide_eq_true_2 by done. unfold mbind at 1, K_bind at 1, get.
  rewrite (bind_run _ _ _ _ _ Hrun). unfold set_all, mbind at 1, K_bind at 1, modify.
  unfold scheduler_enqueue. set (s1 := with_sched _ _ _ s).
  assert (procs s1 !! p = Some x) as H1 by done.
  rewrite (bind_run _ _ _ _ _ (proc_run p x s1 H1)), Hr. done.
Qed.

(** The child of [c]. *)
Definition child_of (c : process) (id : Z) : process :=
  Process id (pid c) (pgid c) PROCESS_STATE_RUNNABLE 0 (comm_of (comm c)) (cwd_path c) (cwd_inode c)
    (fd_table c) None None false (user_ticks c) (kernel_ticks c) 0.
Record can_fork (s : kstate) (c : process) (i : nat) : Prop := CanFork {
  cf_current : procs s !! current s = Some c;
  cf_cwd : cwd_inode c = Some i ∧ is_Some (inodes s !! i);
  cf_table : can_share (fd_table c) s;
  cf_known : known s (all_processes s);
}.
(** What is left behind: nothing, a number, a reference to the working directory,
    references to the descriptions. *)
Definition pid_taken (s : kstate) : kstate := with_next_pid (s32 (next_pid s + 1)) s.
Inductive fork_leak (c : process) (i : nat) (s : kstate) : kstate → Prop :=
  | leak_nothing : fork_leak c i s s
  | leak_pid : fork_leak c i s (pid_taken s)
  | leak_cwd : fork_leak c i s (bump i 1 (pid_taken s))
  | leak_descs : fork_leak c i s (referred 1 (fd_table c) (bump i 1 (pid_taken s))).
(** The child is in its place of the list and at the end of the queue. *)
Definition forked (c : process) (i : nat) (s : kstate) (p : nat) (s' : kstate) : Prop :=
  ∃ l1 l2, all_processes s = l1 ++ l2 ∧
    s' = with_sched (l1 ++ p :: l2) (ready_queue s ++ [p]) (current s)
           (with_procs <[p := child_of c (next_pid s)]>
             (referred 1 (fd_table c) (bump i 1 (pid_taken s)))).

(** A request for memory: the call fails, or goes on. *)
Lemma wp_needs_memory (k : K kstate Z) (Q : Z → kstate → Prop) s :
  (false ∈ grants s → ∀ g, Q (ERR ENOMEM) (with_grants g s)) →
  (∀ g, (false ∈ g → false ∈ grants s) → wp k Q (with_grants g s)) →
  wp (ok ← kmalloc_ok; if negb ok then mret (ERR ENOMEM) else k) Q s.
Proof.
  intros Hd Hg. apply wp_bind. eapply wp_run; [apply kmalloc_ok_run|].
  destruct (grants s) as [|[] l]; cbn [head tail default negb]; cbv iota.
  - by apply Hg.
  - apply Hg. intros H. by right.
  - apply wp_ret, Hd. by left.
Qed.
Lemma wp_clone_table table (Q : Z * list (option nat) → kstate → Prop) s :
  can_share table s →
  (false ∈ grants s → ∀ g, Q (ERR ENOMEM, []) (with_grants g s)) →
  (∀ g, (false ∈ g → false ∈ grants s) → Q (0, table) (with_grants g (referred 1 table s))) →
  wp (file_descriptor_table_clone_from table) Q s.
Proof.
  intros Ht Hd Hg. unfold file_descriptor_table_clone_from. apply wp_bind.
  eapply wp_run; [apply kmalloc_ok_run|].
  assert (∀ g, (false ∈ g → false ∈ grants s) →
    wp (_ ← ref_all table; mret (0, table)) Q (with_grants g s)) as Hok.
  { intros g H. apply wp_bind. eapply wp_run; [by apply (ref_all_run table (with_grants g s))|].
    apply wp_ret. by apply Hg. }
  destruct (grants s) as [|[] l]; cbn [head tail default negb]; cbv iota.
  - by apply Hok.
  - apply Hok. intros H. by right.
  - apply wp_ret, Hd. by left.
Qed.
Lemma next_pid_run s : process_generate_next_pid s = Done (next_pid s) (pid_taken s).
Proof. done. Qed.
Lemma sys_fork_wp s c i :
  can_fork s c i →
  wp sys_fork (λ rc s', ∃ g,
    (rc = ERR ENOMEM ∧ false ∈ grants s ∧ ∃ s1, fork_leak c i s s1 ∧ s' = with_grants g s1) ∨
    (rc = next_pid s ∧ ∃ p s1, procs s !! p = None ∧ forked c i s p s1 ∧ s' = with_grants g s1)) s.
Proof.
  intros [Hc [Hi Hnd] Ht Hk].
  assert (Hfail : ∀ s1 g, fork_leak c i s s1 → false ∈ grants s → ∃ g',
    (ERR ENOMEM = ERR ENOMEM ∧ false ∈ grants s ∧ ∃ s2, fork_leak c i s s2 ∧ with_grants g s1 = with_grants g' s2) ∨
    (ERR ENOMEM = next_pid s ∧ ∃ p s2, procs s !! p = None ∧ forked c i s p s2 ∧ with_grants g s1 = with_grants g' s2)).
  { intros s1 g Hl Hd. exists g. left. split_and!; [done..|]. by exists s1. }
  unfold sys_fork.
  apply wp_needs_memory; [intros Hd g; apply (Hfail s); [constructor|done]|intros g0 H0].
  apply wp_needs_memory; [intros Hd g; apply (Hfail s); [constructor|auto]|intros g1 H1].
  apply wp_bind. eapply wp_run; [by apply current_process_run|].
  apply wp_bind. eapply wp_run; [apply next_pid_run|].
  apply wp_needs_memory; [intros Hd g; apply (Hfail (pid_taken s)); [constructor|auto]|intros g2 H2].
  rewrite Hi. apply wp_bind, wp_inode_ref; [exact Hnd|].
  apply wp_bind, wp_clone_table.
  { exact Ht. }
  { intros Hd g. cbv iota beta. apply wp_ret. apply (Hfail (bump i 1 (pid_taken s))); [constructor|auto]. }
  intros g3 H3. cbv iota beta. change (IS_ERR 0) with false. cbv iota.
  apply wp_needs_memory.
  { intros Hd g. apply (Hfail (referred 1 (fd_table c) (bump i 1 (pid_taken s)))); [constructor|auto]. }
  intros g4 _. apply wp_bind, wp_get.
  set (s4 := with_grants g4 _). set (p := fresh (dom (procs s4))).
  assert (procs s !! p = None) as Hp.
  { apply not_elem_of_dom. pose proof (is_fresh (dom (procs s4))) as Hf. exact Hf. }
  apply wp_bind. unfold set_proc. apply wp_modify.
  change (Process (next_pid (with_grants g1 s)) (pid c) (pgid c) PROCESS_STATE_RUNNABLE 0 (take 15 (comm c))
    (cwd_path c) (Some i) (fd_table c) None None false (user_ticks c) (kernel_ticks c) 0)
    with (Process (next_pid s) (pid c) (pgid c) PROCESS_STATE_RUNNABLE 0 (comm_of (comm c))
    (cwd_path c) (Some i) (fd_table c) None None false (user_ticks c) (kernel_ticks c) 0).
  rewrite <-Hi. fold (child_of c (next_pid s)). set (s5 := with_procs _ s4).
  destruct (scheduler_register_run p (child_of c (next_pid s)) s5) as (l1 & l2 & Hl & Hrun).
  { intros q Hq. cbn. destruct (Hk q Hq) as [y Hy]. destruct (decide (p = q)) as [<-|]; [congruence|].
    rewrite lookup_insert_ne by done. by exists y. }
  { apply lookup_insert_eq. }
  { done. }
  apply wp_bind. eapply wp_run; [exact Hrun|]. apply wp_ret. exists g4. right. split; [done|].
  eexists p, _. split; [done|]. split; [exists l1, l2; split; [exact Hl|reflexivity]|reflexivity].
Qed.

(** ** Exit *)

(** States with the same fields. *)
Lemma kstate_eq s t :
  inodes s = inodes t → descs s = descs t → root s = root t → mount_points s = mount_points t →
  devices s = devices t → locks s = locks t → procs s = procs t → all_processes s = all_processes t →
  ready_queue s = ready_queue t → idle s = idle t → current s = current t → next_pid s = next_pid t →
  Kernel.rand_state s = Kernel.rand_state t → grants s = grants t → s = t.
Proof. destruct s as [], t as []. cbn. by intros <- <- <- <- <- <- <- <- <- <- <- <- <- <-. Qed.

(** The processor is given to [p], which is taken off the queue. *)
Definition takes_over (p : nat) (s : kstate) : kstate :=
  with_sched (all_processes s) (filter (λ q, q ≠ p) (ready_queue s)) p s.
Lemma adopt_none parent l s : none_of s (λ x, ppid x =? parent) l → adopt parent l s = Done tt s.
Proof.
  induction 1 as [|q l (y & Hy & Hf) Hl IH]; cbn [adopt]; [done|].
  rewrite (bind_run _ _ _ _ _ (proc_run q y s Hy)), Hf. exact IH.
Qed.
(** A process without children whose descriptions and working directory are in use
    elsewhere. *)
Record leaves_quietly (s : kstate) (x : process) (i : nat) (nd : inode) : Prop := LeavesQuietly {
  lq_current : procs s !! current s = Some x;
  lq_table : is_shared (fd_table x) s;
  lq_cwd : cwd_inode x = Some i ∧ inodes s !! i = Some nd ∧ 1 < ref_count nd < U32;
  lq_children : none_of s (λ y, ppid y =? pid x) (all_processes s);
}.
Definition ended (status : Z) (x : process) : process :=
  set_pstate PROCESS_STATE_DEAD (set_exit_status (Z.shiftl (Z.land status 0xff) 8) x).
Lemma process_exit_run status x i nd s :
  leaves_quietly s x i nd → pid x ≠ 1 →
  process_exit status s =
    scheduler_yield false (with_procs <[current s := ended status x]>
      (bump i (-1) (referred (-1) (fd_table x) s))).
Proof.
  intros [Hx Ht (Hi & Hnd & Hr) Hch] Hp. unfold process_exit.
  rewrite (bind_run _ _ _ _ _ (update_current_run x _ s Hx)).
  set (x1 := set_exit_status _ x). set (s1 := with_procs <[current s := x1]> s).
  assert (procs s1 !! current s1 = Some x1) as H1 by apply lookup_insert_eq.
  set (s2 := bump i (-1) (referred (-1) (fd_table x) s1)).
  assert (die_body s1 = Done tt (with_procs <[current s := ended status x]> s2)) as Hd.
  { unfold die_body. rewrite (bind_run _ _ _ _ _ (current_process_run x1 s1 H1)).
    unfold ASSERT. rewrite (proj2 (Z.eqb_neq (pid x1) 1)) by done.
    unfold mbind at 1, K_bind at 1, negb, mret, K_ret.
    unfold file_descriptor_table_destroy. rewrite (bind_run _ _ _ _ _ (close_all_run (fd_table x1) s1 Ht)).
    change (cwd_inode x1) with (cwd_inode x). rewrite Hi. cbn [inode_unref_opt].
    assert (inode_unref i (referred (-1) (fd_table x1) s1) = Done tt s2) as Hu.
    { apply (inode_unref_run i nd); [exact Hnd|lia|left; lia]. }
    rewrite (bind_run _ _ _ _ _ Hu). unfold mbind at 1, K_bind at 1, get.
    assert (none_of s2 (λ y, ppid y =? pid x1) (all_processes s2)) as Hno.
    { eapply Forall_impl; [exact Hch|]. intros q (y & Hy & Hf).
      change (procs s2) with (procs s1).
      destruct (decide (current s = q)) as [<-|Hne].
      - exists x1. rewrite Hx in Hy. injection Hy as <-. split; [exact H1|exact Hf].
      - exists y. split; [|exact Hf]. unfold s1. cbn [with_procs procs].
        by rewrite lookup_insert_ne. }
    rewrite (bind_run _ _ _ _ _ (adopt_none _ _ _ Hno)).
    rewrite (update_current_run x1) by exact H1. unfold s2, s1.
    unfold bump, referred, with_inodes, with_descs, with_procs. cbn. by rewrite !insert_insert_eq. }
  unfold die. rewrite (bind_run _ _ _ _ _ Hd). f_equal. unfold s2, s1.
  unfold bump, referred, with_inodes, with_descs, with_procs. cbn. by rewrite insert_insert_eq.
Qed.

(** ** Crash *)

(** What is left of a process that ended, and the children of the process [parent],
    which init adopts. *)
Definition corpse (status : Z) (x : process) : process :=
  Process (pid x) (ppid x) (pgid x) PROCESS_STATE_DEAD status (comm x) (cwd_path x) (cwd_inode x) (fd_table x)
    (should_unblock x) (waited_process x) (blocker_was_interrupted x) (user_ticks x) (kernel_ticks x)
    (pending_signals x).
Definition adopted (parent : Z) (x : process) : process :=
  Process (pid x) (if ppid x =? parent then 1 else ppid x) (pgid x) (pstate x) (exit_status x) (comm x) (cwd_path x)
    (cwd_inode x) (fd_table x) (should_unblock x) (waited_process x) (blocker_was_interrupted x) (user_ticks x)
    (kernel_ticks x) (pending_signals x).
Definition orphaned (parent : Z) (l : list nat) (p : nat) (y : process) : process :=
  if decide (p ∈ l) then adopted parent y else y.
(** The current process [x], whose working directory is [i], has ended. *)
Definition crashed (status : Z) (x : process) (i : nat) (s : kstate) : kstate :=
  with_procs (map_imap (λ p y, Some (let y' := orphaned (pid x) (all_processes s) p y in
      if decide (p = current s) then corpse status y' else y')))
    (bump i (-1) (referred (-1) (fd_table x) s)).
(** The current process can end: it is neither init nor the idle process, its
    descriptions and its working directory are in use elsewhere. *)
Record can_crash (s : kstate) (x : process) (i : nat) (nd : inode) : Prop := CanCrash {
  cc_current : procs s !! current s = Some x;
  cc_fit : fit s;
  cc_ordinary : pid x ≠ 1 ∧ idle s ≠ Some (current s);
  cc_table : is_shared (fd_table x) s;
  cc_cwd : cwd_inode x = Some i ∧ inodes s !! i = Some nd ∧ 1 < ref_count nd < U32;
}.

Lemma adopted_other parent x : ppid x ≠ parent → adopted parent x = x.
Proof. intros H. unfold adopted. rewrite (proj2 (Z.eqb_neq _ _) H). by destruct x. Qed.
Lemma adopt_run parent l s :
  NoDup l → known s l →
  adopt parent l s = Done tt (with_procs (map_imap (λ p y, Some (orphaned parent l p y))) s).
Proof.
  revert s. induction l as [|p l IH]; intros s Hnd Hk; cbn [adopt].
  { unfold mret, K_ret. f_equal. symmetry. apply with_procs_id, map_eq. intros q. rewrite map_lookup_imap.
    by destruct (procs s !! q). }
  apply NoDup_cons in Hnd as [Hp Hnd]. destruct (Hk p) as [x Hx]; [by left|].
  rewrite (bind_run _ _ _ _ _ (proc_run p x s Hx)).
  assert (when (ppid x =? parent) (set_proc p (set_ids 1 (pgid x) x)) s =
    Done tt (with_procs <[p := adopted parent x]> s)) as Hset.
  { destruct (Z.eqb_spec (ppid x) parent) as [E|E].
    - unfold adopted. rewrite (proj2 (Z.eqb_eq _ _) E). done.
    - rewrite adopted_other by done. cbn [when]. unfold mret, K_ret. f_equal. symmetry.
      by apply with_procs_id, insert_id. }
  rewrite (bind_run _ _ _ _ _ Hset), IH; [|done|].
  - f_equal. unfold with_procs. cbn. f_equal. apply map_eq. intros q. rewrite !map_lookup_imap. unfold orphaned. destruct (decide (q = p)) as [->|Hne].
    + rewrite lookup_insert_eq, Hx. cbn. rewrite decide_False, decide_True by (done || by left). done.
    + rewrite lookup_insert_ne by done. destruct (procs s !! q); [|done]. cbn. f_equal.
      apply decide_ext. rewrite elem_of_cons. naive_solver.
  - intros q Hq. cbn. destruct (decide (p = q)) as [<-|]; [by rewrite lookup_insert_eq|].
    rewrite lookup_insert_ne by done. apply Hk. by right.
Qed.

(** Counting references does not change what a process waits for. *)
Lemma condition_refs s t b :
  (∀ d, d_inode <$> descs t !! d = d_inode <$> descs s !! d) →
  (∀ j, data <$> inodes t !! j = data <$> inodes s !! j) → condition t b = condition s b.
Proof.
  intros Hd Hi.
  assert (∀ j, socket_at t j = socket_at s j) as Hs.
  { intros j. unfold socket_at. specialize (Hi j).
    destruct (inodes t !! j), (inodes s !! j); try done; cbn in Hi |- *; by injection Hi as ->. }
  assert (∀ d, fifo_at t d = fifo_at s d) as Hf.
  { intros d. unfold fifo_at. specialize (Hd d).
    destruct (descs t !! d) as [y|], (descs s !! d) as [z|]; try done. cbn in Hd |- *.
    injection Hd as ->. specialize (Hi (d_inode z)).
    destruct (inodes t !! _), (inodes s !! _); try done; cbn in Hi |- *; by injection Hi as ->. }
  destruct b as [d|d|d|d| | |]; cbn [condition]; rewrite ?Hf, ?Hs; try done; specialize (Hd d);
    destruct (descs t !! _) as [y|], (descs s !! _) as [z|]; try done; cbn in Hd |- *;
    injection Hd as ->; by rewrite Hs.
Qed.

Section crash.
Context (s : kstate) (x : process) (i : nat) (nd : inode) (signum : Z).
Context (Hcan : can_crash s x i nd).

Lemma crash_run : 0 ≤ signum < 256 → process_crash_in_userland signum s = scheduler_yield false (crashed signum x i s).
Proof using Hcan.
  destruct Hcan as [Hx [[Hnd Hk _ _ _ _] _ _] [Hp _] Ht (Hi & Hin & Hr)]. intros Hsig.
  unfold process_crash_in_userland.
  change 0xff with (Z.ones 8). rewrite Z.land_ones, Z.mod_small by lia.
  rewrite (bind_run _ _ _ _ _ (update_current_run x _ s Hx)).
  set (x1 := set_exit_status signum x). set (s1 := with_procs <[current s := x1]> s).
  assert (procs s1 !! current s1 = Some x1) as H1 by apply lookup_insert_eq.
  set (s2 := bump i (-1) (referred (-1) (fd_table x) s1)).
  assert (die_body s1 = Done tt (crashed signum x i s)) as Hd.
  { unfold die_body. rewrite (bind_run _ _ _ _ _ (current_process_run x1 s1 H1)).
    unfold ASSERT. rewrite (proj2 (Z.eqb_neq (pid x1) 1)) by done.
    unfold mbind at 1, K_bind at 1, negb, mret, K_ret.
    unfold file_descriptor_table_destroy. rewrite (bind_run _ _ _ _ _ (close_all_run (fd_table x1) s1 Ht)).
    change (cwd_inode x1) with (cwd_inode x). rewrite Hi. cbn [inode_unref_opt].
    assert (inode_unref i (referred (-1) (fd_table x1) s1) = Done tt s2) as Hu.
    { apply (inode_unref_run i nd); [exact Hin|lia|left; lia]. }
    rewrite (bind_run _ _ _ _ _ Hu). unfold mbind at 1, K_bind at 1, get.
    assert (known s2 (all_processes s2)) as Hk2.
    { intros q Hq. change (procs s2) with (procs s1). cbn. destruct (decide (current s = q)) as [<-|].
      - by rewrite lookup_insert_eq.
      - rewrite lookup_insert_ne by done. by apply Hk. }
    rewrite (bind_run _ _ _ _ _ (adopt_run (pid x1) (all_processes s2) s2 Hnd Hk2)).
    set (s3 := with_procs _ s2). set (x3 := orphaned (pid x1) (all_processes s2) (current s) x1).
    assert (procs s3 !! current s3 = Some x3) as H3.
    { change (procs s3) with (map_imap (λ p y, Some (orphaned (pid x1) (all_processes s2) p y)) (procs s1)).
      change (current s3) with (current s1). by rewrite map_lookup_imap, H1. }
    rewrite (update_current_run x3) by exact H3. f_equal. apply kstate_eq; try reflexivity.
    apply map_eq. intros q.
    change (<[current s := set_pstate PROCESS_STATE_DEAD x3]>
        (map_imap (λ p y, Some (orphaned (pid x1) (all_processes s2) p y)) (<[current s := x1]> (procs s))) !! q =
      map_imap (λ p y, Some (let y' := orphaned (pid x) (all_processes s) p y in
        if decide (p = current s) then corpse signum y' else y')) (procs s) !! q).
    rewrite map_lookup_imap. destruct (decide (q = current s)) as [->|Hne].
    - rewrite lookup_insert_eq, Hx. cbn. f_equal. unfold x3, orphaned.
      change (all_processes s2) with (all_processes s). by case_decide.
    - rewrite lookup_insert_ne, map_lookup_imap, lookup_insert_ne by done. destruct (procs s !! q); [|done].
      done. }
  unfold die. by rewrite (bind_run _ _ _ _ _ Hd).
Qed.

(** The others are as before but for their parent. *)
Lemma crashed_procs p :
  procs (crashed signum x i s) !! p = (λ y, let y' := orphaned (pid x) (all_processes s) p y in
    if decide (p = current s) then corpse signum y' else y') <$> procs s !! p.
Proof. change (procs (crashed signum x i s)) with (map_imap (λ p y, Some (let y' := orphaned (pid x) (all_processes s) p y in
    if decide (p = current s) then corpse signum y' else y')) (procs s)). rewrite map_lookup_imap. by destruct (procs s !! p). Qed.
Lemma orphaned_same l p y :
  let y' := orphaned (pid x) l p y in
  pstate y' = pstate y ∧ should_unblock y' = should_unblock y ∧ pending_signals y' = pending_signals y.
Proof. unfold orphaned. by case_decide. Qed.
Lemma crashed_runnable p : p ≠ current s → runnable s p → runnable (crashed signum x i s) p.
Proof.
  intros Hne (y & Hy & Hb & Hd & Hs). destruct (orphaned_same (all_processes s) p y) as (E1 & _ & E3).
  eexists. rewrite crashed_procs, Hy. cbn. rewrite decide_False by done. split; [done|]. by rewrite E1, E3.
Qed.
Lemma crashed_condition b : condition (crashed signum x i s) b = condition s b.
Proof.
  apply condition_refs.
  - intros d. unfold crashed, referred. cbn. rewrite map_lookup_imap. by destruct (descs s !! d).
  - intros j. change (inodes (crashed signum x i s)) with (inodes (bump i (-1) s)). unfold bump. cbn.
    destruct (decide (i = j)) as [<-|]; [rewrite lookup_alter_eq|by rewrite lookup_alter_ne].
    by destruct (inodes s !! i).
Qed.
Lemma crashed_fit : fit (crashed signum x i s).
Proof using Hcan.
  destruct Hcan as [Hx [[Hnd Hk Hwt Hsig Hready (j & Hj & Hrj)] Hdis [_ Hcur]] [_ Hid] _ _].
  assert (∀ p y, procs (crashed signum x i s) !! p = Some y → ∃ z, procs s !! p = Some z ∧
    pending_signals y = pending_signals z ∧
    (pstate y = PROCESS_STATE_BLOCKED → pstate z = PROCESS_STATE_BLOCKED ∧ should_unblock y = should_unblock z)) as Hback.
  { intros p y. rewrite crashed_procs. intros (z & -> & Hz)%fmap_Some. exists z. split; [done|].
    destruct (orphaned_same (all_processes s) p z) as (E1 & E2 & E3). subst y. cbv zeta.
    case_decide; [done|]. by rewrite E1, E2, E3. }
  split; [split|..].
  - exact Hnd.
  - intros p Hp. rewrite crashed_procs. apply fmap_is_Some. by apply Hk.
  - intros p y Hp Hy Hb. destruct (Hback p y Hy) as (z & Hz & _ & Hzb). destruct (Hzb Hb) as [Hb' ->].
    destruct (Hwt p z Hp Hz Hb') as (b & ? & Hc). exists b. split; [done|]. by rewrite crashed_condition.
  - intros p y Hp Hy. destruct (Hback p y Hy) as (z & Hz & -> & _). by apply (Hsig p z).
  - intros p Hp. apply crashed_runnable; [|by apply Hready]. intros ->. done.
  - exists j. split; [exact Hj|]. apply crashed_runnable; [|done]. intros ->. done.
  - exact Hdis.
  - split; [|exact Hcur]. rewrite crashed_procs. change (current (crashed signum x i s)) with (current s). by rewrite Hx.
Qed.
Lemma crash_wp :
  0 ≤ signum < 256 →
  wp (process_crash_in_userland signum) (λ _ s', switched false (crashed signum x i s) s') s.
Proof using Hcan.
  intros Hs. unfold wp. rewrite crash_run by done.
  apply scheduler_yield_wp; [apply crashed_fit|done].
Qed.
End crash.
Lemma crash_init signum s x :
  procs s !! current s = Some x → pid x = 1 → process_crash_in_userland signum s = Panic.
Proof.
  intros Hx Hp. unfold process_crash_in_userland. rewrite (bind_run _ _ _ _ _ (update_current_run x _ s Hx)).
  set (x1 := set_exit_status _ x). set (s1 := with_procs <[current s := x1]> s).
  assert (procs s1 !! current s1 = Some x1) as H1 by apply lookup_insert_eq.
  assert (die_body s1 = Panic) as Hd.
  { unfold die_body. rewrite (bind_run _ _ _ _ _ (current_process_run x1 s1 H1)).
    change (pid x1) with (pid x). by rewrite Hp. }
  unfold die, mbind, K_bind. by rewrite Hd.
Qed.

(** ** Wait *)

Lemma find_dead_at target l1 p l2 any prev s :
  none_of s target l1 →
  (∃ x, procs s !! p = Some x ∧ target x = true ∧ pstate x = PROCESS_STATE_DEAD) →
  find_dead target prev (l1 ++ p :: l2) any s = Done (Some (rev_append l1 prev, p, l2), true) s.
Proof.
  intros Hno (x & Hx & Ht & Hd). revert any prev. induction Hno as [|q l1 (y & Hy & Hf) _ IH]; intros any prev;
    cbn [app find_dead rev_append].
  - rewrite (bind_run _ _ _ _ _ (proc_run p x s Hx)), Ht, Hd. cbv zeta. rewrite orb_true_r. done.
  - rewrite (bind_run _ _ _ _ _ (proc_run q y s Hy)), Hf. cbv zeta. rewrite orb_false_r. apply IH.
Qed.
Lemma unregister_gone fuel p prev l s :
  p ∉ l → (length l < fuel)%nat → unregister_loop fuel p prev l s = Done tt s.
Proof.
  revert prev l. induction fuel as [|fuel IH]; intros prev l Hp Hf; [lia|]. cbn [unregister_loop].
  destruct l as [|q l]; [done|]. rewrite not_elem_of_cons in Hp. destruct Hp as [Hne Hp].
  cbn [length] in Hf. destruct (Nat.eqb_spec q p) as [->|]; cbn [negb]; [done|]. apply IH; [done|lia].
Qed.
(** The process that has ended is taken off the list, and then freed. *)
Lemma waitpid_condition id c l1 p x l2 s :
  0 < id → procs s !! current s = Some c → pid c ≠ id →
  all_processes s = l1 ++ p :: l2 → none_of s (λ y, pid y =? id) l1 →
  procs s !! p = Some x → pid x = id → pstate x = PROCESS_STATE_DEAD →
  run_blocker (current s) (Waitpid id (pid c) (pgid c)) s =
    Done true (with_procs <[current s := set_waited (Some p) c]>
      (with_sched (l1 ++ l2) (ready_queue s) (current s) s)).
Proof.
  intros Hid Hc Hcid Hall Hno Hx Hpid Hdead.
  assert (∀ z, is_target id (pid c) (pgid c) z = (pid z =? id)) as Ht.
  { intros z. unfold is_target. rewrite (proj2 (Z.ltb_ge id (-1))), (proj2 (Z.eqb_neq id (-1))),
      (proj2 (Z.eqb_neq id 0)) by lia. done. }
  cbn [run_blocker]. unfold waitpid_should_unblock, mbind at 1, K_bind at 1, get. rewrite Hall.
  assert (none_of s (is_target id (pid c) (pgid c)) l1) as Hno1.
  { eapply Forall_impl; [exact Hno|]. intros q (y & Hy & Hf). exists y. by rewrite Ht. }
  assert (∃ x, procs s !! p = Some x ∧ is_target id (pid c) (pgid c) x = true ∧
    pstate x = PROCESS_STATE_DEAD) as Hp.
  { exists x. split_and!; [done| |done]. rewrite Ht. by apply Z.eqb_eq. }
  rewrite (bind_run _ _ _ _ _ (find_dead_at _ l1 p l2 false [] s Hno1 Hp)). cbv iota beta.
  unfold mbind at 1, K_bind at 1, get. unfold mbind at 1, K_bind at 1, put.
  set (s1 := with_sched _ _ _ s). assert (procs s1 !! current s = Some c) as H1 by exact Hc.
  rewrite (bind_run _ _ _ _ _ (update_proc_run (current s) c _ s1 H1)). unfold s1.
  by rewrite !rev_append_rev, app_nil_r, rev_involutive.
Qed.
Lemma reap_run c p x s :
  procs s !! current s = Some c → waited_process c = Some p → p ∉ all_processes s →
  procs s !! p = Some x →
  reap s = Done (pid x, Some (exit_status x)) (with_procs (delete p) s).
Proof.
  intros Hc Hw Hp Hx. unfold reap. rewrite (bind_run _ _ _ _ _ (current_process_run c s Hc)), Hw.
  unfold mbind at 1, K_bind at 1, get. unfold scheduler_unregister.
  assert (unregister_loop (S (length (all_processes s))) p [] (all_processes s) s = Done tt s) as Hu
    by (apply unregister_gone; [done|lia]).
  unfold mbind at 1, K_bind at 1. unfold mbind at 1, K_bind at 1, get. rewrite Hu.
  by rewrite (bind_run _ _ _ _ _ (proc_run p x s Hx)).
Qed.
(** Waiting for a process that has ended removes it. *)
Lemma sys_waitpid_run id options c l1 p x l2 s :
  options = 0 ∨ options = WNOHANG → 0 < id →
  procs s !! current s = Some c → should_unblock c = None → current s ≠ p → pid c ≠ id →
  all_processes s = l1 ++ p :: l2 → none_of s (λ y, pid y =? id) l1 → p ∉ l1 ++ l2 →
  procs s !! p = Some x → pid x = id → pstate x = PROCESS_STATE_DEAD →
  sys_waitpid id options s = Done (id, Some (exit_status x))
    (with_procs (λ m, delete p (<[current s := set_waited (Some p) c]> m))
      (with_sched (l1 ++ l2) (ready_queue s) (current s) s)).
Proof.
  intros Ho Hid Hc Hub Hne Hcid Hall Hno Hnot Hx Hpid Hdead. unfold sys_waitpid.
  replace (Z.land options (u32 (Z.lnot WNOHANG)) =? 0) with true by by destruct Ho as [-> | ->].
  cbn [negb]. cbv iota. unfold mbind at 1, K_bind at 1, get.
  rewrite (bind_run _ _ _ _ _ (current_process_run c s Hc)).
  rewrite (bind_run _ _ _ _ _ (update_current_run c _ s Hc)). cbv zeta.
  set (s1 := with_procs _ s). set (c1 := set_waited None c) in s1.
  assert (procs s1 !! current s1 = Some c1) as H1 by apply lookup_insert_eq.
  assert (∀ q, q ≠ current s → procs s1 !! q = procs s !! q) as Hoth.
  { intros q Hq. unfold s1. cbn [with_procs procs]. by rewrite lookup_insert_ne. }
  assert (procs s1 !! p = Some x) as Hx1 by by rewrite Hoth.
  assert (none_of s1 (λ y, pid y =? id) l1) as Hno1.
  { eapply Forall_impl; [exact Hno|]. intros q (y & Hy & Hf).
    destruct (decide (q = current s)) as [->|Hq]; [|exists y; by rewrite Hoth].
    exists c1. split; [done|]. by apply Z.eqb_neq. }
  pose proof (waitpid_condition id c1 l1 p x l2 s1 Hid H1 Hcid Hall Hno1 Hx1 Hpid Hdead) as Hrun.
  change (run_blocker (current s) (Waitpid id (pid c) (pgid c)) s1 =
    Done true (with_procs <[current s := set_waited (Some p) c]>
      (with_sched (l1 ++ l2) (ready_queue s) (current s) s1))) in Hrun.
  set (s2 := with_procs _ (with_sched _ _ _ s1)) in Hrun.
  assert (procs s2 !! current s2 = Some (set_waited (Some p) c)) as H2 by apply lookup_insert_eq.
  assert (procs s2 !! p = Some x) as Hx2.
  { unfold s2. cbn [with_procs procs with_sched]. by rewrite lookup_insert_ne. }
  assert (reap s2 = Done (id, Some (exit_status x)) (with_procs (λ m, delete p (<[current s := set_waited (Some p) c]> m))
      (with_sched (l1 ++ l2) (ready_queue s) (current s) s))) as Hr.
  { rewrite (reap_run (set_waited (Some p) c) p x s2); [|done..]. rewrite Hpid. f_equal. unfold s2, s1.
    unfold with_procs, with_sched. cbn. by rewrite insert_insert_eq. }
  destruct Ho as [-> | ->].
  - change (has_flag 0 WNOHANG) with false. cbv iota.
    assert (scheduler_block (Waitpid id (pid c) (pgid c)) s1 = Done 0 s2) as Hb.
    { unfold scheduler_block. rewrite (bind_run _ _ _ _ _ (current_process_run c1 s1 H1)).
      change (should_unblock c1) with (should_unblock c). rewrite Hub.
      unfold mbind at 1, K_bind at 1, ASSERT. rewrite bool_decide_eq_true_2 by done.
      unfold mret at 1, K_ret at 1. unfold mbind at 1, K_bind at 1, get.
      change (current s1) with (current s). by rewrite (bind_run _ _ _ _ _ Hrun). }
    unfold mbind at 1, K_bind at 1. rewrite (bind_run _ _ _ _ _ Hb). exact Hr.
  - change (has_flag WNOHANG WNOHANG) with true. cbv iota.
    unfold mbind at 1, K_bind at 1. rewrite (bind_run _ _ _ _ _ Hrun). exact Hr.
Qed.

(** ** The whole life *)

Lemma filter_absent (p : nat) (l : list nat) : p ∉ l → filter (λ q, q ≠ p) l = l.
Proof.
  induction l as [|q l IH]; [done|]. rewrite not_elem_of_cons. intros [Hne Hp].
  by rewrite filter_cons_True, IH.
Qed.
(** A state in which a process with a name of its own can be made and waited for. *)
Record can_raise (s : kstate) (c : process) (i : nat) (nd : inode) : Prop := CanRaise {
  cr_fork : can_fork s c i;
  cr_fit : fit s;
  cr_cwd : inodes s !! i = Some nd ∧ 0 < ref_count nd ∧ ref_count nd + 1 < U32;
  cr_numbers : 1 < next_pid s < 2147483647;
  cr_unused : ∀ p x, procs s !! p = Some x → pid x ≠ next_pid s ∧ ppid x ≠ next_pid s;
  cr_awake : should_unblock c = None;
}.
(** What the child leaves when it ends at once: its own entry, and the number. *)
Definition remains (c : process) (p : nat) (status : Z) (l : list nat) (g : list bool) (s : kstate) : kstate :=
  with_grants g (with_sched l (ready_queue s) p
    (with_procs <[p := ended status (child_of c (next_pid s))]> (pid_taken s))).
Lemma child_exit_run s c i nd p s1 g status :
  can_raise s c i nd → procs s !! p = None → forked c i s p s1 →
  ∃ l1 l2, all_processes s = l1 ++ l2 ∧
    process_exit status (takes_over p (with_grants g s1)) =
      scheduler_yield false (remains c p status (l1 ++ p :: l2) g s).
Proof.
  intros [[Hc [Hi Hnd'] Ht Hk] Hf (Hnd & Hr1 & Hr2) Hn Hun Hub] Hp (l1 & l2 & Hall & ->).
  exists l1, l2. split; [done|]. set (s3 := takes_over _ _). set (x := child_of c (next_pid s)).
  assert (procs s3 !! current s3 = Some x) as Hx by apply lookup_insert_eq.
  assert (p ∉ ready_queue s) as Hq.
  { intros H. destruct (po_ready _ (fit_poised _ Hf) p H) as (y & Hy & _). congruence. }
  set (nd1 := set_ref_count (u32 (ref_count nd + 1)) nd).
  assert (inodes s3 !! i = Some nd1) as Hnd3.
  { change (inodes s3) with (inodes (bump i 1 (pid_taken s))). rewrite lookup_bump.
    change (inodes (pid_taken s)) with (inodes s). by rewrite Hnd. }
  assert (leaves_quietly s3 x i nd1) as Hl.
  { split.
    - exact Hx.
    - apply (referred_is_shared (fd_table c) (bump i 1 (pid_taken s))). exact Ht.
    - split_and!; [exact Hi|exact Hnd3|..]; unfold nd1; cbn [set_ref_count ref_count];
        rewrite u32_small; lia.
    - apply Forall_forall. intros q Hq'. change (all_processes s3) with (l1 ++ p :: l2) in Hq'.
      change (procs s3) with (<[p := x]> (procs s)). destruct (decide (p = q)) as [<-|Hne].
      + exists x. split; [apply lookup_insert_eq|]. apply Z.eqb_neq.
        change (pid c ≠ next_pid s). by apply (Hun (current s)).
      + destruct (Hk q) as [y Hy].
        { change (q ∈ all_processes s). rewrite Hall. revert Hq'. rewrite !elem_of_app, elem_of_cons. naive_solver. }
        exists y. rewrite lookup_insert_ne by done. split; [exact Hy|]. apply Z.eqb_neq. by apply (Hun q). }
  rewrite (process_exit_run status x i nd1 s3 Hl) by (change (pid x) with (next_pid s); lia).
  f_equal.
  assert (inodes (bump i (-1) (bump i 1 s)) = inodes s) as Ei.
  { rewrite bump_bump, bump_0; [done|]. intros y Hy. rewrite Hnd in Hy. injection Hy as <-. lia. }
  assert (descs (referred (-1) (fd_table c) (referred 1 (fd_table c) s)) = descs s) as Ed.
  { by rewrite referred_again, referred_zero. }
  change (fd_table x) with (fd_table c). apply kstate_eq; try reflexivity; [exact Ei|exact Ed| |].
  - change (<[p := ended status x]> (<[p := x]> (procs s)) = <[p := ended status x]> (procs s)).
    apply insert_insert_eq.
  - change (filter (λ q, q ≠ p) (ready_queue s ++ [p]) = ready_queue s).
    rewrite filter_app, filter_absent, filter_cons_False, filter_nil, app_nil_r by naive_solver. done.
Qed.

(** C16: a process that is forked, exits and is waited for leaves nothing behind.
    When the fork succeeds, the child ends by its exit with every description,
    inode and process as before the fork, and the wait gives the parent the
    number and the exit status of the child; the kernel is then in the state
    before the fork but for the counter of process numbers and the place where
    waitpid keeps its result. *)
Theorem fork_exit_wait s c i nd id s1 status options :
  can_raise s c i nd → sys_fork s = Done id s1 → id ≠ ERR ENOMEM →
  options = 0 ∨ options = WNOHANG →
  ∃ p s2, current s1 = current s ∧ ready_queue s1 = ready_queue s ++ [p] ∧ id = next_pid s ∧
    process_exit status (takes_over p s1) = scheduler_yield false s2 ∧
    sys_waitpid id options (takes_over (current s) s2) =
      Done (id, Some (Z.shiftl (Z.land status 0xff) 8))
        (with_grants (grants s1) (with_next_pid (next_pid s + 1)
          (with_procs <[current s := set_waited (Some p) c]> s))).
Proof.
  intros Hcr Hrun Hid Ho.
  pose proof (sys_fork_wp s c i (cr_fork _ _ _ _ Hcr)) as Hw. apply wp_done in Hw as (rc & s' & Hrun' & g & Hcase).
  rewrite Hrun in Hrun'. injection Hrun' as <- <-.
  destruct Hcase as [(? & _)|(-> & p & s0 & Hp & Hfk & ->)]; [done|].
  destruct (child_exit_run s c i nd p s0 g status Hcr Hp Hfk) as (l1 & l2 & Hall & Hex).
  destruct Hfk as (l3 & l4 & _ & ->).
  destruct Hcr as [[Hc _ _ Hk] Hf _ Hn Hun Hub].
  exists p, (remains c p status (l1 ++ p :: l2) g s). split_and!; [done..|exact Hex|].
  assert (current s ≠ p) as Hne by (intros <-; congruence).
  assert (p ∉ l1 ++ l2) as Hnot.
  { rewrite <-Hall. intros H. destruct (Hk p H). congruence. }
  set (s2 := takes_over _ _). set (x := ended status (child_of c (next_pid s))).
  assert (∀ q, q ≠ p → procs s2 !! q = procs s !! q) as Hoth.
  { intros q Hq. change (procs s2) with (<[p := x]> (procs s)). by rewrite lookup_insert_ne. }
  rewrite (sys_waitpid_run (next_pid s) options c l1 p x l2 s2); try done.
  - change (exit_status x) with (Z.shiftl (Z.land status 0xff) 8). f_equal.
    apply kstate_eq; try reflexivity.
    + change (delete p (<[current s := set_waited (Some p) c]> (<[p := x]> (procs s))) =
        <[current s := set_waited (Some p) c]> (procs s)).
      rewrite insert_insert_ne, delete_insert_eq, delete_id by (try done; by rewrite lookup_insert_ne). done.
    + symmetry. exact Hall.
    + apply (filter_absent (current s) (ready_queue s)), (fit_current _ Hf).
    + change (s32 (next_pid s + 1) = next_pid s + 1). unfold s32. rewrite u32_small by (unfold U32; lia).
      by rewrite (proj2 (Z.ltb_lt (next_pid s + 1) 2147483648)) by lia.
  - lia.
  - rewrite Hoth by done. exact Hc.
  - by apply (Hun (current s)).
  - apply Forall_forall. intros q Hq. destruct (Hk q) as [y Hy].
    { rewrite Hall. apply elem_of_app. by left. }
    exists y. rewrite Hoth; [|intros ->; congruence]. split; [exact Hy|]. apply Z.eqb_neq. by apply (Hun q).
  - apply lookup_insert_eq.
Qed.

(** A shell with its terminal open three times, and the idle process. *)
Definition sample_shell : process :=
  Process 2 1 2 PROCESS_STATE_RUNNING 0 (lit "sh") (lit "/") (Some 0%nat)
    (replicate 3 (Some 0%nat) ++ replicate (OPEN_MAX - 3) None) None None false 0 0 0.
Definition sample_life : kstate :=
  KState {[ 0%nat := Inode None dir_fops 0 None 1 4 S_IFDIR (TmpfsData growable_buf_zero []);
            1%nat := Inode None null_fops 259 None 1 1 S_IFCHR NoData ]}
    {[ 0%nat := FileDescription 1 O_RDWR 0 3 ]} (Some 0%nat) [] [] ∅
    {[ 0%nat := sample_shell; 1%nat := sample_process 0 PROCESS_STATE_RUNNABLE None ]}
    [0%nat] [] (Some 1%nat) 0 3 1 [].
Lemma sample_uses d : 0 < uses d (fd_table sample_shell) → d = 0%nat.
Proof. change (0 < (if decide (d = 0%nat) then 1 else 0) + ((if decide (d = 0%nat) then 1 else 0) +
  ((if decide (d = 0%nat) then 1 else 0) + 0)) → d = 0%nat). case_decide; [done|lia]. Qed.
Lemma sample_can_raise : can_raise sample_life sample_shell 0
  (Inode None dir_fops 0 None 1 4 S_IFDIR (TmpfsData growable_buf_zero [])).
Proof.
  split.
  - split; [done|by split| |].
    + intros d ->%sample_uses. eexists. split; [done|]. vm_compute. done.
    + intros p ->%list_elem_of_singleton. done.
  - split; [split|..].
    + apply NoDup_singleton.
    + intros p ->%list_elem_of_singleton. done.
    + intros p x ->%list_elem_of_singleton [= <-]. done.
    + intros p x ->%list_elem_of_singleton [= <-]. apply deliverable_0.
    + by intros p ?%elem_of_nil.
    + exists 1%nat. split; [done|]. eexists. split; [reflexivity|]. split_and!; [done|done|apply deliverable_0].
    + apply NoDup_nil_2.
    + split; [done|]. by intros ?%elem_of_nil.
  - done.
  - done.
  - intros p x. cbn. intros [[<- <-]|[_ [<- <-]%lookup_singleton_Some]]%lookup_insert_Some; done.
  - done.
Qed.
Lemma fork_exit_wait_witness :
  ∃ p s1 s2, sys_fork sample_life = Done 3 s1 ∧
    process_exit 7 (takes_over p s1) = scheduler_yield false s2 ∧
    sys_waitpid 3 WNOHANG (takes_over 0 s2) =
      Done (3, Some 1792)
        (with_grants [] (with_next_pid 4
          (with_procs <[0%nat := set_waited (Some p) sample_shell]> sample_life))).
Proof.
  destruct (sys_fork sample_life) as [id s1| | |] eqn:E; [|vm_compute in E; discriminate..].
  assert (id = 3 ∧ grants s1 = []) as [-> Hg].
  { vm_compute in E. injection E as <- <-. done. }
  destruct (fork_exit_wait sample_life sample_shell 0 _ 3 s1 7 WNOHANG sample_can_raise E)
    as (p & s2 & _ & _ & _ & Hexit & Hwait); [done|by right|].
  rewrite Hg in Hwait. exists p, s1, s2. split_and!; [done|exact Hexit|exact Hwait].
Defined.
