(* ===== verification/Syscalls.v ===== *)
(** * System calls by name, and the steps of the kernel (kernel/syscall/syscall.c,
    kernel/api/sys/syscall.h)

    The calls on files, sockets and processes, with the values behind the pointers
    they get. clock_gettime and clock_nanosleep are in Calendar, the memory calls
    and execve in files of their own; reboot and dbgputs only talk to devices. *)
From stdpp Require Import fin_maps relations.
From S2P Require Import Prelude Errno GrowableBuf Kernel Inode Path Tmpfs Process Scheduler Fifo.
From S2P Require Import Socket Fs Vfs SyscallFs SyscallSocket SyscallProcess.

Inductive syscall : Type :=
  | SYS_accept (fd : Z)
  | SYS_bind (fd : Z) (addr : sockaddr_un) (addrlen : Z)
  | SYS_chdir (path : list Z)
  | SYS_close (fd : Z)
  | SYS_connect (fd : Z) (addr : sockaddr_un) (addrlen : Z)
  | SYS_dup2 (oldfd newfd : Z)
  | SYS_exit (status : Z)
  | SYS_fcntl (fd cmd arg : Z)
  | SYS_fork
  | SYS_ftruncate (fd length : Z)
  | SYS_getcwd (buf size : Z)
  | SYS_getdents (fd count : Z)
  | SYS_getpgid (pid : Z)
  | SYS_getpid
  | SYS_ioctl (fd : Z)
  | SYS_kill (pid sig : Z)
  | SYS_link (oldpath newpath : list Z)
  | SYS_listen (fd backlog : Z)
  | SYS_lseek (fd offset whence : Z)
  | SYS_mkdir (pathname : list Z) (mode : Z)
  | SYS_mknod (pathname : list Z) (mode dev : Z)
  | SYS_open (pathname : list Z) (flags mode : Z)
  | SYS_pipe
  | SYS_read (fd count : Z)
  | SYS_rename (oldpath newpath : list Z)
  | SYS_rmdir (pathname : list Z)
  | SYS_sched_yield
  | SYS_setpgid (pid pgid : Z)
  | SYS_socket (domain type : Z)
  | SYS_stat (pathname : list Z)
  | SYS_sysconf (name : Z)
  | SYS_times (uptime : Z)
  | SYS_unlink (pathname : list Z)
  | SYS_waitpid (pid options : Z)
  | SYS_write (fd : Z) (buf : list Z).

(** kernel/api/unistd.h *)
Definition sys_sysconf (name : Z) : K kstate Z :=
  mret (if name =? 0 (* _SC_MONOTONIC_CLOCK *) then 1
        else if name =? 1 (* _SC_OPEN_MAX *) then Z.of_nat OPEN_MAX
        else if name =? 2 (* _SC_PAGESIZE *) then 4096
        else if name =? 3 (* _SC_CLK_TCK *) then 250
        else ERR EINVAL).

(** What goes into eax. *)
Definition syscall_handlers (c : syscall) : K kstate Z :=
  let value {A} (m : K kstate (Z * A)) : K kstate Z := r ← m; mret r.1 in
  match c with
  | SYS_accept fd => sys_accept fd
  | SYS_bind fd a n => sys_bind fd a n
  | SYS_chdir path => sys_chdir path
  | SYS_close fd => sys_close fd
  | SYS_connect fd a n => sys_connect fd a n
  | SYS_dup2 a b => sys_dup2 a b
  | SYS_exit n => _ ← sys_exit n; mret 0
  | SYS_fcntl fd cmd arg => sys_fcntl fd cmd arg
  | SYS_fork => sys_fork
  | SYS_ftruncate fd n => sys_ftruncate fd n
  | SYS_getcwd buf size =>
      r ← sys_getcwd (negb (buf =? 0)) size;
      mret (match r with PTR _ => buf | ERR_PTR rc => rc end)
  | SYS_getdents fd n => value (sys_getdents fd n)
  | SYS_getpgid n => sys_getpgid n
  | SYS_getpid => sys_getpid
  | SYS_ioctl fd => sys_ioctl fd
  | SYS_kill n sig => sys_kill n sig
  | SYS_link old new => sys_link old new
  | SYS_listen fd n => sys_listen fd n
  | SYS_lseek fd offset whence => sys_lseek fd offset whence
  | SYS_mkdir path m => sys_mkdir path m
  | SYS_mknod path m dev => sys_mknod path m dev
  | SYS_open path flags m => sys_open path flags m
  | SYS_pipe => value sys_pipe
  | SYS_read fd n => value (sys_read fd n)
  | SYS_rename old new => sys_rename old new
  | SYS_rmdir path => sys_rmdir path
  | SYS_sched_yield => sys_sched_yield
  | SYS_setpgid n g => sys_setpgid n g
  | SYS_socket domain type => sys_socket domain type
  | SYS_stat path => value (sys_stat path)
  | SYS_sysconf n => sys_sysconf n
  | SYS_times uptime => value (sys_times uptime)
  | SYS_unlink path => sys_unlink path
  | SYS_waitpid n options => value (sys_waitpid n options)
  | SYS_write fd buf => sys_write fd buf
  end.

(** ** Steps *)

(** create_char_device and the mounts of kernel/main.c. *)
Definition create_char_device (pathname : list Z) (make : K kstate (ptr_res nat)) : K kstate unit :=
  device ← make;
  match device with
  | ERR_PTR _ => panic
  | PTR device =>
      nd ← node device;
      rc ← sys_mknod pathname S_IFCHR (device_id nd);
      _ ← ASSERT (IS_OK rc);
      rc ← vfs_register_device device;
      ASSERT (IS_OK rc)
  end.
Definition mount_tmpfs (path : list Z) : K kstate unit :=
  r ← tmpfs_create_root;
  match r with
  | ERR_PTR _ => panic
  | PTR r => rc ← vfs_mount path r; ASSERT (IS_OK rc)
  end.
(** The devices the kernel starts with that are modelled. *)
Definition start_devices : list (list Z * K kstate (ptr_res nat)) :=
  [(lit "/dev/null", null_device_create); (lit "/dev/zero", zero_device_create);
   (lit "/dev/full", full_device_create); (lit "/dev/random", random_device_create)].

(** What the kernel does between two looks at it. A call that has to wait stops at
    the switch; when its process runs again, a transfer starts over, a waitpid
    collects the process it was given, a connect is done. *)
Inductive kernel_step : kstate → kstate → Prop :=
  | step_call c s rc s' : syscall_handlers c s = Done rc s' → kernel_step s s'
  | step_tick in_kernel s s' : scheduler_tick in_kernel s = Done tt s' → kernel_step s s'
  | step_die s s' : process_die_if_needed s = Done tt s' → kernel_step s s'
  | step_crash signum s s' : process_crash_in_userland signum s = Done tt s' → kernel_step s s'
  | step_wait b s s' : block_current b s = Done tt s' → kernel_step s s'
  | step_connect fuel d l s r s' : connect_enqueue fuel d l s = Done r s' → kernel_step s s'
  | step_reap s r s' : reap s = Done r s' → kernel_step s s'
  | step_mount path s s' : mount_tmpfs path s = Done tt s' → kernel_step s s'
  | step_device path make s s' : (path, make) ∈ start_devices →
      create_char_device path make s = Done tt s' → kernel_step s s'.
(** Before the first file system is mounted. *)
Definition booting (s : kstate) : Prop := inodes s = ∅ ∧ descs s = ∅.
Definition reachable (s : kstate) : Prop := ∃ s0, booting s0 ∧ rtc kernel_step s0 s.
