(* ===== verification/Invariant.v ===== *)
(** * The kinds of the kernel's inodes are kept by every operation

    [typed]: what follows an inode in memory is what the operations in its table
    expect, a directory has the table of directories, and the rings of fifos and
    sockets are well formed. [safe m]: whenever [m] returns, it kept this. *)
From stdpp Require Import fin_maps.
From S2P Require Import Prelude Errno CString RingBuf GrowableBuf Kernel Inode Path Tmpfs Process.
From S2P Require Import Scheduler Fifo Socket Fs Vfs SyscallFs SyscallSocket SyscallProcess Syscalls.

Definition sound_socket (x : unix_socket) : Prop :=
  RingBuf.wf (server_to_client_buf x) ∧ RingBuf.wf (client_to_server_buf x).
(** The table of an inode fits its mode and what follows it. *)
Definition shape (nd : inode) : Prop :=
  match fops nd, data nd with
  | dir_fops, TmpfsData _ _ => S_ISDIR (mode nd) = true
  | non_dir_fops, TmpfsData _ _ => S_ISDIR (mode nd) = false
  | fifo_fops, FifoData buf _ _ => mode nd = S_IFIFO ∧ RingBuf.wf buf
  | socket_fops, SocketData x => mode nd = S_IFSOCK ∧ sound_socket x
  | (null_fops | zero_fops | full_fops | random_fops), NoData => mode nd = S_IFCHR
  | _, _ => False
  end.
Definition typed (s : kstate) : Prop := ∀ i nd, inodes s !! i = Some nd → shape nd.

Definition safe {A} (m : K kstate A) : Prop :=
  ∀ s a s', typed s → m s = Done a s' → typed s'.

(** ** Rules *)
Lemma safe_ret {A} (a : A) : safe (mret a).
Proof. by intros s b s' Hs [= _ <-]. Qed.
Lemma safe_panic {A} : safe (panic (A:=A)).
Proof. done. Qed.
Lemma safe_undef {A} : safe (undef (A:=A)).
Proof. done. Qed.
Lemma safe_out_of_fuel {A} : safe (out_of_fuel (A:=A)).
Proof. done. Qed.
Lemma safe_bind {A B} (m : K kstate A) (f : A → K kstate B) :
  safe m → (∀ a, safe (f a)) → safe (m ≫= f).
Proof.
  intros Hm Hf s b s' Hs Hrun. apply bind_Done in Hrun as (a & s1 & Ha & Hb).
  eapply Hf; [|done]. by eapply Hm.
Qed.
(** What is read is known to be sound. *)
Lemma safe_bind_post {A B} (P : A → Prop) (m : K kstate A) (f : A → K kstate B) :
  (∀ s a s', typed s → m s = Done a s' → typed s' ∧ P a) → (∀ a, P a → safe (f a)) →
  safe (m ≫= f).
Proof.
  intros Hm Hf s b s' Hs Hrun. apply bind_Done in Hrun as (a & s1 & Ha & Hb).
  destruct (Hm s a s1 Hs Ha) as [Hs1 HP]. by eapply Hf.
Qed.
Lemma safe_get {B} (f : kstate → K kstate B) : (∀ s, typed s → safe (f s)) → safe (get ≫= f).
Proof. intros Hf s b s' Hs Hrun. exact (Hf s Hs s b s' Hs Hrun). Qed.
Lemma safe_gets {A} (f : kstate → A) : safe (gets f).
Proof. by intros s b s' Hs [= _ <-]. Qed.
Lemma safe_put s : typed s → safe (put s).
Proof. intros Hs s0 b s' _ [= _ <-]. exact Hs. Qed.
Lemma safe_modify f : (∀ s, typed s → typed (f s)) → safe (modify f).
Proof. intros Hf s b s' Hs [= _ <-]. auto. Qed.
Lemma safe_ASSERT b : safe (ASSERT b).
Proof. destruct b; [apply safe_ret|done]. Qed.
Lemma safe_access {A} (o : option A) : safe (access o).
Proof. destruct o; [apply safe_ret|done]. Qed.
Lemma safe_when b m : (b = true → safe m) → safe (when b m).
Proof. destruct b; intros H; [by apply H|apply safe_ret]. Qed.
Lemma node_typed i s nd s' : typed s → node i s = Done nd s' → typed s' ∧ shape nd.
Proof.
  intros Hs. unfold node, mbind, K_bind, get, access. destruct (inodes s !! i) eqn:E; [|done].
  intros [= -> <-]. split; [done|]. by apply (Hs i).
Qed.
Lemma safe_node {B} i (f : inode → K kstate B) :
  (∀ nd, shape nd → safe (f nd)) → safe (node i ≫= f).
Proof. apply safe_bind_post. intros s a s'. apply node_typed. Qed.
Lemma typed_insert i nd s : shape nd → typed s → typed (with_inodes <[i := nd]> s).
Proof.
  intros Hnd Hs j x. cbn. destruct (decide (i = j)) as [->|].
  - rewrite lookup_insert_eq. by intros [= <-].
  - rewrite lookup_insert_ne by done. apply Hs.
Qed.
Lemma safe_set_node i nd : shape nd → safe (set_node i nd).
Proof. intros Hnd. apply safe_modify. intros s. by apply typed_insert. Qed.
Lemma safe_free_node i : safe (free_node i).
Proof.
  apply safe_modify. intros s Hs j x Hx. cbn in Hx. apply lookup_delete_Some in Hx as [_ Hx].
  by apply (Hs j).
Qed.
(** Computations that do not write inodes. *)
Definition frame {A} (m : K kstate A) : Prop :=
  ∀ s a s', m s = Done a s' → inodes s' = inodes s.
Lemma frame_safe {A} (m : K kstate A) : frame m → safe m.
Proof. intros Hm s a s' Hs Hrun i nd. rewrite (Hm _ _ _ Hrun). apply Hs. Qed.
Lemma frame_modify f : (∀ s, inodes (f s) = inodes s) → frame (modify f).
Proof. intros Hf s a s' [= _ <-]. apply Hf. Qed.
Lemma frame_zoom {T A} p j (m : K T A) : (∀ t s, inodes (j t s) = inodes s) → frame (zoom p j m).
Proof. intros Hj s a s'. unfold zoom. destruct (m (p s)); try done. intros [= _ <-]. apply Hj. Qed.
Lemma frame_lock l : safe (lock_mutex l).
Proof.
  unfold lock_mutex. apply safe_get. intros s0 _. apply frame_safe, frame_zoom.
  intros m s. unfold put_mutex. by destruct m as [[]].
Qed.
Lemma frame_unlock l : safe (unlock_mutex l).
Proof.
  unfold unlock_mutex. apply safe_get. intros s0 _. apply frame_safe, frame_zoom.
  intros m s. unfold put_mutex. by destruct m as [[]].
Qed.
Lemma frame_unlock_if l : safe (unlock_mutex_if_locked l).
Proof.
  unfold unlock_mutex_if_locked. apply safe_get. intros s0 _. apply frame_safe, frame_zoom.
  intros m s. unfold put_mutex. by destruct m as [[]].
Qed.
Lemma safe_kmalloc : safe kmalloc_ok.
Proof. intros s a s' Hs. unfold kmalloc_ok. destruct (grants s); intros [= _ <-]; exact Hs. Qed.
Lemma safe_set_desc d x : safe (set_desc d x).
Proof. by apply frame_safe, frame_modify. Qed.
Lemma safe_free_desc d : safe (free_desc d).
Proof. by apply frame_safe, frame_modify. Qed.
Lemma safe_set_proc p x : safe (set_proc p x).
Proof. by apply frame_safe, frame_modify. Qed.
Lemma safe_locked {A} l (m : K kstate A) : safe m → safe (locked l m).
Proof.
  intros Hm. unfold locked. apply safe_bind; [apply frame_lock|]. intros _.
  apply safe_bind; [done|]. intros a. apply safe_bind; [apply frame_unlock|]. intros _. apply safe_ret.
Qed.

Create HintDb safe discriminated.
#[export] Hint Resolve safe_ret safe_panic safe_undef safe_out_of_fuel safe_gets safe_ASSERT
  safe_access safe_free_node frame_lock frame_unlock frame_unlock_if safe_kmalloc safe_set_desc
  safe_free_desc safe_set_proc : safe.

(** The rules along the structure of a computation. *)
Ltac safe_step :=
  lazymatch goal with
  | |- safe (node _ ≫= _) => apply safe_node; intros ? ?
  | |- safe (get ≫= _) => apply safe_get; intros ? ?
  | |- safe (_ ≫= _) => apply safe_bind; [|intros ?]
  | |- safe (locked _ _) => apply safe_locked
  | |- safe (when _ _) => apply safe_when; intros ?
  | |- safe (let _ := _ in _) => cbv zeta
  | |- safe (match ?x with _ => _ end) => destruct x eqn:?
  | |- safe _ => solve [eauto with safe]
  end.
Ltac safe := repeat (cbv beta; safe_step).

(** ** Fields *)
Lemma shape_ref_count n nd : shape nd → shape (set_ref_count n nd).
Proof. by destruct nd. Qed.
Lemma shape_num_links n nd : shape nd → shape (set_num_links n nd).
Proof. by destruct nd. Qed.
Lemma shape_device_id n nd : shape nd → shape (set_device_id n nd).
Proof. by destruct nd. Qed.
Lemma shape_bound n nd : shape nd → shape (set_bound_socket n nd).
Proof. by destruct nd. Qed.
Lemma shape_tmpfs nd b l b' l' :
  shape nd → data nd = TmpfsData b l → shape (set_data (TmpfsData b' l') nd).
Proof. unfold shape. destruct nd; cbn. intros H ->. by destruct fops. Qed.
Lemma shape_fifo nd b r w b' r' w' :
  shape nd → data nd = FifoData b r w → (RingBuf.wf b → RingBuf.wf b') →
  shape (set_data (FifoData b' r' w') nd).
Proof. unfold shape. destruct nd; cbn. intros H -> Hb. destruct fops; try done. naive_solver. Qed.
Lemma shape_socket nd x x' :
  shape nd → data nd = SocketData x → (sound_socket x → sound_socket x') →
  shape (set_data (SocketData x') nd).
Proof. unfold shape. destruct nd; cbn. intros H -> Hb. destruct fops; try done. naive_solver. Qed.
#[export] Hint Resolve safe_set_node shape_ref_count shape_num_links shape_device_id shape_bound
  shape_tmpfs : safe.

(** ** Inodes and directory entries *)
Lemma safe_inode_ref i : safe (inode_ref i).
Proof. unfold inode_ref. safe. Qed.
Lemma safe_children i : safe (children i).
Proof. unfold children. safe. Qed.
Lemma safe_set_children i l : safe (set_children i l).
Proof. unfold set_children. safe. Qed.
Lemma safe_with_buf {A} i (m : K gstate A) : safe (with_buf i m).
Proof.
  unfold with_buf. safe. intros s1 a s' Hs. unfold zoom. destruct (m _); try done.
  intros [= _ <-]. apply typed_insert; [by eapply shape_tmpfs|exact Hs].
Qed.
#[export] Hint Resolve safe_inode_ref safe_children safe_set_children safe_with_buf : safe.

Section destroy.
Context (unref : nat → K kstate unit) (Hunref : ∀ i, safe (unref i)).
Lemma safe_dentry_clear head : safe (dentry_clear unref head).
Proof. induction head as [|[n i] head IH]; cbn [dentry_clear]; safe. Qed.
Lemma safe_fops_destroy f k i : fops_destroy_inode unref f = Some k → safe (k i).
Proof using Hunref.
  pose proof safe_dentry_clear.
  destruct f; intros [= <-]; unfold tmpfs_destroy_inode, fifo_destroy_inode, unix_socket_destroy_inode;
    safe.
Qed.
Lemma safe_inode_destroy i : safe (inode_destroy unref i).
Proof using Hunref. pose proof safe_fops_destroy. unfold inode_destroy. safe. Qed.
End destroy.
Lemma safe_inode_unref i : safe (inode_unref i).
Proof.
  unfold inode_unref. apply safe_get. intros s _. generalize (S (size (inodes s))). clear s.
  intros fuel. revert i. induction fuel as [|fuel IH]; intros i; cbn [inode_unref_fuel]; safe.
  by apply safe_inode_destroy.
Qed.
#[export] Hint Resolve safe_inode_unref : safe.
Lemma safe_inode_unref_opt i : safe (inode_unref_opt i).
Proof. destruct i; cbn; safe. Qed.
Lemma safe_dentry_find head name : safe (dentry_find head name).
Proof. induction head as [|[n i] head IH]; cbn [dentry_find]; safe. Qed.
Lemma safe_dentry_append head name child : safe (dentry_append head name child).
Proof. unfold dentry_append. safe. Qed.
Lemma safe_dentry_remove head name : safe (dentry_remove head name).
Proof. induction head as [|[n i] head IH]; cbn [dentry_remove]; safe. Qed.
#[export] Hint Resolve safe_inode_unref_opt safe_dentry_find safe_dentry_append
  safe_dentry_remove : safe.

(** ** tmpfs *)
Lemma safe_desc d : safe (desc d).
Proof. unfold desc. safe. Qed.
Lemma safe_proc p : safe (proc p).
Proof. unfold proc. safe. Qed.
#[export] Hint Resolve safe_desc safe_proc : safe.
Lemma safe_current_process : safe current_process.
Proof. unfold current_process. safe. Qed.
Lemma safe_mode_to_dirent_type m : safe (mode_to_dirent_type m).
Proof. unfold mode_to_dirent_type. safe. Qed.
#[export] Hint Resolve safe_current_process safe_mode_to_dirent_type : safe.
Lemma safe_list_dentries ctx d l : safe (list_dentries ctx d l).
Proof. revert ctx. induction l as [|[n i] l IH]; intros ctx; cbn [list_dentries]; safe. Qed.
#[export] Hint Resolve safe_list_dentries : safe.
Lemma safe_tmpfs_lookup_child i name : safe (tmpfs_lookup_child i name).
Proof. unfold tmpfs_lookup_child. safe. Qed.
Lemma safe_tmpfs_stat i : safe (tmpfs_stat i).
Proof. unfold tmpfs_stat. safe. Qed.
Lemma safe_tmpfs_read d n : safe (tmpfs_read d n).
Proof. unfold tmpfs_read. safe. Qed.
Lemma safe_tmpfs_write d b : safe (tmpfs_write d b).
Proof. unfold tmpfs_write. safe. Qed.
Lemma safe_tmpfs_mmap d a l o f : safe (tmpfs_mmap d a l o f).
Proof. unfold tmpfs_mmap. safe. Qed.
Lemma safe_tmpfs_truncate d n : safe (tmpfs_truncate d n).
Proof. unfold tmpfs_truncate. safe. Qed.
Lemma safe_tmpfs_getdents ctx d : safe (tmpfs_getdents ctx d).
Proof. unfold tmpfs_getdents, dentry_getdents. safe. Qed.
Lemma safe_tmpfs_link_child i name c : safe (tmpfs_link_child i name c).
Proof. unfold tmpfs_link_child. safe. Qed.
Lemma safe_tmpfs_unlink_child i name : safe (tmpfs_unlink_child i name).
Proof. unfold tmpfs_unlink_child. safe. Qed.
#[export] Hint Resolve safe_tmpfs_lookup_child safe_tmpfs_stat safe_tmpfs_read safe_tmpfs_write
  safe_tmpfs_mmap safe_tmpfs_truncate safe_tmpfs_getdents safe_tmpfs_link_child
  safe_tmpfs_unlink_child : safe.
Lemma shape_new_tmpfs r m i l n b c :
  shape (Inode r (if S_ISDIR m then dir_fops else non_dir_fops) i l n b m (TmpfsData growable_buf_zero c)).
Proof. unfold shape. cbn. by destruct (S_ISDIR m) eqn:E. Qed.
#[export] Hint Resolve shape_new_tmpfs : safe.
Lemma safe_tmpfs_create_child i name m : safe (tmpfs_create_child i name m).
Proof.
  unfold tmpfs_create_child. apply safe_bind; [safe|intros ok]. destruct ok; cbn [negb]; [|safe].
  apply safe_node. intros nd _. apply safe_get. intros s _. cbv zeta.
  apply safe_bind; [apply safe_set_node, shape_new_tmpfs|intros _]. safe.
Qed.
Lemma safe_tmpfs_create_root : safe tmpfs_create_root.
Proof. unfold tmpfs_create_root. safe. by apply safe_set_node. Qed.
#[export] Hint Resolve safe_tmpfs_create_child safe_tmpfs_create_root : safe.

(** ** Rings *)
Lemma ring_read_wf n buf out b :
  RingBuf.wf buf → ring_buf_read n buf = Done out b → RingBuf.wf b.
Proof.
  revert buf out. induction n as [|n IH]; intros buf out Hwf; cbn [ring_buf_read].
  { by intros [= _ <-]. }
  intros Hrun. apply bind_Done in Hrun as (b0 & s0 & [= <- <-] & Hrun).
  apply bind_Done in Hrun as (c & s1 & Hc & Hrun). unfold access in Hc.
  destruct (_ !! _); [|done]. injection Hc as _ <-. cbv zeta in Hrun.
  apply bind_Done in Hrun as ([] & s2 & [= <-] & Hrun).
  assert (RingBuf.wf (RingBuf (inner_buf buf) (write_idx buf)
    ((read_idx buf + 1) mod BUF_CAPACITY)%nat)) as Hwf1.
  { destruct Hwf as (?&?&?). split_and!; [done..|].
    change ((read_idx buf + 1) mod BUF_CAPACITY < BUF_CAPACITY)%nat. by apply Nat.mod_upper_bound. }
  destruct (_ =? _)%nat.
  - by injection Hrun as _ <-.
  - apply bind_Done in Hrun as (rest & s3 & Hr & [= _ <-]). by eapply IH.
Qed.
Lemma ring_put_wf c buf b u : RingBuf.wf buf → ring_buf_put c buf = Done u b → RingBuf.wf b.
Proof.
  intros Hwf Hrun. pose proof (wf_put buf c Hwf) as Hp. apply wp_done in Hp as (u' & b' & Hrun' & _ & Hb).
  congruence.
Qed.
Lemma ring_write_wf bytes buf n b :
  RingBuf.wf buf → ring_buf_write bytes buf = Done n b → RingBuf.wf b.
Proof.
  revert buf n. induction bytes as [|c bytes IH]; intros buf n Hwf; cbn [ring_buf_write].
  { by intros [= _ <-]. }
  intros Hrun. apply bind_Done in Hrun as (u & b1 & Hp & Hrun).
  pose proof (ring_put_wf _ _ _ _ Hwf Hp) as Hwf1.
  apply bind_Done in Hrun as (b2 & b3 & [= <- <-] & Hrun). destruct (ring_buf_is_full b1).
  - by injection Hrun as _ <-.
  - apply bind_Done in Hrun as (k & b4 & Hr & [= _ <-]). by eapply IH.
Qed.

(** ** Conditions and fifos *)
Lemma fifo_of_inv d s y s' :
  fifo_of d s = Done y s' → s' = s ∧ ∃ x nd,
    descs s !! d = Some x ∧ inodes s !! d_inode x = Some nd ∧ data nd = FifoData y.1.1 y.1.2 y.2.
Proof.
  unfold fifo_of, desc, node, mbind, K_bind, get, access.
  destruct (descs s !! d) as [x|] eqn:Hx; [|done]. cbn.
  destruct (inodes s !! d_inode x) as [nd|] eqn:Hnd; [|done]. cbn.
  destruct (data nd) eqn:Hd; try done. intros [= <- <-]. split; [done|]. by exists x, nd.
Qed.
Lemma safe_fifo_of d : safe (fifo_of d).
Proof. intros s y s' Hs Hrun. by apply fifo_of_inv in Hrun as [-> _]. Qed.
#[export] Hint Resolve safe_fifo_of : safe.
(** A computation on the fifo of a description, with its inode at hand. *)
Lemma safe_on_fifo {A} d (k : file_description → ring_buf * Z * Z → K kstate A) :
  (∀ s x nd y a s', typed s → inodes s !! d_inode x = Some nd → shape nd →
     data nd = FifoData y.1.1 y.1.2 y.2 → k x y s = Done a s' → typed s') →
  safe (x ← desc d; y ← fifo_of d; k x y).
Proof.
  intros Hk s a s' Hs Hrun. apply bind_Done in Hrun as (x & s1 & Hx & Hrun).
  apply bind_Done in Hrun as (y & s2 & Hy & Hrun). unfold desc, mbind, K_bind, get, access in Hx.
  destruct (descs s !! d) as [x'|] eqn:E; [|done]. injection Hx as -> <-.
  apply fifo_of_inv in Hy as (-> & x' & nd & Hx' & Hnd & Hd). simplify_eq.
  eapply (Hk s x nd y); try done. by apply (Hs (d_inode x)).
Qed.
Lemma typed_set_fifo s i nd b r w b' r' w' a s' :
  typed s → inodes s !! i = Some nd → shape nd → data nd = FifoData b r w →
  (RingBuf.wf b → RingBuf.wf b') → set_fifo i b' r' w' s = Done a s' → typed s'.
Proof.
  intros Hs Hnd Hsh Hd Hb. unfold set_fifo. rewrite (bind_run _ _ _ _ _ (node_run _ _ _ Hnd)).
  intros [= _ <-]. apply typed_insert; [by eapply shape_fifo|done].
Qed.
Lemma safe_fifo_open d flags : safe (fifo_open d flags).
Proof.
  unfold fifo_open. destruct (_ && _); [safe|]. apply safe_on_fifo.
  intros s x nd [[b r] w] a s' Hs Hnd Hsh Hd Hrun.
  apply bind_Done in Hrun as (u & s1 & Hrun & [= _ <-]). by eapply typed_set_fifo.
Qed.
Lemma safe_fifo_close d : safe (fifo_close d).
Proof.
  unfold fifo_close. intros s a s' Hs Hrun. apply bind_Done in Hrun as (x & s1 & Hx & Hrun).
  cbv zeta in Hrun. apply bind_Done in Hrun as (u & s2 & Ha & Hrun).
  apply ASSERT_Done in Ha as [_ ->].
  revert s a s' Hs x s1 Hx Hrun. assert (safe (x ← desc d; y ← fifo_of d;
    let '(buf, r, w) := y in
    _ ← set_fifo (d_inode x) buf (if has_flag (d_flags x) O_RDONLY then u32 (r - 1) else r)
          (if has_flag (d_flags x) O_WRONLY then u32 (w - 1) else w); mret 0)) as H.
  { apply safe_on_fifo. intros s x nd [[b r] w] a s' Hs Hnd Hsh Hd Hrun.
    apply bind_Done in Hrun as (u' & s3 & Hrun & [= _ <-]). by eapply typed_set_fifo. }
  intros s a s' Hs x s1 Hx Hrun. apply (H s a s' Hs). by rewrite (bind_run _ _ _ _ _ Hx).
Qed.
Lemma safe_with_ring {A} d (m : K ring_buf A) :
  (∀ b a b', RingBuf.wf b → m b = Done a b' → RingBuf.wf b') → safe (with_ring d m).
Proof.
  intros Hm. unfold with_ring. apply safe_on_fifo.
  intros s x nd [[b r] w] a s' Hs Hnd Hsh Hd Hrun.
  rewrite (bind_run _ _ _ _ _ (node_run _ _ _ Hnd)) in Hrun. unfold zoom in Hrun.
  destruct (m b) as [a' b'| | |] eqn:E; try done. injection Hrun as _ <-.
  apply typed_insert; [|done]. eapply shape_fifo; [done|exact Hd|]. intros Hb. by eapply Hm.
Qed.
#[export] Hint Resolve safe_fifo_open safe_fifo_close : safe.

(** ** Sockets *)
Lemma safe_socket i : safe (socket i).
Proof. unfold socket. safe. Qed.
#[export] Hint Resolve safe_socket : safe.
Lemma safe_socket_of d : safe (socket_of d).
Proof. unfold socket_of. safe. Qed.
Lemma safe_update_socket i f :
  (∀ x, sound_socket x → sound_socket (f x)) → safe (update_socket i f).
Proof.
  intros Hf. unfold update_socket. apply safe_node. intros nd Hnd. destruct (data nd) eqn:Hd; try done.
  apply safe_set_node. eapply shape_socket; [done|exact Hd|apply Hf].
Qed.
Lemma sound_set_next o x : sound_socket x → sound_socket (set_next o x).
Proof. done. Qed.
Lemma sound_set_num n x : sound_socket x → sound_socket (set_num_pending n x).
Proof. done. Qed.
Lemma sound_set_backlog n x : sound_socket x → sound_socket (set_backlog n x).
Proof. done. Qed.
Lemma sound_set_connected b x : sound_socket x → sound_socket (set_connected b x).
Proof. done. Qed.
Lemma sound_set_connector o x : sound_socket x → sound_socket (set_connector_fd o x).
Proof. done. Qed.
#[export] Hint Resolve safe_socket_of safe_update_socket sound_set_next sound_set_num
  sound_set_backlog sound_set_connected sound_set_connector : safe.
Lemma safe_with_socket_ring {A} i c (m : K ring_buf A) :
  (∀ b a b', RingBuf.wf b → m b = Done a b' → RingBuf.wf b') → safe (with_socket_ring i c m).
Proof.
  intros Hm. unfold with_socket_ring. apply safe_node. intros nd Hnd. destruct (data nd) as [| |x|] eqn:Hd; try done.
  intros s a s' Hs. unfold zoom. destruct (m (ring c x)) as [a' b'| | |] eqn:E; try done.
  intros [= _ <-]. apply typed_insert; [|done]. eapply shape_socket; [done|exact Hd|].
  intros [H1 H2]. unfold ring in E. destruct c; split; cbn; try done; (eapply Hm; [|exact E]; done).
Qed.

(** ** Processes and the scheduler *)
Lemma safe_update_proc p f : safe (update_proc p f).
Proof. unfold update_proc. safe. Qed.
#[export] Hint Resolve safe_update_proc : safe.
Lemma safe_update_current f : safe (update_current f).
Proof. unfold update_current. safe. Qed.
#[export] Hint Resolve safe_update_current : safe.
Lemma safe_find_process f l : safe (find_process f l).
Proof. induction l as [|p l IH]; cbn [find_process]; safe. Qed.
#[export] Hint Resolve safe_find_process : safe.
Lemma safe_by_pid n : safe (process_find_process_by_pid n).
Proof. unfold process_find_process_by_pid. safe. Qed.
Lemma safe_next_pid : safe process_generate_next_pid.
Proof. unfold process_generate_next_pid. safe. by apply safe_put. Qed.
Lemma safe_alloc_fd n d : safe (process_alloc_file_descriptor n d).
Proof. unfold process_alloc_file_descriptor. safe. Qed.
Lemma safe_free_fd n : safe (process_free_file_descriptor n).
Proof. unfold process_free_file_descriptor. safe. Qed.
Lemma safe_get_desc n : safe (process_get_file_description n).
Proof. unfold process_get_file_description. safe. Qed.
Lemma safe_disposition n : safe (get_default_disposition_for_signal n).
Proof. unfold get_default_disposition_for_signal. safe. Qed.
Lemma safe_terminate n : safe (terminate_with_signal n).
Proof. unfold terminate_with_signal. safe. Qed.
#[export] Hint Resolve safe_by_pid safe_next_pid safe_alloc_fd safe_free_fd safe_get_desc
  safe_disposition safe_terminate : safe.
Lemma safe_handle_signals fuel : safe (handle_signals fuel).
Proof. induction fuel as [|fuel IH]; cbn [handle_signals]; safe. Qed.
Lemma safe_handle_pending : safe process_handle_pending_signals.
Proof. unfold process_handle_pending_signals. safe. apply safe_handle_signals. Qed.
#[export] Hint Resolve safe_handle_pending : safe.
Lemma safe_send_signal p n : safe (send_signal p n).
Proof. unfold send_signal. safe. Qed.
#[export] Hint Resolve safe_send_signal : safe.
Lemma safe_send_to_those f l n : safe (send_to_those f l n).
Proof. induction l as [|p l IH]; cbn [send_to_those]; safe. Qed.
#[export] Hint Resolve safe_send_to_those : safe.
Lemma safe_signal_one p n : safe (process_send_signal_to_one p n).
Proof. unfold process_send_signal_to_one. safe. Qed.
Lemma safe_signal_group p n : safe (process_send_signal_to_group p n).
Proof. unfold process_send_signal_to_group. safe. Qed.
Lemma safe_signal_all n : safe (process_send_signal_to_all n).
Proof. unfold process_send_signal_to_all. safe. Qed.
#[export] Hint Resolve safe_signal_one safe_signal_group safe_signal_all : safe.

Lemma safe_find_dead f prev l any : safe (find_dead f prev l any).
Proof. revert prev any. induction l as [|p l IH]; intros prev any; cbn [find_dead]; safe. Qed.
#[export] Hint Resolve safe_find_dead : safe.
Lemma safe_run_blocker p b : safe (run_blocker p b).
Proof.
  destruct b; cbn [run_blocker];
    unfold read_should_unblock, write_should_unblock, socket_read_should_unblock,
      socket_write_should_unblock, accept_should_unblock, connect_should_unblock,
      waitpid_should_unblock; safe; by apply safe_put.
Qed.
Lemma safe_set_all l : safe (set_all l).
Proof. by apply safe_modify. Qed.
Lemma safe_set_ready l : safe (set_ready l).
Proof. by apply safe_modify. Qed.
Lemma safe_set_current p : safe (set_current p).
Proof. by apply safe_modify. Qed.
#[export] Hint Resolve safe_run_blocker safe_set_all safe_set_ready safe_set_current : safe.
Lemma safe_enqueue p : safe (scheduler_enqueue p).
Proof. unfold scheduler_enqueue. safe. Qed.
Lemma safe_insert_by_pid n p l : safe (insert_by_pid n p l).
Proof. induction l as [|q l IH]; cbn [insert_by_pid]; safe. Qed.
#[export] Hint Resolve safe_enqueue safe_insert_by_pid : safe.
Lemma safe_register p : safe (scheduler_register p).
Proof. unfold scheduler_register. safe. Qed.
Lemma safe_unregister fuel p : safe (scheduler_unregister fuel p).
Proof.
  unfold scheduler_unregister. apply safe_get. intros s _. generalize (all_processes s) as l.
  generalize (@nil nat) as prev. induction fuel as [|fuel IH]; intros prev l; cbn [unregister_loop]; safe.
Qed.
Lemma safe_deque : safe scheduler_deque.
Proof. unfold scheduler_deque. safe. Qed.
Lemma safe_unblock_those l : safe (unblock_those l).
Proof. induction l as [|p l IH]; cbn [unblock_those]; safe. Qed.
#[export] Hint Resolve safe_register safe_unregister safe_deque safe_unblock_those : safe.
Lemma safe_switch : safe switch_to_next_process.
Proof. unfold switch_to_next_process, unblock_processes. safe. Qed.
#[export] Hint Resolve safe_switch : safe.
Lemma safe_yield b : safe (scheduler_yield b).
Proof. unfold scheduler_yield. safe. Qed.
#[export] Hint Resolve safe_yield : safe.
Lemma safe_block b : safe (scheduler_block b).
Proof. unfold scheduler_block, block_current. safe. Qed.
#[export] Hint Resolve safe_block : safe.
Lemma safe_fd_block d b : safe (file_description_block d b).
Proof. unfold file_description_block. safe. Qed.
#[export] Hint Resolve safe_fd_block : safe.

(** ** Operations of the tables *)
Lemma safe_ring_read d n : safe (with_ring d (ring_buf_read n)).
Proof. apply safe_with_ring. intros b a b'. apply ring_read_wf. Qed.
Lemma safe_ring_write d l : safe (with_ring d (ring_buf_write l)).
Proof. apply safe_with_ring. intros b a b'. apply ring_write_wf. Qed.
Lemma safe_socket_ring_read i c n : safe (with_socket_ring i c (ring_buf_read n)).
Proof. apply safe_with_socket_ring. intros b a b'. apply ring_read_wf. Qed.
Lemma safe_socket_ring_write i c l : safe (with_socket_ring i c (ring_buf_write l)).
Proof. apply safe_with_socket_ring. intros b a b'. apply ring_write_wf. Qed.
#[export] Hint Resolve safe_ring_read safe_ring_write safe_socket_ring_read
  safe_socket_ring_write : safe.
Lemma safe_fifo_read fuel d n : safe (fifo_read fuel d n).
Proof. induction fuel as [|fuel IH]; cbn [fifo_read]; safe. Qed.
Lemma safe_fifo_write fuel d l : safe (fifo_write fuel d l).
Proof. induction fuel as [|fuel IH]; cbn [fifo_write]; safe. Qed.
Lemma safe_read_loop fuel d i c n : safe (read_loop fuel d i c n).
Proof. induction fuel as [|fuel IH]; cbn [read_loop]; safe. Qed.
Lemma safe_write_loop fuel d i c l : safe (write_loop fuel d i c l).
Proof. induction fuel as [|fuel IH]; cbn [write_loop]; safe. Qed.
#[export] Hint Resolve safe_read_loop safe_write_loop : safe.
Lemma safe_socket_read fuel d n : safe (unix_socket_read fuel d n).
Proof. unfold unix_socket_read. safe. Qed.
Lemma safe_socket_write fuel d l : safe (unix_socket_write fuel d l).
Proof. unfold unix_socket_write. safe. Qed.
Lemma ring_init_wf ok rc b : ring_buf_init ok = (rc, Some b) → RingBuf.wf b.
Proof. destruct ok; intros [= _ <-]. apply wf_empty. Qed.
Lemma safe_fifo_create : safe fifo_create.
Proof.
  unfold fifo_create. safe. apply safe_set_node. split; [done|]. by eapply ring_init_wf.
Qed.
Lemma safe_socket_create : safe unix_socket_create.
Proof.
  unfold unix_socket_create. safe. apply safe_set_node. split; [done|].
  split; by eapply ring_init_wf.
Qed.
Lemma safe_read_random n : safe (read_random n).
Proof.
  unfold read_random. safe. generalize (Z.to_nat (n / 4)) as k.
  induction k as [|k IH]; cbn [read_words]; safe. unfold urand. safe. by apply safe_put.
Qed.
#[export] Hint Resolve safe_fifo_read safe_fifo_write safe_socket_read safe_socket_write
  safe_fifo_create safe_socket_create safe_read_random : safe.
Lemma safe_device_create f n :
  (f = null_fops ∨ f = zero_fops ∨ f = full_fops ∨ f = random_fops) → safe (device_create f n).
Proof.
  intros Hf. unfold device_create. safe. apply safe_set_node.
  by destruct Hf as [->|[->|[->| ->]]].
Qed.

Section tables.
Context (f : file_ops).
Ltac table := destruct f; intros [= <-]; unfold read_nothing, read_zeros, write_to_bit_bucket, write_to_full_disk; safe.
Lemma safe_fops_lookup k i n : fops_lookup_child f = Some k → safe (k i n).
Proof. table. Qed.
Lemma safe_fops_create k i n m : fops_create_child f = Some k → safe (k i n m).
Proof. table. Qed.
Lemma safe_fops_link k i n c : fops_link_child f = Some k → safe (k i n c).
Proof. table. Qed.
Lemma safe_fops_unlink k i n : fops_unlink_child f = Some k → safe (k i n).
Proof. table. Qed.
Lemma safe_fops_open k d n : fops_open f = Some k → safe (k d n).
Proof. table. Qed.
Lemma safe_fops_stat k i : fops_stat f = Some k → safe (k i).
Proof. table. Qed.
Lemma safe_fops_close k d : fops_close f = Some k → safe (k d).
Proof. table. Qed.
Lemma safe_fops_read k d n : fops_read f = Some k → safe (k d n).
Proof. table. Qed.
Lemma safe_fops_write k d l : fops_write f = Some k → safe (k d l).
Proof. table. Qed.
Lemma safe_fops_mmap k d a l o g : fops_mmap f = Some k → safe (k d a l o g).
Proof. table. Qed.
Lemma safe_fops_truncate k d n : fops_truncate f = Some k → safe (k d n).
Proof. table. Qed.
Lemma safe_fops_getdents k c d : fops_getdents f = Some k → safe (k c d).
Proof. table. Qed.
End tables.
#[export] Hint Resolve safe_fops_lookup safe_fops_create safe_fops_link safe_fops_unlink
  safe_fops_open safe_fops_stat safe_fops_close safe_fops_read safe_fops_write safe_fops_mmap
  safe_fops_truncate safe_fops_getdents : safe.

Lemma safe_inode_lookup i n : safe (inode_lookup_child i n).
Proof. unfold inode_lookup_child. safe. Qed.
Lemma safe_inode_create i n m : safe (inode_create_child i n m).
Proof. unfold inode_create_child. safe. Qed.
Lemma safe_inode_link i n c : safe (inode_link_child i n c).
Proof. unfold inode_link_child. safe. Qed.
Lemma safe_inode_unlink i n : safe (inode_unlink_child i n).
Proof. unfold inode_unlink_child. safe. Qed.
Lemma safe_inode_open i f m : safe (inode_open i f m).
Proof. unfold inode_open. safe. Qed.
Lemma safe_inode_stat i : safe (inode_stat i).
Proof. unfold inode_stat. safe. Qed.
#[export] Hint Resolve safe_inode_lookup safe_inode_create safe_inode_link safe_inode_unlink
  safe_inode_open safe_inode_stat : safe.
Lemma safe_fd_close d : safe (file_description_close d).
Proof. unfold file_description_close. safe. Qed.
Lemma safe_fd_read d n : safe (file_description_read d n).
Proof. unfold file_description_read. safe. Qed.
Lemma safe_fd_write d l : safe (file_description_write d l).
Proof. unfold file_description_write. safe. Qed.
Lemma safe_fd_mmap d a l o g : safe (file_description_mmap d a l o g).
Proof. unfold file_description_mmap. safe. Qed.
Lemma safe_fd_truncate d n : safe (file_description_truncate d n).
Proof. unfold file_description_truncate. safe. Qed.
Lemma safe_fd_lseek d o w : safe (file_description_lseek d o w).
Proof. unfold file_description_lseek. safe. Qed.
Lemma safe_fd_ioctl d : safe (file_description_ioctl d).
Proof. unfold file_description_ioctl. safe. Qed.
Lemma safe_fd_getdents d n : safe (file_description_getdents d n).
Proof. unfold file_description_getdents. safe. Qed.
#[export] Hint Resolve safe_fd_close safe_fd_read safe_fd_write safe_fd_mmap safe_fd_truncate
  safe_fd_lseek safe_fd_ioctl safe_fd_getdents : safe.
Lemma safe_close_all l : safe (close_all l).
Proof. induction l as [|[d|] l IH]; cbn [close_all]; safe. Qed.
Lemma safe_ref_all l : safe (ref_all l).
Proof. induction l as [|[d|] l IH]; cbn [ref_all]; safe. Qed.
#[export] Hint Resolve safe_close_all safe_ref_all : safe.
Lemma safe_table_destroy l : safe (file_descriptor_table_destroy l).
Proof. unfold file_descriptor_table_destroy. safe. Qed.
Lemma safe_table_clone l : safe (file_descriptor_table_clone_from l).
Proof. unfold file_descriptor_table_clone_from. safe. Qed.
#[export] Hint Resolve safe_table_destroy safe_table_clone : safe.

(** ** Paths and the virtual file system *)
Lemma safe_strtok_all s sep : safe (strtok_all s sep).
Proof. intros st a st' Hs. unfold strtok_all. destruct (tok_loop _ _ _ _ _); by intros [= _ <-]. Qed.
Lemma safe_list_push l v : safe (list_push l v).
Proof. unfold list_push. safe. Qed.
#[export] Hint Resolve safe_strtok_all safe_list_push : safe.
Lemma safe_push_cwd ts l n : safe (push_cwd ts l n).
Proof. revert l n. induction ts as [|t ts IH]; intros l n; cbn [push_cwd]; safe. Qed.
Lemma safe_push_path ts l n : safe (push_path ts l n).
Proof. revert l n. induction ts as [|t ts IH]; intros l n; cbn [push_path]; safe. Qed.
#[export] Hint Resolve safe_push_cwd safe_push_path : safe.
Lemma safe_component_list path : safe (create_path_component_list path).
Proof. unfold create_path_component_list. safe. Qed.
#[export] Hint Resolve safe_component_list : safe.
Lemma safe_canonicalize path : safe (vfs_canonicalize_path path).
Proof. unfold vfs_canonicalize_path. safe. Qed.
Lemma safe_get_root : safe vfs_get_root.
Proof. unfold vfs_get_root. safe. Qed.
Lemma safe_find_guest h l : safe (find_guest h l).
Proof. induction l as [|[a b] l IH]; cbn [find_guest]; safe. Qed.
Lemma safe_search_device n l : safe (search_device n l).
Proof. induction l as [|i l IH]; cbn [search_device]; safe. Qed.
Lemma safe_mount_at h g : safe (mount_at h g).
Proof. unfold mount_at. safe. by apply safe_put. Qed.
Lemma safe_mount_walk p l : safe (mount_walk p l).
Proof. revert p. induction l as [|c l IH]; intros p; cbn [mount_walk]; safe. Qed.
#[export] Hint Resolve safe_canonicalize safe_get_root safe_find_guest safe_search_device
  safe_mount_at safe_mount_walk : safe.
Lemma safe_mount path r : safe (vfs_mount path r).
Proof. unfold vfs_mount. safe. by apply safe_put. Qed.
Lemma safe_register_device i : safe (vfs_register_device i).
Proof. unfold vfs_register_device. safe. by apply safe_put. Qed.
Lemma safe_find_device n : safe (find_device n).
Proof. unfold find_device. safe. Qed.
Lemma safe_mounted_guest h : safe (find_mounted_guest h).
Proof. unfold find_mounted_guest. safe. Qed.
#[export] Hint Resolve safe_mount safe_register_device safe_find_device safe_mounted_guest : safe.
Lemma safe_resolve_components want p l : safe (resolve_components want p l).
Proof. revert p. induction l as [|c l IH]; intros p; cbn [resolve_components]; safe. Qed.
#[export] Hint Resolve safe_resolve_components : safe.
Lemma safe_resolve_path path want : safe (vfs_resolve_path path want).
Proof. unfold vfs_resolve_path. safe. Qed.
#[export] Hint Resolve safe_resolve_path : safe.
Lemma safe_create_retry fuel p n m e : safe (create_retry fuel p n m e).
Proof. induction fuel as [|fuel IH]; cbn [create_retry]; safe. Qed.
#[export] Hint Resolve safe_create_retry : safe.
Lemma safe_create_inode path m e : safe (create_inode path m e).
Proof. unfold create_inode. safe. Qed.
#[export] Hint Resolve safe_create_inode : safe.
Lemma safe_vfs_create path m : safe (vfs_create path m).
Proof. unfold vfs_create. safe. Qed.
Lemma safe_device_of i : safe (device_of i).
Proof. unfold device_of. safe. Qed.
#[export] Hint Resolve safe_vfs_create safe_device_of : safe.
Lemma safe_vfs_open path f m : safe (vfs_open path f m).
Proof. unfold vfs_open. safe. Qed.
Lemma safe_vfs_stat path : safe (vfs_stat path).
Proof. unfold vfs_stat. safe. Qed.
#[export] Hint Resolve safe_vfs_open safe_vfs_stat : safe.

(** ** System calls *)
Lemma safe_list_directory fuel d n : safe (list_directory fuel d n).
Proof. revert n. induction fuel as [|fuel IH]; intros n; cbn [list_directory]; safe. Qed.
#[export] Hint Resolve safe_list_directory : safe.
Lemma safe_directory_empty i : safe (make_sure_directory_is_empty i).
Proof. unfold make_sure_directory_is_empty. safe. Qed.
Lemma safe_rename_fail rc a b c d : safe (rename_fail rc a b c d).
Proof. unfold rename_fail. safe. Qed.
#[export] Hint Resolve safe_directory_empty safe_rename_fail : safe.
Lemma safe_sys_rename old new : safe (sys_rename old new).
Proof. unfold sys_rename. safe. Qed.
Lemma safe_sys_pipe : safe sys_pipe.
Proof. unfold sys_pipe. safe. Qed.
#[export] Hint Resolve safe_sys_rename safe_sys_pipe : safe.
Lemma safe_file_call c :
  match c with
  | SYS_close _ | SYS_dup2 _ _ | SYS_fcntl _ _ _ | SYS_ftruncate _ _ | SYS_getdents _ _
  | SYS_ioctl _ | SYS_link _ _ | SYS_lseek _ _ _ | SYS_mkdir _ _ | SYS_mknod _ _ _
  | SYS_open _ _ _ | SYS_pipe | SYS_read _ _ | SYS_rename _ _ | SYS_rmdir _ | SYS_stat _
  | SYS_unlink _ | SYS_write _ _ => True
  | _ => False
  end → safe (syscall_handlers c).
Proof.
  destruct c; try done; intros _; cbn [syscall_handlers];
    unfold sys_close, sys_dup2, sys_fcntl, sys_ftruncate, sys_getdents, sys_ioctl, sys_link,
      sys_lseek, sys_mkdir, sys_mknod, sys_open, sys_read, sys_rmdir, sys_stat, sys_unlink, sys_write;
    safe.
Qed.

Lemma safe_string_of n l : safe (string_of n l).
Proof. revert l. induction n as [|n IH]; intros l; cbn [string_of]; safe. Qed.
#[export] Hint Resolve safe_string_of : safe.
Lemma safe_kstrndup_path a n : safe (kstrndup_path a n).
Proof. unfold kstrndup_path. safe. Qed.
Lemma safe_last_pending fuel i : safe (last_pending fuel i).
Proof. revert i. induction fuel as [|fuel IH]; intros i; cbn [last_pending]; safe. Qed.
#[export] Hint Resolve safe_kstrndup_path safe_last_pending : safe.
Lemma safe_enqueue_pending fuel l c : safe (enqueue_pending fuel l c).
Proof. unfold enqueue_pending. safe. Qed.
Lemma safe_deque_pending l : safe (deque_pending l).
Proof. unfold deque_pending. safe. Qed.
#[export] Hint Resolve safe_enqueue_pending safe_deque_pending : safe.
Lemma safe_connect_enqueue fuel d l : safe (connect_enqueue fuel d l).
Proof. unfold connect_enqueue. safe. Qed.
Lemma safe_set_socket_backlog i n : safe (unix_socket_set_backlog i n).
Proof. unfold unix_socket_set_backlog. safe. Qed.
#[export] Hint Resolve safe_connect_enqueue safe_set_socket_backlog : safe.
Lemma safe_socket_call c :
  match c with
  | SYS_accept _ | SYS_bind _ _ _ | SYS_connect _ _ _ | SYS_listen _ _ | SYS_socket _ _ => True
  | _ => False
  end → safe (syscall_handlers c).
Proof.
  destruct c; try done; intros _; cbn [syscall_handlers];
    unfold sys_accept, sys_bind, sys_connect, sys_listen, sys_socket, with_socket_fd,
      unix_socket_accept, unix_socket_connect; safe.
Qed.

Lemma safe_adopt n l : safe (adopt n l).
Proof. induction l as [|p l IH]; cbn [adopt]; safe. Qed.
#[export] Hint Resolve safe_adopt : safe.
Lemma safe_die : safe die.
Proof. unfold die, die_body. safe. Qed.
#[export] Hint Resolve safe_die : safe.
Lemma safe_die_if_needed : safe process_die_if_needed.
Proof. unfold process_die_if_needed. safe. Qed.
Lemma safe_process_tick b : safe (process_tick b).
Proof. unfold process_tick. safe. Qed.
Lemma safe_reap : safe reap.
Proof. unfold reap. safe. by apply safe_modify. Qed.
#[export] Hint Resolve safe_die_if_needed safe_process_tick safe_reap : safe.
Lemma safe_process_call c :
  match c with
  | SYS_chdir _ | SYS_exit _ | SYS_fork | SYS_getcwd _ _ | SYS_getpgid _ | SYS_getpid
  | SYS_kill _ _ | SYS_sched_yield | SYS_setpgid _ _ | SYS_sysconf _ | SYS_times _
  | SYS_waitpid _ _ => True
  | _ => False
  end → safe (syscall_handlers c).
Proof.
  destruct c; try done; intros _; cbn [syscall_handlers];
    unfold sys_chdir, sys_exit, process_exit, sys_fork, sys_getcwd, sys_getpgid, sys_getpid,
      sys_kill, sys_sched_yield, sys_setpgid, sys_sysconf, sys_times, sys_waitpid; safe.
Qed.
Lemma safe_syscall c : safe (syscall_handlers c).
Proof. destruct c; first [by apply safe_file_call | by apply safe_socket_call | by apply safe_process_call]. Qed.

Lemma safe_start_device path make : (path, make) ∈ start_devices → safe (create_char_device path make).
Proof.
  intros Hin. assert (safe make) as Hm.
  { unfold start_devices in Hin.
    repeat (apply elem_of_cons in Hin as [[= _ ->]|Hin]; [apply safe_device_create; auto|]).
    by apply elem_of_nil in Hin. }
  unfold create_char_device. safe. apply (safe_syscall (SYS_mknod path S_IFCHR (device_id nd))).
Qed.
Lemma safe_mount_tmpfs path : safe (mount_tmpfs path).
Proof. unfold mount_tmpfs. safe. Qed.
Lemma step_typed s s' : kernel_step s s' → typed s → typed s'.
Proof.
  intros Hst Hs. destruct Hst as [c ? ? ? H|b ? ? H|? ? H|n ? ? H|b ? ? H|f d l ? ? ? H|? ? ? H|path ? ? H|path m ? ? Hin H];
    (match goal with H : ?m _ = Done _ _ |- _ => assert (Hm : safe m) end;
     [|by apply (Hm _ _ _ Hs H)]).
  - apply safe_syscall.
  - unfold scheduler_tick. safe.
  - apply safe_die_if_needed.
  - unfold process_crash_in_userland. safe.
  - unfold block_current. safe.
  - apply safe_connect_enqueue.
  - apply safe_reap.
  - apply safe_mount_tmpfs.
  - by apply safe_start_device.
Qed.

(** ** Property *)


(** ** Witness *)
(** The kernel with its root mounted and a fifo made by a process. *)
Definition at_start : kstate := one_process (lit "/").
Lemma mounted_reachable s : mount_tmpfs ROOT_DIR at_start = Done tt s → reachable s.
Proof.
  intros H. exists at_start. split; [done|]. eapply rtc_l; [|apply rtc_refl].
  by apply (step_mount ROOT_DIR).
Qed.
