(* ===== verification/Exec.v ===== *)
(** * Programs and their address space (kernel/syscall/exec.c, mmap.c)

    sys_execve reads an ELF file, makes an address space with its segments and a
    stack that holds the arguments and the environment, and enters it. The
    address space is used through [UserMem] (bytes that the kernel stores and
    loads through the page tables), [VmOps] and [PageDirs] (paging.c), which the
    instances of this file give for the page tables of Paging. The main theorem
    says what the new program finds on its stack. *)
From S2P Require Import Prelude Errno CString CLib Lock PageAllocator Paging RangeAllocator.
From S2P Require Import Kernel Path Process Tmpfs Fs Vfs.

Definition STACK_SIZE : Z := 16384.
(** [sizeof(current->comm)]. *)
Definition COMM_SIZE : nat := 16.

(** Memory as the kernel sees it in the current page directory. [um_byte] is
    what is at an address, [None] where a store or a load faults, which in the
    kernel is a panic. *)
Class UserMem (M : Type) : Type := {
  um_byte : M → Z → option Z;
  um_store : Z → Z → K M unit;
}.
Definition um_load {M} `{UserMem M} (a : Z) : K M Z := λ m,
  match um_byte m a with Some b => Done b m | None => Panic end.

(** The functions of paging.c on whole directories. *)
Class PageDirs (M : Type) : Type := {
  pd_current : M → Z;
  pd_create : K M (ptr_res Z);
  pd_switch : Z → K M unit;
  pd_destroy_current : K M unit;
}.

(** The instances for page tables. A frame without recorded contents holds
    unknown bytes: it cannot be read before it is written. *)
Section paging_instances.
Context {P : Type} `{PageAllocOps P}.

(** The frame and the offset behind an address. *)
Definition translate (s : mmu P) (a : Z) : option (Z * nat) :=
  match get_pte a s with
  | Done (Some (pt, i)) s' =>
      match table_get pt i s' with
      | Done raw _ => if present raw then Some (frame_of raw, Z.to_nat (Z.land a 4095)) else None
      | _ => None
      end
  | _ => None
  end.
Definition mmu_byte (s : mmu P) (a : Z) : option Z :=
  '(f, off) ← translate s a; bytes ← mm_data s !! f; bytes !! off.
Definition mmu_store (a b : Z) : K (mmu P) unit :=
  s ← get;
  match translate s a with
  | None => panic
  | Some (f, off) =>
      let bytes := resize (Z.to_nat PAGE_SIZE) 0 (default [] (mm_data s !! f)) in
      put (Paging.set_data (<[f := <[off := b]> bytes]> (mm_data s)) s)
  end.
#[global] Instance paging_user_mem : UserMem (mmu P) := {|
  um_byte := mmu_byte;
  um_store := mmu_store;
|}.
(** [kernel_pd], kaligned_alloc, kfree and the current process are those of the
    section of Paging. *)
Definition paging_dirs (kernel_pd : Z) (kaligned_alloc : K (mmu P) (option Z))
    (kfree : Z → K (mmu P) unit) (current : nat) : PageDirs (mmu P) := {|
  pd_current := current_pd;
  pd_create := paging_create_page_directory kaligned_alloc;
  pd_switch := paging_switch_page_directory;
  pd_destroy_current := paging_destroy_current_page_directory kernel_pd kfree;
|}.
End paging_instances.

(** A loop over the bytes of memcpy or memset, at any address. *)
Fixpoint store_bytes {M} `{UserMem M} (a : Z) (bytes : list Z) : K M unit :=
  match bytes with
  | [] => mret tt
  | b :: bytes => _ ← um_store a b; store_bytes (u32 (a + 1)) bytes
  end.
Definition store_word {M} `{UserMem M} (a v : Z) : K M unit :=
  store_bytes a [u8 v; u8 (Z.shiftr v 8); u8 (Z.shiftr v 16); u8 (Z.shiftr v 24)].

Definition S_ISREG (mode : Z) : bool := Z.land mode S_IFMT =? S_IFREG.

(** ** The state of a call *)

(** The kernel, and the current process's range allocator with the address
    space it works on. *)
Record uspace (M : Type) : Type := USpace { us_kernel : kstate; us_alloc : range_allocator M }.
Arguments USpace {M} _ _.
Arguments us_kernel {M} _.
Arguments us_alloc {M} _.

Definition set_comm (c : list Z) (p : process) : process :=
  Process (pid p) (ppid p) (pgid p) (pstate p) (exit_status p) c (cwd_path p) (cwd_inode p)
    (fd_table p) (should_unblock p) (waited_process p) (blocker_was_interrupted p)
    (user_ticks p) (kernel_ticks p) (pending_signals p).

Section exec.
Context {M : Type} `{VmOps M} `{UserMem M} `{PageDirs M}.
Implicit Types s : uspace M.
Abbreviation U := (K (uspace M)).

Definition in_kernel {A} (m : K kstate A) : U A :=
  zoom us_kernel (λ k s, USpace k (us_alloc s)) m.
Definition in_alloc {A} (m : K (range_allocator M) A) : U A :=
  zoom us_alloc (λ a s, USpace (us_kernel s) a) m.
Definition in_memory {A} (m : K M A) : U A := in_alloc (in_vm m).
Definition kmalloc_ok : U bool := in_kernel Kernel.kmalloc_ok.

(** Another allocator, kept in a local variable, of the same address space. *)
Definition with_local {A} (ra : range_allocator M) (m : K (range_allocator M) A)
    : U (A * range_allocator M) := λ s,
  match m (set_ra_vm (ra_vm (us_alloc s)) ra) with
  | Done x ra' => Done (x, ra') (USpace (us_kernel s) (set_ra_vm (ra_vm ra') (us_alloc s)))
  | Panic => Panic
  | Undef => Undef
  | OutOfFuel => OutOfFuel
  end.

(** ** Copies of the arguments *)

(** A list of strings, or the error; one block for the characters and one for
    the pointers. *)
Definition string_list_create (src : list (list Z)) : U (ptr_res (list (list Z))) :=
  if bool_decide (src = []) then mret (PTR [])
  else
    ok ← kmalloc_ok;
    if negb ok then mret (ERR_PTR (ERR ENOMEM))
    else
      ok ← kmalloc_ok;
      if negb ok then mret (ERR_PTR (ERR ENOMEM)) else mret (PTR src).

(** ** Pushing on the stack of the new program

    Each returns the error or the new stack pointer. *)
Definition push_value (sp stack_base value : Z) : U (Z * Z) :=
  if u32 (sp - 4) <? stack_base then mret (ERR E2BIG, sp)
  else
    let sp := u32 (sp - 4) in
    _ ← in_memory (store_word sp value); mret (0, sp).

(** The loop of push_strings. The array of pointers is filled from its end. *)
Fixpoint push_each (sp stack_base : Z) (strings : list (list Z)) (ptrs : list Z)
    : U (Z * Z * list Z) :=
  match strings with
  | [] => mret (0, sp, ptrs)
  | str :: strings =>
      let size := Z.of_nat (length str) + 1 in
      if u32 (sp - size) <? stack_base then mret (ERR E2BIG, sp, [])
      else
        let sp := u32 (sp - next_power_of_two size) in
        _ ← in_memory (store_bytes sp (str ++ [0]));
        push_each sp stack_base strings (sp :: ptrs)
  end.
Definition push_strings (sp stack_base : Z) (strings : list (list Z)) : U (Z * Z * list Z) :=
  if bool_decide (strings = []) then mret (0, sp, [])
  else
    ok ← kmalloc_ok;
    if negb ok then mret (ERR ENOMEM, sp, []) else push_each sp stack_base strings [].

Fixpoint push_ptrs (sp stack_base : Z) (ptrs : list Z) : U (Z * Z) :=
  match ptrs with
  | [] => mret (0, sp)
  | p :: ptrs =>
      '(rc, sp) ← push_value sp stack_base p;
      if IS_ERR rc then mret (rc, sp) else push_ptrs sp stack_base ptrs
  end.

(** The part of sys_execve from [sp = stack_base + STACK_SIZE] to the fake
    return address: the error or 0, and the stack pointer. *)
Definition build_stack (stack_base : Z) (argv envp : list (list Z)) : U (Z * Z) :=
  let sp := u32 (stack_base + STACK_SIZE) in
  _ ← in_memory (store_bytes stack_base (replicate (Z.to_nat STACK_SIZE) 0));
  '(rc, sp, envp_ptrs) ← push_strings sp stack_base envp;
  if IS_ERR rc then mret (rc, sp) else
  '(rc, sp, argv_ptrs) ← push_strings sp stack_base argv;
  if IS_ERR rc then mret (rc, sp) else
  '(rc, sp) ← push_value sp stack_base 0;
  if IS_ERR rc then mret (rc, sp) else
  '(rc, sp) ← push_ptrs sp stack_base envp_ptrs;
  if IS_ERR rc then mret (rc, sp) else
  let user_envp := sp in
  '(rc, sp) ← push_value sp stack_base 0;
  if IS_ERR rc then mret (rc, sp) else
  '(rc, sp) ← push_ptrs sp stack_base argv_ptrs;
  if IS_ERR rc then mret (rc, sp) else
  let user_argv := sp in
  let sp := round_down sp 16 in
  '(rc, sp) ← push_value sp stack_base user_envp;
  if IS_ERR rc then mret (rc, sp) else
  '(rc, sp) ← push_value sp stack_base user_argv;
  if IS_ERR rc then mret (rc, sp) else
  '(rc, sp) ← push_value sp stack_base (Z.of_nat (length argv));
  if IS_ERR rc then mret (rc, sp) else
  push_value sp stack_base 0.

(** ** The ELF file

    [buf] holds the bytes that were read; those behind them in the block are
    unknown. *)
Definition byte_at {S} (buf : list Z) (o : Z) : K S Z :=
  if o <? 0 then undef else access (buf !! Z.to_nat o).
Definition half_at {S} (buf : list Z) (o : Z) : K S Z :=
  a ← byte_at buf o; b ← byte_at buf (o + 1); mret (a + 256 * b).
Definition elf_word {S} (buf : list Z) (o : Z) : K S Z :=
  a ← half_at buf o; b ← half_at buf (o + 2); mret (a + 65536 * b).
Definition sizeof_ehdr : Z := 52.
Definition sizeof_phdr : Z := 32.
Definition PT_LOAD : Z := 1.

(** The fields of the headers that are used, by their offsets. *)
Definition e_machine {S} (buf : list Z) : K S Z := half_at buf 18.
Definition e_type {S} (buf : list Z) : K S Z := half_at buf 16.
Definition e_version {S} (buf : list Z) : K S Z := elf_word buf 20.
Definition e_entry {S} (buf : list Z) : K S Z := elf_word buf 24.
Definition e_phoff {S} (buf : list Z) : K S Z := elf_word buf 28.
Definition e_phnum {S} (buf : list Z) : K S Z := half_at buf 44.

(** [c1 || c2 || ...] over bytes of the identification. *)
Fixpoint ident_matches {S} (buf : list Z) (i : Z) (ident : list Z) : K S bool :=
  match ident with
  | [] => mret true
  | c :: ident => b ← byte_at buf i; if b =? c then ident_matches buf (i + 1) ident else mret false
  end.
(** Magic number, class, data, version, ABI and its version, machine, type. *)
Definition elf_header_ok {S} (buf : list Z) : K S bool :=
  id ← ident_matches buf 0 [127; ch "E"; ch "L"; ch "F"; 1; 1; 1; 0; 0];
  if negb id then mret false
  else
    m ← e_machine buf;
    if negb (m =? 3) then mret false
    else
      t ← e_type buf;
      if negb (t =? 2) then mret false
      else v ← e_version buf; mret (v =? 1).

(** [memcpy] out of the file. *)
Definition file_bytes {S} (buf : list Z) (o n : Z) : K S (list Z) :=
  if Z.of_nat (length buf) <? o + n then undef
  else mret (take (Z.to_nat n) (drop (Z.to_nat o) buf)).
Definition zero_bytes (n : Z) : list Z := replicate (Z.to_nat n) 0.

(** The loop over the program headers, [n] of them from offset [phdr]: the
    error or 0, and the end of the last segment. *)
Fixpoint load_segments (buf : list Z) (n : nat) (phdr max_segment_addr ret : Z) : U (Z * Z) :=
  match n with
  | O => mret (ret, max_segment_addr)
  | S n =>
      p_type ← elf_word buf phdr;
      if negb (p_type =? PT_LOAD) then load_segments buf n (phdr + sizeof_phdr) max_segment_addr ret
      else
        p_filesz ← elf_word buf (phdr + 16);
        p_memsz ← elf_word buf (phdr + 20);
        if p_memsz <? p_filesz then mret (ERR ENOEXEC, max_segment_addr)
        else
          p_vaddr ← elf_word buf (phdr + 8);
          p_offset ← elf_word buf (phdr + 4);
          let region_start := round_down p_vaddr PAGE_SIZE in
          let region_end := round_up (u32 (p_vaddr + p_memsz)) PAGE_SIZE in
          ret ← in_memory (vm_map_to_free_pages region_start (u32 (region_end - region_start))
                             (Z.lor PAGE_USER PAGE_WRITE));
          if IS_ERR ret then mret (ret, max_segment_addr)
          else
            _ ← in_memory (store_bytes region_start (zero_bytes (u32 (p_vaddr - region_start))));
            bytes ← file_bytes buf p_offset p_filesz;
            _ ← in_memory (store_bytes p_vaddr bytes);
            _ ← in_memory (store_bytes (u32 (p_vaddr + p_filesz))
                             (zero_bytes (u32 (region_end - p_vaddr - p_filesz))));
            load_segments buf n (phdr + sizeof_phdr)
              (if max_segment_addr <? region_end then region_end else max_segment_addr) ret
  end.

(** ** The system call *)

(** An error, or the registers with which the program starts. *)
Inductive exec_result : Type := ExecFailed (rc : Z) | ExecStarted (entry_point sp : Z).

(** [fail]: back to the old address space. *)
Definition exec_fail (ret prev_pd : Z) : U exec_result :=
  _ ← ASSERT (IS_ERR ret);
  _ ← in_memory pd_destroy_current;
  _ ← in_memory (pd_switch prev_pd);
  mret (ExecFailed ret).

(** From the new page directory on; a goto to [fail] is a call of [exec_fail]. *)
Definition exec_image (current : nat) (buf : list Z) (argv envp : list (list Z)) (comm : list Z)
    (prev_pd new_pd : Z) : U exec_result :=
  phoff ← e_phoff buf;
  phnum ← e_phnum buf;
  '(ret, max_segment_addr) ← load_segments buf (Z.to_nat phnum) phoff 0 0;
  if IS_ERR ret then exec_fail ret prev_pd else
  entry_point ← e_entry buf;
  s ← get;
  '(ret, vaddr_allocator) ← with_local (us_alloc s)
     (range_allocator_init max_segment_addr KERNEL_VADDR);
  if IS_ERR ret then exec_fail ret prev_pd else
  '(stack_region, vaddr_allocator) ← with_local vaddr_allocator
     (range_allocator_alloc current (2 * PAGE_SIZE + STACK_SIZE));
  if IS_ERR stack_region then exec_fail stack_region prev_pd else
  let stack_base := u32 (stack_region + PAGE_SIZE) in
  ret ← in_memory (vm_map_to_free_pages stack_base STACK_SIZE (Z.lor PAGE_WRITE PAGE_USER));
  if IS_ERR ret then exec_fail ret prev_pd else
  '(ret, sp) ← build_stack stack_base argv envp;
  if IS_ERR ret then exec_fail ret prev_pd else
  _ ← in_memory (pd_switch prev_pd);
  _ ← in_memory pd_destroy_current;
  _ ← in_memory (pd_switch new_pd);
  _ ← modify (λ s, USpace (us_kernel s) (set_ra_vm (ra_vm (us_alloc s)) vaddr_allocator));
  _ ← in_kernel (x ← current_process; k ← get;
                 set_proc (Kernel.current k) (set_comm (take (COMM_SIZE - 1) comm) x));
  mret (ExecStarted entry_point sp).

(** [comm] is basename of a copy of the path. *)
Definition exec_basename (pathname : list Z) : U (list Z) := λ s,
  match (b ← basename (Some 0%nat);
         match b with BaseDot => mret (lit ".") | BaseRoot => mret (lit "/") | BaseAt p => read_str p end)
        (pathname ++ [0]) with
  | Done n _ => Done n s
  | Panic => Panic
  | Undef => Undef
  | OutOfFuel => OutOfFuel
  end.

(** Behind the checks for null pointers. *)
Definition execve (current : nat) (pathname : list Z) (argv envp : list (list Z)) : U exec_result :=
  '(rc, st) ← in_kernel (vfs_stat pathname);
  if IS_ERR rc then mret (ExecFailed rc) else
  st ← access st;
  if negb (S_ISREG (st_mode st)) then mret (ExecFailed (ERR EACCES)) else
  if u32 (st_size st) <? sizeof_ehdr then mret (ExecFailed (ERR ENOEXEC)) else
  ok ← kmalloc_ok; (* kstrdup *)
  if negb ok then mret (ExecFailed (ERR ENOMEM)) else
  comm ← exec_basename pathname;
  desc ← in_kernel (vfs_open pathname O_RDONLY 0);
  match desc with
  | ERR_PTR rc => mret (ExecFailed rc)
  | PTR desc =>
      ok ← kmalloc_ok;
      if negb ok then
        _ ← in_kernel (file_description_close desc); mret (ExecFailed (ERR ENOMEM))
      else
        '(nread, buf) ← in_kernel (file_description_read desc (st_size st));
        _ ← in_kernel (file_description_close desc);
        if IS_ERR nread then mret (ExecFailed nread) else
        good ← elf_header_ok buf;
        if negb (good : bool) then mret (ExecFailed (ERR ENOEXEC)) else
        copied_argv ← string_list_create argv;
        match copied_argv with
        | ERR_PTR rc => mret (ExecFailed rc)
        | PTR argv =>
            copied_envp ← string_list_create envp;
            match copied_envp with
            | ERR_PTR rc => mret (ExecFailed rc)
            | PTR envp =>
                s ← get;
                let prev_pd := pd_current (ra_vm (us_alloc s)) in
                new_pd ← in_memory pd_create;
                match new_pd with
                | ERR_PTR rc => mret (ExecFailed rc)
                | PTR new_pd =>
                    _ ← in_memory (pd_switch new_pd);
                    exec_image current buf argv envp comm prev_pd new_pd
                end
            end
        end
  end.
(** Strings and vectors are the values behind the pointers of the caller. *)
Definition sys_execve (current : nat) (pathname : option (list Z)) (argv envp : option (list (list Z)))
    : U exec_result :=
  match pathname, argv, envp with
  | Some pathname, Some argv, Some envp => execve current pathname argv envp
  | _, _, _ => mret (ExecFailed (ERR EFAULT))
  end.

(** ** Mapping memory (mmap.c) *)
Definition PROT_READ : Z := 2.
Definition PROT_WRITE : Z := 4.
Definition MAP_SHARED : Z := 1.
Definition MAP_PRIVATE : Z := 2.
Definition MAP_FIXED : Z := 4.
Definition MAP_ANONYMOUS : Z := 8.
Record mmap_params : Type := MmapParams {
  mp_length : Z; mp_prot : Z; mp_flags : Z; mp_fd : Z; mp_offset : Z }.
(** The address, or an error as one. [private ^ shared] is a bitwise exclusive
    or of the two bits: it is zero only when neither is set. *)
Definition sys_mmap (current : nat) (params : mmap_params) : U Z :=
  let flags := mp_flags params in
  if (mp_length params =? 0) || (mp_offset params <? 0) ||
     negb (Z.rem (mp_offset params) PAGE_SIZE =? 0) ||
     (Z.lxor (Z.land flags MAP_PRIVATE) (Z.land flags MAP_SHARED) =? 0)
  then mret (ERR EINVAL)
  else if negb (Z.land flags MAP_FIXED =? 0) || (Z.land (mp_prot params) PROT_READ =? 0)
  then mret (ERR ENOTSUP)
  else
    addr ← in_alloc (range_allocator_alloc current (mp_length params));
    if IS_ERR addr then mret addr
    else
      let page_flags := PAGE_USER in
      let page_flags :=
        if negb (Z.land (mp_prot params) PROT_WRITE =? 0) then Z.lor page_flags PAGE_WRITE else page_flags in
      let page_flags :=
        if negb (Z.land flags MAP_SHARED =? 0) then Z.lor page_flags PAGE_SHARED else page_flags in
      if negb (Z.land flags MAP_ANONYMOUS =? 0) then
        if negb (mp_offset params =? 0) then mret (ERR ENOTSUP)
        else
          rc ← in_memory (vm_map_to_free_pages addr (mp_length params) page_flags);
          if IS_ERR rc then mret rc
          else _ ← in_memory (store_bytes addr (zero_bytes (mp_length params))); mret addr
      else
        desc ← in_kernel (process_get_file_description (mp_fd params));
        match desc with
        | ERR_PTR rc => mret rc
        | PTR desc =>
            i ← in_kernel (x ← Kernel.desc desc; node (d_inode x));
            if S_ISDIR (mode i) then mret (ERR ENODEV)
            else in_kernel (file_description_mmap desc addr (mp_length params) (mp_offset params) page_flags)
        end.
Definition sys_munmap (current : nat) (addr length : Z) : U Z :=
  if negb (addr mod PAGE_SIZE =? 0) then mret (ERR EINVAL)
  else
    _ ← in_memory (vm_unmap addr length);
    in_alloc (range_allocator_free current addr length).
End exec.

(** ** The contract of memory *)

(** A store to a mapped address changes that byte only. *)
Class UserMemLaws (M : Type) `{UserMem M} : Type := {
  um_ok : M → Prop;
  um_store_law m a b : um_ok m → is_Some (um_byte m a) → 0 ≤ b < 256 →
    wp (um_store a b) (λ _ m', um_ok m' ∧
      ∀ x, um_byte m' x = if decide (x = a) then Some b else um_byte m x) m;
}.

(** Page tables keep it while no two addresses share a byte of a frame. *)
Section paging_laws.
Context {P : Type} `{PageAllocOps P}.
Implicit Types s : mmu P.

Definition no_aliases s : Prop :=
  (∀ x y t, translate s x = Some t → translate s y = Some t → x = y) ∧
  (∀ x f off, translate s x = Some (f, off) → (off < Z.to_nat PAGE_SIZE)%nat) ∧
  (∀ f bytes, mm_data s !! f = Some bytes → length bytes = Z.to_nat PAGE_SIZE).
Lemma translate_set_data d s a : translate (Paging.set_data d s) a = translate s a.
Proof.
  unfold translate, get_pte, get_page_table_from_idx, dir_get, table_get, ASSERT.
  unfold mbind, K_bind, get, access, mret, K_ret, panic, undef, Paging.set_data.
  cbn [mm_dirs mm_tables current_pd].
  destruct (mm_dirs s !! current_pd s) as [d'|]; [|reflexivity]. cbn [mm_dirs mm_tables current_pd].
  destruct (present (aget d' (pd_index a))); [|reflexivity].
  destruct (pd_index a <? 1024); [|reflexivity].
  cbn [mm_dirs mm_tables current_pd].
  destruct (mm_dirs s !! current_pd s) as [d2|]; [|reflexivity]. cbn [mm_dirs mm_tables current_pd].
  destruct (mm_tables s !! frame_of (aget d2 (pd_index a))); reflexivity.
Qed.
#[global] Program Instance paging_user_mem_laws : UserMemLaws (mmu P) := {| um_ok := no_aliases |}.
Next Obligation.
  intros s a b (Hinj & Hoff & Hlen) [c Hc] Hb. cbn [um_store um_byte paging_user_mem] in *.
  unfold mmu_byte in Hc. destruct (translate s a) as [[f off]|] eqn:Ha; [|done]. simpl in Hc.
  destruct (mm_data s !! f) as [bytes|] eqn:Hf; [|done]. simpl in Hc.
  pose proof (Hlen _ _ Hf) as Hl. pose proof (Hoff _ _ _ Ha) as Ho.
  unfold mmu_store. wp_keep. rewrite Ha, Hf. cbn [default]. rewrite resize_all_alt by done. wp_keep.
  set (s' := Paging.set_data _ s).
  assert (∀ x, translate s' x = translate s x) as Ht by (intros; apply translate_set_data).
  split; [split_and!|].
  - intros x y t. rewrite !Ht. apply Hinj.
  - intros x f' off'. rewrite Ht. apply Hoff.
  - intros f' bytes'. unfold s'. simpl. destruct (decide (f' = f)) as [->|].
    + rewrite lookup_insert_eq. intros [= <-]. by rewrite length_insert.
    + rewrite lookup_insert_ne by done. apply Hlen.
  - intros x. unfold mmu_byte. rewrite Ht.
    destruct (translate s x) as [[f' off']|] eqn:Hx; simpl.
    + destruct (decide (f' = f)) as [->|Hne].
      * rewrite lookup_insert_eq, Hf. simpl. destruct (decide (off' = off)) as [->|Hno].
        -- rewrite decide_True by (by eapply Hinj). apply list_lookup_insert_eq. lia.
        -- rewrite list_lookup_insert_ne by done. rewrite decide_False; [done|]. intros ->. congruence.
      * rewrite lookup_insert_ne by done. rewrite decide_False; [done|]. intros ->. congruence.
    + rewrite decide_False; [done|]. intros ->. congruence.
Qed.
End paging_laws.

(** ** Reasoning about stored bytes *)
Section stack.
Context {M : Type} `{VmOps M} `{UserMemLaws M}.
Implicit Types (m : M) (s : uspace M).

Definition bytes_at m (a : Z) (bytes : list Z) : Prop :=
  ∀ i b, bytes !! i = Some b → um_byte m (a + Z.of_nat i) = Some b.
Definition mapped m (lo hi : Z) : Prop := ∀ x, lo ≤ x < hi → is_Some (um_byte m x).
(** Nothing changes outside of [lo, hi). *)
Definition only_within (lo hi : Z) m m' : Prop :=
  ∀ x, ¬ (lo ≤ x < hi) → um_byte m' x = um_byte m x.
Definition is_bytes (bytes : list Z) : Prop := Forall (λ b, 0 ≤ b < 256) bytes.

Lemma only_within_refl lo hi m : only_within lo hi m m.
Proof. done. Qed.
Lemma only_within_trans lo hi lo1 hi1 lo2 hi2 m m1 m2 :
  lo ≤ lo1 → hi1 ≤ hi → lo ≤ lo2 → hi2 ≤ hi →
  only_within lo1 hi1 m m1 → only_within lo2 hi2 m1 m2 → only_within lo hi m m2.
Proof. intros ???? E1 E2 x Hx. rewrite E2, E1 by lia. done. Qed.
Lemma bytes_at_kept lo hi m m' a bytes :
  only_within lo hi m m' → a + Z.of_nat (length bytes) ≤ lo ∨ hi ≤ a →
  bytes_at m a bytes → bytes_at m' a bytes.
Proof.
  intros Ho Hd Hb i b Hi. pose proof (lookup_lt_Some _ _ _ Hi). rewrite Ho by lia. by apply Hb.
Qed.
Lemma bytes_at_app m a k l :
  bytes_at m a (k ++ l) ↔ bytes_at m a k ∧ bytes_at m (a + Z.of_nat (length k)) l.
Proof.
  split.
  - intros Hb. split; intros i b Hi.
    + apply Hb. by apply lookup_app_l_Some.
    + replace (a + Z.of_nat (length k) + Z.of_nat i) with (a + Z.of_nat (length k + i)) by lia.
      apply Hb. rewrite lookup_app_r by lia. by replace (length k + i - length k)%nat with i by lia.
  - intros [Hk Hl] i b [Hi|[Hle Hi]]%lookup_app_Some; [by apply Hk|].
    specialize (Hl _ _ Hi). by replace (a + Z.of_nat (length k) + Z.of_nat (i - length k))
      with (a + Z.of_nat i) in Hl by lia.
Qed.

Lemma wp_store_bytes a bytes m (Q : unit → M → Prop) :
  um_ok m → 0 ≤ a → a + Z.of_nat (length bytes) < U32 →
  mapped m a (a + Z.of_nat (length bytes)) → is_bytes bytes →
  (∀ m', um_ok m' → bytes_at m' a bytes → only_within a (a + Z.of_nat (length bytes)) m m' →
     (∀ lo hi, mapped m lo hi → mapped m' lo hi) → Q tt m') →
  wp (store_bytes a bytes) Q m.
Proof.
  intros Hok Ha Hlt Hm Hb. revert a m Hok Ha Hlt Hm.
  induction Hb as [|b bytes Hb Hbs IH]; intros a m Hok Ha Hlt Hm HQ; cbn [store_bytes].
  { apply wp_ret, HQ; [done| |done|done]. by intros i b Hi. }
  simpl length in *. wp_keep.
  eapply wp_mono; [apply um_store_law; [done|apply Hm; lia|done]|]. intros [] m1 [Hok1 Hm1].
  rewrite u32_small by lia.
  assert (∀ lo hi, mapped m lo hi → mapped m1 lo hi) as Hkeep.
  { intros lo hi Hmap x Hx. rewrite Hm1. case_decide; [by eexists|by apply Hmap]. }
  apply IH; [done|lia|lia| |].
  { apply Hkeep. intros x Hx. apply Hm. lia. }
  intros m2 Hok2 Hb2 Ho2 Hk2. apply HQ; [done| | |].
  - intros [|i] c Hi; simpl in Hi.
    + injection Hi as <-. rewrite Z.add_0_r, Ho2 by lia. rewrite Hm1. by rewrite decide_True.
    + replace (a + Z.of_nat (S i)) with (a + 1 + Z.of_nat i) by lia. by apply Hb2.
  - intros x Hx. rewrite Ho2 by lia. rewrite Hm1. rewrite decide_False; [done|lia].
  - intros lo hi Hmap. by apply Hk2, Hkeep.
Qed.

(** ** The stack under construction *)
Definition mem s : M := ra_vm (us_alloc s).
Definition with_mem (m : M) s : uspace M := USpace (us_kernel s) (set_ra_vm m (us_alloc s)).
Lemma wp_in_memory {A} (c : K M A) (Q : A → uspace M → Prop) s :
  wp c (λ x m', Q x (with_mem m' s)) (mem s) → wp (in_memory c) Q s.
Proof. intros Hc. unfold in_memory, in_alloc, in_vm. by do 2 apply wp_zoom. Qed.

(** The region is mapped, and no kmalloc will fail. *)
Definition stack_ok (lo hi : Z) s : Prop :=
  um_ok (mem s) ∧ mapped (mem s) lo hi ∧ Forall (λ b, b = true) (grants (us_kernel s)) ∧ 0 ≤ lo ∧ hi < U32.

Lemma wp_kmalloc_page (Q : bool → uspace M → Prop) lo hi s :
  stack_ok lo hi s → (∀ s', stack_ok lo hi s' → mem s' = mem s → Q true s') → wp kmalloc_ok Q s.
Proof.
  intros (Hok & Hm & Hg & Hb) HQ. unfold kmalloc_ok, in_kernel. apply wp_zoom.
  unfold wp, Kernel.kmalloc_ok. destruct (grants (us_kernel s)) as [|b g] eqn:E.
  - apply HQ; [|done]. split_and!; [done|done| |apply Hb|apply Hb]. simpl. by rewrite E.
  - inversion_clear Hg as [|? ? Hbt Hg']. subst b. apply HQ; [|done]. by split_and!; try apply Hb.
Qed.
(** A store to the stack. *)
Lemma wp_stack_store lo hi a bytes s (Q : unit → uspace M → Prop) :
  stack_ok lo hi s → lo ≤ a → a + Z.of_nat (length bytes) ≤ hi → is_bytes bytes →
  (∀ s', stack_ok lo hi s' → bytes_at (mem s') a bytes →
     only_within a (a + Z.of_nat (length bytes)) (mem s) (mem s') → Q tt s') →
  wp (in_memory (store_bytes a bytes)) Q s.
Proof.
  intros (Hok & Hm & Hg & Hzero & HU) Hlo Hhi Hb HQ. apply wp_in_memory.
  apply wp_store_bytes; [done|lia|lia| |done|].
  { intros x Hx. apply Hm. lia. }
  intros m' Hok' Hb' Ho Hk. apply HQ; [|done|done]. split_and!; [done|by apply Hk|done|done|done].
Qed.

(** A 32-bit word, and an array of them. *)
Definition word_bytes (v : Z) : list Z := [u8 v; u8 (Z.shiftr v 8); u8 (Z.shiftr v 16); u8 (Z.shiftr v 24)].
Definition word_at m (a v : Z) : Prop := bytes_at m a (word_bytes v).
Fixpoint words_at m (a : Z) (ws : list Z) : Prop :=
  match ws with [] => True | w :: ws => word_at m a w ∧ words_at m (a + 4) ws end.
Lemma words_at_app m a k l :
  words_at m a (k ++ l) ↔ words_at m a k ∧ words_at m (a + 4 * Z.of_nat (length k)) l.
Proof.
  revert a. induction k as [|w k IH]; intros a; cbn [app words_at length].
  - rewrite Z.mul_0_r, Z.add_0_r. naive_solver.
  - rewrite IH. replace (a + 4 + 4 * Z.of_nat (length k)) with (a + 4 * Z.of_nat (S (length k))) by lia.
    naive_solver.
Qed.
Lemma words_at_kept lo hi m m' a ws :
  only_within lo hi m m' → a + 4 * Z.of_nat (length ws) ≤ lo ∨ hi ≤ a →
  words_at m a ws → words_at m' a ws.
Proof.
  intros Ho. revert a. induction ws as [|w ws IH]; intros a Hd; [done|]. simpl in *.
  intros [Hw Hws]. split; [|apply IH; [lia|done]].
  eapply bytes_at_kept; [exact Ho| |exact Hw]. simpl. lia.
Qed.

(** Strings with their terminators, within bounds. *)
Definition string_at (lo hi : Z) m (p : Z) (str : list Z) : Prop :=
  lo ≤ p ∧ p + Z.of_nat (length str) + 1 ≤ hi ∧ bytes_at m p (str ++ [0]).
Definition strings_at (lo hi : Z) m (ps : list Z) (strs : list (list Z)) : Prop :=
  Forall2 (string_at lo hi m) ps strs.
Lemma strings_at_kept lo hi lo' hi' m m' ps strs :
  only_within lo' hi' m m' → hi' ≤ lo → strings_at lo hi m ps strs → strings_at lo hi m' ps strs.
Proof.
  intros Ho Hd HF. eapply Forall2_impl; [exact HF|]. intros p str (Hl & Hh & Hb). split_and!; [done|done|].
  eapply bytes_at_kept; [exact Ho|lia|exact Hb].
Qed.
Lemma strings_at_weaken lo hi lo' hi' m ps strs :
  lo' ≤ lo → hi ≤ hi' → strings_at lo hi m ps strs → strings_at lo' hi' m ps strs.
Proof. intros Hl Hh HF. eapply Forall2_impl; [exact HF|]. intros p str (?&?&?). split_and!; [lia|lia|done]. Qed.

Definition good_string (str : list Z) : Prop :=
  Forall (λ b, 0 < b < 256) str ∧ Z.of_nat (length str) < 2147483648.
(** The bytes that the strings take on the stack. *)
Definition room_of (str : list Z) : Z := next_power_of_two (Z.of_nat (length str) + 1).
Fixpoint strings_room (strs : list (list Z)) : Z :=
  match strs with [] => 0 | str :: strs => room_of str + strings_room strs end.

Lemma next_power_of_two_ge x : 1 ≤ x ≤ 2147483648 → x ≤ next_power_of_two x ≤ 2147483648.
Proof.
  intros Hx. unfold next_power_of_two. destruct (x <=? 1) eqn:E; bool_to_prop; [lia|].
  unfold clz32, SIZE_MAX, U32. pose proof (Z.log2_spec (x - 1) ltac:(lia)) as [Hl1 Hl2].
  set (k := Z.log2 (x - 1)) in *.
  assert (0 ≤ k ≤ 30) as Hk.
  { split; [apply Z.log2_nonneg|]. apply Z.lt_succ_r. apply Z.log2_lt_pow2; [lia|]. simpl. lia. }
  assert (Z.shiftr (4294967296 - 1) (31 - k) + 1 = 2 ^ Z.succ k) as ->.
  { rewrite Z.shiftr_div_pow2 by lia.
    replace (4294967296 - 1) with ((2 ^ Z.succ k - 1) * 2 ^ (31 - k) + (2 ^ (31 - k) - 1)).
    - rewrite Z.div_add_l by (apply Z.pow_nonzero; lia).
      rewrite Z.div_small; [lia|]. pose proof (Z.pow_pos_nonneg 2 (31 - k) ltac:(lia) ltac:(lia)). lia.
    - assert (2 ^ Z.succ k * 2 ^ (31 - k) = 4294967296); [|lia].
      rewrite <-Z.pow_add_r by lia. replace (Z.succ k + (31 - k)) with 32 by lia. done. }
  assert (2 ^ Z.succ k ≤ 2 ^ 31) by (apply Z.pow_le_mono_r; lia).
  rewrite u32_small by (unfold U32; change (2 ^ 31) with 2147483648 in *; lia).
  change (2 ^ 31) with 2147483648 in *. lia.
Qed.
Lemma room_of_ge str : good_string str → Z.of_nat (length str) + 1 ≤ room_of str ≤ 2147483648.
Proof. intros [_ Hl]. apply next_power_of_two_ge. lia. Qed.
Lemma strings_room_nonneg strs : Forall good_string strs → 0 ≤ strings_room strs.
Proof.
  induction 1 as [|str strs Hs _ IH]; simpl; [lia|]. pose proof (room_of_ge _ Hs). lia.
Qed.
Lemma good_string_bytes str : good_string str → is_bytes (str ++ [0]).
Proof.
  intros [Hs _]. apply Forall_app. split; [|by apply Forall_singleton].
  eapply Forall_impl; [exact Hs|]. cbv beta. lia.
Qed.

Lemma wp_push_value lo hi sp base v s (Q : Z * Z → uspace M → Prop) :
  stack_ok lo hi s → lo ≤ base → base + 4 ≤ sp ≤ hi → 0 ≤ base →
  (∀ s', stack_ok lo hi s' → word_at (mem s') (sp - 4) v →
     only_within (sp - 4) sp (mem s) (mem s') → Q (0, sp - 4) s') →
  wp (push_value sp base v) Q s.
Proof.
  intros Hs Hlo Hsp Hb HQ. pose proof Hs as (_ & _ & _ & Hz & HU). unfold push_value.
  rewrite u32_small by lia. rewrite (proj2 (Z.ltb_ge _ _)) by lia. wp_keep.
  eapply wp_stack_store; [exact Hs|lia|simpl; lia| |].
  { repeat (apply Forall_cons; split; [apply u8_range|]). by apply Forall_nil. }
  intros s' Hs' Hw Ho. wp_keep. apply HQ; [done|done|].
  simpl length in Ho. by replace (sp - 4 + Z.of_nat 4) with sp in Ho by lia.
Qed.

(** The array that results has the pointers in the other order. *)
Lemma wp_push_ptrs lo hi sp base ptrs s (Q : Z * Z → uspace M → Prop) :
  stack_ok lo hi s → lo ≤ base → base + 4 * Z.of_nat (length ptrs) ≤ sp ≤ hi → 0 ≤ base →
  (∀ s', stack_ok lo hi s' → words_at (mem s') (sp - 4 * Z.of_nat (length ptrs)) (reverse ptrs) →
     only_within (sp - 4 * Z.of_nat (length ptrs)) sp (mem s) (mem s') →
     Q (0, sp - 4 * Z.of_nat (length ptrs)) s') →
  wp (push_ptrs sp base ptrs) Q s.
Proof.
  revert sp s Q. induction ptrs as [|p ptrs IH]; intros sp s Q Hs Hlo Hsp Hb HQ; cbn [push_ptrs].
  { simpl in HQ. rewrite Z.sub_0_r in HQ. by apply wp_ret, HQ. }
  simpl length in *. wp_keep. eapply wp_push_value; [exact Hs|done|lia|done|].
  intros s1 Hs1 Hw1 Ho1. change (IS_ERR 0) with false. cbv beta iota.
  apply IH; [done|done|lia|done|]. intros s2 Hs2 Hw2 Ho2.
  replace (sp - 4 - 4 * Z.of_nat (length ptrs)) with (sp - 4 * Z.of_nat (S (length ptrs))) in * by lia.
  apply HQ; [done| |].
  - rewrite reverse_cons. apply words_at_app. split; [done|]. rewrite length_reverse.
    replace (sp - 4 * Z.of_nat (S (length ptrs)) + 4 * Z.of_nat (length ptrs)) with (sp - 4) by lia.
    simpl. split; [|done]. eapply bytes_at_kept; [exact Ho2|right; lia|exact Hw1].
  - eapply only_within_trans; [| | | |exact Ho1|exact Ho2]; lia.
Qed.

(** Where the strings end up. *)
Fixpoint addrs (sp : Z) (strs : list (list Z)) : list Z :=
  match strs with [] => [] | str :: strs => (sp - room_of str) :: addrs (sp - room_of str) strs end.
Lemma length_addrs sp strs : length (addrs sp strs) = length strs.
Proof. revert sp. induction strs as [|str strs IH]; intros sp; simpl; [done|]. by rewrite IH. Qed.

Lemma wp_push_each lo hi sp base strs ptrs s (Q : Z * Z * list Z → uspace M → Prop) :
  stack_ok lo hi s → lo ≤ base → base + strings_room strs ≤ sp ≤ hi → 0 ≤ base →
  Forall good_string strs →
  (∀ s', stack_ok lo hi s' → strings_at (sp - strings_room strs) sp (mem s') (addrs sp strs) strs →
     only_within (sp - strings_room strs) sp (mem s) (mem s') →
     Q (0, sp - strings_room strs, reverse (addrs sp strs) ++ ptrs) s') →
  wp (push_each sp base strs ptrs) Q s.
Proof.
  intros Hs Hlo Hsp Hb HF. revert sp ptrs s Q Hs Hsp.
  induction HF as [|str strs Hstr HF IH]; intros sp ptrs s Q Hs Hsp HQ; cbn [push_each].
  { simpl in HQ. rewrite Z.sub_0_r in HQ. apply wp_ret. by apply (HQ s); [|apply Forall2_nil|]. }
  pose proof Hs as (_ & _ & _ & Hz & HU). cbn [strings_room addrs] in *.
  pose proof (room_of_ge _ Hstr) as Hr. pose proof (strings_room_nonneg _ HF) as Hn.
  rewrite u32_small by lia. rewrite (proj2 (Z.ltb_ge _ _)) by lia.
  fold (room_of str). rewrite (u32_small (sp - room_of str)) by lia. wp_keep.
  eapply wp_stack_store; [exact Hs|lia| |by apply good_string_bytes|].
  { rewrite length_app. simpl. lia. }
  intros s1 Hs1 Hw1 Ho1. rewrite length_app in Ho1. simpl in Ho1.
  apply IH; [done|lia|]. intros s2 Hs2 Hw2 Ho2.
  rewrite reverse_cons, <-app_assoc in HQ. simpl in HQ. rewrite Z.sub_add_distr in HQ. apply HQ; [done| |].
  - apply Forall2_cons. split.
    + split_and!; [lia|lia|]. eapply bytes_at_kept; [exact Ho2|right; lia|exact Hw1].
    + eapply strings_at_weaken; [| |exact Hw2]; lia.
  - eapply only_within_trans; [| | | |exact Ho1|exact Ho2]; lia.
Qed.

Lemma wp_push_strings lo hi sp base strs s (Q : Z * Z * list Z → uspace M → Prop) :
  stack_ok lo hi s → lo ≤ base → base + strings_room strs ≤ sp ≤ hi → 0 ≤ base →
  Forall good_string strs →
  (∀ s', stack_ok lo hi s' → strings_at (sp - strings_room strs) sp (mem s') (addrs sp strs) strs →
     only_within (sp - strings_room strs) sp (mem s) (mem s') →
     Q (0, sp - strings_room strs, reverse (addrs sp strs)) s') →
  wp (push_strings sp base strs) Q s.
Proof.
  intros Hs Hlo Hsp Hb HF HQ. unfold push_strings. case_bool_decide as E.
  { subst strs. simpl in HQ. rewrite Z.sub_0_r in HQ. apply wp_ret. by apply (HQ s); [|apply Forall2_nil|]. }
  wp_keep. eapply wp_kmalloc_page; [exact Hs|]. intros s1 Hs1 Hm1. simpl negb. cbv iota.
  eapply wp_push_each; [done|done|done|done|done|]. intros s2. rewrite Hm1, app_nil_r. apply HQ.
Qed.

(** ** What a program finds on its stack

    The fake return address, argc, argv and envp at the stack pointer; the two
    arrays of pointers, each closed by a null pointer; the strings behind them. *)
Definition program_stack (lo hi : Z) m (sp : Z) (argv envp : list (list Z)) : Prop :=
  ∃ (user_argv user_envp : Z) (argv_ptrs envp_ptrs : list Z),
    words_at m sp [0; Z.of_nat (length argv); user_argv; user_envp] ∧
    words_at m user_argv (argv_ptrs ++ [0]) ∧ strings_at lo hi m argv_ptrs argv ∧
    words_at m user_envp (envp_ptrs ++ [0]) ∧ strings_at lo hi m envp_ptrs envp.

(** The most that the arguments take. *)
Definition stack_need (argv envp : list (list Z)) : Z :=
  strings_room envp + strings_room argv +
  4 * (Z.of_nat (length envp) + 1) + 4 * (Z.of_nat (length argv) + 1) + 15 + 16.

Lemma round_down_16 x : 0 ≤ x < U32 → x - 15 ≤ round_down x 16 ≤ x ∧ round_down x 16 mod 16 = 0.
Proof.
  intros Hx. unfold round_down. change (u32 (Z.lnot (16 - 1))) with (Z.shiftl (Z.ones 28) 4).
  assert (Z.land x (Z.shiftl (Z.ones 28) 4) = x / 16 * 16) as ->.
  { change 16 with (2 ^ 4). rewrite <-Z.shiftr_div_pow2, <-Z.shiftl_mul_pow2 by lia.
    apply Z.bits_inj'. intros j Hj. rewrite Z.land_spec, !Z.shiftl_spec by done.
    destruct (decide (j < 4)).
    - rewrite !(Z.testbit_neg_r _ (j - 4)) by lia. apply andb_false_r.
    - rewrite Z.shiftr_spec by lia. replace (j - 4 + 4) with j by lia.
      destruct (decide (j < 32)).
      + rewrite Z.ones_spec_low by lia. apply andb_true_r.
      + rewrite (testbit_high x 32) by (unfold U32 in *; lia). done. }
  pose proof (Z.div_mod x 16 ltac:(lia)). pose proof (Z.mod_pos_bound x 16 ltac:(lia)).
  split; [lia|]. apply Z.mod_mul. lia.
Qed.

Lemma bytes_zero n : is_bytes (replicate n 0).
Proof. apply Forall_replicate. lia. Qed.

(** A vector of pointers with its null pointer; [k] is what follows. *)
Lemma wp_push_vector lo hi sp base ptrs (k : Z → K (uspace M) (Z * Z)) s (Q : Z * Z → uspace M → Prop) :
  stack_ok lo hi s → lo ≤ base → base + 4 * (Z.of_nat (length ptrs) + 1) ≤ sp ≤ hi → 0 ≤ base →
  (∀ s', let v := sp - 4 * (Z.of_nat (length ptrs) + 1) in
     stack_ok lo hi s' → words_at (mem s') v (ptrs ++ [0]) →
     only_within v sp (mem s) (mem s') → wp (k v) Q s') →
  wp ('(rc, sp) ← push_value sp base 0;
      if IS_ERR rc then mret (rc, sp) else
      '(rc, sp) ← push_ptrs sp base (reverse ptrs);
      if IS_ERR rc then mret (rc, sp) else k sp) Q s.
Proof.
  intros Hs Hlo Hsp Hb Hk. wp_keep. eapply wp_push_value; [exact Hs|done|lia|done|].
  intros s1 Hs1 Hw1 Ho1. change (IS_ERR 0) with false. cbv beta iota. wp_keep.
  eapply wp_push_ptrs; [exact Hs1|done|rewrite length_reverse; lia|done|].
  intros s2 Hs2 Hw2 Ho2. rewrite length_reverse, reverse_involutive in *.
  change (IS_ERR 0) with false. cbv beta iota.
  replace (sp - 4 - 4 * Z.of_nat (length ptrs)) with (sp - 4 * (Z.of_nat (length ptrs) + 1)) in * by lia.
  apply Hk; [done| |eapply only_within_trans; [| | | |exact Ho1|exact Ho2]; lia].
  apply words_at_app. split; [done|].
  replace (sp - 4 * (Z.of_nat (length ptrs) + 1) + 4 * Z.of_nat (length ptrs)) with (sp - 4) by lia.
  split; [|done]. eapply bytes_at_kept; [exact Ho2|right; lia|exact Hw1].
Qed.

(** The frame of main. *)
Lemma wp_push_frame lo hi sp base user_envp user_argv argc s (Q : Z * Z → uspace M → Prop) :
  stack_ok lo hi s → lo ≤ base → base + 16 ≤ sp ≤ hi → 0 ≤ base →
  (∀ s', stack_ok lo hi s' → words_at (mem s') (sp - 16) [0; argc; user_argv; user_envp] →
     only_within (sp - 16) sp (mem s) (mem s') → Q (0, sp - 16) s') →
  wp ('(rc, sp) ← push_value sp base user_envp;
      if IS_ERR rc then mret (rc, sp) else
      '(rc, sp) ← push_value sp base user_argv;
      if IS_ERR rc then mret (rc, sp) else
      '(rc, sp) ← push_value sp base argc;
      if IS_ERR rc then mret (rc, sp) else push_value sp base 0) Q s.
Proof.
  intros Hs Hlo Hsp Hb HQ. wp_keep. eapply wp_push_value; [exact Hs|done|lia|done|].
  intros s1 Hs1 Hw1 Ho1. change (IS_ERR 0) with false. cbv beta iota. wp_keep.
  eapply wp_push_value; [exact Hs1|done|lia|done|].
  intros s2 Hs2 Hw2 Ho2. change (IS_ERR 0) with false. cbv beta iota. wp_keep.
  eapply wp_push_value; [exact Hs2|done|lia|done|].
  intros s3 Hs3 Hw3 Ho3. change (IS_ERR 0) with false. cbv beta iota.
  eapply wp_push_value; [exact Hs3|done|lia|done|].
  intros s4 Hs4 Hw4 Ho4.
  replace (sp - 4 - 4 - 4 - 4) with (sp - 16) in * by lia.
  replace (sp - 4 - 4 - 4) with (sp - 12) in * by lia. replace (sp - 4 - 4) with (sp - 8) in * by lia.
  assert (only_within (sp - 16) (sp - 8) (mem s2) (mem s4)) as Ho34.
  { eapply only_within_trans; [| | | |exact Ho3|exact Ho4]; lia. }
  assert (only_within (sp - 16) (sp - 4) (mem s1) (mem s4)) as Ho24.
  { eapply only_within_trans; [| | | |exact Ho2|exact Ho34]; lia. }
  apply HQ; [done| |eapply only_within_trans; [| | | |exact Ho1|exact Ho24]; lia].
  cbn [words_at]. replace (sp - 16 + 4) with (sp - 12) by lia.
  replace (sp - 12 + 4) with (sp - 8) by lia. replace (sp - 8 + 4) with (sp - 4) by lia.
  split_and!; [exact Hw4| | | |done].
  - eapply bytes_at_kept; [exact Ho4|right; lia|exact Hw3].
  - eapply bytes_at_kept; [exact Ho34|right; lia|exact Hw2].
  - eapply bytes_at_kept; [exact Ho24|right; lia|exact Hw1].
Qed.

Lemma build_stack_wp base argv envp s :
  stack_ok base (base + STACK_SIZE) s → Forall good_string argv → Forall good_string envp →
  stack_need argv envp ≤ STACK_SIZE →
  wp (build_stack base argv envp) (λ '(rc, sp) s', rc = 0 ∧ base ≤ sp ∧ sp mod 16 = 0 ∧
    program_stack base (base + STACK_SIZE) (mem s') sp argv envp ∧
    only_within base (base + STACK_SIZE) (mem s) (mem s') ∧ stack_ok base (base + STACK_SIZE) s') s.
Proof.
  intros Hs Ha He Hneed. pose proof Hs as (_ & _ & _ & Hz & HU).
  set (hi := base + STACK_SIZE) in *. unfold stack_need in Hneed.
  pose proof (strings_room_nonneg _ Ha) as Hna. pose proof (strings_room_nonneg _ He) as Hne.
  unfold build_stack. rewrite u32_small by (unfold STACK_SIZE in *; lia). fold hi.
  wp_keep. eapply wp_stack_store; [exact Hs|lia|rewrite length_replicate; unfold STACK_SIZE in *; lia|apply bytes_zero|].
  intros s0 Hs0 _ Ho0. rewrite length_replicate, Z2Nat.id in Ho0 by (unfold STACK_SIZE; lia). fold hi in Ho0.
  wp_keep. eapply (wp_push_strings base hi); [exact Hs0|lia|unfold hi; lia|lia|done|]. intros s1 Hs1 Hse Ho1.
  change (IS_ERR 0) with false. cbv beta iota. set (sp1 := hi - strings_room envp) in *. wp_keep.
  eapply (wp_push_strings base hi); [exact Hs1|lia|unfold sp1, hi; lia|lia|done|]. intros s2 Hs2 Hsa Ho2.
  change (IS_ERR 0) with false. cbv beta iota. set (sp2 := sp1 - strings_room argv) in *.
  apply (wp_push_vector base hi); [done|lia|rewrite length_addrs; unfold sp2, sp1, hi; lia|lia|].
  intros s3 ue Hs3 Hwe Ho3. unfold ue in *. clear ue. rewrite length_addrs in *.
  set (ue := sp2 - 4 * (Z.of_nat (length envp) + 1)) in *.
  apply (wp_push_vector base hi); [done|lia|rewrite length_addrs; unfold ue, sp2, sp1, hi; lia|lia|].
  intros s4 ua Hs4 Hwa Ho4. unfold ua in *. clear ua. rewrite length_addrs in *.
  set (ua := ue - 4 * (Z.of_nat (length argv) + 1)) in *.
  assert (base + 31 ≤ ua) as Hua by (unfold ua, ue, sp2, sp1, hi; lia).
  destruct (round_down_16 ua) as [Hrd Hmod]; [unfold ua, ue, sp2, sp1, hi in *; lia|].
  assert (ua ≤ ue ∧ ue ≤ sp2 ∧ sp2 ≤ sp1 ∧ sp1 ≤ hi) as (Hb1 & Hb2 & Hb3 & Hb4).
  { unfold ua, ue, sp2, sp1. lia. }
  eapply (wp_push_frame base hi); [exact Hs4|lia|lia|lia|]. intros s5 Hs5 Hwf Ho5.
  split_and!; [done|lia|rewrite Zminus_mod, Hmod; done| | |done].
  - exists ua, ue, (addrs sp1 argv), (addrs hi envp). split_and!.
    + exact Hwf.
    + eapply words_at_kept; [exact Ho5|right; lia|exact Hwa].
    + eapply (strings_at_weaken sp2 sp1); [lia|lia|].
      do 3 (eapply strings_at_kept; [eassumption|lia|]). exact Hsa.
    + do 2 (eapply words_at_kept; [eassumption|right; lia|]). exact Hwe.
    + eapply (strings_at_weaken sp1 hi); [lia|lia|].
      do 4 (eapply strings_at_kept; [eassumption|lia|]). exact Hse.
  - intros x Hx. rewrite Ho5, Ho4, Ho3, Ho2, Ho1, Ho0 by lia. done.
Qed.

Lemma store_fault a b bytes m : um_store a b m = Panic → store_bytes a (b :: bytes) m = Panic.
Proof. intros Hp. cbn [store_bytes]. unfold mbind, K_bind. by rewrite Hp. Qed.
Lemma in_memory_panic {A} (c : K M A) s : c (mem s) = Panic → in_memory c s = Panic.
Proof.
  intros Hc. unfold in_memory, in_alloc, in_vm, zoom, mem in *. by rewrite Hc.
Qed.

(** ** Theorems *)

(** C10: with arguments and environment that fit, and memory for the arrays, the
    stack of the new program is built without a fault: at a stack pointer
    aligned to 16 bytes it holds a return address, argc, and pointers to arrays
    of pointers to exactly the strings of the caller, closed by null pointers;
    nothing outside of the stack changes. *)
Theorem build_stack_spec base argv envp s :
  stack_ok base (base + STACK_SIZE) s → Forall good_string argv → Forall good_string envp →
  stack_need argv envp ≤ STACK_SIZE →
  wp (build_stack base argv envp) (λ '(rc, sp) s', rc = 0 ∧ base ≤ sp ∧ sp mod 16 = 0 ∧
    program_stack base (base + STACK_SIZE) (mem s') sp argv envp ∧
    only_within base (base + STACK_SIZE) (mem s) (mem s') ∧ stack_ok base (base + STACK_SIZE) s') s.
Proof. apply build_stack_wp. Qed.

(** Push_strings compares the size of a string with the room on the stack
    but takes the next power of two of it: a string that fits by the first
    measure and not by the second is stored below the stack, where the guard page
    makes the kernel fault. *)
Lemma push_strings_leaves_the_stack base sp str c strs ptrs s :
  0 ≤ base → sp < U32 → Z.of_nat (length (c :: str)) + 1 ≤ sp - base → sp - room_of (c :: str) < base →
  um_store (u32 (sp - room_of (c :: str))) c (mem s) = Panic →
  push_each sp base ((c :: str) :: strs) ptrs s = Panic.
Proof.
  intros Hb Hsp Hfit Hover Hfault. cbn [push_each].
  rewrite u32_small by lia. rewrite (proj2 (Z.ltb_ge _ _)) by lia. fold (room_of (c :: str)).
  unfold mbind, K_bind. by rewrite in_memory_panic by (by apply store_fault).
Qed.
End stack.

(** ** Segments that overlap *)
Section overlap.
Context {P : Type} `{PageAllocOps P}.

Lemma map_mapped_panics (s : mmu P) v flags t :
  translate s v = Some t → map_page_to_free_page v flags s = Panic.
Proof.
  unfold translate, map_page_to_free_page, get_or_create_pte, get_or_create_page_table, get_pte.
  unfold get_page_table_from_idx, dir_get, table_get, ASSERT.
  unfold mbind, K_bind, get, access, mret, K_ret, panic, undef.
  destruct (mm_dirs s !! current_pd s) as [d|]; [|done].
  destruct (present (aget d (pd_index v))); [|done].
  destruct (pd_index v <? 1024); [|done].
  destruct (mm_dirs s !! current_pd s) as [d'|]; [|done].
  destruct (mm_tables s !! frame_of (aget d' (pd_index v))) as [t'|]; [|done].
  destruct (present (aget t' (pt_index v))); done.
Qed.
Lemma round_down_page x : u32 (round_down x PAGE_SIZE) = round_down x PAGE_SIZE ∧
  round_down x PAGE_SIZE mod PAGE_SIZE = 0.
Proof.
  unfold round_down. change (u32 (Z.lnot (PAGE_SIZE - 1))) with 4294963200. change PAGE_SIZE with (2 ^ 12).
  rewrite <-(Z.land_ones _ 12) by lia. rewrite <-Z.land_assoc.
  change (Z.land 4294963200 (Z.ones 12)) with 0. rewrite Z.land_0_r. split; [|done].
  apply u32_small. change 4294963200 with (Z.land 4294963200 (Z.ones 32)).
  rewrite Z.land_assoc, Z.land_ones by lia. change (2 ^ 32) with U32. by apply Z.mod_pos_bound.
Qed.
Lemma map_range_panics (s : mmu P) x size flags t :
  translate s (round_down x PAGE_SIZE) = Some t → (0 < page_count size)%nat →
  paging_map_to_free_pages (round_down x PAGE_SIZE) size flags s = Panic.
Proof.
  intros Ht Hn. destruct (round_down_page x) as [Hu Hm]. unfold paging_map_to_free_pages.
  rewrite Hm. cbn [Z.eqb ASSERT]. rewrite (bind_run (mret tt) _ s tt s) by done.
  destruct (page_count size) as [|n]; [lia|]. cbn [each_page]. rewrite Z.mul_0_l, Z.add_0_r, Hu.
  unfold mbind, K_bind. by rewrite (map_mapped_panics _ _ _ _ Ht).
Qed.

(** A program header whose segment begins in a page that an earlier segment
    (or the kernel) has mapped stops the kernel: any user who can run a file can
    do that. *)
Lemma overlapping_segment_panics buf n phdr max ret (s : uspace (mmu P)) vaddr memsz filesz offset t :
  elf_word buf phdr s = Done PT_LOAD s → elf_word buf (phdr + 16) s = Done filesz s →
  elf_word buf (phdr + 20) s = Done memsz s → filesz ≤ memsz →
  elf_word buf (phdr + 8) s = Done vaddr s → elf_word buf (phdr + 4) s = Done offset s →
  (0 < page_count (u32 (round_up (u32 (vaddr + memsz)) PAGE_SIZE - round_down vaddr PAGE_SIZE)))%nat →
  translate (mem s) (round_down vaddr PAGE_SIZE) = Some t →
  load_segments buf (S n) phdr max ret s = Panic.
Proof.
  intros E1 E2 E3 Hle E4 E5 Hn Ht. cbn [load_segments].
  rewrite (bind_run _ _ _ _ _ E1). change (negb (PT_LOAD =? PT_LOAD)) with false. cbv beta iota.
  rewrite (bind_run _ _ _ _ _ E2), (bind_run _ _ _ _ _ E3), (proj2 (Z.ltb_ge _ _)) by done.
  rewrite (bind_run _ _ _ _ _ E4), (bind_run _ _ _ _ _ E5).
  unfold mbind at 1, K_bind at 1. rewrite in_memory_panic; [done|].
  by apply (map_range_panics _ _ _ _ t).
Qed.
End overlap.

(** ** Witnesses *)

(** Memory as a function; a store to an address without a byte faults. *)
Definition flat : Type := Z → option Z.
#[local] Instance flat_mem : UserMem flat := {|
  um_byte := λ m a, m a;
  um_store := λ a b m, match m a with
                       | Some _ => Done tt (λ x, if decide (x = a) then Some b else m x)
                       | None => Panic
                       end;
|}.
#[local] Program Instance flat_laws : UserMemLaws flat := {| um_ok := λ _, True |}.
Next Obligation. intros m a b _ [c Hc] _. unfold wp. cbn [um_store um_byte flat_mem] in *. by rewrite Hc. Qed.

Definition flat_space (lo hi : Z) : uspace flat :=
  USpace (one_process (lit "/"))
    (RangeAllocator 0 0 [] mutex_zero (λ x, if (lo <=? x) && (x <? hi) then Some 0 else None)).
Lemma flat_stack_ok lo hi : 0 ≤ lo → hi < U32 → stack_ok lo hi (flat_space lo hi).
Proof.
  intros Hlo Hhi. split_and!; [done| |by apply Forall_nil|done|done].
  intros x [H1 H2]. unfold mem. simpl.
  rewrite (proj2 (Z.leb_le _ _)), (proj2 (Z.ltb_lt _ _)) by done. by eexists.
Qed.
Lemma good_string_dec str :
  forallb (λ b, (0 <? b) && (b <? 256)) str = true → Z.of_nat (length str) < 2147483648 → good_string str.
Proof.
  intros Hs Hl. split; [|done]. apply Forall_forall. intros b Hb.
  rewrite forallb_forall in Hs. specialize (Hs b (proj1 (list_elem_of_In _ _) Hb)). cbv beta in Hs.
  bool_to_prop. lia.
Qed.
Lemma build_stack_spec_witness :
  wp (build_stack 4096 [lit "ls"; lit "-l"] [lit "A=1"]) (λ '(rc, sp) s', rc = 0 ∧ 4096 ≤ sp ∧
    sp mod 16 = 0 ∧ program_stack 4096 20480 (mem s') sp [lit "ls"; lit "-l"] [lit "A=1"] ∧
    only_within 4096 20480 (mem (flat_space 4096 20480)) (mem s') ∧ stack_ok 4096 20480 s')
    (flat_space 4096 20480).
Proof.
  apply (build_stack_spec 4096 [lit "ls"; lit "-l"] [lit "A=1"] (flat_space 4096 20480));
    [by apply flat_stack_ok| | |by vm_compute];
    repeat (apply Forall_cons; split; [by apply good_string_dec|]); by apply Forall_nil.
Defined.
Lemma push_strings_leaves_the_stack_witness :
  push_each 20000 4096 [ch "a" :: replicate 9000 (ch "b")] [] (flat_space 4096 20480) = Panic.
Proof.
  apply (push_strings_leaves_the_stack 4096 20000 (replicate 9000 (ch "b")) (ch "a") [] [] (flat_space 4096 20480));
    [done|done|by vm_compute|by vm_compute|by vm_compute].
Defined.

(** One program header: 16 bytes of memory at address 4194304, nothing from the
    file; the sample page tables have a page there. *)
Definition sample_phdr : list Z :=
  [1; 0; 0; 0] ++ [0; 0; 0; 0] ++ [0; 0; 64; 0] ++ [0; 0; 0; 0] ++ [0; 0; 0; 0] ++ [16; 0; 0; 0] ++
  [6; 0; 0; 0] ++ [0; 16; 0; 0].
Definition sample_space : uspace (mmu pages) :=
  USpace (one_process (lit "/")) (RangeAllocator 0 0 [] mutex_zero sample_vm).
Lemma overlapping_segment_panics_witness : load_segments sample_phdr 1 0 0 0 sample_space = Panic.
Proof.
  apply (overlapping_segment_panics sample_phdr 0 0 0 0 sample_space 4194304 16 0 0 (1236992, 0%nat));
    by vm_compute.
Defined.
