(* ===== verification/Malloc.v ===== *)
(** * The heap of the user programs (userland/lib/stdlib.c)

    Every block is a mapping of its own: a header with a magic number and the
    length of the mapping, then the data. The memory of the program is that of
    [UserMem]; the calls that map and unmap it are the class [MemCalls], whose
    operations the calls of the kernel in Exec.v are (kernel_calls). The theorem is a
    refinement: under the laws [MemCallsLaws], which a memory of pages is shown to
    satisfy, and for programs that keep to its rules, the heap is a finite map from
    pointers to separate arrays. *)
From stdpp Require Import fin_maps.
From S2P Require Import Prelude.
From S2P Require Import Errno.
From S2P Require Import CString.
From S2P Require Import PageAllocator.
From S2P Require Import Paging.
From S2P Require Import RangeAllocator.
From S2P Require Import Kernel.
From S2P Require Import Exec.

(** ** The calls *)

(** mmap of [length] bytes of anonymous, private memory that can be read and
    written, anywhere; munmap. Results as the kernel returns them. *)
Class MemCalls (M : Type) : Type := {
  mc_mmap : Z → K M Z;
  mc_munmap : Z → Z → K M Z;
}.
(** The calls of the kernel. *)
Section kernel_calls.
Context {M : Type} `{VmOps M} `{UserMem M}.
#[export] Instance uspace_mem : UserMem (uspace M) := {|
  um_byte := λ s a, um_byte (ra_vm (us_alloc s)) a;
  um_store := λ a b, in_memory (um_store a b);
|}.
Definition kernel_calls (current : nat) : MemCalls (uspace M) := {|
  mc_mmap := λ length,
    sys_mmap current (MmapParams length (Z.lor PROT_READ PROT_WRITE) (Z.lor MAP_ANONYMOUS MAP_PRIVATE) 0 0);
  mc_munmap := sys_munmap current;
|}.
End kernel_calls.

(** ** stdlib.c *)
Definition MALLOC_MAGIC : Z := 0xab4fde8d.
(** [sizeof(struct malloc_header)], which is also the offset of [data]. *)
Definition sizeof_malloc_header : Z := 8.
Definition MAP_FAILED : Z := U32 - 1.

(** The memory, and the static variable and [errno] of the program. *)
Record heap (M : Type) : Type := Heap { h_mem : M; page_size : Z; h_errno : Z }.
Arguments Heap {M} _ _ _.
Arguments h_mem {M} _.
Arguments page_size {M} _.
Arguments h_errno {M} _.

Section malloc.
Context {M : Type} `{UserMem M} `{MemCalls M}.
(** [alignof(max_align_t)] of the compiler. *)
Variable max_align : Z.
Abbreviation HP := (K (heap M)).

Definition in_mem {A} (m : K M A) : HP A := zoom h_mem (λ m h, Heap m (page_size h) (h_errno h)) m.
Definition set_errno (e : Z) : HP unit := modify (λ h, Heap (h_mem h) (page_size h) e).
Definition set_page_size (n : Z) : HP unit := modify (λ h, Heap (h_mem h) n (h_errno h)).
Definition load_word (a : Z) : HP Z := in_mem (
  b0 ← um_load a; b1 ← um_load (u32 (a + 1)); b2 ← um_load (u32 (a + 2)); b3 ← um_load (u32 (a + 3));
  mret (b0 + 256 * b1 + 65536 * b2 + 16777216 * b3)).
(** memcpy, byte by byte. *)
Fixpoint copy_bytes (n : nat) (dest src : Z) : K M unit :=
  match n with
  | O => mret tt
  | S n => b ← um_load src; _ ← um_store dest b; copy_bytes n (u32 (dest + 1)) (u32 (src + 1))
  end.

(** The wrappers of the calls (RETURN_WITH_ERRNO). *)
Definition mmap (length : Z) : HP Z :=
  rc ← in_mem (mc_mmap length);
  if IS_ERR rc then _ ← set_errno (- rc); mret MAP_FAILED else mret rc.
Definition munmap (addr length : Z) : HP Z :=
  rc ← in_mem (mc_munmap addr length);
  if IS_ERR rc then _ ← set_errno (- rc); mret (-1) else mret rc.

(** sysconf(_SC_PAGESIZE) is [PAGE_SIZE]. A null pointer is 0. *)
Definition aligned_alloc (alignment size : Z) : HP Z :=
  if size =? 0 then mret 0
  else
    h ← get;
    _ ← when (page_size h =? 0) (set_page_size PAGE_SIZE);
    h ← get;
    _ ← ASSERT (alignment <=? page_size h);
    let data_offset := round_up sizeof_malloc_header alignment in
    let real_size := u32 (data_offset + size) in
    addr ← mmap real_size;
    if addr =? MAP_FAILED then _ ← set_errno (errno_val ENOMEM); mret 0
    else
      _ ← in_mem (store_word addr MALLOC_MAGIC);
      _ ← in_mem (store_word (u32 (addr + 4)) real_size);
      let ptr := u32 (addr + data_offset) in
      _ ← in_mem (store_bytes ptr (replicate (Z.to_nat size) 0));
      mret ptr.
Definition malloc (size : Z) : HP Z := aligned_alloc max_align size.
Definition calloc (num size : Z) : HP Z :=
  let total_size := u32 (num * size) in
  ptr ← malloc total_size;
  if ptr =? 0 then mret 0
  else _ ← in_mem (store_bytes ptr (replicate (Z.to_nat total_size) 0)); mret ptr.

Definition header_from_ptr (ptr : Z) : HP Z :=
  h ← get;
  _ ← ASSERT (negb (page_size h =? 0));
  let addr := round_down ptr (page_size h) in
  let addr := if u32 (ptr - addr) <? sizeof_malloc_header then u32 (addr - page_size h) else addr in
  magic ← load_word addr;
  _ ← ASSERT (magic =? MALLOC_MAGIC);
  mret addr.
Definition free (ptr : Z) : HP unit :=
  if ptr =? 0 then mret tt
  else
    header ← header_from_ptr ptr;
    size ← load_word (u32 (header + 4));
    rc ← munmap header size;
    ASSERT (0 <=? rc).
Definition realloc (ptr new_size : Z) : HP Z :=
  if ptr =? 0 then malloc new_size
  else if new_size =? 0 then _ ← free ptr; mret 0
  else
    old_header ← header_from_ptr ptr;
    new_ptr ← malloc new_size;
    if new_ptr =? 0 then mret 0
    else
      new_header ← header_from_ptr new_ptr;
      size ← load_word (u32 (old_header + 4));
      _ ← in_mem (copy_bytes (Z.to_nat size) new_header old_header);
      _ ← free ptr;
      mret new_ptr.
End malloc.

(** ** The contract of the calls *)

(** The pages of a mapping of [length] bytes. *)
Definition extent (length : Z) : Z := round_up length PAGE_SIZE.
(** A new mapping holds zeros where nothing was mapped. *)
Record new_mapping {M} `{UserMem M} (m m' : M) (addr length : Z) : Prop := NewMapping {
  nm_page : addr mod PAGE_SIZE = 0;
  nm_range : 0 < addr ∧ addr + extent length < U32 - PAGE_SIZE;
  nm_free : ∀ x, addr ≤ x < addr + extent length → um_byte m x = None;
  nm_zero : ∀ x, um_byte m' x = if decide (addr ≤ x < addr + extent length) then Some 0 else um_byte m x;
}.
Class MemCallsLaws (M : Type) `{UserMemLaws M} `{MemCalls M} : Type := {
  mc_mmap_law m length : um_ok m → 0 < length → length + PAGE_SIZE ≤ U32 →
    wp (mc_mmap length) (λ rc m', um_ok m' ∧
      (IS_ERR rc = true ∧ (∀ x, um_byte m' x = um_byte m x) ∨
       IS_ERR rc = false ∧ new_mapping m m' rc length)) m;
  mc_munmap_law m addr length : um_ok m → addr mod PAGE_SIZE = 0 → 0 < length → length + PAGE_SIZE ≤ U32 →
    mapped m addr (addr + extent length) →
    wp (mc_munmap addr length) (λ rc m', rc = 0 ∧ um_ok m' ∧
      ∀ x, um_byte m' x = if decide (addr ≤ x < addr + extent length) then None else um_byte m x) m;
}.

(** ** Words and pages *)
Definition word_bytes (v : Z) : list Z := [u8 v; u8 (Z.shiftr v 8); u8 (Z.shiftr v 16); u8 (Z.shiftr v 24)].
Lemma word_bytes_value v :
  0 ≤ v < U32 →
  u8 v + 256 * u8 (Z.shiftr v 8) + 65536 * u8 (Z.shiftr v 16) + 16777216 * u8 (Z.shiftr v 24) = v.
Proof.
  unfold u8, U32. intros Hv. rewrite !Z.shiftr_div_pow2 by lia.
  change (2 ^ 8) with 256. change (2 ^ 16) with 65536. change (2 ^ 24) with 16777216.
  Z.to_euclidean_division_equations. lia.
Qed.
Lemma word_bytes_ok v : is_bytes (word_bytes v).
Proof. repeat (apply Forall_cons; split; [apply u8_range|]). by apply Forall_nil. Qed.
Lemma extent_ge n : 0 ≤ n → n + PAGE_SIZE ≤ U32 → n ≤ extent n.
Proof. intros. by apply round_up_aligned. Qed.
Lemma round_down_within base ptr :
  base mod PAGE_SIZE = 0 → 0 ≤ base → base ≤ ptr < base + PAGE_SIZE → ptr < U32 → round_down ptr PAGE_SIZE = base.
Proof.
  unfold PAGE_SIZE. intros Hb H0 Hp Hlt. unfold round_down. change (4096 - 1) with 4095.
  fold (frame_of ptr). rewrite frame_of_div by lia. Z.to_euclidean_division_equations. lia.
Qed.

Lemma data_offset_ok a :
  (∃ k, 0 ≤ k ≤ 12 ∧ a = 2 ^ k) →
  sizeof_malloc_header ≤ round_up sizeof_malloc_header a ≤ PAGE_SIZE ∧
  round_up sizeof_malloc_header a mod a = 0 ∧ PAGE_SIZE mod a = 0 ∧ 0 < a ≤ PAGE_SIZE.
Proof.
  intros (k & Hk & ->).
  assert (k = 0 ∨ k = 1 ∨ k = 2 ∨ k = 3 ∨ k = 4 ∨ k = 5 ∨ k = 6 ∨ k = 7 ∨ k = 8 ∨ k = 9 ∨ k = 10 ∨ k = 11 ∨ k = 12)
    as Hc by lia.
  repeat (destruct Hc as [->|Hc]; [by vm_compute|]). subst k. by vm_compute.
Qed.

Section theorems.
Context {M : Type} `{MemCallsLaws M}.
Context (max_align : Z) (Hmax : ∃ k, 0 ≤ k ≤ 12 ∧ max_align = 2 ^ k).
Implicit Types (m : M) (h : heap M) (A : gmap Z (list Z)) (B : gmap Z (Z * Z)).

(** ** The blocks *)

(** The block [ptr] with contents [data] in the mapping of [real] bytes at [base]. *)
Record block_at (m : M) (ptr : Z) (data : list Z) (base real : Z) : Prop := BlockAt {
  ba_base : base mod PAGE_SIZE = 0 ∧ 0 < base;
  ba_real : 0 < real ∧ real + PAGE_SIZE ≤ U32 ∧ base + extent real < U32 - PAGE_SIZE;
  ba_ptr : base + sizeof_malloc_header ≤ ptr ≤ base + PAGE_SIZE;
  ba_data : (0 < length data)%nat ∧ ptr + Z.of_nat (length data) ≤ base + real;
  ba_header : bytes_at m base (word_bytes MALLOC_MAGIC ++ word_bytes real);
  ba_bytes : bytes_at m ptr data ∧ is_bytes data;
  ba_mapped : mapped m base (base + extent real);
}.
(** The mappings of two blocks are apart. *)
Definition apart (b c : Z * Z) : Prop :=
  b.1 + extent b.2 ≤ c.1 ∨ c.1 + extent c.2 ≤ b.1.
(** The heap holds the arrays [A], laid out as [B]. *)
Record represents (B : gmap Z (Z * Z)) (A : gmap Z (list Z)) (h : heap M) : Prop := Represents {
  re_ok : um_ok (h_mem h);
  re_size : page_size h = PAGE_SIZE ∨ page_size h = 0 ∧ A = ∅;
  re_blocks : ∀ p data, A !! p = Some data → ∃ base real, B !! p = Some (base, real) ∧ block_at (h_mem h) p data base real;
  re_apart : ∀ p q b c, p ≠ q → p ∈ dom A → q ∈ dom A → B !! p = Some b → B !! q = Some c → apart b c;
}.

Lemma block_at_same m m' ptr data base real :
  (∀ x, base ≤ x < base + extent real → um_byte m' x = um_byte m x) →
  block_at m ptr data base real → block_at m' ptr data base real.
Proof.
  intros Hs [Hba Hre Hpt Hda Hhe [Hby Hby2] Hma].
  assert (real ≤ extent real) as Hext by (apply extent_ge; lia).
  assert (sizeof_malloc_header = 8) as E8 by done.
  split; try done.
  - intros i b Hi. rewrite Hs; [by apply Hhe|]. apply lookup_lt_Some in Hi. change (length _) with 8%nat in Hi. lia.
  - split; [|done]. intros i b Hi. rewrite Hs; [by apply Hby|]. apply lookup_lt_Some in Hi. lia.
  - intros x Hx. rewrite Hs by done. by apply Hma.
Qed.

(** ** Rules for the steps *)

Lemma wp_in_mem {X} (c : K M X) (Q : X → heap M → Prop) h :
  wp c (λ x m', Q x (Heap m' (page_size h) (h_errno h))) (h_mem h) → wp (in_mem c) Q h.
Proof. intros Hc. unfold in_mem. by apply wp_zoom. Qed.
Lemma um_load_run a b m : um_byte m a = Some b → um_load a m = Done b m.
Proof. intros E. unfold um_load. by rewrite E. Qed.
Lemma load_word_run a v h :
  0 ≤ v < U32 → bytes_at (h_mem h) a (word_bytes v) → 0 ≤ a → a + 4 ≤ U32 →
  load_word a h = Done v h.
Proof.
  intros Hv Hb Ha Hlt. unfold load_word, in_mem, zoom.
  pose proof (Hb 0%nat _ eq_refl) as H0'. rewrite Z.add_0_r in H0'.
  rewrite (bind_run _ _ _ _ _ (um_load_run _ _ _ H0')).
  rewrite (u32_small (a + 1)), (u32_small (a + 2)), (u32_small (a + 3)) by lia.
  rewrite (bind_run _ _ _ _ _ (um_load_run _ _ _ (Hb 1%nat _ eq_refl))).
  rewrite (bind_run _ _ _ _ _ (um_load_run _ _ _ (Hb 2%nat _ eq_refl))).
  rewrite (bind_run _ _ _ _ _ (um_load_run _ _ _ (Hb 3%nat _ eq_refl))).
  unfold mret, K_ret. rewrite word_bytes_value by done. by destruct h.
Qed.
(** The header of a block is found from its pointer. *)
Lemma header_from_ptr_run h ptr data base real :
  page_size h = PAGE_SIZE → block_at (h_mem h) ptr data base real →
  header_from_ptr ptr h = Done base h ∧ load_word (u32 (base + 4)) h = Done real h.
Proof.
  intros Hps [[Hb0 Hb1] (Hr0 & Hr1 & Hr2) Hp _ Hh _ _].
  assert (real ≤ extent real) as Hext by (apply extent_ge; lia).
  apply bytes_at_app in Hh as [Hm Hs]. change (Z.of_nat (length (word_bytes MALLOC_MAGIC))) with 4 in Hs.
  unfold sizeof_malloc_header in Hp. unfold PAGE_SIZE in *. unfold U32 in *. split.
  - unfold header_from_ptr, mbind at 1, K_bind at 1, get. rewrite Hps.
    change (ASSERT (negb (4096 =? 0))) with (mret tt : K (heap M) unit).
    unfold mbind at 1, K_bind at 1, mret at 1, K_ret at 1.
    assert ((let addr := round_down ptr 4096 in
      if u32 (ptr - addr) <? sizeof_malloc_header then u32 (addr - 4096) else addr) = base) as E.
    { unfold sizeof_malloc_header. cbv zeta. destruct (decide (ptr = base + 4096)) as [->|Hne].
      - rewrite (round_down_within (base + 4096)); unfold PAGE_SIZE, U32 in *; try lia.
        + rewrite Z.sub_diag. change (u32 0 <? 8) with true. cbv iota. rewrite u32_small; unfold U32; lia.
        + Z.to_euclidean_division_equations. lia.
      - rewrite (round_down_within base); unfold PAGE_SIZE, U32 in *; try lia.
        rewrite u32_small by (unfold U32; lia). by rewrite (proj2 (Z.ltb_ge (ptr - base) 8)) by lia. }
    cbv zeta in E |- *. rewrite E.
    rewrite (bind_run _ _ _ _ _ (load_word_run base MALLOC_MAGIC h ltac:(done) Hm ltac:(lia) ltac:(unfold U32; lia))).
    done.
  - rewrite u32_small by (unfold U32; lia). apply load_word_run; unfold U32; try done; lia.
Qed.

(** The kernel denies the memory. *)
Definition denied (m : M) (length : Z) : Prop :=
  ∃ rc m', mc_mmap length m = Done rc m' ∧ IS_ERR rc = true.
Lemma wp_mmap length (Q : Z → heap M → Prop) h :
  um_ok (h_mem h) → 0 < length → length + PAGE_SIZE ≤ U32 →
  (∀ m' e, denied (h_mem h) length → um_ok m' → (∀ x, um_byte m' x = um_byte (h_mem h) x) →
     Q MAP_FAILED (Heap m' (page_size h) e)) →
  (∀ m' addr, um_ok m' → new_mapping (h_mem h) m' addr length → Q addr (Heap m' (page_size h) (h_errno h))) →
  wp (mmap length) Q h.
Proof.
  intros Hok Hl Hl2 Hf Hs. unfold mmap. apply wp_bind, wp_in_mem.
  pose proof (mc_mmap_law (h_mem h) length Hok Hl Hl2) as Hw. apply wp_done in Hw as (rc & m' & Hrun & Hok' & Hcase).
  eapply wp_run; [exact Hrun|]. destruct Hcase as [[E Hsame]|[E Hnew]]; rewrite E.
  - unfold set_errno. apply wp_bind, wp_modify, wp_ret. apply Hf; [by exists rc, m'|done|done].
  - apply wp_ret. by apply Hs.
Qed.
Lemma wp_put_bytes (a : Z) (bytes : list Z) (Q : unit → heap M → Prop) h :
  um_ok (h_mem h) → 0 ≤ a → a + Z.of_nat (length bytes) < U32 →
  mapped (h_mem h) a (a + Z.of_nat (length bytes)) → is_bytes bytes →
  (∀ m', um_ok m' → bytes_at m' a bytes → only_within a (a + Z.of_nat (length bytes)) (h_mem h) m' →
     (∀ lo hi, mapped (h_mem h) lo hi → mapped m' lo hi) → Q tt (Heap m' (page_size h) (h_errno h))) →
  wp (in_mem (store_bytes a bytes)) Q h.
Proof. intros. apply wp_in_mem. by apply wp_store_bytes. Qed.
Lemma zeros_ok n : is_bytes (replicate n 0).
Proof. apply Forall_replicate. lia. Qed.
Lemma bytes_at_zeros m m' a n : (∀ x, a ≤ x < a + Z.of_nat n → um_byte m x = Some 0) → bytes_at m a (replicate n 0).
Proof. intros Hz i b [-> Hi]%lookup_replicate. apply Hz. lia. Qed.

(** What a successful allocation makes of the memory. *)
Record allocated (m m' : M) (ptr : Z) (data : list Z) (base real : Z) : Prop := Allocated {
  al_ok : um_ok m';
  al_block : block_at m' ptr data base real;
  al_free : ∀ x, base ≤ x < base + extent real → um_byte m x = None;
  al_other : ∀ x, ¬ (base ≤ x < base + extent real) → um_byte m' x = um_byte m x;
  al_rest : ∀ x, ptr ≤ x < base + extent real → ptr + Z.of_nat (length data) ≤ x → um_byte m' x = Some 0;
}.
(** The size of a request that does not wrap around. *)
Definition fits (n : Z) : Prop := 0 < n ∧ n + 2 * PAGE_SIZE ≤ U32.
Definition real_size (n : Z) : Z := round_up sizeof_malloc_header max_align + n.
Lemma aligned_alloc_wp n h (Q : Z → heap M → Prop) :
  um_ok (h_mem h) → page_size h = PAGE_SIZE ∨ page_size h = 0 → fits n →
  (∀ m' e, denied (h_mem h) (real_size n) → um_ok m' → (∀ x, um_byte m' x = um_byte (h_mem h) x) →
     Q 0 (Heap m' PAGE_SIZE e)) →
  (∀ m' ptr base e, allocated (h_mem h) m' ptr (replicate (Z.to_nat n) 0) base (real_size n) →
     ptr ≠ 0 → ptr mod max_align = 0 → Q ptr (Heap m' PAGE_SIZE e)) →
  wp (malloc max_align n) Q h.
Proof.
  intros Hok Hps [Hn Hn2] Hfail Hsucc.
  destruct (data_offset_ok max_align Hmax) as ([Ho1 Ho2] & Ho3 & Ho4 & Ho5).
  unfold malloc, aligned_alloc. rewrite (proj2 (Z.eqb_neq n 0)) by lia. cbv iota.
  apply wp_bind, wp_get.
  apply wp_bind. set (h1 := Heap (h_mem h) PAGE_SIZE (h_errno h)).
  assert (when (page_size h =? 0) (set_page_size PAGE_SIZE) h = Done tt h1) as Hw.
  { unfold h1. destruct h as [m ps e]. cbn [page_size h_mem h_errno] in *. by destruct Hps as [-> | ->]. }
  eapply wp_run; [exact Hw|]. apply wp_bind, wp_get. cbn [page_size h1].
  apply wp_bind. unfold ASSERT. rewrite (proj2 (Z.leb_le max_align PAGE_SIZE)) by lia. apply wp_ret.
  cbv zeta. fold (real_size n). set (off := round_up sizeof_malloc_header max_align) in *.
  unfold PAGE_SIZE, sizeof_malloc_header in Ho1, Ho2.
  assert (real_size n = off + n) as Er by done.
  unfold PAGE_SIZE in Hn2. unfold U32 in Hn2.
  rewrite (u32_small (real_size n)) by (unfold U32; lia).
  apply wp_bind, wp_mmap; [done|lia|unfold PAGE_SIZE, U32; lia| |].
  - intros m' e Hd Hok' Hs. rewrite Z.eqb_refl. unfold set_errno. apply wp_bind, wp_modify, wp_ret. by apply Hfail.
  - intros m1 base Hok1 [Hpage [Hb1 Hb2] Hfree Hzero].
    assert (real_size n ≤ extent (real_size n)) as Hext by (apply extent_ge; unfold PAGE_SIZE, U32; lia).
    unfold PAGE_SIZE, U32 in Hb2.
    rewrite (proj2 (Z.eqb_neq base MAP_FAILED)) by (unfold MAP_FAILED, U32; lia). cbv iota.
    assert (mapped m1 base (base + extent (real_size n))) as Hmap1.
    { intros x Hx. rewrite Hzero, decide_True by done. by eexists. }
    rewrite (u32_small (base + 4)), (u32_small (base + off)) by (unfold U32; lia).
    unfold store_word. fold (word_bytes MALLOC_MAGIC). fold (word_bytes (real_size n)).
    apply wp_bind, wp_put_bytes; cbn [h_mem page_size h_errno]; [done|lia|cbn [length word_bytes]; unfold U32; lia| |apply word_bytes_ok|].
    { intros x Hx. apply Hmap1. cbn [length word_bytes] in Hx. lia. }
    cbn [length word_bytes]. intros m2 Hok2 Hb2' Ho2' Hk2.
    apply wp_bind, wp_put_bytes; cbn [h_mem page_size h_errno]; [done|lia|cbn [length word_bytes]; unfold U32; lia| |apply word_bytes_ok|].
    { intros x Hx. apply (Hk2 _ _ Hmap1). cbn [length word_bytes] in Hx. lia. }
    cbn [length word_bytes]. intros m3 Hok3 Hb3 Ho3' Hk3.
    apply wp_bind, wp_put_bytes; cbn [h_mem page_size h_errno]; rewrite ?length_replicate; [done|lia|unfold U32; lia| |apply zeros_ok|].
    { intros x Hx. apply (Hk3 _ _ (Hk2 _ _ Hmap1)). lia. }
    intros m4 Hok4 Hb4 Ho4' Hk4. apply wp_ret. apply (Hsucc m4 (base + off) base); [|lia|].
    + split.
      * done.
      * split; rewrite ?length_replicate; try done.
        -- unfold PAGE_SIZE, U32; lia.
        -- unfold PAGE_SIZE, sizeof_malloc_header; lia.
        -- lia.
        -- apply bytes_at_app. change (Z.of_nat (length (word_bytes MALLOC_MAGIC))) with 4. split.
           ++ eapply bytes_at_kept; [exact Ho4'|left; change (Z.of_nat (length _)) with 4; lia|].
              eapply bytes_at_kept; [exact Ho3'|left; change (Z.of_nat (length _)) with 4; lia|]. exact Hb2'.
           ++ eapply bytes_at_kept; [exact Ho4'|left; change (Z.of_nat (length _)) with 4; lia|]. exact Hb3.
        -- split; [done|apply zeros_ok].
        -- auto.
      * exact Hfree.
      * intros x Hx. rewrite Ho4', Ho3', Ho2', Hzero by lia. by rewrite decide_False.
      * intros x Hx Hx2. rewrite length_replicate in Hx2. rewrite Ho4', Ho3', Ho2', Hzero by lia.
        rewrite decide_True by lia. done.
    + rewrite Z.add_mod, Ho3, Z.add_0_r, Z.mod_mod by lia.
      apply Z.mod_divide; [lia|]. apply Z.mod_divide in Ho4; [|lia]. apply Z.mod_divide in Hpage; [|done].
      by etrans.
Qed.

(** ** Changes of the heap *)

Lemma represents_same B A h m' ps e :
  represents B A h → um_ok m' → ps = page_size h ∨ ps = PAGE_SIZE →
  (∀ x, um_byte m' x = um_byte (h_mem h) x) → represents B A (Heap m' ps e).
Proof.
  intros [Hok Hs Hb Ha] Hok' Hps Hsame. split; cbn [h_mem page_size].
  - done.
  - destruct Hps as [-> | ->]; [done|by left].
  - intros p data Hp. destruct (Hb p data Hp) as (base & real & HB & Hbl). exists base, real.
    split; [done|]. eapply block_at_same; [|exact Hbl]. auto.
  - done.
Qed.
(** A block whose pages were free, added. *)
Lemma represents_insert B A h m' ptr data base real e :
  represents B A h → allocated (h_mem h) m' ptr data base real →
  A !! ptr = None ∧ represents (<[ptr := (base, real)]> B) (<[ptr := data]> A) (Heap m' PAGE_SIZE e).
Proof.
  intros [Hok Hs Hb Ha] [Hok' Hbl Hfree Hoth _].
  assert (∀ p d b r, block_at (h_mem h) p d b r → apart (b, r) (base, real)) as Hapart.
  { intros p d b r Hp. unfold apart. cbn [fst snd].
    destruct (decide (b + extent r ≤ base)) as [|H3]; [by left|].
    destruct (decide (base + extent real ≤ b)) as [|H4]; [by right|].
    destruct (ba_real _ _ _ _ _ Hp) as (Hr1 & Hr2 & _). destruct (ba_real _ _ _ _ _ Hbl) as (Hr3 & Hr4 & _).
    assert (r ≤ extent r) by (apply extent_ge; lia). assert (real ≤ extent real) by (apply extent_ge; lia).
    destruct (ba_mapped _ _ _ _ _ Hp (Z.max b base)) as [c Hc]; [lia|].
    rewrite Hfree in Hc by lia. done. }
  assert (A !! ptr = None) as Hnone.
  { destruct (A !! ptr) as [d|] eqn:E; [|done]. destruct (Hb ptr d E) as (b & r & _ & Hp).
    destruct (ba_bytes _ _ _ _ _ Hp) as [Hby _]. destruct (ba_data _ _ _ _ _ Hp) as [Hd _].
    destruct (ba_data _ _ _ _ _ Hbl) as [Hd2 Hd3]. destruct (ba_ptr _ _ _ _ _ Hbl) as [Hp1 _].
    destruct (ba_real _ _ _ _ _ Hbl) as (Hr3 & Hr4 & _).
    assert (real ≤ extent real) by (apply extent_ge; lia).
    destruct d as [|c d]; [cbn in Hd; lia|].
    pose proof (Hby 0%nat c eq_refl) as Hc. rewrite Z.add_0_r in Hc.
    unfold sizeof_malloc_header in Hp1. rewrite Hfree in Hc by lia. done. }
  split; [done|]. split; cbn [h_mem page_size].
  - done.
  - by left.
  - intros p d [[<- <-]|[Hne Hp]]%lookup_insert_Some.
    + exists base, real. split; [apply lookup_insert_eq|done].
    + destruct (Hb p d Hp) as (b & r & HB & Hp'). exists b, r. rewrite lookup_insert_ne by done. split; [done|].
      eapply block_at_same; [|exact Hp']. intros x Hx. apply Hoth.
      pose proof (Hapart p d b r Hp') as Hap. unfold apart in Hap. cbn [fst snd] in Hap. lia.
  - intros p q b c Hne Hp Hq.
    assert (∀ p b, p ≠ ptr → p ∈ dom (<[ptr := data]> A) → B !! p = Some b → apart b (base, real)) as Hnew.
    { intros p0 b0 Hp0 Hd HB. rewrite dom_insert, elem_of_union, elem_of_singleton in Hd.
      destruct Hd as [|Hd]; [done|]. apply elem_of_dom in Hd as [d Hd].
      destruct (Hb p0 d Hd) as (b1 & r1 & HB1 & Hp1). rewrite HB in HB1. injection HB1 as ->. by eapply Hapart. }
    intros HB1 HB2.
    destruct (decide (p = ptr)) as [->|Hp1]; destruct (decide (q = ptr)) as [->|Hq1]; [done|..].
    + rewrite lookup_insert_eq in HB1. injection HB1 as <-. rewrite lookup_insert_ne in HB2 by done.
      pose proof (Hnew q c Hq1 Hq HB2) as Hap. unfold apart in *. tauto.
    + rewrite lookup_insert_eq in HB2. injection HB2 as <-. rewrite lookup_insert_ne in HB1 by done.
      by apply (Hnew p).
    + rewrite lookup_insert_ne in HB1, HB2 by done.
      apply (Ha p q); try done; rewrite dom_insert, elem_of_union, elem_of_singleton in Hp, Hq; tauto.
Qed.
Lemma malloc_wp B A h n (Q : Z → heap M → Prop) :
  represents B A h → fits n →
  (∀ h', denied (h_mem h) (real_size n) → represents B A h' → Q 0 h') →
  (∀ h' ptr base, represents (<[ptr := (base, real_size n)]> B) (<[ptr := replicate (Z.to_nat n) 0]> A) h' →
     allocated (h_mem h) (h_mem h') ptr (replicate (Z.to_nat n) 0) base (real_size n) →
     A !! ptr = None → ptr ≠ 0 → ptr mod max_align = 0 → Q ptr h') →
  wp (malloc max_align n) Q h.
Proof.
  intros Hr Hn Hf Hs. pose proof Hr as [Hok Hps _ _]. apply aligned_alloc_wp; [done| |done|..].
  - destruct Hps as [|[? _]]; auto.
  - intros m' e Hd Hok' Hsame. apply Hf; [done|]. apply (represents_same _ _ h); auto.
  - intros m' ptr base e Hal Hp Hpa. destruct (represents_insert B A h m' ptr _ base _ e Hr Hal) as [HA Hr'].
    by eapply Hs.
Qed.
Lemma free_wp B A h ptr data (Q : unit → heap M → Prop) :
  represents B A h → A !! ptr = Some data →
  (∀ h' base real, B !! ptr = Some (base, real) → represents B (delete ptr A) h' →
     (∀ x, um_byte (h_mem h') x = if decide (base ≤ x < base + extent real) then None else um_byte (h_mem h) x) →
     Q tt h') →
  wp (free ptr) Q h.
Proof.
  intros [Hok Hps Hb Ha] HA HQ. destruct (Hb ptr data HA) as (base & real & HB & Hbl).
  assert (page_size h = PAGE_SIZE) as Hp.
  { destruct Hps as [|[_ ->]]; [done|]. by rewrite lookup_empty in HA. }
  destruct (header_from_ptr_run h ptr data base real Hp Hbl) as [Hh Hw].
  pose proof (ba_base _ _ _ _ _ Hbl) as [Hb1 Hb2]. pose proof (ba_ptr _ _ _ _ _ Hbl) as [Hp1 _].
  pose proof (ba_real _ _ _ _ _ Hbl) as (Hr1 & Hr2 & Hr3).
  unfold sizeof_malloc_header in Hp1.
  unfold free. rewrite (proj2 (Z.eqb_neq ptr 0)) by lia. cbv iota.
  apply wp_bind. eapply wp_run; [exact Hh|]. apply wp_bind. eapply wp_run; [exact Hw|].
  apply wp_bind. unfold munmap. apply wp_bind, wp_in_mem.
  eapply wp_mono; [apply mc_munmap_law; [done..|by apply (ba_mapped _ _ _ _ _ Hbl)]|].
  intros rc m' (-> & Hok' & Hm'). change (IS_ERR 0) with false. cbv iota. apply wp_ret.
  change (ASSERT (0 <=? 0)) with (mret tt : K (heap M) unit). apply wp_ret.
  apply (HQ _ base real HB); [|exact Hm']. split; cbn [h_mem page_size].
  - done.
  - by left.
  - intros p d [Hne Hp']%lookup_delete_Some. destruct (Hb p d Hp') as (b & r & HB' & Hbl').
    exists b, r. split; [done|]. eapply block_at_same; [|exact Hbl']. intros x Hx. rewrite Hm', decide_False; [done|].
    assert (apart (base, real) (b, r)) as Hap.
    { apply (Ha ptr p); [done| | |done|done]; apply elem_of_dom; by eexists. }
    unfold apart in Hap. cbn [fst snd] in Hap. lia.
  - intros p q b c Hne Hp' Hq'. rewrite dom_delete in Hp', Hq'.
    apply (Ha p q b c); [done|set_solver..].
Qed.

Lemma load_data_run B A h ptr data i b :
  represents B A h → A !! ptr = Some data → data !! i = Some b →
  in_mem (um_load (ptr + Z.of_nat i)) h = Done b h.
Proof.
  intros [_ _ Hb _] HA Hi. destruct (Hb ptr data HA) as (base & real & _ & Hbl).
  destruct (ba_bytes _ _ _ _ _ Hbl) as [Hby _]. unfold in_mem, zoom. rewrite (um_load_run _ _ _ (Hby i b Hi)).
  by destruct h.
Qed.
Lemma store_data_wp B A h ptr data i b (Q : unit → heap M → Prop) :
  represents B A h → A !! ptr = Some data → (i < length data)%nat → 0 ≤ b < 256 →
  (∀ h', represents B (<[ptr := <[i := b]> data]> A) h' → Q tt h') →
  wp (in_mem (um_store (ptr + Z.of_nat i) b)) Q h.
Proof.
  intros [Hok Hps Hb Ha] HA Hi Hbb HQ. destruct (Hb ptr data HA) as (base & real & HB & Hbl).
  destruct Hbl as [Hba (Hr1 & Hr2 & Hr3) Hpt [Hd1 Hd2] Hhe [Hby Hby2] Hma].
  assert (real ≤ extent real) as Hext by (apply extent_ge; lia). unfold sizeof_malloc_header in Hpt.
  apply wp_in_mem. eapply wp_mono; [apply um_store_law; [done|apply Hma; lia|done]|].
  intros [] m' [Hok' Hm']. apply HQ. split; cbn [h_mem page_size].
  - done.
  - destruct Hps as [|[? ->]]; [by left|]. by rewrite lookup_empty in HA.
  - intros p d [[<- <-]|[Hne Hp]]%lookup_insert_Some.
    + exists base, real. split; [done|]. split; rewrite ?length_insert; try done.
      * intros j c Hj. rewrite Hm', decide_False; [by apply Hhe|].
        apply lookup_lt_Some in Hj. change (length _) with 8%nat in Hj. lia.
      * split; [|by apply Forall_insert]. intros j c Hj. rewrite Hm'. destruct (decide (j = i)) as [->|Hne].
        -- rewrite list_lookup_insert_eq in Hj by done. injection Hj as <-. by rewrite decide_True.
        -- rewrite list_lookup_insert_ne in Hj by done. rewrite decide_False by lia. by apply Hby.
      * intros x Hx. rewrite Hm'. case_decide; [by eexists|by apply Hma].
    + destruct (Hb p d Hp) as (b' & r & HB' & Hbl'). exists b', r. split; [done|].
      eapply block_at_same; [|exact Hbl']. intros x Hx. rewrite Hm', decide_False; [done|].
      assert (apart (base, real) (b', r)) as Hap.
      { apply (Ha ptr p); [done| | |done|done]; apply elem_of_dom; by eexists. }
      unfold apart in Hap. cbn [fst snd] in Hap. lia.
  - intros p q c d Hne Hp Hq. rewrite dom_insert_lookup in Hp, Hq by by eexists. by apply Ha.
Qed.
Lemma calloc_wp B A h num size (Q : Z → heap M → Prop) :
  represents B A h → 0 ≤ num → 0 ≤ size → fits (num * size) →
  (∀ h', denied (h_mem h) (real_size (num * size)) → represents B A h' → Q 0 h') →
  (∀ h' ptr B', represents B' (<[ptr := replicate (Z.to_nat (num * size)) 0]> A) h' →
     A !! ptr = None → ptr ≠ 0 → ptr mod max_align = 0 → Q ptr h') →
  wp (calloc max_align num size) Q h.
Proof.
  intros Hr Hnum Hsize Hn Hf Hs. unfold calloc. destruct Hn as [Hn1 Hn2].
  unfold PAGE_SIZE, U32 in Hn2. rewrite (u32_small (num * size)) by (unfold U32; lia).
  apply wp_bind. apply (malloc_wp B A h); [done|split; [done|unfold PAGE_SIZE, U32; lia]|..].
  - intros h' Hd Hr'. apply wp_ret. by apply Hf.
  - intros h' ptr base Hr' Hal HA Hp Hpa. rewrite (proj2 (Z.eqb_neq ptr 0)) by done. cbv iota.
    destruct (al_block _ _ _ _ _ _ Hal) as [Hba (Hr1 & Hr2 & Hr3) Hpt [Hd1 Hd2] Hhe [Hby Hby2] Hma].
    rewrite length_replicate in Hd1, Hd2.
    assert (real_size (num * size) ≤ extent (real_size (num * size))) as Hext by (apply extent_ge; lia).
    unfold sizeof_malloc_header in Hpt. unfold PAGE_SIZE, U32 in Hr3.
    apply wp_bind, wp_put_bytes; rewrite ?length_replicate; [apply (re_ok _ _ _ Hr')|lia|unfold U32; lia| |apply zeros_ok|].
    { intros x Hx. apply Hma. lia. }
    intros m' Hok' Hb' Ho' _. apply wp_ret.
    apply (Hs _ ptr (<[ptr := (base, real_size (num * size))]> B)); [|done..].
    apply (represents_same _ _ h'); [done|done|by left|]. intros x.
    destruct (decide (ptr ≤ x < ptr + Z.of_nat (Z.to_nat (num * size)))) as [Hx|Hx]; [|by apply Ho'].
    assert (∀ m, bytes_at m ptr (replicate (Z.to_nat (num * size)) 0) → um_byte m x = Some 0) as Hz.
    { intros m Hm. replace x with (ptr + Z.of_nat (Z.to_nat (x - ptr))) by lia. apply Hm.
      apply lookup_replicate. split; [done|lia]. }
    by rewrite (Hz m' Hb'), (Hz (h_mem h') Hby).
Qed.

(** ** The refinement *)

(** What a program does with its heap, and when it may. *)
Inductive heap_op : Type :=
  | Malloc (size : Z) | Calloc (num size : Z) | Free (ptr : Z) | Load (ptr : Z) (i : nat) | Store (ptr : Z) (i : nat) (b : Z).
Definition run_op (o : heap_op) : K (heap M) Z :=
  match o with
  | Malloc size => malloc max_align size
  | Calloc num size => calloc max_align num size
  | Free ptr => _ ← free ptr; mret 0
  | Load ptr i => in_mem (um_load (ptr + Z.of_nat i))
  | Store ptr i b => _ ← in_mem (um_store (ptr + Z.of_nat i) b); mret 0
  end.
Definition allowed (A : gmap Z (list Z)) (o : heap_op) : Prop :=
  match o with
  | Malloc size => size = 0 ∨ fits size
  | Calloc num size => 0 ≤ num ∧ 0 ≤ size ∧ (num * size = 0 ∨ fits (num * size))
  | Free ptr => ptr = 0 ∨ ptr ∈ dom A
  | Load ptr i => ∃ data, A !! ptr = Some data ∧ (i < length data)%nat
  | Store ptr i b => 0 ≤ b < 256 ∧ ∃ data, A !! ptr = Some data ∧ (i < length data)%nat
  end.
(** The abstract heap: an allocation makes an array of zeros, or fails when nothing
    was asked for or the kernel denies the memory. *)
Definition makes (m : M) (A : gmap Z (list Z)) (n r : Z) (A' : gmap Z (list Z)) : Prop :=
  r = 0 ∧ A' = A ∧ (n = 0 ∨ denied m (real_size n)) ∨
  r ≠ 0 ∧ r mod max_align = 0 ∧ A !! r = None ∧ A' = <[r := replicate (Z.to_nat n) 0]> A ∧ 0 < n.
Definition heap_effect (m : M) (A : gmap Z (list Z)) (o : heap_op) (r : Z) (A' : gmap Z (list Z)) : Prop :=
  match o with
  | Malloc size => makes m A size r A'
  | Calloc num size => makes m A (num * size) r A'
  | Free ptr => A' = delete ptr A
  | Load ptr i => A' = A ∧ (data ← A !! ptr; data !! i) = Some r
  | Store ptr i b => A' = alter (λ data, <[i := b]> data) ptr A
  end.
Lemma malloc_zero h : malloc max_align 0 h = Done 0 h.
Proof. done. Qed.

End theorems.

(** ** A memory that keeps the contract

    A map of bytes; mappings are made one behind the other. *)
Record paged : Type := Paged { pg_bytes : gmap Z Z; pg_next : Z }.
Definition PG_LIMIT : Z := 0xc0000000.
Definition pg_byte (m : paged) (a : Z) : option Z := pg_bytes m !! a.
#[export] Instance paged_mem : UserMem paged := {|
  um_byte := pg_byte;
  um_store := λ a b m,
    match pg_byte m a with
    | Some _ => Done tt (Paged (<[a := b]> (pg_bytes m)) (pg_next m))
    | None => Panic
    end;
|}.
Definition pg_ok (m : paged) : Prop :=
  pg_next m mod PAGE_SIZE = 0 ∧ 0 < pg_next m ∧ ∀ x, pg_next m ≤ x → pg_byte m x = None.
#[export] Program Instance paged_laws : UserMemLaws paged := {| um_ok := pg_ok |}.
Next Obligation.
  intros m a b (Hp & H0 & Hn) [c Hc] _. unfold wp. cbn [um_store um_byte paged_mem] in *. rewrite Hc.
  assert (∀ x, pg_byte (Paged (<[a := b]> (pg_bytes m)) (pg_next m)) x = if decide (x = a) then Some b else pg_byte m x) as E.
  { intros x. unfold pg_byte. cbn [pg_bytes]. case_decide as Hx; [by rewrite Hx, lookup_insert_eq|by rewrite lookup_insert_ne]. }
  split; [|exact E]. split_and!; try done. cbn [pg_next]. intros x Hx.
  rewrite E, decide_False; [by apply Hn|]. intros ->. by rewrite Hn in Hc.
Qed.
Definition fill (addr n : Z) (m : gmap Z Z) : gmap Z Z := foldr (λ x m, <[x := 0]> m) m (seqZ addr n).
Definition drop_range (addr n : Z) (m : gmap Z Z) : gmap Z Z := foldr (λ x m, delete x m) m (seqZ addr n).
Lemma lookup_over (f : Z → gmap Z Z → gmap Z Z) (o : option Z) l m x :
  (∀ a m, f a m !! a = o) → (∀ a b m, a ≠ b → f a m !! b = m !! b) →
  foldr f m l !! x = if decide (x ∈ l) then o else m !! x.
Proof.
  intros Hf Hg. induction l as [|a l IH]; cbn [foldr]; [done|].
  destruct (decide (x = a)) as [->|Hne]; [by rewrite Hf, decide_True by by left|].
  rewrite Hg, IH by done. apply decide_ext. rewrite elem_of_cons. tauto.
Qed.
Lemma lookup_fill addr n m x : fill addr n m !! x = if decide (addr ≤ x < addr + n) then Some 0 else m !! x.
Proof.
  unfold fill. rewrite (lookup_over _ (Some 0)).
  - apply decide_ext. by rewrite elem_of_seqZ.
  - intros. apply lookup_insert_eq.
  - intros. by apply lookup_insert_ne.
Qed.
Lemma lookup_drop_range addr n m x : drop_range addr n m !! x = if decide (addr ≤ x < addr + n) then None else m !! x.
Proof.
  unfold drop_range. rewrite (lookup_over _ None).
  - apply decide_ext. by rewrite elem_of_seqZ.
  - intros. apply lookup_delete_eq.
  - intros. by apply lookup_delete_ne.
Qed.
#[export] Instance paged_calls : MemCalls paged := {|
  mc_mmap := λ length m,
    if length =? 0 then Done (ERR EINVAL) m
    else if PG_LIMIT <? pg_next m + extent length then Done (ERR ENOMEM) m
    else Done (pg_next m) (Paged (fill (pg_next m) (extent length) (pg_bytes m)) (pg_next m + extent length));
  mc_munmap := λ addr length m,
    if negb (addr mod PAGE_SIZE =? 0) then Done (ERR EINVAL) m
    else Done 0 (Paged (drop_range addr (extent length) (pg_bytes m)) (pg_next m));
|}.
Lemma IS_ERR_address a : 0 ≤ a < PG_LIMIT → IS_ERR a = false.
Proof.
  unfold PG_LIMIT. intros Ha. unfold IS_ERR. rewrite (u32_small a) by (unfold U32; lia).
  apply Z.leb_gt. assert (PG_LIMIT < u32 (- EMAXERRNO)) by by vm_compute. unfold PG_LIMIT in *. lia.
Qed.
#[export] Program Instance paged_calls_laws : MemCallsLaws paged.
Next Obligation.
  intros m n (Hp & H0 & Hn) Hl Hl2. cbn [mc_mmap paged_calls]. unfold wp.
  rewrite (proj2 (Z.eqb_neq n 0)) by lia.
  destruct (round_up_aligned n) as [He1 He2]; [lia|done|]. fold (extent n) in He1, He2.
  destruct (Z.ltb_spec PG_LIMIT (pg_next m + extent n)) as [Hlt|Hle].
  { split; [done|]. left. split; [|done]. by apply IS_ERR_ERR. }
  unfold PG_LIMIT in Hle.
  assert (∀ x, pg_byte (Paged (fill (pg_next m) (extent n) (pg_bytes m)) (pg_next m + extent n)) x =
    if decide (pg_next m ≤ x < pg_next m + extent n) then Some 0 else pg_byte m x) as E
    by (intros x; apply lookup_fill).
  split.
  - split_and!; cbn [pg_next]; [|lia|].
    + rewrite Z.add_mod, Hp, He1 by done. done.
    + intros x Hx. rewrite E, decide_False by lia. apply Hn. lia.
  - right. split; [apply IS_ERR_address; unfold PG_LIMIT; lia|]. split.
    + done.
    + unfold U32, PAGE_SIZE. lia.
    + intros x Hx. apply Hn. lia.
    + exact E.
Qed.
Next Obligation.
  intros m a n (Hp & H0 & Hn) Ha Hl Hl2 Hm. cbn [mc_munmap paged_calls]. unfold wp.
  assert (∀ x, pg_byte (Paged (drop_range a (extent n) (pg_bytes m)) (pg_next m)) x =
    if decide (a ≤ x < a + extent n) then None else pg_byte m x) as E
    by (intros x; apply lookup_drop_range).
  rewrite Ha. cbn [Z.eqb negb]. split; [done|]. split; [|exact E]. split_and!; [done..|].
  cbn [pg_next]. intros x Hx. rewrite E. case_decide; [done|by apply Hn].
Qed.
Definition no_memory_yet : heap paged := Heap (Paged ∅ 4096) 0 0.
Lemma no_memory_yet_ok : represents ∅ ∅ no_memory_yet.
Proof.
  split.
  - split_and!; done.
  - by right.
  - intros p data Hp. by rewrite lookup_empty in Hp.
  - intros p q b c _ Hp. by rewrite dom_empty, elem_of_empty in Hp.
Qed.
Lemma align_16 : ∃ k, 0 ≤ k ≤ 12 ∧ 16 = 2 ^ k.
Proof. by exists 4. Qed.

(** ** Where the code leaves the contract *)

(** The header of the old block is copied over that of the new one: when the block
    is freed, only the old number of pages is unmapped. *)
Example realloc_leaks :
  match (p ← malloc 16 8; q ← realloc 16 p 4090; _ ← free q; mret q) no_memory_yet with
  | Done q h => pg_byte (h_mem h) (q - 16) = None ∧ pg_byte (h_mem h) (q - 16 + PAGE_SIZE) = Some 0
  | _ => False
  end.
Proof. vm_compute. done. Qed.
(** The whole old block is copied, also to a smaller one: what is behind the new
    mapping is overwritten, or the program faults. *)
Example realloc_smaller_faults : (p ← malloc 16 4100; realloc 16 p 10) no_memory_yet = Panic.
Proof. vm_compute. done. Qed.
(** The product wraps around: a request for 4 gigabytes gives two bytes. *)
Example calloc_wraps :
  match calloc 16 2147483649 2 no_memory_yet with
  | Done p h => p ≠ 0 ∧ pg_byte (h_mem h) (p + PAGE_SIZE) = None
  | _ => False
  end.
Proof. vm_compute. done. Qed.
