(* ===== verification/Console.v ===== *)
(** * The frame buffer console (kernel/console/fb_console.c)

    The screen is a grid of cells that a state machine over the characters
    written to /dev/tty changes: plain text, control characters and escape
    sequences. [console] holds the static variables of the file. [line_is_dirty]
    has one element per byte of the block that kmalloc returned for it, which
    may be larger than the [console_height] bytes asked for: the code writes
    behind them when it scrolls. [param_buf] holds the bytes collected so far,
    its length is [param_buf_idx]. Characters are bytes; a comparison reads them
    through [schar] because plain [char] is signed. *)
From S2P Require Import Prelude CString CLib.

Definition TAB_STOP : Z := 8.
Definition DEFAULT_FG_COLOR : Z := 7.
Definition DEFAULT_BG_COLOR : Z := 0.
(** Elements of [param_buf]. *)
Definition PARAM_BUF_SIZE : Z := 1024.

Record cell : Type := Cell { cell_ch : Z; cell_fg : Z; cell_bg : Z }.

Inductive console_state : Type := STATE_GROUND | STATE_ESC | STATE_CSI.

Record console : Type := Console {
  console_width : Z;
  console_height : Z;
  cursor_x : Z;
  cursor_y : Z;
  is_cursor_visible : bool;
  state : console_state;
  fg_color : Z;
  bg_color : Z;
  cells : list cell;
  line_is_dirty : list bool;
  whole_screen_should_be_cleared : bool;
  stomp : bool;
  param_buf : list Z;
}.

(** Assignments to one variable each. *)
Definition with_cursor (x y : Z) (k : console) : console :=
  Console (console_width k) (console_height k) x y (is_cursor_visible k) (state k)
    (fg_color k) (bg_color k) (cells k) (line_is_dirty k) (whole_screen_should_be_cleared k)
    (stomp k) (param_buf k).
Definition with_visible (b : bool) (k : console) : console :=
  Console (console_width k) (console_height k) (cursor_x k) (cursor_y k) b (state k)
    (fg_color k) (bg_color k) (cells k) (line_is_dirty k) (whole_screen_should_be_cleared k)
    (stomp k) (param_buf k).
Definition with_state (st : console_state) (k : console) : console :=
  Console (console_width k) (console_height k) (cursor_x k) (cursor_y k) (is_cursor_visible k) st
    (fg_color k) (bg_color k) (cells k) (line_is_dirty k) (whole_screen_should_be_cleared k)
    (stomp k) (param_buf k).
Definition with_colors (fg bg : Z) (k : console) : console :=
  Console (console_width k) (console_height k) (cursor_x k) (cursor_y k) (is_cursor_visible k)
    (state k) fg bg (cells k) (line_is_dirty k) (whole_screen_should_be_cleared k)
    (stomp k) (param_buf k).
Definition with_cells (cs : list cell) (k : console) : console :=
  Console (console_width k) (console_height k) (cursor_x k) (cursor_y k) (is_cursor_visible k)
    (state k) (fg_color k) (bg_color k) cs (line_is_dirty k) (whole_screen_should_be_cleared k)
    (stomp k) (param_buf k).
Definition with_dirty (ds : list bool) (k : console) : console :=
  Console (console_width k) (console_height k) (cursor_x k) (cursor_y k) (is_cursor_visible k)
    (state k) (fg_color k) (bg_color k) (cells k) ds (whole_screen_should_be_cleared k)
    (stomp k) (param_buf k).
Definition with_clear (b : bool) (k : console) : console :=
  Console (console_width k) (console_height k) (cursor_x k) (cursor_y k) (is_cursor_visible k)
    (state k) (fg_color k) (bg_color k) (cells k) (line_is_dirty k) b (stomp k) (param_buf k).
Definition with_stomp (b : bool) (k : console) : console :=
  Console (console_width k) (console_height k) (cursor_x k) (cursor_y k) (is_cursor_visible k)
    (state k) (fg_color k) (bg_color k) (cells k) (line_is_dirty k)
    (whole_screen_should_be_cleared k) b (param_buf k).
Definition with_param_buf (s : list Z) (k : console) : console :=
  Console (console_width k) (console_height k) (cursor_x k) (cursor_y k) (is_cursor_visible k)
    (state k) (fg_color k) (bg_color k) (cells k) (line_is_dirty k)
    (whole_screen_should_be_cleared k) (stomp k) s.

Abbreviation C := (K console).

(** [p[i] = a]. *)
Definition in_bounds {A} (l : list A) (i : Z) : bool := in_array (Z.of_nat (length l)) i.
Definition mark_dirty (y : Z) : C unit :=
  k ← get;
  if in_bounds (line_is_dirty k) y
  then put (with_dirty (<[Z.to_nat y := true]> (line_is_dirty k)) k) else undef.
Definition store_cell (i : Z) (c : cell) : C unit :=
  k ← get;
  if in_bounds (cells k) i
  then put (with_cells (<[Z.to_nat i := c]> (cells k)) k) else undef.

(** ** Drawing *)
Definition set_cursor (x y : Z) : C unit :=
  _ ← modify (with_stomp false);
  k ← get;
  _ ← mark_dirty (cursor_y k);
  _ ← mark_dirty y;
  modify (with_cursor x y).

(** The cell a character gets in the current colours. *)
Definition colored (c : Z) (k : console) : cell := Cell c (fg_color k) (bg_color k).

Fixpoint clear_cells (i : Z) (length : nat) : C unit :=
  match length with
  | O => mret tt
  | S length =>
      k ← get; _ ← store_cell i (colored (ch " ") k); clear_cells (i + 1) length
  end.
Definition clear_line_at (x y length : Z) : C unit :=
  k ← get;
  _ ← clear_cells (x + y * console_width k) (Z.to_nat length);
  mark_dirty y.

(** [for (y = first; y < last; ++y) clear_line_at(0, y, console_width)]. *)
Fixpoint clear_lines (y : Z) (n : nat) : C unit :=
  match n with
  | O => mret tt
  | S n => k ← get; _ ← clear_line_at 0 y (console_width k); clear_lines (y + 1) n
  end.
Definition clear_screen : C unit :=
  k ← get;
  _ ← clear_lines 0 (Z.to_nat (console_height k));
  modify (with_clear true).

Definition write_char_at (x y c : Z) : C unit :=
  k ← get;
  _ ← store_cell (x + y * console_width k) (colored c k);
  mark_dirty y.

Fixpoint mark_lines (y : Z) (n : nat) : C unit :=
  match n with
  | O => mret tt
  | S n => _ ← mark_dirty y; mark_lines (y + 1) n
  end.
(** The memmove of all lines but the first to the front. *)
Definition move_cells_up : C unit :=
  k ← get;
  let w := Z.to_nat (console_width k) in
  let n := Z.to_nat (console_width k * (console_height k - 1)) in
  if (w + n <=? length (cells k))%nat
  then put (with_cells (splice 0 (take n (drop w (cells k))) (cells k)) k) else undef.
Definition scroll_up : C unit :=
  _ ← move_cells_up;
  k ← get;
  _ ← mark_lines 0 (Z.to_nat (console_height k - 1));
  clear_line_at 0 (console_height k - 1) (console_width k).

(** ** Plain characters *)

(** The code behind the switch. *)
Definition clamp_cursor : C unit :=
  k ← get;
  when (console_width k <=? cursor_x k)
    (_ ← set_cursor (console_width k - 1) (cursor_y k); modify (with_stomp true)).

Definition put_char (c : Z) : C unit :=
  k ← get;
  _ ← when (stomp k) (set_cursor 0 (cursor_y k + 1));
  k ← get;
  _ ← when (console_height k <=? cursor_y k)
        (_ ← scroll_up; set_cursor (cursor_x k) (console_height k - 1));
  k ← get;
  _ ← write_char_at (cursor_x k) (cursor_y k) c;
  set_cursor (cursor_x k + 1) (cursor_y k).

Definition handle_ground (c : Z) : C unit :=
  k ← get;
  if c =? 27 then modify (with_state STATE_ESC)
  else if c =? 13 then _ ← set_cursor 0 (cursor_y k); clamp_cursor
  else if c =? 10 then _ ← set_cursor 0 (cursor_y k + 1); clamp_cursor
  else if c =? 8 then
    _ ← when (0 <? cursor_x k) (set_cursor (cursor_x k - 1) (cursor_y k)); clamp_cursor
  else if c =? 9 then
    _ ← set_cursor (round_up (cursor_x k + 1) TAB_STOP) (cursor_y k); clamp_cursor
  else if 127 <? u32 (schar c) then mret tt
  else _ ← put_char c; clamp_cursor.

Definition handle_state_esc (c : Z) : C unit :=
  if c =? ch "[" then
    _ ← modify (with_param_buf []); modify (with_state STATE_CSI)
  else
    _ ← modify (with_state STATE_GROUND); handle_ground c.

(** ** Control sequences *)

(** [param_buf] as a string: the bytes before the first NUL. *)
Definition params (k : console) : list Z := (span (λ c, negb (c =? 0)) (param_buf k)).1.
(** atoi of a string that lies in memory of its own. *)
Definition atoi_str {S} (s : list Z) : K S Z := λ st,
  match atoi 0 (s ++ [0]) with
  | Done v _ => Done v st
  | Panic => Panic
  | Undef => Undef
  | OutOfFuel => OutOfFuel
  end.
(** [atoi(param_buf)], where 0 or nothing means one. *)
Definition count_param : C Z :=
  k ← get; n ← atoi_str (params k); mret (if n =? 0 then 1 else n).

(** Cursor Up, Down, Forward, Back. *)
Definition handle_csi_cuu : C unit :=
  dy ← count_param; k ← get;
  if cursor_y k <? dy then set_cursor (cursor_x k) 0
  else set_cursor (cursor_x k) (cursor_y k - dy).
Definition handle_csi_cud : C unit :=
  dy ← count_param; k ← get;
  if console_height k <=? u32 (dy + cursor_y k) then set_cursor (cursor_x k) (console_height k - 1)
  else set_cursor (cursor_x k) (u32 (cursor_y k + dy)).
Definition handle_csi_cuf : C unit :=
  dx ← count_param; k ← get;
  if console_width k <=? u32 (dx + cursor_x k) then set_cursor (console_width k - 1) (cursor_y k)
  else set_cursor (u32 (cursor_x k + dx)) (cursor_y k).
Definition handle_csi_cub : C unit :=
  dx ← count_param; k ← get;
  if cursor_x k <? dx then set_cursor 0 (cursor_y k)
  else set_cursor (cursor_x k - dx) (cursor_y k).

(** Coordinates start at one; 0 is read as one as well. *)
Definition zero_based (n : Z) : Z := if 0 <? n then n - 1 else n.
Definition at_most (n limit : Z) : Z := if limit <=? n then limit - 1 else n.

(** Cursor Horizontal Absolute. *)
Definition handle_csi_cha : C unit :=
  k ← get;
  x ← atoi_str (params k);
  set_cursor (at_most (zero_based x) (console_width k)) (cursor_y k).

(** The loop of handle_csi_cup over the pieces between semicolons: the first
    one is the line, the second the column, others are skipped. *)
Fixpoint cup_loop (i : nat) (tokens : list (list Z)) (x y : Z) : C (Z * Z) :=
  match tokens with
  | [] => mret (x, y)
  | param :: tokens =>
      match i with
      | O => n ← atoi_str param; cup_loop 1 tokens x (zero_based n)
      | 1%nat => n ← atoi_str param; cup_loop 2 tokens (zero_based n) y
      | S i => cup_loop (S (S i)) tokens x y
      end
  end.
(** Cursor Position. *)
Definition handle_csi_cup : C unit :=
  k ← get;
  tokens ← strtok_all (params k) (lit ";");
  '(x, y) ← cup_loop 0 tokens 0 0;
  set_cursor (at_most x (console_width k)) (at_most y (console_height k)).

(** Erase in Display. *)
Definition handle_csi_ed : C unit :=
  k ← get;
  n ← atoi_str (params k);
  if n =? 0 then
    _ ← clear_line_at (cursor_x k) (cursor_y k) (u32 (console_width k - cursor_x k));
    clear_lines (cursor_y k + 1) (Z.to_nat (console_height k - (cursor_y k + 1)))
  else if n =? 1 then
    _ ← when (0 <? cursor_y k) (clear_lines 0 (Z.to_nat (cursor_y k)));
    clear_line_at 0 (cursor_y k) (cursor_x k + 1)
  else if n =? 2 then clear_screen
  else mret tt.

(** Erase in Line. *)
Definition handle_csi_el : C unit :=
  k ← get;
  n ← atoi_str (params k);
  if n =? 0 then clear_line_at (cursor_x k) (cursor_y k) (u32 (console_width k - cursor_x k))
  else if n =? 1 then clear_line_at 0 (cursor_y k) (cursor_x k + 1)
  else if n =? 2 then clear_line_at 0 (cursor_y k) (console_width k)
  else mret tt.

Definition between (a n b : Z) : bool := (a <=? n) && (n <=? b).
(** One number of a Select Graphic Rendition sequence. *)
Definition sgr_step (num : Z) (bold : bool) : C bool :=
  k ← get;
  let bright := if bold then 8 else 0 in
  if num =? 0 then _ ← modify (with_colors DEFAULT_FG_COLOR DEFAULT_BG_COLOR); mret false
  else if num =? 1 then mret true
  else if num =? 7 then _ ← modify (with_colors (bg_color k) (fg_color k)); mret bold
  else if num =? 22 then _ ← modify (with_colors DEFAULT_FG_COLOR (bg_color k)); mret false
  else if between 30 num 37 then
    _ ← modify (with_colors (u8 (num - 30 + bright)) (bg_color k)); mret bold
  else if num =? 38 then _ ← modify (with_colors DEFAULT_FG_COLOR (bg_color k)); mret bold
  else if between 40 num 47 then
    _ ← modify (with_colors (fg_color k) (u8 (num - 40 + bright))); mret bold
  else if num =? 48 then _ ← modify (with_colors (fg_color k) DEFAULT_BG_COLOR); mret bold
  else if between 90 num 97 then
    _ ← modify (with_colors (u8 (num - 90 + 8)) (bg_color k)); mret bold
  else if between 100 num 107 then
    _ ← modify (with_colors (fg_color k) (u8 (num - 100 + 8))); mret bold
  else mret bold.
Fixpoint sgr_loop (tokens : list (list Z)) (bold : bool) : C unit :=
  match tokens with
  | [] => mret tt
  | param :: tokens =>
      num ← atoi_str param; bold ← sgr_step num bold; sgr_loop tokens bold
  end.
Definition handle_csi_sgr : C unit :=
  k ← get;
  if bool_decide (params k = []) then modify (with_colors DEFAULT_FG_COLOR DEFAULT_BG_COLOR)
  else tokens ← strtok_all (params k) (lit ";"); sgr_loop tokens false.

(** Text Cursor Enable Mode. *)
Definition handle_csi_dectcem (c : Z) : C unit :=
  k ← get;
  if negb (bool_decide (params k = lit "?25")) then mret tt
  else if c =? ch "h" then _ ← modify (with_visible true); mark_dirty (cursor_y k)
  else if c =? ch "l" then _ ← modify (with_visible false); mark_dirty (cursor_y k)
  else mret tt.

Definition csi_dispatch (c : Z) : C unit :=
  if c =? ch "A" then handle_csi_cuu
  else if c =? ch "B" then handle_csi_cud
  else if c =? ch "C" then handle_csi_cuf
  else if c =? ch "D" then handle_csi_cub
  else if c =? ch "G" then handle_csi_cha
  else if c =? ch "H" then handle_csi_cup
  else if c =? ch "J" then handle_csi_ed
  else if c =? ch "K" then handle_csi_el
  else if c =? ch "m" then handle_csi_sgr
  else if (c =? ch "h") || (c =? ch "l") then handle_csi_dectcem c
  else mret tt.

(** The byte or its terminator goes to [param_buf[param_buf_idx]]. *)
Definition handle_state_csi (c : Z) : C unit :=
  k ← get;
  let param_buf_idx := Z.of_nat (length (param_buf k)) in
  if negb (param_buf_idx <? PARAM_BUF_SIZE) then undef
  else if schar c <? 64 then modify (with_param_buf (param_buf k ++ [c]))
  else _ ← csi_dispatch c; modify (with_state STATE_GROUND).

Definition on_char (c : Z) : C unit :=
  k ← get;
  match state k with
  | STATE_GROUND => handle_ground c
  | STATE_ESC => handle_state_esc c
  | STATE_CSI => handle_state_csi c
  end.

(** The loop of fb_console_device_write. *)
Fixpoint on_chars (s : list Z) : C unit :=
  match s with
  | [] => mret tt
  | c :: s => _ ← on_char c; on_chars s
  end.

(** ** What a well-formed console is *)

(** The sizes, which nothing changes. *)
Definition geometry (k : console) : Z * Z * nat * nat :=
  (console_width k, console_height k, length (line_is_dirty k), length (cells k)).
Definition mode (k : console) : console_state * list Z * Z * Z :=
  (state k, param_buf k, fg_color k, bg_color k).
(** [k'] comes from [k] by drawing and moving the cursor only. *)
Definition draws (k k' : console) : Prop := geometry k' = geometry k ∧ mode k' = mode k.

Record screen_ok (k : console) : Prop := {
  width_pos : 0 < console_width k;
  height_pos : 0 < console_height k;
  cells_size : Z.of_nat (length (cells k)) = console_width k * console_height k;
  dirty_size : console_height k ≤ Z.of_nat (length (line_is_dirty k));
}.
Definition row_ok (k : console) (y : Z) : Prop := 0 ≤ y < Z.of_nat (length (line_is_dirty k)).
Record console_ok (k : console) : Prop := {
  ok_screen : screen_ok k;
  ok_x : 0 ≤ cursor_x k < console_width k;
  ok_y : row_ok k (cursor_y k);
  ok_fg : 0 ≤ fg_color k < 16;
  ok_bg : 0 ≤ bg_color k < 16;
  ok_params : Z.of_nat (length (param_buf k)) < PARAM_BUF_SIZE;
  ok_bytes : Forall (λ c, 0 ≤ c < 256) (param_buf k);
}.

#[global] Instance draws_refl : Reflexive draws.
Proof. by intros k. Qed.
#[global] Instance draws_sym : Symmetric draws.
Proof. by intros k k' [H1 H2]. Qed.
#[global] Instance draws_trans : Transitive draws.
Proof. unfold draws. intros k1 k2 k3 [-> ->] [-> ->]. done. Qed.
Lemma draws_screen k k' : draws k k' → screen_ok k → screen_ok k'.
Proof.
  intros [[= H1 H2 H3 H4] _] []. constructor; rewrite ?H1, ?H2, ?H3, ?H4; done.
Qed.
Lemma draws_row k k' y : draws k k' → row_ok k y → row_ok k' y.
Proof. unfold row_ok. intros [[= _ _ -> _] _]. done. Qed.
Lemma draws_width k k' : draws k k' → console_width k' = console_width k.
Proof. by intros [[= -> _ _ _] _]. Qed.
Lemma draws_height k k' : draws k k' → console_height k' = console_height k.
Proof. by intros [[= _ -> _ _] _]. Qed.
Lemma draws_ok k k' :
  console_ok k → draws k k' → 0 ≤ cursor_x k' < console_width k → row_ok k (cursor_y k') →
  console_ok k'.
Proof.
  intros [] Hd Hx Hy. pose proof Hd as [_ [= _ Hp Hf Hb]]. pose proof (draws_width _ _ Hd) as Hw.
  constructor; rewrite ?Hp, ?Hf, ?Hb, ?Hw; try done;
    [by eapply draws_screen|by eapply draws_row].
Qed.
#[export] Hint Resolve draws_screen draws_row ok_screen ok_y : console.

(** ** The drawing operations *)
Definition dirty (y : Z) (k : console) : console :=
  with_dirty (<[Z.to_nat y := true]> (line_is_dirty k)) k.
Lemma dirty_draws y k : draws k (dirty y k).
Proof. split; [|done]. unfold geometry, dirty. simpl. by rewrite length_insert. Qed.
Lemma wp_mark_dirty y k (Q : unit → console → Prop) :
  row_ok k y → Q tt (dirty y k) → wp (mark_dirty y) Q k.
Proof.
  intros [H1 H2] HQ. unfold mark_dirty. wp_go. unfold in_bounds, in_array.
  by rewrite (proj2 (Z.leb_le _ _)), (proj2 (Z.ltb_lt _ _)) by lia.
Qed.

(** The state set_cursor leaves. *)
Definition moved (x y : Z) (k : console) : console :=
  with_cursor x y (dirty y (dirty (cursor_y k) (with_stomp false k))).
Lemma moved_draws x y k : draws k (moved x y k).
Proof.
  split; [|done]. unfold geometry, moved, dirty. simpl. by rewrite !length_insert.
Qed.
Lemma wp_set_cursor x y k (Q : unit → console → Prop) :
  row_ok k (cursor_y k) → row_ok k y → Q tt (moved x y k) → wp (set_cursor x y) Q k.
Proof.
  intros Hc Hy HQ. unfold set_cursor. wp_go. apply wp_mark_dirty; [done|]. wp_go.
  apply wp_mark_dirty; [|done]. eapply draws_row; [apply dirty_draws|done].
Qed.

Lemma mark_dirty_undef y k : Z.of_nat (length (line_is_dirty k)) ≤ y → mark_dirty y k = Undef.
Proof.
  intros Hy. unfold mark_dirty. rewrite (bind_run get _ k k k) by done. unfold in_bounds, in_array.
  by rewrite (proj2 (Z.ltb_ge y _)), andb_false_r by lia.
Qed.
Lemma mark_dirty_run y k : row_ok k y → mark_dirty y k = Done tt (dirty y k).
Proof.
  intros Hy. apply (wp_mark_dirty y k (λ u k', u = tt ∧ k' = dirty y k)) in Hy; [|done].
  apply wp_done in Hy as ([] & k' & H & _ & ->). exact H.
Qed.
Lemma set_cursor_undef x y k :
  row_ok k (cursor_y k) → Z.of_nat (length (line_is_dirty k)) ≤ y → set_cursor x y k = Undef.
Proof.
  intros Hr Hy. unfold set_cursor. rewrite (bind_run (modify _) _ k tt (with_stomp false k)) by done.
  rewrite (bind_run get _ _ (with_stomp false k) (with_stomp false k)) by done.
  rewrite (bind_run _ _ _ tt (dirty (cursor_y k) (with_stomp false k))) by (by apply mark_dirty_run).
  unfold mbind at 1, K_bind at 1. rewrite mark_dirty_undef; [done|].
  unfold dirty, with_dirty. cbn [line_is_dirty]. by rewrite length_insert.
Qed.

Definition drawn (i : Z) (c : cell) (k : console) : console :=
  with_cells (<[Z.to_nat i := c]> (cells k)) k.
Lemma drawn_draws i c k : draws k (drawn i c k).
Proof. split; [|done]. unfold geometry, drawn. simpl. by rewrite length_insert. Qed.
Lemma wp_store_cell i c k (Q : unit → console → Prop) :
  0 ≤ i < Z.of_nat (length (cells k)) → Q tt (drawn i c k) → wp (store_cell i c) Q k.
Proof.
  intros [H1 H2] HQ. unfold store_cell. wp_go. unfold in_bounds, in_array.
  by rewrite (proj2 (Z.leb_le _ _)), (proj2 (Z.ltb_lt _ _)) by lia.
Qed.

Definition cursor (k : console) : Z * Z := (cursor_x k, cursor_y k).
Definition blank (k : console) : cell := colored (ch " ") k.

Lemma wp_clear_cells i n k (Q : unit → console → Prop) :
  0 ≤ i → i + Z.of_nat n ≤ Z.of_nat (length (cells k)) →
  Q tt (with_cells (splice (Z.to_nat i) (replicate n (blank k)) (cells k)) k) →
  wp (clear_cells i n) Q k.
Proof.
  revert i k. induction n as [|n IH]; intros i k Hi Hn HQ; cbn [clear_cells].
  { wp_go. cbn [replicate] in HQ. rewrite splice_nil in HQ. by destruct k. }
  wp_keep. apply wp_store_cell; [lia|].
  apply IH; [lia|unfold drawn; cbn [cells with_cells]; rewrite length_insert; lia|].
  unfold drawn. cbn [cells with_cells]. replace (Z.to_nat (i + 1)) with (S (Z.to_nat i)) by lia.
  change (blank (with_cells _ k)) with (blank k). unfold blank at 1.
  rewrite insert_splice by lia. exact HQ.
Qed.

Definition cleared (x y : Z) (n : nat) (k : console) : console :=
  dirty y (with_cells (splice (Z.to_nat (x + y * console_width k)) (replicate n (blank k)) (cells k)) k).
Lemma wp_clear_line x y len k (Q : unit → console → Prop) :
  screen_ok k → 0 ≤ x → 0 ≤ len → x + len ≤ console_width k → 0 ≤ y < console_height k →
  (draws k (cleared x y (Z.to_nat len) k) → Q tt (cleared x y (Z.to_nat len) k)) →
  wp (clear_line_at x y len) Q k.
Proof.
  intros Hk Hx Hlen Hw Hy HQ.
  assert (0 ≤ x + y * console_width k ∧
          x + y * console_width k + len ≤ Z.of_nat (length (cells k))) as [H1 H2].
  { rewrite (cells_size _ Hk). nia. }
  assert (draws k (cleared x y (Z.to_nat len) k)) as Hd.
  { split; [|done]. unfold geometry, cleared, dirty. simpl.
    rewrite length_insert, length_splice; [done|rewrite length_replicate; lia]. }
  unfold clear_line_at. wp_keep. apply wp_clear_cells; [lia|lia|]. wp_keep.
  apply wp_mark_dirty; [|by apply HQ].
  split; [lia|]. cbn [line_is_dirty with_cells]. pose proof (dirty_size _ Hk). lia.
Qed.

(** Clearing whole lines draws, the cursor stays. *)
Lemma wp_clear_lines n y k (Q : unit → console → Prop) :
  screen_ok k → 0 ≤ y → y + Z.of_nat n ≤ console_height k →
  (∀ k', draws k k' → cursor k' = cursor k → Q tt k') → wp (clear_lines y n) Q k.
Proof.
  revert y k. induction n as [|n IH]; intros y k Hk Hy Hn HQ; cbn [clear_lines]; wp_keep.
  { by apply HQ. }
  pose proof (width_pos _ Hk). apply wp_clear_line; [done|lia|lia|lia|lia|]. intros Hd.
  apply IH; [by eapply draws_screen|lia|rewrite (draws_height _ _ Hd); lia|].
  intros k' Hd' Hc'. apply HQ; [by etrans|done].
Qed.

Lemma wp_mark_lines n y k (Q : unit → console → Prop) :
  screen_ok k → 0 ≤ y → y + Z.of_nat n ≤ console_height k →
  (∀ k', draws k k' → cursor k' = cursor k → cells k' = cells k → Q tt k') →
  wp (mark_lines y n) Q k.
Proof.
  revert y k. induction n as [|n IH]; intros y k Hk Hy Hn HQ; cbn [mark_lines]; wp_keep.
  { by apply HQ. }
  pose proof (dirty_size _ Hk). apply wp_mark_dirty; [split; lia|].
  pose proof (dirty_draws y k) as Hd.
  apply IH; [by eapply draws_screen|lia|rewrite (draws_height _ _ Hd); lia|].
  intros k' Hd' Hc' Hs'. apply HQ; [by etrans|done|done].
Qed.

(** Scrolling drops the first line and adds a blank one. *)
Lemma wp_scroll_up k (Q : unit → console → Prop) :
  screen_ok k →
  (∀ k', draws k k' → cursor k' = cursor k →
     cells k' = drop (Z.to_nat (console_width k)) (cells k)
                ++ replicate (Z.to_nat (console_width k)) (blank k) → Q tt k') →
  wp scroll_up Q k.
Proof.
  intros Hk HQ. pose proof Hk as [Hw Hh Hs Hd]. unfold scroll_up, move_cells_up. wp_keep.
  set (w := Z.to_nat (console_width k)).
  set (n := Z.to_nat (console_width k * (console_height k - 1))).
  assert (length (cells k) = w + n)%nat as Hlen by (unfold w, n; nia).
  rewrite (proj2 (Nat.leb_le _ _)) by lia. wp_keep.
  assert (take n (drop w (cells k)) = drop w (cells k)) as ->.
  { apply take_ge. rewrite length_drop. lia. }
  set (k1 := with_cells _ k).
  assert (cells k1 = drop w (cells k) ++ drop n (cells k)) as Hc1.
  { unfold k1. cbn [cells with_cells]. unfold splice. rewrite take_0, length_drop. simpl.
    do 2 f_equal. lia. }
  assert (draws k k1) as Hd1.
  { split; [|done]. unfold geometry. rewrite Hc1, length_app, !length_drop. unfold k1. simpl.
    f_equal. lia. }
  pose proof (draws_screen _ _ Hd1 Hk) as Hk1.
  apply wp_mark_lines; [done|lia|cbn [console_height k1 with_cells]; lia|].
  intros k2 Hd2 Hc2 Hs2. assert (draws k k2) as Hd02 by (by etrans).
  cbn [console_height console_width k1 with_cells].
  apply wp_clear_line; [by eapply draws_screen|lia|lia|rewrite (draws_width _ _ Hd02); lia
    |rewrite (draws_height _ _ Hd02); lia|].
  intros Hd3. apply HQ; [by etrans|done|].
  unfold cleared, dirty. cbn [cells with_dirty with_cells]. rewrite Hs2, Hc1.
  assert (blank k2 = blank k) as ->.
  { destruct Hd02 as [_ [= _ _ Hf Hb]]. unfold blank, colored. by rewrite Hf, Hb. }
  replace (Z.to_nat (0 + (console_height k - 1) * console_width k2)) with n
    by (rewrite (draws_width _ _ Hd02); unfold n; lia).
  fold w. unfold splice.
  rewrite take_app_length' by (rewrite length_drop; lia). f_equal.
  rewrite drop_ge; [apply app_nil_r|]. rewrite length_app, !length_drop, length_replicate. lia.
Qed.

(** ** What a plain character does *)

Definition clamped (k : console) : console :=
  if console_width k <=? cursor_x k
  then with_stomp true (moved (console_width k - 1) (cursor_y k) k) else k.
Lemma wp_clamp k (Q : unit → console → Prop) :
  row_ok k (cursor_y k) → Q tt (clamped k) → wp clamp_cursor Q k.
Proof.
  intros Hr HQ. unfold clamp_cursor, clamped in *. wp_keep.
  destruct (console_width k <=? cursor_x k); simpl; wp_keep; [|done].
  apply wp_set_cursor; [done|done|]. wp_keep. done.
Qed.
Lemma clamped_draws k : draws k (clamped k).
Proof. unfold clamped. case_match; [|done]. apply (moved_draws (console_width k - 1) (cursor_y k) k). Qed.
Lemma clamped_cursor k :
  0 < console_width k →
  cursor (clamped k) = (Z.min (cursor_x k) (console_width k - 1), cursor_y k) ∧
  cells (clamped k) = cells k ∧
  stomp (clamped k) = (console_width k <=? cursor_x k) || stomp k.
Proof.
  intros Hw. unfold clamped, cursor. case_match; bool_to_prop; simpl; split_and!; try done.
  - f_equal. lia.
  - f_equal. lia.
Qed.
Lemma clamped_ok k :
  console_ok k ∨ (screen_ok k ∧ row_ok k (cursor_y k) ∧ 0 ≤ cursor_x k) →
  0 ≤ cursor_x (clamped k) < console_width k ∧ row_ok k (cursor_y (clamped k)).
Proof.
  intros H. assert (0 < console_width k ∧ row_ok k (cursor_y k) ∧ 0 ≤ cursor_x k) as (Hw & Hr & Hx).
  { destruct H as [[[]]|([]&?&?)]; split_and!; done || lia. }
  destruct (clamped_cursor k Hw) as ([= -> ->] & _). split; [lia|done].
Qed.

(** Where put_char writes: past a full line or below the screen, the next line. *)
Definition put_x (k : console) : Z := if stomp k then 0 else cursor_x k.
Definition line_after_stomp (k : console) : Z := if stomp k then cursor_y k + 1 else cursor_y k.
Definition scrolls (k : console) : bool := console_height k <=? line_after_stomp k.
Definition put_y (k : console) : Z :=
  if scrolls k then console_height k - 1 else line_after_stomp k.
Definition scrolled (k : console) : list cell :=
  if scrolls k then
    drop (Z.to_nat (console_width k)) (cells k) ++ replicate (Z.to_nat (console_width k)) (blank k)
  else cells k.

Lemma draws_colored c k k' : draws k k' → colored c k' = colored c k.
Proof. intros [_ [= _ _ Hf Hb]]. unfold colored. by rewrite Hf, Hb. Qed.

Lemma wp_put_char c k (Q : unit → console → Prop) :
  console_ok k → row_ok k (line_after_stomp k) →
  (∀ k', draws k k' → cursor k' = (put_x k + 1, put_y k) → stomp k' = false →
     cells k' = <[Z.to_nat (put_x k + put_y k * console_width k) := colored c k]> (scrolled k) →
     0 ≤ put_x k < console_width k ∧ 0 ≤ put_y k < console_height k ∧ row_ok k (put_y k) → Q tt k') →
  wp (put_char c) Q k.
Proof.
  intros Hk Hrow HQ. pose proof (ok_screen _ Hk) as Hs. pose proof (ok_y _ Hk) as Hy.
  pose proof (ok_x _ Hk) as Hx.
  unfold put_char. wp_keep.
  eapply (wp_mono _ (λ _ k1, draws k k1 ∧ cursor k1 = (put_x k, line_after_stomp k) ∧ cells k1 = cells k)).
  { unfold put_x, line_after_stomp in *. destruct (stomp k); simpl.
    - apply wp_set_cursor; [done|done|]. split; [apply moved_draws|done].
    - by apply wp_ret. }
  intros [] k1 (Hd1 & [= Hx1 Hy1] & Hc1). wp_keep.
  pose proof (draws_screen _ _ Hd1 Hs) as Hs1.
  assert (row_ok k (put_y k) ∧ 0 ≤ put_y k < console_height k) as [Hrp Hpy].
  { pose proof (dirty_size _ Hs). pose proof (height_pos _ Hs). unfold put_y, row_ok, scrolls in *.
    destruct (console_height k <=? line_after_stomp k) eqn:E; bool_to_prop; lia. }
  assert (0 ≤ put_x k < console_width k) as Hpx.
  { unfold put_x. destruct (stomp k); lia. }
  eapply (wp_mono _ (λ _ k2, draws k k2 ∧ cursor k2 = (put_x k, put_y k) ∧ cells k2 = scrolled k)).
  { rewrite Hy1, (draws_height _ _ Hd1). fold (scrolls k). unfold put_y, scrolled in *.
    destruct (scrolls k) eqn:E; simpl; [|apply wp_ret; split_and!; [done|unfold cursor; congruence|done]].
    wp_keep. apply wp_scroll_up; [done|]. intros k2 Hd2 [= Hx2 Hy2] Hc2.
    assert (draws k k2) as Hd02 by (by etrans).
    apply wp_set_cursor; [|by eapply draws_row|].
    { rewrite Hy2, Hy1. by eapply draws_row. }
    split_and!; [etrans; [exact Hd02|apply moved_draws]|unfold cursor, moved; simpl; congruence|].
    simpl. rewrite Hc2, Hc1, (draws_width _ _ Hd1). unfold blank. by rewrite (draws_colored _ _ _ Hd1). }
  intros [] k2 (Hd2 & [= Hx2 Hy2] & Hc2). wp_keep.
  rewrite Hx2, Hy2. unfold write_char_at. wp_keep.
  pose proof (draws_screen _ _ Hd2 Hs) as Hs2.
  apply wp_store_cell.
  { rewrite (cells_size _ Hs2), (draws_width _ _ Hd2), (draws_height _ _ Hd2). nia. }
  pose proof (drawn_draws (put_x k + put_y k * console_width k2) (colored c k2) k2) as Hd3.
  wp_keep. apply wp_mark_dirty; [by eapply draws_row; [exact Hd3|eapply draws_row]|].
  pose proof (dirty_draws (put_y k) (drawn (put_x k + put_y k * console_width k2) (colored c k2) k2)) as Hd4.
  set (k4 := dirty _ _) in *.
  assert (draws k k4) as Hd04 by (etrans; [exact Hd2|]; by etrans).
  apply wp_set_cursor; [|by eapply draws_row|].
  { change (cursor_y k4) with (cursor_y k2). rewrite Hy2. by eapply draws_row. }
  apply HQ; [etrans; [exact Hd04|apply moved_draws]|done|done| |done].
  unfold moved, k4, dirty, drawn. cbn [cells with_cursor with_dirty with_stomp with_cells].
  by rewrite Hc2, (draws_width _ _ Hd2), (draws_colored _ _ _ Hd2).
Qed.

(** The room behind the array that a character needs: a new line, or a
    character that wraps, marks the line below the cursor. *)
Definition is_control (c : Z) : bool := bool_decide (c ∈ [27; 13; 10; 8; 9]).
Definition is_printed (c : Z) : bool := negb (is_control c) && (c <=? 127).
Definition ground_ok (k : console) (c : Z) : bool :=
  if (c =? 10) || (is_printed c && stomp k)
  then in_bounds (line_is_dirty k) (cursor_y k + 1) else true.

Definition keeps_ok (k : console) (_ : unit) (k' : console) : Prop :=
  console_ok k' ∧ geometry k' = geometry k.

Lemma in_bounds_row k y : in_bounds (line_is_dirty k) y = true ↔ row_ok k y.
Proof. unfold in_bounds, in_array, row_ok. rewrite andb_true_iff, Z.leb_le, Z.ltb_lt. done. Qed.

Lemma console_ok_state st k : console_ok k → console_ok (with_state st k).
Proof. intros [[] ? ? ? ? ? ?]. by constructor; [constructor|..]. Qed.
Lemma console_ok_colors fg bg k :
  0 ≤ fg < 16 → 0 ≤ bg < 16 → console_ok k → console_ok (with_colors fg bg k).
Proof. intros ? ? [[] ? ? ? ? ? ?]. by constructor; [constructor|..]. Qed.
Lemma console_ok_params s k :
  Z.of_nat (length s) < PARAM_BUF_SIZE → Forall (λ c, 0 ≤ c < 256) s →
  console_ok k → console_ok (with_param_buf s k).
Proof. intros ? ? [[] ? ? ? ? ? ?]. by constructor; [constructor|..]. Qed.

Lemma wp_set_cursor_clamp x y k :
  console_ok k → row_ok k y → 0 ≤ x →
  wp (_ ← set_cursor x y; clamp_cursor) (keeps_ok k) k.
Proof.
  intros Hk Hy Hx. pose proof (ok_screen _ Hk) as Hs. wp_keep.
  apply wp_set_cursor; [apply (ok_y _ Hk)|done|].
  pose proof (moved_draws x y k) as Hd. pose proof (draws_row _ _ _ Hd Hy) as Hr.
  apply wp_clamp; [done|]. pose proof (clamped_draws (moved x y k)) as Hd2.
  assert (draws k (clamped (moved x y k))) as Hd3 by (by etrans).
  destruct (clamped_ok (moved x y k)) as [H1 H2].
  { right. split_and!; [by eapply draws_screen|done|done]. }
  split; [|apply Hd3]. eapply draws_ok; [done|exact Hd3|exact H1|].
  eapply draws_row; [symmetry; exact Hd|exact H2].
Qed.

Lemma is_printed_cases c :
  0 ≤ c < 256 → is_control c = false →
  (127 <? u32 (schar c)) = negb (is_printed c).
Proof.
  intros Hc Hn. unfold is_printed. rewrite Hn. simpl. unfold schar. rewrite u8_small by done.
  destruct (c <? 128) eqn:E; bool_to_prop.
  - rewrite u32_small by (unfold U32; lia). destruct (c <=? 127) eqn:E2; bool_to_prop; [|lia].
    simpl. apply Z.ltb_ge. lia.
  - rewrite (proj2 (Z.leb_gt c 127)) by lia. simpl. apply Z.ltb_lt. unfold u32, U32.
    rewrite (Z.mod_eq (c - 256)) by lia.
    replace ((c - 256) / 4294967296) with (-1); [lia|]. apply (Z.div_unique _ _ _ (c - 256 + 4294967296)); lia.
Qed.
Lemma is_control_false c :
  is_control c = false ↔ (c =? 27) = false ∧ (c =? 13) = false ∧ (c =? 10) = false ∧
                          (c =? 8) = false ∧ (c =? 9) = false.
Proof.
  unfold is_control. rewrite bool_decide_eq_false, !not_elem_of_cons, !Z.eqb_neq.
  split; [naive_solver|]. intros (?&?&?&?&?). split_and!; try done. apply not_elem_of_nil.
Qed.

(** A character in the ground state that is printed. *)
Lemma handle_ground_printed c k (Q : unit → console → Prop) :
  0 ≤ c < 256 → is_printed c = true →
  wp (_ ← put_char c; clamp_cursor) Q k → wp (handle_ground c) Q k.
Proof.
  intros Hc Hp HQ. assert (is_control c = false) as Hn.
  { unfold is_printed in Hp. by destruct (is_control c). }
  pose proof Hn as (E1&E2&E3&E4&E5)%is_control_false. unfold handle_ground. apply wp_bind, wp_get.
  by rewrite E1, E2, E3, E4, E5, is_printed_cases, Hp by done.
Qed.

Lemma round_up_nonneg x a : 0 ≤ round_up x a.
Proof. unfold round_up. apply Z.land_nonneg. left. apply u32_range. Qed.

Lemma handle_ground_safe c k :
  console_ok k → 0 ≤ c < 256 → ground_ok k c = true →
  wp (handle_ground c) (keeps_ok k) k.
Proof.
  intros Hk Hc Hg. pose proof (ok_screen _ Hk) as Hs. pose proof (ok_x _ Hk) as Hx.
  pose proof (ok_y _ Hk) as Hy. unfold ground_ok in Hg.
  destruct (is_printed c) eqn:Hp.
  { apply handle_ground_printed; [done|done|]. wp_keep.
    assert (row_ok k (line_after_stomp k)) as Hrow.
    { unfold line_after_stomp. destruct (stomp k) eqn:E; [|done].
      apply in_bounds_row. by destruct (c =? 10). }
    apply wp_put_char; [done|done|]. intros k1 Hd [= Hx1 Hy1] _ _ (Hpx & Hpy & Hr).
    assert (row_ok k1 (cursor_y k1)) as Hr1 by (rewrite Hy1; by eapply draws_row).
    apply wp_clamp; [done|]. pose proof (clamped_draws k1) as Hd2.
    assert (draws k (clamped k1)) as Hd3 by (by etrans).
    destruct (clamped_ok k1) as [H1 H2].
    { right. split_and!; [by eapply draws_screen|done|lia]. }
    split; [|apply Hd3]. eapply draws_ok; [done|exact Hd3|by rewrite <-(draws_width _ _ Hd)|].
    eapply draws_row; [symmetry; exact Hd|exact H2]. }
  unfold handle_ground. apply wp_bind, wp_get.
  destruct (c =? 27) eqn:E1. { wp_keep. split; [by apply console_ok_state|done]. }
  destruct (c =? 13) eqn:E2. { apply wp_set_cursor_clamp; [done|done|lia]. }
  destruct (c =? 10) eqn:E3.
  { apply wp_set_cursor_clamp; [done|by apply in_bounds_row|lia]. }
  destruct (c =? 8) eqn:E4.
  { destruct (0 <? cursor_x k) eqn:E; simpl; bool_to_prop.
    - apply (wp_set_cursor_clamp (cursor_x k - 1) (cursor_y k)); [done|done|lia].
    - wp_keep. apply wp_clamp; [done|]. destruct (clamped_ok k (or_introl Hk)).
      split; [|apply clamped_draws]. eapply draws_ok; [done|apply clamped_draws|done|done]. }
  destruct (c =? 9) eqn:E5. { apply wp_set_cursor_clamp; [done|done|apply round_up_nonneg]. }
  rewrite is_printed_cases, Hp; [|done|by apply is_control_false]. simpl. wp_keep. by split.
Qed.

(** ** Control sequences keep the console well formed *)

Lemma atoi_str_run {S} s (st : S) :
  Forall (λ c, c ≠ 0) s → Forall (λ c, 0 ≤ c < 256) s → number_of s ≤ INT_MAX →
  atoi_str s st = Done (number_of s) st.
Proof.
  intros H0 Hb Hn. unfold atoi_str. rewrite (atoi_run (s ++ [0]) 0 s); [done| |done|done].
  by apply (cstr_here [] s []).
Qed.
Lemma number_of_nonneg s : 0 ≤ number_of s.
Proof.
  unfold number_of, decimal. apply decimal_mono; [lia|].
  eapply Forall_impl; [apply span_Forall|]. cbv beta. unfold isdigit. intros c Hc. bool_to_prop. lia.
Qed.
Lemma params_nonzero k : Forall (λ c, c ≠ 0) (params k).
Proof.
  eapply Forall_impl; [apply span_Forall|]. cbv beta. intros c Hc. bool_to_prop. done.
Qed.
Lemma span_prefix_Forall (P : Z → Prop) f s : Forall P s → Forall P (span f s).1.
Proof. intros H. rewrite <-(span_app f s) in H. by apply Forall_app in H as [? _]. Qed.
Lemma params_bytes k : console_ok k → Forall (λ c, 0 ≤ c < 256) (params k).
Proof. intros Hk. apply span_prefix_Forall, (ok_bytes _ Hk). Qed.
Lemma split_aux_Forall (P : Z → Prop) f cur s :
  Forall P cur → Forall P s → Forall (Forall P) (split_aux f cur s).
Proof.
  intros Hc Hs. revert cur Hc. induction Hs as [|c s Hcs Hs IH]; intros cur Hc; simpl.
  - destruct cur; [by apply Forall_nil|]. apply Forall_cons; split; [done|by apply Forall_nil].
  - destruct (f c).
    + destruct cur; [by apply IH|]. constructor; [done|]. by apply IH.
    + apply IH. apply Forall_app. by repeat constructor.
Qed.
Lemma split_Forall (P : Z → Prop) sep s : Forall P s → Forall (Forall P) (split sep s).
Proof. intros. by apply split_aux_Forall. Qed.

(** A number a handler reads has to fit an [int]; the calls that erase need the
    cursor on the screen. *)
Definition fits (s : list Z) : bool := number_of s <=? INT_MAX.
Definition semicolons (s : list Z) : list (list Z) := split (lit ";") s.
Definition csi_ok (k : console) (c : Z) : bool :=
  let p := params k in
  if (c =? ch "A") || (c =? ch "B") || (c =? ch "C") || (c =? ch "D") || (c =? ch "G") then fits p
  else if c =? ch "H" then forallb fits (take 2 (semicolons p))
  else if (c =? ch "J") || (c =? ch "K") then fits p && (cursor_y k <? console_height k)
  else if c =? ch "m" then forallb fits (semicolons p)
  else true.

(** What a handler of a final byte does to a well-formed console. *)
Definition handled (k : console) (_ : unit) (k' : console) : Prop :=
  console_ok k' ∧ geometry k' = geometry k ∧ state k' = state k ∧ param_buf k' = param_buf k.

Lemma handled_draws k k' :
  console_ok k → draws k k' → 0 ≤ cursor_x k' < console_width k → row_ok k (cursor_y k') →
  handled k tt k'.
Proof.
  intros Hk Hd Hx Hy. split; [by eapply draws_ok|]. destruct Hd as [Hg [= Hs Hp _ _]]. done.
Qed.
Lemma wp_set_cursor_handled x y k :
  console_ok k → 0 ≤ x < console_width k → row_ok k y →
  wp (set_cursor x y) (handled k) k.
Proof.
  intros Hk Hx Hy. apply wp_set_cursor; [apply (ok_y _ Hk)|done|].
  apply handled_draws; [done|apply moved_draws|done|done].
Qed.
Lemma row_below k y : screen_ok k → 0 ≤ y < console_height k → row_ok k y.
Proof. intros Hs Hy. pose proof (dirty_size _ Hs). split; lia. Qed.
Lemma row_above k y : console_ok k → 0 ≤ y ≤ cursor_y k → row_ok k y.
Proof. intros Hk Hy. pose proof (ok_y _ Hk) as []. split; lia. Qed.

Lemma wp_number s k (Q : Z → console → Prop) :
  Forall (λ c, c ≠ 0) s → Forall (λ c, 0 ≤ c < 256) s → fits s = true →
  (0 ≤ number_of s ≤ INT_MAX → Q (number_of s) k) → wp (atoi_str s) Q k.
Proof.
  intros H0 Hb Hf HQ. unfold fits in Hf. bool_to_prop. eapply wp_run; [by apply atoi_str_run|].
  apply HQ. split; [apply number_of_nonneg|done].
Qed.
Lemma wp_count k (Q : Z → console → Prop) :
  console_ok k → fits (params k) = true →
  (∀ n, 1 ≤ n ≤ INT_MAX → n = Z.max 1 (number_of (params k)) → Q n k) → wp count_param Q k.
Proof.
  intros Hk Hf HQ. unfold count_param. wp_keep.
  apply wp_number; [apply params_nonzero|by apply params_bytes|done|]. intros Hn. wp_keep.
  destruct (number_of (params k) =? 0) eqn:E; bool_to_prop; apply HQ; unfold INT_MAX in *; lia.
Qed.

Lemma move_safe k :
  console_ok k → fits (params k) = true →
  wp handle_csi_cuu (handled k) k ∧ wp handle_csi_cud (handled k) k ∧
  wp handle_csi_cuf (handled k) k ∧ wp handle_csi_cub (handled k) k ∧
  wp handle_csi_cha (handled k) k.
Proof.
  intros Hk Hf. pose proof (ok_screen _ Hk) as Hs. pose proof (ok_x _ Hk) as Hx.
  pose proof (ok_y _ Hk) as Hy. pose proof (width_pos _ Hs). pose proof (height_pos _ Hs).
  pose proof Hy as [Hy0 _].
  unfold handle_csi_cuu, handle_csi_cud, handle_csi_cuf, handle_csi_cub, handle_csi_cha.
  split_and!; wp_keep.
  1-4: apply wp_count; [done|done|]; intros n Hn _; wp_keep; wp_step; bool_to_prop.
  - apply wp_set_cursor_handled; [done|lia|]. apply row_above; [done|lia].
  - apply wp_set_cursor_handled; [done|lia|]. apply row_above; [done|lia].
  - apply wp_set_cursor_handled; [done|lia|]. apply row_below; [done|lia].
  - apply wp_set_cursor_handled; [done|lia|]. pose proof (u32_range (n + cursor_y k)).
    apply row_below; [done|]. rewrite (Z.add_comm (cursor_y k)). lia.
  - apply wp_set_cursor_handled; [done|lia|done].
  - pose proof (u32_range (n + cursor_x k)).
    apply wp_set_cursor_handled; [done|rewrite (Z.add_comm (cursor_x k)); lia|done].
  - apply wp_set_cursor_handled; [done|lia|done].
  - apply wp_set_cursor_handled; [done|lia|done].
  - apply wp_number; [apply params_nonzero|by apply params_bytes|done|]. intros Hn.
    apply wp_set_cursor_handled; [done| |done]. unfold at_most, zero_based.
    repeat case_match; bool_to_prop; lia.
Qed.

Lemma cup_loop_safe k tokens i x y (Q : Z * Z → console → Prop) :
  Forall (Forall (λ c, c ≠ 0)) tokens → Forall (Forall (λ c, 0 ≤ c < 256)) tokens →
  forallb fits (take (2 - i) tokens) = true → 0 ≤ x → 0 ≤ y →
  (∀ x' y', 0 ≤ x' → 0 ≤ y' → Q (x', y') k) → wp (cup_loop i tokens x y) Q k.
Proof.
  intros H0 Hb. revert i x y. induction tokens as [|t ts IH]; intros i x y Hf Hx Hy HQ.
  { by apply wp_ret, HQ. }
  inversion_clear H0 as [|? ? H0t H0s]. inversion_clear Hb as [|? ? Hbt Hbs].
  assert (∀ n, 0 ≤ n → 0 ≤ zero_based n) as Hz.
  { intros n Hn. unfold zero_based. case_match; bool_to_prop; lia. }
  destruct i as [|[|i]]; simpl in *.
  - apply andb_true_iff in Hf as [Hft Hfs]. wp_keep. apply wp_number; [done|done|done|]. intros Hn.
    apply (IH H0s Hbs 1%nat); [done|done|apply Hz; lia|done].
  - apply andb_true_iff in Hf as [Hft Hfs]. wp_keep. apply wp_number; [done|done|done|]. intros Hn.
    apply (IH H0s Hbs 2%nat); [done|apply Hz; lia|done|done].
  - by apply (IH H0s Hbs (S (S (S i)))).
Qed.

Lemma tokens_ok k :
  console_ok k → Forall (Forall (λ c, c ≠ 0)) (semicolons (params k)) ∧
                 Forall (Forall (λ c, 0 ≤ c < 256)) (semicolons (params k)).
Proof. intros Hk. split; apply split_Forall; [apply params_nonzero|by apply params_bytes]. Qed.
Lemma strtok_params {S} k (st : S) :
  strtok_all (params k) (lit ";") st = Done (semicolons (params k)) st.
Proof. apply strtok_all_spec; [apply params_nonzero|repeat constructor; discriminate]. Qed.

Lemma cup_safe k :
  console_ok k → forallb fits (take 2 (semicolons (params k))) = true →
  wp handle_csi_cup (handled k) k.
Proof.
  intros Hk Hf. pose proof (ok_screen _ Hk) as Hs. pose proof (width_pos _ Hs).
  pose proof (height_pos _ Hs). destruct (tokens_ok k Hk) as [Ht Hb].
  unfold handle_csi_cup. wp_keep. eapply wp_run; [apply strtok_params|]. wp_keep.
  apply cup_loop_safe; [done|done|done|lia|lia|]. intros x y Hx Hy.
  apply wp_set_cursor_handled; [done| |apply row_below; [done|]];
    unfold at_most; case_match; bool_to_prop; lia.
Qed.

Lemma cleared_handled x y n k :
  console_ok k → draws k (cleared x y n k) → handled k tt (cleared x y n k).
Proof. intros Hk Hd. by apply handled_draws; [|apply Hd|apply (ok_x _ Hk)|apply (ok_y _ Hk)]. Qed.

Lemma el_safe k :
  console_ok k → fits (params k) = true → cursor_y k < console_height k →
  wp handle_csi_el (handled k) k.
Proof.
  intros Hk Hf Hc. pose proof (ok_screen _ Hk) as Hs. pose proof (ok_x _ Hk) as Hx.
  pose proof (ok_y _ Hk) as [Hy _]. unfold handle_csi_el. wp_keep.
  apply wp_number; [apply params_nonzero|by apply params_bytes|done|]. intros _.
  pose proof (Z.mod_le (console_width k - cursor_x k) U32 ltac:(lia) ltac:(done)) as Hle.
  pose proof (u32_range (console_width k - cursor_x k)). unfold u32 in *.
  repeat (wp_step; bool_to_prop).
  1-3: apply wp_clear_line; [done|lia|lia|lia|lia|]; intros; by apply cleared_handled.
  split_and!; done.
Qed.

Lemma ed_safe k :
  console_ok k → fits (params k) = true → cursor_y k < console_height k →
  wp handle_csi_ed (handled k) k.
Proof.
  intros Hk Hf Hc. pose proof (ok_screen _ Hk) as Hs. pose proof (ok_x _ Hk) as Hx.
  pose proof (ok_y _ Hk) as [Hy _]. unfold handle_csi_ed. wp_keep.
  apply wp_number; [apply params_nonzero|by apply params_bytes|done|]. intros _.
  pose proof (Z.mod_le (console_width k - cursor_x k) U32 ltac:(lia) ltac:(done)) as Hle.
  pose proof (u32_range (console_width k - cursor_x k)). unfold u32 in *.
  assert (∀ k', draws k k' → cursor k' = cursor k → handled k tt k') as Hdraw.
  { intros k' Hd [= Hcx Hcy]. apply handled_draws; [done|done|by rewrite Hcx|].
    rewrite Hcy. apply (ok_y _ Hk). }
  repeat (wp_step; bool_to_prop).
  - apply wp_clear_line; [done|lia|lia|lia|lia|]. intros Hd.
    apply wp_clear_lines; [by eapply draws_screen|lia|rewrite (draws_height _ _ Hd); lia|].
    intros k' Hd' Hc'. apply Hdraw; [by etrans|done].
  - apply wp_clear_lines; [done|lia|lia|]. intros k' Hd' Hc'. pose proof (draws_screen _ _ Hd' Hs).
    apply wp_clear_line; [done|lia|lia|rewrite (draws_width _ _ Hd'); lia
      |rewrite (draws_height _ _ Hd'); lia|]. intros Hd2. apply Hdraw; [by etrans|done].
  - apply wp_clear_line; [done|lia|lia|lia|lia|]. intros. by apply cleared_handled.
  - unfold clear_screen. wp_keep. apply wp_clear_lines; [done|lia|lia|]. intros k' Hd' Hc'. wp_keep.
    destruct (Hdraw k' Hd' Hc') as (Hok & Hg & Hst & Hp). split; [|done].
    destruct Hok as [[] ? ? ? ? ? ?]. by constructor; [constructor|..].
  - split_and!; done.
Qed.

Lemma handled_colors fg bg k :
  0 ≤ fg < 16 → 0 ≤ bg < 16 → console_ok k → handled k tt (with_colors fg bg k).
Proof. intros. split_and!; [by apply console_ok_colors|done..]. Qed.
Lemma handled_trans k k1 k2 : handled k tt k1 → handled k1 tt k2 → handled k tt k2.
Proof. unfold handled. intros (_&->&->&->) (?&?&?&?). done. Qed.

Lemma sgr_step_safe num bold k :
  console_ok k → wp (sgr_step num bold) (λ _, handled k tt) k.
Proof.
  intros Hk. pose proof (ok_fg _ Hk) as Hf. pose proof (ok_bg _ Hk) as Hb.
  assert (handled k tt k) as Hkk by by split_and!.
  unfold sgr_step, DEFAULT_FG_COLOR, DEFAULT_BG_COLOR, between. apply wp_bind, wp_get.
  repeat (wp_step; bool_to_prop); try (apply wp_modify, wp_ret);
    try exact Hkk; apply handled_colors; try done; try lia.
  all: destruct bold; rewrite u8_small by lia; lia.
Qed.
Lemma sgr_loop_safe tokens bold k :
  Forall (Forall (λ c, c ≠ 0)) tokens → Forall (Forall (λ c, 0 ≤ c < 256)) tokens →
  forallb fits tokens = true → console_ok k → wp (sgr_loop tokens bold) (handled k) k.
Proof.
  intros H0 Hb. revert bold k.
  induction tokens as [|t ts IH]; intros bold k Hf Hk; cbn [sgr_loop]; [by apply wp_ret; split_and!|].
  inversion_clear H0 as [|? ? H0t H0s]. inversion_clear Hb as [|? ? Hbt Hbs].
  simpl in Hf. apply andb_true_iff in Hf as [Hft Hfs].
  wp_keep. apply wp_number; [done|done|done|]. intros _. wp_keep.
  eapply wp_mono; [by apply sgr_step_safe|]. intros b k1 H1. cbv beta in *.
  eapply wp_mono; [apply IH; [done|done|done|apply H1]|]. intros [] k2 H2. by eapply handled_trans.
Qed.
Lemma sgr_safe k :
  console_ok k → forallb fits (semicolons (params k)) = true → wp handle_csi_sgr (handled k) k.
Proof.
  intros Hk Hf. unfold handle_csi_sgr. wp_keep. destruct (tokens_ok k Hk) as [Ht Hb].
  case_bool_decide.
  - wp_keep. by apply handled_colors.
  - wp_keep. eapply wp_run; [apply strtok_params|]. by apply sgr_loop_safe.
Qed.
Lemma dectcem_safe c k : console_ok k → wp (handle_csi_dectcem c) (handled k) k.
Proof.
  intros Hk. unfold handle_csi_dectcem. wp_keep.
  assert (∀ b, handled k tt (dirty (cursor_y k) (with_visible b k))) as Hv.
  { intros b. apply handled_draws; [done| |apply (ok_x _ Hk)|apply (ok_y _ Hk)].
    apply (dirty_draws (cursor_y k) (with_visible b k)). }
  wp_step; [by split_and!|]. wp_step; [|wp_step]; wp_keep; [..|by split_and!].
  - apply wp_mark_dirty; [apply (ok_y _ Hk)|apply Hv].
  - apply wp_mark_dirty; [apply (ok_y _ Hk)|apply Hv].
Qed.

Lemma csi_safe k c : console_ok k → csi_ok k c = true → wp (csi_dispatch c) (handled k) k.
Proof.
  intros Hk Hc. unfold csi_ok in Hc. unfold csi_dispatch.
  destruct (c =? ch "A") eqn:EA; [simpl in Hc; by apply move_safe|].
  destruct (c =? ch "B") eqn:EB; [simpl in Hc; by apply move_safe|].
  destruct (c =? ch "C") eqn:EC; [simpl in Hc; by apply move_safe|].
  destruct (c =? ch "D") eqn:ED; [simpl in Hc; by apply move_safe|].
  destruct (c =? ch "G") eqn:EG; [simpl in Hc; by apply move_safe|]. simpl in Hc.
  destruct (c =? ch "H") eqn:EH; [by apply cup_safe|].
  destruct (c =? ch "J") eqn:EJ; [|destruct (c =? ch "K") eqn:EK]; simpl in Hc.
  - bool_to_prop. by apply ed_safe.
  - bool_to_prop. by apply el_safe.
  - destruct (c =? ch "m") eqn:Em; [by apply sgr_safe|].
    destruct ((c =? ch "h") || (c =? ch "l")); [by apply dectcem_safe|]. by apply wp_ret; split_and!.
Qed.

(** What the code relies on when it gets a character. *)
Definition char_ok (k : console) (c : Z) : bool :=
  match state k with
  | STATE_GROUND => ground_ok k c
  | STATE_ESC => (c =? ch "[") || ground_ok k c
  | STATE_CSI => if schar c <? 64 then Z.of_nat (length (param_buf k)) + 1 <? PARAM_BUF_SIZE
                 else csi_ok k c
  end.

Lemma on_char_wp k c :
  console_ok k → 0 ≤ c < 256 → char_ok k c = true → wp (on_char c) (keeps_ok k) k.
Proof.
  intros Hk Hc Hok. unfold char_ok in Hok. unfold on_char. apply wp_bind, wp_get.
  destruct (state k) eqn:Est.
  - by apply handle_ground_safe.
  - unfold handle_state_esc. destruct (c =? ch "[") eqn:E; simpl in Hok.
    + wp_keep. split; [|done]. by apply console_ok_state, console_ok_params.
    + wp_keep. apply (handle_ground_safe c (with_state STATE_GROUND k));
        [by apply console_ok_state|done|exact Hok].
  - unfold handle_state_csi. wp_keep. pose proof (ok_params _ Hk) as Hp.
    rewrite (proj2 (Z.ltb_lt _ _)) by done. simpl.
    destruct (schar c <? 64) eqn:E.
    + bool_to_prop. wp_keep. split; [|done]. apply console_ok_params; [|apply Forall_app; split;
        [apply (ok_bytes _ Hk)|by apply Forall_singleton]|done]. rewrite length_app. simpl. lia.
    + wp_keep. eapply wp_mono; [by apply csi_safe|]. intros [] k' (Hok' & Hg & _). wp_keep.
      split; [by apply console_ok_state|done].
Qed.

(** ** Functional behaviour *)

(** Changes of state that only move the cursor or draw do not leave the ground
    state. *)
Lemma draws_state k k' : draws k k' → state k' = state k.
Proof. by intros [_ [= -> _ _ _]]. Qed.

(** One printed character, in all cases. *)
Lemma on_char_printed c k (Q : unit → console → Prop) :
  console_ok k → state k = STATE_GROUND → 0 ≤ c < 256 → is_printed c = true →
  row_ok k (line_after_stomp k) →
  (∀ k', console_ok k' → draws k k' →
     cursor k' = (Z.min (put_x k + 1) (console_width k - 1), put_y k) →
     stomp k' = (console_width k <=? put_x k + 1) →
     cells k' = <[Z.to_nat (put_x k + put_y k * console_width k) := colored c k]> (scrolled k) →
     Q tt k') →
  wp (on_char c) Q k.
Proof.
  intros Hk Hst Hc Hp Hrow HQ. pose proof (ok_screen _ Hk) as Hs. pose proof (width_pos _ Hs) as Hw.
  unfold on_char. apply wp_bind, wp_get. rewrite Hst.
  apply handle_ground_printed; [done|done|]. wp_keep. apply wp_put_char; [done|done|].
  intros k1 Hd [= Hx Hy] Hst1 Hcs (Hpx & Hpy & Hr).
  apply wp_clamp; [rewrite Hy; by eapply draws_row|].
  pose proof (clamped_draws k1) as Hd2. assert (draws k (clamped k1)) as Hd3 by (by etrans).
  destruct (clamped_cursor k1) as (Hcc & Hcl & Hcs2); [by rewrite (draws_width _ _ Hd)|].
  rewrite Hx, Hy, (draws_width _ _ Hd) in Hcc. pose proof Hcc as [= Hcx Hcy].
  apply HQ; [|done|done| |by rewrite Hcl].
  - eapply draws_ok; [done|done|rewrite Hcx; lia|by rewrite Hcy].
  - by rewrite Hcs2, Hst1, Hx, (draws_width _ _ Hd), orb_false_r.
Qed.

Lemma on_chars_cons c s k (Q : unit → console → Prop) :
  wp (on_char c) (λ _ k', wp (on_chars s) Q k') k → wp (on_chars (c :: s)) Q k.
Proof. intros H. cbn [on_chars]. by apply wp_bind. Qed.

(** Text that fits behind the cursor appears there, in the current colours,
    and nothing else changes on the screen. *)
Lemma on_chars_text s k :
  console_ok k → state k = STATE_GROUND → stomp k = false → s ≠ [] →
  cursor_y k < console_height k → Forall (λ c, 0 ≤ c < 256 ∧ is_printed c = true) s →
  cursor_x k + Z.of_nat (length s) ≤ console_width k →
  wp (on_chars s) (λ _ k', console_ok k' ∧ draws k k' ∧
    cells k' = splice (Z.to_nat (cursor_x k + cursor_y k * console_width k))
                 ((λ c, colored c k) <$> s) (cells k) ∧
    cursor k' = (Z.min (cursor_x k + Z.of_nat (length s)) (console_width k - 1), cursor_y k) ∧
    stomp k' = (console_width k <=? cursor_x k + Z.of_nat (length s))) k.
Proof.
  intros Hk Hst Hsp Hne Hy HF Hfit. revert k Hk Hst Hsp Hy Hfit.
  induction HF as [|c s [Hc Hp] HF IH]; [done|]. clear Hne. intros k Hk Hst Hsp Hy Hfit.
  simpl length in *. pose proof (ok_screen _ Hk) as Hs. pose proof (ok_x _ Hk) as Hx.
  pose proof (ok_y _ Hk) as Hrow. pose proof Hrow as [Hy0 _].
  assert (put_x k = cursor_x k) as Epx by (unfold put_x; by rewrite Hsp).
  assert (line_after_stomp k = cursor_y k) as Els by (unfold line_after_stomp; by rewrite Hsp).
  assert (scrolls k = false) as Esc by (unfold scrolls; rewrite Els; apply Z.leb_gt; lia).
  assert (put_y k = cursor_y k) as Epy by (unfold put_y; by rewrite Esc).
  set (i := cursor_x k + cursor_y k * console_width k).
  assert (0 ≤ i < Z.of_nat (length (cells k))) as Hi.
  { unfold i. rewrite (cells_size _ Hs). nia. }
  apply on_chars_cons, on_char_printed; [done|done|done|done|by rewrite Els|].
  rewrite Epx, Epy. fold i. unfold scrolled. rewrite Esc.
  intros k1 Hk1 Hd1 [= Hx1 Hy1] Hst1 Hcs1.
  destruct s as [|c' s'].
  { simpl. wp_keep. split_and!; [done|done| |unfold cursor; rewrite Hx1, Hy1; by f_equal|done].
    rewrite Hcs1, <-insert_splice by lia. by rewrite splice_nil. }
  simpl length in *.
  rewrite (proj2 (Z.leb_gt _ _)) in Hst1 by lia.
  eapply wp_mono; [apply IH; [done|done|by rewrite (draws_state _ _ Hd1)|done
    |by rewrite Hy1, (draws_height _ _ Hd1)|rewrite Hx1, (draws_width _ _ Hd1); lia]|].
  cbv beta. intros [] k2 (Hk2 & Hd2 & Hcs2 & Hcur2 & Hst2).
  assert (draws k k2) as Hd02 by (by etrans).
  rewrite Hx1, Hy1, (draws_width _ _ Hd1) in *.
  rewrite Z.min_l in * by lia.
  split_and!; [done|done| |rewrite Hcur2; f_equal; f_equal; lia|rewrite Hst2; f_equal; lia].
  rewrite Hcs2, Hcs1.
  rewrite (list_fmap_ext _ (λ c, colored c k) _) by (intros; by apply draws_colored).
  replace (cursor_x k + 1 + cursor_y k * console_width k) with (i + 1) by (unfold i; lia).
  rewrite Z2Nat.inj_add, Nat.add_1_r by lia. rewrite insert_splice by lia. done.
Qed.

(** New lines below the screen only move the cursor. *)
Lemma on_chars_newlines n k (Q : unit → console → Prop) :
  console_ok k → state k = STATE_GROUND → stomp k = false →
  row_ok k (cursor_y k + Z.of_nat n) →
  (∀ k', console_ok k' → draws k k' → cells k' = cells k → stomp k' = false →
     cursor k' = (if (n =? 0)%nat then cursor_x k else 0, cursor_y k + Z.of_nat n) → Q tt k') →
  wp (on_chars (replicate n 10)) Q k.
Proof.
  revert k. induction n as [|n IH]; intros k Hk Hst Hsp Hrow HQ; cbn [replicate].
  { apply wp_ret. apply HQ; try done. unfold cursor. simpl. f_equal. lia. }
  pose proof (ok_screen _ Hk) as Hs. pose proof (width_pos _ Hs) as Hw. pose proof (ok_y _ Hk) as [Hy0 Hy1].
  assert (row_ok k (cursor_y k + 1)) as Hrow1 by (destruct Hrow; split; lia).
  apply on_chars_cons. unfold on_char. apply wp_bind, wp_get. rewrite Hst.
  unfold handle_ground. apply wp_bind, wp_get. cbn [Z.eqb Pos.eqb]. wp_keep.
  apply wp_set_cursor; [apply (ok_y _ Hk)|done|].
  pose proof (moved_draws 0 (cursor_y k + 1) k) as Hd. set (k1 := moved _ _ k) in *.
  apply wp_clamp; [by eapply draws_row|].
  assert (clamped k1 = k1) as ->.
  { unfold clamped. by rewrite (draws_width _ _ Hd), (proj2 (Z.leb_gt _ _)) by (simpl; lia). }
  assert (console_ok k1) as Hk1 by (eapply draws_ok; [done|done|simpl; lia|done]).
  apply IH; [done|by rewrite (draws_state _ _ Hd)|done| |].
  { eapply draws_row; [done|]. simpl. destruct Hrow. split; lia. }
  intros k2 Hk2 Hd2 Hc2 Hs2 Hcur2. apply HQ; [done|by etrans|by rewrite Hc2|done|].
  rewrite Hcur2. simpl. f_equal; [by case_match|lia].
Qed.

(** Parameter bytes are collected. *)
Lemma on_chars_params s k (Q : unit → console → Prop) :
  state k = STATE_CSI → Forall (λ c, schar c < 64) s →
  Z.of_nat (length (param_buf k)) + Z.of_nat (length s) ≤ PARAM_BUF_SIZE →
  Q tt (with_param_buf (param_buf k ++ s) k) → wp (on_chars s) Q k.
Proof.
  intros Hst HF. revert k Hst. induction HF as [|c s Hc HF IH]; intros k Hst Hl HQ.
  { rewrite app_nil_r in HQ. apply wp_ret. by destruct k. }
  simpl length in Hl. apply on_chars_cons. unfold on_char. apply wp_bind, wp_get. rewrite Hst.
  unfold handle_state_csi. wp_keep. rewrite (proj2 (Z.ltb_lt _ _)), (proj2 (Z.ltb_lt (schar c) _)) by lia.
  simpl negb. cbv iota. wp_keep. apply IH; [done|simpl; rewrite length_app; simpl; lia|].
  simpl param_buf. by rewrite <-app_assoc.
Qed.

Lemma on_chars_app s t k (Q : unit → console → Prop) :
  wp (on_chars s) (λ _ k', wp (on_chars t) Q k') k → wp (on_chars (s ++ t)) Q k.
Proof.
  revert k. induction s as [|c s IH]; intros k H; [done|]. simpl app. cbn [on_chars] in *.
  unfold wp, mbind, K_bind in *. destruct (on_char c k) as [[] k1| | |]; [|done..]. by apply IH.
Qed.

(** A whole control sequence: its handler runs on the collected parameters. *)
Definition csi (s : list Z) (c : Z) : list Z := [27; ch "["] ++ s ++ [c].
Lemma on_chars_csi s c k (Q : unit → console → Prop) :
  state k = STATE_GROUND → Forall (λ c, schar c < 64) s → Z.of_nat (length s) < PARAM_BUF_SIZE →
  64 ≤ schar c →
  wp (csi_dispatch c) (λ _ k', Q tt (with_state STATE_GROUND k'))
     (with_state STATE_CSI (with_param_buf s k)) →
  wp (on_chars (csi s c)) Q k.
Proof.
  intros Hst HF Hl Hc HQ. unfold csi. apply on_chars_app. apply on_chars_cons.
  unfold on_char at 1. apply wp_bind, wp_get. rewrite Hst. apply wp_bind, wp_get.
  cbn [Z.eqb Pos.eqb]. wp_keep. apply on_chars_cons. unfold on_char at 1. wp_keep.
  cbn [state with_state]. unfold handle_state_esc. simpl (ch "[" =? ch "["). cbv iota. wp_keep.
  apply on_chars_app. apply on_chars_params; [done|done|cbn [param_buf with_state with_param_buf length]; lia|].
  cbn [param_buf with_state with_param_buf app]. apply on_chars_cons.
  unfold on_char. wp_keep. cbn [state with_state with_param_buf]. unfold handle_state_csi. wp_keep.
  cbn [param_buf with_param_buf]. rewrite (proj2 (Z.ltb_lt _ _)), (proj2 (Z.ltb_ge (schar c) _)) by lia.
  simpl negb. cbv iota. wp_keep. eapply wp_mono; [exact HQ|]. intros [] k' H. cbv beta. wp_keep. exact H.
Qed.

Lemma span_all f s : Forall (λ c, f c = true) s → span f s = (s, []).
Proof. induction 1 as [|c s Hc _ IH]; [done|]. simpl. by rewrite Hc, IH. Qed.
Lemma split_piece f cur d c s :
  Forall (λ c, f c = false) d → f c = true → cur ++ d ≠ [] →
  split_aux f cur (d ++ c :: s) = (cur ++ d) :: split_aux f [] s.
Proof.
  intros Hd Hc. revert cur. induction Hd as [|x d Hx Hd IH]; intros cur Hne; simpl.
  - rewrite Hc. rewrite app_nil_r in *. by destruct cur.
  - rewrite Hx, IH by (by destruct cur). by rewrite <-app_assoc.
Qed.
Lemma split_last f cur d :
  Forall (λ c, f c = false) d → cur ++ d ≠ [] → split_aux f cur d = [cur ++ d].
Proof.
  intros Hd. revert cur. induction Hd as [|x d Hx Hd IH]; intros cur Hne; simpl.
  - rewrite app_nil_r in *. by destruct cur.
  - rewrite Hx, IH by (by destruct cur). by rewrite <-app_assoc.
Qed.

Definition digits (s : list Z) : Prop := s ≠ [] ∧ Forall (λ c, ch "0" ≤ c ≤ ch "9") s.
Lemma digits_low s : digits s → Forall (λ c, schar c < 64) s ∧ Forall (λ c, negb (c =? 0) = true) s ∧
  Forall (λ c, 0 ≤ c < 256) s ∧ Forall (λ c, is_sep (lit ";") c = false) s.
Proof.
  intros [_ H]. change (ch "0") with 48 in H. change (ch "9") with 57 in H.
  split_and!; (eapply Forall_impl; [exact H|]; cbv beta; intros c Hc).
  - unfold schar. rewrite u8_small by lia. case_match; bool_to_prop; lia.
  - apply negb_true_iff, Z.eqb_neq. lia.
  - lia.
  - assert (c ≠ 59) by lia. change (lit ";") with [59]. unfold is_sep.
    cbn [existsb]. rewrite orb_false_r. change (schar 59) with 59. apply Z.eqb_neq.
    unfold schar. rewrite u8_small by lia. case_match; bool_to_prop; lia.
Qed.

(** Cursor Position with a line and a column. *)
Lemma cursor_position row col k :
  console_ok k → state k = STATE_GROUND → digits row → digits col →
  decimal row ≤ INT_MAX → decimal col ≤ INT_MAX →
  Z.of_nat (length row + length col) < 1023 →
  wp (on_chars (csi (row ++ lit ";" ++ col) (ch "H"))) (λ _ k',
    console_ok k' ∧ state k' = STATE_GROUND ∧ cells k' = cells k ∧ stomp k' = false ∧
    cursor k' = (Z.min (Z.max 0 (decimal col - 1)) (console_width k - 1),
                 Z.min (Z.max 0 (decimal row - 1)) (console_height k - 1))) k.
Proof.
  intros Hk Hst Hr Hc Hrm Hcm Hl.
  destruct (digits_low _ Hr) as (Hr1 & Hr2 & Hr3 & Hr4).
  destruct (digits_low _ Hc) as (Hc1 & Hc2 & Hc3 & Hc4). destruct Hr as [Hrn Hrd], Hc as [Hcn Hcd].
  set (s := row ++ lit ";" ++ col). assert (s = row ++ 59 :: col) as Hs by done.
  pose proof (ok_screen _ Hk) as Hsc. pose proof (width_pos _ Hsc). pose proof (height_pos _ Hsc).
  assert (length s = S (length row + length col))%nat as Hls by (rewrite Hs, length_app; simpl; lia).
  assert (Forall (λ c, schar c < 64) s) as H1.
  { rewrite Hs. apply Forall_app; split; [done|]. by apply Forall_cons. }
  assert (Forall (λ c, 0 ≤ c < 256) s) as H2.
  { rewrite Hs. apply Forall_app; split; [done|]. by apply Forall_cons. }
  apply on_chars_csi; [done|done|rewrite Hls; unfold PARAM_BUF_SIZE; lia|done|].
  set (k1 := with_state STATE_CSI (with_param_buf s k)).
  assert (console_ok k1) as Hk1.
  { apply console_ok_state, console_ok_params; [rewrite Hls; unfold PARAM_BUF_SIZE; lia|done|done]. }
  assert (params k1 = s) as Hp.
  { unfold params. cbn [param_buf k1 with_state with_param_buf]. rewrite span_all; [done|].
    rewrite Hs. apply Forall_app; split; [done|]. by apply Forall_cons. }
  assert (semicolons s = [row; col]) as Htok.
  { unfold semicolons, split. rewrite Hs, split_piece by done. by rewrite split_last. }
  change (csi_dispatch (ch "H")) with handle_csi_cup. unfold handle_csi_cup. wp_keep.
  eapply wp_run; [apply strtok_params|]. rewrite Hp, Htok. cbn [cup_loop]. wp_keep.
  assert (∀ d (st : console), Forall (λ c, negb (c =? 0) = true) d → Forall (λ c, 0 ≤ c < 256) d →
    Forall (λ c, ch "0" ≤ c ≤ ch "9") d → decimal d ≤ INT_MAX →
    atoi_str d st = Done (decimal d) st ∧ 0 ≤ decimal d) as Hat.
  { intros d st Hd1 Hd2 Hd3 Hd4. rewrite <-number_of_digits in * by done.
    split; [|apply number_of_nonneg]. apply atoi_str_run; [|done|done].
    eapply Forall_impl; [exact Hd1|]. cbv beta. intros; bool_to_prop; done. }
  destruct (Hat row k1) as [Ea1 ?]; [done..|]. destruct (Hat col k1) as [Ea2 ?]; [done..|].
  eapply wp_run; [exact Ea1|]. wp_keep. eapply wp_run; [exact Ea2|]. wp_keep.
  assert (∀ n l, 0 ≤ n → 0 < l → at_most (zero_based n) l = Z.min (Z.max 0 (n - 1)) (l - 1)) as Ham.
  { intros n l Hn Hlp. unfold at_most, zero_based. repeat case_match; bool_to_prop; lia. }
  rewrite !Ham by done.
  assert (0 ≤ Z.min (Z.max 0 (decimal row - 1)) (console_height k - 1) < console_height k) as Hrow by lia.
  apply wp_set_cursor; [apply (ok_y _ Hk1)|by apply (row_below k1 _ (ok_screen _ Hk1))|].
  set (k2 := moved _ _ k1). assert (draws k1 k2) as Hd by apply moved_draws.
  split_and!; [|done..]. apply console_ok_state.
  apply (handled_draws k1 k2); [done|done|simpl; lia|by apply (row_below k1 _ (ok_screen _ Hk1))].
Qed.

(** ** Theorems *)

(** C22: for every byte that meets [char_ok] (room below the screen for a new
    line or a wrap, numbers that fit an int, parameters that fit the buffer, an
    erasing sequence with the cursor on the screen) the console neither leaves
    its arrays nor loses its invariant: the cursor stays in its columns, the
    colours in the palette, and the sizes do not change. *)
Theorem on_char_safe k c :
  console_ok k → 0 ≤ c < 256 → char_ok k c = true →
  wp (on_char c) (λ _ k', console_ok k' ∧ geometry k' = geometry k) k.
Proof. intros. by apply on_char_wp. Qed.

(** Text that fits behind the cursor appears there in the current colours,
    nothing else on the screen changes, and the cursor stands behind it, or on
    the last column with the wrap pending when the line is full. *)
Lemma console_prints_text s k :
  console_ok k → state k = STATE_GROUND → stomp k = false → s ≠ [] →
  cursor_y k < console_height k → Forall (λ c, 0 ≤ c < 256 ∧ is_printed c = true) s →
  cursor_x k + Z.of_nat (length s) ≤ console_width k →
  wp (on_chars s) (λ _ k', console_ok k' ∧ draws k k' ∧
    cells k' = splice (Z.to_nat (cursor_x k + cursor_y k * console_width k))
                 ((λ c, colored c k) <$> s) (cells k) ∧
    cursor k' = (Z.min (cursor_x k + Z.of_nat (length s)) (console_width k - 1), cursor_y k) ∧
    stomp k' = (console_width k <=? cursor_x k + Z.of_nat (length s))) k.
Proof. apply on_chars_text. Qed.

(** On the last line, any number of new lines followed by a character
    scrolls the screen by one line only: the blank lines are lost. The new
    lines mark as many lines behind the end of the screen, which has to be
    memory of the console. *)
Lemma blank_lines_are_lost n c k :
  console_ok k → state k = STATE_GROUND → stomp k = false →
  cursor_y k = console_height k - 1 → (0 < n)%nat →
  row_ok k (console_height k - 1 + Z.of_nat n) → 0 ≤ c < 256 → is_printed c = true →
  wp (on_chars (replicate n 10 ++ [c])) (λ _ k',
    cursor k' = (Z.min 1 (console_width k - 1), console_height k - 1) ∧
    cells k' = <[Z.to_nat ((console_height k - 1) * console_width k) := colored c k]>
                 (drop (Z.to_nat (console_width k)) (cells k)
                  ++ replicate (Z.to_nat (console_width k)) (blank k))) k.
Proof.
  intros Hk Hst Hsp Hy Hn Hrow Hc Hp. apply on_chars_app, on_chars_newlines; [done..|by rewrite Hy|].
  intros k1 Hk1 Hd1 Hc1 Hs1 [= Hx1 Hy1].
  assert ((n =? 0)%nat = false) as Hn0 by (apply Nat.eqb_neq; lia). rewrite Hn0 in Hx1.
  assert (line_after_stomp k1 = console_height k - 1 + Z.of_nat n) as Hls.
  { unfold line_after_stomp. rewrite Hs1. lia. }
  assert (scrolls k1 = true) as Hsc.
  { unfold scrolls. rewrite Hls, (draws_height _ _ Hd1). apply Z.leb_le. lia. }
  apply on_chars_cons, on_char_printed; [done|by rewrite (draws_state _ _ Hd1)|done|done
    |rewrite Hls; by eapply draws_row|].
  intros k2 _ _ Hcur _ Hcs. cbn [on_chars]. wp_keep. split.
  - rewrite Hcur. unfold put_x, put_y. rewrite Hs1, Hsc, Hx1.
    by rewrite (draws_width _ _ Hd1), (draws_height _ _ Hd1).
  - rewrite Hcs. unfold scrolled, put_x, put_y, blank. rewrite Hs1, Hsc, Hx1, Hc1.
    by rewrite (draws_width _ _ Hd1), (draws_height _ _ Hd1), !(draws_colored _ _ _ Hd1).
Qed.

(** A new line in the last line for which [line_is_dirty] has an element
    leaves the array; as the console allocates one element per line of the
    screen, this is the new line that should scroll. *)
Lemma newline_leaves_the_array k :
  console_ok k → state k = STATE_GROUND → Z.of_nat (length (line_is_dirty k)) = console_height k →
  cursor_y k = console_height k - 1 → on_char 10 k = Undef.
Proof.
  intros Hk Hst Hl Hy. pose proof (ok_y _ Hk) as [Hy0 Hy1].
  unfold on_char. rewrite (bind_run get _ k k k) by done. rewrite Hst. unfold handle_ground.
  rewrite (bind_run get _ k k k) by done. cbn [Z.eqb Pos.eqb].
  unfold mbind at 1, K_bind at 1. by rewrite set_cursor_undef by (apply (ok_y _ Hk) || lia).
Qed.

(** ESC [ line ; column H puts the cursor at that position, counted from
    one and limited to the screen, whatever the numbers, and changes no cell. *)
Lemma cursor_position_sequence row col k :
  console_ok k → state k = STATE_GROUND → digits row → digits col →
  decimal row ≤ INT_MAX → decimal col ≤ INT_MAX →
  Z.of_nat (length row + length col) < 1023 →
  wp (on_chars (csi (row ++ lit ";" ++ col) (ch "H"))) (λ _ k',
    console_ok k' ∧ state k' = STATE_GROUND ∧ cells k' = cells k ∧ stomp k' = false ∧
    cursor k' = (Z.min (Z.max 0 (decimal col - 1)) (console_width k - 1),
                 Z.min (Z.max 0 (decimal row - 1)) (console_height k - 1))) k.
Proof. apply cursor_position. Qed.

(** ** Witnesses *)

(** A screen of three lines of eight cells, with room for [room] more lines
    in [line_is_dirty]. *)
Definition small_screen (room : nat) (x y : Z) : console :=
  Console 8 3 x y true STATE_GROUND DEFAULT_FG_COLOR DEFAULT_BG_COLOR
    (replicate 24 (Cell (ch " ") DEFAULT_FG_COLOR DEFAULT_BG_COLOR)) (replicate (3 + room) false)
    false false [].
Lemma small_screen_ok room x y : 0 ≤ x < 8 → 0 ≤ y < 3 → console_ok (small_screen room x y).
Proof.
  intros Hx Hy. constructor; simpl; unfold DEFAULT_FG_COLOR, DEFAULT_BG_COLOR, PARAM_BUF_SIZE; try done; try lia.
  - constructor; simpl; rewrite ?length_replicate; lia.
  - unfold row_ok. simpl. rewrite length_replicate. lia.
Qed.
Lemma on_char_safe_witness :
  wp (on_char (ch "J")) (λ _ k', console_ok k' ∧ geometry k' = geometry (small_screen 0 3 1))
    (with_state STATE_CSI (with_param_buf (lit "2") (small_screen 0 3 1))).
Proof.
  apply (on_char_safe (with_state STATE_CSI (with_param_buf (lit "2") (small_screen 0 3 1))) (ch "J"));
    [|vm_compute; by split|by vm_compute].
  apply console_ok_state, console_ok_params; [by vm_compute| |by apply small_screen_ok].
  apply Forall_singleton. by vm_compute.
Defined.
Lemma console_prints_text_witness :
  wp (on_chars (lit "abcde")) (λ _ k', console_ok k' ∧ draws (small_screen 0 3 1) k' ∧
    cells k' = splice 11 ((λ c, colored c (small_screen 0 3 1)) <$> lit "abcde") (cells (small_screen 0 3 1)) ∧
    cursor k' = (7, 1) ∧ stomp k' = true) (small_screen 0 3 1).
Proof.
  apply (console_prints_text (lit "abcde") (small_screen 0 3 1));
    [by apply small_screen_ok|done|done|done|done| |done].
  repeat (apply Forall_cons; split; [vm_compute; by repeat split|]). by apply Forall_nil.
Defined.
Lemma blank_lines_are_lost_witness :
  wp (on_chars (replicate 4 10 ++ [ch "x"])) (λ _ k', cursor k' = (1, 2) ∧
    cells k' = <[16%nat := colored (ch "x") (small_screen 4 3 2)]>
      (drop 8 (cells (small_screen 4 3 2)) ++ replicate 8 (blank (small_screen 4 3 2)))) (small_screen 4 3 2).
Proof.
  apply (blank_lines_are_lost 4 (ch "x") (small_screen 4 3 2));
    [by apply small_screen_ok|done|done|done|lia|by vm_compute|by vm_compute|done].
Defined.
Lemma newline_leaves_the_array_witness : on_char 10 (small_screen 0 3 2) = Undef.
Proof. apply newline_leaves_the_array; [by apply small_screen_ok|done..]. Defined.
Lemma cursor_position_sequence_witness :
  wp (on_chars (csi (lit "2" ++ lit ";" ++ lit "900") (ch "H"))) (λ _ k',
    console_ok k' ∧ state k' = STATE_GROUND ∧ cells k' = cells (small_screen 0 3 0) ∧ stomp k' = false ∧
    cursor k' = (7, 1)) (small_screen 0 3 0).
Proof.
  apply (cursor_position_sequence (lit "2") (lit "900") (small_screen 0 3 0));
    [by apply small_screen_ok|done| | |by vm_compute|by vm_compute|by vm_compute];
    (split; [done|]; repeat (apply Forall_cons; split; [by vm_compute|]); by apply Forall_nil).
Defined.
