(* ===== verification/EventQueue.v ===== *)
(** * The rings of events of the input devices (hid/keyboard.c, hid/mouse.c)

    Both drivers keep a static array of 128 events with a read and a write index,
    fill it in their interrupt handler and empty it in the read of their device.
    The type of the events is a parameter. *)
From S2P Require Import Prelude Errno Kernel Process.

(** ** Waiting for a device *)
Section block.
Context {S : Type} (kern : S → kstate) (with_kern : kstate → S → S).

(** file_description_block with a condition on the state of a driver; a process
    that has to wait leaves its computation. *)
Definition block_on (d : nat) (should : K S bool) : K S Z :=
  x ← zoom kern with_kern (desc d);
  again ← (if has_flag (d_flags x) O_NONBLOCK then r ← should; mret (negb r) else mret false);
  if again : bool then mret (ERR EAGAIN)
  else
    p ← zoom kern with_kern current_process;
    _ ← ASSERT (bool_decide (should_unblock p = None));
    r ← should;
    if r : bool then mret 0 else out_of_fuel.

(** A process that may read: its description is open and it does not wait. *)
Definition may_read (d : nat) (s : kstate) : Prop :=
  ∃ x p, descs s !! d = Some x ∧ procs s !! current s = Some p ∧ should_unblock p = None.
Lemma block_on_ready d should m :
  with_kern (kern m) m = m → may_read d (kern m) → should m = Done true m → block_on d should m = Done 0 m.
Proof.
  intros Hlens (x & p & Hx & Hp & Hu) Hs. unfold block_on.
  assert (zoom kern with_kern (desc d) m = Done x m) as E1.
  { unfold zoom, desc, mbind, K_bind, get, access. rewrite Hx. simpl. by rewrite Hlens. }
  assert (zoom kern with_kern current_process m = Done p m) as E2.
  { unfold zoom. rewrite (current_process_run p _ Hp). by rewrite Hlens. }
  rewrite (bind_run _ _ _ _ _ E1).
  assert ((if has_flag (d_flags x) O_NONBLOCK then r ← should; mret (negb r) else mret false : K S bool) m
    = Done false m) as E3.
  { case_match; [|done]. by rewrite (bind_run _ _ _ _ _ Hs). }
  rewrite (bind_run _ _ _ _ _ E3), (bind_run _ _ _ _ _ E2), bool_decide_eq_true_2 by done.
  cbn [ASSERT]. rewrite (bind_run (mret tt) _ m tt m) by done. by rewrite (bind_run _ _ _ _ _ Hs).
Qed.
End block.

(** ** Rings of events *)

Definition QUEUE_SIZE : nat := 128.
#[global] Arguments QUEUE_SIZE : simpl never.
#[local] Arguments Nat.modulo : simpl never.

Record event_ring (E : Type) : Type := EventRing {
  queue : list E;
  queue_read_idx : nat;
  queue_write_idx : nat;
}.
#[global] Arguments EventRing {E}.
#[global] Arguments queue {E}.
#[global] Arguments queue_read_idx {E}.
#[global] Arguments queue_write_idx {E}.

Section ring.
Context {E : Type}.
Implicit Types q : event_ring E.

Definition push_event (event : E) : K (event_ring E) unit :=
  q ← get;
  _ ← access (queue q !! queue_write_idx q);
  put (EventRing (<[queue_write_idx q := event]> (queue q)) (queue_read_idx q)
         ((queue_write_idx q + 1) mod QUEUE_SIZE)%nat).
Definition queue_is_empty q : bool := (queue_read_idx q =? queue_write_idx q)%nat.
(** The loop of a device's read: [size] is the size of an event. *)
Fixpoint read_events (size : Z) (fuel : nat) (count : Z) : K (event_ring E) (list E) :=
  match fuel with
  | O => out_of_fuel
  | S fuel =>
      q ← get;
      if queue_is_empty q || (count <? size) then mret []
      else
        e ← access (queue q !! queue_read_idx q);
        _ ← put (EventRing (queue q) ((queue_read_idx q + 1) mod QUEUE_SIZE)%nat (queue_write_idx q));
        es ← read_events size fuel (count - size);
        mret (e :: es)
  end.

(** ** Theorems *)
Definition queue_ok q : Prop :=
  length (queue q) = QUEUE_SIZE ∧ (queue_read_idx q < QUEUE_SIZE)%nat ∧ (queue_write_idx q < QUEUE_SIZE)%nat.
(** [q'] has the events [es] behind those of [q]: each of them, unless a later
    one took its place. *)
Definition queued (es : list E) q q' : Prop :=
  queue_ok q' ∧
  queue_write_idx q' = ((queue_write_idx q + length es) mod QUEUE_SIZE)%nat ∧
  ∀ j, (length es - QUEUE_SIZE ≤ j < length es)%nat →
    queue q' !! ((queue_write_idx q + j) mod QUEUE_SIZE)%nat = es !! j.

Lemma size_pos : (QUEUE_SIZE ≠ 0)%nat.
Proof. done. Qed.
Lemma mod_lt a : (a mod QUEUE_SIZE < QUEUE_SIZE)%nat.
Proof. apply Nat.mod_upper_bound, size_pos. Qed.
Lemma mod_same a b : (a ≤ b)%nat → (b - a < QUEUE_SIZE)%nat →
  (a mod QUEUE_SIZE = b mod QUEUE_SIZE)%nat → a = b.
Proof.
  intros Hab Hlt Hm.
  pose proof (Nat.div_mod_eq a QUEUE_SIZE). pose proof (Nat.div_mod_eq b QUEUE_SIZE).
  pose proof (Nat.Div0.div_le_mono a b QUEUE_SIZE Hab) as Hq.
  destruct (decide (a / QUEUE_SIZE = b / QUEUE_SIZE)%nat) as [He|Hne]; [rewrite He in *; lia|].
  assert (QUEUE_SIZE * (a / QUEUE_SIZE + 1) ≤ QUEUE_SIZE * (b / QUEUE_SIZE))%nat
    by (apply Nat.mul_le_mono_l; lia). lia.
Qed.

Lemma queued_nil q : queue_ok q → queued [] q q.
Proof.
  intros Hq. split_and!; [done| |simpl; lia].
  rewrite Nat.add_0_r, Nat.mod_small; [done|apply Hq].
Qed.
Lemma wp_push_event e es q q' (Q : unit → event_ring E → Prop) :
  queued es q q' →
  (∀ q'', queued (es ++ [e]) q q'' → queue_read_idx q'' = queue_read_idx q' → Q tt q'') →
  wp (push_event e) Q q'.
Proof.
  intros ((Hl & Hr & Hw) & Hwi & Hq) HQ. unfold push_event. wp_go.
  destruct (lookup_lt_is_Some_2 (queue q') (queue_write_idx q')) as [x Hx]; [lia|].
  eapply wp_access; [exact Hx|]. wp_go. apply HQ; [|done].
  split_and!; simpl.
  - split_and!; simpl; [by rewrite length_insert|done|apply mod_lt].
  - rewrite Hwi, length_app, Nat.Div0.add_mod_idemp_l. f_equal. simpl. lia.
  - rewrite length_app. simpl. intros j Hj. destruct (decide (j = length es)) as [->|Hne].
    + rewrite <-Hwi, list_lookup_insert_eq by lia. by rewrite lookup_app_r, Nat.sub_diag by lia.
    + rewrite lookup_app_l by lia. rewrite <-Hq by lia. apply list_lookup_insert_ne.
      rewrite Hwi. intros Heq. symmetry in Heq. apply mod_same in Heq; lia.
Qed.

(** Reading takes everything between the two indices. *)
Lemma wp_read_events size es q0 q fuel count n (Q : list E → event_ring E → Prop) :
  queued es q0 q → queue_read_idx q = ((queue_write_idx q0 + (length es - n)) mod QUEUE_SIZE)%nat →
  (n < QUEUE_SIZE)%nat → (n ≤ length es)%nat → (n < fuel)%nat → 0 < size → size * Z.of_nat n ≤ count →
  (∀ q', queue_ok q' → queue_read_idx q' = queue_write_idx q' → Q (drop (length es - n) es) q') →
  wp (read_events size fuel count) Q q.
Proof.
  revert q fuel count Q. induction n as [|n IH]; intros q fuel count Q Hq Hr Hn Hle Hf Hs Hc HQ;
    (destruct fuel as [|fuel]; [lia|]); cbn [read_events]; apply wp_bind, wp_get; unfold queue_is_empty.
  - pose proof Hq as (Hok & Hw & _). rewrite Nat.sub_0_r in *.
    assert (queue_read_idx q = queue_write_idx q) as Heq by (by rewrite Hr, Hw).
    rewrite Heq, Nat.eqb_refl. simpl. rewrite drop_all in HQ. by apply HQ.
  - pose proof Hq as ((Hl & Hrb & Hwb) & Hw & Hq2).
    assert ((queue_read_idx q =? queue_write_idx q)%nat = false) as ->.
    { apply Nat.eqb_neq. rewrite Hr, Hw. intros Heq. apply mod_same in Heq; lia. }
    rewrite (proj2 (Z.ltb_ge count size)) by nia. simpl orb. cbv iota. wp_keep.
    destruct (lookup_lt_is_Some_2 es (length es - S n)) as [e He]; [lia|].
    eapply wp_access. { rewrite Hr, Hq2 by lia. exact He. } wp_keep.
    apply IH; [|simpl|lia|lia|lia|lia|nia|].
    + split_and!; simpl; [|done|done]. split_and!; simpl; [done|apply mod_lt|done].
    + rewrite Hr, Nat.Div0.add_mod_idemp_l. f_equal. lia.
    + intros q' H1 H2. wp_keep.
      rewrite (drop_S es e (length es - S n)) in HQ by done.
      replace (S (length es - S n)) with (length es - n)%nat in HQ by lia. by apply HQ.
Qed.

(** What is left of [es] in a ring that was empty: nobody checks whether it is
    full, so a multiple of its size is lost. *)
Definition unread (es : list E) : list E := drop (length es - length es mod QUEUE_SIZE) es.
Lemma queued_unread es q0 q :
  queue_ok q0 → queue_read_idx q0 = queue_write_idx q0 → queued es q0 q → queue_read_idx q = queue_read_idx q0 →
  queue_read_idx q = ((queue_write_idx q0 + (length es - length es mod QUEUE_SIZE)) mod QUEUE_SIZE)%nat ∧
  queue_is_empty q = bool_decide (unread es = []).
Proof.
  intros Hok He (_ & Hw & _) Hri. set (n := (length es mod QUEUE_SIZE)%nat).
  assert (n < QUEUE_SIZE)%nat by apply mod_lt.
  assert (n ≤ length es)%nat by (apply Nat.Div0.mod_le).
  assert (queue_read_idx q = (queue_write_idx q0 + (length es - n)) mod QUEUE_SIZE)%nat as Hrd.
  { rewrite Hri, He. pose proof (Nat.div_mod_eq (length es) QUEUE_SIZE) as Hdm. fold n in Hdm.
    replace (length es - n)%nat with (length es / QUEUE_SIZE * QUEUE_SIZE)%nat by lia.
    rewrite Nat.Div0.mod_add. symmetry. apply Nat.mod_small, Hok. }
  split; [done|]. unfold queue_is_empty. apply eq_true_iff_eq. rewrite Nat.eqb_eq, bool_decide_eq_true.
  unfold unread. fold n. rewrite <-length_zero_iff_nil, length_drop. rewrite Hrd, Hw. split.
  - intros Heq. apply mod_same in Heq; lia.
  - intros Heq. f_equal. lia.
Qed.
Lemma length_unread es : length (unread es) = (length es mod QUEUE_SIZE)%nat.
Proof. unfold unread. rewrite length_drop. pose proof (Nat.Div0.mod_le (length es) QUEUE_SIZE). lia. Qed.
Lemma wp_read_unread size es q0 q count (Q : list E → event_ring E → Prop) :
  queue_ok q0 → queue_read_idx q0 = queue_write_idx q0 → queued es q0 q → queue_read_idx q = queue_read_idx q0 →
  0 < size → size * Z.of_nat QUEUE_SIZE ≤ count →
  (∀ q', queue_ok q' → queue_read_idx q' = queue_write_idx q' → Q (unread es) q') →
  wp (read_events size (S QUEUE_SIZE) count) Q q.
Proof.
  intros Hok He Hq Hri Hs Hc HQ. destruct (queued_unread es q0 q) as [Hrd _]; [done..|].
  pose proof (mod_lt (length es)). pose proof (Nat.Div0.mod_le (length es) QUEUE_SIZE).
  eapply (wp_read_events size es q0 q _ _ (length es mod QUEUE_SIZE)); [done|done|done|done|lia|done|nia|done].
Qed.
End ring.
