(* ===== verification/Keyboard.v ===== *)
(** * The keyboard and the input side of the consoles (kernel/hid/keyboard.c,
    kernel/console/tty.c, serial_console.c and the input half of fb_console.c)

    A scan code that the keyboard interrupt delivers updates the modifier bits,
    becomes an event in the ring of EventQueue.v for /dev/kbd, and bytes in
    the ring buffer from which /dev/tty is read; an interrupt character signals
    the foreground process group. [machine] joins the static variables of these
    files with the state of the kernel. *)
From S2P Require Import Prelude Errno RingBuf Kernel Path Process Scheduler EventQueue.

Definition SIGINT : Z := 2.
Definition SIGQUIT : Z := 3.
#[local] Arguments Nat.modulo : simpl never.

(** ** Tables *)
Inductive keycode : Type :=
  | KEYCODE_NONE | KEYCODE_BACKSPACE | KEYCODE_DELETE | KEYCODE_TAB
  | KEYCODE_RETURN | KEYCODE_ESCAPE | KEYCODE_SPACE | KEYCODE_UP
  | KEYCODE_DOWN | KEYCODE_RIGHT | KEYCODE_LEFT | KEYCODE_INSERT
  | KEYCODE_HOME | KEYCODE_END | KEYCODE_PAGE_UP | KEYCODE_PAGE_DOWN
  | KEYCODE_F1 | KEYCODE_F2 | KEYCODE_F3 | KEYCODE_F4
  | KEYCODE_F5 | KEYCODE_F6 | KEYCODE_F7 | KEYCODE_F8
  | KEYCODE_F9 | KEYCODE_F10 | KEYCODE_F11 | KEYCODE_F12
  | KEYCODE_0 | KEYCODE_1 | KEYCODE_2 | KEYCODE_3
  | KEYCODE_4 | KEYCODE_5 | KEYCODE_6 | KEYCODE_7
  | KEYCODE_8 | KEYCODE_9 | KEYCODE_EXCLAIM | KEYCODE_DOUBLE_QUOTE
  | KEYCODE_HASH | KEYCODE_DOLLAR | KEYCODE_PERCENT | KEYCODE_AMPERSAND
  | KEYCODE_QUOTE | KEYCODE_LEFT_PAREN | KEYCODE_RIGHT_PAREN | KEYCODE_ASTERISK
  | KEYCODE_PLUS | KEYCODE_COMMA | KEYCODE_MINUS | KEYCODE_PERIOD
  | KEYCODE_SLASH | KEYCODE_COLON | KEYCODE_SEMICOLON | KEYCODE_LESS
  | KEYCODE_EQUALS | KEYCODE_GREATER | KEYCODE_QUESTION | KEYCODE_AT
  | KEYCODE_LEFT_BRACKET | KEYCODE_BACKSLASH | KEYCODE_RIGHT_BRACKET | KEYCODE_CARET
  | KEYCODE_UNDERSCORE | KEYCODE_BACK_QUOTE | KEYCODE_A | KEYCODE_B
  | KEYCODE_C | KEYCODE_D | KEYCODE_E | KEYCODE_F
  | KEYCODE_G | KEYCODE_H | KEYCODE_I | KEYCODE_J
  | KEYCODE_K | KEYCODE_L | KEYCODE_M | KEYCODE_N
  | KEYCODE_O | KEYCODE_P | KEYCODE_Q | KEYCODE_R
  | KEYCODE_S | KEYCODE_T | KEYCODE_U | KEYCODE_V
  | KEYCODE_W | KEYCODE_X | KEYCODE_Y | KEYCODE_Z
  | KEYCODE_LEFT_CURLY_BRACKET | KEYCODE_PIPE | KEYCODE_RIGHT_CURLY_BRACKET | KEYCODE_TILDE
  | KEYCODE_NUMLOCK | KEYCODE_CAPS_LOCK | KEYCODE_SCROLL_LOCK | KEYCODE_RIGHT_SHIFT
  | KEYCODE_LEFT_SHIFT | KEYCODE_CONTROL | KEYCODE_ALT | KEYCODE_SUPER
  | KEYCODE_PRINT | KEYCODE_SYS_REQ | KEYCODE_MENU.

#[global] Instance keycode_eq_dec : EqDecision keycode.
Proof. solve_decision. Defined.

(** A table of 256 elements whose last ones are zero. *)
Definition table_at {A} (zero : A) (t : list A) (ch : Z) : A := nth (Z.to_nat ch) t zero.

Definition scancode_to_key : list Z :=
  [0; 27] ++ lit "1234567890-=" ++ [8; 9] ++ lit "qwertyuiop[]" ++ [10; 0] ++
  lit "asdfghjkl;'`" ++ [0] ++ lit "\zxcvbnm,./" ++ [0] ++ lit "*" ++ [0] ++ lit " " ++
  replicate 13 0 ++ lit "789-456+1230." ++ [0; 0] ++ lit "\".
Definition scancode_to_shifted_key : list Z :=
  [0; 27] ++ lit "!@#$%^&*()_+" ++ [8; 9] ++ lit "QWERTYUIOP{}" ++ [10; 0] ++
  lit "ASDFGHJKL:" ++ [34] ++ lit "~" ++ [0] ++ lit "|ZXCVBNM<>?" ++ [0] ++ lit "*" ++ [0] ++ lit " " ++
  replicate 13 0 ++ lit "789-456+1230." ++ [0; 0] ++ lit "|".
Definition scancode_to_keycode : list keycode :=
  [KEYCODE_NONE; KEYCODE_ESCAPE; KEYCODE_1; KEYCODE_2; KEYCODE_3; KEYCODE_4; KEYCODE_5;
   KEYCODE_6; KEYCODE_7; KEYCODE_8; KEYCODE_9; KEYCODE_0; KEYCODE_MINUS; KEYCODE_EQUALS;
   KEYCODE_BACKSPACE; KEYCODE_TAB; KEYCODE_Q; KEYCODE_W; KEYCODE_E; KEYCODE_R; KEYCODE_T;
   KEYCODE_Y; KEYCODE_U; KEYCODE_I; KEYCODE_O; KEYCODE_P; KEYCODE_LEFT_BRACKET;
   KEYCODE_RIGHT_BRACKET; KEYCODE_RETURN; KEYCODE_CONTROL; KEYCODE_A; KEYCODE_S; KEYCODE_D;
   KEYCODE_F; KEYCODE_G; KEYCODE_H; KEYCODE_J; KEYCODE_K; KEYCODE_L; KEYCODE_SEMICOLON;
   KEYCODE_QUOTE; KEYCODE_BACK_QUOTE; KEYCODE_LEFT_SHIFT; KEYCODE_BACKSLASH; KEYCODE_Z;
   KEYCODE_X; KEYCODE_C; KEYCODE_V; KEYCODE_B; KEYCODE_N; KEYCODE_M; KEYCODE_COMMA;
   KEYCODE_PERIOD; KEYCODE_SLASH; KEYCODE_RIGHT_SHIFT; KEYCODE_ASTERISK; KEYCODE_ALT;
   KEYCODE_SPACE; KEYCODE_CAPS_LOCK; KEYCODE_F1; KEYCODE_F2; KEYCODE_F3; KEYCODE_F4; KEYCODE_F5;
   KEYCODE_F6; KEYCODE_F7; KEYCODE_F8; KEYCODE_F9; KEYCODE_F10; KEYCODE_NUMLOCK; KEYCODE_NONE;
   KEYCODE_HOME; KEYCODE_UP; KEYCODE_PAGE_UP; KEYCODE_MINUS; KEYCODE_LEFT; KEYCODE_NONE;
   KEYCODE_RIGHT; KEYCODE_PLUS; KEYCODE_END; KEYCODE_DOWN; KEYCODE_PAGE_DOWN; KEYCODE_NONE;
   KEYCODE_DELETE; KEYCODE_NONE; KEYCODE_NONE; KEYCODE_BACKSLASH; KEYCODE_F11; KEYCODE_F12;
   KEYCODE_NONE; KEYCODE_NONE; KEYCODE_SUPER; KEYCODE_NONE; KEYCODE_MENU].
Definition scancode_to_shifted_keycode : list keycode :=
  [KEYCODE_NONE; KEYCODE_ESCAPE; KEYCODE_EXCLAIM; KEYCODE_AT; KEYCODE_HASH; KEYCODE_DOLLAR;
   KEYCODE_PERCENT; KEYCODE_CARET; KEYCODE_AMPERSAND; KEYCODE_ASTERISK; KEYCODE_LEFT_PAREN;
   KEYCODE_RIGHT_PAREN; KEYCODE_UNDERSCORE; KEYCODE_PLUS; KEYCODE_BACKSPACE; KEYCODE_TAB;
   KEYCODE_Q; KEYCODE_W; KEYCODE_E; KEYCODE_R; KEYCODE_T; KEYCODE_Y; KEYCODE_U; KEYCODE_I;
   KEYCODE_O; KEYCODE_P; KEYCODE_LEFT_CURLY_BRACKET; KEYCODE_RIGHT_CURLY_BRACKET;
   KEYCODE_RETURN; KEYCODE_CONTROL; KEYCODE_A; KEYCODE_S; KEYCODE_D; KEYCODE_F; KEYCODE_G;
   KEYCODE_H; KEYCODE_J; KEYCODE_K; KEYCODE_L; KEYCODE_COLON; KEYCODE_DOUBLE_QUOTE;
   KEYCODE_TILDE; KEYCODE_LEFT_SHIFT; KEYCODE_PIPE; KEYCODE_Z; KEYCODE_X; KEYCODE_C; KEYCODE_V;
   KEYCODE_B; KEYCODE_N; KEYCODE_M; KEYCODE_LESS; KEYCODE_GREATER; KEYCODE_QUESTION;
   KEYCODE_RIGHT_SHIFT; KEYCODE_ASTERISK; KEYCODE_ALT; KEYCODE_SPACE; KEYCODE_CAPS_LOCK;
   KEYCODE_F1; KEYCODE_F2; KEYCODE_F3; KEYCODE_F4; KEYCODE_F5; KEYCODE_F6; KEYCODE_F7;
   KEYCODE_F8; KEYCODE_F9; KEYCODE_F10; KEYCODE_NUMLOCK; KEYCODE_NONE; KEYCODE_HOME; KEYCODE_UP;
   KEYCODE_PAGE_UP; KEYCODE_MINUS; KEYCODE_LEFT; KEYCODE_NONE; KEYCODE_RIGHT; KEYCODE_PLUS;
   KEYCODE_END; KEYCODE_DOWN; KEYCODE_PAGE_DOWN; KEYCODE_NONE; KEYCODE_DELETE; KEYCODE_NONE;
   KEYCODE_NONE; KEYCODE_PIPE; KEYCODE_F11; KEYCODE_F12; KEYCODE_NONE; KEYCODE_NONE;
   KEYCODE_SUPER; KEYCODE_NONE; KEYCODE_MENU].

(** ** The keyboard *)
Record key_event : Type := KeyEvent {
  scancode : Z;
  modifiers : Z;
  event_keycode : keycode;
  key : Z;
  pressed : bool;
}.
Definition sizeof_key_event : Z := 6.

Definition KEY_MODIFIER_ALT : Z := 1.
Definition KEY_MODIFIER_CTRL : Z := 2.
Definition KEY_MODIFIER_SHIFT : Z := 4.
Definition KEY_MODIFIER_SUPER : Z := 8.
Definition KEY_MODIFIER_ALTGR : Z := 16.

Definition STATE_ALT : Z := 1.
Definition STATE_CTRL : Z := 2.
Definition STATE_LEFT_SHIFT : Z := 4.
Definition STATE_RIGHT_SHIFT : Z := 8.
Definition STATE_LEFT_SUPER : Z := 16.
Definition STATE_RIGHT_SUPER : Z := 32.
Definition STATE_ALTGR : Z := 64.

(** The static variables of keyboard.c. *)
Record keyboard : Type := Keyboard {
  received_e0 : bool;
  state : Z;
  events : event_ring key_event;
}.

Definition set_state (which : Z) (pressed : bool) (state : Z) : Z :=
  if pressed then Z.lor state which else Z.land state (u8 (Z.lnot which)).
(** The switch of irq_handler. *)
Definition update_state (ch : Z) (e0 pressed : bool) (state : Z) : Z :=
  if ch =? 56 then set_state (if e0 then STATE_ALTGR else STATE_ALT) pressed state
  else if ch =? 29 then set_state STATE_CTRL pressed state
  else if ch =? 91 then set_state STATE_LEFT_SUPER pressed state
  else if ch =? 92 then set_state STATE_RIGHT_SUPER pressed state
  else if ch =? 42 then set_state STATE_LEFT_SHIFT pressed state
  else if ch =? 54 then set_state STATE_RIGHT_SHIFT pressed state
  else state.
Definition has_bits (state mask : Z) : bool := negb (Z.land state mask =? 0).
Definition modifiers_of (state : Z) : Z :=
  let bit mask m acc := if has_bits state mask then Z.lor acc m else acc in
  bit STATE_ALTGR KEY_MODIFIER_ALTGR
    (bit (Z.lor STATE_LEFT_SUPER STATE_RIGHT_SUPER) KEY_MODIFIER_SUPER
      (bit (Z.lor STATE_LEFT_SHIFT STATE_RIGHT_SHIFT) KEY_MODIFIER_SHIFT
        (bit STATE_CTRL KEY_MODIFIER_CTRL (bit STATE_ALT KEY_MODIFIER_ALT 0)))).
(** The fields of the event for a scan code without its release bit. *)
Definition make_event (ch : Z) (e0 pressed : bool) (state : Z) : key_event :=
  let m := modifiers_of state in
  let shift := has_bits m KEY_MODIFIER_SHIFT in
  KeyEvent (if e0 then Z.lor ch 57344 else ch) m
    (table_at KEYCODE_NONE (if shift then scancode_to_shifted_keycode else scancode_to_keycode) ch)
    (table_at 0 (if shift then scancode_to_shifted_key else scancode_to_key) ch) pressed.

Definition in_events {A} (m : K (event_ring key_event) A) : K keyboard A :=
  zoom events (λ q k, Keyboard (received_e0 k) (state k) q) m.
(** What the byte does to the prefix flag and the modifier bits, and its event. *)
Definition decode (data : Z) (e0 : bool) (st : Z) : bool * Z * option key_event :=
  if data =? 224 then (true, st, None)
  else
    let ch := Z.land data 127 in
    let pressed := negb (has_bits data 128) in
    let st := update_state ch e0 pressed st in
    (false, st, Some (make_event ch e0 pressed st)).
(** irq_handler up to the call of the console: the event, if the byte ends one. *)
Definition scan (data : Z) : K keyboard (option key_event) :=
  k ← get;
  let '(e0, st, e) := decode data (received_e0 k) (state k) in
  _ ← put (Keyboard e0 st (events k));
  _ ← match e with Some event => in_events (push_event event) | None => mret tt end;
  mret e.

(** ** The machine *)
Record machine : Type := Machine {
  kern : kstate;
  kbd : keyboard;
  fb_input : ring_buf;
  fb_pgid : Z;
  serial_inputs : list ring_buf;
  serial_pgid : Z;
}.
Abbreviation M := (K machine).
Definition in_kernel {A} (m : K kstate A) : M A :=
  zoom kern (λ s m, Machine s (kbd m) (fb_input m) (fb_pgid m) (serial_inputs m) (serial_pgid m)) m.
Definition in_keyboard {A} (m : K keyboard A) : M A :=
  zoom kbd (λ k m, Machine (kern m) k (fb_input m) (fb_pgid m) (serial_inputs m) (serial_pgid m)) m.
Definition in_fb_input {A} (m : K ring_buf A) : M A :=
  zoom fb_input (λ b m, Machine (kern m) (kbd m) b (fb_pgid m) (serial_inputs m) (serial_pgid m)) m.
Definition set_fb_pgid (g : Z) : M unit :=
  modify (λ m, Machine (kern m) (kbd m) (fb_input m) g (serial_inputs m) (serial_pgid m)).
Definition set_serial_pgid (g : Z) : M unit :=
  modify (λ m, Machine (kern m) (kbd m) (fb_input m) (fb_pgid m) (serial_inputs m) g).
Definition set_serial_input (i : nat) (b : ring_buf) : M unit :=
  modify (λ m, Machine (kern m) (kbd m) (fb_input m) (fb_pgid m) (<[i := b]> (serial_inputs m)) (serial_pgid m)).

(** ** tty.c *)
Definition tty_maybe_send_signal (group ch : Z) : K kstate unit :=
  if ch =? 3 then _ ← process_send_signal_to_group group SIGINT; mret tt
  else if ch =? 28 then _ ← process_send_signal_to_group group SIGQUIT; mret tt
  else mret tt.

(** ** Input of the frame buffer console *)
Definition input_buf_write_str (s : list Z) : M unit :=
  _ ← in_fb_input (ring_buf_write_evicting_oldest s); mret tt.

(** The strings that keys without a character send. *)
Definition key_sequence (k : keycode) : option (list Z) :=
  match k with
  | KEYCODE_UP => Some (27 :: lit "[A")
  | KEYCODE_DOWN => Some (27 :: lit "[B")
  | KEYCODE_RIGHT => Some (27 :: lit "[C")
  | KEYCODE_LEFT => Some (27 :: lit "[D")
  | KEYCODE_HOME => Some (27 :: lit "[H")
  | KEYCODE_END => Some (27 :: lit "[F")
  | KEYCODE_DELETE => Some (27 :: lit "[3~")
  | _ => None
  end.
Definition control_key (mods key : Z) : Z :=
  if has_bits mods KEY_MODIFIER_CTRL then
    if (ch "a" <=? key) && (key <=? ch "z") then key - ch "`"
    else if key =? ch "\" then 28 else key
  else key.
Definition fb_console_on_key (event : key_event) : M unit :=
  if negb (pressed event) then mret tt
  else match key_sequence (event_keycode event) with
  | Some s => input_buf_write_str s
  | None =>
      if key event =? 0 then mret tt
      else
        let key := control_key (modifiers event) (key event) in
        m ← get;
        _ ← in_kernel (tty_maybe_send_signal (fb_pgid m) key);
        input_buf_write_str [key]
  end.

Definition irq_handler (data : Z) : M unit :=
  e ← in_keyboard (scan data);
  match e with Some event => fb_console_on_key event | None => mret tt end.

(** ** Reading *)

Definition device_block (d : nat) (should : M bool) : M Z :=
  block_on kern (λ s m, Machine s (kbd m) (fb_input m) (fb_pgid m) (serial_inputs m) (serial_pgid m)) d should.

Definition fb_read_should_unblock : M bool := m ← get; mret (negb (ring_buf_is_empty (fb_input m))).
Definition fb_console_device_read (d : nat) (count : Z) : M (Z * list Z) :=
  rc ← device_block d fb_read_should_unblock;
  if IS_ERR rc then mret (rc, [])
  else
    m ← get;
    if ring_buf_is_empty (fb_input m) then out_of_fuel
    else
      bytes ← in_fb_input (ring_buf_read (Z.to_nat count));
      mret (Z.of_nat (length bytes), bytes).

Inductive tty_request : Type := TIOCGPGRP | TIOCSPGRP (new_pgid : Z) | TIOCGWINSZ | TIOC_other.
(** What an ioctl stores behind its argument. *)
Inductive tty_answer : Type := NoAnswer | Pgrp (g : Z) | Winsize (col row : Z).
(** [winsize] holds 16-bit members. *)
Definition fb_console_device_ioctl (width height : Z) (request : tty_request) : M (Z * tty_answer) :=
  match request with
  | TIOCGPGRP => m ← get; mret (0, Pgrp (fb_pgid m))
  | TIOCSPGRP new_pgid =>
      if new_pgid <? 0 then mret (ERR EINVAL, NoAnswer)
      else _ ← set_fb_pgid new_pgid; mret (0, NoAnswer)
  | TIOCGWINSZ => mret (0, Winsize (u16 width) (u16 height))
  | TIOC_other => mret (ERR EINVAL, NoAnswer)
  end.

(** ** /dev/kbd *)
Definition kbd_should_unblock : M bool := m ← get; mret (negb (queue_is_empty (events (kbd m)))).
Definition ps2_keyboard_device_read (d : nat) (count : Z) : M (Z * list key_event) :=
  rc ← device_block d kbd_should_unblock;
  if IS_ERR rc then mret (rc, [])
  else
    m ← get;
    if queue_is_empty (events (kbd m)) then out_of_fuel
    else
      es ← in_keyboard (in_events (read_events sizeof_key_event (S QUEUE_SIZE) count));
      mret (sizeof_key_event * Z.of_nat (length es), es).

(** ** Serial consoles *)
Definition SERIAL_COM1 : Z := 1016.
Definition SERIAL_COM2 : Z := 760.
Definition SERIAL_COM3 : Z := 1000.
Definition SERIAL_COM4 : Z := 744.
Definition serial_port_to_com_number (port : Z) : Z :=
  if port =? SERIAL_COM1 then 1 else if port =? SERIAL_COM2 then 2
  else if port =? SERIAL_COM3 then 3 else if port =? SERIAL_COM4 then 4 else 0.
Definition serial_is_valid_port (port : Z) : bool :=
  (port =? SERIAL_COM1) || (port =? SERIAL_COM2) || (port =? SERIAL_COM3) || (port =? SERIAL_COM4).
(** The index of the port's ring buffer. *)
Definition get_input_buf_for_port (port : Z) : option nat :=
  let com_number := serial_port_to_com_number port in
  if com_number =? 0 then None else Some (Z.to_nat (com_number - 1)).
Definition in_serial {A} (i : nat) (m : K ring_buf A) : M A :=
  x ← get;
  b ← access (serial_inputs x !! i);
  match m b with
  | Done a b' => _ ← set_serial_input i b'; mret a
  | Panic => panic
  | Undef => undef
  | OutOfFuel => out_of_fuel
  end.
Definition serial_console_on_char (port ch : Z) : M unit :=
  match get_input_buf_for_port port with
  | None => mret tt
  | Some i =>
      m ← get;
      _ ← in_kernel (tty_maybe_send_signal (serial_pgid m) ch);
      _ ← in_serial i (ring_buf_write_evicting_oldest [ch]);
      mret tt
  end.
Definition serial_read_should_unblock (port : Z) : M bool :=
  m ← get; i ← access (get_input_buf_for_port port); b ← access (serial_inputs m !! i);
  mret (negb (ring_buf_is_empty b)).
Definition serial_console_device_read (port : Z) (d : nat) (count : Z) : M (Z * list Z) :=
  rc ← device_block d (serial_read_should_unblock port);
  if IS_ERR rc then mret (rc, [])
  else
    ready ← serial_read_should_unblock port;
    if negb ready then out_of_fuel
    else
      i ← access (get_input_buf_for_port port);
      bytes ← in_serial i (ring_buf_read (Z.to_nat count));
      mret (Z.of_nat (length bytes), bytes).
(** The bytes serial_write sends to the port. *)
Fixpoint serial_write (s : list Z) : list Z :=
  match s with
  | [] => []
  | c :: s => if c =? 10 then 13 :: c :: serial_write s else c :: serial_write s
  end.
Definition serial_console_device_ioctl (request : tty_request) : M (Z * tty_answer) :=
  match request with
  | TIOCGPGRP => m ← get; mret (0, Pgrp (serial_pgid m))
  | TIOCSPGRP new_pgid =>
      if new_pgid <? 0 then mret (ERR EINVAL, NoAnswer)
      else _ ← set_serial_pgid new_pgid; mret (0, NoAnswer)
  | TIOCGWINSZ => mret (ERR ENOTSUP, NoAnswer)
  | TIOC_other => mret (ERR EINVAL, NoAnswer)
  end.

(** ** The modifier bits *)

(** The keystrokes a byte sequence consists of: prefix, code, pressed. *)
Fixpoint keystrokes (e0 : bool) (bytes : list Z) : list (bool * Z * bool) :=
  match bytes with
  | [] => []
  | data :: bytes =>
      if data =? 224 then keystrokes true bytes
      else (e0, Z.land data 127, negb (has_bits data 128)) :: keystrokes false bytes
  end.
(** Whether the last keystroke of the chosen keys was a press. *)
Definition held (keys : bool → Z → bool) (h : list (bool * Z * bool)) : bool :=
  foldl (λ b '(e0, c, p), if keys e0 c then p else b) false h.
(** The keys behind each bit of [state]. *)
Definition keys_of_bit (i : Z) (e0 : bool) (c : Z) : bool :=
  if i =? 0 then (c =? 56) && negb e0
  else if i =? 1 then c =? 29
  else if i =? 2 then c =? 42
  else if i =? 3 then c =? 54
  else if i =? 4 then c =? 91
  else if i =? 5 then c =? 92
  else (c =? 56) && e0.

(** The state and the events after some bytes. *)
Fixpoint decode_all (bytes : list Z) (e0 : bool) (st : Z) : bool * Z * list key_event :=
  match bytes with
  | [] => (e0, st, [])
  | data :: bytes =>
      let '(e0, st, e) := decode data e0 st in
      let '(e0, st, es) := decode_all bytes e0 st in
      (e0, st, match e with Some e => e :: es | None => es end)
  end.

Lemma testbit_set_state i j m b st :
  m = 2 ^ j → 0 ≤ i < 8 → 0 ≤ j < 8 →
  Z.testbit (set_state m b st) i = if i =? j then b else Z.testbit st i.
Proof.
  intros -> Hi Hj. unfold set_state. destruct b.
  - rewrite Z.lor_spec, Z.pow2_bits_eqb by lia. rewrite (Z.eqb_sym j).
    destruct (i =? j); [by rewrite orb_true_r|by rewrite orb_false_r].
  - rewrite Z.land_spec. unfold u8. change 256 with (2 ^ 8).
    rewrite Z.mod_pow2_bits_low, Z.lnot_spec, Z.pow2_bits_eqb by lia. rewrite (Z.eqb_sym j).
    destruct (i =? j); [by rewrite andb_false_r|by rewrite andb_true_r].
Qed.
Ltac set_state_bit j :=
  match goal with
  | |- context [set_state ?m _ _] => rewrite (testbit_set_state _ j m) by (done || lia)
  end.
(** A keystroke changes the bits of its own keys only. *)
Lemma testbit_update_state i c e0 b st :
  0 ≤ i < 7 →
  Z.testbit (update_state c e0 b st) i = if keys_of_bit i e0 c then b else Z.testbit st i.
Proof.
  intros Hi. unfold update_state, keys_of_bit.
  destruct (c =? 56) eqn:E1; [|destruct (c =? 29) eqn:E2; [|destruct (c =? 91) eqn:E3;
    [|destruct (c =? 92) eqn:E4; [|destruct (c =? 42) eqn:E5; [|destruct (c =? 54) eqn:E6]]]]];
    bool_to_prop; subst; cbn [Z.eqb Pos.eqb].
  - destruct e0; [set_state_bit 6|set_state_bit 0];
      repeat (case_match; bool_to_prop; try done; try lia).
  - set_state_bit 1; repeat (case_match; bool_to_prop; try done; try lia).
  - set_state_bit 4; repeat (case_match; bool_to_prop; try done; try lia).
  - set_state_bit 5; repeat (case_match; bool_to_prop; try done; try lia).
  - set_state_bit 2; repeat (case_match; bool_to_prop; try done; try lia).
  - set_state_bit 3; repeat (case_match; bool_to_prop; try done; try lia).
  - by repeat (case_match; bool_to_prop; try done; try lia).
Qed.

Lemma decode_all_bits bytes e0 st i :
  0 ≤ i < 7 →
  Z.testbit (decode_all bytes e0 st).1.2 i =
    foldl (λ b '(e0, c, p), if keys_of_bit i e0 c then p else b) (Z.testbit st i) (keystrokes e0 bytes).
Proof.
  intros Hi. revert e0 st. induction bytes as [|d bytes IH]; intros e0 st; [done|]. simpl.
  unfold decode. destruct (d =? 224).
  - specialize (IH true st). destruct (decode_all bytes true st) as [[e1 st1] es]. exact IH.
  - set (st1 := update_state _ _ _ _). specialize (IH false st1).
    destruct (decode_all bytes false st1) as [[e2 st2] es]. simpl in *. rewrite IH.
    f_equal. by apply testbit_update_state.
Qed.

(** ** The ring of events *)
Lemma wp_scan data es k k' (Q : option key_event → keyboard → Prop) :
  queued es k (events k') →
  (∀ k'' e0 st e, decode data (received_e0 k') (state k') = (e0, st, e) →
     queued (es ++ option_list e) k (events k'') → queue_read_idx (events k'') = queue_read_idx (events k') →
     received_e0 k'' = e0 → state k'' = st → Q e k'') →
  wp (scan data) Q k'.
Proof.
  intros Hq HQ. unfold scan. apply wp_bind, wp_get.
  destruct (decode data (received_e0 k') (state k')) as [[e0 st] [e|]] eqn:E; wp_keep.
  - unfold in_events. wp_keep. eapply wp_push_event; [exact Hq|]. intros q'' Hq'' H1. wp_keep. by eapply HQ.
  - eapply HQ; [done| |done|done|done]. cbn [option_list]. by rewrite app_nil_r.
Qed.

(** ** What a key sends to the console *)

Definition console_bytes (event : key_event) : list Z :=
  if negb (pressed event) then []
  else match key_sequence (event_keycode event) with
  | Some s => s
  | None => if key event =? 0 then [] else [control_key (modifiers event) (key event)]
  end.
(** Ctrl-C and Ctrl-\ reach the kernel as well. *)
Definition signals (event : key_event) : bool :=
  let c := control_key (modifiers event) (key event) in
  pressed event && bool_decide (key_sequence (event_keycode event) = None) && negb (key event =? 0) &&
  ((c =? 3) || (c =? 28)).

Fixpoint irq_all (bytes : list Z) : M unit :=
  match bytes with
  | [] => mret tt
  | data :: bytes => _ ← irq_handler data; irq_all bytes
  end.

(** Bytes that may not fit keep the ring usable. *)
Lemma evicting_wf buf bytes :
  wf buf → wp (ring_buf_write_evicting_oldest bytes) (λ _ b, wf b) buf.
Proof.
  revert buf. induction bytes as [|c bytes IH]; intros buf Hb; simpl; [by wp_go|].
  wp_go. eapply wp_mono; [by apply wf_put|]. intros [] b [-> Hb']. wp_go.
  eapply wp_mono; [by apply IH|]. intros n b' Hb2. by wp_go.
Qed.
Lemma evicting_both buf bytes :
  wf buf → wp (ring_buf_write_evicting_oldest bytes) (λ _ b, wf b ∧
    ((length bytes ≤ room buf)%nat → contents b = contents buf ++ bytes)) buf.
Proof.
  intros Hb. destruct (decide (length bytes ≤ room buf)%nat).
  - eapply wp_mono; [by apply evicting_fits|]. intros n b (_ & Hc & Hw). done.
  - eapply wp_mono; [by apply evicting_wf|]. intros n' b Hw. split; [done|]. lia.
Qed.
Lemma evicting_room buf b bytes :
  wf buf → wf b → contents b = contents buf ++ bytes → room b = (room buf - length bytes)%nat.
Proof.
  intros Hb Hb' Hc. unfold room. rewrite <-!length_contents by done. rewrite Hc, length_app. lia.
Qed.

Lemma wp_on_key event m (Q : unit → machine → Prop) :
  wf (fb_input m) → signals event = false →
  (∀ b, wf b → ((length (console_bytes event) ≤ room (fb_input m))%nat →
      contents b = contents (fb_input m) ++ console_bytes event) →
    Q tt (Machine (kern m) (kbd m) b (fb_pgid m) (serial_inputs m) (serial_pgid m))) →
  wp (fb_console_on_key event) Q m.
Proof.
  intros Hw Hs HQ. unfold fb_console_on_key, console_bytes, signals in *.
  destruct (pressed event); simpl in *.
  2: { destruct m. apply (HQ _ Hw). intros _. by rewrite app_nil_r. }
  assert (∀ s, (∀ b, wf b → ((length s ≤ room (fb_input m))%nat → contents b = contents (fb_input m) ++ s) →
      Q tt (Machine (kern m) (kbd m) b (fb_pgid m) (serial_inputs m) (serial_pgid m))) →
    wp (input_buf_write_str s) Q m) as Hstr.
  { intros s Hs'. unfold input_buf_write_str, in_fb_input. wp_keep.
    eapply wp_mono; [by apply evicting_both|]. intros n b [Hb Hc]. wp_keep. by apply Hs'. }
  destruct (key_sequence (event_keycode event)) as [s|]; [by apply Hstr|].
  destruct (key event =? 0); simpl in *.
  { destruct m. apply (HQ _ Hw). intros _. by rewrite app_nil_r. }
  set (c := control_key _ _) in *. apply orb_false_iff in Hs as [H3 H28].
  unfold in_kernel, tty_maybe_send_signal. wp_keep. rewrite H3, H28. wp_keep. destruct m. by apply Hstr.
Qed.

Definition total_bytes (es : list key_event) : list Z := es ≫= console_bytes.

Lemma total_bytes_cons e es : total_bytes (e :: es) = console_bytes e ++ total_bytes es.
Proof. done. Qed.

(** The keyboard and the console after any scan codes that do not signal. *)
Lemma wp_irq_all bytes es k0 m (Q : unit → machine → Prop) :
  wf (fb_input m) → queued es k0 (events (kbd m)) →
  let '(e0, st, new) := decode_all bytes (received_e0 (kbd m)) (state (kbd m)) in
  forallb (λ e, negb (signals e)) new = true →
  (∀ m', kern m' = kern m → queued (es ++ new) k0 (events (kbd m')) →
     queue_read_idx (events (kbd m')) = queue_read_idx (events (kbd m)) →
     received_e0 (kbd m') = e0 → state (kbd m') = st → wf (fb_input m') →
     ((length (total_bytes new) ≤ room (fb_input m))%nat →
        contents (fb_input m') = contents (fb_input m) ++ total_bytes new) → Q tt m') →
  wp (irq_all bytes) Q m.
Proof.
  revert es m. induction bytes as [|data bytes IH]; intros es m Hw Hq; simpl.
  { intros _ HQ. apply wp_ret. apply HQ; try done; [by rewrite app_nil_r|].
    intros _. unfold total_bytes. simpl. by rewrite app_nil_r. }
  destruct (decode data (received_e0 (kbd m)) (state (kbd m))) as [[e1 st1] e] eqn:Ed.
  destruct (decode_all bytes e1 st1) as [[e2 st2] new] eqn:Eall. intros Hns HQ.
  unfold irq_handler, in_keyboard. wp_keep. eapply wp_scan; [exact Hq|].
  intros k1 e0' st' e' Ed' Hq1 Hr1 He1 Hst1. rewrite Ed in Ed'. injection Ed' as <- <- <-. subst e1 st1.
  destruct e as [event|]; cbn [option_list] in *.
  - simpl in Hns. apply andb_true_iff in Hns as [Hn1 Hns]. apply negb_true_iff in Hn1.
    apply wp_on_key; [done|done|]. intros b Hb Hc. simpl in Hc.
    set (m1 := Machine _ _ b _ _ _). specialize (IH (es ++ [event]) m1 Hb Hq1). simpl in IH.
    rewrite Eall in IH. apply IH; [done|]. intros m' Hk' Hq' Hr' He' Hs' Hw' Hc'.
    rewrite <-app_assoc in Hq'. apply HQ; [done|done|by rewrite Hr'|done|done|done|].
    intros Hroom. rewrite total_bytes_cons in *. rewrite length_app in Hroom.
    specialize (Hc ltac:(lia)). pose proof (evicting_room _ _ _ Hw Hb Hc) as Hrb.
    rewrite Hc', Hc, <-app_assoc; [done|]. simpl. lia.
  - wp_keep. set (m1 := Machine _ k1 _ _ _ _). specialize (IH (es ++ []) m1 Hw Hq1). simpl in IH.
    rewrite Eall in IH. apply IH; [done|]. intros m' Hk' Hq' Hr' He' Hs' Hw' Hc'.
    rewrite app_nil_r in Hq'. apply HQ; try done. by rewrite Hr'.
Qed.

(** ** Typing a text *)

(** The US keyboard, apart from the tables of the driver: the keys of its rows by
    the scan codes of set 1 (of the first key of a row, the others count on), each
    with its character and the one it has with a shift key; the keys that have one
    character; of the keypad, the keys that are not cursor keys. *)
Definition keys_from (code : Z) (plain shifted : list Z) : list (Z * Z * Z) :=
  zip (zip (seqZ code (Z.of_nat (length plain))) plain) shifted.
Definition us_keyboard : list (Z * Z * Z) :=
  keys_from 2 (lit "1234567890-=") (lit "!@#$%^&*()_+") ++
  keys_from 16 (lit "qwertyuiop[]") (lit "QWERTYUIOP{}") ++
  keys_from 30 (lit "asdfghjkl;'") (lit "ASDFGHJKL:" ++ [34 (* the double quote *)]) ++
  keys_from 41 (lit "`") (lit "~") ++
  keys_from 43 (lit "\zxcvbnm,./") (lit "|ZXCVBNM<>?") ++
  [(1, 27, 27) (* escape *); (14, 8, 8) (* backspace *); (15, 9, 9) (* tab *);
   (28, 10, 10) (* enter *); (57, 32, 32) (* space *);
   (55, ch "*", ch "*"); (74, ch "-", ch "-"); (78, ch "+", ch "+")].
(** The scan codes of pressing and releasing a key, alone or while the left or the
    right shift key is down. *)
Definition strokes (code : Z) : list Z := [code; 128 + code].
Definition with_shift (shift code : Z) : list Z := [shift] ++ strokes code ++ [128 + shift].
Definition LEFT_SHIFT : Z := 42.
Definition RIGHT_SHIFT : Z := 54.
(** All ways to type a character. *)
Definition ways (c : Z) : list (list Z) :=
  us_keyboard ≫= λ '(code, plain, shifted),
    (if plain =? c then [strokes code] else []) ++
    (if shifted =? c then [with_shift LEFT_SHIFT code; with_shift RIGHT_SHIFT code] else []).
(** [keys] types the text [s]. *)
Definition typing (s : list Z) (keys : list (list Z)) : Prop := Forall2 (λ c k, k ∈ ways c) s keys.

Definition types (c : Z) (k : list Z) : bool :=
  match decode_all k false 0 with
  | (false, 0, es) => bool_decide (total_bytes es = [c]) && forallb (λ e, negb (signals e)) es
  | _ => false
  end.
Lemma ways_range c k : k ∈ ways c → 0 ≤ c < 128.
Proof.
  unfold ways. intros ([[code plain] shifted] & Hk & Hin)%list_elem_of_bind.
  assert (forallb (λ '(_, p, s), (0 <=? p) && (p <? 128) && (0 <=? s) && (s <? 128)) us_keyboard = true) as Hall
    by (vm_compute; reflexivity).
  rewrite forallb_forall in Hall. apply list_elem_of_In in Hin. specialize (Hall _ Hin). cbn beta iota in Hall.
  bool_to_prop. apply elem_of_app in Hk as [Hk|Hk]; case_match; bool_to_prop; try lia; by apply elem_of_nil in Hk.
Qed.
Lemma ways_type c k : k ∈ ways c → types c k = true.
Proof.
  intros Hk. pose proof (ways_range c k Hk) as Hc.
  assert (forallb (λ c, forallb (types c) (ways c)) (seqZ 0 128) = true) as Hall by (vm_compute; reflexivity).
  rewrite forallb_forall in Hall. specialize (Hall c). rewrite forallb_forall in Hall.
  apply Hall; apply list_elem_of_In; [apply elem_of_seqZ; lia|done].
Qed.

Lemma decode_all_app a b e0 st :
  decode_all (a ++ b) e0 st =
    let '(e1, st1, es) := decode_all a e0 st in
    let '(e2, st2, es') := decode_all b e1 st1 in (e2, st2, es ++ es').
Proof.
  revert e0 st. induction a as [|d a IH]; intros e0 st; simpl.
  { by destruct (decode_all b e0 st) as [[? ?] ?]. }
  destruct (decode d e0 st) as [[e1 st1] e]. rewrite IH.
  destruct (decode_all a e1 st1) as [[e2 st2] es]. destruct (decode_all b e2 st2) as [[e3 st3] es'].
  by destruct e.
Qed.
Lemma decode_text s keys :
  typing s keys →
  ∃ es, decode_all (mjoin keys) false 0 = (false, 0, es) ∧ total_bytes es = s ∧
    forallb (λ e, negb (signals e)) es = true.
Proof.
  induction 1 as [|c k s keys Hc Hs IH]; [by exists []|].
  destruct IH as (es & He & Ht & Hn). apply ways_type in Hc. unfold types in Hc.
  change (mjoin (k :: keys)) with (k ++ mjoin keys). rewrite decode_all_app.
  destruct (decode_all k false 0) as [[e1 st1] es1].
  destruct e1; [done|]. destruct st1; try done. rewrite He. bool_to_prop.
  exists (es1 ++ es). split_and!; [done| |].
  - unfold total_bytes in *. by rewrite bind_app, H, Ht.
  - rewrite forallb_app. by apply andb_true_iff.
Qed.

Lemma device_block_ready d should m :
  may_read d (kern m) → should m = Done true m → device_block d should m = Done 0 m.
Proof. apply block_on_ready. by destruct m. Qed.

(** ** Theorems *)

(** After any bytes from the keyboard, a bit of the modifier state is set
    exactly when the last keystroke of its keys was a press. *)
Lemma modifier_state_tracks_keys bytes i :
  0 ≤ i < 7 →
  Z.testbit (decode_all bytes false 0).1.2 i = held (keys_of_bit i) (keystrokes false bytes).
Proof.
  intros Hi. rewrite decode_all_bits by done. by rewrite Z.bits_0.
Qed.

(** An unread keyboard device hands out the last [n mod 128] of [n]
    events in order: up to 127 events all of them, and of more a multiple of 128
    is lost, because the ring is never checked for being full. *)
Lemma keyboard_device_read_events bytes d count m :
  queue_ok (events (kbd m)) → queue_is_empty (events (kbd m)) = true → wf (fb_input m) →
  may_read d (kern m) → sizeof_key_event * Z.of_nat QUEUE_SIZE ≤ count →
  let es := (decode_all bytes (received_e0 (kbd m)) (state (kbd m))).2 in
  forallb (λ e, negb (signals e)) es = true → unread es ≠ [] →
  wp (_ ← irq_all bytes; ps2_keyboard_device_read d count) (λ r m',
    r = (sizeof_key_event * Z.of_nat (length (unread es)), unread es) ∧
    queue_is_empty (events (kbd m')) = true) m.
Proof.
  intros Hk He Hw Hr Hc es Hns Hn. apply Nat.eqb_eq in He.
  pose proof (wp_irq_all bytes [] (events (kbd m)) m) as Hirq. pose proof (queued_nil _ Hk) as Hq.
  destruct (decode_all bytes _ _) as [[e0 st] es'] eqn:Ed. simpl in es. subst es.
  wp_keep. apply Hirq; [done|done|done|]. clear Hirq. intros m1 Hkern Hq1 Hri1 _ _ Hw1 _. simpl in Hq1.
  destruct (queued_unread es' _ _ Hk He Hq1 Hri1) as [_ Hne]. rewrite bool_decide_eq_false_2 in Hne by done.
  unfold ps2_keyboard_device_read. wp_keep.
  eapply wp_run.
  { apply device_block_ready; [by rewrite Hkern|]. unfold kbd_should_unblock, mbind, K_bind, get.
    by rewrite Hne. }
  cbn [IS_ERR]. change (IS_ERR 0) with false. cbv iota. wp_keep. rewrite Hne. unfold in_keyboard, in_events.
  wp_keep. eapply wp_read_unread; [exact Hk|exact He|exact Hq1|exact Hri1|done|done|].
  intros q' _ Hq'. wp_keep. split; [done|]. by apply Nat.eqb_eq.
Qed.

(** C25: a text typed on a US keyboard is read from the console unchanged: every
    character of the keyboard, typed by any key that has it, alone or with either
    shift key, up to the capacity of the input buffer. *)
Theorem typed_text_roundtrip s keys d count m :
  queue_ok (events (kbd m)) → received_e0 (kbd m) = false → state (kbd m) = 0 →
  wf (fb_input m) → contents (fb_input m) = [] → may_read d (kern m) →
  typing s keys → s ≠ [] → (length s < BUF_CAPACITY)%nat → Z.of_nat (length s) ≤ count →
  wp (_ ← irq_all (mjoin keys); fb_console_device_read d count) (λ r m',
    r = (Z.of_nat (length s), s) ∧ contents (fb_input m') = [] ∧ kern m' = kern m) m.
Proof.
  intros Hk He0 Hst Hw Hem Hr Hs Hne Hlen Hc.
  destruct (decode_text s keys Hs) as (es & Hd & Ht & Hns).
  pose proof (wp_irq_all (mjoin keys) [] (events (kbd m)) m) as Hirq. pose proof (queued_nil _ Hk) as Hq.
  rewrite He0, Hst, Hd in Hirq. wp_keep. apply Hirq; [done|done|done|]. clear Hirq.
  intros m1 Hkern _ _ _ _ Hw1 Hc1. rewrite Ht, Hem in Hc1.
  assert (contents (fb_input m1) = s) as Hcs.
  { apply Hc1. unfold room. rewrite <-length_contents, Hem by done. simpl. unfold BUF_CAPACITY in *. lia. }
  assert (ring_buf_is_empty (fb_input m1) = false) as Hnempty.
  { destruct (ring_buf_is_empty (fb_input m1)) eqn:E; [|done]. apply is_empty_spec in E; [|done]. congruence. }
  unfold fb_console_device_read. wp_keep.
  eapply wp_run.
  { apply device_block_ready; [by rewrite Hkern|]. unfold fb_read_should_unblock, mbind, K_bind, get.
    by rewrite Hnempty. }
  change (IS_ERR 0) with false. cbv iota. wp_keep. rewrite Hnempty. unfold in_fb_input. wp_keep.
  assert (0 < length s)%nat by (destruct s; simpl; [done|lia]).
  eapply wp_mono; [apply ring_buf_read_wp; [done|by rewrite Hcs|lia]|].
  intros bytes b (-> & Hb & _). wp_keep. rewrite Hcs in *.
  rewrite take_ge by lia. rewrite drop_ge in Hb by lia. done.
Qed.

(** ** Witnesses *)
Definition no_event : key_event := KeyEvent 0 0 KEYCODE_NONE 0 false.
(** A machine after start-up, with description 7 of the process open. *)
Definition started : machine :=
  Machine (with_descs <[7%nat := FileDescription 3 0 0 1]> (one_process (lit "/")))
    (Keyboard false 0 (EventRing (replicate QUEUE_SIZE no_event) 5 5)) empty_ring 1 [] 1.
Lemma started_reads : may_read 7 (kern started).
Proof. eexists _, _. split_and!; reflexivity. Qed.
Lemma started_queue : queue_ok (events (kbd started)).
Proof. split_and!; vm_compute; lia. Qed.

Lemma modifier_state_tracks_keys_witness :
  Z.testbit (decode_all [42; 30; 170; 224; 56] false 0).1.2 6 = true.
Proof. rewrite (modifier_state_tracks_keys [42; 30; 170; 224; 56] 6); [reflexivity|lia]. Defined.
(** The text "Ls -l" with both shift keys and the minus of the keypad. *)
Definition sample_keys : list (list Z) :=
  [with_shift RIGHT_SHIFT 38; strokes 31; strokes 57; strokes 74; strokes 38].
Lemma sample_typing : typing (lit "Ls -l") sample_keys.
Proof. repeat constructor; apply (bool_decide_unpack _); by vm_compute. Qed.
Lemma typed_text_roundtrip_witness :
  wp (_ ← irq_all (mjoin sample_keys); fb_console_device_read 7 1024) (λ r m',
    r = (5, lit "Ls -l") ∧ contents (fb_input m') = [] ∧ kern m' = kern started) started.
Proof.
  apply (typed_text_roundtrip (lit "Ls -l") sample_keys 7 1024 started started_queue eq_refl eq_refl wf_empty);
    [by vm_compute|exact started_reads|exact sample_typing|done|by vm_compute; lia|by vm_compute].
Defined.
(** Every printable character can be typed. *)
Example printable_typed : forallb (λ c, negb (bool_decide (ways c = []))) (seqZ 32 95) = true.
Proof. by vm_compute. Qed.
