(* ===== verification/Mouse.v ===== *)
(** * The mouse (kernel/hid/mouse.c)

    The interrupt handler collects packets of three bytes and turns each into an
    event of the ring that /dev/psaux hands out. [machine] joins the static
    variables of the file with the state of the kernel. *)
From S2P Require Import Prelude Errno Kernel Path Process EventQueue.

Record mouse_event : Type := MouseEvent { dx : Z; dy : Z; buttons : Z }.
Definition sizeof_mouse_event : Z := 6.
Definition MOUSE_BUTTON_LEFT : Z := 1.
Definition MOUSE_BUTTON_RIGHT : Z := 2.
Definition MOUSE_BUTTON_MIDDLE : Z := 4.

(** The static variables of mouse.c. *)
Record mouse : Type := Mouse {
  buf : list Z;
  state : nat;
  events : event_ring mouse_event;
}.
Definition set_buf (b : list Z) : K mouse unit := modify (λ s, Mouse b (state s) (events s)).
Definition set_state (n : nat) : K mouse unit := modify (λ s, Mouse (buf s) n (events s)).
Definition in_events {A} (m : K (event_ring mouse_event) A) : K mouse A :=
  zoom events (λ q s, Mouse (buf s) (state s) q) m.

(** The event of a packet: nine-bit numbers whose signs are in the first byte. *)
Definition packet_event (b0 b1 b2 : Z) : mouse_event :=
  let bit mask := negb (Z.land b0 mask =? 0) in
  let dx := if negb (b1 =? 0) && bit 0x10 then b1 - 0x100 else b1 in
  let dy := if negb (b2 =? 0) && bit 0x20 then b2 - 0x100 else b2 in
  if bit 0xc0 then MouseEvent 0 0 (Z.land b0 7) else MouseEvent dx (- dy) (Z.land b0 7).
Definition irq_handler (data : Z) : K mouse unit :=
  s ← get;
  _ ← access (buf s !! state s);
  _ ← set_buf (<[state s := data]> (buf s));
  match state s with
  | 0%nat => _ ← ASSERT (negb (Z.land data 8 =? 0)); set_state 1
  | 1%nat => set_state 2
  | 2%nat =>
      s ← get;
      b0 ← access (buf s !! 0%nat); b1 ← access (buf s !! 1%nat); b2 ← access (buf s !! 2%nat);
      _ ← in_events (push_event (packet_event b0 b1 b2));
      set_state 0
  | _ => panic
  end.

Record machine : Type := Machine { kern : kstate; ps2_mouse : mouse }.
Abbreviation M := (K machine).
Definition with_kern (s : kstate) (m : machine) : machine := Machine s (ps2_mouse m).
Definition in_mouse {A} (m : K mouse A) : M A := zoom ps2_mouse (λ x m, Machine (kern m) x) m.

Definition read_should_unblock : M bool := m ← get; mret (negb (queue_is_empty (events (ps2_mouse m)))).
Definition ps2_mouse_device_read (d : nat) (count : Z) : M (Z * list mouse_event) :=
  rc ← block_on kern with_kern d read_should_unblock;
  if IS_ERR rc then mret (rc, [])
  else
    m ← get;
    if queue_is_empty (events (ps2_mouse m)) then out_of_fuel
    else
      es ← in_mouse (in_events (read_events sizeof_mouse_event (S QUEUE_SIZE) count));
      mret (sizeof_mouse_event * Z.of_nat (length es), es).

Fixpoint irq_all (bytes : list Z) : K mouse unit :=
  match bytes with
  | [] => mret tt
  | data :: bytes => _ ← irq_handler data; irq_all bytes
  end.

(** ** Theorems *)

(** A movement as a mouse sends it: y grows upwards on the wire. *)
Record movement : Type := Movement { right_ : Z; up : Z; pressed_buttons : Z }.
Definition packet (v : movement) : list Z :=
  [8 + pressed_buttons v + 0x10 * Z.b2z (right_ v <? 0) + 0x20 * Z.b2z (up v <? 0); right_ v mod 256; up v mod 256].
Definition sent (v : movement) : mouse_event := MouseEvent (right_ v) (- up v) (pressed_buttons v).
Definition movement_ok (v : movement) : bool :=
  (-255 <=? right_ v) && (right_ v <=? 255) && (-255 <=? up v) && (up v <=? 255) &&
  (0 <=? pressed_buttons v) && (pressed_buttons v <=? 7).

(** The bits of the first byte. *)
Lemma first_byte p a c (b0 := 8 + p + 0x10 * Z.b2z a + 0x20 * Z.b2z c) :
  0 ≤ p ≤ 7 →
  Z.land b0 8 = 8 ∧ Z.land b0 7 = p ∧ Z.land b0 0xc0 = 0 ∧
  (Z.land b0 0x10 =? 0) = negb a ∧ (Z.land b0 0x20 =? 0) = negb c.
Proof.
  intros Hp. assert (p ∈ seqZ 0 8) as Hin by (apply elem_of_seqZ; lia). subst b0.
  vm_compute in Hin.
  repeat (apply elem_of_cons in Hin as [->|Hin]; [destruct a, c; done|]). by apply not_elem_of_nil in Hin.
Qed.
Lemma byte_of_signed x : -255 ≤ x ≤ 255 → x mod 256 = if x <? 0 then x + 256 else x.
Proof.
  intros Hx. destruct (Z.ltb_spec x 0); [|apply Z.mod_small; lia].
  rewrite <-(Z.mod_add x 1) by lia. apply Z.mod_small. lia.
Qed.
Lemma packet_decodes v :
  movement_ok v = true →
  match packet v with
  | [b0; b1; b2] => Z.land b0 8 ≠ 0 ∧ packet_event b0 b1 b2 = sent v
  | _ => False
  end.
Proof.
  destruct v as [x y p]. unfold movement_ok, packet, sent. cbn [right_ up pressed_buttons]. intros H.
  bool_to_prop. destruct (first_byte p (x <? 0) (y <? 0)) as (H8 & H7 & Hc0 & H10 & H20); [lia|].
  split; [lia|]. unfold packet_event. rewrite H7, Hc0, H10, H20, !byte_of_signed by lia. cbn [negb Z.eqb].
  f_equal; [destruct (Z.ltb_spec x 0)|destruct (Z.ltb_spec y 0)]; cbn [negb]; rewrite ?andb_true_r, ?andb_false_r;
    try lia; rewrite (proj2 (Z.eqb_neq _ 0)) by lia; cbn [negb]; lia.
Qed.

Definition mouse_ok (s : mouse) : Prop := length (buf s) = 3%nat ∧ state s = 0%nat.
Lemma irq_packet v q0 es s (Q : unit → mouse → Prop) :
  movement_ok v = true → mouse_ok s → queued es q0 (events s) →
  (∀ s', mouse_ok s' → queued (es ++ [sent v]) q0 (events s') →
     queue_read_idx (events s') = queue_read_idx (events s) → Q tt s') →
  wp (irq_all (packet v)) Q s.
Proof.
  intros Hv [Hb Hs] Hq HQ. apply packet_decodes in Hv.
  destruct (packet v) as [|b0 [|b1 [|b2 [|]]]]; try done. destruct Hv as [H8 Hev].
  destruct s as [b n q]. cbn [buf state events] in *. subst n.
  destruct b as [|a0 [|a1 [|a2 [|]]]]; try done.
  cbn [irq_all]. unfold irq_handler, set_buf, set_state, in_events.
  wp_go. rewrite (proj2 (Z.eqb_neq _ 0)) by exact H8. wp_go. rewrite Hev.
  eapply wp_push_event; [exact Hq|]. intros q' Hq' Hr'. wp_go. by apply HQ.
Qed.
Lemma wp_irq_app a b s (Q : unit → mouse → Prop) :
  wp (irq_all a) (λ _ s', wp (irq_all b) Q s') s → wp (irq_all (a ++ b)) Q s.
Proof.
  revert s. induction a as [|d a IH]; intros s H; [done|]. cbn [irq_all app].
  apply wp_bind. unfold wp in *. unfold irq_all in H; fold irq_all in H. unfold mbind, K_bind in H.
  destruct (irq_handler d s); [|done..]. by apply IH.
Qed.
Lemma irq_packets vs q0 es s (Q : unit → mouse → Prop) :
  forallb movement_ok vs = true → mouse_ok s → queued es q0 (events s) →
  (∀ s', mouse_ok s' → queued (es ++ (sent <$> vs)) q0 (events s') →
     queue_read_idx (events s') = queue_read_idx (events s) → Q tt s') →
  wp (irq_all (vs ≫= packet)) Q s.
Proof.
  revert es s. induction vs as [|v vs IH]; intros es s Hv Hs Hq HQ.
  { apply HQ; [done| |done]. by rewrite app_nil_r. }
  cbn [forallb] in Hv. apply andb_true_iff in Hv as [Hv Hvs].
  change ((v :: vs) ≫= packet) with (packet v ++ (vs ≫= packet)). apply wp_irq_app.
  eapply irq_packet; [done|done|exact Hq|]. intros s' Hs' Hq' Hr'.
  eapply IH; [done|done|exact Hq'|]. intros s2 Hs2 Hq2 Hr2. apply HQ; [done| |by rewrite Hr2].
  by rewrite <-app_assoc in Hq2.
Qed.

(** C27: movements sent as packets are read from the device as the same
    movements in the same order, with y downwards: up to 127 of them all, and of
    more all but the first multiple of 128, since nobody checks whether the ring
    is full. *)
Theorem mouse_roundtrip vs d count m :
  forallb movement_ok vs = true → mouse_ok (ps2_mouse m) → queue_ok (events (ps2_mouse m)) →
  queue_is_empty (events (ps2_mouse m)) = true → may_read d (kern m) →
  sizeof_mouse_event * Z.of_nat QUEUE_SIZE ≤ count → unread (sent <$> vs) ≠ [] →
  wp (_ ← in_mouse (irq_all (vs ≫= packet)); ps2_mouse_device_read d count) (λ r m',
    r = (sizeof_mouse_event * Z.of_nat (length vs mod QUEUE_SIZE), unread (sent <$> vs)) ∧
    queue_is_empty (events (ps2_mouse m')) = true ∧ kern m' = kern m) m.
Proof.
  intros Hv Hs Hk He Hr Hc Hne. apply Nat.eqb_eq in He. unfold in_mouse at 1. wp_keep.
  eapply irq_packets; [done|done|by apply queued_nil|]. intros s1 Hs1 Hq1 Hr1. simpl in Hq1.
  destruct (queued_unread _ _ _ Hk He Hq1 Hr1) as [_ Hd]. rewrite bool_decide_eq_false_2 in Hd by done.
  unfold ps2_mouse_device_read. wp_keep. eapply wp_run.
  { apply block_on_ready; [done|done|]. unfold read_should_unblock, mbind, K_bind, get.
    cbn [ps2_mouse]. by rewrite Hd. }
  change (IS_ERR 0) with false. cbv iota. wp_keep. cbn [ps2_mouse]. rewrite Hd. unfold in_mouse, in_events.
  wp_keep. eapply wp_read_unread; [exact Hk|exact He|exact Hq1|exact Hr1|done|done|].
  intros q' _ Hq'. wp_keep. split_and!; [|by apply Nat.eqb_eq|done].
  by rewrite length_unread, length_fmap.
Qed.

(** A byte that cannot begin a packet stops the machine: one lost byte and the
    next one with the bit for its data clear. *)
Lemma lost_byte_panics s data : mouse_ok s → Z.land data 8 = 0 → irq_handler data s = Panic.
Proof.
  intros [Hb Hs] Hd. destruct s as [b n q]. cbn [buf state] in *. subst n.
  destruct b as [|a0 b]; [done|]. unfold irq_handler, mbind, K_bind, get, access. simpl. by rewrite Hd.
Qed.
(** The largest movements to the left do not fit: -256 is taken for 0. *)
Lemma packet_of_minus_256 : packet_event (8 + 0x10) (-256 mod 256) 0 = MouseEvent 0 0 0.
Proof. reflexivity. Qed.

(** ** Witness *)
Definition still : machine :=
  Machine (with_descs <[7%nat := FileDescription 3 0 0 1]> (one_process (lit "/")))
    (Mouse [0; 0; 0] 0 (EventRing (replicate QUEUE_SIZE (MouseEvent 0 0 0)) 127 127)).
Lemma mouse_roundtrip_witness :
  wp (_ ← in_mouse (irq_all ([Movement (-3) 200 1; Movement 0 (-255) 6] ≫= packet)); ps2_mouse_device_read 7 768)
    (λ r m', r = (12, [MouseEvent (-3) (-200) 1; MouseEvent 0 255 6]) ∧
       queue_is_empty (events (ps2_mouse m')) = true ∧ kern m' = kern still) still.
Proof.
  apply (mouse_roundtrip [Movement (-3) 200 1; Movement 0 (-255) 6] 7 768 still);
    [reflexivity|by vm_compute|split_and!; vm_compute; lia|reflexivity|eexists _, _; split_and!; reflexivity
    |by vm_compute|by vm_compute].
Defined.
