(* ===== verification/Shell.v ===== *)
(** * The shell's line editor (userland/sh.c)

    The line editor turns bytes of the terminal into a line of at most
    [BUF_SIZE] bytes, kept in byte memory. It implements a text with a cursor. *)
From S2P Require Import Prelude CString CLib.

Definition BUF_SIZE : nat := 1024.
#[local] Arguments BUF_SIZE : simpl never.
#[local] Arguments Nat.sub : simpl never.

(** ** The line editor *)
Inductive editor_state : Type := STATE_GROUND | STATE_ESC | STATE_CSI | STATE_ACCEPTED.

(** [param_buf] holds the [param_len] bytes collected so far. *)
Record line_editor : Type := LineEditor {
  input_buf : mem;
  input_len : nat;
  cursor : nat;
  state : editor_state;
  dirty : bool;
  param_buf : list Z;
}.
Definition set_input (b : mem) (len cur : nat) (ed : line_editor) : line_editor :=
  LineEditor b len cur (state ed) true (param_buf ed).
Definition set_state (st : editor_state) (ed : line_editor) : line_editor :=
  LineEditor (input_buf ed) (input_len ed) (cursor ed) st (dirty ed) (param_buf ed).
Definition set_params (s : list Z) (ed : line_editor) : line_editor :=
  LineEditor (input_buf ed) (input_len ed) (cursor ed) (state ed) (dirty ed) s.

Abbreviation E := (K line_editor).
(** A computation on the memory of [input_buf]. *)
Definition on_buf {A} (m : K mem A) : E A :=
  zoom input_buf (λ b ed, LineEditor b (input_len ed) (cursor ed) (state ed) (dirty ed) (param_buf ed)) m.
(** [cursor] and [input_len] set, [dirty = true]. *)
Definition edited (len cur : nat) : E unit := modify (λ ed, set_input (input_buf ed) len cur ed).

(** strcpy of a literal. *)
Fixpoint store_string (p : ptr) (s : list Z) : K mem unit :=
  match s with
  | [] => store p 0
  | c :: s => _ ← store p c; store_string (S p) s
  end.

Definition handle_ground (c : Z) : E unit :=
  ed ← get;
  let cur := cursor ed in
  let len := input_len ed in
  if isprint (schar c) then
    _ ← on_buf (memmove (cur + 1) cur (len - cur));
    _ ← on_buf (store cur c);
    edited (len + 1) (cur + 1)
  else if c =? 27 then modify (set_state STATE_ESC)
  else if (c =? 13) || (c =? 10) then modify (set_state STATE_ACCEPTED)
  else if (c =? 8) || (c =? 127) then
    if (cur =? 0)%nat then mret tt
    else
      _ ← on_buf (memmove (cur - 1) cur (len - cur));
      _ ← on_buf (store (len - 1) 0);
      edited (len - 1) (cur - 1)
  else if c =? 21 then
    _ ← on_buf (memset 0 0 len); edited 0 0
  else if c =? 4 then
    if (len =? 0)%nat then
      _ ← on_buf (store_string 0 (lit "exit"));
      _ ← modify (set_state STATE_ACCEPTED);
      edited len cur
    else mret tt
  else if c =? 12 then edited len cur
  else mret tt.

Definition handle_state_esc (c : Z) : E unit :=
  if c =? ch "[" then _ ← modify (set_params []); modify (set_state STATE_CSI)
  else _ ← modify (set_state STATE_GROUND); handle_ground c.

Definition on_home : E unit := ed ← get; edited (input_len ed) 0.
Definition on_end : E unit := ed ← get; edited (input_len ed) (input_len ed).

(** The bytes of [param_buf] up to its first null character, as a string. *)
Definition params (ed : line_editor) : list Z := (span (λ c, negb (c =? 0)) (param_buf ed)).1.
Definition handle_csi_vt : E unit :=
  ed ← get;
  code ← (λ ed', match atoi 0 (params ed ++ [0]) with
                 | Done v _ => Done v ed'
                 | Panic => Panic
                 | Undef => Undef
                 | OutOfFuel => OutOfFuel
                 end);
  if (code =? 1) || (code =? 7) then on_home
  else if (code =? 4) || (code =? 8) then on_end
  else if code =? 3 then
    let cur := cursor ed in
    let len := input_len ed in
    if (cur <? len)%nat then
      _ ← on_buf (memmove cur (cur + 1) (len - cur - 1));
      _ ← on_buf (store (len - 1) 0);
      edited (len - 1) cur
    else mret tt
  else mret tt.

(** A byte or the terminator is stored to [param_buf[param_len]]. *)
Definition handle_state_csi (c : Z) : E unit :=
  ed ← get;
  if negb (length (param_buf ed) <? BUF_SIZE)%nat then undef
  else if schar c <? 64 then modify (set_params (param_buf ed ++ [c]))
  else
    _ ← (if c =? ch "C" then
           (if (cursor ed <? input_len ed)%nat then edited (input_len ed) (cursor ed + 1) else mret tt)
         else if c =? ch "D" then
           (if (0 <? cursor ed)%nat then edited (input_len ed) (cursor ed - 1) else mret tt)
         else if c =? ch "H" then on_home
         else if c =? ch "F" then on_end
         else if c =? ch "~" then handle_csi_vt
         else mret tt);
    modify (set_state STATE_GROUND).

Definition on_char (c : Z) : E unit :=
  ed ← get;
  match state ed with
  | STATE_GROUND => handle_ground c
  | STATE_ESC => handle_state_esc c
  | STATE_CSI => handle_state_csi c
  | STATE_ACCEPTED => panic
  end.

(** read_input without the prompt: the characters read until a line is
    accepted. *)
Definition start_line : E unit :=
  modify (λ ed, LineEditor (replicate BUF_SIZE 0) 0 0 STATE_GROUND true (param_buf ed)).
Fixpoint read_chars (s : list Z) : E unit :=
  match s with
  | [] => mret tt
  | c :: s =>
      _ ← on_char c;
      ed ← get;
      match state ed with STATE_ACCEPTED => mret tt | _ => read_chars s end
  end.

(** ** What the editor implements: the text before and after a cursor *)
Inductive edit_key : Type := Ins (c : Z) | Backspace | KillLine | Left | Right | Home | End_ | Delete.
Definition encode (k : edit_key) : list Z :=
  match k with
  | Ins c => [c]
  | Backspace => [127]
  | KillLine => [21]
  | Left => 27 :: lit "[D"
  | Right => 27 :: lit "[C"
  | Home => 27 :: lit "[H"
  | End_ => 27 :: lit "[F"
  | Delete => 27 :: lit "[3~"
  end.
(** The text before the cursor is kept in reverse. *)
Definition edit (k : edit_key) (t : list Z * list Z) : list Z * list Z :=
  let '(l, r) := t in
  match k with
  | Ins c => (c :: l, r)
  | Backspace => (tail l, r)
  | KillLine => ([], [])
  | Left => match l with c :: l => (l, c :: r) | [] => (l, r) end
  | Right => match r with c :: r => (c :: l, r) | [] => (l, r) end
  | Home => ([], reverse l ++ r)
  | End_ => (reverse r ++ l, [])
  | Delete => (l, tail r)
  end.
Definition text (t : list Z * list Z) : list Z := reverse t.1 ++ t.2.

(** The line in the buffer, zeros behind it. *)
Definition buffer_of (a : list Z) : mem := a ++ replicate (BUF_SIZE - length a) 0.
Definition implements (ed : line_editor) (t : list Z * list Z) : Prop :=
  state ed = STATE_GROUND ∧ cursor ed = length t.1 ∧ input_len ed = length (text t) ∧
  (length (text t) < BUF_SIZE)%nat ∧ Forall (λ c, isprint c = true) (text t) ∧
  input_buf ed = buffer_of (text t).

(** ** Reasoning about the buffer *)
Lemma length_buffer a : (length a ≤ BUF_SIZE)%nat → length (buffer_of a) = BUF_SIZE.
Proof. intros. unfold buffer_of. rewrite length_app, length_replicate. lia. Qed.
Lemma splice_here {A} (a k m : list A) : splice (length a) k (a ++ m) = a ++ k ++ drop (length k) m.
Proof.
  unfold splice. rewrite take_app_length. do 2 f_equal.
  rewrite drop_app_ge by lia. f_equal. lia.
Qed.
Lemma drop_take_middle {A} (a b m : list A) : take (length b) (drop (length a) (a ++ b ++ m)) = b.
Proof. by rewrite drop_app_length, take_app_length. Qed.

Lemma buffer_bytes a : Forall (λ c, isprint c = true) a → bytes (buffer_of a).
Proof.
  intros Ha. unfold bytes, buffer_of. apply Forall_app. split.
  - eapply Forall_impl; [exact Ha|]. cbv beta. unfold isprint. intros c Hc. bool_to_prop. lia.
  - apply Forall_replicate. lia.
Qed.
Lemma wp_on_buf {A} (m : K mem A) (Q : A → line_editor → Prop) ed :
  wp m (λ a b, Q a (LineEditor b (input_len ed) (cursor ed) (state ed) (dirty ed) (param_buf ed))) (input_buf ed) →
  wp (on_buf m) Q ed.
Proof. intros Hm. unfold on_buf. by apply wp_zoom. Qed.

Lemma insert_before_splice {A} (i : nat) (x : A) k m :
  (i < length m)%nat → <[i := x]> (splice (S i) k m) = splice i (x :: k) m.
Proof.
  intros Hi. rewrite <-insert_splice by done. unfold splice.
  rewrite insert_app_l by (rewrite length_take; lia).
  rewrite take_insert_lt by lia. by rewrite drop_insert_lt by lia.
Qed.
Lemma drop_zeros (b : list Z) n k :
  (length b ≤ k)%nat → drop k (b ++ replicate n 0) = replicate (n - (k - length b)) 0.
Proof. intros Hk. rewrite drop_app_ge by lia. by rewrite drop_replicate. Qed.

(** Making room for a character and storing it. *)
Lemma wp_insert a b c ed (Q : unit → line_editor → Prop) :
  input_buf ed = buffer_of (a ++ b) → Forall (λ c, isprint c = true) (a ++ b) →
  (length a + length b + 1 < BUF_SIZE)%nat →
  Q tt (LineEditor (buffer_of (a ++ c :: b)) (input_len ed) (cursor ed) (state ed) (dirty ed) (param_buf ed)) →
  wp (_ ← on_buf (memmove (length a + 1) (length a) (length b)); on_buf (store (length a) c)) Q ed.
Proof.
  intros Hb Hp Hl HQ. wp_keep. apply wp_on_buf. rewrite Hb.
  pose proof (length_buffer (a ++ b) ltac:(rewrite length_app; lia)) as Hlen.
  eapply wp_mono.
  { apply memmove_spec; [by apply buffer_bytes|lia|lia|rewrite Hlen; by vm_compute]. }
  intros _ m' [_ ->]. apply wp_on_buf. cbn [input_buf].
  apply wp_store; [rewrite length_splice; rewrite ?length_take, ?length_drop; lia|].
  rewrite Nat.add_1_r, insert_before_splice by lia.
  unfold buffer_of at 1 2. rewrite <-!app_assoc, drop_take_middle, splice_here. cbn [length].
  rewrite drop_zeros by lia.
  replace (BUF_SIZE - length (a ++ b) - (S (length b) - length b))%nat
    with (BUF_SIZE - length (a ++ c :: b))%nat by (rewrite !length_app; simpl; lia).
  unfold buffer_of in HQ. rewrite <-app_assoc in HQ. exact HQ.
Qed.

(** Closing the gap of a character and clearing the last place. *)
Lemma wp_remove a b c ed (Q : unit → line_editor → Prop) :
  input_buf ed = buffer_of (a ++ c :: b) → Forall (λ c, isprint c = true) (a ++ c :: b) →
  (length a + length b + 1 < BUF_SIZE)%nat →
  Q tt (LineEditor (buffer_of (a ++ b)) (input_len ed) (cursor ed) (state ed) (dirty ed) (param_buf ed)) →
  wp (_ ← on_buf (memmove (length a) (length a + 1) (length b)); on_buf (store (length a + length b) 0)) Q ed.
Proof.
  intros Hb Hp Hl HQ. wp_keep. apply wp_on_buf. rewrite Hb.
  assert (length (a ++ c :: b) = length a + length b + 1)%nat as Hlc by (rewrite length_app; simpl; lia).
  pose proof (length_buffer (a ++ c :: b) ltac:(lia)) as Hlen.
  eapply wp_mono.
  { apply memmove_spec; [by apply buffer_bytes|lia|lia|rewrite Hlen; by vm_compute]. }
  intros _ m' [_ ->]. apply wp_on_buf. cbn [input_buf].
  assert (take (length b) (drop (length a + 1) (buffer_of (a ++ c :: b))) = b) as ->.
  { unfold buffer_of. generalize (replicate (BUF_SIZE - length (a ++ c :: b)) 0). intros z.
    rewrite <-app_assoc. change ((c :: b) ++ z) with ([c] ++ b ++ z). rewrite (app_assoc a [c]).
    replace (length a + 1)%nat with (length (a ++ [c])) by (by rewrite length_app).
    apply drop_take_middle. }
  apply wp_store; [rewrite length_splice; lia|].
  assert (<[(length a + length b)%nat := 0]> (splice (length a) b (buffer_of (a ++ c :: b))) = buffer_of (a ++ b)) as ->;
    [|exact HQ].
  unfold buffer_of at 1. rewrite <-app_assoc, splice_here.
  rewrite insert_app_r_alt by lia. replace (length a + length b - length a)%nat with (length b) by lia.
  rewrite insert_app_r_alt by lia. rewrite Nat.sub_diag.
  set (z := replicate (BUF_SIZE - length (a ++ c :: b)) 0).
  assert (<[0%nat := 0]> (drop (length b) ((c :: b) ++ z)) = 0 :: z) as ->.
  { rewrite drop_app_le by (simpl; lia).
    assert (length (drop (length b) (c :: b)) = 1)%nat as H1 by (rewrite length_drop; simpl; lia).
    destruct (drop (length b) (c :: b)) as [|x [|]]; [done|done|done]. }
  unfold buffer_of, z. rewrite <-app_assoc. do 2 f_equal.
  change (0 :: replicate ?n 0) with (replicate (S n) 0). f_equal. rewrite !length_app. simpl. lia.
Qed.

Definition key_ok (k : edit_key) : Prop := match k with Ins c => isprint c = true | _ => True end.
(** The text without what is not of interest here. *)
Lemma implements_intro b len cur d p t :
  cur = length t.1 → len = length (text t) → (length (text t) < BUF_SIZE)%nat →
  Forall (λ c, isprint c = true) (text t) → b = buffer_of (text t) →
  implements (LineEditor b len cur STATE_GROUND d p) t.
Proof. intros -> -> ? ? ->. by split_and!. Qed.

Lemma printable_schar c : isprint c = true → schar c = c.
Proof.
  unfold isprint. intros Hc. bool_to_prop. unfold schar. rewrite u8_small by lia.
  case_match; bool_to_prop; lia.
Qed.

Lemma ins_simulates c l r ed (Q : unit → line_editor → Prop) :
  implements ed (l, r) → isprint c = true → (length l + length r + 1 < BUF_SIZE)%nat →
  (∀ ed', implements ed' (c :: l, r) → Q tt ed') → wp (handle_ground c) Q ed.
Proof.
  intros (Hst & Hcur & Hlen & Hlt & Hp & Hb) Hc Hl HQ. unfold text in *. simpl in *.
  unfold handle_ground. apply wp_bind, wp_get. rewrite printable_schar, Hc by done.
  rewrite Hcur, Hlen, length_app, length_reverse. 
  apply wp_assoc. replace (length l + length r - length l)%nat with (length r) by lia.
  rewrite <-(length_reverse l). apply wp_bind.
  apply (wp_insert (reverse l) r); [done|done|rewrite length_reverse; lia|].
  unfold edited. apply wp_modify, HQ. unfold set_input. simpl. rewrite Hst.
  assert (reverse l ++ c :: r = text (c :: l, r)) as Ht.
  { unfold text. simpl. by rewrite reverse_cons, <-app_assoc. }
  apply implements_intro; rewrite <-?Ht; [simpl; rewrite length_reverse; lia| | | |by rewrite Ht].
  - rewrite length_app, length_reverse. simpl. lia.
  - rewrite length_app, length_reverse. simpl. lia.
  - apply Forall_app in Hp as [? ?]. apply Forall_app; split; [done|]. by constructor.
Qed.
Lemma text_cons c l r : text (c :: l, r) = reverse l ++ c :: r.
Proof. unfold text. simpl. by rewrite reverse_cons, <-app_assoc. Qed.
Lemma length_text l r : length (text (l, r)) = (length l + length r)%nat.
Proof. unfold text. simpl. by rewrite length_app, length_reverse. Qed.

(** Taking out the character between [l] and [r]. *)
Lemma remove_simulates l c r ed (Q : unit → line_editor → Prop) :
  input_buf ed = buffer_of (reverse l ++ c :: r) →
  Forall (λ c, isprint c = true) (reverse l ++ c :: r) →
  (length l + length r + 1 < BUF_SIZE)%nat →
  Q tt (LineEditor (buffer_of (text (l, r))) (length l + length r) (length l) (state ed) true (param_buf ed)) →
  wp (_ ← on_buf (memmove (length l) (length l + 1) (length r));
      _ ← on_buf (store (length l + length r) 0); edited (length l + length r) (length l)) Q ed.
Proof.
  intros Hb Hp Hl HQ. apply wp_assoc, wp_bind.
  pose proof (wp_remove (reverse l) r c ed
    (λ _ s', wp (edited (length l + length r) (length l)) Q s')) as Hw.
  rewrite length_reverse in Hw. apply Hw; [done|done|done|].
  unfold edited. apply wp_modify. exact HQ.
Qed.
Lemma printable_remove l c r :
  Forall (λ c, isprint c = true) (reverse l ++ c :: r) → Forall (λ c, isprint c = true) (text (l, r)).
Proof. intros [H1 H2]%Forall_app. inversion_clear H2. apply Forall_app. by split. Qed.

Lemma backspace_simulates t ed (Q : unit → line_editor → Prop) :
  implements ed t → (∀ ed', implements ed' (edit Backspace t) → Q tt ed') → wp (handle_ground 127) Q ed.
Proof.
  destruct t as [l r]. intros Hi HQ. pose proof Hi as (Hst & Hcur & Hlen & Hlt & Hp & Hb).
  unfold handle_ground. apply wp_bind, wp_get. cbn [isprint schar]. change (isprint (schar 127)) with false.
  cbn [Z.eqb Pos.eqb orb]. cbv iota. rewrite Hcur. destruct l as [|c l].
  { simpl. apply wp_ret, HQ. done. }
  rewrite Hlen, length_text in *. cbn [length fst Nat.eqb] in *. cbv iota. rewrite text_cons in *.
  replace (S (length l) - 1)%nat with (length l) by lia.
  replace (S (length l) + length r - S (length l))%nat with (length r) by lia.
  replace (S (length l) + length r - 1)%nat with (length l + length r)%nat by lia.
  replace (S (length l)) with (length l + 1)%nat by lia.
  apply (remove_simulates l c r); [done|done|lia|]. apply HQ. rewrite Hst.
  apply implements_intro; simpl; [done|by rewrite length_text|rewrite length_text; lia|by eapply printable_remove|done].
Qed.

Lemma delete_simulates t ed (Q : unit → line_editor → Prop) :
  implements (set_state STATE_GROUND ed) t → state ed = STATE_CSI → param_buf ed = lit "3" →
  (∀ ed', implements (set_state STATE_GROUND ed') (edit Delete t) → Q tt ed') → wp handle_csi_vt Q ed.
Proof.
  destruct t as [l r]. intros Hi Hst Hpar HQ. pose proof Hi as (_ & Hcur & Hlen & Hlt & Hp & Hb).
  cbn [cursor input_len input_buf set_state fst] in *.
  unfold handle_csi_vt. apply wp_bind, wp_get. apply wp_bind. unfold wp at 1.
  assert (params ed = lit "3") as -> by (unfold params; by rewrite Hpar).
  change (atoi 0 (lit "3" ++ [0])) with (@Done mem Z 3 (lit "3" ++ [0])).
  cbn [Z.eqb Pos.eqb orb]. cbv beta iota. rewrite Hcur, Hlen, length_text in *.
  destruct r as [|c r].
  { cbn [length]. rewrite Nat.add_0_r, Nat.ltb_irrefl. apply wp_ret, HQ. done. }
  cbn [length]. rewrite (proj2 (Nat.ltb_lt _ _)) by lia.
  replace (length l + S (length r) - length l - 1)%nat with (length r) by lia.
  replace (length l + S (length r) - 1)%nat with (length l + length r)%nat by lia.
  cbn [length] in Hlt.
  apply (remove_simulates l c r); [done|done|lia|]. apply HQ. unfold set_state. simpl.
  apply implements_intro; simpl; [done|by rewrite length_text|rewrite length_text; lia|by eapply printable_remove|done].
Qed.

Lemma kill_simulates t ed (Q : unit → line_editor → Prop) :
  implements ed t → (∀ ed', implements ed' ([], []) → Q tt ed') → wp (handle_ground 21) Q ed.
Proof.
  intros (Hst & Hcur & Hlen & Hlt & Hp & Hb) HQ.
  unfold handle_ground. apply wp_bind, wp_get. change (isprint (schar 21)) with false.
  cbn [Z.eqb Pos.eqb orb]. cbv iota. apply wp_bind, wp_on_buf. rewrite Hb.
  pose proof (length_buffer (text t) ltac:(lia)) as Hlb.
  eapply wp_mono; [apply memset_spec; [lia|rewrite Hlb; lia]|]. intros _ m' [_ ->].
  unfold edited. apply wp_modify, HQ. unfold set_input. simpl. rewrite Hst.
  apply implements_intro; [done|done|by vm_compute; lia|by apply Forall_nil|].
  pose proof (splice_here [] (replicate (input_len ed) 0) (buffer_of (text t))) as Hsp.
  cbn [length app] in Hsp. rewrite Hsp, length_replicate, Hlen.
  unfold buffer_of at 1. rewrite drop_app_length. unfold buffer_of. cbn [text fst snd reverse app length].
  rewrite <-replicate_add. change (text ([], [])) with (@nil Z). cbn [app length]. f_equal. lia.
Qed.

(** Escape sequences that move the cursor. *)
Lemma escape_run ed rest (Q : unit → line_editor → Prop) :
  state ed = STATE_GROUND →
  wp (read_chars rest) Q (set_state STATE_CSI (set_params [] (set_state STATE_ESC ed))) →
  wp (read_chars (27 :: ch "[" :: rest)) Q ed.
Proof.
  intros Hst HQ. cbn [read_chars]. apply wp_bind. unfold on_char at 1. apply wp_bind, wp_get. rewrite Hst.
  unfold handle_ground. apply wp_bind, wp_get. change (isprint (schar 27)) with false.
  cbn [Z.eqb Pos.eqb]. cbv iota. apply wp_modify, wp_bind, wp_get. cbn [state set_state].
  apply wp_bind. unfold on_char at 1. apply wp_bind, wp_get. cbn [state set_state].
  unfold handle_state_esc. change (ch "[" =? ch "[") with true. cbv iota.
  apply wp_bind, wp_modify, wp_modify, wp_bind, wp_get. exact HQ.
Qed.
(** Reading on after a character that does not end the line. *)
Lemma read_on c rest ed (Q : unit → line_editor → Prop) :
  wp (on_char c) (λ _ ed', state ed' ≠ STATE_ACCEPTED ∧ wp (read_chars rest) Q ed') ed →
  wp (read_chars (c :: rest)) Q ed.
Proof.
  intros H. cbn [read_chars]. apply wp_bind. eapply wp_mono; [exact H|]. intros [] ed' [Hs HQ].
  apply wp_bind, wp_get. by destruct (state ed').
Qed.
Lemma not_accepted ed t : implements ed t → state ed ≠ STATE_ACCEPTED.
Proof. by intros [-> _]. Qed.

(** The final byte of a sequence without parameters. *)
Lemma csi_run c ed rest (Q : unit → line_editor → Prop) :
  state ed = STATE_CSI → (length (param_buf ed) < BUF_SIZE)%nat → 64 ≤ schar c →
  wp (if c =? ch "C" then
        (if (cursor ed <? input_len ed)%nat then edited (input_len ed) (cursor ed + 1) else mret tt)
      else if c =? ch "D" then
        (if (0 <? cursor ed)%nat then edited (input_len ed) (cursor ed - 1) else mret tt)
      else if c =? ch "H" then on_home
      else if c =? ch "F" then on_end
      else if c =? ch "~" then handle_csi_vt
      else mret tt) (λ _ ed', wp (read_chars rest) Q (set_state STATE_GROUND ed')) ed →
  wp (read_chars (c :: rest)) Q ed.
Proof.
  intros Hst Hp Hc HQ. apply read_on. unfold on_char. apply wp_bind, wp_get. rewrite Hst.
  unfold handle_state_csi. apply wp_bind, wp_get.
  rewrite (proj2 (Nat.ltb_lt _ _)), (proj2 (Z.ltb_ge _ _)) by done. simpl negb. cbv iota.
  apply wp_bind. eapply wp_mono; [exact HQ|]. intros [] ed' H. by apply wp_modify.
Qed.

Lemma key_simulates k t ed rest (Q : unit → line_editor → Prop) :
  implements ed t → key_ok k → (length (text t) + 1 < BUF_SIZE)%nat →
  (∀ ed', implements ed' (edit k t) → wp (read_chars rest) Q ed') →
  wp (read_chars (encode k ++ rest)) Q ed.
Proof.
  intros Hi Hk Hl HQ. destruct t as [l r]. rewrite length_text in Hl.
  pose proof Hi as (Hst & Hcur & Hlen & Hlt & Hp & Hb). rewrite length_text in *.
  set (ed1 := set_state STATE_CSI (set_params [] (set_state STATE_ESC ed))).
  assert (∀ ed', implements ed' (edit k (l, r)) → state ed' ≠ STATE_ACCEPTED ∧ wp (read_chars rest) Q ed') as HQ'.
  { intros ed' Hi'. split; [by eapply not_accepted|by apply HQ]. }
  assert (∀ d p cur t', cur = length t'.1 → text t' = text (l, r) →
    implements (LineEditor (input_buf ed) (input_len ed) cur STATE_GROUND d p) t') as Hmove.
  { intros d p cur t' Hc Ht. apply implements_intro; rewrite ?Ht; try done; [by rewrite length_text|].
    by rewrite length_text. }
  destruct k as [c| | | | | | |]; cbn [encode lit app].
  - apply read_on. unfold on_char. apply wp_bind, wp_get. rewrite Hst.
    apply (ins_simulates c l r); [done|done|lia|exact HQ'].
  - apply read_on. unfold on_char. apply wp_bind, wp_get. rewrite Hst.
    by apply (backspace_simulates (l, r)).
  - apply read_on. unfold on_char. apply wp_bind, wp_get. rewrite Hst.
    by apply (kill_simulates (l, r)).
  - apply escape_run; [done|]. apply csi_run; [done|by vm_compute; lia|by vm_compute|].
    change (ch "D" =? ch "C") with false. change (ch "D" =? ch "D") with true. cbv iota.
    fold ed1. change (cursor ed1) with (cursor ed). rewrite Hcur. destruct l as [|c l]; simpl.
    + apply HQ. by apply (Hmove _ _ _ ([], r)).
    + apply HQ. apply (Hmove _ _ _ (l, c :: r)); [simpl; lia|by rewrite text_cons].
  - apply escape_run; [done|]. apply csi_run; [done|by vm_compute; lia|by vm_compute|].
    change (ch "C" =? ch "C") with true. cbv iota.
    fold ed1. change (cursor ed1) with (cursor ed). change (input_len ed1) with (input_len ed).
    rewrite Hcur, Hlen. destruct r as [|c r]; simpl.
    + rewrite Nat.add_0_r, Nat.ltb_irrefl. apply HQ. by apply (Hmove _ _ _ (l, [])).
    + rewrite (proj2 (Nat.ltb_lt _ _)) by lia.
      simpl in Hlen. rewrite <-Hlen. apply HQ.
      apply (Hmove _ _ _ (c :: l, r)); [simpl; lia|by rewrite text_cons].
  - apply escape_run; [done|]. apply csi_run; [done|by vm_compute; lia|by vm_compute|].
    apply HQ. by apply (Hmove _ _ _ ([], reverse l ++ r)).
  - apply escape_run; [done|]. apply csi_run; [done|by vm_compute; lia|by vm_compute|].
    apply HQ. apply (Hmove _ _ _ (reverse r ++ l, [])).
    + simpl. rewrite length_app, length_reverse, Hlen. lia.
    + unfold text. simpl. by rewrite reverse_app, reverse_involutive, app_nil_r.
  - apply escape_run; [done|]. apply read_on. unfold on_char. apply wp_bind, wp_get. cbn [state set_state].
    unfold handle_state_csi. wp_go. split; [done|].
    apply csi_run; [done|by vm_compute; lia|by vm_compute|].
    change (wp handle_csi_vt (λ _ ed', wp (read_chars rest) Q (set_state STATE_GROUND ed')) (set_params (lit "3") ed1)).
    apply (delete_simulates (l, r)); [|done|done|intros ed' Hi'; by apply HQ].
    by apply (Hmove _ _ (cursor ed) (l, r)).
Qed.

(** The longest the text gets. *)
Lemma length_edit k t : (length (text (edit k t)) ≤ length (text t) + 1)%nat.
Proof.
  destruct t as [l r]. unfold text.
  destruct k; destruct l, r; cbn [edit fst snd tail];
    rewrite ?reverse_nil, ?length_app, ?length_reverse; cbn [length];
    rewrite ?length_app, ?length_reverse; cbn [length]; lia.
Qed.

Lemma keys_simulate ks t ed (Q : unit → line_editor → Prop) rest :
  implements ed t → Forall key_ok ks → (length (text t) + length ks < BUF_SIZE)%nat →
  (∀ ed', implements ed' (foldl (λ t k, edit k t) t ks) → wp (read_chars rest) Q ed') →
  wp (read_chars ((ks ≫= encode) ++ rest)) Q ed.
Proof.
  intros Hi Hk. revert t ed Hi. induction Hk as [|k ks Hk Hks IH]; intros t ed Hi Hl HQ; [by apply HQ|].
  change ((k :: ks) ≫= encode) with (encode k ++ (ks ≫= encode)). rewrite <-app_assoc.
  simpl length in Hl. apply (key_simulates k t); [done|done|lia|]. intros ed' Hi'.
  apply (IH _ ed' Hi'); [|exact HQ]. pose proof (length_edit k t). lia.
Qed.

(** What read_input returns when the line is accepted with the return key. *)
Definition edited_line (ks : list edit_key) : list Z := text (foldl (λ t k, edit k t) ([], []) ks).

Lemma start_implements ed : wp start_line (λ _ ed', implements ed' ([], [])) ed.
Proof.
  unfold start_line. apply wp_modify, implements_intro; [done|done|by vm_compute; lia|by apply Forall_nil|].
  unfold buffer_of. change (text ([], [])) with (@nil Z). by rewrite Nat.sub_0_r.
Qed.

Lemma read_line_wp ks ed :
  Forall key_ok ks → (length ks < BUF_SIZE)%nat →
  wp (_ ← start_line; read_chars ((ks ≫= encode) ++ [10])) (λ _ ed',
    state ed' = STATE_ACCEPTED ∧ cstr (input_buf ed') 0 (edited_line ks) ∧
    input_buf ed' = buffer_of (edited_line ks)) ed.
Proof.
  intros Hk Hl. apply wp_bind. eapply wp_mono; [apply start_implements|]. intros [] ed0 Hi.
  eapply keys_simulate; [exact Hi|done|done|]. intros ed1 (Hst & _ & _ & Hlt & Hp & Hb).
  cbn [read_chars]. apply wp_bind. unfold on_char. apply wp_bind, wp_get. rewrite Hst.
  unfold handle_ground. apply wp_bind, wp_get. change (isprint (schar 10)) with false.
  cbn [Z.eqb Pos.eqb orb]. cbv iota. apply wp_modify, wp_bind, wp_get. cbn [state set_state]. apply wp_ret.
  split_and!; [done| |exact Hb]. cbn [input_buf set_state]. rewrite Hb. fold (edited_line ks).
  unfold edited_line, buffer_of in *. set (t := text _) in *.
  replace (BUF_SIZE - length t)%nat with (S (BUF_SIZE - length t - 1)) by lia. cbn [replicate].
  apply (cstr_here [] t). eapply Forall_impl; [exact Hp|]. cbv beta. unfold isprint.
  intros c Hc. bool_to_prop. lia.
Qed.

(** ** The theorem *)
(** C28: the line editor implements a text with a cursor: whatever sequence of
    keys is pressed before return (characters, backspace, delete, arrows, home,
    end, kill), fewer than [BUF_SIZE] of them, the buffer given to the parser
    holds, null-terminated and padded with zeros, the text that the keys edit. *)
Theorem read_line_refines ks ed :
  Forall key_ok ks → (length ks < BUF_SIZE)%nat →
  wp (_ ← start_line; read_chars ((ks ≫= encode) ++ [10])) (λ _ ed',
    state ed' = STATE_ACCEPTED ∧ cstr (input_buf ed') 0 (edited_line ks) ∧
    input_buf ed' = buffer_of (edited_line ks)) ed.
Proof. apply read_line_wp. Qed.

(** ** Witness *)
Definition keys_pressed : list edit_key :=
  [Ins 115; Ins 88; Left; Left; Ins 108; Right; Delete; End_; Ins 32; Backspace; Home; Right].
Example keys_make_ls : edited_line keys_pressed = lit "ls".
Proof. reflexivity. Qed.
Definition fresh_editor : line_editor := LineEditor [] 0 0 STATE_GROUND false [].

Lemma read_line_refines_witness :
  wp (_ ← start_line; read_chars ((keys_pressed ≫= encode) ++ [10])) (λ _ ed',
    state ed' = STATE_ACCEPTED ∧ cstr (input_buf ed') 0 (edited_line keys_pressed) ∧
    input_buf ed' = buffer_of (edited_line keys_pressed)) fresh_editor.
Proof.
  apply (read_line_refines keys_pressed fresh_editor); [|by vm_compute; lia].
  unfold keys_pressed. repeat (apply Forall_cons_2; [first [exact I|reflexivity]|]). by apply Forall_nil.
Defined.
