(* ===== verification/ShellParser.v ===== *)
(** * The shell's command parser (userland/sh.c)

    The parser turns a null-terminated line into a tree of commands whose
    strings are spans of the line; [null_terminate] then closes each span in
    place. The theorems say that it is total and accepts the language of a
    grammar of words and operators, whatever the white space between them. *)
From S2P Require Import Prelude CString CLib.

(** ** Data *)
Definition MAX_ARGC : nat := 16.
#[local] Arguments MAX_ARGC : simpl never.

(** A tree over [A]: the parser builds one of spans of the line (an address and
    a length); its text is one of strings. [argv] is the list of its non-null
    entries. *)
Inductive node (A : Type) : Type :=
| CMD_EXECUTE (argv : list A)
| CMD_JUXTAPOSITION (left right : node A)
| CMD_PIPE (left right : node A)
| CMD_REDIRECT (from : node A) (to : A)
| CMD_BACKGROUND (inner : node A).
Arguments CMD_EXECUTE {A} argv.
Arguments CMD_JUXTAPOSITION {A} left right.
Arguments CMD_PIPE {A} left right.
Arguments CMD_REDIRECT {A} from to.
Arguments CMD_BACKGROUND {A} inner.
Definition span_of : Type := ptr * nat.

Inductive parse_result : Type :=
| RESULT_SUCCESS | RESULT_EMPTY | RESULT_NOMEM_ERROR | RESULT_SYNTAX_ERROR | RESULT_TOO_MANY_ARGS_ERROR.

(** [mallocs] holds what the next calls of malloc (userland/lib/stdlib.c)
    answer: memory, which it fills with zeros, or NULL (also when the list is
    used up). *)
Record parser : Type := Parser {
  line : mem;
  cursor : ptr;
  result : parse_result;
  mallocs : list bool;
}.
Definition set_cursor (p : ptr) (st : parser) : parser := Parser (line st) p (result st) (mallocs st).
Definition set_result (r : parse_result) (st : parser) : parser := Parser (line st) (cursor st) r (mallocs st).
Abbreviation P := (K parser).

Definition malloc : P bool :=
  st ← get;
  _ ← put (Parser (line st) (cursor st) (result st) (tail (mallocs st)));
  mret (default false (head (mallocs st))).

(** ** Characters *)
(** Each turn of the loops below takes at least one byte of the line. *)
Definition line_fuel : P nat := gets (λ st, S (length (line st))).
Definition peek : P Z := st ← get; c ← access (line st !! cursor st); mret (schar c).
Definition consume : P Z :=
  c ← peek; _ ← modify (λ st, set_cursor (S (cursor st)) st); mret c.
Definition consume_if (a : Z) : P bool :=
  c ← peek;
  if c =? a then _ ← consume; mret true else mret false.

(** do ++cursor while (cond(peek)); *)
Fixpoint advance_while (fuel : nat) (cond : Z → bool) : P unit :=
  match fuel with
  | O => out_of_fuel
  | S fuel =>
      _ ← modify (λ st, set_cursor (S (cursor st)) st);
      c ← peek;
      if cond c then advance_while fuel cond else mret tt
  end.
Definition consume_while (cond : Z → bool) : P (option ptr) :=
  c ← peek;
  if (c =? 0) || negb (cond c) then mret None
  else
    start ← gets cursor;
    fuel ← line_fuel;
    _ ← advance_while fuel cond;
    mret (Some start).

Definition is_whitespace (c : Z) : bool := isspace c.
Definition skip_whitespaces : P unit := _ ← consume_while is_whitespace; mret tt.
Definition is_valid_filename_character (c : Z) : bool :=
  if (c =? ch ">") || (c =? ch " ") || (c =? ch "|") || (c =? ch "&") || (c =? ch ";") then false
  else (ch " " <=? c) && (c <=? ch "~").
Definition parse_filename : P (option ptr) := consume_while is_valid_filename_character.

(** ** The grammar's functions *)
Definition fail_with {A} (r : parse_result) : P (option A) := _ ← modify (set_result r); mret None.

(** The loop over the arguments: [k] entries of argv are left, [argv] holds the
    entries before. *)
Fixpoint parse_args (k : nat) (argv : list span_of) : P (option (list span_of)) :=
  match k with
  | O => fail_with RESULT_TOO_MANY_ARGS_ERROR
  | S k =>
      arg ← parse_filename;
      match arg with
      | None => mret (Some argv)
      | Some arg =>
          saved_cursor ← gets cursor;
          _ ← skip_whitespaces;
          parse_args k (argv ++ [(arg, saved_cursor - arg)%nat])
      end
  end.
Definition parse_execute : P (option (node span_of)) :=
  ok ← malloc;
  if negb ok then fail_with RESULT_NOMEM_ERROR
  else
    argv ← parse_args MAX_ARGC [];
    match argv with
    | None => mret None
    | Some [] => fail_with RESULT_EMPTY
    | Some argv => mret (Some (CMD_EXECUTE argv))
    end.

Definition parse_redirect : P (option (node span_of)) :=
  from ← parse_execute;
  match from with
  | None => mret None
  | Some from =>
      _ ← skip_whitespaces;
      gt ← consume_if (ch ">");
      if negb gt then mret (Some from)
      else
        _ ← skip_whitespaces;
        to ← parse_filename;
        match to with
        | None => fail_with RESULT_SYNTAX_ERROR
        | Some to =>
            ok ← malloc;
            if negb ok then fail_with RESULT_NOMEM_ERROR
            else
              to_end ← gets cursor;
              mret (Some (CMD_REDIRECT from (to, to_end - to)%nat))
        end
  end.

(** An empty right-hand side is an error after [|] and none after [;] or [&]. *)
Definition if_empty (r : parse_result) : P unit :=
  modify (λ st, match result st with RESULT_EMPTY => set_result r st | _ => st end).

Fixpoint parse_pipe (fuel : nat) : P (option (node span_of)) :=
  match fuel with
  | O => out_of_fuel
  | S fuel =>
      lhs ← parse_redirect;
      match lhs with
      | None => mret None
      | Some lhs =>
          _ ← skip_whitespaces;
          bar ← consume_if (ch "|");
          if negb bar then mret (Some lhs)
          else
            _ ← skip_whitespaces;
            rhs ← parse_pipe fuel;
            match rhs with
            | None => _ ← if_empty RESULT_SYNTAX_ERROR; mret None
            | Some rhs =>
                ok ← malloc;
                if negb ok then fail_with RESULT_NOMEM_ERROR
                else mret (Some (CMD_PIPE lhs rhs))
            end
      end
  end.

(** What follows [&] or [;]; [more] parses the next juxtaposition. *)
Definition parse_rest (lhs : node span_of) (more : P (option (node span_of))) : P (option (node span_of)) :=
  _ ← skip_whitespaces;
  rhs ← more;
  match rhs with
  | None => _ ← if_empty RESULT_SUCCESS; mret (Some lhs)
  | Some rhs =>
      ok ← malloc;
      if negb ok then fail_with RESULT_NOMEM_ERROR
      else mret (Some (CMD_JUXTAPOSITION lhs rhs))
  end.
Fixpoint parse_juxtaposition (fuel : nat) : P (option (node span_of)) :=
  match fuel with
  | O => out_of_fuel
  | S fuel =>
      fuel' ← line_fuel;
      lhs ← parse_pipe fuel';
      match lhs with
      | None => mret None
      | Some lhs =>
          _ ← skip_whitespaces;
          amp ← consume_if (ch "&");
          if amp : bool then
            ok ← malloc;
            if negb ok then fail_with RESULT_NOMEM_ERROR
            else parse_rest (CMD_BACKGROUND lhs) (parse_juxtaposition fuel)
          else
            semi ← consume_if (ch ";");
            if negb semi then mret (Some lhs)
            else parse_rest lhs (parse_juxtaposition fuel)
      end
  end.

(** A null character at the end of a span. *)
Definition close (sp : span_of) : P unit :=
  st ← get;
  _ ← access (line st !! (sp.1 + sp.2)%nat);
  put (Parser (<[(sp.1 + sp.2)%nat := 0]> (line st)) (cursor st) (result st) (mallocs st)).
Fixpoint close_all (argv : list span_of) : P unit :=
  match argv with
  | [] => mret tt
  | sp :: argv => _ ← close sp; close_all argv
  end.
Fixpoint null_terminate (n : node span_of) : P unit :=
  match n with
  | CMD_EXECUTE argv => close_all argv
  | CMD_JUXTAPOSITION lhs rhs => _ ← null_terminate lhs; null_terminate rhs
  | CMD_PIPE lhs rhs => _ ← null_terminate lhs; null_terminate rhs
  | CMD_REDIRECT from to => _ ← null_terminate from; close to
  | CMD_BACKGROUND inner => null_terminate inner
  end.

Definition parse (p : ptr) : P (option (node span_of)) :=
  _ ← modify (λ st, set_result RESULT_SUCCESS (set_cursor p st));
  _ ← skip_whitespaces;
  fuel ← line_fuel;
  tree ← parse_juxtaposition fuel;
  _ ← skip_whitespaces;
  c ← peek;
  if negb (c =? 0) then fail_with RESULT_SYNTAX_ERROR
  else
    match tree with
    | None => mret None
    | Some tree => _ ← null_terminate tree; mret (Some tree)
    end.

(** ** Reasoning about scanning *)
(** [s] is the rest of the line. *)
Definition holds (st : parser) (s : list Z) : Prop :=
  cstr (line st) (cursor st) s ∧ Forall (λ c, 0 < c < 256) s.
(** What peek returns on it. *)
Definition first (s : list Z) : Z := match s with [] => 0 | c :: _ => schar c end.
Definition scan (cond : Z → bool) (c : Z) : bool := cond (schar c).

Lemma schar_nonzero c : 0 < c < 256 → schar c ≠ 0.
Proof. intros Hc. unfold schar. rewrite u8_small by lia. case_match; bool_to_prop; lia. Qed.
Lemma holds_fuel st s : holds st s → (length s < length (line st))%nat.
Proof. intros [H%cstr_lt _]. lia. Qed.
Lemma holds_advance st a b : holds st (a ++ b) → holds (set_cursor (cursor st + length a) st) b.
Proof. intros [H1%cstr_app [_ H2]%Forall_app]. by split. Qed.

Lemma peek_wp st s (Q : Z → parser → Prop) : holds st s → Q (first s) st → wp peek Q st.
Proof.
  intros [Hs _] HQ. unfold peek. destruct s as [|c s]; cbn [cstr] in Hs.
  - wp_keep. eapply wp_access; [exact Hs|]. by apply wp_ret.
  - destruct Hs as [Hc _]. wp_keep. eapply wp_access; [exact Hc|]. by apply wp_ret.
Qed.
Lemma consume_wp st c s (Q : Z → parser → Prop) :
  holds st (c :: s) → (holds (set_cursor (S (cursor st)) st) s → Q (schar c) (set_cursor (S (cursor st)) st)) →
  wp consume Q st.
Proof.
  intros Hs HQ. unfold consume. wp_keep. apply (peek_wp _ (c :: s)); [done|]. wp_keep. apply HQ.
  rewrite <-Nat.add_1_r. by apply (holds_advance st [c]).
Qed.
Lemma consume_if_wp st s a (Q : bool → parser → Prop) :
  holds st s → a ≠ 0 → (first s ≠ a → Q false st) →
  (∀ c s', s = c :: s' → schar c = a → holds (set_cursor (S (cursor st)) st) s' →
    Q true (set_cursor (S (cursor st)) st)) →
  wp (consume_if a) Q st.
Proof.
  intros Hs Ha HF HT. unfold consume_if. wp_keep. apply (peek_wp _ s); [done|].
  destruct (first s =? a) eqn:E; bool_to_prop; [|apply wp_ret; by apply HF].
  destruct s as [|c s]; [done|]. wp_keep. apply (consume_wp _ c s); [done|]. intros Hs'. wp_keep.
  by eapply HT.
Qed.

Lemma advance_wp fuel cond st c s (Q : unit → parser → Prop) :
  holds st (c :: s) → (length s < fuel)%nat → cond 0 = false →
  Q tt (set_cursor (S (cursor st) + length (span (scan cond) s).1) st) →
  wp (advance_while fuel cond) Q st.
Proof.
  revert st c s. induction fuel as [|fuel IH]; intros st c s Hs Hf H0 HQ; [lia|].
  cbn [advance_while]. wp_keep.
  assert (holds (set_cursor (S (cursor st)) st) s) as Hs'.
  { rewrite <-Nat.add_1_r. by apply (holds_advance st [c]). }
  apply (peek_wp _ s); [done|]. destruct s as [|d s]; cbn [first span fst length] in *.
  - rewrite H0. apply wp_ret. by rewrite Nat.add_0_r in HQ.
  - change (scan cond d) with (cond (schar d)) in HQ. destruct (cond (schar d)).
    + apply (IH _ d s); [done|lia|done|]. destruct (span (scan cond) s). cbn [fst length] in *.
      cbn [cursor set_cursor]. by rewrite Nat.add_succ_r in HQ.
    + apply wp_ret. by rewrite Nat.add_0_r in HQ.
Qed.
Lemma consume_while_wp cond st s (Q : option ptr → parser → Prop) :
  holds st s → cond 0 = false →
  (let w := (span (scan cond) s).1 in
   Q (match w with [] => None | _ => Some (cursor st) end) (set_cursor (cursor st + length w) st)) →
  wp (consume_while cond) Q st.
Proof.
  intros Hs H0 HQ. unfold consume_while. wp_keep. apply (peek_wp _ s); [done|].
  destruct s as [|c s]; cbn [first span fst length] in *; cbv zeta in HQ.
  - cbn [Z.eqb orb]. wp_keep. rewrite Nat.add_0_r in HQ. by destruct st.
  - rewrite (proj2 (Z.eqb_neq _ 0)) by (apply schar_nonzero; destruct Hs as [_ Hs]; by inversion_clear Hs).
    change (scan cond c) with (cond (schar c)) in HQ. cbn [orb]. destruct (cond (schar c)) eqn:Ec; cbn [negb].
    + unfold line_fuel. apply wp_bind, wp_gets, wp_bind, wp_gets, wp_bind.
      pose proof (holds_fuel _ _ Hs). cbn [length] in *. apply (advance_wp _ _ _ c s); [done|lia|done|].
      wp_keep. destruct (span (scan cond) s). cbn [fst length] in *.
      by rewrite Nat.add_succ_r in HQ.
    + wp_keep. cbn [fst length] in HQ. rewrite Nat.add_0_r in HQ. by destruct st.
Qed.
Lemma skip_wp st s (Q : unit → parser → Prop) :
  holds st s →
  (let w := (span (scan is_whitespace) s).1 in Q tt (set_cursor (cursor st + length w) st)) →
  wp skip_whitespaces Q st.
Proof.
  intros Hs HQ. unfold skip_whitespaces. wp_keep. apply (consume_while_wp _ _ s); [done|done|]. by wp_keep.
Qed.

(** ** Totality: every function moves forward over the line *)
Definition moved (st : parser) (s : list Z) (st' : parser) (s' : list Z) : Prop :=
  line st' = line st ∧ holds st' s' ∧ (cursor st' + length s' = cursor st + length s)%nat ∧
  (length s' ≤ length s)%nat.
Lemma moved_refl st s : holds st s → moved st s st s.
Proof. intros. unfold moved. split_and!; [done|done|lia|lia]. Qed.
Lemma moved_trans st1 s1 st2 s2 st3 s3 : moved st1 s1 st2 s2 → moved st2 s2 st3 s3 → moved st1 s1 st3 s3.
Proof. intros (?&?&?&?) (?&?&?&?). split_and!; [congruence|done|lia|lia]. Qed.
Lemma moved_over st a b : holds st (a ++ b) → moved st (a ++ b) (set_cursor (cursor st + length a) st) b.
Proof.
  intros H. split_and!; [done|by apply holds_advance| |rewrite length_app; lia].
  rewrite length_app. cbn [cursor set_cursor]. lia.
Qed.
Lemma moved_cursor st s st' s' : moved st s st' s' → (cursor st ≤ cursor st')%nat.
Proof. intros (?&?&?&?). lia. Qed.
Lemma moved_end st s st' s' : moved st s st' s' → (cursor st' < length (line st))%nat.
Proof. intros (Hl & [H%cstr_lt _] & _ & _). rewrite Hl in H. lia. Qed.
Lemma moved_result r st s st' s' : moved st s st' s' → moved st s (set_result r st') s'.
Proof. done. Qed.

Lemma skip_moved st s (Q : unit → parser → Prop) :
  holds st s → (∀ st' s', moved st s st' s' → result st' = result st → Q tt st') → wp skip_whitespaces Q st.
Proof.
  intros Hs HQ. apply (skip_wp _ s); [done|]. cbv zeta. rewrite <-(span_app (scan is_whitespace) s) in Hs.
  eapply HQ; [|done]. rewrite <-(span_app (scan is_whitespace) s) at 1. by apply moved_over.
Qed.
Lemma malloc_moved st s (Q : bool → parser → Prop) :
  holds st s → (∀ b st', moved st s st' s → Q b st') → wp malloc Q st.
Proof. intros Hs HQ. unfold malloc. wp_keep. apply HQ. unfold moved. split_and!; [done|done|cbn [cursor]; lia|lia]. Qed.
Lemma first_span cond s : cond 0 = false → cond (first (span (scan cond) s).2) = false.
Proof.
  intros H0. destruct (span (scan cond) s).2 as [|c t] eqn:E; [done|]. by apply span_rest in E.
Qed.
Lemma filename_moved st s (Q : option ptr → parser → Prop) :
  holds st s → (is_valid_filename_character (first s) = false → Q None st) →
  (∀ st' s', moved st s st' s' → result st' = result st → is_valid_filename_character (first s') = false →
    is_valid_filename_character (first s) = true → Q (Some (cursor st)) st') →
  wp parse_filename Q st.
Proof.
  intros Hs HN HS. apply (consume_while_wp _ _ s); [done|done|]. cbv zeta.
  pose proof (first_span is_valid_filename_character s eq_refl) as Hf.
  pose proof (span_app (scan is_valid_filename_character) s) as Hap.
  pose proof (span_Forall (scan is_valid_filename_character) s) as HF.
  destruct (span (scan is_valid_filename_character) s) as [[|c w] s']; cbn [fst snd] in *.
  - rewrite Nat.add_0_r. cbn [app] in Hap. subst s'. destruct st. by apply HN.
  - subst s. apply (HS _ s'); [|done|done|by inversion_clear HF].
    by apply (moved_over _ (c :: w)).
Qed.

(** Spans from [p] to [q] in the order of the line, a byte after each. *)
Fixpoint ordered (p : ptr) (l : list span_of) (q : ptr) : Prop :=
  match l with
  | [] => (p ≤ S q)%nat
  | sp :: l => (p ≤ sp.1)%nat ∧ ordered (S (sp.1 + sp.2)) l q
  end.
Lemma ordered_le p l q : ordered p l q → (p ≤ S q)%nat.
Proof. revert p. induction l as [|sp l IH]; intros p; [done|]. simpl. intros [? ?%IH]. lia. Qed.
Lemma ordered_app p l1 q1 p2 l2 q2 :
  ordered p l1 q1 → (S q1 ≤ p2)%nat → ordered p2 l2 q2 → ordered p (l1 ++ l2) q2.
Proof.
  intros H1 Hp H2. revert p H1. induction l1 as [|sp l1 IH]; simpl; intros p H1.
  - destruct l2; simpl in *; [lia|]. split; [lia|tauto].
  - destruct H1 as [? ?]. auto.
Qed.
Lemma ordered_weaken p l q q' : ordered p l q → (q ≤ q')%nat → ordered p l q'.
Proof. intros H1 Hq. revert p H1. induction l; simpl; intros p H1; [lia|]. naive_solver. Qed.
Lemma ordered_lower p p' l q : ordered p l q → (p' ≤ p)%nat → ordered p' l q.
Proof. destruct l; simpl; [lia|]. intros [? ?] ?. split; [lia|done]. Qed.
Lemma ordered_bound p l q sp : ordered p l q → sp ∈ l → (p ≤ sp.1 ∧ sp.1 + sp.2 ≤ q)%nat.
Proof.
  revert p. induction l as [|sp' l IH]; intros p; [by intros _ ?%not_elem_of_nil|]. simpl.
  intros [Hp Hl] [->|Hi]%elem_of_cons.
  - apply ordered_le in Hl. lia.
  - apply IH in Hl; [lia|done].
Qed.

Fixpoint spans (n : node span_of) : list span_of :=
  match n with
  | CMD_EXECUTE argv => argv
  | CMD_JUXTAPOSITION lhs rhs | CMD_PIPE lhs rhs => spans lhs ++ spans rhs
  | CMD_REDIRECT from to => spans from ++ [to]
  | CMD_BACKGROUND inner => spans inner
  end.

Lemma parse_args_moved k argv st s (Q : option (list span_of) → parser → Prop) :
  holds st s →
  (∀ st' s', moved st s st' s' → result st' ≠ RESULT_SUCCESS → Q None st') →
  (∀ l st' s', moved st s st' s' → ordered (cursor st) l (cursor st') →
    (is_valid_filename_character (first s) = false → l = []) → Q (Some (argv ++ l)) st') →
  wp (parse_args k argv) Q st.
Proof.
  revert argv st s. induction k as [|k IH]; intros argv st s Hs HN HS; cbn [parse_args].
  - unfold fail_with. wp_keep. by apply (HN _ s); [apply moved_result, moved_refl|].
  - apply wp_bind. apply (filename_moved _ s); [done| |].
    + intros _. wp_keep. rewrite <-(app_nil_r argv). by apply (HS _ _ s); [apply moved_refl|simpl; lia|].
    + intros st1 s1 Hm1 _ Hf1 Hf. wp_keep. destruct Hm1 as (Hl1 & Hs1 & Hc1 & Hle1).
      apply (skip_moved _ s1); [done|]. intros st2 s2 Hm2 _. pose proof Hm2 as (_ & Hs2 & _ & _).
      assert (moved st s st2 s2) as Hm by (by eapply moved_trans; [|exact Hm2]).
      pose proof (moved_cursor _ _ _ _ Hm2). apply (IH _ _ s2); [done| |].
      { intros st3 s3 Hm3 ?. eapply HN; [by eapply moved_trans|done]. }
      intros l st3 s3 Hm3 Ho Hnil. rewrite <-app_assoc. cbn [app].
      eapply HS; [by eapply moved_trans| |congruence]. cbn [ordered fst snd].
      split; [done|]. replace (cursor st + (cursor st1 - cursor st))%nat with (cursor st1) by lia.
      pose proof (moved_cursor _ _ _ _ Hm3).
      destruct (decide (cursor st1 = cursor st2)) as [He|Hne].
      * rewrite Hnil; [cbn [ordered]; lia|]. destruct Hm2 as (Hl2 & _ & Hc2 & _).
        assert (s2 = s1) as ->; [|done]. destruct Hs1 as [Hs1 _], Hs2 as [Hs2 _].
        rewrite Hl2, <-He in Hs2. by eapply cstr_det.
      * eapply ordered_lower; [exact Ho|lia].
Qed.

(** What each function of the grammar promises on any line. *)
Definition delivers (st : parser) (s : list Z) (r : option (node span_of)) (st' : parser) : Prop :=
  ∃ s', moved st s st' s' ∧
    match r with
    | None => result st' ≠ RESULT_SUCCESS
    | Some n => ordered (cursor st) (spans n) (cursor st')
    end.

Lemma fail_delivers st s st1 s1 r :
  moved st s st1 s1 → r ≠ RESULT_SUCCESS → wp (fail_with r) (delivers st s) st1.
Proof. intros Hm Hr. unfold fail_with. wp_keep. exists s1. by split; [apply moved_result|]. Qed.
Lemma some_delivers st s st1 s1 n :
  moved st s st1 s1 → ordered (cursor st) (spans n) (cursor st1) → wp (mret (Some n)) (delivers st s) st1.
Proof. intros Hm Ho. apply wp_ret. by exists s1. Qed.
(** A node made of what has been parsed, if there is memory for it. *)
Lemma node_delivers st s st1 s1 n :
  moved st s st1 s1 → ordered (cursor st) (spans n) (cursor st1) →
  wp (ok ← malloc; if negb ok then fail_with RESULT_NOMEM_ERROR else mret (Some n)) (delivers st s) st1.
Proof.
  intros Hm Ho. apply wp_bind. pose proof Hm as (_ & Hs1 & _ & _). apply (malloc_moved _ s1); [done|].
  intros [|] st2 Hm2; cbn [negb].
  - apply (some_delivers _ _ _ s1); [by eapply moved_trans|].
    eapply ordered_weaken; [exact Ho|]. by eapply moved_cursor.
  - by apply (fail_delivers _ _ _ s1); [eapply moved_trans|].
Qed.

Lemma parse_execute_delivers st s : holds st s → wp parse_execute (delivers st s) st.
Proof.
  intros Hs. unfold parse_execute. apply wp_bind, (malloc_moved _ s); [done|].
  intros [|] st1 Hm1; cbn [negb]; [|by apply (fail_delivers _ _ _ s)].
  pose proof Hm1 as (_ & Hs1 & _ & _). apply wp_bind, (parse_args_moved _ _ _ s); [done| |].
  - intros st2 s2 Hm2 Hr. apply wp_ret. exists s2. by split; [eapply moved_trans|].
  - intros l st2 s2 Hm2 Ho _. cbn [app].
    assert (moved st s st2 s2) by (by eapply moved_trans).
    destruct l as [|sp l]; [by eapply fail_delivers|]. eapply some_delivers; [done|].
    eapply ordered_lower; [exact Ho|]. by eapply moved_cursor.
Qed.
(** One more byte is consumed between two parts of the line. *)
Lemma consume_moved st s st1 s1 c s2 :
  moved st s st1 s1 → s1 = c :: s2 → holds (set_cursor (S (cursor st1)) st1) s2 →
  moved st s (set_cursor (S (cursor st1)) st1) s2.
Proof. intros (?&?&?&?) -> ?. simpl in *. unfold moved. split_and!; [done|done|cbn [cursor set_cursor]; lia|lia]. Qed.

Lemma parse_redirect_delivers st s : holds st s → wp parse_redirect (delivers st s) st.
Proof.
  intros Hs. unfold parse_redirect. apply wp_bind. eapply wp_mono; [by apply parse_execute_delivers|].
  intros [from|] st1 (s1 & Hm1 & Hr1); [|by apply wp_ret; exists s1].
  pose proof Hm1 as (_ & Hs1 & _ & _). apply wp_bind, (skip_moved _ s1); [done|].
  intros st2 s2 Hm12 _. assert (moved st s st2 s2) as Hm2 by (by eapply moved_trans).
  pose proof Hm12 as (_ & Hs2 & _ & _). apply wp_bind, (consume_if_wp _ s2); [done|done| |].
  - intros _. cbn [negb]. apply (some_delivers _ _ _ s2); [done|].
    eapply ordered_weaken; [exact Hr1|]. by eapply moved_cursor.
  - intros c s3 Heq _ Hs3. cbn [negb]. pose proof (consume_moved _ _ _ _ _ _ Hm2 Heq Hs3) as Hm3.
    apply wp_bind, (skip_moved _ s3); [done|]. intros st4 s4 Hm34 _.
    assert (moved st s st4 s4) as Hm4 by (by eapply moved_trans).
    pose proof Hm34 as (_ & Hs4 & _ & _).
    apply wp_bind, (filename_moved _ s4); [done| |]; [intros _; by apply (fail_delivers _ _ _ s4)|].
    intros st5 s5 Hm45 _ _ _. assert (moved st s st5 s5) as Hm5 by (by eapply moved_trans).
    pose proof (moved_cursor _ _ _ _ Hm12). pose proof (moved_cursor _ _ _ _ Hm34).
    cbn [cursor set_cursor] in *.
    apply wp_bind. pose proof Hm5 as (_ & Hs5 & _ & _). apply (malloc_moved _ s5); [done|].
    intros [|] st6 Hm56; cbn [negb]; [|by apply (fail_delivers _ _ _ s5); [eapply moved_trans|]].
    apply wp_bind, wp_gets. apply (some_delivers _ _ _ s5); [by eapply moved_trans|].
    pose proof (moved_cursor _ _ _ _ Hm45). pose proof (moved_cursor _ _ _ _ Hm56).
    cbn [spans]. apply (ordered_app _ _ (cursor st1) (cursor st4)); [done|lia|]. cbn [ordered fst snd]. lia.
Qed.

Lemma parse_pipe_delivers fuel st s :
  holds st s → (length s < fuel)%nat → wp (parse_pipe fuel) (delivers st s) st.
Proof.
  revert st s. induction fuel as [|fuel IH]; intros st s Hs Hf; [lia|]. cbn [parse_pipe].
  apply wp_bind. eapply wp_mono; [by apply parse_redirect_delivers|].
  intros [lhs|] st1 (s1 & Hm1 & Hr1); [|by apply wp_ret; exists s1].
  pose proof Hm1 as (_ & Hs1 & _ & _). apply wp_bind, (skip_moved _ s1); [done|].
  intros st2 s2 Hm12 _. assert (moved st s st2 s2) as Hm2 by (by eapply moved_trans).
  pose proof Hm12 as (_ & Hs2 & _ & _). apply wp_bind, (consume_if_wp _ s2); [done|done| |].
  - intros _. cbn [negb]. apply (some_delivers _ _ _ s2); [done|].
    eapply ordered_weaken; [exact Hr1|]. by eapply moved_cursor.
  - intros c s3 Heq _ Hs3. cbn [negb]. pose proof (consume_moved _ _ _ _ _ _ Hm2 Heq Hs3) as Hm3.
    apply wp_bind, (skip_moved _ s3); [done|]. intros st4 s4 Hm34 _.
    assert (moved st s st4 s4) as Hm4 by (by eapply moved_trans).
    pose proof Hm34 as (_ & Hs4 & _ & Hlt). pose proof Hm2 as (_ & _ & _ & Hl2).
    rewrite Heq in Hl2. simpl in Hl2.
    apply wp_bind. eapply wp_mono; [apply (IH _ s4); [done|lia]|].
    intros [rhs|] st5 (s5 & Hm45 & Hr5).
    + eapply node_delivers; [by eapply moved_trans|].
      pose proof (moved_cursor _ _ _ _ Hm12). pose proof (moved_cursor _ _ _ _ Hm34).
      cbn [cursor set_cursor spans] in *. by apply (ordered_app _ _ (cursor st1) (cursor st4)); [|lia|].
    + unfold if_empty. wp_keep. exists s5. split.
      * destruct (result st5); [eapply moved_trans; eassumption|apply moved_result; eapply moved_trans; eassumption|eapply moved_trans; eassumption..].
      * by destruct (result st5) eqn:E; cbn [result set_result]; rewrite ?E in *.
Qed.

(** What follows [&] or [;] once one more byte, [c], has been consumed. *)
Lemma parse_rest_delivers more st s st1 s1 q lhs :
  moved st s st1 s1 → ordered (cursor st) (spans lhs) q → (S q ≤ cursor st1)%nat →
  (∀ st' s', holds st' s' → (length s' ≤ length s1)%nat → wp more (delivers st' s') st') →
  wp (parse_rest lhs more) (delivers st s) st1.
Proof.
  intros Hm1 Ho Hq Hmore. unfold parse_rest. pose proof Hm1 as (_ & Hs1 & _ & _).
  apply wp_bind, (skip_moved _ s1); [done|]. intros st2 s2 Hm12 _.
  assert (moved st s st2 s2) as Hm2 by (by eapply moved_trans).
  pose proof Hm12 as (_ & Hs2 & _ & Hl2). pose proof (moved_cursor _ _ _ _ Hm12).
  apply wp_bind. eapply wp_mono; [by apply (Hmore _ s2)|].
  intros [rhs|] st3 (s3 & Hm23 & Hr3).
  - eapply node_delivers; [by eapply moved_trans|]. cbn [spans].
    by apply (ordered_app _ _ q (cursor st2)); [|lia|].
  - assert (moved st s st3 s3) as Hm3 by (by eapply moved_trans).
    pose proof (moved_cursor _ _ _ _ Hm23).
    unfold if_empty. wp_keep. exists s3. destruct (result st3);
      (split; [try apply moved_result; exact Hm3|eapply ordered_weaken; [exact Ho|cbn [cursor set_result]; lia]]).
Qed.

Lemma parse_juxtaposition_delivers fuel st s :
  holds st s → (length s < fuel)%nat → wp (parse_juxtaposition fuel) (delivers st s) st.
Proof.
  revert st s. induction fuel as [|fuel IH]; intros st s Hs Hf; [lia|]. cbn [parse_juxtaposition].
  unfold line_fuel. apply wp_bind, wp_gets, wp_bind. pose proof (holds_fuel _ _ Hs).
  eapply wp_mono; [apply (parse_pipe_delivers _ _ s); [done|lia]|].
  intros [lhs|] st1 (s1 & Hm1 & Hr1); [|by apply wp_ret; exists s1].
  pose proof Hm1 as (_ & Hs1 & _ & _). apply wp_bind, (skip_moved _ s1); [done|].
  intros st2 s2 Hm12 _. assert (moved st s st2 s2) as Hm2 by (by eapply moved_trans).
  pose proof Hm12 as (_ & Hs2 & _ & _). pose proof (moved_cursor _ _ _ _ Hm12).
  pose proof Hm2 as (_ & _ & _ & Hl2).
  apply wp_bind, (consume_if_wp _ s2); [done|done| |].
  - intros _. apply wp_bind, (consume_if_wp _ s2); [done|done| |].
    + intros _. cbn [negb]. apply (some_delivers _ _ _ s2); [done|]. by eapply ordered_weaken.
    + intros c s3 Heq _ Hs3. cbn [negb]. pose proof (consume_moved _ _ _ _ _ _ Hm2 Heq Hs3) as Hm3.
      subst s2. simpl in Hl2. apply (parse_rest_delivers _ _ _ _ s3 (cursor st1)); [done|done|cbn [cursor set_cursor]; lia|].
      intros st' s' ? ?. apply IH; [done|lia].
  - intros c s3 Heq _ Hs3. pose proof (consume_moved _ _ _ _ _ _ Hm2 Heq Hs3) as Hm3.
    subst s2. simpl in Hl2. apply wp_bind, (malloc_moved _ s3); [done|].
    intros [|] st4 Hm34; cbn [negb]; [|by apply (fail_delivers _ _ _ s3); [eapply moved_trans|]].
    pose proof (moved_cursor _ _ _ _ Hm34). cbn [cursor set_cursor] in *.
    apply (parse_rest_delivers _ _ _ _ s3 (cursor st1)); [by eapply moved_trans|done|lia|].
    intros st' s' ? ?. apply IH; [done|lia].
Qed.

(** ** Closing the strings *)
Definition terminate (l : list span_of) (m : mem) : mem :=
  foldl (λ m sp, <[(sp.1 + sp.2)%nat := 0]> m) m l.
Lemma length_terminate l m : length (terminate l m) = length m.
Proof. revert m. induction l as [|sp l IH]; intros m; [done|]. simpl. by rewrite IH, length_insert. Qed.
Lemma terminate_app l1 l2 m : terminate (l1 ++ l2) m = terminate l2 (terminate l1 m).
Proof. apply foldl_app. Qed.
Lemma terminate_cons sp l m : terminate (sp :: l) m = terminate l (<[(sp.1 + sp.2)%nat := 0]> m).
Proof. done. Qed.
(** The parser with another line. *)
Definition with_line (m : mem) (st : parser) : parser := Parser m (cursor st) (result st) (mallocs st).

Lemma close_all_wp l st (Q : unit → parser → Prop) :
  Forall (λ sp : span_of, sp.1 + sp.2 < length (line st))%nat l →
  Q tt (with_line (terminate l (line st)) st) → wp (close_all l) Q st.
Proof.
  revert st. induction l as [|sp l IH]; intros st Hl HQ; cbn [close_all].
  { apply wp_ret. by destruct st. }
  apply Forall_cons in Hl as [Hsp Hl]. unfold close. wp_keep.
  apply lookup_lt_is_Some in Hsp as [x Hx]. eapply wp_access; [exact Hx|]. wp_keep.
  apply IH; [|exact HQ]. cbn [line]. by rewrite length_insert.
Qed.
Lemma null_terminate_wp n st (Q : unit → parser → Prop) :
  Forall (λ sp : span_of, sp.1 + sp.2 < length (line st))%nat (spans n) →
  Q tt (with_line (terminate (spans n) (line st)) st) → wp (null_terminate n) Q st.
Proof.
  revert st Q. induction n as [argv|lhs IHl rhs IHr|lhs IHl rhs IHr|from IH to|inner IH];
    intros st Q Hl HQ; cbn [null_terminate spans] in *; rewrite ?terminate_app in HQ.
  - by apply close_all_wp.
  - apply Forall_app in Hl as [Hl Hr]. apply wp_bind, IHl; [done|].
    apply IHr; [cbn [line with_line]; by rewrite length_terminate|exact HQ].
  - apply Forall_app in Hl as [Hl Hr]. apply wp_bind, IHl; [done|].
    apply IHr; [cbn [line with_line]; by rewrite length_terminate|exact HQ].
  - apply Forall_app in Hl as [Hl Hr]. apply wp_bind, IH; [done|].
    pose proof (close_all_wp [to] (with_line (terminate (spans from) (line st)) st) Q) as Hc.
    cbn [close_all] in Hc. unfold wp, mbind, K_bind in Hc |- *.
    assert (Forall (λ sp : span_of, sp.1 + sp.2 < length (line (with_line (terminate (spans from) (line st)) st)))%nat [to])
      as Hto by (cbn [line with_line]; by rewrite length_terminate).
    specialize (Hc Hto HQ). by destruct (close to _) as [[]| | |].
  - by apply IH.
Qed.

(** The text of a span, and what a program that is given its address reads. *)
Definition text (m : mem) (sp : span_of) : list Z := take sp.2 (drop sp.1 m).
Lemma text_insert m i c sp : (i < sp.1 ∨ sp.1 + sp.2 ≤ i)%nat → text (<[i := c]> m) sp = text m sp.
Proof.
  intros Hi. unfold text. apply list_eq. intros j.
  destruct (decide (j < sp.2)%nat); [|by rewrite !lookup_take_ge by lia].
  rewrite !lookup_take_lt, !lookup_drop by done. apply list_lookup_insert_ne. lia.
Qed.
Lemma terminate_keeps p l q m sp :
  ordered p l q → (S (sp.1 + sp.2) ≤ p)%nat →
  text (terminate l m) sp = text m sp ∧ terminate l m !! (sp.1 + sp.2)%nat = m !! (sp.1 + sp.2)%nat.
Proof.
  revert p m. induction l as [|sp' l IH]; intros p m Ho Hp; [done|]. destruct Ho as [? Ho].
  rewrite terminate_cons. destruct (IH _ (<[(sp'.1 + sp'.2)%nat := 0]> m) Ho) as [-> ->]; [lia|].
  rewrite list_lookup_insert_ne by lia. split; [apply text_insert; lia|done].
Qed.
Lemma terminate_closes p l q m sp :
  ordered p l q → (q < length m)%nat → sp ∈ l →
  text (terminate l m) sp = text m sp ∧ terminate l m !! (sp.1 + sp.2)%nat = Some 0.
Proof.
  revert p m. induction l as [|sp' l IH]; intros p m Ho Hq; [by intros ?%not_elem_of_nil|].
  pose proof (ordered_bound _ _ _ sp' Ho ltac:(by left)) as [_ Hb]. destruct Ho as [Hp Ho].
  rewrite terminate_cons. intros [->|Hi]%elem_of_cons.
  - destruct (terminate_keeps _ _ _ (<[(sp'.1 + sp'.2)%nat := 0]> m) sp' Ho) as [-> ->]; [lia|].
    rewrite list_lookup_insert_eq by lia. split; [apply text_insert; lia|done].
  - destruct (IH _ (<[(sp'.1 + sp'.2)%nat := 0]> m) Ho) as [-> ->]; [by rewrite length_insert|done|].
    split; [|done]. destruct (ordered_bound _ _ _ sp Ho Hi). apply text_insert. lia.
Qed.
Lemma cstr_text m sp :
  Forall (λ c, c ≠ 0) (text m sp) → m !! (sp.1 + sp.2)%nat = Some 0 → cstr m sp.1 (text m sp).
Proof.
  destruct sp as [p n]. unfold text. cbn [fst snd]. revert p.
  induction n as [|n IH]; intros p Hn He; [by rewrite Nat.add_0_r in He|].
  assert (p + S n < length m)%nat by (by eapply lookup_lt_Some).
  destruct (lookup_lt_is_Some_2 m p ltac:(lia)) as [c Hc].
  rewrite (drop_S m c p) in * by done. cbn [take] in *. apply Forall_cons in Hn as [Hc0 Hn].
  rewrite Nat.add_succ_r in He. split_and!; [done|done|]. by apply IH.
Qed.

Lemma text_nonzero m p s sp :
  cstr m p s → (p ≤ sp.1)%nat → (sp.1 + sp.2 ≤ p + length s)%nat → Forall (λ c, c ≠ 0) (text m sp).
Proof.
  intros Hs H1 H2. apply Forall_lookup. intros i c. unfold text.
  intros [Hi Hlt]%lookup_take_Some. rewrite lookup_drop in Hi.
  destruct (lookup_lt_is_Some_2 s (sp.1 + i - p)%nat ltac:(lia)) as [d Hd].
  pose proof (cstr_lookup _ _ _ _ _ Hs Hd) as Hd'.
  replace (p + (sp.1 + i - p))%nat with (sp.1 + i)%nat in Hd' by lia.
  apply cstr_nonzero in Hs. apply (Forall_lookup_1 _ _ _ _ Hs) in Hd. congruence.
Qed.

(** [parse] after [parse_juxtaposition], for any tree in the order of the line. *)
Definition closed (p : ptr) (s : list Z) (st : parser) (r : option (node span_of)) (st' : parser) : Prop :=
  match r with
  | None => result st' ≠ RESULT_SUCCESS ∧ line st' = line st
  | Some n =>
      cursor st' = (p + length s)%nat ∧ ordered p (spans n) (cursor st') ∧
      line st' = terminate (spans n) (line st) ∧
      Forall (λ sp, cstr (line st') sp.1 (text (line st) sp)) (spans n)
  end.
Lemma parse_wp p s st :
  cstr (line st) p s → Forall (λ c, 0 < c < 256) s → wp (parse p) (closed p s st) st.
Proof.
  intros Hs Hb. unfold parse. set (st0 := set_result RESULT_SUCCESS (set_cursor p st)).
  apply wp_bind, wp_modify. fold st0. assert (holds st0 s) as Hs0 by done.
  apply wp_bind, (skip_moved _ s); [done|]. intros st1 s1 Hm1 _. pose proof Hm1 as (_ & Hs1 & _).
  unfold line_fuel. apply wp_bind, wp_gets, wp_bind. pose proof (holds_fuel _ _ Hs1).
  eapply wp_mono; [apply (parse_juxtaposition_delivers _ _ s1); [done|lia]|].
  intros r st2 (s2 & Hm12 & Hr). assert (moved st0 s st2 s2) as Hm2 by (by eapply moved_trans).
  pose proof Hm2 as (_ & Hs2 & _). apply wp_bind, (skip_moved _ s2); [done|]. intros st3 s3 Hm23 Hres.
  assert (moved st0 s st3 s3) as (Hl3 & Hs3 & Hc3 & _) by (by eapply moved_trans).
  apply wp_bind, (peek_wp _ s3); [done|]. change (cursor st0) with p in Hc3. change (line st0) with (line st) in Hl3.
  destruct (first s3 =? 0) eqn:E; bool_to_prop; cbn [negb]; [|unfold fail_with; by wp_keep].
  destruct r as [n|]; [|apply wp_ret; split; [congruence|done]].
  assert (s3 = []) as ->.
  { destruct s3 as [|c s3]; [done|]. destruct Hs3 as [_ [Hc _]%Forall_cons].
    by apply schar_nonzero in Hc. }
  rewrite Nat.add_0_r in Hc3.
  assert (ordered p (spans n) (cursor st3)) as Ho.
  { eapply ordered_lower; [eapply ordered_weaken; [exact Hr|by eapply moved_cursor]|].
    by apply (moved_cursor st0 s st1 s1). }
  pose proof (cstr_lt _ _ _ Hs) as Hlt.
  apply wp_bind, null_terminate_wp.
  { apply Forall_forall. intros sp Hi. pose proof (ordered_bound _ _ _ _ Ho Hi). rewrite Hl3. lia. }
  apply wp_ret. cbn [closed cursor line with_line]. rewrite Hl3. split_and!; [done|done|done|].
  apply Forall_forall. intros sp Hi. pose proof (ordered_bound _ _ _ _ Ho Hi).
  destruct (terminate_closes p (spans n) (cursor st3) (line st) sp Ho) as [Ht He]; [lia|done|].
  rewrite <-Ht. apply cstr_text; [|done]. rewrite Ht. apply (text_nonzero _ p s); [done|lia|lia].
Qed.

(** ** The language *)
Record command : Type := Command { args : list (list Z); target : option (list Z) }.
Inductive pipeline : Type := Single (c : command) | Piped (c : command) (rest : pipeline).
(** [Ended]: a pipeline with [;] or (in the background) [&] behind it. *)
Inductive sentence : Type :=
| Last (p : pipeline)
| Ended (bg : bool) (p : pipeline)
| Then (bg : bool) (p : pipeline) (rest : sentence).

Inductive token : Type := Word (w : list Z) | Op (c : Z).
Definition command_tokens (c : command) : list token :=
  (Word <$> args c) ++ match target c with Some w => [Op (ch ">"); Word w] | None => [] end.
Fixpoint pipeline_tokens (p : pipeline) : list token :=
  match p with
  | Single c => command_tokens c
  | Piped c p => command_tokens c ++ Op (ch "|") :: pipeline_tokens p
  end.
Definition ender (bg : bool) : Z := if bg then ch "&" else ch ";".
Fixpoint tokens (s : sentence) : list token :=
  match s with
  | Last p => pipeline_tokens p
  | Ended bg p => pipeline_tokens p ++ [Op (ender bg)]
  | Then bg p s => pipeline_tokens p ++ Op (ender bg) :: tokens s
  end.

(** The tree a sentence stands for. *)
Definition command_tree (c : command) : node (list Z) :=
  match target c with
  | Some w => CMD_REDIRECT (CMD_EXECUTE (args c)) w
  | None => CMD_EXECUTE (args c)
  end.
Fixpoint pipeline_tree (p : pipeline) : node (list Z) :=
  match p with
  | Single c => command_tree c
  | Piped c p => CMD_PIPE (command_tree c) (pipeline_tree p)
  end.
Definition ended_tree (bg : bool) (n : node (list Z)) : node (list Z) := if bg then CMD_BACKGROUND n else n.
Fixpoint tree (s : sentence) : node (list Z) :=
  match s with
  | Last p => pipeline_tree p
  | Ended bg p => ended_tree bg (pipeline_tree p)
  | Then bg p s => CMD_JUXTAPOSITION (ended_tree bg (pipeline_tree p)) (tree s)
  end.

Definition valid : Z → bool := scan is_valid_filename_character.
Definition blank : Z → bool := scan is_whitespace.
Definition word (w : list Z) : Prop := w ≠ [] ∧ Forall (λ c, 0 < c < 256 ∧ valid c = true) w.
Definition blanks (sp : list Z) : Prop := Forall (λ c, 0 < c < 256 ∧ blank c = true) sp.
(** Some blanks after every token, at least one between two words. *)
Definition not_word (ts : list token) : Prop := match ts with Word _ :: _ => False | _ => True end.
Inductive layout : list token → list Z → Prop :=
| layout_nil : layout [] []
| layout_op c sp ts s :
    c ∈ [ch ">"; ch "|"; ch "&"; ch ";"] → blanks sp → layout ts s → layout (Op c :: ts) (c :: sp ++ s)
| layout_word w sp ts s :
    word w → blanks sp → (sp = [] → not_word ts) → layout ts s → layout (Word w :: ts) (w ++ sp ++ s).

Definition command_ok (c : command) : Prop := args c ≠ [] ∧ (length (args c) < MAX_ARGC)%nat.
Fixpoint pipeline_ok (p : pipeline) : Prop :=
  match p with Single c => command_ok c | Piped c p => command_ok c ∧ pipeline_ok p end.
Fixpoint sentence_ok (s : sentence) : Prop :=
  match s with
  | Last p | Ended _ p => pipeline_ok p
  | Then _ p s => pipeline_ok p ∧ sentence_ok s
  end.

(** The calls of malloc: one for each node, one for the empty command that is
    tried after a final [;] or [&]. *)
Definition command_size (c : command) : nat := match target c with Some _ => 2 | None => 1 end.
Fixpoint pipeline_size (p : pipeline) : nat :=
  match p with Single c => command_size c | Piped c p => command_size c + pipeline_size p + 1 end.
Definition ended_size (bg : bool) (p : pipeline) : nat := (pipeline_size p + if bg then 1 else 0)%nat.
Fixpoint sentence_size (s : sentence) : nat :=
  match s with
  | Last p => pipeline_size p
  | Ended bg p => ended_size bg p + 1
  | Then bg p s => ended_size bg p + sentence_size s + 1
  end.

(** A tree of spans as a tree of strings. *)
Fixpoint node_map {A B} (f : A → B) (n : node A) : node B :=
  match n with
  | CMD_EXECUTE argv => CMD_EXECUTE (f <$> argv)
  | CMD_JUXTAPOSITION lhs rhs => CMD_JUXTAPOSITION (node_map f lhs) (node_map f rhs)
  | CMD_PIPE lhs rhs => CMD_PIPE (node_map f lhs) (node_map f rhs)
  | CMD_REDIRECT from to => CMD_REDIRECT (node_map f from) (f to)
  | CMD_BACKGROUND inner => CMD_BACKGROUND (node_map f inner)
  end.
(** What a program reads at the address of a span. *)
Definition string_at (m : mem) (sp : span_of) : list Z := (span (λ c, negb (c =? 0)) (drop sp.1 m)).1.

Lemma node_map_ext {B} (f g : span_of → B) n :
  Forall (λ sp, f sp = g sp) (spans n) → node_map f n = node_map g n.
Proof.
  induction n; simpl; intros H.
  - f_equal. by apply Forall_fmap_ext_1.
  - apply Forall_app in H as [? ?]. f_equal; auto.
  - apply Forall_app in H as [? ?]. f_equal; auto.
  - apply Forall_app in H as [? H]. inversion_clear H. f_equal; auto.
  - f_equal. auto.
Qed.
Lemma string_at_cstr m sp s : cstr m sp.1 s → string_at m sp = s.
Proof.
  destruct sp as [p n]. unfold string_at. cbn [fst]. clear n. revert p.
  induction s as [|c s IH]; intros p; cbn [cstr].
  - intros H. by rewrite (drop_S m 0 p).
  - intros (Hc & H0 & Hs). rewrite (drop_S m c p) by done. cbn [span].
    rewrite (proj2 (Z.eqb_neq c 0)) by done. cbn [negb]. specialize (IH _ Hs).
    destruct (span _ (drop (S p) m)). cbn [fst] in *. congruence.
Qed.

(** ** Parsing a sentence *)
(** At [p] the tokens [ts] follow, or blanks and then [ts]. *)
Definition looking (m : mem) (p : ptr) (ts : list token) : Prop := ∃ s, cstr m p s ∧ layout ts s.
Definition after (m : mem) (p : ptr) (ts : list token) : Prop :=
  ∃ sp s, cstr m p (sp ++ s) ∧ blanks sp ∧ layout ts s.
Definition stops (f : Z → bool) (s : list Z) : Prop := match s with [] => True | c :: _ => f c = false end.

Lemma looking_after m p ts : looking m p ts → after m p ts.
Proof. intros (s & ? & ?). exists [], s. split_and!; [done|by apply Forall_nil|done]. Qed.
Lemma span_over f a s : Forall (λ c, f c = true) a → stops f s → span f (a ++ s) = (a, s).
Proof.
  intros Ha Hs. induction Ha as [|c a Hc Ha IH]; cbn [app].
  - destruct s as [|c s]; [done|]. cbn [stops span] in *. by rewrite Hs.
  - cbn [span]. by rewrite Hc, IH.
Qed.
Lemma valid_not_blank c : valid c = true → blank c = false.
Proof.
  unfold valid, blank, scan, is_valid_filename_character, is_whitespace, isspace.
  intros H. case_match; [done|]. unfold ch in *. cbn in *. bool_to_prop. lia.
Qed.
Lemma layout_range ts s : layout ts s → Forall (λ c, 0 < c < 256) s.
Proof.
  assert (∀ f (l : list Z), Forall (λ c, 0 < c < 256 ∧ f c = true) l → Forall (λ c, 0 < c < 256) l) as Hl.
  { intros f l H. eapply Forall_impl; [exact H|]. by intros c []. }
  induction 1 as [|c sp ts s Hc Hsp _ IH|w sp ts s [_ Hw] Hsp _ _ IH]; [by apply Forall_nil|..].
  - apply Forall_cons_2; [|apply Forall_app; eauto]. set_unfold. unfold ch in Hc. cbn in Hc. lia.
  - rewrite !Forall_app. eauto.
Qed.
Lemma layout_not_blank ts s : layout ts s → stops blank s.
Proof.
  destruct 1 as [|c sp ts s Hc _ _|w sp ts s [Hw Hv] _ _ _]; [done|..]; cbn [stops].
  - set_unfold. by destruct_or? Hc; subst.
  - destruct Hv as [|c w [_ Hc] _]; [done|]. by apply valid_not_blank.
Qed.
Lemma blanks_valid_stop sp s : blanks sp → stops valid s → stops valid (sp ++ s).
Proof.
  intros Hsp Hs. destruct Hsp as [|c sp [_ Hc] _]; [done|]. cbn [app stops].
  destruct (valid c) eqn:E; [|done]. apply valid_not_blank in E. congruence.
Qed.
Lemma layout_not_word ts s : layout ts s → not_word ts → stops valid s.
Proof.
  destruct 1 as [|c sp ts s Hc _ _|]; [done|intros _; cbn [stops]|done].
  set_unfold. by destruct_or? Hc; subst.
Qed.

Lemma text_prefix m p a b : cstr m p (a ++ b) → text m (p, length a) = a.
Proof.
  unfold text. cbn [fst snd]. revert p. induction a as [|c a IH]; intros p; [done|].
  cbn [app cstr length]. intros (Hc & _ & Hs). rewrite (drop_S m c p) by done. cbn [take]. f_equal. by apply IH.
Qed.

Section sentences.
Context (m : mem).
Abbreviation at_ p r ms := (Parser m p r ms).

Lemma looking_holds p r ms ts : looking m p ts → ∃ s, holds (at_ p r ms) s ∧ layout ts s.
Proof. intros (s & Hs & Hl). exists s. split; [|done]. split; [done|by eapply layout_range]. Qed.

Lemma skip_after p r ms ts (Q : unit → parser → Prop) :
  after m p ts → (∀ p', looking m p' ts → Q tt (at_ p' r ms)) → wp skip_whitespaces Q (at_ p r ms).
Proof.
  intros (sp & s & Hs & Hsp & Hl) HQ. apply (skip_wp _ (sp ++ s)).
  - split; [done|]. apply Forall_app. split; [|by eapply layout_range].
    eapply Forall_impl; [exact Hsp|by intros ? []].
  - cbv zeta. fold blank. rewrite (span_over blank sp s); [|eapply Forall_impl; [exact Hsp|by intros ? []]|by eapply layout_not_blank].
    apply HQ. exists s. split; [by eapply cstr_app|done].
Qed.
Lemma skip_looking p r ms ts (Q : unit → parser → Prop) :
  looking m p ts → (∀ p', looking m p' ts → Q tt (at_ p' r ms)) → wp skip_whitespaces Q (at_ p r ms).
Proof. intros H. apply skip_after. by apply looking_after. Qed.

Lemma filename_word p r ms w ts (Q : option ptr → parser → Prop) :
  looking m p (Word w :: ts) →
  (after m (p + length w) ts → text m (p, length w) = w → Q (Some p) (at_ (p + length w) r ms)) →
  wp parse_filename Q (at_ p r ms).
Proof.
  intros Hlook HQ. destruct (looking_holds _ r ms _ Hlook) as (s & Hs & Hl).
  inversion Hl as [| |? sp ? s' [Hne Hw] Hsp Hsep Hl']; subst.
  apply (consume_while_wp _ _ (w ++ sp ++ s')); [done|done|]. cbv zeta. fold valid.
  rewrite (span_over valid w).
  - destruct Hs as [Hs _]. cbn [cursor line fst] in *.
    assert (after m (p + length w) ts) by (exists sp, s'; split_and!; [by eapply cstr_app|done|done]).
    assert (text m (p, length w) = w) by (by eapply text_prefix).
    destruct w; [done|]. by apply HQ.
  - eapply Forall_impl; [exact Hw|by intros ? []].
  - destruct sp as [|c sp]; [apply (layout_not_word ts); auto|].
    apply Forall_cons in Hsp as [[_ Hc] _]. cbn [app stops].
    destruct (valid c) eqn:E; [|done]. apply valid_not_blank in E. congruence.
Qed.
Lemma filename_none p r ms ts (Q : option ptr → parser → Prop) :
  looking m p ts → not_word ts → Q None (at_ p r ms) → wp parse_filename Q (at_ p r ms).
Proof.
  intros Hlook Hn HQ. destruct (looking_holds _ r ms _ Hlook) as (s & Hs & Hl).
  apply (consume_while_wp _ _ s); [done|done|]. cbv zeta. fold valid.
  pose proof (span_over valid [] s (Forall_nil_2 _) (layout_not_word _ _ Hl Hn)) as Hsp. cbn [app] in Hsp. rewrite Hsp.
  cbn [length fst cursor]. by rewrite Nat.add_0_r.
Qed.

(** The operators that may follow a part of a sentence. *)
Definition starts (ops : list Z) (ts : list token) : Prop :=
  match ts with [] => True | Op c :: _ => c ∈ ops | Word _ :: _ => False end.
Lemma starts_not_word ops ts : starts ops ts → not_word ts.
Proof. by destruct ts as [|[]]. Qed.
Lemma starts_mono ops ops' ts : starts ops ts → ops ⊆ ops' → starts ops' ts.
Proof. destruct ts as [|[]]; simpl; auto. Qed.

Lemma consume_if_op p r ms c ts (Q : bool → parser → Prop) :
  looking m p (Op c :: ts) → (∀ p', after m p' ts → Q true (at_ p' r ms)) → wp (consume_if c) Q (at_ p r ms).
Proof.
  intros Hlook HQ. destruct (looking_holds _ r ms _ Hlook) as (s & Hs & Hl).
  inversion Hl as [|? sp ? s' Hc Hsp Hl'|]; subst.
  apply (consume_if_wp _ (c :: sp ++ s')); [done| | |].
  - intros ->. set_unfold. unfold ch in Hc. cbn in Hc. lia.
  - intros H. exfalso. apply H. cbn [first]. set_unfold. by destruct_or? Hc; subst.
  - intros ? ? [= <- <-] _ [Hs' _]. apply HQ. by exists sp, s'.
Qed.
Lemma consume_if_none p r ms c ops ts (Q : bool → parser → Prop) :
  looking m p ts → starts ops ts → c ∉ ops → 0 < c < 128 → Q false (at_ p r ms) →
  wp (consume_if c) Q (at_ p r ms).
Proof.
  intros Hlook Hst Hc Hr HQ. destruct (looking_holds _ r ms _ Hlook) as (s & Hs & Hl).
  apply (consume_if_wp _ s); [done|lia|done|]. intros d s' -> Hd _. exfalso. apply Hc.
  inversion Hl as [|d' sp ts' s'' Hd' Hsp Hl'|]; subst; cbn [starts] in Hst; [|done].
  assert (schar d = d) as ->; [|done]. set_unfold. by destruct_or? Hd'; subst.
Qed.

Lemma args_words k ws argv p r ms ts (Q : option (list span_of) → parser → Prop) :
  looking m p ((Word <$> ws) ++ ts) → not_word ts → (length ws < k)%nat →
  (∀ l p', text m <$> l = ws → looking m p' ts → Q (Some (argv ++ l)) (at_ p' r ms)) →
  wp (parse_args k argv) Q (at_ p r ms).
Proof.
  revert k argv p Q. induction ws as [|w ws IH]; intros k argv p Q Hlook Hn Hk HQ;
    (destruct k as [|k]; [simpl in Hk; lia|]); cbn [parse_args]; apply wp_bind.
  - eapply filename_none; [exact Hlook|done|]. apply wp_ret. rewrite <-(app_nil_r argv). by apply HQ.
  - eapply filename_word; [exact Hlook|]. intros Ha Ht. apply wp_bind, wp_gets, wp_bind.
    eapply skip_after; [exact Ha|]. intros p' Hlook'. cbn [cursor length] in *.
    replace (p + length w - p)%nat with (length w) by lia.
    apply IH; [done|done|lia|]. intros l p'' Hl Hlook''. rewrite <-app_assoc. cbn [app].
    apply HQ; [|done]. cbn [fmap list_fmap]. by f_equal.
Qed.

Lemma execute_words ws p r ms ts (Q : option (node span_of) → parser → Prop) :
  looking m p ((Word <$> ws) ++ ts) → not_word ts → ws ≠ [] → (length ws < MAX_ARGC)%nat →
  (∀ n p', node_map (text m) n = CMD_EXECUTE ws → looking m p' ts → Q (Some n) (at_ p' r ms)) →
  wp parse_execute Q (at_ p r (true :: ms)).
Proof.
  intros Hlook Hn Hne Hk HQ. unfold parse_execute. apply wp_bind. unfold malloc.
  apply wp_bind, wp_get, wp_bind, wp_put, wp_ret. cbn [mallocs head default from_option negb tail line cursor result].
  apply wp_bind. eapply args_words; [exact Hlook|done|done|]. intros l p' Hl Hlook'. cbn [app].
  destruct l as [|sp l]; [done|]. apply wp_ret, HQ; [|done]. cbn [node_map]. by f_equal.
Qed.

Lemma redirect_command c p r ms ts (Q : option (node span_of) → parser → Prop) :
  looking m p (command_tokens c ++ ts) → command_ok c → starts [ch "|"; ch "&"; ch ";"] ts →
  (∀ n p', node_map (text m) n = command_tree c → after m p' ts → Q (Some n) (at_ p' r ms)) →
  wp parse_redirect Q (at_ p r (replicate (command_size c) true ++ ms)).
Proof.
  destruct c as [ws to]. intros Hlook [Hne Hk] Hst HQ. cbn [args] in *.
  unfold command_tokens in Hlook. cbn [args target] in Hlook. rewrite <-app_assoc in Hlook.
  unfold parse_redirect, command_tree, command_size in *. cbn [target args] in *.
  destruct to as [w|]; cbn [replicate app] in *; apply wp_bind.
  - eapply execute_words; [exact Hlook|done|done|done|]. intros n p1 Hn Hlook1.
    apply wp_bind. eapply skip_looking; [exact Hlook1|]. intros p2 Hlook2.
    apply wp_bind. eapply consume_if_op; [exact Hlook2|]. intros p3 Ha3. cbn [negb].
    apply wp_bind. eapply skip_after; [exact Ha3|]. intros p4 Hlook4.
    apply wp_bind. eapply filename_word; [exact Hlook4|]. intros Ha5 Ht.
    apply wp_bind. unfold malloc. apply wp_bind, wp_get, wp_bind, wp_put, wp_ret.
    cbn [mallocs head default from_option negb tail line cursor result].
    apply wp_bind, wp_gets, wp_ret. cbn [cursor]. replace (p4 + length w - p4)%nat with (length w) by lia.
    apply HQ; [|done]. cbn [node_map]. by rewrite Hn, Ht.
  - eapply execute_words; [exact Hlook|by eapply starts_not_word|done|done|]. intros n p1 Hn Hlook1.
    apply wp_bind. eapply skip_looking; [exact Hlook1|]. intros p2 Hlook2.
    apply wp_bind. eapply consume_if_none; [exact Hlook2|exact Hst|by vm_compute; set_solver|by vm_compute|].
    cbn [negb]. apply wp_ret, HQ; [done|by apply looking_after].
Qed.

(** A node for which there is memory. *)
Lemma node_alloc {A} p r ms (Q : A → parser → Prop) (m1 m2 : P A) :
  wp m2 Q (at_ p r ms) → wp (ok ← malloc; if negb ok then m1 else m2) Q (at_ p r (true :: ms)).
Proof. done. Qed.

Lemma pipe_pipeline q fuel p r ms ts (Q : option (node span_of) → parser → Prop) :
  looking m p (pipeline_tokens q ++ ts) → pipeline_ok q → starts [ch "&"; ch ";"] ts →
  (length (pipeline_tokens q) < fuel)%nat →
  (∀ n p', node_map (text m) n = pipeline_tree q → after m p' ts → Q (Some n) (at_ p' r ms)) →
  wp (parse_pipe fuel) Q (at_ p r (replicate (pipeline_size q) true ++ ms)).
Proof.
  revert fuel p ms Q. induction q as [c|c q IH]; intros fuel p ms Q Hlook Hok Hst Hf HQ;
    (destruct fuel as [|fuel]; [lia|]); cbn [parse_pipe pipeline_tokens pipeline_size pipeline_ok] in *; apply wp_bind.
  - eapply redirect_command; [exact Hlook|done|eapply starts_mono; [exact Hst|set_solver]|].
    intros n p1 Hn Ha1. apply wp_bind. eapply skip_after; [exact Ha1|]. intros p2 Hlook2.
    apply wp_bind. eapply consume_if_none; [exact Hlook2|exact Hst|by vm_compute; set_solver|by vm_compute|].
    cbn [negb]. apply wp_ret, HQ; [done|by apply looking_after].
  - destruct Hok as [Hc Hq]. rewrite length_app in Hf. cbn [length] in Hf.
    rewrite <-app_assoc in Hlook. cbn [app] in Hlook.
    rewrite <-Nat.add_assoc, replicate_add, <-app_assoc.
    eapply redirect_command; [exact Hlook|done|cbn [starts]; set_solver|].
    intros n p1 Hn Ha1. apply wp_bind. eapply skip_after; [exact Ha1|]. intros p2 Hlook2.
    apply wp_bind. eapply consume_if_op; [exact Hlook2|]. intros p3 Ha3. cbn [negb].
    apply wp_bind. eapply skip_after; [exact Ha3|]. intros p4 Hlook4.
    apply wp_bind. rewrite replicate_add, <-app_assoc.
    apply IH; [done|done|done|lia|]. intros n' p5 Hn' Ha5. cbn [replicate app].
    apply node_alloc. apply wp_ret, HQ; [|done]. cbn [node_map pipeline_tree]. by rewrite Hn, Hn'.
Qed.

(** The rest of a line after its last [;] or [&]. *)
Lemma execute_empty p r ms (Q : option (node span_of) → parser → Prop) :
  looking m p [] → Q None (at_ p RESULT_EMPTY ms) → wp parse_execute Q (at_ p r (true :: ms)).
Proof.
  intros Hlook HQ. unfold parse_execute. apply node_alloc. apply wp_bind.
  change MAX_ARGC with (S 15). cbn [parse_args]. apply wp_bind.
  eapply filename_none; [exact Hlook|done|]. apply wp_ret. unfold fail_with. wp_keep. exact HQ.
Qed.
Lemma juxtaposition_empty fuel p r ms (Q : option (node span_of) → parser → Prop) :
  looking m p [] → (0 < fuel)%nat → Q None (at_ p RESULT_EMPTY ms) →
  wp (parse_juxtaposition fuel) Q (at_ p r (true :: ms)).
Proof.
  intros Hlook Hf HQ. destruct fuel as [|fuel]; [lia|]. cbn [parse_juxtaposition].
  unfold line_fuel. apply wp_bind, wp_gets, wp_bind. cbn [line]. cbn [parse_pipe].
  apply wp_bind. unfold parse_redirect. apply wp_bind. eapply execute_empty; [exact Hlook|].
  by repeat apply wp_ret.
Qed.

(** A pipeline and the operator behind it, before [more]. *)
Lemma juxtaposition_ended fuel bg q p ms ts (Q : option (node span_of) → parser → Prop) :
  looking m p (pipeline_tokens q ++ Op (ender bg) :: ts) → pipeline_ok q →
  (length (pipeline_tokens q) ≤ length m)%nat →
  (∀ lhs p', node_map (text m) lhs = ended_tree bg (pipeline_tree q) → after m p' ts →
    wp (parse_rest lhs (parse_juxtaposition fuel)) Q (at_ p' RESULT_SUCCESS ms)) →
  wp (parse_juxtaposition (S fuel)) Q (at_ p RESULT_SUCCESS (replicate (ended_size bg q) true ++ ms)).
Proof.
  intros Hlook Hok Hl HQ. cbn [parse_juxtaposition]. unfold line_fuel. apply wp_bind, wp_gets, wp_bind.
  cbn [line]. unfold ended_size. rewrite replicate_add, <-app_assoc.
  apply (pipe_pipeline q _ _ _ _ (Op (ender bg) :: ts)); [done|done| |lia|].
  { destruct bg; cbn [starts ender]; set_solver. }
  intros n p1 Hn Ha1. apply wp_bind. eapply skip_after; [exact Ha1|]. intros p2 Hlook2. apply wp_bind.
  destruct bg; cbn [ender replicate app] in *.
  - eapply consume_if_op; [exact Hlook2|]. intros p3 Ha3. apply node_alloc.
    apply HQ; [|done]. cbn [node_map ended_tree]. by rewrite Hn.
  - apply (consume_if_none _ _ _ _ [ch ";"] _ _ Hlook2); [cbn [starts]; set_solver|by vm_compute; set_solver|by vm_compute|].
    apply wp_bind. eapply consume_if_op; [exact Hlook2|]. intros p3 Ha3. cbn [negb]. by apply HQ.
Qed.

Lemma juxtaposition_sentence st fuel p ms (Q : option (node span_of) → parser → Prop) :
  looking m p (tokens st) → sentence_ok st → (length (tokens st) ≤ length m)%nat →
  (length (tokens st) < fuel)%nat →
  (∀ n p', node_map (text m) n = tree st → after m p' [] → Q (Some n) (at_ p' RESULT_SUCCESS ms)) →
  wp (parse_juxtaposition fuel) Q (at_ p RESULT_SUCCESS (replicate (sentence_size st) true ++ ms)).
Proof.
  revert fuel p ms Q. induction st as [q|bg q|bg q st IH]; intros fuel p ms Q Hlook Hok Hl Hf HQ;
    (destruct fuel as [|fuel]; [lia|]); cbn [tokens sentence_ok sentence_size tree] in *.
  - cbn [parse_juxtaposition]. unfold line_fuel. apply wp_bind, wp_gets, wp_bind.
    cbn [line]. apply (pipe_pipeline q _ _ _ _ []); [by rewrite app_nil_r|done|done|lia|].
    intros n p1 Hn Ha1. apply wp_bind. eapply skip_after; [exact Ha1|]. intros p2 Hlook2.
    apply wp_bind. apply (consume_if_none _ _ _ _ [] _ _ Hlook2); [done|set_solver|by vm_compute|].
    apply wp_bind. apply (consume_if_none _ _ _ _ [] _ _ Hlook2); [done|set_solver|by vm_compute|].
    cbn [negb]. apply wp_ret, HQ; [done|by apply looking_after].
  - rewrite length_app in *. cbn [length] in *. rewrite replicate_add, <-app_assoc.
    apply (juxtaposition_ended _ _ _ _ _ []); [done|done|lia|]. intros lhs p1 Hn Ha1. unfold parse_rest.
    apply wp_bind. eapply skip_after; [exact Ha1|]. intros p2 Hlook2. apply wp_bind. cbn [replicate app].
    apply juxtaposition_empty; [done|lia|]. unfold if_empty. wp_keep.
    apply HQ; [done|by apply looking_after].
  - destruct Hok as [Hq Hst]. rewrite length_app in *. cbn [length] in *.
    rewrite <-Nat.add_assoc, replicate_add, <-app_assoc.
    apply (juxtaposition_ended _ _ _ _ _ (tokens st)); [done|done|lia|]. intros lhs p1 Hn Ha1. unfold parse_rest.
    apply wp_bind. eapply skip_after; [exact Ha1|]. intros p2 Hlook2. apply wp_bind.
    rewrite replicate_add, <-app_assoc. apply IH; [done|done|lia|lia|]. intros rhs p3 Hn' Ha3.
    cbn [replicate app]. apply node_alloc. apply wp_ret, HQ; [|done].
    cbn [node_map]. by rewrite Hn, Hn'.
Qed.
End sentences.

Lemma wp_both {S A} (m : K S A) (Q1 Q2 : A → S → Prop) s :
  wp m Q1 s → wp m Q2 s → wp m (λ a s', Q1 a s' ∧ Q2 a s') s.
Proof. unfold wp. by destruct (m s). Qed.
Lemma layout_length ts s : layout ts s → (length ts ≤ length s)%nat.
Proof.
  induction 1 as [|c sp ts s _ _ _ IH|w sp ts s [Hw _] _ _ _ IH]; simpl; rewrite ?length_app; [lia|lia|].
  destruct w; simpl; [done|lia].
Qed.
Lemma first_not_nul ts s : layout ts s → first s = 0 → ts = [].
Proof.
  intros Hl. pose proof (layout_range _ _ Hl) as Hr. destruct Hl as [|c sp ts s _ _ _|w sp ts s [Hw _] _ _ _]; [done|..].
  - intros H. apply Forall_cons in Hr as [Hc _]. by apply schar_nonzero in Hc.
  - destruct w as [|c w]; [done|]. intros H. apply Forall_cons in Hr as [Hc _]. by apply schar_nonzero in Hc.
Qed.

(** Both views of the tree of a sentence: its spans and its strings. *)
Lemma juxtaposition_both sen m p ms :
  looking m p (tokens sen) → sentence_ok sen →
  wp (parse_juxtaposition (S (length m))) (λ r st', ∃ n p', r = Some n ∧ st' = Parser m p' RESULT_SUCCESS ms ∧
    node_map (text m) n = tree sen ∧ after m p' [] ∧ ordered p (spans n) p' ∧ (p' < length m)%nat)
    (Parser m p RESULT_SUCCESS (replicate (sentence_size sen) true ++ ms)).
Proof.
  intros Hlook Hok.
  destruct (looking_holds m p RESULT_SUCCESS (replicate (sentence_size sen) true ++ ms) _ Hlook) as (s & Hs & Hl).
  pose proof (holds_fuel _ _ Hs) as Hf. cbn [line] in Hf. pose proof (layout_length _ _ Hl).
  set (st := Parser m p RESULT_SUCCESS _) in *.
  eapply wp_mono; [apply (wp_both _ (delivers st s) (λ r st', ∃ n p', r = Some n ∧
    st' = Parser m p' RESULT_SUCCESS ms ∧ node_map (text m) n = tree sen ∧ after m p' []))|].
  - apply parse_juxtaposition_delivers; [done|lia].
  - apply (juxtaposition_sentence m sen); [done|done|lia|lia|]. intros n p' Hn Ha. by exists n, p'.
  - intros r st' [(s' & Hm & Ho) (n & p' & -> & -> & Hn & Ha)]. exists n, p'.
    apply moved_end in Hm. by split_and!.
Qed.

Lemma parse_sentence_wp sen p ms st :
  after (line st) p (tokens sen) → sentence_ok sen →
  mallocs st = replicate (sentence_size sen) true ++ ms →
  wp (parse p) (λ r st', result st' = RESULT_SUCCESS ∧
    ∃ n, r = Some n ∧ node_map (text (line st)) n = tree sen) st.
Proof.
  destruct st as [m p0 r0 mall]. cbn [line mallocs]. intros Ha Hok ->. unfold parse.
  apply wp_bind, wp_modify, wp_bind. unfold set_result, set_cursor. cbn [line cursor result mallocs].
  eapply skip_after; [exact Ha|]. intros p1 Hlook1. unfold line_fuel. apply wp_bind, wp_gets, wp_bind. cbn [line].
  eapply wp_mono; [by apply (juxtaposition_both sen)|].
  intros r st' (n & p2 & -> & -> & Hn & Ha2 & Ho & Hlt).
  apply wp_bind. eapply skip_after; [exact Ha2|]. intros p3 Hlook3.
  destruct (looking_holds m p3 RESULT_SUCCESS ms _ Hlook3) as (s & Hs & Hl).
  inversion Hl; subst s. apply wp_bind, (peek_wp _ []); [done|]. change (negb (first [] =? 0)) with false.
  cbv iota. apply wp_bind, null_terminate_wp.
  { apply Forall_forall. intros sp Hi. pose proof (ordered_bound _ _ _ _ Ho Hi). cbn [line]. lia. }
  apply wp_ret. split; [done|]. by exists n.
Qed.

Lemma sentence_parses_wp sen p ms st :
  after (line st) p (tokens sen) → sentence_ok sen →
  mallocs st = replicate (sentence_size sen) true ++ ms →
  wp (parse p) (λ r st', result st' = RESULT_SUCCESS ∧
    ∃ n, r = Some n ∧ node_map (string_at (line st')) n = tree sen) st.
Proof.
  intros Ha Hok Hm. pose proof Ha as (sp & s & Hs & Hsp & Hl).
  eapply wp_mono; [apply wp_both; [apply (parse_wp p (sp ++ s)); [exact Hs|]|by eapply parse_sentence_wp]|].
  { apply Forall_app. split; [|by eapply layout_range]. eapply Forall_impl; [exact Hsp|by intros ? []]. }
  intros r st' [Hc (Hr & n & -> & Hn)]. destruct Hc as (_ & _ & _ & Hc). split; [done|]. exists n.
  split; [done|]. rewrite <-Hn. apply node_map_ext. eapply Forall_impl; [exact Hc|].
  intros sp' Hsp'. by apply string_at_cstr.
Qed.

(** ** Too many arguments *)
Lemma args_too_many k ws argv p m r ms ts (Q : option (list span_of) → parser → Prop) :
  looking m p ((Word <$> ws) ++ ts) → (k ≤ length ws)%nat →
  (∀ p', looking m p' ((Word <$> drop k ws) ++ ts) → Q None (Parser m p' RESULT_TOO_MANY_ARGS_ERROR ms)) →
  wp (parse_args k argv) Q (Parser m p r ms).
Proof.
  revert k argv p. induction ws as [|w ws IH]; intros k argv p Hlook Hk HQ;
    (destruct k as [|k]; cbn [parse_args length] in *; [unfold fail_with; wp_keep; by apply HQ|]); [lia|].
  apply wp_bind. eapply filename_word; [exact Hlook|]. intros Ha Ht. apply wp_bind, wp_gets, wp_bind.
  eapply skip_after; [exact Ha|]. intros p' Hlook'. apply IH; [done|lia|exact HQ].
Qed.
Lemma too_many_wp ws p ms st :
  after (line st) p (Word <$> ws) → (MAX_ARGC ≤ length ws)%nat → mallocs st = true :: ms →
  wp (parse p) (λ r st', r = None ∧ line st' = line st ∧
    result st' = if (length ws =? MAX_ARGC)%nat then RESULT_TOO_MANY_ARGS_ERROR else RESULT_SYNTAX_ERROR) st.
Proof.
  destruct st as [m p0 r0 mall]. cbn [line mallocs]. intros Ha Hlen ->. unfold parse.
  apply wp_bind, wp_modify, wp_bind. unfold set_result, set_cursor. cbn [line cursor result mallocs].
  eapply skip_after; [exact Ha|]. intros p1 Hlook1. unfold line_fuel. apply wp_bind, wp_gets, wp_bind. cbn [line].
  cbn [parse_juxtaposition]. unfold line_fuel. apply wp_bind, wp_gets, wp_bind. cbn [line parse_pipe].
  apply wp_bind. unfold parse_redirect. apply wp_bind. unfold parse_execute. apply node_alloc, wp_bind.
  rewrite <-(app_nil_r (Word <$> ws)) in Hlook1.
  eapply args_too_many; [exact Hlook1|done|]. intros p2 Hlook2. rewrite app_nil_r in Hlook2.
  do 4 apply wp_ret. apply wp_bind. eapply skip_looking; [exact Hlook2|]. intros p3 Hlook3.
  destruct (looking_holds m p3 RESULT_TOO_MANY_ARGS_ERROR ms _ Hlook3) as (s & Hs & Hl).
  apply wp_bind, (peek_wp _ s); [done|]. destruct (Nat.eqb_spec (length ws) MAX_ARGC) as [He|Hne].
  - rewrite drop_ge in Hl by lia. inversion Hl; subst s. change (negb (first [] =? 0)) with false. by apply wp_ret.
  - destruct (first s =? 0) eqn:E; bool_to_prop; [|unfold fail_with; by wp_keep].
    apply (first_not_nul _ _ Hl), fmap_nil_inv, (f_equal length) in E. rewrite length_drop in E. simpl in E. lia.
Qed.

(** ** Theorems *)
(** The parser accepts the language of the grammar and means by it what the
    grammar says: for every sentence (pipelines of commands of fewer than
    [MAX_ARGC] words with or without a redirection, sequenced by [;] or [&]),
    written with any white space between its tokens, and memory for its nodes,
    [parse] succeeds and returns a tree that, read through the addresses it
    holds in the line it has closed with null characters, is the tree of the
    sentence. *)
Lemma sentence_parses sen p ms st :
  after (line st) p (tokens sen) → sentence_ok sen →
  mallocs st = replicate (sentence_size sen) true ++ ms →
  wp (parse p) (λ r st', result st' = RESULT_SUCCESS ∧
    ∃ n, r = Some n ∧ node_map (string_at (line st')) n = tree sen) st.
Proof. apply sentence_parses_wp. Qed.

(** C38: on every null-terminated line, whatever malloc answers, [parse] returns
    without reading or writing outside the line; without a tree it reports an
    error and leaves the line as it was, and with one the whole line has been
    consumed, the strings of the tree lie apart and in order in the line, and
    each is null-terminated in place with its text unchanged. *)
Theorem parse_total p s st :
  cstr (line st) p s → Forall (λ c, 0 < c < 256) s →
  wp (parse p) (λ r st', match r with
    | None => result st' ≠ RESULT_SUCCESS ∧ line st' = line st
    | Some n =>
        cursor st' = (p + length s)%nat ∧ ordered p (spans n) (cursor st') ∧
        line st' = terminate (spans n) (line st) ∧
        Forall (λ sp, cstr (line st') sp.1 (text (line st) sp)) (spans n)
    end) st.
Proof. apply parse_wp. Qed.

(** A command of [MAX_ARGC] words is refused as having too many arguments,
    although argv has as many entries (the last stays null); with more words the
    refusal is reported as a syntax error. *)
Lemma too_many_arguments ws p ms st :
  after (line st) p (Word <$> ws) → (MAX_ARGC ≤ length ws)%nat → mallocs st = true :: ms →
  wp (parse p) (λ r st', r = None ∧ line st' = line st ∧
    result st' = if (length ws =? MAX_ARGC)%nat then RESULT_TOO_MANY_ARGS_ERROR else RESULT_SYNTAX_ERROR) st.
Proof. apply too_many_wp. Qed.

(** ** Witnesses *)
Definition line_of (s : list Z) (grants : nat) : parser :=
  Parser (s ++ [0]) 0 RESULT_SYNTAX_ERROR (replicate grants true).
Lemma blanks_nil : blanks [].
Proof. apply Forall_nil_2. Qed.
Lemma blanks_one : blanks [32].
Proof. by apply Forall_cons_2; [split; vm_compute|apply Forall_nil_2]. Qed.
Lemma word_one c : 0 < c < 256 → valid c = true → word [c].
Proof. intros. split; [done|]. by apply Forall_cons_2; [|apply Forall_nil_2]. Qed.
Lemma layout_letter c sp ts s :
  0 < c < 256 → valid c = true → blanks sp → (sp = [] → not_word ts) → layout ts s →
  layout (Word [c] :: ts) (c :: sp ++ s).
Proof. intros. by apply (layout_word [c]); [apply word_one|..]. Qed.

(** " a b>c|d& e;" *)
Definition example : sentence :=
  Then true (Piped (Command [lit "a"; lit "b"] (Some (lit "c"))) (Single (Command [lit "d"] None)))
    (Ended false (Single (Command [lit "e"] None))).
Lemma example_line : after (lit " a b>c|d& e;" ++ [0]) 0 (tokens example).
Proof.
  exists [32], (lit "a b>c|d& e;"). split_and!; [repeat split; by vm_compute|apply blanks_one|].
  apply (layout_letter 97 [32]); [by vm_compute|done|apply blanks_one|done|].
  apply (layout_letter 98 []); [by vm_compute|done|apply blanks_nil|done|].
  apply (layout_op 62 []); [by vm_compute; set_solver|apply blanks_nil|].
  apply (layout_letter 99 []); [by vm_compute|done|apply blanks_nil|done|].
  apply (layout_op 124 []); [by vm_compute; set_solver|apply blanks_nil|].
  apply (layout_letter 100 []); [by vm_compute|done|apply blanks_nil|done|].
  apply (layout_op 38 [32]); [by vm_compute; set_solver|apply blanks_one|].
  apply (layout_letter 101 []); [by vm_compute|done|apply blanks_nil|done|].
  apply (layout_op 59 []); [by vm_compute; set_solver|apply blanks_nil|apply layout_nil].
Qed.
Lemma sentence_parses_witness :
  wp (parse 0) (λ r st', result st' = RESULT_SUCCESS ∧
    ∃ n, r = Some n ∧ node_map (string_at (line st')) n = tree example) (line_of (lit " a b>c|d& e;") 20).
Proof.
  apply (sentence_parses example 0 (replicate (20 - sentence_size example) true)); [apply example_line| |reflexivity].
  repeat split; solve [done|by vm_compute; lia].
Defined.
Lemma parse_total_witness :
  wp (parse 0) (λ r st', match r with
    | None => result st' ≠ RESULT_SUCCESS ∧ line st' = line (line_of (lit "a | ") 1)
    | Some n =>
        cursor st' = 4%nat ∧ ordered 0 (spans n) (cursor st') ∧
        line st' = terminate (spans n) (line (line_of (lit "a | ") 1)) ∧
        Forall (λ sp, cstr (line st') sp.1 (text (line (line_of (lit "a | ") 1)) sp)) (spans n)
    end) (line_of (lit "a | ") 1).
Proof.
  apply (parse_total 0 (lit "a | ") (line_of (lit "a | ") 1)); [repeat split; by vm_compute|].
  repeat (apply Forall_cons_2; [by vm_compute|]). apply Forall_nil_2.
Defined.
Lemma sixteen_words : after (line (line_of (lit "a b c d e f g h i j k l m n o p") 1)) 0
  (Word <$> ((λ c, [c]) <$> lit "abcdefghijklmnop")).
Proof.
  exists [], (lit "a b c d e f g h i j k l m n o p"). split_and!; [repeat split; by vm_compute|apply blanks_nil|].
  do 15 (apply (layout_letter _ [32]); [by vm_compute|done|apply blanks_one|done|]).
  apply (layout_letter _ []); [by vm_compute|done|apply blanks_nil|done|apply layout_nil].
Qed.
Lemma too_many_arguments_witness :
  wp (parse 0) (λ r st', r = None ∧ result st' = RESULT_TOO_MANY_ARGS_ERROR)
    (line_of (lit "a b c d e f g h i j k l m n o p") 1).
Proof.
  eapply wp_mono.
  - apply (too_many_arguments ((λ c, [c]) <$> lit "abcdefghijklmnop") 0 []);
      [exact sixteen_words|by vm_compute; lia|reflexivity].
  - intros r st' (-> & _ & ->). by split.
Defined.
