(* ===== verification/Libc.v ===== *)
(** * The C library of the user programs (userland/lib/)

    The wrappers of the system calls (syscall.c), the stream functions that are
    built on them (stdio.c), and environment and random numbers (stdlib.c). The
    wrappers run the kernel's own functions: user and kernel state are together
    in one record. A process that is to die is not followed back into user mode. *)
From S2P Require Import Prelude Errno CString CLib Kernel Inode Path Tmpfs Process Scheduler Fifo.
From S2P Require Import Socket Fs Vfs SyscallFs SyscallSocket SyscallProcess Syscalls.

(** [errno] and [rand_state] of the running program. *)
Record user : Type := User { kern : kstate; errno : Z; rand_state : Z }.
Abbreviation L := (K user).
Definition set_errno (e : Z) (u : user) : user := User (kern u) e (rand_state u).
Definition set_kern (k : kstate) (u : user) : user := User k (errno u) (rand_state u).
(** The trap into the kernel and back. *)
Definition in_kern {A} (m : K kstate A) : L A := zoom kern set_kern m.

(** RETURN_WITH_ERRNO *)
Definition return_with_errno (rc : Z) : L Z :=
  if IS_ERR rc then _ ← modify (set_errno (- rc)); mret (-1) else mret rc.
Definition returning (m : K kstate Z) : L Z := rc ← in_kern m; return_with_errno rc.
(** With what the kernel stores behind a pointer it gets. *)
Definition returning_with {A} (m : K kstate (Z * A)) : L (Z * A) :=
  r ← in_kern m; rc ← return_with_errno r.1; mret (rc, r.2).

(** ** syscall.c *)
Definition accept (sockfd : Z) : L Z := returning (sys_accept sockfd).
Definition bind (sockfd : Z) (addr : sockaddr_un) (addrlen : Z) : L Z := returning (sys_bind sockfd addr addrlen).
Definition chdir (path : list Z) : L Z := returning (sys_chdir path).
Definition close (fd : Z) : L Z := returning (sys_close fd).
Definition connect (sockfd : Z) (addr : sockaddr_un) (addrlen : Z) : L Z :=
  returning (sys_connect sockfd addr addrlen).
Definition dup2 (oldfd newfd : Z) : L Z := returning (sys_dup2 oldfd newfd).
(** [arg] is what va_arg finds. *)
Definition fcntl (fd cmd arg : Z) : L Z := returning (sys_fcntl fd cmd arg).
Definition fork : L Z := returning sys_fork.
Definition ftruncate (fd length : Z) : L Z := returning (sys_ftruncate fd length).
Definition getcwd (buf : bool) (size : Z) : L (option (list Z)) :=
  r ← in_kern (sys_getcwd buf size);
  match r with
  | PTR path => mret (Some path)
  | ERR_PTR rc => _ ← modify (set_errno (- rc)); mret None
  end.
Definition getdents (fd count : Z) : L (Z * list dirent) := returning_with (sys_getdents fd count).
Definition getpgid (pid : Z) : L Z := returning (sys_getpgid pid).
Definition getpid : L Z := returning sys_getpid.
Definition ioctl (fd : Z) : L Z := returning (sys_ioctl fd).
Definition kill (pid sig : Z) : L Z := returning (sys_kill pid sig).
Definition link (oldpath newpath : list Z) : L Z := returning (sys_link oldpath newpath).
Definition listen (sockfd backlog : Z) : L Z := returning (sys_listen sockfd backlog).
Definition lseek (fd offset whence : Z) : L Z := returning (sys_lseek fd offset whence).
Definition mkdir (pathname : list Z) (mode : Z) : L Z := returning (sys_mkdir pathname mode).
Definition mknod (pathname : list Z) (mode dev : Z) : L Z := returning (sys_mknod pathname mode dev).
(** [arg] is what va_arg finds. *)
Definition open (pathname : list Z) (flags arg : Z) : L Z :=
  let mode := if Z.land flags O_CREAT =? 0 then 0 else arg in
  returning (sys_open pathname flags mode).
Definition pipe : L (Z * list Z) := returning_with sys_pipe.
Definition read (fd count : Z) : L (Z * list Z) := returning_with (sys_read fd count).
Definition rename (oldpath newpath : list Z) : L Z := returning (sys_rename oldpath newpath).
Definition rmdir (pathname : list Z) : L Z := returning (sys_rmdir pathname).
Definition sched_yield : L Z := returning sys_sched_yield.
Definition setpgid (pid pgid : Z) : L Z := returning (sys_setpgid pid pgid).
Definition socket (domain type : Z) : L Z := returning (sys_socket domain type).
Definition stat_ (pathname : list Z) : L (Z * option stat) := returning_with (sys_stat pathname).
Definition sysconf (name : Z) : L Z := returning (sys_sysconf name).
Definition times (uptime : Z) : L (Z * (Z * Z)) := returning_with (sys_times uptime).
Definition unlink (pathname : list Z) : L Z := returning (sys_unlink pathname).
Definition waitpid (pid options : Z) : L (Z * option Z) := returning_with (sys_waitpid pid options).
Definition write (fd : Z) (buf : list Z) : L Z := returning (sys_write fd buf).
(** unistd.c *)
Definition dup (oldfd garbage : Z) : L Z := fcntl oldfd F_DUPFD garbage.

(** ** stdio.c *)
Definition putchar (c : Z) : L Z :=
  rc ← write 1 [u8 c];
  mret (if rc <? 0 then -1 else c).
Definition puts (str : list Z) : L Z :=
  rc ← write 1 str;
  if rc <? 0 then mret (-1)
  else
    n ← write 1 [10];
    mret (if n <? 0 then -1 else rc + 1).
(** The character is not initialised when nothing is read. *)
Definition getchar : L Z :=
  r ← read 0 1;
  if r.1 <? 0 then mret (-1)
  else match r.2 with c :: _ => mret (schar c) | [] => undef end.
Definition remove (pathname : list Z) : L Z :=
  rc ← unlink pathname;
  if 0 <=? rc then mret 0
  else
    u ← get;
    if errno u =? errno_val EISDIR then rmdir pathname else mret (-1).

(** A FILE is its descriptor. *)
Definition fclose (file : Z) : L Z := close file.
(** [mode_ptr] is the address of [mode], passed on as a mode; [fp] points
    nowhere when it is written through. *)
Definition fopen_with (filename : list Z) (flags mode_ptr : Z) : L (option Z) :=
  fd ← open filename flags mode_ptr;
  if negb (fd =? -1) then undef else mret None.
Definition fopen (filename mode : list Z) (mode_ptr : Z) : L (option Z) :=
  let strcmp (a : list Z) : bool := negb (bool_decide (mode = a)) in
  if strcmp (lit "r") then fopen_with filename O_RDONLY mode_ptr
  else if strcmp (lit "w") then fopen_with filename (Z.lor O_WRONLY O_CREAT) mode_ptr
  else if strcmp (lit "r+") then fopen_with filename O_RDWR mode_ptr
  else if strcmp (lit "w+") then fopen_with filename (Z.lor O_RDWR O_CREAT) mode_ptr
  else mret None.
(** [ptr] as the bytes behind it. *)
Definition fwrite (ptr : list Z) (size count : Z) (stream : Z) : L Z :=
  let num_bytes_to_write := u32 (size * count) in
  if Z.of_nat (length ptr) <? num_bytes_to_write then undef
  else
    bytes_written ← write stream (take (Z.to_nat num_bytes_to_write) ptr);
    mret (if bytes_written <? 0 then U32 - 1 else bytes_written).
(** [got] are the [bytes_read] bytes stored so far. *)
Fixpoint fread_loop (fuel : nat) (total_bytes : Z) (fd : Z) (got : list Z) : L (list Z) :=
  match fuel with
  | O => out_of_fuel
  | S fuel =>
      let bytes_read := Z.of_nat (length got) in
      if bytes_read <? total_bytes then
        '(result, bytes) ← read fd (total_bytes - bytes_read);
        if result <? 0 then mret got
        else if result =? 0 then mret got
        else fread_loop fuel total_bytes fd (got ++ bytes)
      else mret got
  end.
Definition fread (size count stream : Z) : L (Z * list Z) :=
  let total_bytes := u32 (size * count) in
  got ← fread_loop (S (Z.to_nat total_bytes)) total_bytes stream [];
  if size =? 0 then undef else mret (Z.of_nat (length got) / size, got).

(** ** stdlib.c *)
(** strchr(s, '='): the length of the part before and the part behind. *)
Fixpoint split_equal (s : list Z) : option (list Z * list Z) :=
  match s with
  | [] => None
  | c :: s =>
      if c =? ch "=" then Some ([], s)
      else match split_equal s with
           | Some (a, b) => Some (c :: a, b)
           | None => None
           end
  end.
(** !strncmp(env, name, len) for the [len] bytes before the equals sign, none of
    which is null. *)
Definition same_start (var name : list Z) : bool := bool_decide (take (length var) name = var).
Fixpoint getenv (environ : list (list Z)) (name : list Z) : option (list Z) :=
  match environ with
  | [] => None
  | env :: rest =>
      match split_equal env with
      | None => getenv rest name
      | Some (var, value) =>
          if negb (bool_decide (var = [])) && same_start var name then Some value
          else getenv rest name
      end
  end.

Definition rand : L Z :=
  _ ← modify (λ u, User (kern u) (errno u) (Z.land (u32 (u32 (rand_state u * 1103515245) + 12345)) 0x7fffffff));
  gets rand_state.
Definition srand (seed : Z) : L unit :=
  modify (λ u, User (kern u) (errno u) (if seed =? 0 then 1 else s32 seed)).

(** ** What the library does *)

(** rand keeps its state in 31 bits. *)
Lemma rand_range u : wp rand (λ r u', 0 ≤ r < 2147483648 ∧ rand_state u' = r ∧ kern u' = kern u) u.
Proof.
  unfold rand. wp_keep. cbn [rand_state kern]. split_and!; try done.
  - apply Z.land_nonneg. right. lia.
  - change 0x7fffffff with (Z.ones 31). rewrite Z.land_ones by lia. apply Z.mod_pos_bound. lia.
Qed.

(** The value of the first variable whose name starts the name asked for: a
    variable is also found by a longer name. *)
Lemma getenv_finds environ1 var value environ2 name :
  Forall (λ env, match split_equal env with
    | Some (v, _) => v = [] ∨ take (length v) name ≠ v
    | None => True
    end) environ1 →
  Forall (λ c, c ≠ ch "=") var → var ≠ [] → take (length var) name = var →
  getenv (environ1 ++ (var ++ ch "=" :: value) :: environ2) name = Some value.
Proof.
  intros H1 Hv Hne Hn.
  assert (split_equal (var ++ ch "=" :: value) = Some (var, value)) as Hs.
  { clear Hne Hn. induction Hv as [|c var Hc _ IH]; [done|]. cbn [app split_equal].
    by rewrite (proj2 (Z.eqb_neq c _)), IH by done. }
  induction H1 as [|env environ1 He _ IH]; cbn [app getenv].
  - rewrite Hs. unfold same_start. by rewrite bool_decide_eq_false_2, bool_decide_eq_true_2 by done.
  - destruct (split_equal env) as [[v x]|]; [|done]. unfold same_start.
    destruct He as [->|He]; [done|]. rewrite (bool_decide_eq_false_2 (take _ _ = _)) by done.
    by rewrite andb_false_r.
Qed.
Example getenv_longer_name :
  getenv [lit "PATH=/bin"; lit "HOME=/root"] (lit "HOMEPAGE") = Some (lit "/root").
Proof. reflexivity. Qed.

(** fopen never opens a stream: it fails, or writes the descriptor through a
    pointer that has no value. *)
Lemma fopen_opens_nothing filename mode p u f u' : fopen filename mode p u ≠ Done (Some f) u'.
Proof.
  assert (∀ flags, fopen_with filename flags p u ≠ Done (Some f) u') as Hw.
  { intros flags. unfold fopen_with, mbind, K_bind. destruct (open filename flags p u) as [fd u1| | |]; try done.
    by destruct (negb (fd =? -1)). }
  unfold fopen. repeat case_match; auto.
Qed.
(** "r" is no exception: it is taken for "w" and creates the file. *)
Example fopen_r filename p : fopen filename (lit "r") p = fopen_with filename (Z.lor O_WRONLY O_CREAT) p.
Proof. reflexivity. Qed.

(** remove does not remove directories: unlink answers EPERM for them and remove
    waits for EISDIR. *)
Lemma remove_refuses_directories u p path r i :
  let s := kern u in
  fs_ok 3 s → tree_ok s → procs s !! current s = Some p → root s = Some r →
  Forall (λ c, c ≠ 0) (cwd_path p) → Forall (λ c, c ≠ 0) path →
  r_inode (walk s true r (components (cwd_path p) path)) = PTR i → is_dir s i = true →
  wp (remove path) (λ rc u', rc = -1 ∧ allocs s (kern u')) u.
Proof.
  intros s Hok Htree Hp Hr Hcwd Hpath Hi Hdir. unfold remove, unlink, returning, in_kern, return_with_errno.
  apply wp_bind, wp_bind, wp_zoom. eapply wp_mono; [by apply (sys_unlink_wp s p path r)|].
  cbv zeta. rewrite Hi, Hdir. intros rc k (s1 & Ha & Hrc).
  assert (k = s1 ∧ (rc = ERR ENOMEM ∨ rc = ERR EPERM)) as [-> Hrc'].
  { destruct Hrc as [(_ & -> & ->)|Hrc]; [tauto|].
    destruct (out_parent (walk s true r (components (cwd_path p) path))),
      (out_basename (walk s true r (components (cwd_path p) path))); destruct Hrc as [-> ->]; tauto. }
  destruct Hrc' as [-> | ->]; [change (IS_ERR (ERR ENOMEM)) with true|change (IS_ERR (ERR EPERM)) with true];
    cbv iota; wp_keep; by split.
Qed.
