(* ===== verification/Programs.v ===== *)
(** * Programs that read files: the loops of cat, cp, wc and fread

    The programs are written against a class of the system calls they use, with
    a class of laws for them: a descriptor delivers a sequence of bytes, in pieces
    of any size; a second one is a file with a position. The library's read and
    write over the kernel's files are an instance. *)
From S2P Require Import Prelude Errno CString GrowableBuf Kernel Inode Path Tmpfs Process.
From S2P Require Import Fs Vfs SyscallFs Libc.

(** ** The interface *)
Class Posix (S : Type) := {
  p_read : Z → Z → K S (Z * list Z);
  p_write : Z → list Z → K S Z;
}.

(** Files and pieces of them that the laws speak of stay below this size. *)
Definition FILE_MAX : Z := 536866816.

(** What [p_read] gives of the bytes that are ahead: a piece that is empty only
    at their end. *)
Definition piece (count : Z) (rest : list Z) (r : Z * list Z) : Prop :=
  r.1 = Z.of_nat (length r.2) ∧ r.1 ≤ count ∧ r.2 = take (length r.2) rest ∧ (r.2 = [] → rest = []).

(** [reading fd rest]: [rest] is ahead of [fd]. [copying fd fd' rest f o]: and
    [fd'] is another file, with contents [f], at position [o]. *)
Class PosixLaws (S : Type) `{Posix S} := {
  reading : Z → list Z → S → Prop;
  copying : Z → Z → list Z → list Z → nat → S → Prop;
  read_law fd rest count s :
    reading fd rest s → 0 < count < 2147483648 →
    wp (p_read fd count) (λ r s', piece count rest r ∧ reading fd (drop (length r.2) rest) s') s;
  copying_reading fd fd' rest f o s : copying fd fd' rest f o s → reading fd rest s;
  copy_read_law fd fd' rest f o count s :
    copying fd fd' rest f o s → 0 < count < 2147483648 →
    wp (p_read fd count) (λ r s', piece count rest r ∧
      copying fd fd' (drop (length r.2) rest) f o s') s;
  copy_write_law fd fd' rest f o bytes s :
    copying fd fd' rest f o s → Z.of_nat (o + length bytes) ≤ FILE_MAX →
    wp (p_write fd' bytes) (λ n s',
      (n = Z.of_nat (length bytes) ∧ copying fd fd' rest (written o bytes f) (o + length bytes) s') ∨
      n = -1) s;
}.

(** ** The programs *)
Section programs.
Context {S : Type} `{Posix S}.
Definition BUF_SIZE : Z := 1024.

(** How a loop is left; the message and the closing that follow are not part of
    the model. *)
Inductive exit_by : Type := END_OF_INPUT | READ_FAILED | WRITE_FAILED.
(** userland/cp.c, the loop. *)
Fixpoint copy_loop (fuel : nat) (src_fd dest_fd : Z) : K S exit_by :=
  match fuel with
  | O => out_of_fuel
  | Datatypes.S fuel =>
      '(nread, buf) ← p_read src_fd BUF_SIZE;
      if nread <? 0 then mret READ_FAILED
      else if nread =? 0 then mret END_OF_INPUT
      else
        n ← p_write dest_fd buf;
        if n <? 0 then mret WRITE_FAILED else copy_loop fuel src_fd dest_fd
  end.
(** userland/cat.c, the loop of dump_file. *)
Definition dump_loop (fuel : nat) (fd : Z) : K S exit_by := copy_loop fuel fd 1.

(** userland/wc.c, the loop of process_file. *)
Record counts : Type := Counts { lines : Z; words : Z; bytes : Z; in_word : bool }.
Definition count_char (k : counts) (c : Z) : counts :=
  let n := u32 (bytes k + 1) in
  let l := if schar c =? 10 then u32 (lines k + 1) else lines k in
  if isspace (schar c) then Counts l (words k) n false
  else if negb (in_word k) then Counts l (u32 (words k + 1)) n true
  else Counts l (words k) n (in_word k).
Fixpoint count_loop (fuel : nat) (fd : Z) (k : counts) : K S (option counts) :=
  match fuel with
  | O => out_of_fuel
  | Datatypes.S fuel =>
      '(nread, buf) ← p_read fd BUF_SIZE;
      if nread <? 0 then mret None
      else if nread =? 0 then mret (Some k)
      else count_loop fuel fd (foldl count_char k buf)
  end.
End programs.

(** ** Proofs against the interface *)
Section proofs.
Context {S : Type} `{PosixLaws S}.

Lemma piece_rest count rest r : piece count rest r → rest = r.2 ++ drop (length r.2) rest.
Proof. intros (_ & _ & Hr & _). rewrite Hr at 1. by rewrite take_drop. Qed.
Lemma piece_end count rest r : piece count rest r → r.1 = 0 → rest = [].
Proof. intros (Hn & _ & _ & He) Hz. apply He. destruct r.2; [done|]. simpl in Hn. lia. Qed.
Lemma piece_more count rest r :
  piece count rest r → r.1 ≠ 0 → (length (drop (length r.2) rest) < length rest)%nat ∧ 0 < r.1.
Proof.
  intros (Hn & _ & Hr & _) Hne. apply (f_equal length) in Hr. rewrite length_take in Hr.
  rewrite length_drop. lia.
Qed.
Lemma piece_nonneg count rest r : piece count rest r → (r.1 <? 0) = false.
Proof. intros (-> & _). apply Z.ltb_ge. lia. Qed.

(** Writing in two pieces. *)
Lemma written_app o a b f : written (o + length a) b (written o a f) = written o (a ++ b) f.
Proof.
  apply list_eq. intros i. rewrite !lookup_written, length_app, !lookup_extend.
  assert (length (written o a f) = (length f `max` (o + length a))%nat) as Hl.
  { unfold written. rewrite length_splice; rewrite length_extend; lia. }
  rewrite Hl. repeat case_decide; try lia.
  - rewrite lookup_app_r by lia. f_equal. lia.
  - rewrite lookup_written, decide_True by lia. by rewrite lookup_app_l by lia.
  - rewrite lookup_written, lookup_extend. by rewrite decide_False, decide_True by lia.
  - rewrite lookup_written, lookup_extend. rewrite decide_False, decide_False, decide_True by lia. done.
  - done.
Qed.

Lemma written_none o f : (o ≤ length f)%nat → written o [] f = f.
Proof.
  intros Hl. apply list_eq. intros i. rewrite lookup_written, lookup_extend. cbn [length].
  repeat case_decide; try lia; [done|]. by rewrite lookup_ge_None_2 by lia.
Qed.
Lemma length_written o a f : length (written o a f) = (length f `max` (o + length a))%nat.
Proof. unfold written. rewrite length_splice; rewrite length_extend; lia. Qed.

Lemma copy_loop_wp fuel fd fd' rest f o s :
  copying fd fd' rest f o s → (length rest < fuel)%nat → (o ≤ length f)%nat →
  Z.of_nat (o + length rest) ≤ FILE_MAX →
  wp (copy_loop fuel fd fd') (λ ok s',
    ok = END_OF_INPUT → copying fd fd' [] (written o rest f) (o + length rest) s') s.
Proof.
  revert rest f o s. induction fuel as [|fuel IH]; intros rest f o s Hc Hf Ho Hm; [lia|]. cbn [copy_loop].
  apply wp_bind. eapply wp_mono; [by apply (copy_read_law _ _ _ _ _ BUF_SIZE _ Hc)|].
  intros [n buf] s1 [Hp Hc1]. rewrite (piece_nonneg _ _ _ Hp : n <? 0 = false).
  destruct (Z.eqb_spec n 0) as [->|Hn].
  - apply wp_ret. intros _. pose proof (piece_end _ _ _ Hp eq_refl) as ->.
    rewrite drop_nil, written_none, Nat.add_0_r in * by done. done.
  - pose proof (piece_rest _ _ _ Hp) as Hr. destruct (piece_more _ _ _ Hp Hn) as [Hlt Hpos].
    cbn [fst snd] in *. set (rest' := drop (length buf) rest) in *. rewrite Hr, length_app in Hm.
    apply wp_bind. eapply wp_mono; [apply (copy_write_law _ _ _ _ _ buf _ Hc1); lia|].
    intros m s2 [[-> Hc2]| ->]; [|by apply wp_ret].
    rewrite (proj2 (Z.ltb_ge _ 0)) by lia. eapply wp_mono.
    { apply (IH _ _ _ _ Hc2); [lia|rewrite length_written; lia|lia]. }
    intros ok s3 Hok ->. specialize (Hok eq_refl). rewrite written_app, <-Hr in Hok.
    rewrite Hr at 2. by rewrite length_app, Nat.add_assoc.
Qed.

(** What wc counts: newline characters, maximal runs of other than white space,
    bytes. [cur] is the run that has begun. *)
Definition space (c : Z) : bool := isspace (schar c).
Fixpoint runs (cur : list Z) (s : list Z) : list (list Z) :=
  match s with
  | [] => match cur with [] => [] | _ => [cur] end
  | c :: s =>
      if space c then match cur with [] => runs [] s | _ => cur :: runs [] s end
      else runs (cur ++ [c]) s
  end.
Definition newlines (s : list Z) : nat := length (filter (λ c, schar c = 10) s).
Definition counted (s : list Z) : Z * Z * Z :=
  (Z.of_nat (newlines s), Z.of_nat (length (runs [] s)), Z.of_nat (length s)).
Definition totals (k : counts) : Z * Z * Z := (lines k, words k, bytes k).

Lemma triple_eq (a b c a' b' c' : Z) : a = a' → b = b' → c = c' → (a, b, c) = (a', b', c').
Proof. congruence. Qed.
(** How far the counting is after [s]: [cur] is the run that is not ended. *)
Lemma count_more cur s k :
  in_word k = negb (bool_decide (cur = [])) →
  0 ≤ lines k → 0 ≤ words k → 0 ≤ bytes k →
  lines k + Z.of_nat (length s) < U32 → words k + Z.of_nat (length s) < U32 →
  bytes k + Z.of_nat (length s) < U32 →
  totals (foldl count_char k s) =
    (lines k + Z.of_nat (newlines s),
     words k + Z.of_nat (length (runs cur s)) - (if in_word k then 1 else 0),
     bytes k + Z.of_nat (length s)).
Proof.
  revert cur k. induction s as [|c s IH]; intros cur k Hk Hl0 Hw0 Hb0 Hl Hw Hb.
  { change (newlines []) with 0%nat. rewrite Hk. destruct cur; apply triple_eq; simpl; lia. }
  cbn [foldl length] in *.
  assert (u32 (lines k + 1) = lines k + 1 ∧ u32 (words k + 1) = words k + 1 ∧ u32 (bytes k + 1) = bytes k + 1)
    as (E1 & E2 & E3) by (rewrite !u32_small by lia; done).
  unfold count_char at 2. rewrite E1, E2, E3. cbv zeta. cbn [runs]. fold (space c).
  assert (newlines (c :: s) = (if (schar c =? 10)%Z then 1 else 0) + newlines s)%nat as ->.
  { unfold newlines. destruct (Z.eqb_spec (schar c) 10); [by rewrite filter_cons_True|by rewrite filter_cons_False]. }
  destruct (space c).
  - rewrite (IH []) by (destruct (schar c =? 10); simpl; done || lia). cbn [lines words bytes in_word].
    destruct cur; rewrite Hk; destruct (schar c =? 10); apply triple_eq; cbn [bool_decide decide_rel negb length]; simpl; lia.
  - destruct (in_word k) eqn:Ew; cbn [negb].
    + rewrite (IH (cur ++ [c])) by (destruct (schar c =? 10); simpl; try lia; rewrite ?Ew; by destruct cur).
      cbn [lines words bytes in_word]. destruct (schar c =? 10); apply triple_eq; lia.
    + rewrite (IH (cur ++ [c])) by (destruct (schar c =? 10); simpl; try lia; by destruct cur).
      cbn [lines words bytes in_word]. destruct (schar c =? 10); apply triple_eq; lia.
Qed.

Lemma count_loop_fold fuel fd rest k s :
  reading fd rest s → (length rest < fuel)%nat →
  wp (count_loop fuel fd k) (λ r _, r = Some (foldl count_char k rest)) s.
Proof.
  revert rest k s. induction fuel as [|fuel IH]; intros rest k s Hr Hf; [lia|]. cbn [count_loop].
  apply wp_bind. eapply wp_mono; [by apply (read_law _ _ BUF_SIZE _ Hr)|].
  intros [n buf] s1 [Hp Hr1]. rewrite (piece_nonneg _ _ _ Hp : n <? 0 = false).
  destruct (Z.eqb_spec n 0) as [->|Hn].
  - apply wp_ret. by rewrite (piece_end _ _ _ Hp eq_refl).
  - pose proof (piece_rest _ _ _ Hp) as Heq. destruct (piece_more _ _ _ Hp Hn) as [Hlt _].
    cbn [fst snd] in *. eapply wp_mono; [apply (IH _ _ _ Hr1); lia|].
    intros r s2 ->. rewrite Heq at 2. by rewrite foldl_app.
Qed.
End proofs.

(** ** The library over the kernel's files *)
#[global] Instance user_posix : Posix user := {| p_read := read; p_write := write |}.

(** [d] is open at [fd] on a regular file with the buffer [b]. *)
Record on_file (fd : Z) (d : nat) (x : file_description) (nd : inode) (b : growable_buf)
    (l : list dentry) (k : kstate) : Prop := OnFile {
  of_opened : opened k fd d;
  of_file : file_at k d x nd b l;
  of_fops : fops nd = non_dir_fops;
  of_mode : S_ISDIR (mode nd) = false;
  of_inv : gb_inv b;
}.
Definition source (fd : Z) (d : nat) (x : file_description) (nd : inode) (b : growable_buf)
    (l : list dentry) (rest : list Z) (k : kstate) : Prop :=
  on_file fd d x nd b l k ∧ has_flag (d_flags x) O_RDONLY = true ∧ gb_size b < 1073741824 ∧
  0 ≤ d_offset x < 1073741824 ∧ rest = drop (Z.to_nat (d_offset x)) (file b).
Definition sink (fd : Z) (d : nat) (x : file_description) (nd : inode) (b : growable_buf)
    (l : list dentry) (f : list Z) (o : nat) (k : kstate) : Prop :=
  on_file fd d x nd b l k ∧ has_flag (d_flags x) O_WRONLY = true ∧ capacity b ≤ 1073741824 ∧
  d_offset x = Z.of_nat o ∧ f = file b.
Definition user_reading (fd : Z) (rest : list Z) (u : user) : Prop :=
  ∃ d x nd b l, source fd d x nd b l rest (kern u).
Definition user_copying (fd fd' : Z) (rest f : list Z) (o : nat) (u : user) : Prop :=
  ∃ d x nd b l d' x' nd' b' l', source fd d x nd b l rest (kern u) ∧ sink fd' d' x' nd' b' l' f o (kern u) ∧
    d ≠ d' ∧ d_inode x ≠ d_inode x'.

Lemma wp_returning m (Q : Z → user → Prop) u :
  wp m (λ rc k, if IS_ERR rc then Q (-1) (set_errno (- rc) (set_kern k u)) else Q rc (set_kern k u)) (kern u) →
  wp (returning m) Q u.
Proof.
  intros Hm. unfold returning, in_kern, return_with_errno. apply wp_bind, wp_zoom. eapply wp_mono; [exact Hm|].
  intros rc k HQ. cbv beta in HQ. destruct (IS_ERR rc); [apply wp_bind, wp_modify, wp_ret|apply wp_ret]; exact HQ.
Qed.
Lemma wp_returning_with {A} (m : K kstate (Z * A)) (Q : Z * A → user → Prop) u :
  wp m (λ r k, if IS_ERR r.1 then Q (-1, r.2) (set_errno (- r.1) (set_kern k u)) else Q r (set_kern k u)) (kern u) →
  wp (returning_with m) Q u.
Proof.
  intros Hm. unfold returning_with, in_kern, return_with_errno. apply wp_bind, wp_zoom. eapply wp_mono; [exact Hm|].
  intros [rc a] k HQ. cbv beta in HQ. cbn [fst snd] in *. apply wp_bind.
  destruct (IS_ERR rc); [apply wp_bind, wp_modify, wp_ret, wp_ret|apply wp_ret, wp_ret]; exact HQ.
Qed.

(** A file whose description moves is still a file. *)
Lemma on_file_moved fd d x nd b b' l k o g :
  on_file fd d x nd b l k → gb_inv b' →
  on_file fd d (set_offset o x) (set_data (TmpfsData b' l) nd) b' l
    (with_grants g (at_file d (set_offset o x) nd b' l k)).
Proof.
  intros [Ho Hf Hfo Hm _] Hi. split; [done| |done|done|done].
  destruct Hf as (_ & _ & _ & Hl). split_and!; [apply lookup_insert_eq|apply lookup_insert_eq|done|done].
Qed.
(** Another file does not notice. *)
Lemma on_file_other d x nd b l k fd' d' x' nd' b' l' y g :
  on_file fd' d' x' nd' b' l' k → d_inode y = d_inode x → d ≠ d' → d_inode x ≠ d_inode x' →
  on_file fd' d' x' nd' b' l' (with_grants g (at_file d y nd b l k)).
Proof.
  intros [Ho (Hx & Hnd & Hd & Hl) Hfo Hm Hi] Hy Hdd Hii. split; [done| |done|done|done].
  split_and!; [|by cbn; rewrite Hy, lookup_insert_ne|done|done]. cbn. by rewrite lookup_insert_ne.
Qed.
Lemma with_grants_id k : with_grants (grants k) k = k.
Proof. by destruct k. Qed.

Lemma take_length_take {A} n (l : list A) : take (length (take n l)) l = take n l.
Proof. by rewrite length_take, <-take_take, (take_ge l (length l)). Qed.
(** One read: the piece and where it leaves the description. *)
Lemma source_read fd d x nd b l rest count u :
  source fd d x nd b l rest (kern u) → 0 < count < 2147483648 →
  wp (read fd count) (λ r u', piece count rest r ∧ u' = set_kern
    (at_file d (set_offset (d_offset x + Z.of_nat (length r.2)) x) nd b l (kern u)) u ∧
    0 ≤ d_offset x + Z.of_nat (length r.2) < 1073741824) u.
Proof.
  intros ([Ho Hf Hfo Hm Hi] & Hfl & Hsz & Hoff & ->) Hc. unfold read. apply wp_returning_with.
  eapply wp_mono; [apply (sys_read_wp _ fd d x nd b l count); [done..|lia]|].
  cbv zeta. intros [n bs] k [[= -> ->] ->]. set (rest := drop _ (file b)). cbn [fst snd].
  pose proof (length_file b Hi) as Hlf. destruct (gi_size b Hi) as [Hs0 _].
  assert (length (take (Z.to_nat count) rest) = Z.to_nat (Z.min count (Z.of_nat (length rest)))) as Hlen
    by (rewrite length_take; lia).
  assert (length rest = Z.to_nat (gb_size b - d_offset x)) as Hr by (unfold rest; rewrite length_drop, Hlf; lia).
  rewrite IS_ERR_nonneg by lia. split; [|split; [done|lia]].
  split_and!; cbn [fst snd]; [done|lia| |].
  - by rewrite take_length_take.
  - intros E. apply (f_equal length) in E. rewrite Hlen in E. simpl in E. apply nil_length_inv. lia.
Qed.

Lemma source_moved fd d x nd b l rest k n :
  source fd d x nd b l rest k → 0 ≤ d_offset x + Z.of_nat n < 1073741824 →
  source fd d (set_offset (d_offset x + Z.of_nat n) x) (set_data (TmpfsData b l) nd) b l (drop n rest)
    (at_file d (set_offset (d_offset x + Z.of_nat n) x) nd b l k).
Proof.
  intros (Hf & Hfl & Hsz & Hoff & ->) Hn. split; [|split; [done|split; [done|split; [exact Hn|]]]].
  - rewrite <-(with_grants_id (at_file _ _ _ _ _ _)). apply on_file_moved with b; [done|by apply Hf].
  - rewrite drop_drop. f_equal. cbn [d_offset set_offset]. lia.
Qed.

Lemma user_read_law fd rest count u :
  user_reading fd rest u → 0 < count < 2147483648 →
  wp (read fd count) (λ r u', piece count rest r ∧ user_reading fd (drop (length r.2) rest) u') u.
Proof.
  intros (d & x & nd & b & l & Hs) Hc. eapply wp_mono; [by eapply source_read|].
  intros r u' (Hp & -> & Hn). split; [done|].
  eexists d, _, _, b, l. cbn [kern set_kern]. by apply source_moved.
Qed.
Lemma user_copy_read_law fd fd' rest f o count u :
  user_copying fd fd' rest f o u → 0 < count < 2147483648 →
  wp (read fd count) (λ r u', piece count rest r ∧ user_copying fd fd' (drop (length r.2) rest) f o u') u.
Proof.
  intros (d & x & nd & b & l & d' & x' & nd' & b' & l' & Hs & (Hf & Hfl & Hcap & Hoff & Hb) & Hd & Hi) Hc.
  eapply wp_mono; [by eapply source_read|]. intros r u' (Hp & -> & Hn). split; [done|].
  exists d, (set_offset (d_offset x + Z.of_nat (length r.2)) x), (set_data (TmpfsData b l) nd), b, l, d', x', nd', b', l'. cbn [kern set_kern]. split_and!; [by apply source_moved| |done|done].
  split; [|by split_and!]. rewrite <-(with_grants_id (at_file _ _ _ _ _ _)). by eapply on_file_other.
Qed.
Lemma user_copy_write_law fd fd' rest f o bytes u :
  user_copying fd fd' rest f o u → Z.of_nat (o + length bytes) ≤ FILE_MAX →
  wp (write fd' bytes) (λ n u',
    (n = Z.of_nat (length bytes) ∧ user_copying fd fd' rest (written o bytes f) (o + length bytes) u') ∨
    n = -1) u.
Proof.
  intros (d & x & nd & b & l & d' & x' & nd' & b' & l' & Hs & (Hf & Hfl & Hcap & Hoff & ->) & Hd & Hi) Hm.
  unfold FILE_MAX in Hm. unfold write. apply wp_returning.
  eapply wp_mono; [apply (sys_write_wp _ fd' d' x' nd' b' l' bytes); try apply Hf; try done; lia|].
  cbv zeta. intros rc k (b2 & g & [(-> & Hi2 & Hf2 & Hc2 & ->)|(-> & _ & _)]).
  2: { change (IS_ERR (ERR ENOMEM)) with true. cbv iota. by right. }
  rewrite IS_ERR_nonneg by lia. left. split; [done|].
  exists d, x, nd, b, l, d', (set_offset (d_offset x' + Z.of_nat (length bytes)) x'), (set_data (TmpfsData b2 l') nd'), b2, l'. cbn [kern set_kern]. split_and!; [| |done|done].
  - destruct Hs as (Hfs & Hs). split; [|exact Hs]. eapply on_file_other; [exact Hfs|done|congruence|done].
  - split; [by eapply on_file_moved|]. split_and!; [done|lia| |].
    + cbn [d_offset set_offset]. lia.
    + rewrite Hf2, Hoff, Nat2Z.id. done.
Qed.
#[global] Program Instance user_laws : PosixLaws user := {|
  reading := user_reading;
  copying := user_copying;
|}.
Next Obligation. intros. by apply user_read_law. Qed.
Next Obligation.
  intros fd fd' rest f o u (d & x & nd & b & l & d' & x' & nd' & b' & l' & Hs & _). by exists d, x, nd, b, l.
Qed.
Next Obligation. intros. by apply user_copy_read_law. Qed.
Next Obligation. intros. by apply user_copy_write_law. Qed.

(** ** fread *)
Lemma fread_loop_wp fuel total fd got rest u :
  user_reading fd rest u → 0 ≤ total < 2147483648 → Z.of_nat (length got) ≤ total →
  (Z.to_nat total - length got < fuel)%nat →
  wp (fread_loop fuel total fd got) (λ r _, r = got ++ take (Z.to_nat total - length got) rest) u.
Proof.
  revert got rest u. induction fuel as [|fuel IH]; intros got rest u Hr Ht Hg Hf; [lia|]. cbn [fread_loop].
  destruct (Z.ltb_spec (Z.of_nat (length got)) total) as [Hlt|Hge].
  2: { apply wp_ret. replace (Z.to_nat total - length got)%nat with 0%nat by lia. by rewrite app_nil_r. }
  apply wp_bind. eapply wp_mono; [apply (user_read_law _ _ _ _ Hr); lia|].
  intros [n bs] u1 [Hp Hr1]. rewrite (piece_nonneg _ _ _ Hp : n <? 0 = false).
  destruct (Z.eqb_spec n 0) as [->|Hn].
  - apply wp_ret. rewrite (piece_end _ _ _ Hp eq_refl). by rewrite take_nil, app_nil_r.
  - pose proof (piece_rest _ _ _ Hp) as Heq. destruct (piece_more _ _ _ Hp Hn) as [_ Hpos].
    destruct Hp as (Hnl & Hle & _). cbn [fst snd] in *.
    eapply wp_mono; [apply (IH _ _ _ Hr1); rewrite ?length_app; lia|].
    intros r u2 ->. rewrite length_app, <-app_assoc. f_equal. rewrite Heq at 2.
    rewrite take_app_ge by lia. do 2 f_equal. lia.
Qed.

(** ** Theorems *)

(** The loop of cp between two open files, against the interface of the
    system calls: when it succeeds, the target has the source's remaining bytes
    from its position on, and behind them what it held before - nothing is cut
    off, so that copying onto a longer file leaves its tail. *)
Lemma cp_copies {S} `{PosixLaws S} fuel fd fd' rest f o s :
  copying fd fd' rest f o s → (length rest < fuel)%nat → (o ≤ length f)%nat →
  Z.of_nat (o + length rest) ≤ FILE_MAX →
  wp (copy_loop fuel fd fd') (λ ok s',
    ok = END_OF_INPUT → copying fd fd' [] (written o rest f) (o + length rest) s') s.
Proof. apply copy_loop_wp. Qed.

(** Wc counts the newlines, the words (maximal runs of other than white
    space) and the bytes that are ahead of a descriptor, in whatever pieces the
    reads deliver them, words across pieces included. *)
Lemma wc_counts {S} `{PosixLaws S} fuel fd rest s :
  reading fd rest s → (length rest < fuel)%nat → Z.of_nat (length rest) < U32 →
  wp (count_loop fuel fd (Counts 0 0 0 false)) (λ r _,
    ∃ k, r = Some k ∧ totals k = counted rest) s.
Proof.
  intros Hr Hf Hl. eapply wp_mono; [by eapply count_loop_fold|]. intros r s' ->. eexists. split; [done|].
  rewrite (count_more []) by (simpl; done || lia). unfold counted. cbn [lines words bytes in_word].
  apply triple_eq; lia.
Qed.

(** Fread stores the bytes ahead of the stream up to [size * count] of them
    and answers how many whole items they are, whatever pieces read delivers. *)
Lemma fread_spec size count stream rest u :
  user_reading stream rest u → 0 < size → 0 ≤ count → size * count < 2147483648 →
  let bytes := take (Z.to_nat (size * count)) rest in
  wp (fread size count stream) (λ r _, r = (Z.of_nat (length bytes) / size, bytes)) u.
Proof.
  intros Hr Hs Hc Ht bytes. unfold fread. rewrite u32_small by (unfold U32; nia). apply wp_bind.
  eapply wp_mono; [apply (fread_loop_wp _ _ _ [] _ _ Hr); simpl; nia|]. intros r u1 ->.
  rewrite (proj2 (Z.eqb_neq size 0)) by lia. apply wp_ret. cbn [app length]. by rewrite Nat.sub_0_r.
Qed.

(** ** Witnesses

    Descriptor 0 is a file that holds "hello", at offset 1; descriptor 1 another
    one with the same contents, at offset 0. *)
Definition second_inode : inode :=
  Inode (Some 9%nat) non_dir_fops 0 None 1 2 (Z.lor S_IFREG 0x1ff) (TmpfsData hello []).
Definition second_desc : file_description := FileDescription 1 O_RDWR 0 1.
Definition two_files : user :=
  User (KState {[0%nat := hello_inode; 1%nat := second_inode]} {[0%nat := hello_desc; 1%nat := second_desc]}
    None [] [] ∅ {[0%nat := with_fd 1 (Some 1%nat) (with_fd 0 (Some 0%nat) (process_at (lit "/")))]}
    [0%nat] [] None 0 2 1 []) 0 1.
Lemma two_files_on fd d x nd :
  opened (kern two_files) fd d → descs (kern two_files) !! d = Some x →
  inodes (kern two_files) !! d_inode x = Some nd → fops nd = non_dir_fops → S_ISDIR (mode nd) = false →
  data nd = TmpfsData hello [] → on_file fd d x nd hello [] (kern two_files).
Proof. intros. split; [done|by split_and!|done|done|exact hello_inv]. Qed.
Lemma two_files_source : source 0 0 hello_desc hello_inode hello [] (lit "ello") (kern two_files).
Proof.
  split; [|split; [done|split; [by vm_compute|split; [by vm_compute|reflexivity]]]].
  apply two_files_on; try reflexivity. split; [by vm_compute|]. eexists. split; reflexivity.
Qed.
Lemma two_files_sink : sink 1 1 second_desc second_inode hello [] (lit "hello") 0 (kern two_files).
Proof.
  split; [|split_and!; [done|by vm_compute|done|reflexivity]].
  apply two_files_on; try reflexivity. split; [by vm_compute|]. eexists. split; reflexivity.
Qed.
Lemma two_files_reading : user_reading 0 (lit "ello") two_files.
Proof. eexists _, _, _, _, _. apply two_files_source. Qed.
Lemma two_files_copying : user_copying 0 1 (lit "ello") (lit "hello") 0 two_files.
Proof.
  eexists _, _, _, _, _, _, _, _, _, _. split_and!; [apply two_files_source|apply two_files_sink|done|done].
Qed.

Lemma cp_copies_witness :
  wp (copy_loop 5 0 1) (λ ok u', ok = END_OF_INPUT → user_copying 0 1 [] (lit "elloo") 4 u') two_files.
Proof.
  apply (@cp_copies user user_posix user_laws 5 0 1 (lit "ello") (lit "hello") 0 two_files two_files_copying); [simpl; lia|simpl; lia|by vm_compute].
Defined.
Lemma wc_counts_witness :
  wp (count_loop 5 0 (Counts 0 0 0 false)) (λ r _, ∃ k, r = Some k ∧ totals k = counted (lit "ello")) two_files.
Proof.
  apply (@wc_counts user user_posix user_laws 5 0 (lit "ello") two_files two_files_reading); [simpl; lia|by vm_compute].
Defined.
Example counted_example : counted (lit "two words" ++ [10] ++ lit " x" ++ [10; 10]) = (3, 3, 14).
Proof. reflexivity. Qed.
Lemma fread_spec_witness : wp (fread 3 2 0) (λ r _, r = (1, lit "ello")) two_files.
Proof. apply (fread_spec 3 2 0 (lit "ello") two_files two_files_reading); by vm_compute. Defined.
