(* ===== verification/Interrupts.v ===== *)
(** * Descriptor tables and interrupts (kernel/gdt.c, idt.c, irq.c, pit.c)

    The segment descriptors and interrupt gates field by field and as the words
    the processor reads, the handlers behind the vectors, and what an exception,
    an interrupt and a tick of the timer do; what a fatal exception leaves of its
    program is [crashed] of Lifecycle. The handlers of devices are in files
    of their own and are a parameter here; so are the addresses of the assembly
    stubs. *)
From stdpp Require Import fin_maps.
From S2P Require Import Prelude Calendar GrowableBuf Kernel Inode Tmpfs Process Scheduler Scheduling SyscallProcess Lifecycle.

(** ** gdt.c *)
Record gdt_descriptor : Type := GdtDescriptor {
  limit_lo : Z; gdt_base_lo : Z; base_mid : Z; access_ : Z; limit_hi : Z; flags : Z; base_hi_ : Z;
}.
Definition NUM_GDT_ENTRIES : nat := 7.
Definition gdt_zero : gdt_descriptor := GdtDescriptor 0 0 0 0 0 0 0.
Definition gdt_gate (base limit acc flags : Z) : gdt_descriptor :=
  GdtDescriptor (Z.land limit 0xffff) (Z.land base 0xffff) (Z.land (Z.shiftr base 16) 0xff) (u8 acc)
    (Z.land (Z.shiftr limit 16) 0xf) (Z.land flags 0xf) (Z.land (Z.shiftr base 24) 0xff).
Definition gdt_set_gate (idx : nat) (base limit acc flags : Z) : K (list gdt_descriptor) unit :=
  gdt ← get;
  _ ← access (gdt !! idx);
  put (<[idx := gdt_gate base limit acc flags]> gdt).
Definition sizeof_tss : Z := 104.
(** [tss] is the address of the task state segment. *)
Definition gdt_init (tss : Z) : K (list gdt_descriptor) unit :=
  _ ← gdt_set_gate 0 0 0 0 0;
  _ ← gdt_set_gate 1 0 0xfffff 0x9a 0xc;
  _ ← gdt_set_gate 2 0 0xfffff 0x92 0xc;
  _ ← gdt_set_gate 3 0 0xfffff 0xfa 0xc;
  _ ← gdt_set_gate 4 0 0xfffff 0xf2 0xc;
  gdt_set_gate 5 tss sizeof_tss 0xe9 0.
(** The eight bytes of a packed descriptor as one word. *)
Definition gdt_word (d : gdt_descriptor) : Z :=
  limit_lo d + 2 ^ 16 * gdt_base_lo d + 2 ^ 32 * base_mid d + 2 ^ 40 * access_ d +
  2 ^ 48 * limit_hi d + 2 ^ 52 * flags d + 2 ^ 56 * base_hi_ d.

(** ** idt.c *)
Record idt_descriptor : Type := IdtDescriptor {
  base_lo : Z; segment_selector : Z; reserved1 : Z; gate_type : Z; reserved2 : bool; dpl : Z;
  present : bool; base_hi : Z;
}.
Definition NUM_IDT_ENTRIES : nat := 256.
Definition IRQ (i : Z) : Z := 0x20 + i.
Definition INTERRUPT_GATE32 : Z := 0xe.
Definition TRAP_GATE32 : Z := 0xf.
Definition SYSCALL_VECTOR : Z := 0x81.
Definition idt_zero : idt_descriptor := IdtDescriptor 0 0 0 0 false 0 false 0.

(** The functions registered as handlers. *)
Inductive interrupt_handler_fn : Type :=
| handle_exception (num : Z)
| pit_handler_fn
| syscall_handler_fn
| device_handler (num : Z).

Record interrupts : Type := Interrupts {
  idt : list idt_descriptor;
  interrupt_handlers : list (option interrupt_handler_fn);
}.
Abbreviation I := (K interrupts).
(** The tables before anything is set: C's zeros. *)
Definition no_interrupts : interrupts :=
  Interrupts (replicate NUM_IDT_ENTRIES idt_zero) (replicate NUM_IDT_ENTRIES None).

Definition idt_register_interrupt_handler (num : Z) (handler : interrupt_handler_fn) : I unit :=
  modify (λ s, Interrupts (idt s) (<[Z.to_nat (u8 num) := Some handler]> (interrupt_handlers s))).
Definition idt_gate (base segment_selector gate_type dpl : Z) : idt_descriptor :=
  IdtDescriptor (Z.land base 0xffff) (u16 segment_selector) 0 (Z.land gate_type 0xf) false (Z.land dpl 3) true
    (Z.land (Z.shiftr base 16) 0xffff).
Definition idt_set_gate (idx base segment_selector gate_type dpl : Z) : I unit :=
  modify (λ s, Interrupts (<[Z.to_nat (u8 idx) := idt_gate base segment_selector gate_type dpl]> (idt s))
    (interrupt_handlers s)).
Definition user_callable (e : idt_descriptor) : idt_descriptor :=
  IdtDescriptor (base_lo e) (segment_selector e) (reserved1 e) TRAP_GATE32 (reserved2 e) 3 (present e) (base_hi e).
Definition idt_set_gate_user_callable (idx : Z) : I unit :=
  modify (λ s, Interrupts (alter user_callable (Z.to_nat (u8 idx)) (idt s)) (interrupt_handlers s)).

(** isr_stubs.h: the vectors 17 to 255. *)
Definition ENUMERATE_ISR_STUBS : list Z := seqZ 17 239.
(** The exceptions with a handler, in idt_init. *)
Definition EXCEPTIONS : list Z := seqZ 0 17.
Definition ENUMERATE_IRQS : list Z := seqZ 0 16.

(** The addresses of the stubs isr0, isr1, ... and irq0, irq1, ... *)
Section tables.
Context (isr irq : Z → Z).

Definition register_isr (num : Z) : I unit := idt_set_gate num (isr num) 0x8 INTERRUPT_GATE32 0.
Definition register_exception (num : Z) : I unit :=
  _ ← register_isr num; idt_register_interrupt_handler num (handle_exception num).
Definition idt_init : I unit :=
  _ ← for_each EXCEPTIONS register_exception; for_each ENUMERATE_ISR_STUBS register_isr.
(** irq_init, without the programming of the interrupt controllers. *)
Definition register_irqs : I unit :=
  for_each ENUMERATE_IRQS (λ num, idt_set_gate (IRQ num) (irq num) 0x8 INTERRUPT_GATE32 0).
Definition syscall_init : I unit :=
  _ ← idt_register_interrupt_handler SYSCALL_VECTOR syscall_handler_fn;
  idt_set_gate_user_callable SYSCALL_VECTOR.
(** pit_init, without the programming of the timer. *)
Definition register_pit : I unit := idt_register_interrupt_handler (IRQ 0) pit_handler_fn.
(** The calls of start in main.c that fill the tables, in its order: idt_init and
    irq_init first, syscall_init and pit_init after the file systems are up. *)
Definition start_interrupts : I unit :=
  _ ← idt_init; _ ← register_irqs; _ ← syscall_init; register_pit.
End tables.

(** The word of a gate as the processor reads it. *)
Definition idt_word (e : idt_descriptor) : Z :=
  base_lo e + 2 ^ 16 * segment_selector e + 2 ^ 32 * reserved1 e + 2 ^ 40 * gate_type e +
  2 ^ 44 * Z.b2z (reserved2 e) + 2 ^ 45 * dpl e + 2 ^ 47 * Z.b2z (present e) + 2 ^ 48 * base_hi e.

(** ** Running a handler *)
Definition SIGILL : Z := 4.
Definition SIGFPE : Z := 8.
Definition SIGSEGV : Z := 11.
(** [eoi]: the ports and values written to the interrupt controllers. *)
Record cpu : Type := Cpu { kern : kstate; uptime : Z; now : timespec; outs : list (Z * Z); tables : interrupts }.
Abbreviation X := (K cpu).
Definition in_kern {A} (m : K kstate A) : X A :=
  zoom kern (λ k c, Cpu k (uptime c) (now c) (outs c) (tables c)) m.
Definition out8 (port value : Z) : X unit :=
  modify (λ c, Cpu (kern c) (uptime c) (now c) (outs c ++ [(port, u8 value)]) (tables c)).

(** [cs] is the code segment that was interrupted. *)
Definition crash (cs signum : Z) : X unit :=
  if negb (Z.land cs 3 =? 3) then panic else in_kern (process_crash_in_userland signum).
Definition run_exception (num cs : Z) : X unit :=
  if num =? 0 then crash cs SIGFPE
  else if num =? 6 then crash cs SIGILL
  else if (num =? 13) || (num =? 14) then crash cs SIGSEGV
  else panic.
Definition pit_handler (cs : Z) : X unit :=
  _ ← modify (λ c, Cpu (kern c) (u32 (uptime c + 1)) (time_tick (now c)) (outs c) (tables c));
  in_kern (scheduler_tick (Z.land cs 3 =? 0)).

Section run.
(** The handlers of devices and of system calls. *)
Context (device syscall : Z → X unit).
Definition run_handler (h : interrupt_handler_fn) (cs : Z) : X unit :=
  match h with
  | handle_exception num => run_exception num cs
  | pit_handler_fn => pit_handler cs
  | syscall_handler_fn => syscall cs
  | device_handler num => device num
  end.
Definition isr_handler (num cs : Z) : X unit :=
  c ← get;
  handler ← access (interrupt_handlers (tables c) !! Z.to_nat num);
  match handler with
  | Some h => run_handler h cs
  | None => panic
  end.
Definition PIC1_CMD : Z := 0x20.
Definition PIC2_CMD : Z := 0xa0.
Definition PIC_EOI : Z := 0x20.
Definition NUM_IRQS_PER_PIC : Z := 8.
Definition irq_handler (num cs : Z) : X unit :=
  _ ← (if NUM_IRQS_PER_PIC <=? num then out8 PIC2_CMD PIC_EOI else mret tt);
  _ ← out8 PIC1_CMD PIC_EOI;
  c ← get;
  handler ← access (interrupt_handlers (tables c) !! Z.to_nat num);
  match handler with
  | Some h => run_handler h cs
  | None => mret tt
  end.
End run.

(** remap_pic and the programming of the timer in pit_init. *)
Definition remap_pic : X unit :=
  _ ← out8 0x20 (Z.lor 0x10 0x01); _ ← out8 0xa0 (Z.lor 0x10 0x01);
  _ ← out8 0x21 (IRQ 0); _ ← out8 0xa1 (IRQ NUM_IRQS_PER_PIC);
  _ ← out8 0x21 4; _ ← out8 0xa1 2;
  _ ← out8 0x21 0x01; _ ← out8 0xa1 0x01;
  _ ← out8 0x21 0; out8 0xa1 0.
Definition program_pit : X unit :=
  let div := u16 (1193182 / CLK_TCK) in
  _ ← out8 0x43 (Z.lor (Z.lor 0x00 0x30) 0x06);
  _ ← out8 0x40 (Z.land div 0xff);
  out8 0x40 (Z.shiftr div 8).

(** ** Theorems *)

(** A descriptor as the processor reads it. *)
Definition gdt_base (d : gdt_descriptor) : Z := gdt_base_lo d + 2 ^ 16 * base_mid d + 2 ^ 24 * base_hi_ d.
Definition gdt_limit (d : gdt_descriptor) : Z := limit_lo d + 2 ^ 16 * limit_hi d.
Definition gdt_dpl (d : gdt_descriptor) : Z := Z.land (Z.shiftr (access_ d) 5) 3.
Definition gate_base (e : idt_descriptor) : Z := base_lo e + 2 ^ 16 * base_hi e.

Lemma split_16 a : Z.land a 0xffff + 2 ^ 16 * Z.land (Z.shiftr a 16) 0xffff = u32 a.
Proof.
  change 0xffff with (Z.ones 16). rewrite !Z.land_ones, Z.shiftr_div_pow2 by lia. unfold u32, U32.
  change 4294967296 with (2 ^ 16 * 2 ^ 16). rewrite Z.rem_mul_r by lia. lia.
Qed.
Lemma gate_base_spec base seg ty d : gate_base (idt_gate base seg ty d) = u32 base.
Proof. unfold gate_base, idt_gate. cbn [base_lo base_hi]. apply split_16. Qed.

(** The whole tables once the kernel has registered its handlers. *)
Definition stub (isr irq : Z → Z) (v : Z) : Z := if (0x20 <=? v) && (v <? 0x30) then irq (v - 0x20) else isr v.
Definition kernel_gate (isr irq : Z → Z) (v : Z) : idt_descriptor :=
  idt_gate (stub isr irq v) 0x8 (if v =? SYSCALL_VECTOR then TRAP_GATE32 else INTERRUPT_GATE32)
    (if v =? SYSCALL_VECTOR then 3 else 0).
Definition kernel_handler (v : Z) : option interrupt_handler_fn :=
  if v <? 17 then Some (handle_exception v)
  else if v =? IRQ 0 then Some pit_handler_fn
  else if v =? SYSCALL_VECTOR then Some syscall_handler_fn else None.
Definition kernel_tables (isr irq : Z → Z) : interrupts :=
  Interrupts (kernel_gate isr irq <$> seqZ 0 256) (kernel_handler <$> seqZ 0 256).

Lemma start_interrupts_run isr irq : start_interrupts isr irq no_interrupts = Done tt (kernel_tables isr irq).
Proof.
  unfold start_interrupts, idt_init, register_irqs, register_exception, register_isr, syscall_init, idt_set_gate,
    idt_set_gate_user_callable, kernel_tables, kernel_gate.
  assert (∀ b, user_callable (idt_gate b 0x8 INTERRUPT_GATE32 0) = idt_gate b 0x8 TRAP_GATE32 3) as Huc by done.
  revert Huc. generalize user_callable as uc. generalize idt_gate as g. intros g uc Huc.
  vm_compute in Huc |- *. by rewrite Huc.
Qed.
Lemma kernel_gates isr irq v e :
  idt (kernel_tables isr irq) !! v = Some e ↔ (v < 256)%nat ∧ e = kernel_gate isr irq (Z.of_nat v).
Proof.
  cbn [idt kernel_tables]. rewrite list_lookup_fmap_Some. setoid_rewrite lookup_seqZ. split.
  - intros (x & -> & -> & Hx). split; [lia|]. done.
  - intros [Hv ->]. exists (Z.of_nat v). repeat split; lia.
Qed.
Lemma kernel_handlers isr irq v :
  (v < 256)%nat → interrupt_handlers (kernel_tables isr irq) !! v = Some (kernel_handler (Z.of_nat v)).
Proof.
  intros Hv. cbn [interrupt_handlers kernel_tables]. apply list_lookup_fmap_Some. exists (Z.of_nat v).
  split; [done|]. apply lookup_seqZ. lia.
Qed.

(** What the processor checks for [int v] in a program of privilege [cpl]. *)
Definition int_admitted (s : interrupts) (cpl : Z) (v : nat) : bool :=
  match idt s !! v with Some e => present e && (cpl <=? dpl e) | None => false end.

(** Once the handlers are registered all 256 gates are present, lead into the
    kernel's code segment and to the stub of their own vector, and the one vector
    that a user program may call is the system call's. *)
Lemma only_system_calls_enter isr irq :
  ∃ s, start_interrupts isr irq no_interrupts = Done tt s ∧
    (∀ v, int_admitted s 3 v = true ↔ v = 129%nat) ∧
    (present <$> idt s) = replicate 256 true ∧ (segment_selector <$> idt s) = replicate 256 0x8 ∧
    (gate_base <$> idt s) = (λ v, u32 (stub isr irq v)) <$> seqZ 0 256 ∧
    (interrupt_handlers s !! 129%nat) = Some (Some syscall_handler_fn).
Proof.
  exists (kernel_tables isr irq). split; [apply start_interrupts_run|].
  split_and!; [intros v; split| | | |].
  - unfold int_admitted. destruct (idt _ !! v) as [e|] eqn:He; [|done].
    apply kernel_gates in He as [Hv ->]. unfold kernel_gate, idt_gate. cbn [present dpl].
    case_match; bool_to_prop; unfold SYSCALL_VECTOR in *; [lia|done].
  - intros ->. unfold int_admitted. rewrite (proj2 (kernel_gates isr irq 129 _)) by (split; [lia|done]). done.
  - reflexivity.
  - reflexivity.
  - cbn [idt kernel_tables]. rewrite <-list_fmap_compose. apply list_fmap_ext. intros i v _. apply gate_base_spec.
  - reflexivity.
Qed.

(** *** Segments *)
Lemma gdt_gate_read base limit acc flags :
  0 ≤ base < U32 → 0 ≤ limit < 2 ^ 20 →
  gdt_base (gdt_gate base limit acc flags) = base ∧ gdt_limit (gdt_gate base limit acc flags) = limit.
Proof.
  intros Hb Hl. unfold gdt_base, gdt_limit, gdt_gate. cbn [gdt_base_lo base_mid base_hi_ limit_lo limit_hi].
  change 0xffff with (Z.ones 16). change 0xff with (Z.ones 8). change 0xf with (Z.ones 4).
  rewrite !Z.land_ones, !Z.shiftr_div_pow2 by lia. unfold U32 in *. split.
  - rewrite (Z.mod_small (base / 2 ^ 24)) by (split; [apply Z.div_pos; lia|]; apply Z.div_lt_upper_bound; lia).
    assert (base mod 2 ^ 24 = base mod 2 ^ 16 + 2 ^ 16 * ((base / 2 ^ 16) mod 2 ^ 8)) as Hm
      by (change (2 ^ 24) with (2 ^ 16 * 2 ^ 8); apply Z.rem_mul_r; lia).
    pose proof (Z.div_mod base (2 ^ 24)). lia.
  - rewrite (Z.mod_small (limit / 2 ^ 16)) by (split; [apply Z.div_pos; lia|]; apply Z.div_lt_upper_bound; lia).
    pose proof (Z.div_mod limit (2 ^ 16)). lia.
Qed.

(** The flat segments: only the two user ones have privilege 3. *)
Lemma gdt_segments tss :
  0 ≤ tss < U32 →
  wp (gdt_init tss) (λ _ t,
    (gdt_dpl <$> t) = [0; 0; 0; 3; 3; 3; 0] ∧
    (gdt_base <$> t) = [0; 0; 0; 0; 0; tss; 0] ∧
    (gdt_limit <$> t) = [0; 0xfffff; 0xfffff; 0xfffff; 0xfffff; sizeof_tss; 0]) (replicate NUM_GDT_ENTRIES gdt_zero).
Proof.
  intros Ht. unfold gdt_init, gdt_set_gate, NUM_GDT_ENTRIES, sizeof_tss.
  destruct (gdt_gate_read tss 104 0xe9 0 Ht) as [H1 H2]; [lia|].
  wp_go. simpl. rewrite H1, H2. repeat split.
Qed.

(** *** Exceptions and timer *)
(** The signal that ends a program for an exception: SIGFPE for a division error,
    SIGILL for an invalid opcode, SIGSEGV for a general protection or a page fault. *)
Definition fatal_signal (vector : nat) : option Z :=
  match vector with 0%nat => Some 8 | 6%nat => Some 4 | 13%nat | 14%nat => Some 11 | _ => None end.
(** The same machine with the kernel in another state. *)
Definition with_kern (s : kstate) (c : cpu) : cpu := Cpu s (uptime c) (now c) (outs c) (tables c).

Section handlers.
Context (device syscall : Z → X unit).

Lemma isr_handler_run isr irq v cs c :
  (v < 256)%nat → tables c = kernel_tables isr irq →
  isr_handler device syscall (Z.of_nat v) cs c =
    match kernel_handler (Z.of_nat v) with Some h => run_handler device syscall h cs c | None => Panic end.
Proof.
  intros Hv Ht. unfold isr_handler. rewrite (bind_run _ _ c c c) by done. cbv beta.
  rewrite Ht, Nat2Z.id, (kernel_handlers isr irq v Hv). cbn [access].
  by destruct (kernel_handler (Z.of_nat v)).
Qed.

Lemma exception_run isr irq v cs c :
  (v < 32)%nat → tables c = kernel_tables isr irq →
  isr_handler device syscall (Z.of_nat v) cs c =
    match fatal_signal v with
    | Some sig => if cs mod 4 =? 3 then in_kern (process_crash_in_userland sig) c else Panic
    | None => Panic
    end.
Proof.
  intros Hv Ht. rewrite (isr_handler_run isr irq) by (done || lia).
  assert (∀ sig, crash cs sig c = if cs mod 4 =? 3 then in_kern (process_crash_in_userland sig) c else Panic) as Hc.
  { intros sig. unfold crash. replace (Z.land cs 3) with (cs mod 4) by (symmetry; apply (Z.land_ones cs 2); lia).
    by destruct (cs mod 4 =? 3). }
  do 32 (destruct v as [|v]; [exact (Hc _) || reflexivity|]). lia.
Qed.

(** C39: an exception of a user program that is a division error, an invalid opcode,
    a protection or a page fault ends that program. The program is left as a dead
    process with the number of the signal as its status; init adopts its children;
    its uses of descriptions and of the working directory are given up (where others
    use them too, so that nothing is closed for good); and the machine goes on with
    the next process, as after a switch that does not queue the program again. When
    the program is init, and for any other exception and every exception of the
    kernel, the machine stops. *)
Theorem exception_spec isr irq v cs c (Hv : (v < 32)%nat) (Ht : tables c = kernel_tables isr irq) :
  match fatal_signal v with
  | Some sig =>
      if cs mod 4 =? 3 then
        (∀ x, procs (kern c) !! current (kern c) = Some x → pid x = 1 →
           isr_handler device syscall (Z.of_nat v) cs c = Panic) ∧
        (∀ x i nd, can_crash (kern c) x i nd →
           wp (isr_handler device syscall (Z.of_nat v) cs) (λ _ c',
             ∃ s', switched false (crashed sig x i (kern c)) s' ∧ c' = with_kern s' c) c)
      else isr_handler device syscall (Z.of_nat v) cs c = Panic
  | None => isr_handler device syscall (Z.of_nat v) cs c = Panic
  end.
Proof.
  pose proof (exception_run isr irq v cs c Hv Ht) as Hrun.
  destruct (fatal_signal v) as [sig|] eqn:Hsig; [|exact Hrun].
  assert (0 ≤ sig < 256) as Hr.
  { unfold fatal_signal in Hsig. repeat (case_match; simplify_eq; try lia). }
  destruct (cs mod 4 =? 3); [|exact Hrun]. unfold wp. rewrite Hrun. unfold in_kern, zoom. split.
  - intros x Hx Hp. by rewrite (crash_init sig _ x).
  - intros x i nd Hcan. pose proof (crash_wp (kern c) x i nd sig Hcan Hr) as Hw. unfold wp in Hw.
    destruct (process_crash_in_userland sig (kern c)) as [[] s'| | |]; try done. by exists s'.
Qed.

Lemma out8_run port value c :
  out8 port value c = Done tt (Cpu (kern c) (uptime c) (now c) (outs c ++ [(port, u8 value)]) (tables c)).
Proof. done. Qed.
(** A tick of the timer acknowledges the interrupt, then counts and schedules. *)
Lemma timer_tick_run isr irq cs c :
  tables c = kernel_tables isr irq →
  irq_handler device syscall (IRQ 0) cs c =
    pit_handler cs (Cpu (kern c) (uptime c) (now c) (outs c ++ [(PIC2_CMD, PIC_EOI); (PIC1_CMD, PIC_EOI)]) (tables c)).
Proof.
  intros Ht. unfold irq_handler. change (NUM_IRQS_PER_PIC <=? IRQ 0) with true. cbv iota.
  rewrite (bind_run _ _ _ _ _ (out8_run PIC2_CMD PIC_EOI c)), (bind_run _ _ _ _ _ (out8_run PIC1_CMD PIC_EOI _)).
  rewrite (bind_run get _ _ _ _ eq_refl). cbn [tables kern uptime now outs]. rewrite Ht.
  change (Z.to_nat (IRQ 0)) with 32%nat. rewrite (kernel_handlers isr irq 32) by lia.
  rewrite <-app_assoc. done.
Qed.
End handlers.

(** The shell has started a program, which waits in the queue, and divides by zero;
    process 1 is the idle process. *)
Definition sample_crash : kstate :=
  KState (inodes sample_life) {[ 0%nat := FileDescription 1 O_RDWR 0 6 ]} (Some 0%nat) [] [] ∅
    {[ 0%nat := sample_shell; 1%nat := sample_process 0 PROCESS_STATE_RUNNABLE None;
       2%nat := child_of sample_shell 3 ]}
    [0%nat; 2%nat] [2%nat] (Some 1%nat) 0 4 1 [].
Definition sample_cpu : cpu := Cpu sample_crash 0 (Timespec 0 0) [] (kernel_tables (λ v, v) (λ v, v)).
Lemma sample_can_crash : can_crash sample_crash sample_shell 0
  (Inode None dir_fops 0 None 1 4 S_IFDIR (TmpfsData growable_buf_zero [])).
Proof.
  assert (Hin : ∀ p, p ∈ all_processes sample_crash → p = 0%nat ∨ p = 2%nat).
  { intros p. cbn. rewrite !elem_of_cons. intros [|[|H]]; auto. by apply elem_of_nil in H. }
  assert (Hrun : ∀ p, p = 1%nat ∨ p = 2%nat → runnable sample_crash p).
  { intros p [->| ->]; (eexists; split; [reflexivity|split_and!; [done|done|apply deliverable_0]]). }
  split.
  - done.
  - split; [split|..].
    + apply (bool_decide_unpack _). reflexivity.
    + intros p [->| ->]%Hin; done.
    + intros p x [->| ->]%Hin; intros [= <-]; done.
    + intros p x [->| ->]%Hin; intros [= <-]; apply deliverable_0.
    + intros p ->%list_elem_of_singleton. auto.
    + exists 1%nat. auto.
    + apply NoDup_singleton.
    + split; [done|]. apply (bool_decide_unpack _). reflexivity.
  - done.
  - intros d ->%sample_uses. eexists. split; [reflexivity|]. vm_compute. done.
  - done.
Qed.
(** The segment of a user program is 0x1b. *)
Lemma exception_spec_witness :
  wp (isr_handler (λ _, panic) (λ _, panic) 0 0x1b) (λ _ c',
    ∃ s', switched false (crashed 8 sample_shell 0 sample_crash) s' ∧ c' = with_kern s' sample_cpu) sample_cpu.
Proof.
  refine (proj2 (exception_spec (λ _, panic) (λ _, panic) (λ v, v) (λ v, v) 0 0x1b sample_cpu _ _)
    sample_shell 0%nat _ sample_can_crash); [lia|reflexivity].
Defined.
