(* ===== verification/Cmdline.v ===== *)
(** * The command line of the kernel (kernel/cmdline.c)

    The buffers [raw] and [buf] and the separator literal are at the beginning
    of the byte memory, the string of the boot loader and the keys that are
    looked up behind them. The arrays [keys] and [values] are one list of
    pairs, whose length is [num_keys]. *)
From S2P Require Import Prelude CString.

Definition MAX_CMDLINE_LEN : nat := 1024.
Definition MAX_NUM_KEYS : nat := 1024.
Definition raw : ptr := 0.
Definition buf : ptr := 1024.
Definition sep : ptr := 2048.
(** Where other memory begins. *)
Definition OTHER : nat := 2050.
Definition MULTIBOOT_INFO_CMDLINE : Z := 4.

Record cmdline := Cmdline { memory : mem; keys_values : list (ptr * option ptr) }.
Definition num_keys (c : cmdline) : nat := length (keys_values c).
Definition in_mem {A} (m : K mem A) : K cmdline A := zoom memory (λ m c, Cmdline m (keys_values c)) m.

(** What one token adds to the arrays. *)
Definition add_key (token : ptr) : K cmdline unit :=
  next_equal ← in_mem (strchr token (ch "="));
  next_space ← in_mem (strchr token (ch " "));
  let value :=
    match next_equal, next_space with
    | Some e, None => Some (S e)
    | Some e, Some s => if (e <? s)%nat then Some (S e) else None
    | None, _ => None
    end in
  c ← get;
  if (MAX_NUM_KEYS <=? num_keys c)%nat then undef
  else put (Cmdline (memory c) (keys_values c ++ [(token, value)])).

(** [for (token = strtok_r(str, sep, &saved); token; token = strtok_r(NULL, ...))] *)
Fixpoint token_loop (fuel : nat) (str saved_ptr : option ptr) : K cmdline unit :=
  match fuel with
  | O => out_of_fuel
  | S fuel =>
      '(token, saved_ptr) ← in_mem (strtok_r str sep saved_ptr);
      match token with
      | None => mret tt
      | Some token => _ ← add_key token; token_loop fuel None saved_ptr
      end
  end.

Fixpoint terminate_loop (l : list (ptr * option ptr)) : K mem unit :=
  match l with
  | [] => mret tt
  | (key, value) :: l =>
      space ← strchr key (ch " ");
      _ ← (match space with Some p => store p 0 | None => mret tt end);
      _ ← (match value with
           | None => mret tt
           | Some _ =>
               equal ← strchr key (ch "=");
               match equal with Some p => store p 0 | None => mret tt end
           end);
      terminate_loop l
  end.

(** The flags and the command line of the multiboot information. *)
Definition cmdline_init (flags : Z) (str : ptr) : K cmdline unit :=
  if Z.land flags MULTIBOOT_INFO_CMDLINE =? 0 then mret tt
  else
    _ ← in_mem (strlcpy raw str MAX_CMDLINE_LEN);
    _ ← in_mem (strlcpy buf str MAX_CMDLINE_LEN);
    _ ← token_loop (S MAX_CMDLINE_LEN) (Some buf) None;
    l ← gets keys_values;
    in_mem (terminate_loop l).

Definition cmdline_get_raw : ptr := raw.

Fixpoint find_key (l : list (ptr * option ptr)) (key : ptr) : K mem (option (option ptr)) :=
  match l with
  | [] => mret None
  | (k, v) :: l =>
      r ← strcmp k key;
      if r =? 0 then mret (Some v) else find_key l key
  end.
Definition cmdline_lookup (key : ptr) : K cmdline (option ptr) :=
  c ← get;
  if (num_keys c =? 0)%nat then mret None
  else
    found ← in_mem (find_key (keys_values c) key);
    mret (default None found).
Definition cmdline_contains (key : ptr) : K cmdline bool :=
  c ← get;
  if (num_keys c =? 0)%nat then mret false
  else
    found ← in_mem (find_key (keys_values c) key);
    mret (bool_decide (is_Some found)).

(** ** The reference: words of the form key or key=value, the first one counts *)
Definition parse_option (t : list Z) : list Z * option (list Z) :=
  let (k, r) := span (λ c, negb (schar c =? ch "=")) t in
  (k, match r with [] => None | _ :: v => Some v end).
Definition options (s : list Z) : list (list Z * option (list Z)) :=
  parse_option <$> split [ch " "] (take (MAX_CMDLINE_LEN - 1) s).
Fixpoint option_named (l : list (list Z * option (list Z))) (key : list Z) : option (option (list Z)) :=
  match l with
  | [] => None
  | (k, v) :: l => if decide (k = key) then Some v else option_named l key
  end.

(** ** Theorems *)
Lemma strchr_loop_find fuel m p s c :
  cstr m p s → (length s < fuel)%nat →
  strchr_loop fuel p c m =
    Done (match span (λ x, negb (schar x =? c)) s with
          | (_, []) => None | (k, _) => Some (p + length k)%nat end) m.
Proof.
  revert p s. induction fuel as [|fuel IH]; intros p s Hs Hf; [lia|]. cbn [strchr_loop].
  destruct s as [|a s]; cbn [cstr] in Hs.
  { by run_load. }
  destruct Hs as (Ha & Ha0 & Hs). run_load. rewrite (proj2 (Z.eqb_neq a 0)) by done.
  cbn [span]. destruct (schar a =? c); cbn [negb].
  - by rewrite Nat.add_0_r.
  - rewrite (IH (S p) s) by (done || cbn in Hf; lia).
    destruct (span _ s) as [k [|x r]]; [done|]. cbn [length]. by rewrite Nat.add_succ_r.
Qed.
Lemma strchr_find m p s c :
  cstr m p s →
  strchr p c m =
    Done (match span (λ x, negb (schar x =? c)) s with
          | (_, []) => None | (k, _) => Some (p + length k)%nat end) m.
Proof.
  intros Hs. unfold strchr. erewrite bind_run by reflexivity. apply strchr_loop_find; [done|].
  apply cstr_lt in Hs. lia.
Qed.

(** Tokens in memory: each one behind the terminator of the one before. *)
Fixpoint placed (l : list (ptr * list Z)) (lo hi : nat) : Prop :=
  match l with
  | [] => (lo ≤ hi)%nat
  | (p, t) :: l => (lo ≤ p)%nat ∧ placed l (S (p + length t)) hi
  end.
Definition spaceless (t : list Z) : Prop := Forall (λ c, is_sep [ch " "] c = false) t.
Definition strings (m : mem) (l : list (ptr * list Z)) : Prop :=
  Forall (λ '(p, t), cstr m p t ∧ spaceless t) l.
Definition entry_of (e : ptr * list Z) : ptr * option ptr :=
  (e.1, match parse_option e.2 with (k, Some _) => Some (e.1 + S (length k))%nat | _ => None end).
Definition same_outside (lo hi : nat) (m m' : mem) : Prop :=
  length m' = length m ∧ ∀ i, (i < lo ∨ hi ≤ i)%nat → m' !! i = m !! i.

Lemma placed_le l lo hi : placed l lo hi → (lo ≤ hi)%nat.
Proof. revert lo. induction l as [|[p t] l IH]; intros lo; [done|]. intros [? ?%IH]. lia. Qed.
Lemma placed_snoc l lo p q t : placed l lo p → (p ≤ q)%nat → placed (l ++ [(q, t)]) lo (S (q + length t)).
Proof.
  revert lo. induction l as [|[p' t'] l IH]; intros lo; cbn [app placed].
  - intros ? ?. split; lia.
  - intros [? ?] ?. split; [done|]. by apply IH.
Qed.
Lemma placed_mono l lo hi hi' : placed l lo hi → (hi ≤ hi')%nat → placed l lo hi'.
Proof. revert lo. induction l as [|[p t] l IH]; intros lo; cbn [placed]; [lia|]. intros [? ?] ?. split; [done|eauto]. Qed.
Lemma cstr_same lo hi m m' p t :
  same_outside lo hi m m' → cstr m p t → (p + length t < lo ∨ hi ≤ p)%nat → cstr m' p t.
Proof.
  intros [Hl Hs] Ht Hp. eapply cstr_ext; [|exact Ht]. intros i Hi. apply Hs. lia.
Qed.
Lemma strings_same lo hi m m' l a :
  same_outside lo hi m m' → strings m l → placed l a lo → strings m' l.
Proof.
  intros Hm. revert a. induction l as [|[p t] l IH]; intros a Hl Hp; [by apply Forall_nil|].
  apply Forall_cons in Hl as [[Ht Hn] Hl]. destruct Hp as [Ha Hp]. apply Forall_cons. split; [|by eapply IH].
  split; [|done]. eapply cstr_same; [done..|]. apply placed_le in Hp. lia.
Qed.
Lemma same_outside_insert lo hi m i c : (lo ≤ i < hi)%nat → same_outside lo hi m (<[i:=c]> m).
Proof. intros. split; [by rewrite length_insert|]. intros j Hj. rewrite list_lookup_insert_ne by lia. done. Qed.
Lemma same_outside_trans lo hi lo' hi' m1 m2 m3 :
  same_outside lo hi m1 m2 → same_outside lo' hi' m2 m3 → (lo ≤ lo')%nat → (hi' ≤ hi)%nat → same_outside lo hi m1 m3.
Proof.
  intros [Hl1 H1] [Hl2 H2] ? ?. split; [congruence|]. intros i Hi. rewrite H2 by lia. apply H1. lia.
Qed.

(** A token holds no space, so its value begins behind its first [=]. *)
Lemma no_space t : spaceless t → span (λ x, negb (schar x =? ch " ")) t = (t, []).
Proof.
  induction 1 as [|c t Hc _ IH]; [done|]. cbn [span]. cbn [is_sep existsb] in Hc.
  rewrite orb_false_r in Hc. rewrite Z.eqb_sym in Hc. change (schar (ch " ")) with (ch " ") in Hc.
  rewrite Hc. cbn [negb]. by rewrite IH.
Qed.
Lemma add_key_run p t m l :
  cstr m p t → spaceless t → (length l < MAX_NUM_KEYS)%nat →
  add_key p (Cmdline m l) = Done tt (Cmdline m (l ++ [entry_of (p, t)])).
Proof.
  intros Ht Hns Hl. unfold add_key, in_mem, zoom, mbind, K_bind. cbn [memory].
  rewrite (strchr_find _ _ _ _ Ht). cbn [keys_values memory]. rewrite (strchr_find _ _ _ _ Ht), no_space by done.
  cbn [keys_values memory get]. unfold get, num_keys. cbn [keys_values].
  rewrite (proj2 (Nat.leb_gt MAX_NUM_KEYS (length l))) by done. unfold put, entry_of, parse_option. cbn [fst snd].
  destruct (span _ t) as [k [|x r]]; [done|]. by rewrite Nat.add_succ_r.
Qed.
(** One call of strtok_r: nothing is left, or the next word [w] is cut off. *)
Lemma strtok_word m p s :
  cstr m p s → cstr m sep [ch " "] → (p + length s < sep)%nat →
  ∃ r l' m', strtok_r (Some p) sep None m = Done (r, l') m' ∧ cstr m' sep [ch " "] ∧ same_outside p sep m m' ∧
    match r with
    | None => split [ch " "] s = []
    | Some t => ∃ w rest, split [ch " "] s = w :: split [ch " "] rest ∧
        (p ≤ t)%nat ∧ (0 < length w)%nat ∧ (t + length w + length rest ≤ p + length s)%nat ∧
        cstr m' t w ∧ spaceless w ∧
        (l' = None ∧ rest = [] ∨
         l' = Some (S (t + length w)) ∧ cstr m' (S (t + length w)) rest ∧ (t + length w + length rest < p + length s)%nat)
    end.
Proof.
  intros Hs Hq Hp.
  pose proof (strtok_r_spec m p s sep [ch " "] None Hs Hq ltac:(left; cbn in *; lia)) as Hspec. unfold next_token in Hspec.
  unfold split. rewrite split_skip.
  destruct (span (is_sep [ch " "]) s) as [skipped s'] eqn:E1. cbn [snd].
  destruct (span (λ c, negb (is_sep [ch " "] c)) s') as [w rest] eqn:E2.
  change (λ c, negb (is_sep [ch " "] c)) with (negb ∘ is_sep [ch " "]) in E2.
  assert (s = skipped ++ s') as Hs1 by (by rewrite <-(span_app (is_sep [ch " "]) s), E1).
  assert (s' = w ++ rest) as Hs2 by (by rewrite <-(span_app (negb ∘ is_sep [ch " "]) s'), E2).
  apply wp_done in Hspec as ([r l'] & m' & Hr & Hlen & Hq' & Hspec). exists r, l', m'.
  split; [done|]. split; [done|].
  pose proof (f_equal length Hs1) as Hl1. pose proof (f_equal length Hs2) as Hl2.
  rewrite length_app in Hl1, Hl2. destruct w as [|c w].
  { destruct Hspec as (-> & -> & -> & ->). split; [done|]. by rewrite Hs2. }
  destruct Hspec as (-> & Hw & Hm' & Hrest). cbn [length] in *.
  split; [rewrite Hm'; apply same_outside_insert; lia|].
  exists (c :: w), (tail rest). rewrite (split_take (is_sep [ch " "]) [] s') by (rewrite E2; done). rewrite E2. cbn [app fst snd].
  assert (Hns : Forall (λ c, is_sep [ch " "] c = false) (c :: w)).
  { pose proof (span_Forall (negb ∘ is_sep [ch " "]) s') as Hf'. rewrite E2 in Hf'.
    eapply Forall_impl; [exact Hf'|]. intros a Ha. cbn in Ha. by apply negb_true_iff. }
  cbn [length]. destruct rest as [|e rest]; cbn [tail length] in *.
  - split_and!; [done|lia|lia|lia|done|done|by left].
  - destruct Hrest as [-> Hrest]. split_and!; [done|lia|lia|lia|done|done|].
    right. split_and!; [done|done|lia].
Qed.
Lemma token_loop_run fuel m p s l toks str last :
  str = None ∧ last = Some p ∨ str = Some p →
  cstr m p s → cstr m sep [ch " "] → (p + length s < sep)%nat → (S (length s) < fuel)%nat →
  strings m toks → placed toks buf p → l = entry_of <$> toks → (2 * length toks ≤ p - buf)%nat →
  ∃ m' toks', token_loop fuel str last (Cmdline m l) = Done tt (Cmdline m' (entry_of <$> toks')) ∧
    toks'.*2 = toks.*2 ++ split [ch " "] s ∧
    strings m' toks' ∧ placed toks' buf sep ∧ same_outside p sep m m'.
Proof.
  revert m p s l toks str last. induction fuel as [|fuel IH]; intros m p s l toks str last Hstr Hs Hq Hp Hf Ht Hpl -> Hk; [lia|].
  cbn [token_loop].
  assert (Hcall : strtok_r str sep last = strtok_r (Some p) sep None) by (destruct Hstr as [[-> ->]| ->]; done).
  destruct (strtok_word m p s Hs Hq Hp) as (r & l' & m' & Hr & Hq' & Hout & Hw).
  assert (Hin : in_mem (strtok_r str sep last) (Cmdline m (entry_of <$> toks)) =
    Done (r, l') (Cmdline m' (entry_of <$> toks))) by (unfold in_mem, zoom; cbn [memory]; by rewrite Hcall, Hr).
  rewrite (bind_run _ _ _ _ _ Hin). cbv beta iota.
  assert (Ht' : strings m' toks) by (by eapply strings_same).
  destruct r as [t|].
  2: { exists m', toks. rewrite Hw, app_nil_r. split_and!; [done..| |done]. eapply placed_mono; [done|lia]. }
  destruct Hw as (w & rest & -> & Hpt & Hw0 & Hlen & Hcw & Hns & Hrest).
  assert (Hadd := add_key_run t w m' (entry_of <$> toks) Hcw Hns
    ltac:(rewrite length_fmap; unfold sep, buf, MAX_NUM_KEYS in *; lia)).
  rewrite (bind_run _ _ _ _ _ Hadd). change [entry_of (t, w)] with (entry_of <$> [(t, w)]). rewrite <-fmap_app.
  assert (Ht'' : strings m' (toks ++ [(t, w)])) by (apply Forall_app; split; [done|by apply Forall_singleton]).
  assert (Hpl' : placed (toks ++ [(t, w)]) buf (S (t + length w))) by (eapply placed_snoc; [done|lia]).
  destruct Hrest as [[-> ->]|(-> & Hcr & Hlen')].
  - exists m', (toks ++ [(t, w)]). destruct fuel as [|fuel]; [lia|].
    split_and!; [done|by rewrite fmap_app|done| |done]. eapply placed_mono; [done|]. lia.
  - destruct (IH m' (S (t + length w)) rest (entry_of <$> (toks ++ [(t, w)])) (toks ++ [(t, w)]) None (Some (S (t + length w))))
      as (m'' & toks' & Hrun & Heq & ? & ? & Hout'); [by left|done|done|lia|lia|done|done|done| |].
    { rewrite length_app. cbn [length]. apply placed_le in Hpl. lia. }
    exists m'', toks'. split_and!; [done| |done..|].
    + rewrite Heq, fmap_app, <-app_assoc. done.
    + eapply same_outside_trans; [done..|lia|lia].
Qed.

(** After the second loop key and value are strings of their own. *)
Definition cut (m : mem) (e : ptr * list Z) : Prop :=
  cstr m e.1 (parse_option e.2).1 ∧
  match (parse_option e.2).2 with
  | Some v => cstr m (e.1 + S (length (parse_option e.2).1))%nat v
  | None => True
  end.
Lemma cut_same lo hi m m' p t :
  same_outside lo hi m m' → cut m (p, t) → (p + length t < lo)%nat → cut m' (p, t).
Proof.
  intros Hm [Hk Hv] Hp. unfold cut, parse_option in *. cbn [fst snd] in *.
  pose proof (span_app (λ c, negb (schar c =? ch "=")) t) as Hs. destruct (span _ t) as [k r]. cbn [fst snd] in *.
  apply (f_equal length) in Hs. rewrite length_app in Hs.
  split; [eapply cstr_same; [done..|]; lia|]. destruct r as [|x v]; [done|]. cbn [length] in Hs.
  eapply cstr_same; [done..|]. lia.
Qed.
(** One round of the second loop. *)
Lemma terminate_one m p t toks :
  cstr m p t → spaceless t →
  ∃ m1, cut m1 (p, t) ∧ same_outside p (S (p + length t)) m m1 ∧
    terminate_loop (entry_of <$> ((p, t) :: toks)) m = terminate_loop (entry_of <$> toks) m1.
Proof.
  intros Ht Hns. rewrite fmap_cons. cbn [terminate_loop]. unfold entry_of at 1, cut, parse_option. cbn [fst snd].
  pose proof (strchr_find m p t (ch " ") Ht) as Hsp. rewrite no_space in Hsp by done.
  pose proof (strchr_find m p t (ch "=") Ht) as Heq. pose proof (cstr_lt _ _ _ Ht) as Hl.
  pose proof (span_app (λ c, negb (schar c =? ch "=")) t) as Happ. destruct (span _ t) as [k [|x v]]; cbn [fst snd] in *.
  - exists m. rewrite app_nil_r in Happ. subst k. split; [done|]. split; [done|].
    by rewrite (bind_run _ _ _ _ _ Hsp).
  - pose proof (f_equal length Happ) as Hlen. rewrite length_app in Hlen. cbn [length] in Hlen.
    exists (<[(p + length k)%nat := 0]> m). split; [split|split].
    + eapply cstr_cut. by rewrite Happ.
    + apply cstr_insert; [lia|]. rewrite <-Happ in Ht. change (k ++ x :: v) with (k ++ [x] ++ v) in Ht.
      rewrite app_assoc in Ht. apply cstr_app in Ht. rewrite length_app in Ht. cbn [length] in Ht.
      by rewrite Nat.add_1_r in Ht.
    + apply same_outside_insert. lia.
    + rewrite (bind_run _ _ _ _ _ Hsp). cbv beta iota.
      assert (Hst : store (p + length k)%nat 0 m = Done tt (<[(p + length k)%nat := 0]> m)).
      { destruct (lookup_lt_is_Some_2 m (p + length k)) as [y Hy]; [lia|].
        unfold store, mbind, K_bind, get, put, access. by rewrite Hy. }
      unfold mret, K_ret, mbind, K_bind in *. by rewrite Heq, Hst.
Qed.
Lemma strings_behind a lo hi m m' toks :
  same_outside a lo m m' → strings m toks → placed toks lo hi → strings m' toks.
Proof.
  intros Hm. assert (Hge : ∀ b, (lo ≤ b)%nat → strings m toks → placed toks b hi → strings m' toks); [|eauto].
  induction toks as [|[q u] toks IH]; intros b Hb Hs Hp; [by apply Forall_nil|].
  apply Forall_cons in Hs as [[Hu Hn] Hs]. destruct Hp as [Hq Hp]. apply Forall_cons. split.
  - split; [|done]. eapply cstr_same; [exact Hm|done|]. lia.
  - eapply (IH (S (q + length u))); [lia|done..].
Qed.
Lemma terminate_loop_run toks m lo hi :
  strings m toks → placed toks lo hi →
  ∃ m', terminate_loop (entry_of <$> toks) m = Done tt m' ∧ Forall (cut m') toks ∧ same_outside lo hi m m'.
Proof.
  revert m lo. induction toks as [|[p t] toks IH]; intros m lo Hs Hp; [by exists m|].
  apply Forall_cons in Hs as [[Ht Hns] Hs]. destruct Hp as [Hlo Hp]. pose proof (placed_le _ _ _ Hp) as Hle.
  destruct (terminate_one m p t toks Ht Hns) as (m1 & Hcut & Hout & ->).
  destruct (IH m1 (S (p + length t))) as (m' & Hrun & Hall & Hout'); [by eapply strings_behind|done|].
  exists m'. split; [done|]. split; [apply Forall_cons; split; [|done]|].
  - eapply cut_same; [done..|lia].
  - destruct Hout as [Hl1 Ho1], Hout' as [Hl2 Ho2]. split; [congruence|].
    intros i Hi. rewrite Ho2, Ho1 by lia. done.
Qed.

(** Looking a key up compares it with the keys in order. *)
Lemma find_key_run toks m q key :
  Forall (cut m) toks → cstr m q key →
  ∃ r, find_key (entry_of <$> toks) q m = Done r m ∧
    match option_named (parse_option <$> toks.*2) key with
    | None => r = None
    | Some None => r = Some None
    | Some (Some v) => ∃ p, r = Some (Some p) ∧ cstr m p v
    end.
Proof.
  intros Hs Hq. induction Hs as [|[p t] toks [Hk Hv] Hs IH]; [by exists None|].
  rewrite !fmap_cons. cbn [find_key]. unfold entry_of at 1. cbn [fst snd] in *.
  destruct (parse_option t) as [k v] eqn:Et. cbn [fst snd option_named] in *.
  rewrite (bind_run _ _ _ _ _ (strcmp_run m p q k key Hk Hq)).
  pose proof (str_order_zero k key (cstr_nonzero _ _ _ Hk) (cstr_nonzero _ _ _ Hq)) as Hz.
  destruct (decide (k = key)) as [->|Hne].
  - rewrite (proj2 Hz eq_refl). cbn [Z.eqb]. destruct v as [v|]; [|by eexists].
    eexists. split; [done|]. by eexists.
  - rewrite (proj2 (Z.eqb_neq _ _)) by (intros E; apply Hne, Hz, E). exact IH.
Qed.

(** One copy by strlcpy into a buffer of [MAX_CMDLINE_LEN] bytes. *)
Lemma strlcpy_buffer m d str s :
  cstr m str s → (d + MAX_CMDLINE_LEN ≤ OTHER)%nat → (OTHER ≤ str)%nat →
  ∃ m', strlcpy d str MAX_CMDLINE_LEN m = Done (length s) m' ∧
    cstr m' d (take (MAX_CMDLINE_LEN - 1) s) ∧ same_outside d (d + MAX_CMDLINE_LEN) m m'.
Proof.
  intros Hs Hd Ho. pose proof (cstr_lt _ _ _ Hs) as Hl.
  pose proof (strlcpy_spec m d str s MAX_CMDLINE_LEN Hs ltac:(lia) ltac:(unfold apart; lia)) as Hw.
  apply wp_done in Hw as (r & m' & Hr & -> & Hm'). exists m'. split; [done|].
  set (k := take (MAX_CMDLINE_LEN - 1) s) in *. assert (Hk : (length k ≤ MAX_CMDLINE_LEN - 1)%nat) by (subst k; rewrite length_take; lia).
  change ((MAX_CMDLINE_LEN =? 0)%nat) with false in Hm'. cbv iota in Hm'.
  assert (Hlk : length (k ++ [0]) = S (length k)) by (rewrite length_app; cbn; lia).
  unfold MAX_CMDLINE_LEN in *. split.
  - rewrite Hm'. apply cstr_iff. split; [apply Forall_take; by eapply cstr_nonzero|]. split.
    + intros i c Hi. pose proof (lookup_lt_Some _ _ _ Hi). rewrite splice_lookup_in by lia.
      replace (d + i - d)%nat with i by lia. by apply lookup_app_l_Some.
    + rewrite splice_lookup_in by lia. replace (d + length k - d)%nat with (length k) by lia.
      by apply list_lookup_middle.
  - split; [rewrite Hm'; apply length_splice; lia|]. intros i Hi. rewrite Hm'. apply splice_lookup_out; lia.
Qed.

(** After initialisation with the command line [s], looking up a key gives
    the value of the first of its words (cut to 1023 bytes and split at spaces)
    that has this key, and [NULL] if there is none or it has no value; the raw
    text is kept and no memory outside the two buffers is changed. *)
Lemma cmdline_lookup_spec m str s flags :
  cstr m str s → (OTHER ≤ str)%nat → cstr m sep [ch " "] → Z.land flags MULTIBOOT_INFO_CMDLINE ≠ 0 →
  ∃ c, cmdline_init flags str (Cmdline m []) = Done tt c ∧
    cstr (memory c) cmdline_get_raw (take (MAX_CMDLINE_LEN - 1) s) ∧ same_outside raw sep m (memory c) ∧
    ∀ q key, cstr (memory c) q key →
      cmdline_contains q c = Done (bool_decide (is_Some (option_named (options s) key))) c ∧
      match option_named (options s) key with
      | Some (Some v) => ∃ p, cmdline_lookup q c = Done (Some p) c ∧ cstr (memory c) p v
      | _ => cmdline_lookup q c = Done None c
      end.
Proof.
  intros Hs Ho Hsep Hfl. unfold cmdline_init. rewrite (proj2 (Z.eqb_neq _ _)) by done.
  destruct (strlcpy_buffer m raw str s Hs) as (m1 & Hr1 & Hraw1 & Ho1); [unfold OTHER, MAX_CMDLINE_LEN, raw; lia|done|].
  assert (Hs1 : cstr m1 str s) by (eapply cstr_same; [done..|unfold OTHER, MAX_CMDLINE_LEN, raw in *; lia]).
  destruct (strlcpy_buffer m1 buf str s Hs1) as (m2 & Hr2 & Hbuf & Ho2); [unfold OTHER, MAX_CMDLINE_LEN, buf; lia|done|].
  set (t := take (MAX_CMDLINE_LEN - 1) s) in *.
  assert (Hlt : (length t ≤ MAX_CMDLINE_LEN - 1)%nat) by (subst t; rewrite length_take; lia).
  assert (Hsep2 : cstr m2 sep [ch " "]).
  { eapply cstr_same; [exact Ho2| |unfold sep, buf, MAX_CMDLINE_LEN; lia].
    eapply cstr_same; [exact Ho1|done|unfold sep, raw, MAX_CMDLINE_LEN; lia]. }
  destruct (token_loop_run (S MAX_CMDLINE_LEN) m2 buf t [] [] (Some buf) None)
    as (m3 & toks & Hr3 & Htoks & Hstr & Hpl & Ho3);
    [by right|done|done|unfold buf, sep, MAX_CMDLINE_LEN in *; lia|unfold MAX_CMDLINE_LEN in *; lia|by apply Forall_nil|unfold placed; lia|done|cbn; lia|].
  destruct (terminate_loop_run toks m3 buf sep Hstr Hpl) as (m4 & Hr4 & Hcut & Ho4).
  exists (Cmdline m4 (entry_of <$> toks)). split; [|split; [|split]].
  - unfold in_mem, zoom, mbind, K_bind, gets in *. cbn [memory keys_values]. rewrite Hr1. cbn [memory keys_values].
    rewrite Hr2. cbn [memory keys_values]. rewrite Hr3. cbn [memory keys_values]. by rewrite Hr4.
  - cbn [memory]. unfold cmdline_get_raw, raw, buf, sep, MAX_CMDLINE_LEN in *.
    eapply cstr_same; [exact Ho4| |lia]. eapply cstr_same; [exact Ho3| |lia]. eapply cstr_same; [exact Ho2|done|lia].
  - cbn [memory]. destruct Ho1 as [L1 O1], Ho2 as [L2 O2], Ho3 as [L3 O3], Ho4 as [L4 O4].
    unfold raw, buf, sep, MAX_CMDLINE_LEN in *. split; [congruence|]. intros i Hi.
    rewrite O4, O3, O2, O1 by lia. done.
  - cbn [memory]. intros q key Hq. destruct (find_key_run toks m4 q key Hcut Hq) as (r & Hfind & Hr).
    replace (parse_option <$> toks.*2) with (options s) in Hr by (unfold options; by rewrite Htoks).
    unfold cmdline_contains, cmdline_lookup, in_mem, zoom, mbind, K_bind, get, num_keys. cbn [memory keys_values].
    destruct (length _ =? 0)%nat eqn:E0.
    { bool_to_prop. apply length_zero_iff_nil, fmap_nil_inv in E0 as ->. injection Hfind as <-.
      destruct (option_named _ _) as [[v|]|]; [by destruct Hr as (? & ? & ?)|done|done]. }
    cbn [memory keys_values]. rewrite Hfind. cbn [memory keys_values]. destruct (option_named _ _) as [[v|]|].
    + destruct Hr as (p & -> & Hv). split; [done|]. by exists p.
    + by rewrite Hr.
    + by rewrite Hr.
Qed.

(** The command line of a boot entry, behind the buffers. *)
Definition boot_line : list Z := lit "panic=halt init=/bin/sh  verbose init=x".
Definition boot_memory : mem := replicate 2048 0 ++ [ch " "; 0] ++ boot_line ++ [0] ++ lit "init" ++ [0].
Lemma cmdline_lookup_spec_witness :
  cstr boot_memory 2050 boot_line ∧
  ∃ c, cmdline_init 4 2050 (Cmdline boot_memory []) = Done tt c ∧
    ∀ q, cstr (memory c) q (lit "init") →
      ∃ p, cmdline_lookup q c = Done (Some p) c ∧ cstr (memory c) p (lit "/bin/sh").
Proof.
  assert (Hs : cstr boot_memory 2050 boot_line) by (vm_compute; repeat split; discriminate).
  split; [exact Hs|].
  destruct (cmdline_lookup_spec boot_memory 2050 boot_line 4 Hs) as (c & Hc & _ & _ & Hk);
    [unfold OTHER; lia|by vm_compute|discriminate|].
  exists c. split; [exact Hc|]. intros q Hq. exact (proj2 (Hk q (lit "init") Hq)).
Defined.
