(* ===== verification/Initrd.v ===== *)
(** * The initial file system (kernel/fs/initrd.c)

    The archive (cpio, the portable ASCII format) lies in a mapped region of
    memory that is only read; the files are created by the functions of Vfs and
    Fs. The mapping of the region itself is a call before and a call after the
    loop of this file. *)
From S2P Require Import Prelude Errno CString GrowableBuf Kernel Inode Path Tmpfs Process Fs Vfs.

(** Offsets of the fields of [struct cpio_odc_header]. *)
Definition C_MAGIC : nat := 0.
Definition C_MODE : nat := 18.
Definition C_RDEV : nat := 42.
Definition C_NAMESIZE : nat := 59.
Definition C_FILESIZE : nat := 65.
Definition sizeof_cpio_odc_header : nat := 76.

(** A computation that only reads the region, as part of the kernel. *)
Definition reading {S A} (m : mem) (c : K mem A) : K S A := λ s,
  match c m with
  | Done a _ => Done a s
  | Panic => Panic
  | Undef => Undef
  | OutOfFuel => OutOfFuel
  end.

(** [n] characters are left from [s]; [res] is already multiplied. *)
Fixpoint parse_octal_loop (n : nat) (s : ptr) (res : Z) : K mem Z :=
  match n with
  | O => mret res
  | S n' =>
      c ← load s;
      let res := u32 (res + (schar c - ch "0")) in
      parse_octal_loop n' (S s) (if (n' =? 0)%nat then res else u32 (res * 8))
  end.
Definition parse_octal (s : ptr) (len : nat) : K mem Z := parse_octal_loop len s 0.

Fixpoint load_bytes (p : ptr) (n : nat) : K mem (list Z) :=
  match n with
  | O => mret []
  | S n => c ← load p; cs ← load_bytes (S p) n; mret (c :: cs)
  end.

Definition ASSERT_OK (rc : Z) : K kstate unit := ASSERT (negb (IS_ERR rc)).
Definition ASSERT_PTR {A} (r : ptr_res A) : K kstate A :=
  match r with PTR a => mret a | ERR_PTR _ => panic end.

(** [for (size_t count = 0; count < file_size;)] *)
Fixpoint write_content (fuel : nat) (m : mem) (desc : nat) (file_content : ptr) (file_size count : Z)
    : K kstate unit :=
  if file_size <=? count then mret tt
  else
    match fuel with
    | O => out_of_fuel
    | S fuel =>
        bytes ← reading m (load_bytes (file_content + Z.to_nat count)%nat (Z.to_nat (file_size - count)));
        nwritten ← file_description_write desc bytes;
        _ ← ASSERT_OK nwritten;
        write_content fuel m desc file_content file_size (u32 (count + nwritten))
    end.

(** One entry: the directory or the file [filename]. *)
Definition create_entry (m : mem) (cursor filename : ptr) (mode name_size file_size : Z) : K kstate unit :=
  name ← reading m (read_str filename);
  if S_ISDIR mode then
    inode ← vfs_create name mode;
    _ ← ASSERT_PTR inode;
    mret tt
  else
    desc ← vfs_open name (Z.lor O_CREAT (Z.lor O_EXCL O_WRONLY)) mode;
    desc ← ASSERT_PTR desc;
    rdev ← reading m (parse_octal (cursor + C_RDEV) 6);
    x ← Kernel.desc desc;
    nd ← node (d_inode x);
    _ ← set_node (d_inode x) (set_device_id rdev nd);
    _ ← write_content (Z.to_nat file_size) m desc (cursor + sizeof_cpio_odc_header + Z.to_nat name_size)%nat file_size 0;
    rc ← file_description_close desc;
    ASSERT_OK rc.

(** The loop over the entries; [magic] and [trailer] are the two literals. *)
Fixpoint populate (fuel : nat) (m : mem) (magic trailer cursor : ptr) : K kstate unit :=
  match fuel with
  | O => out_of_fuel
  | S fuel =>
      c ← reading m (strncmp (cursor + C_MAGIC) magic 6);
      _ ← ASSERT (c =? 0);
      name_size ← reading m (parse_octal (cursor + C_NAMESIZE) 6);
      let filename := (cursor + sizeof_cpio_odc_header)%nat in
      c ← reading m (strncmp filename trailer (Z.to_nat name_size));
      if c =? 0 then mret tt
      else
        mode ← reading m (parse_octal (cursor + C_MODE) 6);
        file_size ← reading m (parse_octal (cursor + C_FILESIZE) 11);
        _ ← create_entry m cursor filename mode name_size file_size;
        populate fuel m magic trailer
          (cursor + (sizeof_cpio_odc_header + Z.to_nat name_size + Z.to_nat file_size))%nat
  end.

(** ** The reference: archives as their writers make them *)
Record file := File {
  f_name : list Z; f_mode : Z; f_rdev : Z; f_content : list Z;
  (** c_dev, c_ino, c_uid, c_gid, c_nlink, c_mtime *)
  f_other : Z * Z * Z * Z * Z * Z }.
Fixpoint octal (n : nat) (v : Z) : list Z :=
  match n with
  | O => []
  | S n => octal n (v / 8) ++ [ch "0" + v mod 8]
  end.
Definition header (e : file) : list Z :=
  let '(dev, ino, uid, gid, nlink, mtime) := f_other e in
  lit "070707" ++ octal 6 dev ++ octal 6 ino ++ octal 6 (f_mode e) ++ octal 6 uid ++ octal 6 gid ++
  octal 6 nlink ++ octal 6 (f_rdev e) ++ octal 11 mtime ++ octal 6 (Z.of_nat (S (length (f_name e)))) ++
  octal 11 (Z.of_nat (length (f_content e))).
Definition encode (e : file) : list Z := header e ++ f_name e ++ [0] ++ f_content e.
Definition trailer_entry : file := File (lit "TRAILER!!!") 0 0 [] (0, 0, 0, 0, 1, 0).
Definition archive (es : list file) : list Z := mjoin (encode <$> es) ++ encode trailer_entry.
Definition file_ok (e : file) : Prop :=
  Forall (λ c, 0 < c < 256) (f_name e) ∧ f_name e ≠ lit "TRAILER!!!" ∧
  0 ≤ f_mode e < 8 ^ 6 ∧ 0 ≤ f_rdev e < 8 ^ 6 ∧
  Z.of_nat (S (length (f_name e))) < 8 ^ 6 ∧ Z.of_nat (length (f_content e)) < U32.

(** What installing a file means: the calls on its name, mode and content. *)
Fixpoint write_all (fuel : nat) (desc : nat) (content : list Z) (count : Z) : K kstate unit :=
  if Z.of_nat (length content) <=? count then mret tt
  else
    match fuel with
    | O => out_of_fuel
    | S fuel =>
        nwritten ← file_description_write desc (drop (Z.to_nat count) content);
        _ ← ASSERT_OK nwritten;
        write_all fuel desc content (u32 (count + nwritten))
    end.
Definition install (e : file) : K kstate unit :=
  if S_ISDIR (f_mode e) then inode ← vfs_create (f_name e) (f_mode e); _ ← ASSERT_PTR inode; mret tt
  else
    desc ← vfs_open (f_name e) (Z.lor O_CREAT (Z.lor O_EXCL O_WRONLY)) (f_mode e);
    desc ← ASSERT_PTR desc;
    x ← Kernel.desc desc;
    nd ← node (d_inode x);
    _ ← set_node (d_inode x) (set_device_id (f_rdev e) nd);
    _ ← write_all (length (f_content e)) desc (f_content e) 0;
    rc ← file_description_close desc;
    ASSERT_OK rc.
Fixpoint install_all (es : list file) : K kstate unit :=
  match es with
  | [] => mret tt
  | e :: es => _ ← install e; install_all es
  end.

(** ** Theorems *)
Lemma reading_run {St A} m (c : K mem A) a m' (s : St) : c m = Done a m' → reading m c s = Done a s.
Proof. intros H. unfold reading. by rewrite H. Qed.
(** [l] is in memory at [p]. *)
Definition holds (m : mem) (p : ptr) (l : list Z) : Prop := ∃ a b, m = a ++ l ++ b ∧ p = length a.
Lemma holds_app m p l k : holds m p (l ++ k) ↔ holds m p l ∧ holds m (p + length l) k.
Proof.
  split.
  - intros (a & b & -> & ->). rewrite <-app_assoc. split; [by exists a, (k ++ b)|].
    exists (a ++ l), b. by rewrite <-app_assoc, length_app.
  - intros [(a & b & -> & ->) (a' & b' & Hm & Hl)].
    assert (a' = a ++ l ∧ b = k ++ b') as [-> ->].
    { rewrite app_assoc in Hm. apply app_inj_1 in Hm as [<- ->]; [done|]. by rewrite length_app. }
    exists a, b'. by rewrite <-app_assoc.
Qed.
Lemma holds_lookup m p c l : holds m p (c :: l) → m !! p = Some c ∧ holds m (S p) l.
Proof.
  intros (a & b & -> & ->). split; [by apply list_lookup_middle|].
  exists (a ++ [c]), b. rewrite <-app_assoc, length_app. split; [done|]. cbn. lia.
Qed.
Lemma holds_cstr m p s : Forall (λ c, 0 < c < 256) s → holds m p (s ++ [0]) → cstr m p s.
Proof.
  intros Hs (a & b & -> & ->). rewrite <-app_assoc. apply cstr_here.
  eapply Forall_impl; [exact Hs|]. intros; cbn in *; lia.
Qed.

Lemma load_bytes_run m p l : holds m p l → load_bytes p (length l) m = Done l m.
Proof.
  revert p. induction l as [|c l IH]; intros p Hl; [done|]. apply holds_lookup in Hl as [Hc Hl].
  cbn [length load_bytes]. rewrite (bind_run _ _ _ _ _ (load_run _ _ _ Hc)). 
  by rewrite (bind_run _ _ _ _ _ (IH _ Hl)).
Qed.

(** *** Numbers *)
Definition octal_value (a : Z) (ds : list Z) : Z := foldl (λ a c, 8 * a + (c - ch "0")) a ds.
Definition is_octal (c : Z) : Prop := ch "0" ≤ c < ch "8".
Lemma octal_digits n v : Forall is_octal (octal n v).
Proof.
  revert v. induction n as [|n IH]; intros v; [by apply Forall_nil|]. apply Forall_app. split; [apply IH|].
  apply Forall_singleton. unfold is_octal, ch. cbn. pose proof (Z.mod_pos_bound v 8). lia.
Qed.
Lemma length_octal n v : length (octal n v) = n.
Proof. revert v. induction n as [|n IH]; intros v; [done|]. cbn [octal]. rewrite length_app, IH. cbn. lia. Qed.
Lemma octal_value_octal n v a : 0 ≤ v → octal_value a (octal n v) = a * 8 ^ Z.of_nat n + v mod 8 ^ Z.of_nat n.
Proof.
  revert v a. induction n as [|n IH]; intros v a Hv; [cbn; rewrite Z.mod_1_r; lia|].
  unfold octal_value in *. cbn [octal]. rewrite foldl_app, IH by (apply Z.div_pos; lia). cbn [foldl].
  rewrite Nat2Z.inj_succ, Z.pow_succ_r by lia.
  rewrite (Z.rem_mul_r v 8 (8 ^ Z.of_nat n)) by (try lia; apply Z.pow_nonzero; lia). lia.
Qed.
Lemma parse_octal_loop_run m p ds a :
  holds m p ds → Forall is_octal ds → ds ≠ [] →
  parse_octal_loop (length ds) p (u32 (8 * a)) m = Done (u32 (octal_value a ds)) m.
Proof.
  revert p a. induction ds as [|c ds IH]; intros p a Hm Hd Hne; [done|].
  apply holds_lookup in Hm as [Hc Hm]. apply Forall_cons in Hd as [Hd Hds].
  cbn [length parse_octal_loop]. rewrite (bind_run _ _ _ _ _ (load_run _ _ _ Hc)).
  assert (Hs : schar c = c).
  { unfold is_octal in Hd. unfold schar. change (ch "8") with 56 in Hd. change (ch "0") with 48 in Hd.
    rewrite u8_small by lia. case_match; lia. }
  rewrite Hs. unfold octal_value in *. cbn [foldl].
  assert (Hr : u32 (u32 (8 * a) + (c - ch "0")) = u32 (8 * a + (c - ch "0")))
    by (unfold u32; by rewrite Zplus_mod_idemp_l).
  rewrite Hr. destruct ds as [|d ds]; [done|]. cbn [length Nat.eqb].
  replace (u32 (u32 (8 * a + (c - ch "0")) * 8)) with (u32 (8 * (8 * a + (c - ch "0"))))
    by (unfold u32; rewrite Zmult_mod_idemp_l; f_equal; lia).
  by apply IH.
Qed.
Lemma parse_octal_run m p n v :
  holds m p (octal n v) → (0 < n)%nat → 0 ≤ v < 8 ^ Z.of_nat n → v < U32 → parse_octal p n m = Done v m.
Proof.
  intros Hm Hn Hv Hu. pose proof (parse_octal_loop_run m p (octal n v) 0 Hm (octal_digits n v)) as Hr.
  rewrite length_octal, octal_value_octal, Z.mod_small in Hr by lia. unfold parse_octal.
  change (u32 (8 * 0)) with 0 in Hr. rewrite Hr; [by rewrite Z.mul_0_l, Z.add_0_l, u32_small by lia|].
  intros E. apply (f_equal length) in E. rewrite length_octal in E. cbn in E. lia.
Qed.

(** *** Comparing with the literals *)
Lemma strncmp_cstr n m p q s t :
  cstr m p s → cstr m q t → (length s < n)%nat → ∃ r, strncmp p q n m = Done r m ∧ (r = 0 ↔ s = t).
Proof.
  revert p q s t. induction n as [|n IH]; intros p q s t Hs Ht Hn; [lia|]. cbn [strncmp].
  destruct s as [|a s], t as [|b t]; cbn [cstr] in Hs, Ht.
  - run_load. run_load. by exists 0.
  - destruct Ht as (Hb & Hb0 & Ht). run_load. run_load. rewrite (proj2 (Z.eqb_neq 0 b)) by done.
    eexists. split; [done|]. split; [lia|done].
  - destruct Hs as (Ha & Ha0 & Hs). run_load. run_load. rewrite (proj2 (Z.eqb_neq a 0)) by done.
    eexists. split; [done|]. split; [lia|done].
  - destruct Hs as (Ha & Ha0 & Hs), Ht as (Hb & Hb0 & Ht). run_load. run_load.
    destruct (Z.eqb_spec a b) as [->|Hne].
    + rewrite (proj2 (Z.eqb_neq b 0)) by done.
      destruct (IH (S p) (S q) s t Hs Ht) as (r & Hr & Hiff); [cbn in Hn; lia|].
      exists r. split; [done|]. rewrite Hiff. naive_solver.
    + eexists. split; [done|]. split; [lia|]. intros [= ? ?]. lia.
Qed.
Lemma strncmp_same m p q l :
  holds m p l → holds m q l → Forall (λ c, c ≠ 0) l → strncmp p q (length l) m = Done 0 m.
Proof.
  revert p q. induction l as [|c l IH]; intros p q Hp Hq Hl; [done|].
  apply holds_lookup in Hp as [Hc Hp], Hq as [Hd Hq]. apply Forall_cons in Hl as [Hc0 Hl].
  cbn [length strncmp]. rewrite (bind_run _ _ _ _ _ (load_run _ _ _ Hc)), (bind_run _ _ _ _ _ (load_run _ _ _ Hd)).
  rewrite Z.eqb_refl, (proj2 (Z.eqb_neq c 0)) by done. by apply IH.
Qed.

(** *** One entry *)
Record at_entry (m : mem) (cursor : ptr) (e : file) : Prop := AtEntry {
  at_magic : holds m (cursor + C_MAGIC) (lit "070707");
  at_mode : holds m (cursor + C_MODE) (octal 6 (f_mode e));
  at_rdev : holds m (cursor + C_RDEV) (octal 6 (f_rdev e));
  at_namesize : holds m (cursor + C_NAMESIZE) (octal 6 (Z.of_nat (S (length (f_name e)))));
  at_filesize : holds m (cursor + C_FILESIZE) (octal 11 (Z.of_nat (length (f_content e))));
  at_name : holds m (cursor + sizeof_cpio_odc_header) (f_name e ++ [0]);
  at_content : holds m (cursor + sizeof_cpio_odc_header + S (length (f_name e))) (f_content e);
}.
Lemma length_encode e :
  length (encode e) = (sizeof_cpio_odc_header + S (length (f_name e)) + length (f_content e))%nat.
Proof.
  unfold encode, header. destruct (f_other e) as [[[[[? ?] ?] ?] ?] ?].
  rewrite !length_app, !length_octal. cbn [length]. unfold sizeof_cpio_odc_header. cbn. lia.
Qed.
Lemma holds_at_entry m cursor e : holds m cursor (encode e) → at_entry m cursor e.
Proof.
  unfold encode, header. destruct (f_other e) as [[[[[dev ino] uid] gid] nlink] mtime].
  rewrite <-!app_assoc, !holds_app, !length_octal. change (length (lit "070707")) with 6%nat.
  change (length [0]) with 1%nat.
  intros (H0 & H1 & H2 & H3 & H4 & H5 & H6 & H7 & H8 & H9 & H10 & H11 & H12 & H13).
  split; rewrite ?holds_app; try split;
    unfold C_MAGIC, C_MODE, C_RDEV, C_NAMESIZE, C_FILESIZE, sizeof_cpio_odc_header;
    match goal with |- holds _ ?p ?l => match goal with H : holds _ ?q l |- _ => replace p with q by lia; exact H end end.
Qed.
Lemma write_content_run m fuel desc p content count s :
  holds m p content → 0 ≤ count →
  write_content fuel m desc p (Z.of_nat (length content)) count s = write_all fuel desc content count s.
Proof.
  intros Hm. revert count s. induction fuel as [|fuel IH]; intros count s Hc; [done|].
  cbn [write_content write_all]. destruct (Z.leb_spec (Z.of_nat (length content)) count) as [|Hlt]; [done|].
  assert (Hb : reading m (load_bytes (p + Z.to_nat count)%nat (Z.to_nat (Z.of_nat (length content) - count))) s =
    Done (drop (Z.to_nat count) content) s).
  { eapply reading_run.
    replace (Z.to_nat (Z.of_nat (length content) - count)) with (length (drop (Z.to_nat count) content))
      by (rewrite length_drop; lia).
    apply load_bytes_run. rewrite <-(take_drop (Z.to_nat count) content), holds_app, length_take in Hm.
    destruct Hm as [_ Hm]. by rewrite Nat.min_l in Hm by lia. }
  rewrite (bind_run _ _ _ _ _ Hb). unfold mbind, K_bind.
  destruct (file_description_write _ _ s) as [n s'| | |]; [|done..].
  destruct (ASSERT_OK n s') as [[] s''| | |]; [|done..]. apply IH. apply u32_range.
Qed.
Lemma create_entry_run m cursor e s :
  at_entry m cursor e → file_ok e →
  create_entry m cursor (cursor + sizeof_cpio_odc_header) (f_mode e)
    (Z.of_nat (S (length (f_name e)))) (Z.of_nat (length (f_content e))) s = install e s.
Proof.
  intros Hat (Hname & _ & Hmode & Hrdev & Hns & Hfs). unfold create_entry, install.
  pose proof (holds_cstr _ _ _ Hname (at_name _ _ _ Hat)) as Hs.
  assert (Hn := reading_run m _ _ _ s (read_str_run _ _ _ Hs)).
  rewrite (bind_run _ _ _ _ _ Hn). destruct (S_ISDIR (f_mode e)); [done|].
  unfold mbind, K_bind. destruct (vfs_open _ _ _ s) as [r s1| | |]; [|done..].
  destruct (ASSERT_PTR r s1) as [d s2| | |]; [|done..].
  rewrite (reading_run m _ _ _ s2 (parse_octal_run _ _ _ _ (at_rdev _ _ _ Hat) ltac:(lia) Hrdev ltac:(unfold U32; lia))).
  destruct (Kernel.desc d s2) as [x s3| | |]; [|done..].
  destruct (node (d_inode x) s3) as [nd s4| | |]; [|done..].
  destruct (set_node _ _ s4) as [[] s5| | |]; [|done..].
  rewrite Nat2Z.id, (write_content_run m _ d _ (f_content e) 0 s5); [done| |lia].
  pose proof (at_content _ _ _ Hat) as Hc. by rewrite !Nat2Z.id.
Qed.

(** The beginning of a round: the checks of the magic number and of the name. *)
Lemma populate_head m magic trailer cursor e fuel s :
  at_entry m cursor e → holds m magic (lit "070707") → cstr m trailer (lit "TRAILER!!!") →
  Forall (λ c, 0 < c < 256) (f_name e) → Z.of_nat (S (length (f_name e))) < 8 ^ 6 →
  populate (S fuel) m magic trailer cursor s =
    if decide (f_name e = lit "TRAILER!!!") then Done tt s
    else (mode ← reading m (parse_octal (cursor + C_MODE) 6);
          file_size ← reading m (parse_octal (cursor + C_FILESIZE) 11);
          _ ← create_entry m cursor (cursor + sizeof_cpio_odc_header)%nat mode
                (Z.of_nat (S (length (f_name e)))) file_size;
          populate fuel m magic trailer
            (cursor + (sizeof_cpio_odc_header + S (length (f_name e)) + Z.to_nat file_size))%nat) s.
Proof.
  intros Hat Hmagic Htr Hname Hns. cbn [populate].
  assert (Hnz : Forall (λ c, c ≠ 0) (lit "070707"))
    by (repeat (apply Forall_cons; split; [discriminate|]); by apply Forall_nil).
  rewrite (bind_run _ _ _ _ _ (reading_run m _ _ _ s (strncmp_same m _ _ _ (at_magic _ _ _ Hat) Hmagic Hnz))).
  rewrite (bind_run _ _ _ tt s) by done.
  rewrite (bind_run _ _ _ _ _ (reading_run m _ _ _ s
    (parse_octal_run _ _ _ _ (at_namesize _ _ _ Hat) ltac:(lia) ltac:(lia) ltac:(unfold U32; lia)))).
  rewrite Nat2Z.id. pose proof (holds_cstr _ _ _ Hname (at_name _ _ _ Hat)) as Hs.
  destruct (strncmp_cstr (S (length (f_name e))) m _ trailer _ _ Hs Htr) as (r & Hr & Hiff); [lia|].
  rewrite (bind_run _ _ _ _ _ (reading_run m _ _ _ s Hr)).
  destruct (decide (f_name e = lit "TRAILER!!!")) as [E|E].
  - by rewrite (proj2 Hiff E).
  - rewrite (proj2 (Z.eqb_neq r 0)) by (intros E0; by apply E, Hiff). done.
Qed.

(** C33: Unpacking decodes the archive exactly: on the bytes that a writer of the
    format makes of a list of files, followed by the trailer, the loop makes for
    every file, in order, the calls that install its name, mode, device number
    and content, and stops at the trailer, whatever these calls answer. *)
Theorem populate_archive m magic trailer cursor es fuel s :
  holds m cursor (archive es) → holds m magic (lit "070707") → cstr m trailer (lit "TRAILER!!!") →
  Forall file_ok es → (length es < fuel)%nat →
  populate fuel m magic trailer cursor s = install_all es s.
Proof.
  intros Hm Hmagic Htrailer Hes. revert cursor fuel s Hm. induction Hes as [|e es He Hes IH];
    intros cursor fuel s Hm Hf; (destruct fuel as [|fuel]; [lia|]).
  - apply holds_at_entry in Hm. rewrite (populate_head _ _ _ _ _ _ _ Hm Hmagic Htrailer); [done| |by vm_compute].
    repeat (apply Forall_cons; split; [by vm_compute|]). by apply Forall_nil.
  - unfold archive in Hm. rewrite fmap_cons in Hm. change (mjoin (encode e :: ?l)) with (encode e ++ mjoin l) in Hm.
    rewrite <-app_assoc, holds_app, length_encode in Hm. destruct Hm as [Hat Hrest]. apply holds_at_entry in Hat.
    pose proof He as (Hname & Hne & Hmode & _ & Hns & Hfs).
    rewrite (populate_head _ _ _ _ _ _ _ Hat Hmagic Htrailer) by done. rewrite decide_False by done.
    rewrite (bind_run _ _ _ _ _ (reading_run m _ _ _ s
      (parse_octal_run _ _ _ _ (at_mode _ _ _ Hat) ltac:(lia) Hmode ltac:(unfold U32; lia)))).
    rewrite (bind_run _ _ _ _ _ (reading_run m _ _ _ s
      (parse_octal_run _ _ _ _ (at_filesize _ _ _ Hat) ltac:(lia) ltac:(unfold U32 in Hfs; lia) Hfs))).
    cbn [install_all]. unfold mbind, K_bind. rewrite (create_entry_run m cursor e s Hat He).
    destruct (install e s) as [[] s'| | |]; [|done..]. rewrite Nat2Z.id.
    rewrite (IH _ fuel s' Hrest) by (cbn in Hf; lia). done.
Qed.

(** *** An archive of a directory and a file in it, on an empty root *)
Definition sample_files : list file :=
  [File (lit "etc") (Z.lor S_IFDIR 0x1ed) 0 [] (1, 2, 0, 0, 2, 77);
   File (lit "etc/motd") (Z.lor S_IFREG 0x1a4) 0 (lit "Welcome") (1, 3, 0, 0, 1, 78)].
Definition sample_region : mem := lit "070707" ++ [0] ++ lit "TRAILER!!!" ++ [0] ++ archive sample_files.
Definition empty_root : kstate :=
  KState {[0%nat := dir_inode 0 0 1 []]} ∅ (Some 0%nat) [] [] ∅ {[0%nat := process_at (lit "/")]}
    [0%nat] [] None 0 1 1 [].
Definition installed : option kstate :=
  match install_all sample_files empty_root with Done _ s => Some s | _ => None end.
Lemma populate_archive_witness :
  Forall file_ok sample_files ∧
  populate 3 sample_region 0 7 18 empty_root = install_all sample_files empty_root.
Proof.
  assert (Hok : Forall file_ok sample_files).
  { repeat (apply Forall_cons; split); [split_and!..|by apply Forall_nil]; try (by vm_compute);
      repeat (apply Forall_cons; split; [by vm_compute|]); by apply Forall_nil. }
  split; [exact Hok|]. apply populate_archive; [| |by vm_compute|exact Hok|cbn; lia].
  - exists (lit "070707" ++ [0] ++ lit "TRAILER!!!" ++ [0]), []. split; [|done]. by rewrite app_nil_r.
  - exists [], ([0] ++ lit "TRAILER!!!" ++ [0] ++ archive sample_files). done.
Defined.
(** The file can be read back. *)
Example installed_file :
  match installed with
  | Some s => match (d ← vfs_open (lit "/etc/motd") O_RDONLY 0; d ← ASSERT_PTR d; file_description_read d 100) s with
              | Done r _ => r = (7, lit "Welcome")
              | _ => False
              end
  | None => False
  end.
Proof. by vm_compute. Qed.
(** The reference that vfs_create hands out is dropped for no directory: with
    its one link the directory has two references. *)
Example directory_reference_leaks :
  match installed with
  | Some s => (λ nd, (num_links nd, ref_count nd)) <$> inodes s !! 1%nat = Some (1, 2)
  | None => False
  end.
Proof. by vm_compute. Qed.
(** The number of a device node is stored after the node is opened: opening
    looks for device 0, and the failed assertion stops the machine. *)
Example device_node_panics :
  install (File (lit "null") (Z.lor S_IFCHR 0x1b6) 259 [] (1, 3, 0, 0, 1, 78)) empty_root = Panic.
Proof. by vm_compute. Qed.
