(* ===== verification/ShellRun.v ===== *)
(** * Running commands in the shell (userland/sh.c)

    What the shell does with the tree of a command is a program of system calls
    ([prog]), one constructor per call; the part of a forked child is a program
    of its own that cannot return. [run] gives it its meaning for a process
    and all the processes that it forks: descriptors are allocated and replaced
    as kernel/syscall/fs.c does it, and everything else that the kernel answers
    (whether a call fails, process numbers, how a child ended) is taken from an
    oracle that is indexed by the process and by the number of its call, so that
    the theorems hold for every kernel and every interleaving. *)
From S2P Require Import Prelude Errno CString CLib Kernel Inode Path Process Libc ShellParser.

(** ** Programs *)
Inductive prog (A : Type) : Type :=
| Return (a : A)
| Exit (status : Z)
| Abort
| Fork (child : prog Empty_set) (k : Z → prog A)
| Pipe (k : Z → Z → Z → prog A) (* result, fd[0], fd[1] *)
| Dup (fd : Z) (k : Z → prog A)
| Dup2 (oldfd newfd : Z) (k : Z → prog A)
| Close (fd : Z) (k : Z → prog A)
| Open (pathname : list Z) (flags mode : Z) (k : Z → prog A)
| Chdir (path : list Z) (k : Z → prog A)
| Getpid (k : Z → prog A)
| Setpgid (id group : Z) (k : Z → prog A)
| Tcsetpgrp (fd group : Z) (k : Z → prog A)
| Execvpe (file : list Z) (argv envp : list (list Z)) (k : Z → prog A)
| Waitpid (id options : Z) (k : Z → Z → prog A) (* result, *wstatus *)
| Malloc (k : bool → prog A)
| Message (text : list Z) (k : prog A) (* dprintf, perror *)
| GetErrno (k : Z → prog A)
| SetErrno (e : Z) (k : prog A).
Arguments Return {A} a.
Arguments Exit {A} status.
Arguments Abort {A}.
Arguments Fork {A} child k.
Arguments Pipe {A} k.
Arguments Dup {A} fd k.
Arguments Dup2 {A} oldfd newfd k.
Arguments Close {A} fd k.
Arguments Open {A} pathname flags mode k.
Arguments Chdir {A} path k.
Arguments Getpid {A} k.
Arguments Setpgid {A} id group k.
Arguments Tcsetpgrp {A} fd group k.
Arguments Execvpe {A} file argv envp k.
Arguments Waitpid {A} id options k.
Arguments Malloc {A} k.
Arguments Message {A} text k.
Arguments GetErrno {A} k.
Arguments SetErrno {A} e k.

#[global] Instance prog_ret : MRet prog := λ A a, Return a.
#[global] Instance prog_bind : MBind prog := λ A B f,
  fix bind (m : prog A) : prog B :=
    match m with
    | Return a => f a
    | Exit status => Exit status
    | Abort => Abort
    | Fork c k => Fork c (λ x, bind (k x))
    | Pipe k => Pipe (λ x y z, bind (k x y z))
    | Dup fd k => Dup fd (λ x, bind (k x))
    | Dup2 oldfd newfd k => Dup2 oldfd newfd (λ x, bind (k x))
    | Close fd k => Close fd (λ x, bind (k x))
    | Open p fl m k => Open p fl m (λ x, bind (k x))
    | Chdir p k => Chdir p (λ x, bind (k x))
    | Getpid k => Getpid (λ x, bind (k x))
    | Setpgid i g k => Setpgid i g (λ x, bind (k x))
    | Tcsetpgrp fd g k => Tcsetpgrp fd g (λ x, bind (k x))
    | Execvpe f a e k => Execvpe f a e (λ x, bind (k x))
    | Waitpid i o k => Waitpid i o (λ x y, bind (k x y))
    | Malloc k => Malloc (λ x, bind (k x))
    | Message t k => Message t (bind k)
    | GetErrno k => GetErrno (λ x, bind (k x))
    | SetErrno e k => SetErrno e (bind k)
    end.
Definition call (c : (Z → prog Z) → prog Z) : prog Z := c Return.

(** ** The shell *)
Definition STDIN_FILENO : Z := 0.
Definition STDOUT_FILENO : Z := 1.
Definition STDERR_FILENO : Z := 2.
Definition RUN_ERROR : Z := -1.
Definition RUN_SIGNALED : Z := -2.
Definition WTERMSIG (status : Z) : Z := Z.land status 0x7f.
Definition WIFSIGNALED (status : Z) : bool := (0 <? WTERMSIG status) && (WTERMSIG status <? 0x7f).
Definition WNOHANG : Z := 1.

Record run_context := RunContext { envp : list (list Z); pgid : Z; foreground : bool }.
Definition with_pgid (g : Z) (ctx : run_context) : run_context := RunContext (envp ctx) g (foreground ctx).

(** atoi on an argument; it is undefined for numbers that do not fit. *)
Definition exit_status (arg : list Z) : Z :=
  match atoi 0%nat (arg ++ [0]) with Done n _ => n | _ => 0 end.

Definition child_execute (argv : list (list Z)) (file : list Z) (ctx : run_context) : prog Empty_set :=
  group ← (if pgid ctx =? 0 then call Getpid else mret (pgid ctx));
  rc ← call (Setpgid 0 group);
  if rc <? 0 then Message (lit "setpgpid") Abort
  else
    _ ← (if foreground ctx then call (Tcsetpgrp STDERR_FILENO group) else mret 0);
    rc ← call (Execvpe file argv (envp ctx));
    Message (lit "execvpe") Abort.

Definition run_execute (argv : list (list Z)) (ctx : run_context) : prog Z :=
  match argv with
  | [] => Abort (* argv[0] is never null *)
  | file :: args =>
      if decide (file = lit "exit") then
        Message (lit "exit")
          (Exit (match args with arg :: _ => exit_status arg | [] => 0 end))
      else if decide (file = lit "cd") then
        match args with
        | arg :: _ => call (Chdir arg)
        | [] =>
            match getenv (envp ctx) (lit "HOME") with
            | Some home => call (Chdir home)
            | None => mret 0
            end
        end
      else
        id ← call (Fork (child_execute argv file ctx));
        if id <? 0 then mret RUN_ERROR
        else
          Waitpid id 0 (λ rc wstatus,
            if rc <? 0 then mret RUN_ERROR
            else if WIFSIGNALED wstatus then mret RUN_SIGNALED
            else mret 0)
  end.

(** The left side of a pipe, in a child; [left] runs its command. *)
Definition child_pipe (fd0 fd1 : Z) (left : run_context → prog Z) (ctx : run_context) : prog Empty_set :=
  _ ← call (Dup2 fd1 STDOUT_FILENO);
  _ ← call (Close fd0);
  _ ← call (Close fd1);
  group ← (if pgid ctx =? 0 then call Getpid else mret (pgid ctx));
  rc ← left (with_pgid group ctx);
  if rc =? RUN_ERROR then Message (lit "run_command") Abort
  else _ ← call (Close STDOUT_FILENO); Exit 0.

Definition run_pipe (left right : run_context → prog Z) (ctx : run_context) : prog Z :=
  Pipe (λ rc fd0 fd1,
    if rc <? 0 then mret RUN_ERROR
    else
      id ← call (Fork (child_pipe fd0 fd1 left ctx));
      if id <? 0 then mret RUN_ERROR
      else
        let ctx := with_pgid (if pgid ctx =? 0 then id else pgid ctx) ctx in
        saved_stdin ← call (Dup STDIN_FILENO);
        _ ← call (Dup2 fd0 STDIN_FILENO);
        _ ← call (Close fd0);
        _ ← call (Close fd1);
        rc ← right ctx;
        if rc <? 0 then
          saved_errno ← call GetErrno;
          _ ← call (Dup2 saved_stdin STDIN_FILENO);
          _ ← call (Close saved_stdin);
          SetErrno saved_errno (mret rc)
        else
          _ ← call (Dup2 saved_stdin STDIN_FILENO);
          _ ← call (Close saved_stdin);
          Waitpid id 0 (λ rc _, mret rc)).

Definition run_redirect (from : run_context → prog Z) (to : list Z) (ctx : run_context) : prog Z :=
  fd ← call (Open to (Z.lor O_WRONLY O_CREAT) 0);
  if fd <? 0 then mret RUN_ERROR
  else
    saved_stdout ← call (Dup STDOUT_FILENO);
    _ ← call (Dup2 fd STDOUT_FILENO);
    _ ← call (Close fd);
    rc ← from ctx;
    saved_errno ← call GetErrno;
    _ ← call (Dup2 saved_stdout STDOUT_FILENO);
    _ ← call (Close saved_stdout);
    SetErrno saved_errno (mret rc).

Definition child_background (inner : run_context → prog Z) (ctx : run_context) : prog Empty_set :=
  group ← call Getpid;
  rc ← inner (RunContext (envp ctx) group false);
  if rc =? RUN_ERROR then Message (lit "run_command") Abort else Exit 0.
Definition run_background (inner : run_context → prog Z) (ctx : run_context) : prog Z :=
  id ← call (Fork (child_background inner ctx));
  if id <? 0 then mret RUN_ERROR else mret 0.

Definition run_juxtaposition (left right : run_context → prog Z) (ctx : run_context) : prog Z :=
  rc ← left ctx;
  if rc <? 0 then mret rc else right ctx.

Fixpoint run_command (n : node (list Z)) (ctx : run_context) : prog Z :=
  match n with
  | CMD_EXECUTE argv => run_execute argv ctx
  | CMD_JUXTAPOSITION lhs rhs => run_juxtaposition (run_command lhs) (run_command rhs) ctx
  | CMD_PIPE lhs rhs => run_pipe (run_command lhs) (run_command rhs) ctx
  | CMD_REDIRECT from to => run_redirect (run_command from) to ctx
  | CMD_BACKGROUND inner => run_background (run_command inner) ctx
  end.

(** *** main *)
Definition EXIT_FAILURE : Z := 1.
Inductive next := Continue | Quit (status : Z).
(** [while (waitpid(-1, NULL, WNOHANG) >= 0);]: each round takes a dead child,
    so that as many rounds as there are children are enough. *)
Fixpoint reap (children : nat) : prog Z :=
  match children with
  | O => mret (-1)
  | S children => Waitpid (-1) WNOHANG (λ rc _, if 0 <=? rc then reap children else mret rc)
  end.
(** The rest of a round, for a line whose command is [n]. *)
Definition run_line (children : nat) (environ : list (list Z)) (ws_col : Z) (n : node (list Z)) : prog next :=
  _ ← reap children;
  rc ← run_command n (RunContext environ 0 true);
  if rc =? RUN_ERROR then Message (lit "run_command") (mret (Quit EXIT_FAILURE))
  else
    self ← call Getpid;
    rc ← call (Tcsetpgrp STDIN_FILENO self);
    if rc <? 0 then Message (lit "tcsetpgrp") (mret (Quit EXIT_FAILURE))
    else
      Malloc (λ ok,
        if ok then Message (replicate (Z.to_nat (ws_col - 1)) (ch " ")) (mret Continue)
        else Message (lit "malloc") (mret (Quit EXIT_FAILURE))).
(** A round of the loop of main behind read_input, on what the parser returned. *)
Definition main_round (children : nat) (environ : list (list Z)) (ws_col : Z) (r : parse_result)
    (n : option (node (list Z))) : prog next :=
  match r, n with
  | RESULT_SUCCESS, Some n => run_line children environ ws_col n
  | RESULT_SUCCESS, None => Abort (* ASSERT(node) *)
  | RESULT_EMPTY, _ => mret Continue
  | RESULT_NOMEM_ERROR, _ => Message (lit "Out of memory") (mret (Quit EXIT_FAILURE))
  | RESULT_SYNTAX_ERROR, _ => Message (lit "Syntax error") (mret Continue)
  | RESULT_TOO_MANY_ARGS_ERROR, _ => Message (lit "Too many arguments") (mret Continue)
  end.

(** ** What a program does *)

(** Open files. A pipe is named by the process that made it and the number of its call. *)
Definition place : Type := list nat * nat.
Inductive object : Type :=
| Given (n : nat)
| Reader (p : place)
| Writer (p : place)
| Target (pathname : list Z).

(** A process of the shell: its place in the tree of forks (the numbers of the
    calls that forked it and its ancestors, its own first), how many calls it
    has made, and what the calls change. *)
Record task := Task {
  name : list nat;
  calls : nat;
  fds : list (option object);
  error : Z;
  id : Z;
  group : Z;
  tty : option Z; (* the group it gave the terminal to *)
}.
Definition set_fds (t : list (option object)) (s : task) : task :=
  Task (name s) (calls s) t (error s) (id s) (group s) (tty s).
Definition set_error (e : Z) (s : task) : task :=
  Task (name s) (calls s) (fds s) e (id s) (group s) (tty s).
Definition set_group (g : Z) (s : task) : task :=
  Task (name s) (calls s) (fds s) (error s) (id s) g (tty s).
Definition set_tty (g : Z) (s : task) : task :=
  Task (name s) (calls s) (fds s) (error s) (id s) (group s) (Some g).
Definition tick (s : task) : task :=
  Task (name s) (S (calls s)) (fds s) (error s) (id s) (group s) (tty s).
Definition child (number : Z) (s : task) : task :=
  Task (calls s :: name s) 0 (fds s) (error s) number (group s) (tty s).

Inductive ending : Type :=
| Executed (argv : list (list Z))
| Exited (status : Z)
| Aborted.
Record ended := Ended { how : ending; who : task }.
Inductive outcome (A : Type) : Type :=
| Returned (a : A) (s : task)
| Over (e : ended).
Arguments Returned {A} a s.
Arguments Over {A} e.

(** *** Descriptors, as in kernel/syscall/fs.c and kernel/process.c *)
Definition object_at (fd : Z) (t : list (option object)) : option object :=
  if (0 <=? fd) && (fd <? Z.of_nat OPEN_MAX) then mjoin (t !! Z.to_nat fd) else None.
Definition lowest (t : list (option object)) : option nat := free_entry (take OPEN_MAX t) 0.
(** The result and the table. *)
Definition do_alloc (o : object) (t : list (option object)) : Z * list (option object) :=
  match lowest t with
  | Some i => (Z.of_nat i, <[i := Some o]> t)
  | None => (ERR EMFILE, t)
  end.
Definition do_dup (fd : Z) (t : list (option object)) : Z * list (option object) :=
  match object_at fd t with Some o => do_alloc o t | None => (ERR EBADF, t) end.
Definition do_dup2 (oldfd newfd : Z) (t : list (option object)) : Z * list (option object) :=
  match object_at oldfd t with
  | Some o =>
      if (0 <=? newfd) && (newfd <? Z.of_nat OPEN_MAX) then (newfd, <[Z.to_nat newfd := Some o]> t)
      else (ERR EBADF, t)
  | None => (ERR EBADF, t)
  end.
Definition do_close (fd : Z) (t : list (option object)) : Z * list (option object) :=
  match object_at fd t with
  | Some _ => (0, <[Z.to_nat fd := None]> t)
  | None => (ERR EBADF, t)
  end.
Definition do_pipe (p : place) (t : list (option object)) : Z * Z * Z * list (option object) :=
  let (fd0, t0) := do_alloc (Reader p) t in
  if fd0 <? 0 then (fd0, 0, 0, t)
  else
    let (fd1, t1) := do_alloc (Writer p) t0 in
    if fd1 <? 0 then (fd1, 0, 0, t) else (0, fd0, fd1, t1).

(** The tables above are the kernel's, seen through the names [f] of its file
    descriptions. *)
Definition view (f : nat → object) (t : list (option nat)) : list (option object) := map (option_map f) t.
Lemma free_entry_view f t i : free_entry (view f t) i = free_entry t i.
Proof. revert i. induction t as [|[d|] t IH]; intros i; cbn; [done|apply IH|done]. Qed.
Lemma lowest_view f t : lowest (view f t) = free_entry (take OPEN_MAX t) 0.
Proof. unfold lowest. rewrite <-(free_entry_view f). f_equal. apply firstn_map. Qed.
Lemma view_insert f t i o : view f (<[i := o]> t) = <[i := option_map f o]> (view f t).
Proof. revert i. induction t as [|x t IH]; intros [|i]; cbn; [done..|]. f_equal. apply IH. Qed.
Lemma alloc_refines f p d s :
  procs s !! current s = Some p →
  ∃ rc s' p', process_alloc_file_descriptor (-1) d s = Done rc s' ∧ procs s' !! current s' = Some p' ∧
    do_alloc (f d) (view f (fd_table p)) = (rc, view f (fd_table p')).
Proof.
  intros Hp. unfold process_alloc_file_descriptor, do_alloc. rewrite lowest_view.
  change (Z.of_nat OPEN_MAX <=? -1) with false. change (0 <=? -1) with false. cbv iota.
  rewrite (bind_run _ _ _ _ _ (current_process_run p s Hp)).
  destruct (free_entry _ _) as [i|]; [|by exists (ERR EMFILE), s, p].
  unfold update_current, update_proc, proc, mbind, K_bind, get, access. rewrite Hp.
  eexists _, _, _. split; [done|]. split; [apply lookup_insert_eq|]. f_equal. symmetry. apply view_insert.
Qed.
Lemma free_refines f p fd d s :
  procs s !! current s = Some p → 0 ≤ fd < Z.of_nat OPEN_MAX → fd_table p !! Z.to_nat fd = Some (Some d) →
  ∃ s' p', process_free_file_descriptor fd s = Done 0 s' ∧ procs s' !! current s' = Some p' ∧
    do_close fd (view f (fd_table p)) = (0, view f (fd_table p')).
Proof.
  intros Hp Hfd Hd. rewrite (free_file_descriptor_run p fd d s) by done. eexists _, _. split; [done|].
  split; [apply lookup_insert_eq|]. unfold do_close, object_at.
  rewrite (proj2 (Z.leb_le 0 fd)), (proj2 (Z.ltb_lt fd _)) by lia. cbn [andb].
  unfold view at 1. change (map ?g ?t !! ?i) with ((g <$> t) !! i). rewrite list_lookup_fmap, Hd. cbn [fmap option_fmap option_map mjoin option_join].
  f_equal. symmetry. apply view_insert.
Qed.

Section run.
(** The kernel's answers: a result, negative for an error, and a status. *)
Context (oracle : list nat → nat → Z * Z).
Definition answer (s : task) : Z := (oracle (name s) (calls s)).1.
Definition status_of (s : task) : Z := (oracle (name s) (calls s)).2.
(** The wrappers of the C library turn an error into -1 and [errno]. *)
Definition library (rc : Z) : Z := if rc <? 0 then -1 else rc.
Definition noting (rc : Z) (s : task) : task := tick (if rc <? 0 then set_error (- rc) s else s).
Definition on_table (r : Z * list (option object)) (s : task) : task := set_fds r.2 (noting r.1 s).

(** All processes that end, in the order in which they were forked, and how the
    process itself goes on. *)
Fixpoint run {A : Type} (m : prog A) (s : task) : list ended * outcome A :=
  let rc := answer s in
  match m with
  | Return a => ([], Returned a s)
  | Exit status => ([], Over (Ended (Exited status) s))
  | Abort => ([], Over (Ended Aborted s))
  | Fork c k =>
      if 0 <? rc then
        let (l, r) := run c (child rc s) in
        let (l', r') := run (k rc) (tick s) in
        (l ++ (match r with Over e => [e] | Returned a _ => match a with end end) ++ l', r')
      else run (k (-1)) (noting rc s)
  | Pipe k =>
      if rc <? 0 then run (k (-1) 0 0) (noting rc s)
      else
        let '(rc, fd0, fd1, t) := do_pipe (name s, calls s) (fds s) in
        run (k (library rc) fd0 fd1) (on_table (rc, t) s)
  | Dup fd k => let r := do_dup fd (fds s) in run (k (library r.1)) (on_table r s)
  | Dup2 oldfd newfd k => let r := do_dup2 oldfd newfd (fds s) in run (k (library r.1)) (on_table r s)
  | Close fd k => let r := do_close fd (fds s) in run (k (library r.1)) (on_table r s)
  | Open pathname flags mode k =>
      if rc <? 0 then run (k (-1)) (noting rc s)
      else let r := do_alloc (Target pathname) (fds s) in run (k (library r.1)) (on_table r s)
  | Chdir path k => run (k (library rc)) (noting rc s)
  | Getpid k => run (k (id s)) (tick s)
  | Setpgid target g k =>
      run (k (library rc)) (noting rc (if (0 <=? rc) && (target =? 0) then set_group (if g =? 0 then id s else g) s else s))
  | Tcsetpgrp fd g k => run (k (library rc)) (noting rc (if 0 <=? rc then set_tty g s else s))
  | Execvpe file argv envp k =>
      if rc <? 0 then run (k (-1)) (noting rc s) else ([], Over (Ended (Executed argv) s))
  | Waitpid target options k => run (k (library rc) (status_of s)) (noting rc s)
  | Malloc k => run (k (0 <=? rc)) (noting (if 0 <=? rc then 0 else ERR ENOMEM) s)
  | Message text k => run k (tick s)
  | GetErrno k => run (k (error s)) s
  | SetErrno e k => run k (set_error e s)
  end.

(** Running one program after another. *)
Lemma run_bind {A B} (m : prog A) (f : A → prog B) s :
  run (m ≫= f) s =
    match run m s with
    | (l, Returned a s') => let (l', r) := run (f a) s' in (l ++ l', r)
    | (l, Over e) => (l, Over e)
    end.
Proof.
  revert s. induction m; intros s; cbn [mbind prog_bind run];
    repeat match goal with
    | |- context [if ?b then _ else _] => destruct b
    | |- context [do_pipe ?p ?t] => destruct (do_pipe p t) as [[[? ?] ?] ?]
    end; try done; try (change (?f ≫= ?g) with (f ≫= g); auto; fail).
  - by destruct (run (f a) s).
  - destruct (run m _) as [l r]. change ((fix bind (m : prog A) : prog B := _) ?x) with (x ≫= f).
    rewrite H. destruct (run (k _) _) as [l' [a s'|e]]; [|done].
    destruct (run (f a) s') as [l'' r'']. by rewrite <-!app_assoc.
Qed.

(** ** Every answer of the kernel: the shell's own process *)

(** [m] goes on with [Q], unless the command was [exit]. *)
Definition settles {A} (m : prog A) (s : task) (Q : A → task → Prop) : Prop :=
  match (run m s).2 with
  | Returned a s' => Q a s'
  | Over e => ∃ status, how e = Exited status
  end.
Lemma settles_bind {A B} (m : prog A) (f : A → prog B) s Q :
  settles m s (λ a s', settles (f a) s' Q) → settles (m ≫= f) s Q.
Proof.
  unfold settles. rewrite run_bind. destruct (run m s) as [l [a s'|e]]; cbn [snd]; [|done].
  by destruct (run (f a) s').
Qed.
Lemma settles_mono {A} (m : prog A) s (Q Q' : A → task → Prop) :
  settles m s Q → (∀ a s', Q a s' → Q' a s') → settles m s Q'.
Proof. unfold settles. destruct (run m s).2; [eauto|done]. Qed.
End run.

(** *** Tables of descriptors *)
Definition free (t : list (option object)) : nat := length (filter (λ o, o = None) t).
Record table_ok (t : list (option object)) : Prop := TableOk {
  ok_length : length t = OPEN_MAX;
  ok_stdio : ∀ i, (i < 3)%nat → ∃ o, t !! i = Some (Some o);
}.
Definition extends (t t' : list (option object)) : Prop :=
  length t' = length t ∧ ∀ i o, t !! i = Some (Some o) → t' !! i = Some (Some o).

Lemma free_insert t i o : t !! i = Some None → S (free (<[i := Some o]> t)) = free t.
Proof.
  unfold free. revert i. induction t as [|x t IH]; intros [|i] Ht; cbn in Ht; try done.
  - injection Ht as ->. cbn. done.
  - change (<[S i:=Some o]> (x :: t)) with (x :: <[i:=Some o]> t). rewrite !filter_cons.
    destruct (decide (x = None)); cbn [length]; by rewrite (IH i Ht).
Qed.
Lemma lowest_some t : length t = OPEN_MAX → (0 < free t)%nat → ∃ i, lowest t = Some i ∧ t !! i = Some None.
Proof.
  intros Hl Hf. unfold lowest. rewrite take_ge by lia. clear Hl.
  assert (Hex : ∃ i, t !! i = Some None ∧ ∀ j, (j < i)%nat → ∃ d, t !! j = Some (Some d)).
  { unfold free in Hf. induction t as [|[x|] t IH]; [cbn in Hf; lia| |by exists 0%nat; split; [|intros; lia]].
    destruct IH as (i & Hi & Hj); [exact Hf|]. exists (S i). split; [done|].
    intros [|j] Hlt; [by exists x|]. apply Hj. lia. }
  destruct Hex as (i & Hi). exists i. split; [|apply Hi]. by apply (free_entry_spec t 0 i).
Qed.
Lemma do_alloc_run o t :
  table_ok t → (0 < free t)%nat →
  ∃ i, do_alloc o t = (Z.of_nat i, <[i := Some o]> t) ∧ t !! i = Some None ∧ (3 ≤ i < OPEN_MAX)%nat ∧
    table_ok (<[i := Some o]> t) ∧ S (free (<[i := Some o]> t)) = free t.
Proof.
  intros [Hl Hs] Hf. destruct (lowest_some t Hl Hf) as (i & Hi & Hn). exists i. unfold do_alloc. rewrite Hi.
  pose proof (lookup_lt_Some _ _ _ Hn).
  assert (Hge : (3 ≤ i)%nat).
  { destruct (decide (3 ≤ i)%nat) as [|Hlt]; [done|]. destruct (Hs i) as [? Ho]; [lia|]. congruence. }
  split; [done|]. split; [done|]. split; [lia|]. split; [|by apply free_insert]. split; [by rewrite length_insert|].
  intros j Hj. rewrite list_lookup_insert_ne by lia. by apply Hs.
Qed.
Lemma object_at_run i o t : length t = OPEN_MAX → t !! i = Some (Some o) → object_at (Z.of_nat i) t = Some o.
Proof.
  intros Hl Hi. pose proof (lookup_lt_Some _ _ _ Hi). unfold object_at. rewrite Nat2Z.id, Hi.
  by rewrite (proj2 (Z.leb_le 0 _)), (proj2 (Z.ltb_lt _ _)) by lia.
Qed.
(** Slot [k] is lent to [x]; what it held is kept in slot [j]. *)
Lemma give_back t t' k j ok x :
  length t = OPEN_MAX → t !! k = Some (Some ok) → t !! j = Some None →
  extends (<[k := Some x]> (<[j := Some ok]> t)) t' →
  do_dup2 (Z.of_nat j) (Z.of_nat k) t' = (Z.of_nat k, <[k := Some ok]> t') ∧
  do_close (Z.of_nat j) (<[k := Some ok]> t') = (0, <[j := None]> (<[k := Some ok]> t')) ∧
  extends t (<[j := None]> (<[k := Some ok]> t')) ∧
  (t' = <[k := Some x]> (<[j := Some ok]> t) → <[j := None]> (<[k := Some ok]> t') = t).
Proof.
  intros Hl Hk Hj [Hl' Hext]. rewrite !length_insert in Hl'.
  pose proof (lookup_lt_Some _ _ _ Hk). pose proof (lookup_lt_Some _ _ _ Hj).
  assert (Hne : k ≠ j) by congruence.
  assert (Hj' : t' !! j = Some (Some ok)).
  { apply Hext. rewrite list_lookup_insert_ne by done. by rewrite list_lookup_insert_eq. }
  split; [|split; [|split]].
  - unfold do_dup2. rewrite (object_at_run j ok) by (done || lia).
    rewrite (proj2 (Z.leb_le 0 _)), (proj2 (Z.ltb_lt _ _)) by lia. by rewrite Nat2Z.id.
  - unfold do_close. rewrite (object_at_run j ok); [by rewrite Nat2Z.id|by rewrite length_insert; lia|].
    by rewrite list_lookup_insert_ne.
  - split; [by rewrite !length_insert|]. intros i o Hi. destruct (decide (i = j)) as [->|]; [congruence|].
    rewrite list_lookup_insert_ne by done. destruct (decide (i = k)) as [->|].
    + rewrite list_lookup_insert_eq by lia. congruence.
    + rewrite list_lookup_insert_ne by done. apply Hext. by rewrite !list_lookup_insert_ne by done.
  - intros ->. apply list_eq. intros i. destruct (decide (i = j)) as [->|].
    + rewrite list_lookup_insert_eq by (rewrite !length_insert; lia). done.
    + rewrite list_lookup_insert_ne by done. destruct (decide (i = k)) as [->|].
      * rewrite list_lookup_insert_eq by (rewrite !length_insert; lia). done.
      * by rewrite !list_lookup_insert_ne by done.
Qed.

Lemma close_both t i0 i1 j (o r w r' : object) :
  i0 ≠ i1 → j ≠ i0 → j ≠ i1 → (0 < i0 < length t)%nat → (0 < i1 < length t)%nat → (j < length t)%nat →
  t !! i0 = Some None → t !! i1 = Some None →
  <[i1 := None]> (<[i0 := None]> (<[0%nat := Some r]> (<[j := Some o]> (<[i1 := Some w]> (<[i0 := Some r']> t))))) =
  <[0%nat := Some r]> (<[j := Some o]> t).
Proof.
  intros. apply list_eq. intros k.
  destruct (decide (k = i1)) as [->|].
  { rewrite list_lookup_insert_eq by (rewrite !length_insert; lia). by rewrite !list_lookup_insert_ne by lia. }
  rewrite list_lookup_insert_ne by done. destruct (decide (k = i0)) as [->|].
  { rewrite list_lookup_insert_eq by (rewrite !length_insert; lia). by rewrite !list_lookup_insert_ne by lia. }
  rewrite list_lookup_insert_ne by done.
  destruct (decide (k = 0%nat)) as [->|]. { by rewrite !list_lookup_insert_eq by (rewrite !length_insert; lia). }
  rewrite !(list_lookup_insert_ne _ 0%nat) by done.
  destruct (decide (k = j)) as [->|]. { by rewrite !list_lookup_insert_eq by (rewrite ?length_insert; lia). }
  by rewrite !list_lookup_insert_ne by done.
Qed.
(** The tables while something is lent: after a pipe, and after an open. *)
Lemma lend_pipe p t :
  table_ok t → (3 ≤ free t)%nat →
  ∃ i0 i1 j o t1, t !! 0%nat = Some (Some o) ∧ t !! j = Some None ∧
    do_pipe p t = (0, Z.of_nat i0, Z.of_nat i1, t1) ∧ do_dup STDIN_FILENO t1 = (Z.of_nat j, <[j := Some o]> t1) ∧
    do_dup2 (Z.of_nat i0) STDIN_FILENO (<[j := Some o]> t1) = (0, <[0%nat := Some (Reader p)]> (<[j := Some o]> t1)) ∧
    do_close (Z.of_nat i0) (<[0%nat := Some (Reader p)]> (<[j := Some o]> t1)) =
      (0, <[i0 := None]> (<[0%nat := Some (Reader p)]> (<[j := Some o]> t1))) ∧
    do_close (Z.of_nat i1) (<[i0 := None]> (<[0%nat := Some (Reader p)]> (<[j := Some o]> t1))) =
      (0, <[0%nat := Some (Reader p)]> (<[j := Some o]> t)) ∧
    t1 = <[i1 := Some (Writer p)]> (<[i0 := Some (Reader p)]> t) ∧ t !! i0 = Some None ∧ t !! i1 = Some None ∧
    i0 ≠ i1 ∧ (3 ≤ i0)%nat ∧ (3 ≤ i1)%nat.
Proof.
  intros Ht Hf. destruct (ok_stdio t Ht 0) as [o Ho]; [lia|].
  destruct (do_alloc_run (Reader p) t Ht) as (i0 & Ha0 & Hn0 & Hi0 & Ht0 & Hf0); [lia|].
  destruct (do_alloc_run (Writer p) _ Ht0) as (i1 & Ha1 & Hn1 & Hi1 & Ht1 & Hf1); [lia|].
  destruct (do_alloc_run o _ Ht1) as (j & Haj & Hnj & Hij & Htj & Hfj); [lia|].
  pose proof (ok_length t Ht) as Hl. pose proof (lookup_lt_Some _ _ _ Ho). assert (i0 ≠ i1).
  { intros ->. rewrite list_lookup_insert_eq in Hn1; [done|]. lia. }
  assert (j ≠ i1). { intros ->. rewrite list_lookup_insert_eq in Hnj; [done|]. rewrite length_insert. lia. }
  assert (j ≠ i0).
  { intros ->. rewrite list_lookup_insert_ne in Hnj by done. rewrite list_lookup_insert_eq in Hnj; [done|]. lia. }
  rewrite list_lookup_insert_ne in Hn1 by done. rewrite !list_lookup_insert_ne in Hnj by done.
  set (t1 := <[i1 := Some (Writer p)]> (<[i0 := Some (Reader p)]> t)) in *.
  exists i0, i1, j, o, t1. split_and!; try done; try lia.
  - unfold do_pipe. rewrite Ha0, (proj2 (Z.ltb_ge (Z.of_nat i0) 0)) by lia.
    by rewrite Ha1, (proj2 (Z.ltb_ge (Z.of_nat i1) 0)) by lia.
  - unfold do_dup. change STDIN_FILENO with (Z.of_nat 0). rewrite (object_at_run 0 o); [done|apply Ht1|].
    subst t1. by rewrite !list_lookup_insert_ne by lia.
  - unfold do_dup2. rewrite (object_at_run i0 (Reader p)); [done|apply Htj|]. subst t1.
    rewrite !list_lookup_insert_ne by done. by rewrite list_lookup_insert_eq by lia.
  - unfold do_close. rewrite (object_at_run i0 (Reader p)); [by rewrite Nat2Z.id|by rewrite length_insert; apply Htj|].
    subst t1. rewrite !list_lookup_insert_ne by lia. by rewrite list_lookup_insert_eq by lia.
  - unfold do_close. rewrite (object_at_run i1 (Writer p)); [|rewrite !length_insert; apply Ht1|].
    2: { subst t1. rewrite !list_lookup_insert_ne by lia. by rewrite list_lookup_insert_eq by (rewrite length_insert; lia). }
    rewrite Nat2Z.id. f_equal. subst t1. apply close_both; done || lia.
Qed.
Lemma child_table p t i0 i1 :
  table_ok t → t !! i0 = Some None → t !! i1 = Some None → i0 ≠ i1 → (3 ≤ i0)%nat → (3 ≤ i1)%nat →
  let t1 := <[i1 := Some (Writer p)]> (<[i0 := Some (Reader p)]> t) in
  do_dup2 (Z.of_nat i1) STDOUT_FILENO t1 = (1, <[1%nat := Some (Writer p)]> t1) ∧
  do_close (Z.of_nat i0) (<[1%nat := Some (Writer p)]> t1) = (0, <[i0 := None]> (<[1%nat := Some (Writer p)]> t1)) ∧
  do_close (Z.of_nat i1) (<[i0 := None]> (<[1%nat := Some (Writer p)]> t1)) = (0, <[1%nat := Some (Writer p)]> t).
Proof.
  intros Ht H0 H1 Hne Hi0 Hi1 t1. pose proof (ok_length t Ht) as Hl.
  pose proof (lookup_lt_Some _ _ _ H0). pose proof (lookup_lt_Some _ _ _ H1).
  assert (Hl1 : length t1 = OPEN_MAX) by (subst t1; by rewrite !length_insert).
  split; [|split].
  - unfold do_dup2. rewrite (object_at_run i1 (Writer p)); [done|done|]. subst t1.
    by rewrite list_lookup_insert_eq by (rewrite length_insert; lia).
  - unfold do_close. rewrite (object_at_run i0 (Reader p)); [by rewrite Nat2Z.id|by rewrite length_insert|].
    subst t1. rewrite !list_lookup_insert_ne by lia. by rewrite list_lookup_insert_eq by lia.
  - unfold do_close. rewrite (object_at_run i1 (Writer p)); [|by rewrite !length_insert|].
    2: { subst t1. rewrite !list_lookup_insert_ne by lia. by rewrite list_lookup_insert_eq by (rewrite length_insert; lia). }
    rewrite Nat2Z.id. f_equal. subst t1. apply list_eq. intros k.
    destruct (decide (k = i1)) as [->|].
    { rewrite list_lookup_insert_eq by (rewrite !length_insert; lia). by rewrite !list_lookup_insert_ne by lia. }
    rewrite list_lookup_insert_ne by done. destruct (decide (k = i0)) as [->|].
    { rewrite list_lookup_insert_eq by (rewrite !length_insert; lia). by rewrite !list_lookup_insert_ne by lia. }
    rewrite list_lookup_insert_ne by done.
    destruct (decide (k = 1%nat)) as [->|]. { by rewrite !list_lookup_insert_eq by (rewrite ?length_insert; lia). }
    by rewrite !list_lookup_insert_ne by done.
Qed.
Lemma close_target t i j (o x : object) :
  j ≠ i → (1 < i < length t)%nat → (j < length t)%nat → t !! i = Some None →
  <[i := None]> (<[1%nat := Some x]> (<[j := Some o]> (<[i := Some x]> t))) = <[1%nat := Some x]> (<[j := Some o]> t).
Proof.
  intros. apply list_eq. intros k.
  destruct (decide (k = i)) as [->|].
  { rewrite list_lookup_insert_eq by (rewrite !length_insert; lia). by rewrite !list_lookup_insert_ne by lia. }
  rewrite list_lookup_insert_ne by done.
  destruct (decide (k = 1%nat)) as [->|]. { by rewrite !list_lookup_insert_eq by (rewrite !length_insert; lia). }
  rewrite !(list_lookup_insert_ne _ 1%nat) by done.
  destruct (decide (k = j)) as [->|]. { by rewrite !list_lookup_insert_eq by (rewrite ?length_insert; lia). }
  by rewrite !list_lookup_insert_ne by done.
Qed.
Lemma lend_open x t :
  table_ok t → (2 ≤ free t)%nat →
  ∃ i j o, t !! 1%nat = Some (Some o) ∧ t !! j = Some None ∧ do_alloc x t = (Z.of_nat i, <[i := Some x]> t) ∧
    do_dup STDOUT_FILENO (<[i := Some x]> t) = (Z.of_nat j, <[j := Some o]> (<[i := Some x]> t)) ∧
    do_dup2 (Z.of_nat i) STDOUT_FILENO (<[j := Some o]> (<[i := Some x]> t)) =
      (1, <[1%nat := Some x]> (<[j := Some o]> (<[i := Some x]> t))) ∧
    do_close (Z.of_nat i) (<[1%nat := Some x]> (<[j := Some o]> (<[i := Some x]> t))) =
      (0, <[1%nat := Some x]> (<[j := Some o]> t)) ∧ (3 ≤ i)%nat.
Proof.
  intros Ht Hf. destruct (ok_stdio t Ht 1) as [o Ho]; [lia|].
  destruct (do_alloc_run x t Ht) as (i & Ha & Hn & Hi & Hti & Hfi); [lia|].
  destruct (do_alloc_run o _ Hti) as (j & Haj & Hnj & Hij & Htj & Hfj); [lia|].
  pose proof (ok_length t Ht) as Hl. assert (j ≠ i).
  { intros ->. rewrite list_lookup_insert_eq in Hnj; [done|]. lia. }
  rewrite list_lookup_insert_ne in Hnj by done.
  exists i, j, o. split_and!; try done; try lia.
  - unfold do_dup. change STDOUT_FILENO with (Z.of_nat 1). rewrite (object_at_run 1 o); [done|apply Hti|].
    by rewrite list_lookup_insert_ne by lia.
  - unfold do_dup2. rewrite (object_at_run i x); [done|apply Htj|].
    rewrite list_lookup_insert_ne by done. by rewrite list_lookup_insert_eq by lia.
  - unfold do_close. rewrite (object_at_run i x); [|by rewrite length_insert; apply Htj|].
    2: { rewrite !list_lookup_insert_ne by lia. by rewrite list_lookup_insert_eq by lia. }
    rewrite Nat2Z.id. f_equal. apply close_target; done || lia.
Qed.
Lemma free_replace t k o x : t !! k = Some (Some o) → free (<[k := Some x]> t) = free t.
Proof.
  revert k. unfold free. induction t as [|y l IH]; intros [|k] Hk; cbn in Hk; try done.
  - by injection Hk as ->.
  - change (<[S k:=Some x]> (y :: l)) with (y :: <[k:=Some x]> l). rewrite !filter_cons.
    destruct (decide (y = None)); cbn [length]; by rewrite (IH k Hk).
Qed.
Lemma table_ok_replace t k o x : table_ok t → (k < 3)%nat → t !! k = Some (Some o) → table_ok (<[k := Some x]> t).
Proof.
  intros [Hl Hs] Hk Ho. split; [by rewrite length_insert|]. intros i Hi. destruct (decide (i = k)) as [->|].
  - eexists. apply list_lookup_insert_eq. by eapply lookup_lt_Some.
  - rewrite list_lookup_insert_ne by lia. by apply Hs.
Qed.
Lemma table_ok_lend t k j ok x :
  table_ok t → (k < 3)%nat → t !! k = Some (Some ok) → t !! j = Some None →
  table_ok (<[k := Some x]> (<[j := Some ok]> t)) ∧ S (free (<[k := Some x]> (<[j := Some ok]> t))) = free t.
Proof.
  intros [Hl Hs] Hk Ho Hj. assert (j ≠ k) by congruence.
  assert (3 ≤ j)%nat. { destruct (decide (3 ≤ j)%nat) as [|Hlt]; [done|]. destruct (Hs j) as [? ?]; [lia|]. congruence. }
  assert (Hk' : <[j:=Some ok]> t !! k = Some (Some ok)) by by rewrite list_lookup_insert_ne.
  split; [split; [by rewrite !length_insert|]|].
  - intros i Hi. destruct (decide (i = k)) as [->|].
    + eexists. apply list_lookup_insert_eq. rewrite length_insert. by eapply lookup_lt_Some.
    + rewrite !list_lookup_insert_ne by lia. by apply Hs.
  - rewrite <-(free_insert t j ok Hj). f_equal. by eapply free_replace.
Qed.

Section restores.
Context (oracle : list nat → nat → Z * Z).
Abbreviation settles := (settles oracle).

Lemma fds_on_table r s : fds (on_table r s) = r.2.
Proof. done. Qed.
Lemma fds_noting rc s : fds (noting rc s) = fds s.
Proof. unfold noting. by case_match. Qed.
(** Calls whose result is known. *)
Lemma settles_dup {B} fd (f : Z → prog B) s rc t Q :
  do_dup fd (fds s) = (rc, t) → settles (f (library rc)) (on_table (rc, t) s) Q → settles (call (Dup fd) ≫= f) s Q.
Proof. unfold ShellRun.settles. cbn. by intros ->. Qed.
Lemma settles_dup2 {B} fd fd' (f : Z → prog B) s rc t Q :
  do_dup2 fd fd' (fds s) = (rc, t) → settles (f (library rc)) (on_table (rc, t) s) Q → settles (call (Dup2 fd fd') ≫= f) s Q.
Proof. unfold ShellRun.settles. cbn. by intros ->. Qed.
Lemma settles_close {B} fd (f : Z → prog B) s rc t Q :
  do_close fd (fds s) = (rc, t) → settles (f (library rc)) (on_table (rc, t) s) Q → settles (call (Close fd) ≫= f) s Q.
Proof. unfold ShellRun.settles. cbn. by intros ->. Qed.
Lemma settles_open {B} pathname flags mode (f : Z → prog B) s rc t Q :
  do_alloc (Target pathname) (fds s) = (rc, t) →
  (∀ s', fds s' = fds s → settles (f (-1)) s' Q) → settles (f (library rc)) (on_table (rc, t) s) Q →
  settles (call (Open pathname flags mode) ≫= f) s Q.
Proof.
  intros Ha Hf Hok. unfold ShellRun.settles. cbn. destruct (answer oracle s <? 0); [apply Hf, fds_noting|]. by rewrite Ha.
Qed.
(** Forking has no effect on the parent but the count of its calls. *)
Lemma settles_fork {B} c (f : Z → prog B) s Q :
  (∀ i s', fds s' = fds s → settles (f i) s' Q) → settles (call (Fork c) ≫= f) s Q.
Proof.
  intros HQ. unfold ShellRun.settles. cbn. destruct (0 <? answer oracle s).
  - pose proof (HQ (answer oracle s) (tick s) eq_refl) as H. unfold ShellRun.settles in H.
    destruct (run oracle c _) as [l r]. by destruct (run oracle (f _) _).
  - apply HQ. unfold noting. by case_match.
Qed.
Lemma library_nonneg rc : 0 ≤ rc → library rc = rc.
Proof. intros. unfold library. by rewrite (proj2 (Z.ltb_ge _ _)). Qed.

(** What the restoring end of run_pipe and run_redirect does. *)
Lemma settles_give_back {B} (f : Z → prog B) t k j ok x s Q :
  length t = OPEN_MAX → t !! k = Some (Some ok) → t !! j = Some None →
  extends (<[k := Some x]> (<[j := Some ok]> t)) (fds s) →
  (∀ s', extends t (fds s') → (fds s = <[k := Some x]> (<[j := Some ok]> t) → fds s' = t) → settles (f 0) s' Q) →
  settles (_ ← call (Dup2 (Z.of_nat j) (Z.of_nat k)); rc ← call (Close (Z.of_nat j)); f rc) s Q.
Proof.
  intros Hl Hk Hj Hext HQ. destruct (give_back t (fds s) k j ok x Hl Hk Hj Hext) as (Hd & Hc & He & Heq).
  eapply settles_dup2; [exact Hd|]. eapply settles_close; [rewrite fds_on_table; exact Hc|]. apply HQ.
  - by rewrite fds_on_table.
  - by rewrite fds_on_table.
Qed.


(** What run_command promises of its process: everything that was open still is
    what it was, and the table is the same unless the result is [RUN_ERROR]. *)
Definition restored (t : list (option object)) (rc : Z) (s : task) : Prop :=
  extends t (fds s) ∧ (rc ≠ RUN_ERROR → fds s = t).
Lemma restored_refl rc s : restored (fds s) rc s.
Proof. by split. Qed.
Lemma settles_return {A} (a : A) s (Q : A → task → Prop) : Q a s → settles (mret a) s Q.
Proof. done. Qed.
Lemma restored_same t rc s : fds s = t → restored t rc s.
Proof. by intros <-. Qed.

Lemma run_execute_restores argv ctx s :
  argv ≠ [] → settles (run_execute argv ctx) s (restored (fds s)).
Proof.
  intros Hne. unfold run_execute. destruct argv as [|file args]; [done|].
  assert (Hchdir : ∀ path, settles (call (Chdir path)) s (restored (fds s))).
  { intros path. unfold ShellRun.settles. cbn. apply restored_same, fds_noting. }
  destruct (decide (file = lit "exit")); [by eexists|].
  destruct (decide (file = lit "cd")).
  { destruct args as [|arg args]; [|apply Hchdir]. destruct (getenv _ _); [apply Hchdir|]. apply restored_refl. }
  apply settles_fork. intros i s' Hs'. destruct (i <? 0); [by apply settles_return, restored_same|].
  unfold ShellRun.settles. cbn. set (rc := library _). assert (Hf : fds (noting (answer oracle s') s') = fds s) by by rewrite fds_noting.
  destruct (rc <? 0); [by apply restored_same|]. destruct (WIFSIGNALED _); by apply restored_same.
Qed.
Lemma run_pipe_restores left right ctx s need :
  table_ok (fds s) → (3 ≤ free (fds s))%nat → (S need ≤ free (fds s))%nat →
  (∀ ctx s', table_ok (fds s') → (need ≤ free (fds s'))%nat → settles (right ctx) s' (restored (fds s'))) →
  settles (run_pipe left right ctx) s (restored (fds s)).
Proof.
  intros Ht H3 Hneed Hright. unfold run_pipe, ShellRun.settles. cbn [run].
  destruct (answer oracle s <? 0); [apply restored_same, fds_noting|].
  destruct (lend_pipe (name s, calls s) (fds s) Ht H3)
    as (i0 & i1 & j & o & t1 & Ho & Hj & Hpipe & Hdup & Hdup2 & Hc0 & Hc1 & Ht1 & Hn0 & Hn1 & Hne & Hi0 & Hi1).
  rewrite Hpipe. cbn [library Z.ltb Z.compare].
  match goal with |- match (run oracle ?m ?st).2 with _ => _ end => change (settles m st (restored (fds s))) end.
  apply settles_fork. intros pid s1 Hs1. rewrite fds_on_table in Hs1. cbn [snd] in Hs1.
  assert (Hext1 : extends (fds s) (fds s1)).
  { rewrite Hs1, Ht1. split; [by rewrite !length_insert|]. intros k x Hk. 
    rewrite !list_lookup_insert_ne by congruence. done. }
  destruct (pid <? 0); [by apply settles_return|].
  eapply settles_dup; [by rewrite Hs1|]. eapply settles_dup2; [rewrite fds_on_table; exact Hdup2|].
  eapply settles_close; [rewrite fds_on_table; exact Hc0|]. eapply settles_close; [rewrite fds_on_table; exact Hc1|].
  match goal with |- ShellRun.settles _ _ ?st _ => set (s2 := st) end.
  assert (Hs2 : fds s2 = <[0%nat:=Some (Reader (name s, calls s))]> (<[j:=Some o]> (fds s))) by done.
  destruct (table_ok_lend (fds s) 0 j o (Reader (name s, calls s)) Ht ltac:(lia) Ho Hj) as [Ht2 Hf2].
  apply settles_bind. eapply settles_mono; [apply Hright; [by rewrite Hs2|rewrite Hs2; lia]|].
  intros rc s3 [Hext Hsame]. rewrite Hs2 in Hext, Hsame. rewrite library_nonneg by lia.
  destruct (rc <? 0) eqn:Erc.
  - match goal with |- ShellRun.settles _ (_ ≫= ?f) _ _ => change (settles (f (error s3)) s3 (restored (fds s))) end.
    eapply (settles_give_back _ (fds s) 0 j o); [apply Ht|done|done|exact Hext|].
    intros s4 Hext4 Heq4. apply (settles_return rc (set_error (error s3) s4)). split; [exact Hext4|]. intros Hrc. auto.
  - eapply (settles_give_back _ (fds s) 0 j o); [apply Ht|done|done|exact Hext|].
    intros s4 Hext4 Heq4. unfold ShellRun.settles. cbn. apply restored_same. rewrite fds_noting. apply Heq4, Hsame.
    bool_to_prop. unfold RUN_ERROR. lia.
Qed.
Lemma run_redirect_restores from to ctx s need :
  table_ok (fds s) → (2 ≤ free (fds s))%nat → (S need ≤ free (fds s))%nat →
  (∀ s', table_ok (fds s') → (need ≤ free (fds s'))%nat → settles (from ctx) s' (restored (fds s'))) →
  settles (run_redirect from to ctx) s (restored (fds s)).
Proof.
  intros Ht H2 Hneed Hfrom. unfold run_redirect.
  destruct (lend_open (Target to) (fds s) Ht H2) as (i & j & o & Ho & Hj & Ha & Hdup & Hdup2 & Hc & Hi).
  eapply settles_open; [exact Ha|intros s' Hs'; by apply settles_return, restored_same|].
  rewrite library_nonneg by lia. rewrite (proj2 (Z.ltb_ge (Z.of_nat i) 0)) by lia.
  eapply settles_dup; [exact Hdup|]. eapply settles_dup2; [rewrite fds_on_table; exact Hdup2|].
  eapply settles_close; [rewrite fds_on_table; exact Hc|].
  match goal with |- ShellRun.settles _ _ ?st _ => set (s2 := st) end.
  assert (Hs2 : fds s2 = <[1%nat:=Some (Target to)]> (<[j:=Some o]> (fds s))) by done.
  destruct (table_ok_lend (fds s) 1 j o (Target to) Ht ltac:(lia) Ho Hj) as [Ht2 Hf2].
  apply settles_bind. eapply settles_mono; [apply Hfrom; [by rewrite Hs2|rewrite Hs2; lia]|].
  intros rc s3 [Hext Hsame]. rewrite Hs2 in Hext, Hsame. rewrite library_nonneg by lia.
  match goal with |- ShellRun.settles _ (_ ≫= ?f) _ _ => change (settles (f (error s3)) s3 (restored (fds s))) end.
  eapply (settles_give_back _ (fds s) 1 j o); [apply Ht|done|done|exact Hext|].
  intros s4 Hext4 Heq4. apply (settles_return rc (set_error (error s3) s4)). split; [exact Hext4|]. intros Hrc. auto.
Qed.

(** Free descriptors that a command and its parts need. *)
Fixpoint needs (n : node (list Z)) : nat :=
  match n with
  | CMD_EXECUTE _ => 0
  | CMD_JUXTAPOSITION lhs rhs => needs lhs `max` needs rhs
  | CMD_PIPE lhs rhs => needs lhs `max` (3 `max` (1 + needs rhs))
  | CMD_REDIRECT from _ => 2 `max` (1 + needs from)
  | CMD_BACKGROUND inner => needs inner
  end.
(** The parser makes no command without words. *)
Fixpoint has_words (n : node (list Z)) : Prop :=
  match n with
  | CMD_EXECUTE argv => argv ≠ []
  | CMD_JUXTAPOSITION lhs rhs | CMD_PIPE lhs rhs => has_words lhs ∧ has_words rhs
  | CMD_REDIRECT inner _ | CMD_BACKGROUND inner => has_words inner
  end.

(** C26: Whatever the kernel answers to any call of any process, a command that
    runs in a process with its standard descriptors open and enough free ones
    leaves every open descriptor as it was, and, unless its result is
    [RUN_ERROR], the whole table; only the builtin exit ends the process. *)
Theorem run_command_restores n ctx s :
  has_words n → table_ok (fds s) → (needs n ≤ free (fds s))%nat →
  settles (run_command n ctx) s (restored (fds s)).
Proof.
  revert ctx s. induction n as [argv|lhs IHl rhs IHr|lhs IHl rhs IHr|from IH to|inner IH];
    intros ctx s Hw Ht Hneed; cbn [run_command has_words needs] in *.
  - by apply run_execute_restores.
  - destruct Hw as [Hwl Hwr]. unfold run_juxtaposition. apply settles_bind.
    eapply settles_mono; [apply (IHl ctx s); [done|done|lia]|]. intros rc s' [Hext Hsame].
    destruct (Z.ltb_spec rc 0); [apply settles_return; by split|].
    rewrite <-Hsame by (unfold RUN_ERROR; lia). apply IHr; [done|..]; rewrite Hsame by (unfold RUN_ERROR; lia); [done|lia].
  - destruct Hw as [_ Hwr]. apply (run_pipe_restores _ _ _ _ (needs rhs)); [done|lia|lia|]. intros. by apply IHr.
  - apply (run_redirect_restores _ _ _ _ (needs from)); [done|lia|lia|]. intros. by apply IH.
  - unfold run_background. apply settles_fork. intros i s' Hs'. destruct (i <? 0); by apply settles_return, restored_same.
Qed.
End restores.

(** ** Witnesses and examples *)
Definition plain_table : list (option object) := [Some (Given 0); Some (Given 1); Some (Given 2)] ++ replicate 1021 None.
Definition plain_task : task := Task [] 0 plain_table 0 7 7 None.
Lemma plain_ok : table_ok plain_table ∧ free plain_table = 1021%nat.
Proof.
  split; [split; [by vm_compute|intros [|[|[|i]]] Hi; [by eexists..|lia]]|by vm_compute].
Qed.
Definition all_well (_ : list nat) (_ : nat) : Z * Z := (5, 0).
Lemma run_command_restores_witness :
  settles (λ _ _, (-12, 0)) (run_command (tree example) (RunContext [] 0 true)) plain_task (restored plain_table).
Proof.
  apply (run_command_restores (λ _ _, (-12, 0)) (tree example) (RunContext [] 0 true) plain_task).
  - by vm_compute.
  - apply plain_ok.
  - change (fds plain_task) with plain_table. rewrite (proj2 plain_ok). by vm_compute; lia.
Defined.
(** chdir answers -1, which run_command's caller takes for [RUN_ERROR]: a wrong
    directory ends the shell. *)
Example cd_failure_ends_shell :
  (run (λ _ _, (-2, 0)) (run_line 0 [] 80 (CMD_EXECUTE [lit "cd"; lit "nowhere"])) plain_task).2 =
    Returned (Quit EXIT_FAILURE) (Task [] 2 plain_table 2 7 7 None).
Proof. reflexivity. Qed.
(** A redirected program also gets the descriptor that the shell saved its own
    output in. *)
Example saved_descriptor_leaks :
  (λ e, fds (who e) !! 4%nat) <$>
    (run all_well (run_command (CMD_REDIRECT (CMD_EXECUTE [lit "ls"]) (lit "out")) (RunContext [] 0 true)) plain_task).1 =
    [Some (Some (Given 1))].
Proof. by vm_compute. Qed.
(** The result of dup is not checked: with one free descriptor a redirection
    works, and the output of the shell itself goes to the file from then on. *)
Definition full_task : task :=
  Task [] 0 ([Some (Given 0); Some (Given 1); Some (Given 2); None] ++ replicate 1020 (Some (Given 3))) 0 7 7 None.
Example redirection_is_kept :
  match (run all_well (run_command (CMD_REDIRECT (CMD_EXECUTE [lit "ls"]) (lit "out")) (RunContext [] 0 true)) full_task).2 with
  | Returned rc s => rc = 0 ∧ fds s !! 1%nat = Some (Some (Target (lit "out")))
  | Over _ => False
  end.
Proof. by vm_compute. Qed.
