(* ===== verification/ShellWiring.v ===== *)
(** * Which programs a command of the shell runs, and on which descriptors

    A specification of what a command means for a kernel in which no call fails
    ([wired]): the programs in the order of the tree, their tables of descriptors
    and their process groups. The programs of
    ShellRun meet it, and with the parser of ShellParser the whole way from the
    line does. *)
From S2P Require Import Prelude Errno CString CLib Kernel Inode Path Process Libc ShellParser ShellRun.

(** ** A kernel without failures: which programs run on which descriptors *)

(** The programs that are executed, in the order in which they are forked, and
    the processes that become them. *)
Definition programs : Type := list (list (list Z) * task).
Definition executed (l : list ended) : programs :=
  omap (λ e, match how e with Executed argv => Some (argv, who e) | _ => None end) l.
Definition held (t : list (option object)) (x : object) : Prop := ∃ k : nat, t !! k = Some (Some x).
Definition holds_object (s : task) (x : object) : Prop := held (fds s) x.
(** Simple commands that are no builtins. *)
Fixpoint external (n : node (list Z)) : Prop :=
  match n with
  | CMD_EXECUTE argv => ∃ file args, argv = file :: args ∧ file ≠ lit "exit" ∧ file ≠ lit "cd"
  | CMD_JUXTAPOSITION lhs rhs | CMD_PIPE lhs rhs => external lhs ∧ external rhs
  | CMD_REDIRECT inner _ | CMD_BACKGROUND inner => external inner
  end.

(** The specification: in a shell whose table of descriptors is [t], a command that
    belongs to process group [g] (0 for a group of its own) runs these programs,
    each with this table. In a pipeline the left side has the pipe as its standard
    output and the right side as its standard input; a redirection replaces the
    standard output. Whatever the shell replaces for itself it keeps meanwhile in a
    free descriptor [j], and the programs that it starts then have that one too. *)
Inductive wired : list (option object) → Z → node (list Z) → programs → Prop :=
| wired_execute t g argv s :
    fds s = t → group s = (if g =? 0 then id s else g) → wired t g (CMD_EXECUTE argv) [(argv, s)]
| wired_juxtaposition t g lhs rhs l1 l2 :
    wired t g lhs l1 → wired t g rhs l2 → wired t g (CMD_JUXTAPOSITION lhs rhs) (l1 ++ l2)
| wired_pipe t g g' p i j lhs rhs l1 l2 :
    g' ≠ 0 → (g ≠ 0 → g' = g) →
    (** The pipe is a new one. *)
    ¬ held t (Reader p) → ¬ held t (Writer p) →
    t !! 0%nat = Some (Some i) → t !! j = Some None →
    wired (<[1%nat := Some (Writer p)]> t) g' lhs l1 →
    wired (<[0%nat := Some (Reader p)]> (<[j := Some i]> t)) g' rhs l2 →
    (** The right side sees the end of its input: nobody there can write. *)
    Forall (λ e, ¬ holds_object e.2 (Reader p)) l1 → Forall (λ e, ¬ holds_object e.2 (Writer p)) l2 →
    wired t g (CMD_PIPE lhs rhs) (l1 ++ l2)
| wired_redirect t g from to o j l :
    t !! 1%nat = Some (Some o) → t !! j = Some None →
    wired (<[1%nat := Some (Target to)]> (<[j := Some o]> t)) g from l → wired t g (CMD_REDIRECT from to) l
| wired_background t g g' inner l :
    g' ≠ 0 → wired t g' inner l → wired t g (CMD_BACKGROUND inner) l.

(** *** Places: the pipes a process and its children make from a call on *)
Definition made (s : task) (lo hi : nat) (p : place) : Prop :=
  ∃ j, (lo ≤ j < hi)%nat ∧ (p = (name s, j) ∨ ∃ k, p.1 = k ++ j :: name s).
Definition end_of (x : object) : option place :=
  match x with Reader p | Writer p => Some p | _ => None end.
(** No open file is a pipe still to be made. *)
Definition fresh_from (s : task) : Prop :=
  ∀ x p hi, holds_object s x → end_of x = Some p → ¬ made s (calls s) hi p.
Definition keeps (s : task) (hi : nat) (l : programs) : Prop :=
  Forall (λ e, ∀ x p, holds_object e.2 x → end_of x = Some p → holds_object s x ∨ made s (calls s) hi p) l.

Lemma made_mono s lo hi lo' hi' p : made s lo hi p → (lo' ≤ lo)%nat → (hi ≤ hi')%nat → made s lo' hi' p.
Proof. intros (j & Hj & Hp) ? ?. exists j. split; [lia|done]. Qed.
Lemma made_child s number lo hi p : made (child number s) lo hi p → made s (calls s) (S (calls s)) p.
Proof.
  intros (j & Hj & [->|(k & Hk)]); exists (calls s); (split; [lia|]); right.
  - by exists [].
  - exists (k ++ [j]). rewrite Hk. cbn [child name]. by rewrite <-app_assoc.
Qed.
Lemma made_apart s a b c d p : made s a b p → made s c d p → (b ≤ c)%nat → False.
Proof.
  intros (j & Hj & Hp) (j' & Hj' & Hp') Hbc. assert (j ≠ j') by lia.
  destruct Hp as [->|(k & Hk)], Hp' as [E|(k' & Hk')].
  - congruence.
  - apply (f_equal length) in Hk'. rewrite length_app in Hk'. cbn in Hk'. lia.
  - subst p. apply (f_equal length) in Hk. rewrite length_app in Hk. cbn in Hk. lia.
  - rewrite Hk in Hk'. apply app_inj_2 in Hk' as [_ [= ?]]; [done|done].
Qed.
Lemma made_here s hi j : (calls s ≤ j < hi)%nat → made s (calls s) hi (name s, j).
Proof. intros. exists j. split; [done|by left]. Qed.
Lemma not_made_child s number lo hi j : ¬ made (child number s) lo hi (name s, j).
Proof.
  intros (j' & _ & [E|(k & Hk)]).
  - injection E as E _. apply (f_equal length) in E. cbn in E. lia.
  - apply (f_equal length) in Hk. rewrite length_app in Hk. cbn in Hk. lia.
Qed.

Section wiring.
Context (oracle : list nat → nat → Z * Z).
(** No call fails, and no child is killed by a signal. *)
Context (good : ∀ n c, 0 < (oracle n c).1 ∧ WIFSIGNALED (oracle n c).2 = false).

Definition gwp {A} (m : prog A) (s : task) (Q : list ended → outcome A → Prop) : Prop :=
  let (l, r) := run oracle m s in Q l r.
Lemma gwp_bind {A B} (m : prog A) (f : A → prog B) s Q :
  gwp m s (λ l r, match r with
    | Returned a s' => gwp (f a) s' (λ l' r', Q (l ++ l') r')
    | Over e => Q l (Over e)
    end) → gwp (m ≫= f) s Q.
Proof.
  unfold gwp. rewrite run_bind. destruct (run oracle m s) as [l [a s'|e]]; [|done].
  by destruct (run oracle (f a) s').
Qed.
Lemma gwp_mono {A} (m : prog A) s (Q Q' : list ended → outcome A → Prop) :
  gwp m s Q → (∀ l r, Q l r → Q' l r) → gwp m s Q'.
Proof. unfold gwp. destruct (run oracle m s). eauto. Qed.

(** The state behind a call: only the table and the group may be new. *)
Definition after (s : task) (t : list (option object)) (g : Z) (s' : task) : Prop :=
  fds s' = t ∧ name s' = name s ∧ id s' = id s ∧ group s' = g ∧ calls s' = S (calls s).
Lemma answer_pos s : 0 < answer oracle s.
Proof. apply good. Qed.
Lemma library_pos rc : 0 ≤ rc → library rc = rc.
Proof. intros. unfold library. by rewrite (proj2 (Z.ltb_ge _ _)). Qed.
Lemma after_table rc t s : after s t (group s) (on_table (rc, t) s).
Proof. unfold on_table, noting, after. cbn. by case_match. Qed.
Lemma after_noting rc s : after s (fds s) (group s) (noting rc s).
Proof. unfold noting, after. by case_match. Qed.
Lemma gwp_dup {B} fd (f : Z → prog B) s rc t Q :
  do_dup fd (fds s) = (rc, t) → 0 ≤ rc → (∀ s', after s t (group s) s' → gwp (f rc) s' Q) → gwp (call (Dup fd) ≫= f) s Q.
Proof.
  intros H Hrc HQ. pose proof (HQ _ (after_table rc t s)) as Hg. unfold gwp in *. cbn. rewrite H. cbn [fst].
  by rewrite library_pos.
Qed.
Lemma gwp_dup2 {B} fd fd' (f : Z → prog B) s rc t Q :
  do_dup2 fd fd' (fds s) = (rc, t) → 0 ≤ rc → (∀ s', after s t (group s) s' → gwp (f rc) s' Q) → gwp (call (Dup2 fd fd') ≫= f) s Q.
Proof.
  intros H Hrc HQ. pose proof (HQ _ (after_table rc t s)) as Hg. unfold gwp in *. cbn. rewrite H. cbn [fst].
  by rewrite library_pos.
Qed.
Lemma gwp_close {B} fd (f : Z → prog B) s rc t Q :
  do_close fd (fds s) = (rc, t) → 0 ≤ rc → (∀ s', after s t (group s) s' → gwp (f rc) s' Q) → gwp (call (Close fd) ≫= f) s Q.
Proof.
  intros H Hrc HQ. pose proof (HQ _ (after_table rc t s)) as Hg. unfold gwp in *. cbn. rewrite H. cbn [fst].
  by rewrite library_pos.
Qed.
Lemma gwp_open {B} pathname flags mode (f : Z → prog B) s rc t Q :
  do_alloc (Target pathname) (fds s) = (rc, t) → 0 ≤ rc →
  (∀ s', after s t (group s) s' → gwp (f rc) s' Q) → gwp (call (Open pathname flags mode) ≫= f) s Q.
Proof.
  intros H Hrc HQ. pose proof (HQ _ (after_table rc t s)) as Hg. unfold gwp in *. cbn.
  rewrite (proj2 (Z.ltb_ge (answer oracle s) 0)) by (pose proof (answer_pos s); lia). rewrite H. cbn [fst].
  by rewrite library_pos.
Qed.
Lemma gwp_getpid {B} (f : Z → prog B) s Q :
  (∀ s', after s (fds s) (group s) s' → gwp (f (id s)) s' Q) → gwp (call Getpid ≫= f) s Q.
Proof. intros HQ. exact (HQ (tick s) ltac:(done)). Qed.
Lemma gwp_setpgid {B} g (f : Z → prog B) s Q :
  (∀ rc s', 0 < rc → after s (fds s) (if g =? 0 then id s else g) s' → gwp (f rc) s' Q) →
  gwp (call (Setpgid 0 g) ≫= f) s Q.
Proof.
  intros HQ. pose proof (answer_pos s) as Hp. specialize (HQ (answer oracle s)). unfold gwp in *. cbn.
  rewrite (proj2 (Z.leb_le 0 (answer oracle s))), library_pos by lia. apply HQ; [done|]. apply (after_noting _ (set_group _ s)).
Qed.
Lemma gwp_tcsetpgrp {B} fd g (f : Z → prog B) s Q :
  (∀ s', after s (fds s) (group s) s' → gwp (f (answer oracle s)) s' Q) → gwp (call (Tcsetpgrp fd g) ≫= f) s Q.
Proof.
  intros HQ. pose proof (answer_pos s) as Hp. unfold gwp in *. cbn.
  rewrite (proj2 (Z.leb_le 0 (answer oracle s))), library_pos by lia. apply HQ, (after_noting _ (set_tty _ s)).
Qed.
Lemma gwp_waitpid {A} target options (k : Z → Z → prog A) s Q :
  (∀ rc st s', 0 < rc → WIFSIGNALED st = false → after s (fds s) (group s) s' → gwp (k rc st) s' Q) →
  gwp (Waitpid target options k) s Q.
Proof.
  intros HQ. pose proof (answer_pos s) as Hp. specialize (HQ (answer oracle s) (status_of oracle s)).
  unfold gwp in *. cbn. rewrite library_pos by lia. apply HQ; [done|apply good|apply after_noting].
Qed.
(** A child that ends as [e], having forked [l]. *)
Lemma gwp_fork {B} c (f : Z → prog B) s (P : list ended → ended → Prop) Q :
  gwp c (child (answer oracle s) s) (λ l r, ∃ e, r = Over e ∧ P l e) →
  (∀ l e s', P l e → after s (fds s) (group s) s' → gwp (f (answer oracle s)) s' (λ l' r', Q (l ++ e :: l') r')) →
  gwp (call (Fork c) ≫= f) s Q.
Proof.
  intros Hc HQ. pose proof (answer_pos s) as Hp. unfold gwp in *. cbn. rewrite (proj2 (Z.ltb_lt 0 _)) by done.
  destruct (run oracle c _) as [l r]. destruct Hc as (e & -> & HP).
  specialize (HQ l e (tick s) HP ltac:(done)).
  by destruct (run oracle (f _) (tick s)).
Qed.
Lemma gwp_pipe {A} (k : Z → Z → Z → prog A) s fd0 fd1 t Q :
  do_pipe (name s, calls s) (fds s) = (0, fd0, fd1, t) →
  (∀ s', after s t (group s) s' → gwp (k 0 fd0 fd1) s' Q) → gwp (Pipe k) s Q.
Proof.
  intros H HQ. unfold gwp in *. cbn. rewrite (proj2 (Z.ltb_ge (answer oracle s) 0)) by (pose proof (answer_pos s); lia).
  rewrite H. apply HQ, after_table.
Qed.
Lemma gwp_return {A} (a : A) s (Q : list ended → outcome A → Prop) : Q [] (Returned a s) → gwp (mret a) s Q.
Proof. done. Qed.

Lemma gwp_errno {B} (f : Z → prog B) s Q : gwp (f (error s)) s Q → gwp (call GetErrno ≫= f) s Q.
Proof. done. Qed.
Lemma gwp_set_errno {A} e (a : A) s (Q : list ended → outcome A → Prop) :
  Q [] (Returned a (set_error e s)) → gwp (SetErrno e (mret a)) s Q.
Proof. done. Qed.

(** What is proved of every command. *)
Definition ran (n : node (list Z)) (g : Z) (s : task) (l : list ended) (r : outcome Z) : Prop :=
  ∃ rc s', r = Returned rc s' ∧ 0 ≤ rc ∧ fds s' = fds s ∧ name s' = name s ∧ (calls s ≤ calls s')%nat ∧
    wired (fds s) g n (executed l) ∧ keeps s (calls s') (executed l).
Definition runs (m : run_context → prog Z) (n : node (list Z)) : Prop :=
  ∀ ctx s, table_ok (fds s) → (needs n ≤ free (fds s))%nat → fresh_from s → gwp (m ctx) s (ran n (pgid ctx) s).

Lemma child_execute_runs argv file ctx s :
  gwp (child_execute argv file ctx) s (λ l r, ∃ e, r = Over e ∧ l = [] ∧ how e = Executed argv ∧
    fds (who e) = fds s ∧ group (who e) = (if pgid ctx =? 0 then id (who e) else pgid ctx)).
Proof.
  unfold child_execute. apply gwp_bind.
  assert (Hg : ∀ g s1, fds s1 = fds s → id s1 = id s → g = (if pgid ctx =? 0 then id s else pgid ctx) →
    gwp (rc ← call (Setpgid 0 g);
         if rc <? 0 then Message (lit "setpgpid") Abort
         else _ ← (if foreground ctx then call (Tcsetpgrp STDERR_FILENO g) else mret 0);
              rc ← call (Execvpe file argv (envp ctx)); Message (lit "execvpe") Abort) s1
      (λ l r, ∃ e, r = @Over Empty_set e ∧ l = [] ∧ how e = Executed argv ∧ fds (who e) = fds s ∧
        group (who e) = (if pgid ctx =? 0 then id (who e) else pgid ctx))).
  { intros g s1 Hf Hi Hg. apply gwp_setpgid. intros rc s2 Hrc (Hf2 & _ & Hi2 & Hg2 & _).
    rewrite (proj2 (Z.ltb_ge rc 0)) by lia.
    assert (Hexec : ∀ s3, fds s3 = fds s → id s3 = id s → group s3 = group s2 →
      gwp (rc ← call (Execvpe file argv (envp ctx)); Message (lit "execvpe") Abort) s3
        (λ l r, ∃ e, r = @Over Empty_set e ∧ l = [] ∧ how e = Executed argv ∧ fds (who e) = fds s ∧
          group (who e) = (if pgid ctx =? 0 then id (who e) else pgid ctx))).
    { intros s3 Hf3 Hi3 Hg3. unfold gwp. cbn.
      rewrite (proj2 (Z.ltb_ge (answer oracle s3) 0)) by (pose proof (answer_pos s3); lia).
      eexists. split_and!; [done..| |]; cbn [who]; [congruence|]. rewrite Hg3, Hg2, Hi3, Hg, Hi.
      by destruct (pgid ctx =? 0) eqn:E; [destruct (id s =? 0)|rewrite E]. }
    destruct (foreground ctx).
    - apply gwp_tcsetpgrp. intros s3 (Hf3 & _ & Hi3 & Hg3 & _). apply Hexec; congruence.
    - apply Hexec; congruence. }
  destruct (pgid ctx =? 0) eqn:E.
  - change (gwp (call Getpid) s ?Q) with (gwp (call Getpid ≫= mret) s Q). apply gwp_getpid.
    intros s1 (Hf1 & _ & Hi1 & _). apply gwp_return. by apply Hg.
  - apply gwp_return. by apply Hg.
Qed.

Lemma run_execute_runs argv : external (CMD_EXECUTE argv) → runs (run_execute argv) (CMD_EXECUTE argv).
Proof.
  intros (file & args & -> & Hexit & Hcd) ctx s Ht Hneed Hfresh. unfold run_execute.
  rewrite decide_False by done. rewrite decide_False by done.
  eapply gwp_fork; [apply child_execute_runs|]. intros l e s1 (-> & He & Hfe & Hge) (Hf1 & Hn1 & _ & _ & Hc1).
  rewrite (proj2 (Z.ltb_ge _ 0)) by (pose proof (answer_pos s); lia).
  apply gwp_waitpid. intros rc st s2 Hrc Hst (Hf2 & Hn2 & _ & _ & Hc2).
  rewrite (proj2 (Z.ltb_ge _ 0)), Hst by lia. apply gwp_return.
  exists 0, s2. cbn [app executed omap list_omap]. rewrite He.
  split_and!; [done|done|congruence|congruence|lia| |].
  - cbn [child fds] in Hfe. by constructor.
  - apply Forall_singleton. intros x p (k & Hk) _. left. exists k. cbn [snd] in Hk. by rewrite Hfe in Hk.
Qed.

(** Steps of the same process, seen from its beginning. *)
Lemma holds_same s s' x : fds s' = fds s → holds_object s' x → holds_object s x.
Proof. intros Hf (k & Hk). exists k. by rewrite <-Hf. Qed.
Lemma made_same s s' lo hi p : name s' = name s → made s' lo hi p → made s lo hi p.
Proof. unfold made. by intros ->. Qed.
Lemma fresh_later s s' : fresh_from s → fds s' = fds s → name s' = name s → (calls s ≤ calls s')%nat → fresh_from s'.
Proof.
  intros Hf Hfd Hn Hc x p hi Hx Hp Hm. apply (Hf x p hi); [by eapply holds_same|done|].
  eapply made_mono; [by eapply made_same|done|done].
Qed.
Lemma keeps_later s s' hi l :
  keeps s' hi l → fds s' = fds s → name s' = name s → (calls s ≤ calls s')%nat → keeps s hi l.
Proof.
  intros Hk Hf Hn Hc. eapply Forall_impl; [exact Hk|]. intros e He x p Hx Hp.
  destruct (He x p Hx Hp) as [H|H]; [left; by eapply holds_same|right].
  eapply made_mono; [by eapply made_same|done|done].
Qed.
Lemma keeps_mono s hi hi' l : keeps s hi l → (hi ≤ hi')%nat → keeps s hi' l.
Proof.
  intros Hk Hle. eapply Forall_impl; [exact Hk|]. intros e He x p Hx Hp.
  destruct (He x p Hx Hp); [by left|right; by eapply made_mono].
Qed.
Lemma executed_app l l' : executed (l ++ l') = executed l ++ executed l'.
Proof. apply omap_app. Qed.

Lemma run_juxtaposition_runs lhs rhs m1 m2 :
  runs m1 lhs → runs m2 rhs → runs (run_juxtaposition m1 m2) (CMD_JUXTAPOSITION lhs rhs).
Proof.
  intros H1 H2 ctx s Ht Hneed Hfresh. cbn [needs] in Hneed. unfold run_juxtaposition. apply gwp_bind.
  eapply gwp_mono; [apply H1; [done|lia|done]|]. intros l r (rc & s1 & -> & Hrc & Hf1 & Hn1 & Hc1 & Hw1 & Hk1).
  rewrite (proj2 (Z.ltb_ge rc 0)) by lia.
  eapply gwp_mono; [apply H2; [by rewrite Hf1|rewrite Hf1; lia|by eapply fresh_later]|].
  intros l' r' (rc' & s2 & -> & Hrc' & Hf2 & Hn2 & Hc2 & Hw2 & Hk2).
  exists rc', s2. split_and!; [done|done|congruence|congruence|lia| |].
  - rewrite executed_app. constructor; [done|]. by rewrite <-Hf1.
  - rewrite executed_app. apply Forall_app. split; [by eapply keeps_mono|]. by eapply keeps_later.
Qed.

(** A forked process: its name is behind the number of the call that forked it. *)
Lemma made_in_child s s' j lo hi p : name s' = j :: name s → made s' lo hi p → ∃ k, p.1 = k ++ j :: name s.
Proof.
  intros Hn (j' & _ & [->|(k & Hk)]); rewrite Hn in *; [by exists []|].
  exists (k ++ [j']). by rewrite <-app_assoc.
Qed.
Lemma fresh_child s s' j :
  fresh_from s → name s' = j :: name s → (calls s ≤ j)%nat →
  (∀ x p, holds_object s' x → end_of x = Some p → holds_object s x ∨ p.1 = name s) → fresh_from s'.
Proof.
  intros Hf Hn Hj Hh x p hi Hx Hp Hm. apply (made_in_child s s' j) in Hm as [k Hk]; [|done].
  destruct (Hh x p Hx Hp) as [H|H].
  - apply (Hf x p (S j) H Hp). exists j. split; [lia|]. right. by exists k.
  - rewrite H in Hk. apply (f_equal length) in Hk. rewrite length_app in Hk. cbn in Hk. lia.
Qed.
Lemma keeps_child s s' j hi hi' l :
  keeps s' hi' l → name s' = j :: name s → (calls s ≤ j < hi)%nat →
  (∀ x p, holds_object s' x → end_of x = Some p → holds_object s x ∨ made s (calls s) hi p) → keeps s hi l.
Proof.
  intros Hk Hn Hj Hh. eapply Forall_impl; [exact Hk|]. intros e He x p Hx Hp.
  destruct (He x p Hx Hp) as [H|H]; [by apply Hh|]. right.
  apply (made_in_child s s' j) in H as [k Hpk]; [|done]. exists j. split; [lia|]. right. by exists k.
Qed.

Lemma run_background_runs m inner : runs m inner → runs (run_background m) (CMD_BACKGROUND inner).
Proof.
  intros Hm ctx s Ht Hneed Hfresh. cbn [needs] in Hneed. unfold run_background. set (pid := answer oracle s).
  assert (Hpid : 0 < pid) by apply answer_pos.
  eapply (gwp_fork _ _ _ (λ l e, how e = Exited 0 ∧
    wired (fds s) pid inner (executed l) ∧ keeps s (S (calls s)) (executed l))).
  - unfold child_background. apply gwp_getpid. intros s1 (Hf1 & Hn1 & _ & _ & Hc1). cbn [child id fds name calls] in *.
    apply gwp_bind. eapply gwp_mono.
    { apply Hm; [by rewrite Hf1|by rewrite Hf1|]. eapply (fresh_child s s1); [done|done|lia|].
      intros x p Hx _. left. by eapply holds_same. }
    intros l r (rc & s2 & -> & Hrc & Hf2 & Hn2 & Hc2 & Hw & Hk). cbn [pgid] in Hw.
    rewrite (proj2 (Z.eqb_neq rc RUN_ERROR)) by (unfold RUN_ERROR; lia). eexists. split; [done|]. rewrite app_nil_r.
    split; [done|]. split; [by rewrite <-Hf1|].
    eapply keeps_child; [exact Hk|done|lia|]. intros x p Hx _. left. by eapply holds_same.
  - intros l e s1 (He & Hw & Hk) (Hf1 & Hn1 & _ & _ & Hc1). rewrite (proj2 (Z.ltb_ge _ 0)) by lia.
    apply gwp_return. exists 0, s1. assert (Hl : executed (l ++ [e]) = executed l).
    { rewrite executed_app. cbn [executed omap list_omap]. by rewrite He, app_nil_r. }
    rewrite Hl. split_and!; [done|done|done|done|lia| |].
    + apply (wired_background _ _ pid); [lia|done].
    + eapply keeps_mono; [exact Hk|lia].
Qed.
Lemma held_insert t k x y : held (<[k := Some x]> t) y → y = x ∨ held t y.
Proof.
  intros (i & Hi). destruct (decide (i = k)) as [->|].
  - pose proof (lookup_lt_Some _ _ _ Hi) as Hl. rewrite length_insert in Hl.
    rewrite list_lookup_insert_eq in Hi by done. left. congruence.
  - rewrite list_lookup_insert_ne in Hi by done. right. by exists i.
Qed.
Lemma held_lend t k j ok x y : t !! k = Some (Some ok) → held (<[k := Some x]> (<[j := Some ok]> t)) y → y = x ∨ held t y.
Proof. intros Hk [->|[->|H]%held_insert]%held_insert; [by left| |by right]. right. by exists k. Qed.
Lemma run_redirect_runs m from to : runs m from → runs (run_redirect m to) (CMD_REDIRECT from to).
Proof.
  intros Hm ctx s Ht Hneed Hfresh. cbn [needs] in Hneed. unfold run_redirect.
  destruct (lend_open (Target to) (fds s) Ht ltac:(lia)) as (i & j & o & Ho & Hj & Ha & Hdup & Hdup2 & Hc & Hi).
  eapply gwp_open; [exact Ha|lia|]. intros s1 (Hf1 & Hn1 & _ & _ & Hc1). rewrite (proj2 (Z.ltb_ge (Z.of_nat i) 0)) by lia.
  eapply gwp_dup; [rewrite Hf1; exact Hdup|lia|]. intros s2 (Hf2 & Hn2 & _ & _ & Hc2).
  eapply gwp_dup2; [rewrite Hf2; exact Hdup2|lia|]. intros s3 (Hf3 & Hn3 & _ & _ & Hc3).
  eapply gwp_close; [rewrite Hf3; exact Hc|lia|]. intros s4 (Hf4 & Hn4 & _ & _ & Hc4).
  destruct (table_ok_lend (fds s) 1 j o (Target to) Ht ltac:(lia) Ho Hj) as [Ht4 Hfree].
  assert (Hheld : ∀ x p, holds_object s4 x → end_of x = Some p → holds_object s x).
  { intros x p Hx Hp. unfold holds_object in Hx. rewrite Hf4 in Hx. by apply (held_lend _ _ _ _ _ _ Ho) in Hx as [->|Hx]. }
  assert (Hfresh4 : fresh_from s4).
  { intros x p hi Hx Hp Hmade. apply (Hfresh x p hi); [by eapply Hheld|done|].
    eapply made_mono; [by eapply (made_same s s4); [congruence|]|lia|done]. }
  apply gwp_bind. eapply gwp_mono; [apply Hm; [by rewrite Hf4|rewrite Hf4; lia|done]|].
  intros l r (rc & s5 & -> & Hrc & Hf5 & Hn5 & Hc5 & Hw & Hk). rewrite Hf4 in Hf5.
  destruct (give_back (fds s) (fds s5) 1 j o (Target to)) as (Hd & Hcl & _ & Hback);
    [apply Ht|done|done|by rewrite Hf5|]. specialize (Hback Hf5).
  apply gwp_errno. eapply gwp_dup2; [exact Hd|lia|]. intros s6 (Hf6 & Hn6 & _ & _ & Hc6).
  eapply gwp_close; [rewrite Hf6; exact Hcl|lia|]. intros s7 (Hf7 & Hn7 & _ & _ & Hc7). apply gwp_set_errno.
  exists rc, (set_error (error s5) s7). cbn [set_error fds name calls]. rewrite app_nil_r.
  split_and!; [done|done|congruence|congruence|lia| |].
  - apply (wired_redirect _ _ _ _ o j); [done|done|]. by rewrite <-Hf4.
  - eapply Forall_impl; [exact Hk|]. intros e He x p Hx Hp. destruct (He x p Hx Hp) as [H|H]; [left; by eapply Hheld|].
    right. eapply made_mono; [by eapply (made_same s s4); [congruence|]|lia|lia].
Qed.

(** The left side of a pipe [p] whose ends are at [i0] and [i1]. *)
Definition left_ran (t : list (option object)) (s : task) (p : place) (g : Z) (lhs : node (list Z)) (l : list ended) (e : ended)
    : Prop :=
  how e = Exited 0 ∧ wired (<[1%nat := Some (Writer p)]> t) g lhs (executed l) ∧
  Forall (λ e, ∀ x q, holds_object e.2 x → end_of x = Some q →
    held t x ∨ x = Writer p ∨ made s (calls s) (S (calls s)) q) (executed l).
Lemma child_left_runs m lhs ctx s s4 t p g :
  runs m lhs → table_ok t → (needs lhs ≤ free t)%nat → pgid ctx = g →
  fds s4 = <[1%nat := Some (Writer p)]> t → name s4 = calls s :: name s →
  p.1 = name s → (∀ x q hi, held t x → end_of x = Some q → ¬ made s (calls s) hi q) →
  gwp (rc ← m ctx;
       if rc =? RUN_ERROR then Message (lit "run_command") Abort
       else _ ← call (Close STDOUT_FILENO); Exit 0) s4
    (λ l r, ∃ e, r = @Over Empty_set e ∧ left_ran t s p g lhs l e).
Proof.
  intros Hm Ht Hneed Hg Hf4 Hnm4 Hp Hfresh. destruct (ok_stdio t Ht 1) as [o1 Ho1]; [lia|].
  assert (Hheld : ∀ x, holds_object s4 x → x = Writer p ∨ held t x)
    by (intros x Hx; unfold holds_object in Hx; rewrite Hf4 in Hx; by eapply held_insert).
  apply gwp_bind. eapply gwp_mono.
  { apply Hm; [rewrite Hf4; apply (table_ok_replace t 1 o1); [done|lia|done]|rewrite Hf4; by rewrite (free_replace t 1 o1)|].
    intros x q hi Hx Hq Hmade. apply (made_in_child s s4 (calls s)) in Hmade as [k Hk]; [|done].
    destruct (Hheld x Hx) as [->|Hx'].
    - injection Hq as <-. rewrite Hp in Hk. apply (f_equal length) in Hk. rewrite length_app in Hk. cbn in Hk. lia.
    - apply (Hfresh x q (S (calls s)) Hx' Hq). exists (calls s). split; [lia|]. right. by exists k. }
  intros l r (rc & s5 & -> & Hrc & Hf5 & Hnm5 & _ & Hw & Hk).
  rewrite (proj2 (Z.eqb_neq rc RUN_ERROR)) by (unfold RUN_ERROR; lia).
  assert (Hcl : do_close STDOUT_FILENO (fds s5) = (0, <[1%nat := None]> (fds s5))).
  { unfold do_close. change STDOUT_FILENO with (Z.of_nat 1). erewrite object_at_run; [done| |].
    - rewrite Hf5, Hf4, length_insert. apply Ht.
    - rewrite Hf5, Hf4. apply list_lookup_insert_eq. by eapply lookup_lt_Some. }
  eapply gwp_close; [exact Hcl|lia|]. intros s6 _. eexists. split; [done|]. rewrite app_nil_r.
  split; [done|]. split.
  - by rewrite <-Hg, <-Hf4.
  - eapply Forall_impl; [exact Hk|]. intros e He x q Hx Hq. destruct (He x q Hx Hq) as [H|H].
    + destruct (Hheld x H) as [->|H']; [right; by left|by left].
    + right. right. apply (made_in_child s s4 (calls s)) in H as [k Hpk]; [|done].
      exists (calls s). split; [lia|]. right. by exists k.
Qed.
Lemma child_pipe_runs m lhs ctx s t p i0 i1 number :
  runs m lhs → table_ok t → (needs lhs ≤ free t)%nat →
  fds s = <[i1 := Some (Writer p)]> (<[i0 := Some (Reader p)]> t) → t !! i0 = Some None → t !! i1 = Some None →
  i0 ≠ i1 → (3 ≤ i0)%nat → (3 ≤ i1)%nat →
  p.1 = name s → (∀ x q hi, held t x → end_of x = Some q → ¬ made s (calls s) hi q) →
  gwp (child_pipe (Z.of_nat i0) (Z.of_nat i1) m ctx) (child number s) (λ l r, ∃ e, r = Over e ∧
    left_ran t s p (if pgid ctx =? 0 then number else pgid ctx) lhs l e).
Proof.
  intros Hm Ht Hneed Hf0 Hn0 Hn1 Hne Hi0 Hi1 Hp Hfresh. unfold child_pipe.
  destruct (child_table p t i0 i1 Ht Hn0 Hn1 Hne Hi0 Hi1) as (Hd & Hc0 & Hc1). rewrite <-Hf0 in Hd, Hc0, Hc1.
  eapply gwp_dup2; [exact Hd|lia|]. intros s1 (Hf1 & Hnm1 & Hid1 & _).
  eapply gwp_close; [rewrite Hf1; exact Hc0|lia|]. intros s2 (Hf2 & Hnm2 & Hid2 & _).
  eapply gwp_close; [rewrite Hf2; exact Hc1|lia|]. intros s3 (Hf3 & Hnm3 & Hid3 & _).
  set (g := if pgid ctx =? 0 then number else pgid ctx).
  apply gwp_bind.
  assert (Hleft : ∀ s4, fds s4 = fds s3 → name s4 = name s3 →
    gwp (rc ← m (with_pgid g ctx);
         if rc =? RUN_ERROR then Message (lit "run_command") Abort
         else _ ← call (Close STDOUT_FILENO); Exit 0) s4
      (λ l r, ∃ e, r = @Over Empty_set e ∧ left_ran t s p g lhs l e)).
  { intros s4 Hf4 Hnm4. rewrite Hf3 in Hf4. rewrite Hnm3, Hnm2, Hnm1 in Hnm4. by eapply child_left_runs. }
  unfold g in Hleft. destruct (pgid ctx =? 0).
  - change (gwp (call Getpid) s3 ?Q) with (gwp (call Getpid ≫= mret) s3 Q). apply gwp_getpid.
    intros s4 (Hf4 & Hnm4 & Hid4 & _). apply gwp_return. cbn [app].
    replace (id s3) with number by (rewrite Hid3, Hid2, Hid1; done). by apply Hleft.
  - apply gwp_return. by apply Hleft.
Qed.

(** The right side and the end of a pipe, in the process itself. *)
Lemma pipe_right_runs m rhs ctx s s2 p o j pid :
  runs m rhs → table_ok (fds s) → (1 + needs rhs ≤ free (fds s))%nat → fresh_from s → p = (name s, calls s) →
  fds s !! 0%nat = Some (Some o) → fds s !! j = Some None →
  fds s2 = <[0%nat := Some (Reader p)]> (<[j := Some o]> (fds s)) → name s2 = name s → (calls s < calls s2)%nat →
  gwp (rc ← m ctx;
       if rc <? 0 then
         saved_errno ← call GetErrno;
         _ ← call (Dup2 (Z.of_nat j) STDIN_FILENO);
         _ ← call (Close (Z.of_nat j));
         SetErrno saved_errno (mret rc)
       else
         _ ← call (Dup2 (Z.of_nat j) STDIN_FILENO);
         _ ← call (Close (Z.of_nat j));
         Waitpid pid 0 (λ rc _, mret rc)) s2
    (λ l r, ∃ rc s', r = Returned rc s' ∧ 0 ≤ rc ∧ fds s' = fds s ∧ name s' = name s ∧ (calls s2 ≤ calls s')%nat ∧
      wired (<[0%nat := Some (Reader p)]> (<[j := Some o]> (fds s))) (pgid ctx) rhs (executed l) ∧
      Forall (λ e, ¬ holds_object e.2 (Writer p)) (executed l) ∧ keeps s (calls s') (executed l)).
Proof.
  intros Hm Ht Hneed Hfresh Hp Ho Hj Hf2 Hn2 Hc2.
  destruct (table_ok_lend (fds s) 0 j o (Reader p) Ht ltac:(lia) Ho Hj) as [Ht2 Hfree].
  pose proof (lookup_lt_Some _ _ _ Ho) as Hl0.
  assert (Hheld : ∀ x, holds_object s2 x → x = Reader p ∨ holds_object s x)
    by (intros x Hx; unfold holds_object in Hx; rewrite Hf2 in Hx; by eapply held_lend).
  assert (Hhere : ∀ hi, (calls s < hi)%nat → made s (calls s) hi p) by (intros; rewrite Hp; apply made_here; lia).
  assert (Hfresh2 : fresh_from s2).
  { intros x q hi Hx Hq Hmade. apply (made_same s) in Hmade; [|done]. destruct (Hheld x Hx) as [->|Hx'].
    - injection Hq as <-. eapply (made_apart s _ (S (calls s))); [apply Hhere; lia|exact Hmade|lia].
    - apply (Hfresh x q hi Hx' Hq). eapply made_mono; [exact Hmade|lia|done]. }
  apply gwp_bind. eapply gwp_mono; [apply Hm; [by rewrite Hf2|rewrite Hf2; lia|done]|].
  intros l r (rc & s3 & -> & Hrc & Hf3 & Hn3 & Hc3 & Hw & Hk). rewrite Hf2 in Hf3.
  rewrite (proj2 (Z.ltb_ge rc 0)) by lia.
  destruct (give_back (fds s) (fds s3) 0 j o (Reader p)) as (Hd & Hcl & _ & Hback);
    [apply Ht|done|done|by rewrite Hf3|]. specialize (Hback Hf3).
  eapply gwp_dup2; [exact Hd|lia|]. intros s4 (Hf4 & Hn4 & _ & _ & Hc4).
  eapply gwp_close; [rewrite Hf4; exact Hcl|lia|]. intros s5 (Hf5 & Hn5 & _ & _ & Hc5).
  apply gwp_waitpid. intros rc' st s6 Hrc' _ (Hf6 & Hn6 & _ & _ & Hc6). apply gwp_return.
  exists rc', s6. rewrite app_nil_r. split_and!; [done|lia|congruence|congruence|lia| | |].
  - by rewrite <-Hf2.
  - eapply Forall_impl; [exact Hk|]. intros e He Hx. destruct (He _ p Hx eq_refl) as [H|H].
    + destruct (Hheld _ H) as [[=]|H']. apply (Hfresh _ p (S (calls s)) H' eq_refl). apply Hhere. lia.
    + apply (made_same s) in H; [|done]. eapply (made_apart s _ (S (calls s))); [apply Hhere; lia|exact H|lia].
  - eapply Forall_impl; [exact Hk|]. intros e He x q Hx Hq. destruct (He x q Hx Hq) as [H|H].
    + destruct (Hheld x H) as [->|H']; [|by left]. right. injection Hq as <-. apply Hhere. lia.
    + right. apply (made_same s) in H; [|done]. eapply made_mono; [exact H|lia|lia].
Qed.
Lemma run_pipe_runs m1 m2 lhs rhs : runs m1 lhs → runs m2 rhs → runs (run_pipe m1 m2) (CMD_PIPE lhs rhs).
Proof.
  intros Hm1 Hm2 ctx s Ht Hneed Hfresh. cbn [needs] in Hneed. unfold run_pipe. set (p := (name s, calls s)).
  destruct (lend_pipe p (fds s) Ht ltac:(lia))
    as (i0 & i1 & j & o & t1 & Ho & Hj & Hpipe & Hdup & Hdup2 & Hc0 & Hc1 & -> & Hn0 & Hn1 & Hne & Hi0 & Hi1).
  eapply gwp_pipe; [exact Hpipe|]. intros s1 (Hf1 & Hnm1 & _ & _ & Hk1). cbn [Z.ltb Z.compare].
  eapply gwp_fork.
  { eapply (child_pipe_runs m1 lhs ctx s1 (fds s) p); try done; [lia|].
    intros x q hi Hx Hq Hmade. apply (Hfresh x q hi Hx Hq). apply (made_same s) in Hmade; [|done].
    eapply made_mono; [exact Hmade|lia|done]. }
  intros l1 e s2 (He & Hw1 & Hk) (Hf2 & Hnm2 & _ & _ & Hk2).
  set (g := if pgid ctx =? 0 then answer oracle s1 else pgid ctx) in *.
  pose proof (answer_pos s1) as Hpid.
  assert (Hg0 : g ≠ 0) by (unfold g; case_match; bool_to_prop; lia).
  rewrite (proj2 (Z.ltb_ge (answer oracle s1) 0)) by lia.
  rewrite <-Hf1, <-Hf2 in Hdup. eapply gwp_dup; [exact Hdup|lia|]. intros s3 (Hf3 & Hnm3 & _ & _ & Hk3).
  rewrite Hf2, Hf1 in Hf3. eapply gwp_dup2; [rewrite Hf3; exact Hdup2|lia|]. intros s4 (Hf4 & Hnm4 & _ & _ & Hk4).
  eapply gwp_close; [rewrite Hf4; exact Hc0|lia|]. intros s5 (Hf5 & Hnm5 & _ & _ & Hk5).
  eapply gwp_close; [rewrite Hf5; exact Hc1|lia|]. intros s6 (Hf6 & Hnm6 & _ & _ & Hk6).
  eapply gwp_mono.
  { eapply (pipe_right_runs m2 rhs _ s s6 p o j); [done|done|lia|done|done|done|done|done|congruence|lia]. }
  intros l2 r (rc & s7 & -> & Hrc & Hf7 & Hnm7 & Hc7 & Hw2 & Hnot & Hk7).
  assert (Hnew : ∀ x, end_of x = Some p → ¬ held (fds s) x).
  { intros x Hx H. apply (Hfresh x p (S (calls s)) H Hx). apply made_here. lia. }
  exists rc, s7. assert (Hl : executed (l1 ++ e :: l2) = executed l1 ++ executed l2).
  { rewrite executed_app. cbn [executed omap list_omap]. by rewrite He. }
  rewrite Hl. split_and!; [done|done|done|done|lia| |].
  - apply (wired_pipe _ _ g p o j); [exact Hg0| |by apply Hnew|by apply Hnew|done|done|done|done| |done].
    + intros Hg. subst g. by rewrite (proj2 (Z.eqb_neq _ 0)).
    + eapply Forall_impl; [exact Hk|]. intros e' He' Hx. destruct (He' _ p Hx eq_refl) as [H|[[=]|H]].
      * apply (Hfresh _ p (S (calls s)) H eq_refl). apply made_here. lia.
      * apply (made_same s) in H; [|done]. eapply (made_apart s _ (S (calls s))); [apply (made_here s _ (calls s)); lia|exact H|lia].
  - apply Forall_app. split; [|done]. eapply Forall_impl; [exact Hk|]. intros e' He' x q Hx Hq.
    destruct (He' x q Hx Hq) as [H|[->|H]]; [by left| |].
    + injection Hq as <-. right. apply made_here. lia.
    + right. apply (made_same s) in H; [|done]. eapply made_mono; [exact H|lia|lia].
Qed.

(** When no call fails, a command of external programs runs exactly the
    programs of its tree, in the order of the tree and with the arguments
    written, with the descriptors that [wired] says. The shell's descriptors are
    as before. *)
Lemma run_command_wires n ctx s :
  external n → table_ok (fds s) → (needs n ≤ free (fds s))%nat → fresh_from s →
  ∃ l rc s', run oracle (run_command n ctx) s = (l, Returned rc s') ∧ 0 ≤ rc ∧ fds s' = fds s ∧
    wired (fds s) (pgid ctx) n (executed l).
Proof.
  intros Hn Ht Hneed Hfresh.
  assert (Hruns : runs (run_command n) n).
  { clear -Hn good. induction n as [argv|lhs IHl rhs IHr|lhs IHl rhs IHr|from IH to|inner IH]; cbn [external] in Hn.
    - by apply run_execute_runs.
    - apply run_juxtaposition_runs; [apply IHl|apply IHr]; apply Hn.
    - apply run_pipe_runs; [apply IHl|apply IHr]; apply Hn.
    - by apply run_redirect_runs, IH.
    - by apply run_background_runs, IH. }
  pose proof (Hruns ctx s Ht Hneed Hfresh) as H. unfold gwp in H.
  destruct (run oracle (run_command n ctx) s) as [l r]. destruct H as (rc & s' & -> & Hrc & Hf & _ & _ & Hw & _).
  by exists l, rc, s'.
Qed.
End wiring.

(** C24: From the line to the programs: for every sentence of the shell's grammar
    without builtins, written on the line with any white space, the parser
    returns a tree, and running it under a kernel in which no call fails
    executes exactly the programs of the sentence, in its order and with the
    arguments written, all programs of a pipeline in one process group. The whole
    table of descriptors of each program is given: the shell's, with standard
    input and output connected as the pipes and redirections say, and besides,
    for a program to the right of a pipe or inside a redirection, the descriptor
    in which the shell keeps what it replaced (in a | b | c the program c also
    holds the reading end of the first pipe). No program to the right of a pipe
    can write to it, so that readers see the end of their input. The shell's own
    descriptors are as before. *)
Theorem line_runs sen p ms st :
  ShellParser.after (line st) p (tokens sen) → sentence_ok sen → external (tree sen) →
  mallocs st = replicate (sentence_size sen) true ++ ms →
  wp (parse p) (λ r st', ∃ n, r = Some n ∧
    ∀ oracle ctx s,
      (∀ n c, 0 < (oracle n c).1 ∧ WIFSIGNALED (oracle n c).2 = false) →
      table_ok (fds s) → (needs (tree sen) ≤ free (fds s))%nat → fresh_from s →
      ∃ l rc s', run oracle (run_command (node_map (string_at (line st')) n) ctx) s = (l, Returned rc s') ∧
        0 ≤ rc ∧ fds s' = fds s ∧ wired (fds s) (pgid ctx) (tree sen) (executed l)) st.
Proof.
  intros Hl Hok Hext Hm. eapply wp_mono; [by eapply sentence_parses_wp|].
  intros r st' (_ & n & -> & Htree). exists n. split; [done|]. rewrite Htree. intros.
  by apply run_command_wires.
Qed.

(** ** Witness *)
Lemma plain_fresh : fresh_from plain_task.
Proof.
  intros x p hi (k & Hk) Hx. cbn [fds plain_task plain_table] in Hk.
  destruct k as [|[|[|k]]]; [injection Hk as <-; done..|]. by apply lookup_replicate in Hk as [[=] _].
Qed.
Lemma line_runs_witness :
  wp (parse 0) (λ r st', ∃ n, r = Some n ∧ ∃ l rc s',
    run all_well (run_command (node_map (string_at (line st')) n) (RunContext [] 0 true)) plain_task = (l, Returned rc s') ∧
    0 ≤ rc ∧ fds s' = plain_table ∧ wired plain_table 0 (tree example) (executed l)) (line_of (lit " a b>c|d& e;") 20).
Proof.
  eapply wp_mono.
  - apply (line_runs example 0 (replicate (20 - sentence_size example) true)); [apply example_line| | |reflexivity].
    + repeat split; solve [done|by vm_compute; lia].
    + repeat split; eexists _, _; (split; [reflexivity|split; discriminate]).
  - intros r st' (n & -> & Hruns). exists n. split; [done|].
    apply (Hruns all_well (RunContext [] 0 true) plain_task); [done|apply plain_ok| |apply plain_fresh].
    change (fds plain_task) with plain_table. rewrite (proj2 plain_ok). by vm_compute; lia.
Defined.

