(* ===== verification/Pci.v ===== *)
(** * The PCI bus (kernel/pci.c)

    The configuration space behind the address and the value port, the
    enumeration of the buses with a callback for every function found, and the
    accessors of a function's registers. The registers of the devices are a
    function from the latched address to a 32-bit word. *)
From S2P Require Import Prelude.

Record pci_addr : Type := PciAddr { bus : Z; slot : Z; function : Z }.
#[export] Instance pci_addr_eq_dec : EqDecision pci_addr.
Proof. solve_decision. Defined.

Definition PCI_VENDOR_ID : Z := 0x0.
Definition PCI_COMMAND : Z := 0x4.
Definition PCI_DEVICE_ID : Z := 0x2.
Definition PCI_SUBCLASS : Z := 0xa.
Definition PCI_CLASS : Z := 0xb.
Definition PCI_HEADER_TYPE : Z := 0xe.
Definition PCI_BAR0 : Z := 0x10.
Definition PCI_BAR1 : Z := 0x14.
Definition PCI_SECONDARY_BUS : Z := 0x19.
Definition PCI_INTERRUPT_LINE : Z := 0x3c.
Definition PCI_TYPE_BRIDGE : Z := 0x604.
Definition PCI_NONE : Z := 0xffff.
Definition PCI_COMMAND_IO_SPACE : Z := 0x1.
Definition PCI_COMMAND_BUS_MASTER : Z := 0x4.
Definition PCI_COMMAND_INTERRUPT_DISABLE : Z := 0x400.

Definition io_address_for_field (addr : pci_addr) (field : Z) : Z :=
  Z.lor (Z.lor (Z.lor (Z.lor 0x80000000 (Z.shiftl (bus addr) 16)) (Z.shiftl (slot addr) 11))
    (Z.shiftl (function addr) 8)) (Z.land field 0xfc).

(** The bytes of a register that a narrow access to the value port moves. *)
Definition reg8 (w k : Z) : Z := Z.land (Z.shiftr w (8 * k)) 0xff.
Definition reg16 (w k : Z) : Z := Z.land (Z.shiftr w (8 * k)) 0xffff.
Definition put_reg16 (w k v : Z) : Z := Z.lor (Z.ldiff w (Z.shiftl 0xffff (8 * k))) (Z.shiftl (u16 v) (8 * k)).

(** [latch] is what was written to the address port; [driver] is the state of
    whoever enumerates. *)
Record pci (T : Type) : Type := Pci { latch : Z; regs : Z → Z; driver : T }.
#[global] Arguments Pci {T}.
#[global] Arguments latch {T}.
#[global] Arguments regs {T}.
#[global] Arguments driver {T}.

Section pci.
Context {T : Type}.
Abbreviation P := (K (pci T)).

Definition out_address (a : Z) : P unit := modify (λ s, Pci a (regs s) (driver s)).
Definition value : P Z := gets (λ s, regs s (latch s)).

Definition read_field8 (addr : pci_addr) (field : Z) : P Z :=
  _ ← out_address (io_address_for_field addr field); w ← value; mret (reg8 w (Z.land field 3)).
Definition read_field16 (addr : pci_addr) (field : Z) : P Z :=
  _ ← out_address (io_address_for_field addr field); w ← value; mret (reg16 w (Z.land field 2)).
Definition read_field32 (addr : pci_addr) (field : Z) : P Z :=
  _ ← out_address (io_address_for_field addr field); value.
Definition write_field16 (addr : pci_addr) (field value : Z) : P unit :=
  _ ← out_address (io_address_for_field addr field);
  modify (λ s, Pci (latch s)
    (λ a, if a =? latch s then put_reg16 (regs s a) (Z.land field 2) value else regs s a) (driver s)).

Definition pci_get_type (addr : pci_addr) : P Z :=
  c ← read_field8 addr PCI_CLASS; sub ← read_field8 addr PCI_SUBCLASS; mret (Z.lor (Z.shiftl c 8) sub).
Definition pci_get_bar0 (addr : pci_addr) : P Z := read_field32 addr PCI_BAR0.
Definition pci_get_bar1 (addr : pci_addr) : P Z := read_field32 addr PCI_BAR1.
Definition pci_get_interrupt_line (addr : pci_addr) : P Z := read_field8 addr PCI_INTERRUPT_LINE.
Definition pci_set_interrupt_line_enabled (addr : pci_addr) (enabled : bool) : P unit :=
  command ← read_field16 addr PCI_COMMAND;
  write_field16 addr PCI_COMMAND
    (if enabled then Z.ldiff command PCI_COMMAND_INTERRUPT_DISABLE else Z.lor command PCI_COMMAND_INTERRUPT_DISABLE).
Definition pci_set_bus_mastering_enabled (addr : pci_addr) (enabled : bool) : P unit :=
  command ← read_field16 addr PCI_COMMAND;
  let command := if enabled then Z.lor command PCI_COMMAND_BUS_MASTER else Z.ldiff command PCI_COMMAND_BUS_MASTER in
  write_field16 addr PCI_COMMAND (Z.lor command PCI_COMMAND_IO_SPACE).

(** *** Enumeration *)
Section enumerate.
Context (callback : pci_addr → Z → Z → P unit).

Definition enumerate_functions (enumerate_bus : Z → P unit) (addr : pci_addr) : P unit :=
  vendor ← read_field16 addr PCI_VENDOR_ID;
  device ← read_field16 addr PCI_DEVICE_ID;
  _ ← callback addr vendor device;
  type ← pci_get_type addr;
  when (type =? PCI_TYPE_BRIDGE) (secondary ← read_field8 addr PCI_SECONDARY_BUS; enumerate_bus secondary).
Definition enumerate_slot (enumerate_bus : Z → P unit) (bus slot : Z) : P unit :=
  let addr := PciAddr bus slot 0 in
  vendor ← read_field16 addr PCI_VENDOR_ID;
  if vendor =? PCI_NONE then mret tt
  else
    _ ← enumerate_functions enumerate_bus addr;
    header ← read_field8 addr PCI_HEADER_TYPE;
    if Z.land header 0x80 =? 0 then mret tt
    else
      for_each (seqZ 1 7) (λ f,
        let addr := PciAddr bus slot f in
        vendor ← read_field16 addr PCI_VENDOR_ID;
        when (negb (vendor =? PCI_NONE)) (enumerate_functions enumerate_bus addr)).
(** [fuel] bounds the depth of the bridges. *)
Fixpoint enumerate_bus (fuel : nat) (bus : Z) : P unit :=
  match fuel with
  | O => out_of_fuel
  | S fuel => for_each (seqZ 0 32) (enumerate_slot (enumerate_bus fuel) bus)
  end.
Definition pci_enumerate (fuel : nat) : P unit :=
  let addr := PciAddr 0 0 0 in
  header ← read_field8 addr PCI_HEADER_TYPE;
  if Z.land header 0x80 =? 0 then enumerate_bus fuel 0
  else
    for_each (seqZ 0 8) (λ f,
      vendor ← read_field16 (PciAddr 0 0 f) PCI_VENDOR_ID;
      when (negb (vendor =? PCI_NONE)) (enumerate_bus fuel f)).
End enumerate.
End pci.

(** ** Theorems *)

(** The configuration space as functions of the registers. *)
Section config.
Context (conf : Z → Z).

Definition field8 (a : pci_addr) (f : Z) : Z := reg8 (conf (io_address_for_field a f)) (Z.land f 3).
Definition field16 (a : pci_addr) (f : Z) : Z := reg16 (conf (io_address_for_field a f)) (Z.land f 2).
Definition present (a : pci_addr) : bool := negb (field16 a PCI_VENDOR_ID =? PCI_NONE).
Definition is_bridge (a : pci_addr) : bool :=
  Z.lor (Z.shiftl (field8 a PCI_CLASS) 8) (field8 a PCI_SUBCLASS) =? PCI_TYPE_BRIDGE.
Definition secondary (a : pci_addr) : Z := field8 a PCI_SECONDARY_BUS.
Definition multi (bus slot : Z) : bool := negb (Z.land (field8 (PciAddr bus slot 0) PCI_HEADER_TYPE) 0x80 =? 0).

(** The functions on a bus: the first of a slot, and the others of a slot whose
    first one says that there are more. *)
Definition on_bus (b : Z) (a : pci_addr) : Prop :=
  bus a = b ∧ 0 ≤ slot a < 32 ∧ 0 ≤ function a < 8 ∧ present a = true ∧
  (function a = 0 ∨ present (PciAddr b (slot a) 0) = true ∧ multi b (slot a) = true).
Definition root_bus (b : Z) : Prop :=
  if multi 0 0 then 0 ≤ b < 8 ∧ present (PciAddr 0 0 b) = true else b = 0.
(** Reachable through bridges. *)
Inductive below : Z → pci_addr → Prop :=
| below_here b a : on_bus b a → below b a
| below_bridge b br a : on_bus b br → is_bridge br = true → below (secondary br) a → below b a.
Definition reachable (a : pci_addr) : Prop := ∃ b, root_bus b ∧ below b a.

(** What the enumeration calls back, as a list. *)
Definition slot_functions (b s : Z) : list pci_addr :=
  if present (PciAddr b s 0) then
    PciAddr b s 0 ::
      (if multi b s then (λ f, PciAddr b s f) <$> filter (λ f, present (PciAddr b s f)) (seqZ 1 7) else [])
  else [].
Fixpoint walk (fuel : nat) (b : Z) : list pci_addr :=
  match fuel with
  | O => []
  | S fuel =>
      seqZ 0 32 ≫= λ s, slot_functions b s ≫= λ a,
        a :: (if is_bridge a then walk fuel (secondary a) else [])
  end.
Definition walk_all (fuel : nat) : list pci_addr :=
  if multi 0 0 then filter (λ f, present (PciAddr 0 0 f)) (seqZ 0 8) ≫= walk fuel else walk fuel 0.

Lemma elem_of_slot_functions b s a : 0 ≤ s < 32 → a ∈ slot_functions b s ↔ on_bus b a ∧ slot a = s.
Proof.
  intros Hs. unfold slot_functions, on_bus. destruct a as [b' s' f]. cbn [bus slot function].
  destruct (present (PciAddr b s 0)) eqn:Hp; [destruct (multi b s) eqn:Hm|];
    rewrite ?elem_of_cons, ?list_elem_of_fmap; try setoid_rewrite list_elem_of_filter; split.
  - intros [[= -> -> ->]|(y & [= -> -> ->] & Ha & Hy)]; [repeat split; auto; lia|].
    apply elem_of_seqZ in Hy. apply Is_true_true in Ha. split_and!; try done; [lia..|by right].
  - intros [(-> & _ & Hf & Ha & _) ->]. destruct (decide (f = 0)) as [->|]; [by left|right].
    exists f. split; [done|]. split; [by rewrite Ha|]. apply elem_of_seqZ. lia.
  - intros [[= -> -> ->]|Hin]; [repeat split; auto; lia|set_solver].
  - intros [(-> & _ & Hf & Ha & [->|[_ Hm']]) ->]; [by left|congruence].
  - set_solver.
  - intros [(-> & _ & Hf & Ha & [->|[Hp' _]]) ->]; congruence.
Qed.

Lemma elem_of_walk_S fuel b a :
  a ∈ walk (S fuel) b ↔ on_bus b a ∨ ∃ br, on_bus b br ∧ is_bridge br = true ∧ a ∈ walk fuel (secondary br).
Proof.
  cbn [walk]. rewrite list_elem_of_bind. split.
  - intros (s & Ha & Hs). apply elem_of_seqZ in Hs. apply list_elem_of_bind in Ha as (br & Ha & Hbr).
    apply elem_of_slot_functions in Hbr as [Hbr _]; [|lia]. apply elem_of_cons in Ha as [->|Ha]; [by left|].
    right. exists br. destruct (is_bridge br); [done|]. by apply not_elem_of_nil in Ha.
  - assert (∀ c, on_bus b c → c ∈ slot_functions b (slot c) ∧ slot c ∈ seqZ 0 32) as Hin.
    { intros c Hc. pose proof Hc as (_ & Hs & _). split; [by apply elem_of_slot_functions|].
      apply elem_of_seqZ. lia. }
    intros [Ha|(br & Hbr & Hb & Ha)]; [exists (slot a)|exists (slot br)].
    + destruct (Hin a Ha) as [H1 H2]. split; [|done]. apply list_elem_of_bind. exists a. split; [by left|done].
    + destruct (Hin br Hbr) as [H1 H2]. split; [|done]. apply list_elem_of_bind. exists br.
      rewrite Hb. split; [|done]. by right.
Qed.
Lemma walk_below fuel b a : a ∈ walk fuel b → below b a.
Proof.
  revert b. induction fuel as [|fuel IH]; intros b; [set_solver|]. rewrite elem_of_walk_S.
  intros [Ha|(br & Hbr & Hb & Ha)]; [by apply below_here|]. eapply below_bridge; eauto.
Qed.

(** How firmware numbers the buses: one behind a bridge higher than the bus of
    the bridge, and every bus behind at most one bridge, the root buses behind
    none. *)
Record well_numbered : Prop := WellNumbered {
  downwards br : reachable br → is_bridge br = true → bus br < secondary br;
  one_parent br br' : reachable br → reachable br' → is_bridge br = true → is_bridge br' = true →
    secondary br = secondary br' → br = br';
  no_parent br : reachable br → is_bridge br = true → ¬ root_bus (secondary br);
}.
Lemma secondary_range a : 0 ≤ secondary a < 256.
Proof.
  unfold secondary, field8, reg8. change 0xff with (Z.ones 8). rewrite Z.land_ones by lia. by apply Z.mod_pos_bound.
Qed.
Lemma below_trans b br a :
  below b br → is_bridge br = true → below (secondary br) a → below b a.
Proof.
  induction 1 as [b br Hbr|b br' br Hbr' Hb' Hbelow IH]; intros Hb Ha; [by eapply below_bridge|].
  eapply below_bridge; [done..|]. by apply IH.
Qed.
Lemma below_walk fuel b a :
  below b a → (∀ br, below b br → is_bridge br = true → bus br < secondary br) →
  255 - b < Z.of_nat fuel → b < 256 → a ∈ walk fuel b.
Proof.
  intros Ha. revert fuel. induction Ha as [b a Ha|b br a Hbr Hb Ha IH]; intros fuel Hn Hf Hb256;
    (destruct fuel as [|fuel]; [lia|]); apply elem_of_walk_S; [by left|].
  right. exists br. split; [done|]. split; [done|].
  pose proof (Hn br (below_here _ _ Hbr) Hb) as Hlt. pose proof (secondary_range br).
  assert (bus br = b) as Hbus by apply Hbr.
  apply IH; [|lia|lia]. intros br2 Hb2. apply Hn. by eapply below_bridge.
Qed.

Lemma root_bus_range b : root_bus b → 0 ≤ b < 256.
Proof. unfold root_bus. case_match; lia. Qed.
Lemma elem_of_walk_all fuel a :
  a ∈ walk_all fuel ↔ ∃ b, root_bus b ∧ a ∈ walk fuel b.
Proof.
  unfold walk_all, root_bus. destruct (multi 0 0).
  - rewrite list_elem_of_bind. setoid_rewrite list_elem_of_filter. setoid_rewrite elem_of_seqZ.
    setoid_rewrite Is_true_true. split.
    + intros (b & Ha & Hp & Hb). exists b. repeat split; try done; lia.
    + intros (b & (Hb & Hp) & Ha). exists b. repeat split; try done; lia.
  - split; [eauto|]. by intros (b & -> & Ha).
Qed.
Lemma walk_all_complete fuel a :
  well_numbered → (256 ≤ fuel)%nat → a ∈ walk_all fuel ↔ reachable a.
Proof.
  intros Hn Hf. rewrite elem_of_walk_all. split.
  - intros (b & Hb & Ha). exists b. split; [done|]. by eapply walk_below.
  - intros (b & Hb & Ha). exists b. split; [done|]. pose proof (root_bus_range b Hb).
    apply below_walk; [done| |lia|lia]. intros br Hbr. apply downwards; [done|]. exists b. split; assumption.
Qed.

(** *** Every function once *)
(** The buses that the enumeration may come to. *)
Definition seen (b : Z) : Prop := root_bus b ∨ ∃ br, reachable br ∧ is_bridge br = true ∧ secondary br = b.
(** Bus [c] is [b] or behind it. *)
Definition behind (b c : Z) : Prop := b = c ∨ ∃ br, below b br ∧ is_bridge br = true ∧ secondary br = c.

Lemma below_reachable b a : seen b → below b a → reachable a.
Proof.
  intros [Hr|(br & (r & Hr & Hbr) & Hb & <-)] Ha; [exists b; split; assumption|]. exists r. split; [assumption|]. by eapply below_trans.
Qed.
Lemma seen_bridge b br : seen b → below b br → is_bridge br = true → seen (secondary br).
Proof. intros Hs Hbr Hb. right. exists br. split; [by eapply below_reachable|done]. Qed.
Lemma below_behind b a : below b a → behind b (bus a).
Proof.
  induction 1 as [b a Ha|b br a Hbr Hb Ha [IH|(br2 & H2 & Hb2 & <-)]].
  - left. symmetry. apply Ha.
  - right. exists br. split; [by apply below_here|done].
  - right. exists br2. split; [by eapply below_bridge|done].
Qed.
Lemma behind_le b c : well_numbered → seen b → behind b c → b ≤ c.
Proof.
  intros Hn Hs [->|(br & Hbr & Hb & <-)]; [lia|]. revert Hs.
  induction Hbr as [b br Hbr|b br0 br Hbr0 Hb0 Hbr IH]; intros Hs.
  - pose proof (downwards Hn br (below_reachable _ _ Hs (below_here _ _ Hbr)) Hb).
    assert (bus br = b) as Hbus by apply Hbr. lia.
  - pose proof (below_here _ _ Hbr0) as H0.
    pose proof (downwards Hn br0 (below_reachable _ _ Hs H0) Hb0). assert (bus br0 = b) as Hbus by apply Hbr0.
    specialize (IH Hb (seen_bridge _ _ Hs H0 Hb0)). lia.
Qed.
Lemma behind_linear n b1 b2 c :
  well_numbered → c < Z.of_nat n → seen b1 → seen b2 → behind b1 c → behind b2 c → behind b1 b2 ∨ behind b2 b1.
Proof.
  intros Hn Hc Hs1 Hs2. revert c Hc. induction n as [|n IH]; intros c Hc H1 H2;
    (destruct H1 as [->|(br & Hbr & Hb & Hc1)]; [by right|]);
    (destruct H2 as [->|(br2 & Hbr2 & Hb2 & Hc2)]; [left; right; by exists br|]).
  { pose proof (secondary_range br). lia. }
  assert (br2 = br) as ->.
  { apply (one_parent Hn); [exact (below_reachable _ _ Hs2 Hbr2)|exact (below_reachable _ _ Hs1 Hbr)|done|done|congruence]. }
  pose proof (downwards Hn br (below_reachable _ _ Hs1 Hbr) Hb).
  apply (IH (bus br)); [lia|by apply below_behind..].
Qed.
(** A bus has one bus in front of it. *)
Lemma behind_step b c : well_numbered → seen b → seen c → b ≠ c → behind b c →
  ∀ a, reachable a → is_bridge a = true → secondary a = c → b ≤ bus a.
Proof.
  intros Hn Hs Hc Hne [->|(br & Hbr & Hb & Hbc)] a Ha Hba Hac; [done|].
  assert (a = br) as ->.
  { apply (one_parent Hn); [done|exact (below_reachable _ _ Hs Hbr)|done|done|congruence]. }
  apply behind_le; [done|done|by apply below_behind].
Qed.

Lemma NoDup_slots b : NoDup (seqZ 0 32 ≫= slot_functions b).
Proof.
  apply NoDup_bind; [|intros s Hs|apply NoDup_seqZ].
  - intros s1 s2 a H1 H2 Ha1 Ha2. apply elem_of_seqZ in H1, H2.
    apply elem_of_slot_functions in Ha1 as [_ <-], Ha2 as [_ <-]; [done|lia|lia].
  - unfold slot_functions. destruct (present _); [|constructor]. destruct (multi b s).
    + apply NoDup_cons. split.
      * rewrite list_elem_of_fmap. intros (f & [= Hf] & Hin). apply list_elem_of_filter in Hin as [_ Hin].
        apply elem_of_seqZ in Hin. lia.
      * apply NoDup_fmap; [by intros f g [= ->]|]. apply NoDup_filter, NoDup_seqZ.
    + apply NoDup_singleton.
Qed.
Lemma bind_assoc {A B C} (l : list A) (f : A → list B) (g : B → list C) : (l ≫= f) ≫= g = l ≫= λ x, f x ≫= g.
Proof. induction l as [|x l IH]; [done|]. csimpl. by rewrite bind_app, IH. Qed.
Lemma walk_bind fuel b :
  walk (S fuel) b = (seqZ 0 32 ≫= slot_functions b) ≫= λ a, a :: (if is_bridge a then walk fuel (secondary a) else []).
Proof. cbn [walk]. by rewrite bind_assoc. Qed.
Lemma elem_of_slots b a : a ∈ (seqZ 0 32 ≫= slot_functions b) ↔ on_bus b a.
Proof.
  rewrite list_elem_of_bind. split.
  - intros (s & Ha & Hs). apply elem_of_seqZ in Hs. apply elem_of_slot_functions in Ha; [tauto|lia].
  - intros Ha. pose proof Ha as (_ & Hs & _). exists (slot a). rewrite elem_of_slot_functions by done.
    split; [done|]. apply elem_of_seqZ. lia.
Qed.
(** What two functions of one bus have behind them is different. *)
Lemma subtrees_disjoint b a1 a2 y :
  well_numbered → seen b → on_bus b a1 → on_bus b a2 → is_bridge a1 = true → is_bridge a2 = true →
  below (secondary a1) y → below (secondary a2) y → a1 = a2.
Proof.
  intros Hn Hs H1 H2 Hb1 Hb2 Hy1 Hy2.
  pose proof (below_here _ _ H1) as Hr1. pose proof (below_here _ _ H2) as Hr2.
  pose proof (below_reachable _ _ Hs Hr1) as R1. pose proof (below_reachable _ _ Hs Hr2) as R2.
  destruct (decide (secondary a1 = secondary a2)) as [He|Hne]; [by apply (one_parent Hn)|exfalso].
  pose proof (seen_bridge _ _ Hs Hr1 Hb1) as S1. pose proof (seen_bridge _ _ Hs Hr2 Hb2) as S2.
  pose proof (downwards Hn a1 R1 Hb1). pose proof (downwards Hn a2 R2 Hb2).
  assert (bus a1 = b) by apply H1. assert (bus a2 = b) by apply H2.
  assert (∃ n, bus y < Z.of_nat n) as [n Hyn] by (exists (Z.to_nat (bus y + 1)); lia).
  destruct (behind_linear n (secondary a1) (secondary a2) (bus y)) as [Hl|Hl];
    [done|done|done|done|by apply below_behind|by apply below_behind| |].
  - pose proof (behind_step _ _ Hn S1 S2 Hne Hl a2 R2 Hb2 eq_refl). lia.
  - pose proof (behind_step _ _ Hn S2 S1 (not_eq_sym Hne) Hl a1 R1 Hb1 eq_refl). lia.
Qed.
Lemma NoDup_walk fuel b : well_numbered → seen b → NoDup (walk fuel b).
Proof.
  intros Hn. revert b. induction fuel as [|fuel IH]; intros b Hs; [constructor|]. rewrite walk_bind.
  assert (∀ a y, on_bus b a → is_bridge a = true → y ∈ walk fuel (secondary a) → b < bus y) as Hgt.
  { intros a y Ha Hb Hy. apply walk_below, below_behind in Hy. pose proof (below_here _ _ Ha) as Hr.
    pose proof (downwards Hn a (below_reachable _ _ Hs Hr) Hb). assert (bus a = b) by apply Ha.
    pose proof (behind_le _ _ Hn (seen_bridge _ _ Hs Hr Hb) Hy). lia. }
  apply NoDup_bind; [| |apply NoDup_slots].
  - intros a1 a2 y H1 H2 Hy1 Hy2. apply elem_of_slots in H1, H2.
    assert (bus a1 = b) by apply H1. assert (bus a2 = b) by apply H2.
    destruct (is_bridge a1) eqn:Hb1, (is_bridge a2) eqn:Hb2;
      apply elem_of_cons in Hy1 as [->|Hy1], Hy2 as [Heq|Hy2]; try done.
    all: try (by apply not_elem_of_nil in Hy1); try (by apply not_elem_of_nil in Hy2).
    all: try (pose proof (Hgt _ _ H1 Hb1 Hy1); subst; lia).
    all: try (pose proof (Hgt _ _ H2 Hb2 Hy2); subst; lia).
    eapply subtrees_disjoint; [done|exact Hs|done|done|done|done|by eapply walk_below|by eapply walk_below].
  - intros a Ha. apply elem_of_slots in Ha. apply NoDup_cons. destruct (is_bridge a) eqn:Hb; [|by split; [apply not_elem_of_nil|constructor]].
    split; [|apply IH; by eapply seen_bridge; [exact Hs|apply below_here|]].
    intros Hin. pose proof (Hgt _ _ Ha Hb Hin). assert (bus a = b) by apply Ha. lia.
Qed.
Lemma NoDup_walk_all fuel : well_numbered → NoDup (walk_all fuel).
Proof.
  intros Hn. unfold walk_all.
  assert (∀ b, root_bus b → seen b) as Hs by (by left). unfold root_bus in Hs at 1.
  destruct (multi 0 0) eqn:Hm; [|apply NoDup_walk; [done|by apply Hs]].
  assert (∀ b, b ∈ filter (λ f, present (PciAddr 0 0 f)) (seqZ 0 8) → root_bus b) as Hroot.
  { intros b Hb. apply list_elem_of_filter in Hb as [Hp Hb]. apply elem_of_seqZ in Hb. unfold root_bus. rewrite Hm.
    split; [lia|by apply Is_true_true]. }
  apply NoDup_bind; [| |apply NoDup_filter, NoDup_seqZ].
  - intros b1 b2 y H1 H2 Hy1 Hy2. apply Hroot in H1, H2. apply walk_below, below_behind in Hy1, Hy2.
    assert (∃ n, bus y < Z.of_nat n) as [n Hyn] by (exists (Z.to_nat (bus y + 1)); lia).
    destruct (behind_linear n b1 b2 (bus y)) as [[->|(br & Hbr & Hb & <-)]|[->|(br & Hbr & Hb & <-)]];
      [done|done|by left|by left|done|done|done| |done|].
    + exfalso. eapply (no_parent Hn br); [|assumption|assumption]. exists b1. split; assumption.
    + exfalso. eapply (no_parent Hn br); [|assumption|assumption]. exists b2. split; assumption.
  - intros b Hb. apply NoDup_walk; [done|left; by apply Hroot].
Qed.
End config.

(** [visits m l]: from any state with these registers, [m] returns, leaves the
    registers and has called back for [l]. *)
Section visits.
Context {T : Type} (conf : Z → Z) (visit : T → pci_addr → T).
Definition visits (m : K (pci T) unit) (l : list pci_addr) : Prop :=
  ∀ s, regs s = conf → wp m (λ _ s', regs s' = conf ∧ driver s' = foldl visit (driver s) l) s.
Lemma visits_nothing : visits (mret tt) [].
Proof. intros s Hs. by apply wp_ret. Qed.
Lemma visits_seq m f l1 l2 : visits m l1 → visits (f tt) l2 → visits (m ≫= f) (l1 ++ l2).
Proof.
  intros H1 H2 s Hs. apply wp_bind. eapply wp_mono; [by apply H1|]. intros [] s1 [Hs1 Hd1].
  eapply wp_mono; [by apply H2|]. intros [] s2 [Hs2 Hd2]. split; [done|]. by rewrite Hd2, Hd1, foldl_app.
Qed.
Lemma visits_assoc {A B} (m : K (pci T) A) (f : A → K (pci T) B) g l :
  visits (m ≫= λ a, f a ≫= g) l → visits ((m ≫= f) ≫= g) l.
Proof. intros H s Hs. specialize (H s Hs). unfold wp, mbind, K_bind in *. by destruct (m s). Qed.
Lemma visits_ret {A} (a : A) k l : visits (k a) l → visits (mret a ≫= k) l.
Proof. done. Qed.
Lemma visits_read8 a f k l : visits (k (field8 conf a f)) l → visits (read_field8 a f ≫= k) l.
Proof.
  intros Hk s Hs. unfold read_field8, out_address, value. wp_keep.
  cbn [regs latch]. rewrite Hs.
  exact (Hk (Pci (io_address_for_field a f) conf (driver s)) eq_refl).
Qed.
Lemma visits_read16 a f k l : visits (k (field16 conf a f)) l → visits (read_field16 a f ≫= k) l.
Proof.
  intros Hk s Hs. unfold read_field16, out_address, value. wp_keep.
  cbn [regs latch]. rewrite Hs.
  exact (Hk (Pci (io_address_for_field a f) conf (driver s)) eq_refl).
Qed.
Lemma visits_for_each (f : Z → K (pci T) unit) g l :
  (∀ x, x ∈ l → visits (f x) (g x)) → visits (for_each l f) (l ≫= g).
Proof.
  induction l as [|x l IH]; intros H; [by apply visits_nothing|]. cbn [for_each].
  change ((x :: l) ≫= g) with (g x ++ (l ≫= g)).
  apply (visits_seq (f x) (λ _, for_each l f)); [apply H; by left|]. apply IH. intros y Hy. apply H. by right.
Qed.
End visits.

Section enumeration.
Context {T : Type} (conf : Z → Z) (visit : T → pci_addr → T) (callback : pci_addr → Z → Z → K (pci T) unit).
(** A callback may read registers and change the driver's state. *)
Hypothesis callback_visits : ∀ a,
  visits conf visit (callback a (field16 conf a PCI_VENDOR_ID) (field16 conf a PCI_DEVICE_ID)) [a].
Abbreviation visits' := (visits conf visit).

Lemma enumerate_functions_visits rec fuel a :
  (is_bridge conf a = true → visits' (rec (secondary conf a)) (walk conf fuel (secondary conf a))) →
  visits' (enumerate_functions callback rec a)
    (a :: (if is_bridge conf a then walk conf fuel (secondary conf a) else [])).
Proof.
  intros Hrec. unfold enumerate_functions. apply visits_read16, visits_read16.
  apply (visits_seq _ _ _ _ [a]); [done|]. unfold pci_get_type.
  apply visits_assoc, visits_read8, visits_assoc, visits_read8, visits_ret. fold (is_bridge conf a).
  destruct (is_bridge conf a); cbn [when]; [|apply visits_nothing]. apply visits_read8. by apply Hrec.
Qed.

(** A loop over the present ones of some functions. *)
Lemma present_visits (addr : Z → pci_addr) (body : Z → K (pci T) unit) (g : Z → list pci_addr) l :
  (∀ f, f ∈ l → present conf (addr f) = true → visits' (body f) (g f)) →
  visits' (for_each l (λ f, vendor ← read_field16 (addr f) PCI_VENDOR_ID;
      when (negb (vendor =? PCI_NONE)) (body f)))
    (filter (λ f, present conf (addr f)) l ≫= g).
Proof.
  induction l as [|f l IH]; intros Hb; [apply visits_nothing|]. cbn [for_each]. rewrite filter_cons.
  specialize (IH (λ f' Hf', Hb f' (list_elem_of_further _ _ _ Hf'))).
  destruct (present conf (addr f)) eqn:Hp; [rewrite decide_True by done|rewrite decide_False by tauto].
  - change ((f :: ?l) ≫= g) with (g f ++ (l ≫= g)). apply visits_seq; [|exact IH].
    apply visits_read16. fold (present conf (addr f)). rewrite Hp. apply Hb; [by left|done].
  - apply (visits_seq _ _ _ _ []); [|exact IH].
    apply visits_read16. fold (present conf (addr f)). rewrite Hp. apply visits_nothing.
Qed.
Lemma enumerate_slot_visits rec fuel b sl :
  (∀ a, a ∈ slot_functions conf b sl → is_bridge conf a = true →
    visits' (rec (secondary conf a)) (walk conf fuel (secondary conf a))) →
  visits' (enumerate_slot callback rec b sl)
    (slot_functions conf b sl ≫= λ a, a :: (if is_bridge conf a then walk conf fuel (secondary conf a) else [])).
Proof.
  unfold slot_functions, enumerate_slot. intros Hrec. apply visits_read16.
  destruct (present conf (PciAddr b sl 0)) eqn:Hp; unfold present in Hp;
    [apply negb_true_iff in Hp|apply negb_false_iff in Hp]; rewrite Hp; [|apply visits_nothing].
  match goal with |- visits' _ (?l ≫= ?g) => change (l ≫= g) with (g (PciAddr b sl 0) ++ (tail l ≫= g)) end.
  cbn [tail]. apply visits_seq; [apply enumerate_functions_visits; apply Hrec; by left|].
  apply visits_read8. unfold multi in *. destruct (Z.land _ 128 =? 0); cbn [negb] in *; [apply visits_nothing|].
  rewrite list_fmap_bind. apply present_visits. intros f Hin Hpf. apply enumerate_functions_visits.
  apply Hrec. right. apply list_elem_of_fmap. exists f. split; [done|]. apply list_elem_of_filter.
  split; [by rewrite Hpf|done].
Qed.
Lemma enumerate_bus_visits fuel b :
  (∀ br, below conf b br → is_bridge conf br = true → bus br < secondary conf br) →
  255 - b < Z.of_nat fuel → b < 256 → visits' (enumerate_bus callback fuel b) (walk conf fuel b).
Proof.
  revert b. induction fuel as [|fuel IH]; intros b Hn Hf Hb; [lia|]. cbn [enumerate_bus walk].
  apply visits_for_each. intros sl Hsl. apply enumerate_slot_visits. intros a Ha Hbr.
  apply elem_of_seqZ in Hsl. apply elem_of_slot_functions in Ha as [Ha _]; [|lia].
  pose proof (Hn a (below_here _ _ _ Ha) Hbr). pose proof (secondary_range conf a).
  assert (bus a = b) as Hbus by apply Ha.
  apply IH; [|lia|lia]. intros br Hbr2. apply Hn. by eapply below_bridge.
Qed.
Lemma pci_enumerate_visits fuel :
  well_numbered conf → (256 ≤ fuel)%nat → visits' (pci_enumerate callback fuel) (walk_all conf fuel).
Proof.
  intros Hn Hf. unfold pci_enumerate, walk_all. apply visits_read8. unfold multi in *.
  assert (∀ b, root_bus conf b → visits' (enumerate_bus callback fuel b) (walk conf fuel b)) as Hroot.
  { intros b Hb. pose proof (root_bus_range conf b Hb). apply enumerate_bus_visits; [|lia|lia].
    intros br Hbr. apply downwards; [done|]. exists b. split; assumption. }
  unfold root_bus, multi in Hroot. destruct (Z.land _ 128 =? 0) eqn:Hm; cbn [negb] in *; [by apply Hroot|].
  apply (present_visits (λ f, PciAddr 0 0 f)). intros f Hin Hp. apply Hroot. apply elem_of_seqZ in Hin.
  split; [lia|done].
Qed.
End enumeration.


(** *** Registers *)
Lemma reg16_put w k v : 0 ≤ k → reg16 (put_reg16 w k v) k = u16 v.
Proof.
  intros Hk. unfold reg16, put_reg16, u16. change 0xffff with (Z.ones 16).
  apply Z.bits_inj'. intros i Hi. rewrite Z.land_spec, Z.testbit_ones, Z.shiftr_spec by lia.
  rewrite Z.lor_spec, Z.ldiff_spec, !Z.shiftl_spec, Z.testbit_ones by lia.
  replace (i + 8 * k - 8 * k) with i by lia.
  change 65536 with (2 ^ 16). rewrite Z.testbit_mod_pow2 by lia.
  rewrite (proj2 (Z.leb_le 0 i)) by lia. destruct (i <? 16); cbn; by rewrite ?andb_false_r, ?andb_true_r.
Qed.
Lemma write_read_field16 {T} a f v (s : pci T) :
  wp (_ ← write_field16 a f v; read_field16 a f) (λ r s', r = u16 v ∧
    (∀ b, b ≠ io_address_for_field a f → regs s' b = regs s b)) s.
Proof.
  unfold write_field16, read_field16, out_address, value. wp_keep. cbn [latch regs]. rewrite Z.eqb_refl. split.
  - apply reg16_put. by apply Z.land_nonneg; right.
  - intros b Hb. by rewrite (proj2 (Z.eqb_neq _ _)) by done.
Qed.
(** Turning the interrupt of a function on or off touches one bit. *)
Lemma interrupt_line_bit {T} a enabled (s : pci T) :
  let command (s : pci T) := reg16 (regs s (io_address_for_field a PCI_COMMAND)) 0 in
  wp (pci_set_interrupt_line_enabled a enabled) (λ _ s', ∀ i, 0 ≤ i < 16 →
    Z.testbit (command s') i = if i =? 10 then negb enabled else Z.testbit (command s) i) s.
Proof.
  intros command. unfold pci_set_interrupt_line_enabled, read_field16, write_field16, out_address, value.
  wp_keep. cbn [latch regs]. intros i Hi. subst command. cbn [regs]. rewrite Z.eqb_refl.
  change (Z.land PCI_COMMAND 2) with 0. rewrite reg16_put by lia. set (c := reg16 _ 0). unfold u16.
  change 65536 with (2 ^ 16). rewrite Z.testbit_mod_pow2, (proj2 (Z.ltb_lt i 16)) by lia. cbn [andb].
  change PCI_COMMAND_INTERRUPT_DISABLE with (2 ^ 10).
  destruct enabled; rewrite ?Z.ldiff_spec, ?Z.lor_spec, Z.pow2_bits_eqb by lia; rewrite (Z.eqb_sym 10 i);
    destruct (i =? 10); cbn; by rewrite ?andb_true_r, ?andb_false_r, ?orb_true_r, ?orb_false_r.
Qed.

(** ** Witness *)
(** A host bridge, a bridge to bus 1 and a device behind it; nothing else. *)
Definition sample_conf (a : Z) : Z :=
  if a =? io_address_for_field (PciAddr 0 0 0) 0 then 0x12378086
  else if a =? io_address_for_field (PciAddr 0 1 0) 0 then 0x00011b36
  else if a =? io_address_for_field (PciAddr 0 1 0) PCI_CLASS then 0x06040000
  else if a =? io_address_for_field (PciAddr 0 1 0) PCI_SECONDARY_BUS then 0x010100
  else if a =? io_address_for_field (PciAddr 1 3 0) 0 then 0x24158086
  else if Z.land a 0xff =? 0 then 0xffffffff else 0.
Definition sample_list : list pci_addr := [PciAddr 0 0 0; PciAddr 0 1 0; PciAddr 1 3 0].
Lemma sample_below b a : below sample_conf b a → b = 0 ∨ b = 1 → a ∈ sample_list.
Proof.
  assert ((seqZ 0 32 ≫= slot_functions sample_conf 0) = [PciAddr 0 0 0; PciAddr 0 1 0] ∧
     (seqZ 0 32 ≫= slot_functions sample_conf 1) = [PciAddr 1 3 0]) as [H0 H1] by (split; vm_compute; reflexivity).
  unfold sample_list.
  induction 1 as [b a Ha|b br a Hbr Hb Ha IH]; intros Hb01.
  - apply elem_of_slots in Ha. destruct Hb01 as [->| ->]; [rewrite H0 in Ha|rewrite H1 in Ha]; set_solver.
  - apply IH. apply elem_of_slots in Hbr.
    assert (br ∈ sample_list) as Hin by (unfold sample_list; destruct Hb01 as [->| ->]; [rewrite H0 in Hbr|rewrite H1 in Hbr]; set_solver).
    unfold sample_list in Hin. repeat (apply elem_of_cons in Hin as [->|Hin]; [vm_compute in Hb |- *; first [discriminate|auto]|]).
    by apply not_elem_of_nil in Hin.
Qed.
Lemma sample_well_numbered : well_numbered sample_conf.
Proof.
  assert (∀ br, reachable sample_conf br → is_bridge sample_conf br = true → br = PciAddr 0 1 0) as Hbr.
  { intros br (b & Hb & Hbr) Hbridge. change (b = 0) in Hb.
    pose proof (sample_below _ _ Hbr (or_introl Hb)) as Hin. unfold sample_list in Hin.
    repeat (apply elem_of_cons in Hin as [->|Hin]; [first [reflexivity|vm_compute in Hbridge; discriminate]|]).
    by apply not_elem_of_nil in Hin. }
  split.
  - intros br Hr Hb. by rewrite (Hbr br Hr Hb).
  - intros br br' Hr Hr' Hb Hb' _. by rewrite (Hbr br Hr Hb), (Hbr br' Hr' Hb').
  - intros br Hr Hb. rewrite (Hbr br Hr Hb). intros Hroot. change (1 = 0) in Hroot. discriminate.
Qed.
Definition log_found (a : pci_addr) (vendor device : Z) : K (pci (list pci_addr)) unit :=
  modify (λ s, Pci (latch s) (regs s) (driver s ++ [a])).
