(* ===== verification/Ports.v ===== *)
(** * The port instructions (kernel/asm_wrapper.h)

    Drivers talk to devices through the input and output instructions; what they
    do is the device's part, a parameter of the drivers. *)
From S2P Require Import Prelude.

Class Ports (D : Type) : Type := {
  in8 : Z → K D Z; in16 : Z → K D Z; in32 : Z → K D Z;
  out8 : Z → Z → K D unit; out16 : Z → Z → K D unit; out32 : Z → Z → K D unit;
}.
