(* ===== verification/Sound.v ===== *)
(** * The sound driver (kernel/ac97.c)

    The AC97 controller plays a ring of 32 buffer descriptors from its current
    index to the last valid one. The driver fills the next descriptor with a page
    of its four-page output buffer when the device has at most three entries to
    play, and waits for the device otherwise. The registers are behind the class
    [Ports]; [Channel] states what the driver relies on: the last valid index
    reads back, and only the driver writes it. The theorem is that the device
    finds each entry it has still to play as it was queued. Two processes that
    write at the same time are not covered: the driver has no lock. *)
From stdpp Require Import fin_maps.
From S2P Require Import Prelude.
From S2P Require Import Errno.
From S2P Require Import PageAllocator.
From S2P Require Import Kernel.
From S2P Require Import Process.
From S2P Require Import EventQueue.
From S2P Require Import Interrupts.
From S2P Require Import Pci.
From S2P Require Import Ports.

Definition PCI_TYPE_MULTIMEDIA_AUDIO_CONTROLLER : Z := Z.lor (Z.shiftl 4 8) 1.
Definition BUS_PCM_OUT : Z := 0x10.
Definition BUS_GLOBAL_CONTROL : Z := 0x2c.
Definition MIXER_RESET_REGISTER : Z := 0x0.
Definition MIXER_MASTER_OUTPUT_VOLUME : Z := 0x2.
Definition MIXER_PCM_OUTPUT_VOLUME : Z := 0x18.
Definition MIXER_SAMPLE_RATE : Z := 0x2c.
Definition CHANNEL_BUFFER_DESCRIPTOR_LIST_PHYSICAL_ADDR : Z := 0x0.
Definition CHANNEL_CURRENT_INDEX : Z := 0x4.
Definition CHANNEL_LAST_VALID_INDEX : Z := 0x5.
Definition CHANNEL_STATUS : Z := 0x6.
Definition CHANNEL_TRANSFTER_CONTROL : Z := 0xb.
Definition GLOBAL_CONTROL_GLOBAL_INTERRUPT_ENABLE : Z := 0x1.
Definition GLOBAL_CONTROL_COLD_RESET : Z := 0x2.
Definition TRANSFER_STATUS_DMA_CONTROLLER : Z := 0x1.
Definition TRANSFER_STATUS_LAST_BUFFER_ENTRY_TRANSFERRED : Z := 0x4.
Definition TRANSFER_STATUS_IOC : Z := 0x8.
Definition TRANSFER_STATUS_FIFO_ERROR : Z := 0x10.
Definition TRANSFER_CONTROL_DMA_CONTROLLER : Z := 0x1.
Definition TRANSFER_CONTROL_RESET : Z := 0x2.
Definition TRANSFER_CONTROL_IOC_INTERRUPT_ENABLE : Z := 0x8.
Definition TRANSFER_CONTROL_FIFO_ERROR_INTERRUPT_ENABLE : Z := 0x10.
Definition BUFFER_DESCRIPTOR_LIST_INTERRUPT_ON_COMPLETION : Z := 0x8000.
Definition OUTPUT_BUF_NUM_PAGES : Z := 4.
Definition BUFFER_DESCRIPTOR_LIST_MAX_NUM_ENTRIES : Z := 32.
(** kernel/api/sound.h *)
Definition SOUND_GET_SAMPLE_RATE : Z := 0.
Definition SOUND_SET_SAMPLE_RATE : Z := 1.
Definition SOUND_GET_ATTENUATION : Z := 2.
Definition SOUND_SET_ATTENUATION : Z := 3.

Record bd_entry : Type := BdEntry { paddr : Z; num_samples : Z; control : Z }.
(** The static variables of the driver, the device behind its ports, the handlers
    of interrupts and the kernel. *)
Record sound (D : Type) : Type := SoundState {
  device : D;
  kern : kstate;
  ints : interrupts;
  device_detected : bool;
  device_addr : pci_addr;
  mixer_base : Z;
  bus_base : Z;
  pcm_out_channel : Z;
  dma_is_running : bool;
  buffer_descriptor_list_is_full : bool;
  output_buf : list Z;
  output_buf_page_idx : Z;
  buffer_descriptor_list : list bd_entry;
  buffer_descriptor_list_idx : Z;
}.
#[global] Arguments SoundState {D}.
#[global] Arguments device {D}.
#[global] Arguments kern {D}.
#[global] Arguments ints {D}.
#[global] Arguments device_detected {D}.
#[global] Arguments device_addr {D}.
#[global] Arguments mixer_base {D}.
#[global] Arguments bus_base {D}.
#[global] Arguments pcm_out_channel {D}.
#[global] Arguments dma_is_running {D}.
#[global] Arguments buffer_descriptor_list_is_full {D}.
#[global] Arguments output_buf {D}.
#[global] Arguments output_buf_page_idx {D}.
#[global] Arguments buffer_descriptor_list {D}.
#[global] Arguments buffer_descriptor_list_idx {D}.

Section driver.
Context {D : Type} `{!Ports D}.
Abbreviation S := (sound D).
Abbreviation A := (K (sound D)).

(** Assignments. *)
Definition with_device (d : D) (s : S) : S :=
  SoundState d (kern s) (ints s) (device_detected s) (device_addr s) (mixer_base s) (bus_base s) (pcm_out_channel s)
    (dma_is_running s) (buffer_descriptor_list_is_full s) (output_buf s) (output_buf_page_idx s)
    (buffer_descriptor_list s) (buffer_descriptor_list_idx s).
Definition with_kern (k : kstate) (s : S) : S :=
  SoundState (device s) k (ints s) (device_detected s) (device_addr s) (mixer_base s) (bus_base s) (pcm_out_channel s)
    (dma_is_running s) (buffer_descriptor_list_is_full s) (output_buf s) (output_buf_page_idx s)
    (buffer_descriptor_list s) (buffer_descriptor_list_idx s).
Definition with_ints (i : interrupts) (s : S) : S :=
  SoundState (device s) (kern s) i (device_detected s) (device_addr s) (mixer_base s) (bus_base s) (pcm_out_channel s)
    (dma_is_running s) (buffer_descriptor_list_is_full s) (output_buf s) (output_buf_page_idx s)
    (buffer_descriptor_list s) (buffer_descriptor_list_idx s).
Definition detected (a : pci_addr) (mixer bus : Z) (s : S) : S :=
  SoundState (device s) (kern s) (ints s) true a mixer bus (pcm_out_channel s)
    (dma_is_running s) (buffer_descriptor_list_is_full s) (output_buf s) (output_buf_page_idx s)
    (buffer_descriptor_list s) (buffer_descriptor_list_idx s).
Definition with_channel (ch : Z) (s : S) : S :=
  SoundState (device s) (kern s) (ints s) (device_detected s) (device_addr s) (mixer_base s) (bus_base s) ch
    (dma_is_running s) (buffer_descriptor_list_is_full s) (output_buf s) (output_buf_page_idx s)
    (buffer_descriptor_list s) (buffer_descriptor_list_idx s).
Definition with_flags (running full : bool) (s : S) : S :=
  SoundState (device s) (kern s) (ints s) (device_detected s) (device_addr s) (mixer_base s) (bus_base s) (pcm_out_channel s)
    running full (output_buf s) (output_buf_page_idx s) (buffer_descriptor_list s) (buffer_descriptor_list_idx s).
Definition with_buf (buf : list Z) (page : Z) (s : S) : S :=
  SoundState (device s) (kern s) (ints s) (device_detected s) (device_addr s) (mixer_base s) (bus_base s) (pcm_out_channel s)
    (dma_is_running s) (buffer_descriptor_list_is_full s) buf page (buffer_descriptor_list s) (buffer_descriptor_list_idx s).
Definition with_list (l : list bd_entry) (idx : Z) (s : S) : S :=
  SoundState (device s) (kern s) (ints s) (device_detected s) (device_addr s) (mixer_base s) (bus_base s) (pcm_out_channel s)
    (dma_is_running s) (buffer_descriptor_list_is_full s) (output_buf s) (output_buf_page_idx s) l idx.

Definition in_device {B} (m : K D B) : A B := zoom device with_device m.
(** Registers of the playing channel and of the mixer. *)
Definition channel_port (offset : Z) : A Z := gets (λ s, u16 (pcm_out_channel s + offset)).
Definition mixer_port (offset : Z) : A Z := gets (λ s, u16 (mixer_base s + offset)).
Definition read8 (offset : Z) : A Z := p ← channel_port offset; in_device (in8 p).
Definition write8 (offset v : Z) : A unit := p ← channel_port offset; in_device (out8 p v).

Definition irq_handler : A unit :=
  p ← channel_port CHANNEL_STATUS;
  status ← in_device (in16 p);
  if Z.land status TRANSFER_STATUS_IOC =? 0 then mret tt
  else
    let status := Z.lor (Z.lor TRANSFER_STATUS_LAST_BUFFER_ENTRY_TRANSFERRED TRANSFER_STATUS_IOC) TRANSFER_STATUS_FIFO_ERROR in
    _ ← in_device (out16 p status);
    _ ← when (negb (Z.land status TRANSFER_STATUS_DMA_CONTROLLER =? 0))
          (modify (λ s, with_flags false (buffer_descriptor_list_is_full s) s));
    modify (λ s, with_flags (dma_is_running s) false s).

(** ** Writing *)
Definition write_should_unblock : A bool := gets (λ s, negb (buffer_descriptor_list_is_full s)).
Definition start_dma : A unit :=
  control ← read8 CHANNEL_TRANSFTER_CONTROL;
  let control := Z.lor (Z.lor (Z.lor control TRANSFER_CONTROL_DMA_CONTROLLER)
    TRANSFER_CONTROL_FIFO_ERROR_INTERRUPT_ENABLE) TRANSFER_CONTROL_IOC_INTERRUPT_ENABLE in
  _ ← write8 CHANNEL_TRANSFTER_CONTROL control;
  modify (λ s, with_flags true (buffer_descriptor_list_is_full s) s).

Definition head_distance (running : bool) (current_idx last_valid_idx : Z) : Z :=
  let d := last_valid_idx - current_idx in
  let d := if d <? 0 then d + BUFFER_DESCRIPTOR_LIST_MAX_NUM_ENTRIES else d in
  if running then d + 1 else d.
(** The loop that waits for room, with its result. *)
Fixpoint wait_for_room (fuel : nat) (d : nat) : A Z :=
  match fuel with
  | O => out_of_fuel
  | Datatypes.S fuel =>
      current_idx ← read8 CHANNEL_CURRENT_INDEX;
      last_valid_idx ← read8 CHANNEL_LAST_VALID_INDEX;
      s ← get;
      let head_distance := head_distance (dma_is_running s) current_idx last_valid_idx in
      if OUTPUT_BUF_NUM_PAGES <? head_distance
      then _ ← put (with_list (buffer_descriptor_list s) (u8 (current_idx + 1)) s); mret 0
      else if head_distance <? OUTPUT_BUF_NUM_PAGES then mret 0
      else
        _ ← put (with_flags (dma_is_running s) true s);
        rc ← block_on kern with_kern d write_should_unblock;
        if IS_ERR rc then mret rc
        else
          s ← get;
          if dma_is_running s then wait_for_room fuel d else mret 0
  end.

(** [phys]: paging_virtual_to_physical_addr; the addresses of the two arrays. *)
Context (phys : Z → Z) (output_buf_addr list_addr : Z).

Definition write_single_buffer (fuel : nat) (d : nat) (data : list Z) : A Z :=
  rc ← wait_for_room fuel d;
  if IS_ERR rc then mret rc
  else
    s ← get;
    let dest := PAGE_SIZE * output_buf_page_idx s in
    _ ← (if (0 <=? dest) && (dest + Z.of_nat (length data) <=? Z.of_nat (length (output_buf s)))
         then put (with_buf (splice (Z.to_nat dest) data (output_buf s)) (output_buf_page_idx s) s) else undef);
    s ← get;
    let entry := BdEntry (phys (output_buf_addr + dest)) (u16 (Z.of_nat (length data) / 2))
      BUFFER_DESCRIPTOR_LIST_INTERRUPT_ON_COMPLETION in
    _ ← access (buffer_descriptor_list s !! Z.to_nat (buffer_descriptor_list_idx s));
    _ ← put (with_list (<[Z.to_nat (buffer_descriptor_list_idx s) := entry]> (buffer_descriptor_list s))
               (buffer_descriptor_list_idx s) s);
    p ← channel_port CHANNEL_BUFFER_DESCRIPTOR_LIST_PHYSICAL_ADDR;
    _ ← in_device (out32 p (phys list_addr));
    _ ← write8 CHANNEL_LAST_VALID_INDEX (buffer_descriptor_list_idx s);
    s ← get;
    _ ← when (negb (dma_is_running s)) start_dma;
    s ← get;
    _ ← put (with_list (buffer_descriptor_list s)
               ((buffer_descriptor_list_idx s + 1) mod BUFFER_DESCRIPTOR_LIST_MAX_NUM_ENTRIES)
               (with_buf (output_buf s) ((output_buf_page_idx s + 1) mod OUTPUT_BUF_NUM_PAGES) s));
    mret 0.
(** [rounds] is more than the pages of the buffer. *)
Fixpoint write_pages (rounds fuel : nat) (d : nat) (buffer : list Z) (nwritten : Z) : A Z :=
  match rounds with
  | O => out_of_fuel
  | Datatypes.S rounds =>
      if 0 <? Z.of_nat (length buffer) then
        let size := Z.min PAGE_SIZE (Z.of_nat (length buffer)) in
        rc ← write_single_buffer fuel d (take (Z.to_nat size) buffer);
        if IS_ERR rc then mret rc
        else write_pages rounds fuel d (drop (Z.to_nat size) buffer) (nwritten + size)
      else mret nwritten
  end.
Definition ac97_device_write (fuel : nat) (d : nat) (buffer : list Z) : A Z :=
  write_pages (Datatypes.S (length buffer)) fuel d buffer 0.

(** The value behind the argument goes in and comes out. *)
Definition ac97_device_ioctl (request value : Z) : A (Z * Z) :=
  rate ← mixer_port MIXER_SAMPLE_RATE;
  volume ← mixer_port MIXER_MASTER_OUTPUT_VOLUME;
  if request =? SOUND_GET_SAMPLE_RATE then v ← in_device (in16 rate); mret (0, v)
  else if request =? SOUND_SET_SAMPLE_RATE then
    _ ← in_device (out16 rate value);
    new_sample_rate ← in_device (in16 rate);
    s ← get;
    _ ← when (dma_is_running s) start_dma;
    mret (0, new_sample_rate)
  else if request =? SOUND_GET_ATTENUATION then v ← in_device (in16 volume); mret (0, v)
  else if request =? SOUND_SET_ATTENUATION then
    _ ← in_device (out16 volume value); v ← in_device (in16 volume); mret (0, v)
  else mret (ERR EINVAL, value).
End driver.

(** ** Finding and starting the device *)
Section init.
Context {D : Type} `{!Ports D}.
Abbreviation P := (K (pci (sound D))).
Definition in_driver {B} (m : K (sound D) B) : P B := zoom driver (λ s p, Pci (latch p) (regs p) s) m.

Definition pci_enumeration_callback (addr : pci_addr) (vendor_id device_id : Z) : P unit :=
  type ← pci_get_type addr;
  when (type =? PCI_TYPE_MULTIMEDIA_AUDIO_CONTROLLER) (
    bar0 ← pci_get_bar0 addr;
    bar1 ← pci_get_bar1 addr;
    in_driver (modify (detected addr (u16 (Z.ldiff bar0 1)) (u16 (Z.ldiff bar1 1))))).
(** The loop that waits for the end of the reset. *)
Fixpoint wait_reset (fuel : nat) : K (sound D) unit :=
  match fuel with
  | O => out_of_fuel
  | Datatypes.S fuel =>
      v ← read8 CHANNEL_TRANSFTER_CONTROL;
      if Z.land v TRANSFER_CONTROL_RESET =? 0 then mret tt else wait_reset fuel
  end.
Definition setup_device (fuel : nat) : K (sound D) unit :=
  s ← get;
  let global := u16 (bus_base s + BUS_GLOBAL_CONTROL) in
  control ← in_device (in32 global);
  _ ← in_device (out32 global (Z.lor (Z.lor control GLOBAL_CONTROL_GLOBAL_INTERRUPT_ENABLE) GLOBAL_CONTROL_COLD_RESET));
  p ← mixer_port MIXER_RESET_REGISTER; _ ← in_device (out16 p 1);
  p ← mixer_port MIXER_SAMPLE_RATE; _ ← in_device (out16 p 48000);
  p ← mixer_port MIXER_MASTER_OUTPUT_VOLUME; _ ← in_device (out16 p 0);
  p ← mixer_port MIXER_PCM_OUTPUT_VOLUME; _ ← in_device (out16 p 0);
  _ ← modify (λ s, with_channel (u16 (bus_base s + BUS_PCM_OUT)) s);
  _ ← write8 CHANNEL_TRANSFTER_CONTROL TRANSFER_CONTROL_RESET;
  wait_reset fuel.
Definition ac97_init (bus_fuel fuel : nat) : P bool :=
  _ ← pci_enumerate pci_enumeration_callback bus_fuel;
  s ← in_driver get;
  if negb (device_detected s) then mret false
  else
    _ ← pci_set_interrupt_line_enabled (device_addr s) true;
    _ ← pci_set_bus_mastering_enabled (device_addr s) true;
    _ ← in_driver (setup_device fuel);
    irq_num ← pci_get_interrupt_line (device_addr s);
    _ ← in_driver (zoom ints with_ints (idt_register_interrupt_handler (IRQ irq_num) (device_handler (IRQ irq_num))));
    mret true.
End init.

(** ** What the driver relies on *)
(** The registers of a channel at [ch]: reads answer bytes and leave the last
    valid index, which reads back and which only a write to it sets. *)
Class Channel (D : Type) `{!Ports D} (ch : Z) (lvi : D → Z) : Prop := {
  ch_range : 0 ≤ ch < 65536 - 16;
  in8_law p d : ∃ v d', in8 p d = Done v d' ∧ 0 ≤ v < 256 ∧ lvi d' = lvi d;
  civ_law d v d' : in8 (ch + CHANNEL_CURRENT_INDEX) d = Done v d' → v < 32;
  lvi_law d v d' : in8 (ch + CHANNEL_LAST_VALID_INDEX) d = Done v d' → v = lvi d;
  set_lvi_law v d : 0 ≤ v < 32 → ∃ d', out8 (ch + CHANNEL_LAST_VALID_INDEX) v d = Done tt d' ∧ lvi d' = v;
  out8_law p v d : p ≠ ch + CHANNEL_LAST_VALID_INDEX → ∃ d', out8 p v d = Done tt d' ∧ lvi d' = lvi d;
  list_law v d : ∃ d', out32 (ch + CHANNEL_BUFFER_DESCRIPTOR_LIST_PHYSICAL_ADDR) v d = Done tt d' ∧ lvi d' = lvi d;
}.

Section queue.
Context {D : Type} `{!Ports D} (ch : Z) (lvi : D → Z) `{!Channel D ch lvi}.
Context (phys : Z → Z) (output_buf_addr list_addr : Z).
Abbreviation A := (K (sound D)).
Arguments head_distance : simpl never.

(** Chunk [k] is where its descriptor says: its samples are in its page. *)
Definition in_place (s : sound D) (k : Z) (data : list Z) : Prop :=
  buffer_descriptor_list s !! Z.to_nat (k mod 32) =
    Some (BdEntry (phys (output_buf_addr + PAGE_SIZE * (k mod 4))) (u16 (Z.of_nat (length data) / 2))
            BUFFER_DESCRIPTOR_LIST_INTERRUPT_ON_COMPLETION) ∧
  take (length data) (drop (Z.to_nat (PAGE_SIZE * (k mod 4))) (output_buf s)) = data.
(** The chunks of [sent] were queued, of which the last four are in place. *)
Record queued (sent : list (list Z)) (s : sound D) : Prop := {
  q_channel : pcm_out_channel s = ch;
  q_buf : length (output_buf s) = Z.to_nat (PAGE_SIZE * 4);
  q_list : length (buffer_descriptor_list s) = 32%nat;
  q_page : output_buf_page_idx s = Z.of_nat (length sent) mod 4;
  q_idx : buffer_descriptor_list_idx s = Z.of_nat (length sent) mod 32;
  q_running : dma_is_running s = (0 <? Z.of_nat (length sent));
  q_lvi : lvi (device s) = if decide (sent = []) then 0 else (Z.of_nat (length sent) - 1) mod 32;
  q_place : ∀ k data, sent !! k = Some data → (length sent - 4 ≤ k)%nat → in_place s (Z.of_nat k) data;
  q_sizes : Forall (λ data, Z.of_nat (length data) ≤ PAGE_SIZE) sent;
}.
(** The number of entries the device has to play when its current index is [c]. *)
Definition to_play (s : sound D) (c : Z) : Z := head_distance (dma_is_running s) c (lvi (device s)).

Lemma ch_port off : 0 ≤ off < 16 → u16 (ch + off) = ch + off.
Proof. intros Ho. pose proof (ch_range (Channel := _)) as Hc. unfold u16. apply Z.mod_small. lia. Qed.
Lemma wp_read8 off s (Q : Z → sound D → Prop) :
  pcm_out_channel s = ch → 0 ≤ off < 16 →
  (∀ v d', in8 (ch + off) (device s) = Done v d' → 0 ≤ v < 256 → lvi d' = lvi (device s) → Q v (with_device d' s)) →
  wp (read8 off) Q s.
Proof.
  intros Hc Ho HQ. unfold read8, channel_port, in_device. wp_keep. rewrite Hc, ch_port by done.
  destruct (in8_law (ch + off) (device s)) as (v & d' & E & Hv & Hl). eapply wp_run; [exact E|]. by apply HQ.
Qed.
Lemma wp_write8 off v s (Q : unit → sound D → Prop) :
  pcm_out_channel s = ch → 0 ≤ off < 16 → off ≠ CHANNEL_LAST_VALID_INDEX →
  (∀ d', lvi d' = lvi (device s) → Q tt (with_device d' s)) → wp (write8 off v) Q s.
Proof.
  intros Hc Ho Hne HQ. unfold write8, channel_port, in_device. wp_keep. rewrite Hc, ch_port by done.
  destruct (out8_law (ch + off) v (device s)) as (d' & E & Hl); [lia|]. eapply wp_run; [exact E|]. by apply HQ.
Qed.
Lemma wp_set_lvi v s (Q : unit → sound D → Prop) :
  pcm_out_channel s = ch → 0 ≤ v < 32 → (∀ d', lvi d' = v → Q tt (with_device d' s)) →
  wp (write8 CHANNEL_LAST_VALID_INDEX v) Q s.
Proof.
  intros Hc Hv HQ. unfold write8, channel_port, in_device. wp_keep. rewrite Hc, ch_port by done.
  destruct (set_lvi_law v (device s) Hv) as (d' & E & Hl). eapply wp_run; [exact E|]. by apply HQ.
Qed.
Lemma wp_start_dma s (Q : unit → sound D → Prop) :
  pcm_out_channel s = ch →
  (∀ d', lvi d' = lvi (device s) → Q tt (with_flags true (buffer_descriptor_list_is_full s) (with_device d' s))) →
  wp start_dma Q s.
Proof.
  intros Hc HQ. unfold start_dma. wp_keep. apply wp_read8; [done|done|]. intros v d' _ _ Hl. wp_keep.
  apply wp_write8; [done|done|done|]. intros d2 Hl2. wp_keep. apply (HQ d2). by rewrite Hl2.
Qed.

(** Room, as the next reading of the current index tells it. *)
Definition room (s : sound D) : Prop :=
  ∀ c d', in8 (ch + CHANNEL_CURRENT_INDEX) (device s) = Done c d' → to_play s c < OUTPUT_BUF_NUM_PAGES.
Lemma wp_wait_for_room fuel d s (Q : Z → sound D → Prop) :
  pcm_out_channel s = ch → room s →
  (∀ d', lvi d' = lvi (device s) → Q 0 (with_device d' s)) → wp (wait_for_room (Datatypes.S fuel) d) Q s.
Proof.
  intros Hc Hr HQ. cbn [wait_for_room]. wp_keep. apply wp_read8; [done|done|]. intros c d1 E1 _ L1. wp_keep.
  apply wp_read8; [done|done|]. intros l d2 E2 _ L2. wp_keep.
  apply (lvi_law (lvi := lvi)) in E2. cbn [device with_device] in E2, L2.
  pose proof (Hr c d1 E1) as Hlt. unfold to_play in Hlt. subst l. rewrite L1. cbn [dma_is_running with_device].
  rewrite (proj2 (Z.ltb_ge _ _)), (proj2 (Z.ltb_lt _ _)) by lia. wp_keep.
  apply (HQ d2). congruence.
Qed.

(** A chunk leaves the others alone. *)
Lemma in_place_kept s s' k j data chunk :
  length (output_buf s) = Z.to_nat (PAGE_SIZE * 4) → 0 ≤ k → k < j < k + 4 →
  Z.of_nat (length data) ≤ PAGE_SIZE → Z.of_nat (length chunk) ≤ PAGE_SIZE →
  output_buf s' = splice (Z.to_nat (PAGE_SIZE * (j mod 4))) chunk (output_buf s) →
  (∀ i, i ≠ j mod 32 → 0 ≤ i → buffer_descriptor_list s' !! Z.to_nat i = buffer_descriptor_list s !! Z.to_nat i) →
  in_place s k data → in_place s' k data.
Proof.
  unfold PAGE_SIZE. intros Hlen Hk Hj Hd Hch Hbuf Hlist [Hent Hdata].
  pose proof (Z.mod_pos_bound k 4 ltac:(lia)) as Hk4. pose proof (Z.mod_pos_bound j 4 ltac:(lia)) as Hj4.
  pose proof (Z_div_mod_eq_full k 4) as Ek. pose proof (Z_div_mod_eq_full j 4) as Ej.
  pose proof (Z.mod_pos_bound k 32 ltac:(lia)) as Hk32.
  pose proof (Z_div_mod_eq_full k 32) as Ek'. pose proof (Z_div_mod_eq_full j 32) as Ej'.
  pose proof (Z.mod_pos_bound j 32 ltac:(lia)) as Hj32.
  split.
  - rewrite Hlist; [exact Hent|lia|lia].
  - unfold PAGE_SIZE in *. rewrite Hbuf. rewrite <-Hdata at 2. apply list_eq. intros i.
    destruct (decide (i < length data)%nat); [|by rewrite !lookup_take_ge by lia].
    rewrite !lookup_take_lt, !lookup_drop by lia. apply splice_lookup_out; [lia|]. lia.
Qed.

Lemma mod_succ n m : 0 < m → (n mod m + 1) mod m = (n + 1) mod m.
Proof. intros Hm. by rewrite Z.add_mod_idemp_l by lia. Qed.
Lemma queued_snoc sent data s s' :
  queued sent s → Z.of_nat (length data) ≤ PAGE_SIZE → pcm_out_channel s' = ch →
  output_buf s' = splice (Z.to_nat (PAGE_SIZE * output_buf_page_idx s)) data (output_buf s) →
  buffer_descriptor_list s' = <[Z.to_nat (buffer_descriptor_list_idx s) :=
    BdEntry (phys (output_buf_addr + PAGE_SIZE * output_buf_page_idx s)) (u16 (Z.of_nat (length data) / 2))
      BUFFER_DESCRIPTOR_LIST_INTERRUPT_ON_COMPLETION]> (buffer_descriptor_list s) →
  output_buf_page_idx s' = (output_buf_page_idx s + 1) mod OUTPUT_BUF_NUM_PAGES →
  buffer_descriptor_list_idx s' = (buffer_descriptor_list_idx s + 1) mod BUFFER_DESCRIPTOR_LIST_MAX_NUM_ENTRIES →
  dma_is_running s' = true → lvi (device s') = buffer_descriptor_list_idx s →
  queued (sent ++ [data]) s'.
Proof.
  intros [Hc Hb Hl Hp Hi Hr Hv Hpl Hs] Hd Hc' Hb' Hl' Hp' Hi' Hr' Hv'.
  set (n := Z.of_nat (length sent)) in *.
  assert (Z.of_nat (length (sent ++ [data])) = n + 1) as Hn by (rewrite length_app; cbn; lia).
  pose proof (Z.mod_pos_bound n 4 ltac:(lia)) as Hn4. pose proof (Z.mod_pos_bound n 32 ltac:(lia)) as Hn32.
  constructor.
  - done.
  - rewrite Hb', Hp. apply eq_trans with (length (output_buf s)); [|done].
    apply length_splice. rewrite Hb. unfold PAGE_SIZE in *. lia.
  - by rewrite Hl', length_insert.
  - by rewrite Hn, Hp', Hp, mod_succ.
  - by rewrite Hn, Hi', Hi, mod_succ.
  - rewrite Hn, Hr'. symmetry. apply Z.ltb_lt. lia.
  - rewrite Hv', Hi, Hn. rewrite decide_False by (intros E; apply (f_equal length) in E; rewrite length_app in E; cbn in E; lia).
    f_equal. lia.
  - intros k d Hk Hge. rewrite length_app in Hge. cbn in Hge.
    destruct (decide (k = length sent)) as [->|Hne].
    + rewrite lookup_app_r, Nat.sub_diag in Hk by lia. injection Hk as <-. fold n. split.
      * rewrite Hl', Hi, Hp, list_lookup_insert_eq by lia. done.
      * rewrite Hb', Hp. apply list_eq. intros i. destruct (decide (i < length data)%nat) as [Hlt|Hge'].
        -- rewrite lookup_take_lt, lookup_drop by lia.
           rewrite splice_lookup_in by (rewrite ?Hb; unfold PAGE_SIZE in *; lia). f_equal. lia.
        -- rewrite lookup_take_ge by lia. symmetry. apply lookup_ge_None. lia.
    + pose proof (lookup_lt_Some _ _ _ Hk) as Hlt. rewrite length_app in Hlt. cbn in Hlt.
      rewrite lookup_app_l in Hk by lia. pose proof (proj1 (Forall_lookup _ _) Hs _ _ Hk) as Hsize.
      apply (in_place_kept s s' (Z.of_nat k) n d data); try done; try lia.
      * by rewrite Hb', Hp.
      * intros i Hi32 Hi0. rewrite Hl', Hi. apply list_lookup_insert_ne. lia.
      * apply Hpl; [done|lia].
  - apply Forall_app. split; [done|]. by apply Forall_singleton.
Qed.

Lemma wp_write_single_buffer fuel d data sent s (Q : Z → sound D → Prop) :
  queued sent s → Z.of_nat (length data) ≤ PAGE_SIZE → room s →
  (∀ s', queued (sent ++ [data]) s' → Q 0 s') →
  wp (write_single_buffer phys output_buf_addr list_addr (Datatypes.S fuel) d data) Q s.
Proof.
  intros Hq Hd Hroom HQ. pose proof Hq as [Hc Hb Hl Hp Hi Hr Hv Hpl Hs].
  set (n := Z.of_nat (length sent)) in *.
  pose proof (Z.mod_pos_bound n 4 ltac:(lia)) as Hn4. pose proof (Z.mod_pos_bound n 32 ltac:(lia)) as Hn32.
  pose proof (ch_range (ch := ch)) as Hch.
  unfold write_single_buffer. apply wp_bind, wp_wait_for_room; [done|done|]. intros d1 Hl1.
  change (IS_ERR 0) with false. cbv iota zeta. wp_keep. cbn [output_buf_page_idx with_device output_buf].
  rewrite (proj2 (Z.leb_le _ _)), (proj2 (Z.leb_le _ _)) by (rewrite ?Hb, ?Hp; unfold PAGE_SIZE in *; lia).
  cbn [andb]. wp_keep. cbn [buffer_descriptor_list buffer_descriptor_list_idx with_buf with_device].
  destruct (lookup_lt_is_Some_2 (buffer_descriptor_list s) (Z.to_nat (buffer_descriptor_list_idx s))) as [e He]; [lia|].
  eapply wp_access; [exact He|]. unfold channel_port, in_device. wp_keep.
  cbn [pcm_out_channel with_list with_buf with_device]. rewrite Hc, ch_port by (by vm_compute).
  destruct (list_law (ch := ch) (lvi := lvi) (phys list_addr)
    (device (with_list (buffer_descriptor_list s) (buffer_descriptor_list_idx s) (with_device d1 s)))) as (d2 & E2 & Hl2).
  eapply wp_run; [exact E2|]. wp_keep.
  apply wp_set_lvi; [done|lia|]. intros d3 Hl3. wp_keep. apply wp_when.
  - cbn [dma_is_running with_device with_list with_buf]. intros Hnr. apply wp_start_dma; [done|]. intros d4 Hl4. wp_keep.
    apply HQ. eapply queued_snoc; [exact Hq|done|..]; try done. cbn. by rewrite Hl4.
  - cbn [dma_is_running with_device with_list with_buf]. intros Hrun. apply negb_false_iff in Hrun. wp_keep.
    apply HQ. eapply queued_snoc; [exact Hq|done|..]; try done.
Qed.

(** ** Theorems *)

(** When the device has at most three entries to play, one more page is queued;
    what was queued, the four last chunks at least and so all that the device has
    still to play, is in place: its descriptor and its samples are as before. *)
Lemma write_single_buffer_queues fuel d data sent s :
  queued sent s → Z.of_nat (length data) ≤ PAGE_SIZE → room s →
  wp (write_single_buffer phys output_buf_addr list_addr (Datatypes.S fuel) d data)
    (λ rc s', rc = 0 ∧ queued (sent ++ [data]) s') s.
Proof. intros Hq Hd Hr. by eapply wp_write_single_buffer. Qed.

(** When the device has four, a description that does not wait gets -EAGAIN and
    the queue stays; the flag for the interrupt is set. *)
Lemma write_single_buffer_full fuel d x data sent s :
  queued sent s → descs (kern s) !! d = Some x → has_flag (d_flags x) O_NONBLOCK = true →
  (∀ c d', in8 (ch + CHANNEL_CURRENT_INDEX) (device s) = Done c d' → to_play s c = OUTPUT_BUF_NUM_PAGES) →
  wp (write_single_buffer phys output_buf_addr list_addr (Datatypes.S fuel) d data)
    (λ rc s', rc = ERR EAGAIN ∧ queued sent s' ∧ buffer_descriptor_list_is_full s' = true) s.
Proof.
  intros Hq Hx Hnb Hfull. pose proof (q_channel _ _ Hq) as Hc.
  unfold write_single_buffer. apply wp_bind. cbn [wait_for_room]. wp_keep.
  apply wp_read8; [done|done|]. intros c d1 E1 _ L1. wp_keep.
  apply wp_read8; [done|done|]. intros l d2 E2 _ L2. wp_keep.
  apply (lvi_law (lvi := lvi)) in E2. cbn [device with_device] in E2, L2. subst l.
  pose proof (Hfull c d1 E1) as Heq. unfold to_play in Heq. rewrite L1. cbn [dma_is_running with_device]. rewrite Heq.
  change (OUTPUT_BUF_NUM_PAGES <? OUTPUT_BUF_NUM_PAGES) with false. cbv iota. wp_keep.
  unfold block_on, desc. wp_keep. cbn [kern with_flags with_device]. eapply wp_access; [exact Hx|]. wp_keep.
  rewrite Hnb. unfold write_should_unblock. wp_keep.
  cbn [negb buffer_descriptor_list_is_full with_flags with_kern]. cbv iota. wp_keep.
  change (IS_ERR (ERR EAGAIN)) with true. cbv iota. wp_keep. cbv iota. wp_keep. split; [done|]. split; [|done].
  destruct Hq. constructor; try done. cbn. congruence.
Qed.

(** A write of any length to a device that keeps up queues the pages of the
    buffer in order and answers its length. *)
Fixpoint chunks (rounds : nat) (buffer : list Z) : list (list Z) :=
  match rounds with
  | O => []
  | Datatypes.S rounds =>
      if 0 <? Z.of_nat (length buffer)
      then take (Z.to_nat PAGE_SIZE) buffer :: chunks rounds (drop (Z.to_nat PAGE_SIZE) buffer) else []
  end.
Lemma chunks_concat rounds buffer : (length buffer < rounds)%nat → concat (chunks rounds buffer) = buffer.
Proof.
  revert buffer. induction rounds as [|rounds IH]; intros buffer Hl; cbn [chunks]; [lia|].
  destruct (Z.ltb_spec 0 (Z.of_nat (length buffer))) as [Hpos|Hz]; [|by destruct buffer; [|cbn in Hz; lia]].
  cbn [concat]. rewrite IH; [apply take_drop|]. rewrite length_drop. unfold PAGE_SIZE. lia.
Qed.
Lemma ac97_device_write_queues fuel d buffer sent s :
  (∀ sent s, queued sent s → room s) → queued sent s →
  wp (ac97_device_write phys output_buf_addr list_addr (Datatypes.S fuel) d buffer)
    (λ r s', r = Z.of_nat (length buffer) ∧ ∃ pages, concat pages = buffer ∧ queued (sent ++ pages) s') s.
Proof.
  intros Hroom Hq. unfold ac97_device_write.
  assert (∀ rounds buffer nwritten sent s, queued sent s → (length buffer < rounds)%nat →
    wp (write_pages phys output_buf_addr list_addr rounds (Datatypes.S fuel) d buffer nwritten)
      (λ r s', r = nwritten + Z.of_nat (length buffer) ∧ queued (sent ++ chunks rounds buffer) s') s) as Hloop.
  2:{ eapply wp_mono; [apply Hloop; [exact Hq|lia]|]. intros r s' [-> Hq']. split; [lia|].
      eexists. split; [|exact Hq']. apply chunks_concat. lia. }
  clear Hq sent s buffer. intros rounds.
  induction rounds as [|rounds IH]; intros buffer nwritten sent s Hq Hl; cbn [write_pages chunks]; [lia|].
  destruct (Z.ltb_spec 0 (Z.of_nat (length buffer))) as [Hpos|Hz].
  2:{ wp_keep. rewrite app_nil_r. split; [lia|done]. }
  assert (take (Z.to_nat (Z.min PAGE_SIZE (Z.of_nat (length buffer)))) buffer = take (Z.to_nat PAGE_SIZE) buffer ∧
          drop (Z.to_nat (Z.min PAGE_SIZE (Z.of_nat (length buffer)))) buffer = drop (Z.to_nat PAGE_SIZE) buffer) as [-> ->].
  { destruct (Z.leb_spec (Z.of_nat (length buffer)) PAGE_SIZE) as [Hle|Hgt].
    - rewrite Z.min_r, !take_ge, !drop_ge by (unfold PAGE_SIZE in *; lia). done.
    - by rewrite Z.min_l by (unfold PAGE_SIZE in *; lia). }
  apply wp_bind, (wp_write_single_buffer _ _ _ sent); [done| |by eapply Hroom|].
  { rewrite length_take. unfold PAGE_SIZE. lia. }
  intros s' Hq'. change (IS_ERR 0) with false. cbv iota.
  eapply wp_mono; [apply IH; [exact Hq'|]|].
  { rewrite length_drop. unfold PAGE_SIZE. lia. }
  intros r s2 [-> Hq2]. rewrite length_drop. split; [unfold PAGE_SIZE; lia|]. by rewrite <-app_assoc in Hq2.
Qed.
End queue.

(** The interrupt handler forgets the status it read before it looks for the bit
    of the stopped device: the driver believes for ever that the device runs. *)
Lemma irq_handler_never_stops {D} `{!Ports D} (s s' : sound D) :
  irq_handler s = Done tt s' → dma_is_running s' = dma_is_running s.
Proof.
  intros H. unfold irq_handler, channel_port, in_device in H.
  apply bind_Done in H as (p & s1 & [= <- <-] & H). apply bind_Done in H as (status & s1 & H1 & H).
  unfold zoom in H1. destruct (in16 _ _); [|done..]. injection H1 as -> <-.
  destruct (Z.land status _ =? 0); [by injection H as <-|].
  apply bind_Done in H as (? & s2 & H2 & H). unfold zoom in H2. destruct (out16 _ _ _); [|done..]. injection H2 as _ <-.
  apply bind_Done in H as (? & s3 & H3 & H). change (when _ _) with (mret tt : K (sound D) unit) in H3.
  injection H3 as _ <-. by injection H as <-.
Qed.

(** ** Witnesses: a device that has played everything it was given *)
Record prompt : Type := Prompt { last_valid : Z; registers : Z → Z }.
Definition prompt_channel : Z := 0x110.
#[global] Instance prompt_ports : Ports prompt := {
  in8 p := gets (λ d, if (p =? prompt_channel + CHANNEL_LAST_VALID_INDEX) || (p =? prompt_channel + CHANNEL_CURRENT_INDEX)
                      then u8 (last_valid d) mod 32 else u8 (registers d p));
  in16 p := gets (λ d, u16 (registers d p));
  in32 p := gets (λ d, u32 (registers d p));
  out8 p v := modify (λ d, if p =? prompt_channel + CHANNEL_LAST_VALID_INDEX then Prompt v (registers d)
                           else Prompt (last_valid d) (λ q, if q =? p then v else registers d q));
  out16 p v := modify (λ d, Prompt (last_valid d) (λ q, if q =? p then v else registers d q));
  out32 p v := modify (λ d, Prompt (last_valid d) (λ q, if q =? p then v else registers d q));
}.
Definition prompt_lvi (d : prompt) : Z := u8 (last_valid d) mod 32.
#[global] Instance prompt_is_channel : Channel prompt prompt_channel prompt_lvi.
Proof.
  constructor.
  - by vm_compute.
  - intros p d. eexists _, d. split; [reflexivity|]. split; [|done].
    destruct (_ || _); [pose proof (Z.mod_pos_bound (u8 (last_valid d)) 32); lia|apply u8_range].
  - intros d v d' [= <- <-]. by apply Z.mod_pos_bound.
  - intros d v d' [= <- <-]. done.
  - intros v d Hv. eexists. split; [reflexivity|]. rewrite Z.eqb_refl. unfold prompt_lvi. cbn [last_valid].
    rewrite u8_small by lia. by apply Z.mod_small.
  - intros p v d Hp. eexists. split; [reflexivity|]. by rewrite (proj2 (Z.eqb_neq _ _) Hp).
  - intros v d. eexists. split; [reflexivity|done].
Qed.
Lemma prompt_room (sent : list (list Z)) (s : sound prompt) : room prompt_channel prompt_lvi s.
Proof.
  intros c d' [= <- _]. unfold to_play, head_distance, prompt_lvi, OUTPUT_BUF_NUM_PAGES.
  rewrite Z.sub_diag. cbn. destruct (dma_is_running s); lia.
Qed.
Definition idle_sound (k : kstate) : sound prompt :=
  SoundState (Prompt 0 (λ _, 0)) k no_interrupts true (PciAddr 0 4 0) 0 0x100 prompt_channel false false
    (replicate (Z.to_nat (PAGE_SIZE * 4)) 0) 0 (replicate 32 (BdEntry 0 0 0)) 0.
Lemma idle_queued k : queued prompt_channel prompt_lvi id 0x5000 [] (idle_sound k).
Proof. constructor; try done. Qed.
Lemma ac97_device_write_queues_witness k :
  wp (ac97_device_write id 0x5000 0x9000 1 0 (replicate 5000 7)) (λ r s', r = 5000 ∧
    ∃ pages, concat pages = replicate 5000 7 ∧ queued prompt_channel prompt_lvi id 0x5000 ([] ++ pages) s') (idle_sound k).
Proof.
  pose proof (ac97_device_write_queues prompt_channel prompt_lvi id 0x5000 0x9000 0 0 (replicate 5000 7) [] (idle_sound k)
    (λ sent s _, prompt_room sent s) (idle_queued k)) as H.
  rewrite length_replicate in H. exact H.
Qed.
