(* ===== verification/Serial.v ===== *)
(** * Serial ports and kernel messages (kernel/serial.c, kernel/kprintf.c)

    The driver of the four serial ports behind the port instructions. A received
    byte goes to the console of its port; a sent one waits for the transmitter.
    [Uart] says what the driver relies on: a queue of received bytes, of which the
    status register and the data register tell, a list of sent ones, and a
    transmitter that gets ready. *)
From stdpp Require Import fin_maps.
From S2P Require Import Prelude.
From S2P Require Import CString.
From S2P Require Import CLib.
From S2P Require Import Format.
From S2P Require Import Kernel.
From S2P Require Import Keyboard.
From S2P Require Import Interrupts.
From S2P Require Import Ports.

Definition DATA_READY : Z := 0x1.
Definition TRANSMITTER_HOLDING_REGISTER_EMPTY : Z := 0x20.

(** The ports, the consoles behind them, and the table of handlers. *)
Record serial (D : Type) : Type := SerialState { ports : D; consoles : machine; ints : interrupts }.
#[global] Arguments SerialState {D}.
#[global] Arguments ports {D}.
#[global] Arguments consoles {D}.
#[global] Arguments ints {D}.

Section serial.
Context {D : Type} `{!Ports D}.
Abbreviation R := (K (serial D)).

Definition in_ports {A} (m : K D A) : R A := zoom ports (λ d s, SerialState d (consoles s) (ints s)) m.
Definition in_consoles {A} (m : K machine A) : R A := zoom consoles (λ c s, SerialState (ports s) c (ints s)) m.
Definition in_ints {A} (m : K interrupts A) : R A := zoom ints (λ i s, SerialState (ports s) (consoles s) i) m.

Definition init_port (port : Z) : R unit :=
  _ ← in_ports (out8 (port + 1) 0x00);
  _ ← in_ports (out8 (port + 3) 0x80);
  _ ← in_ports (out8 (port + 0) 0x03);
  _ ← in_ports (out8 (port + 1) 0x00);
  _ ← in_ports (out8 (port + 3) 0x03);
  _ ← in_ports (out8 (port + 2) 0xc7);
  in_ports (out8 (port + 4) 0x0b).
Definition serial_init : R unit := init_port SERIAL_COM1.

Definition read_and_report (port : Z) : R bool :=
  status ← in_ports (in8 (port + 5));
  if negb (status =? 0xff) && negb (Z.land status 1 =? 0) then
    c ← in_ports (in8 port);
    _ ← in_consoles (serial_console_on_char port c);
    mret true
  else mret false.
(** [while (read_and_report(a) || read_and_report(b));] *)
Fixpoint drain (fuel : nat) (a b : Z) : R unit :=
  match fuel with
  | O => out_of_fuel
  | S fuel =>
      ra ← read_and_report a;
      again ← (if ra : bool then mret true else read_and_report b);
      if again : bool then drain fuel a b else mret tt
  end.
Definition handle_1_and_3 (fuel : nat) : R unit := drain fuel SERIAL_COM1 SERIAL_COM3.
Definition handle_2_and_4 (fuel : nat) : R unit := drain fuel SERIAL_COM2 SERIAL_COM4.

Definition serial_enable_port (port : Z) : R bool :=
  if negb (serial_is_valid_port port) then mret false
  else
    _ ← init_port port;
    _ ← in_ports (out8 (port + 4) 0x1e);
    _ ← in_ports (out8 (port + 0) 0xae);
    v ← in_ports (in8 (port + 0));
    if negb (v =? 0xae) then mret false
    else
      _ ← in_ports (out8 (port + 4) 0x0f);
      _ ← in_ports (out8 (port + 1) 0x01);
      if (port =? SERIAL_COM1) || (port =? SERIAL_COM3)
      then _ ← in_ints (idt_register_interrupt_handler (IRQ 4) (device_handler (IRQ 4))); mret true
      else if (port =? SERIAL_COM2) || (port =? SERIAL_COM4)
      then _ ← in_ints (idt_register_interrupt_handler (IRQ 3) (device_handler (IRQ 3))); mret true
      else panic.

Fixpoint wait_transmitter (fuel : nat) (port : Z) : R unit :=
  match fuel with
  | O => out_of_fuel
  | S fuel =>
      status ← in_ports (in8 (port + 5));
      if Z.land status TRANSMITTER_HOLDING_REGISTER_EMPTY =? 0 then wait_transmitter fuel port else mret tt
  end.
Definition write_char (fuel : nat) (port c : Z) : R unit :=
  _ ← wait_transmitter fuel port; in_ports (out8 port c).
Fixpoint write_chars (fuel : nat) (port : Z) (s : list Z) : R unit :=
  match s with
  | [] => mret tt
  | c :: s =>
      _ ← when (c =? 10) (write_char fuel port 13);
      _ ← write_char fuel port c;
      write_chars fuel port s
  end.
Definition serial_write (fuel : nat) (port : Z) (s : list Z) : R Z :=
  _ ← write_chars fuel port s; mret (Z.of_nat (length s)).

(** ** kprintf.c *)

(** A string in memory of its own. *)
Definition kputs (fuel : nat) (str : mem) : R Z :=
  match strlen 0 str with
  | Done n _ => serial_write fuel SERIAL_COM1 (take n str)
  | Panic => panic
  | Undef => undef
  | OutOfFuel => out_of_fuel
  end.
(** [garbage]: what the buffer on the stack holds before. *)
Definition kprintf (fuel : nat) (garbage : mem) (format : list Z) (args : list arg) : R Z :=
  match vsnprintf 0 1024 format args garbage with
  | Done ret buf => _ ← kputs fuel buf; mret ret
  | Panic => panic
  | Undef => undef
  | OutOfFuel => out_of_fuel
  end.

(** ** What the driver relies on *)

(** [rx]: received and not yet read; [tx]: sent; [busy]: how many readings of the
    status until the transmitter is ready, [patience] at most. *)
Class Uart (rx tx : D → Z → list Z) (busy : D → Z → nat) (patience : nat) : Prop := {
  status_law p d : serial_is_valid_port p = true → ∃ v d', in8 (p + 5) d = Done v d' ∧
    (∀ q, rx d' q = rx d q ∧ tx d' q = tx d q) ∧
    negb (v =? 0xff) && negb (Z.land v DATA_READY =? 0) = negb (bool_decide (rx d p = [])) ∧
    (Z.land v TRANSMITTER_HOLDING_REGISTER_EMPTY = 0 → (busy d' p < busy d p)%nat);
  receive_law p d c l : serial_is_valid_port p = true → rx d p = c :: l → ∃ d', in8 p d = Done c d' ∧
    ∀ q, rx d' q = (if decide (q = p) then l else rx d q) ∧ tx d' q = tx d q;
  send_law p d c : serial_is_valid_port p = true → ∃ d', out8 p c d = Done tt d' ∧
    ∀ q, rx d' q = rx d q ∧ tx d' q = (if decide (q = p) then tx d q ++ [c] else tx d q);
  busy_law d p : (busy d p ≤ patience)%nat;
}.
End serial.

Section uart.
Context {D : Type} `{!Ports D} (rx tx : D → Z → list Z) (busy : D → Z → nat) (patience : nat).
Context `{!Uart rx tx busy patience}.
Abbreviation R := (K (serial D)).

(** The consoles get the bytes of a list, each with its port. *)
Fixpoint deliver (l : list (Z * Z)) : K machine unit :=
  match l with
  | [] => mret tt
  | (port, c) :: l => _ ← serial_console_on_char port c; deliver l
  end.
Definition from_port (port : Z) (l : list Z) : list (Z * Z) := (λ c, (port, c)) <$> l.
(** The devices differ in what was received on [p] only. *)
Definition received (p : Z) (l : list Z) (d d' : D) : Prop :=
  ∀ q, rx d' q = (if decide (q = p) then l else rx d q) ∧ tx d' q = tx d q.

Lemma wp_read_none p s (Q : bool → serial D → Prop) :
  serial_is_valid_port p = true → rx (ports s) p = [] →
  (∀ d', (∀ q, rx d' q = rx (ports s) q ∧ tx d' q = tx (ports s) q) → Q false (SerialState d' (consoles s) (ints s))) →
  wp (read_and_report p) Q s.
Proof.
  intros Hp Hrx HQ. unfold read_and_report, in_ports. wp_keep.
  destruct (status_law p (ports s) Hp) as (v & d' & E & Hsame & Hready & _). eapply wp_run; [exact E|].
  rewrite bool_decide_eq_true_2 in Hready by done. unfold DATA_READY in Hready. rewrite Hready. cbn [negb]. wp_keep.
  by apply HQ.
Qed.
Lemma wp_read_some p c l m' s (Q : bool → serial D → Prop) :
  serial_is_valid_port p = true → rx (ports s) p = c :: l →
  serial_console_on_char p c (consoles s) = Done tt m' →
  (∀ d', received p l (ports s) d' → Q true (SerialState d' m' (ints s))) →
  wp (read_and_report p) Q s.
Proof.
  intros Hp Hrx Hm HQ. unfold read_and_report, in_ports, in_consoles. wp_keep.
  destruct (status_law p (ports s) Hp) as (v & d1 & E & Hsame & Hready & _). eapply wp_run; [exact E|].
  rewrite bool_decide_eq_false_2 in Hready by congruence. unfold DATA_READY in Hready. rewrite Hready. cbn [negb]. wp_keep.
  destruct (receive_law p d1 c l Hp) as (d2 & E2 & Hrec); [by rewrite (proj1 (Hsame p))|].
  cbn [ports]. eapply wp_run; [exact E2|]. wp_keep. cbn [consoles]. eapply wp_run; [exact Hm|]. wp_keep. apply (HQ d2).
  intros q. destruct (Hrec q) as [H1 H2], (Hsame q) as [H3 H4]. rewrite H1, H2, H3, H4. done.
Qed.

Lemma deliver_cons p c l m m' :
  deliver ((p, c) :: l) m = Done tt m' → ∃ m1, serial_console_on_char p c m = Done tt m1 ∧ deliver l m1 = Done tt m'.
Proof. intros H. cbn [deliver] in H. apply bind_Done in H as ([] & m1 & H1 & H2). by exists m1. Qed.

(** All bytes of both ports are delivered, those of the first port first. *)
Lemma wp_drain fuel a b la lb m' s (Q : unit → serial D → Prop) :
  serial_is_valid_port a = true → serial_is_valid_port b = true → a ≠ b →
  rx (ports s) a = la → rx (ports s) b = lb → (length la + length lb < fuel)%nat →
  deliver (from_port a la ++ from_port b lb) (consoles s) = Done tt m' →
  (∀ d', rx d' a = [] → rx d' b = [] → (∀ q, tx d' q = tx (ports s) q) → Q tt (SerialState d' m' (ints s))) →
  wp (drain fuel a b) Q s.
Proof.
  intros Ha Hb Hab. revert la lb s. induction fuel as [|fuel IH]; intros la lb s Hla Hlb Hf Hm HQ; [lia|].
  cbn [drain]. apply wp_bind. destruct la as [|c la].
  - apply wp_read_none; [done|done|]. intros d1 H1. cbn iota. apply wp_bind.
    destruct lb as [|c lb].
    + apply wp_read_none; [done|cbn [ports]; by rewrite (proj1 (H1 b))|]. intros d2 H2. cbn iota. wp_keep.
      injection Hm as <-. cbn [consoles ports ints] in *. apply HQ.
      * by rewrite (proj1 (H2 a)), (proj1 (H1 a)).
      * by rewrite (proj1 (H2 b)), (proj1 (H1 b)).
      * intros q. by rewrite (proj2 (H2 q)), (proj2 (H1 q)).
    + apply deliver_cons in Hm as (m1 & Hc & Hm).
      apply (wp_read_some b c lb m1); [done|cbn [ports]; by rewrite (proj1 (H1 b))|exact Hc|].
      intros d2 H2. cbn iota. cbn [ports ints consoles] in *. apply (IH [] lb); cbn [ports consoles ints].
      * rewrite (proj1 (H2 a)), decide_False by done. by rewrite (proj1 (H1 a)).
      * by rewrite (proj1 (H2 b)), decide_True by done.
      * cbn in *. lia.
      * exact Hm.
      * intros d3 E1 E2 Ht. apply HQ; [done|done|]. intros q. by rewrite Ht, (proj2 (H2 q)), (proj2 (H1 q)).
  - apply deliver_cons in Hm as (m1 & Hc & Hm). apply (wp_read_some a c la m1); [done|done|exact Hc|].
    intros d2 H2. cbn iota. wp_keep. cbn iota. apply (IH la lb); cbn [ports consoles ints].
    + by rewrite (proj1 (H2 a)), decide_True by done.
    + by rewrite (proj1 (H2 b)), decide_False by done.
    + cbn in *. lia.
    + exact Hm.
    + intros d3 E1 E2 Ht. apply HQ; [done|done|]. intros q. by rewrite Ht, (proj2 (H2 q)).
Qed.

(** ** Sending *)
Lemma wp_wait_transmitter fuel p s (Q : unit → serial D → Prop) :
  serial_is_valid_port p = true → (busy (ports s) p < fuel)%nat →
  (∀ d', (∀ q, rx d' q = rx (ports s) q ∧ tx d' q = tx (ports s) q) → Q tt (SerialState d' (consoles s) (ints s))) →
  wp (wait_transmitter fuel p) Q s.
Proof.
  intros Hp. revert s. induction fuel as [|fuel IH]; intros s Hf HQ; [lia|]. cbn [wait_transmitter].
  unfold in_ports. wp_keep. destruct (status_law p (ports s) Hp) as (v & d' & E & Hsame & _ & Hbusy).
  eapply wp_run; [exact E|]. destruct (Z.eqb_spec (Z.land v TRANSMITTER_HOLDING_REGISTER_EMPTY) 0) as [Hz|Hz].
  - apply IH; cbn [ports consoles ints]; [specialize (Hbusy Hz); lia|]. intros d2 H2. apply HQ.
    intros q. destruct (H2 q) as [-> ->]. apply Hsame.
  - wp_keep. by apply HQ.
Qed.
(** [sent]: on [p] the bytes [l] were sent, and nothing was received. *)
Definition sent (p : Z) (l : list Z) (s s' : serial D) : Prop :=
  consoles s' = consoles s ∧ ints s' = ints s ∧
  ∀ q, rx (ports s') q = rx (ports s) q ∧ tx (ports s') q = (if decide (q = p) then tx (ports s) q ++ l else tx (ports s) q).
Lemma sent_app p l1 l2 s s1 s2 : sent p l1 s s1 → sent p l2 s1 s2 → sent p (l1 ++ l2) s s2.
Proof.
  intros (C1 & I1 & H1) (C2 & I2 & H2). split_and!; [congruence|congruence|]. intros q.
  destruct (H1 q) as [A1 B1], (H2 q) as [A2 B2]. rewrite A2, B2, A1, B1. split; [done|]. case_decide; [|done].
  by rewrite app_assoc.
Qed.
Lemma wp_write_char fuel p c s (Q : unit → serial D → Prop) :
  serial_is_valid_port p = true → (patience < fuel)%nat → (∀ s', sent p [c] s s' → Q tt s') →
  wp (write_char fuel p c) Q s.
Proof.
  intros Hp Hf HQ. unfold write_char, in_ports. apply wp_bind, wp_wait_transmitter; [done|pose proof (busy_law (ports s) p); lia|].
  intros d1 H1. wp_keep. cbn [ports]. destruct (send_law p d1 c Hp) as (d2 & E & H2). eapply wp_run; [exact E|].
  apply HQ. split_and!; [done|done|]. intros q. cbn [ports]. destruct (H2 q) as [-> ->], (H1 q) as [-> ->]. done.
Qed.
Lemma wp_write_chars fuel p l s (Q : unit → serial D → Prop) :
  serial_is_valid_port p = true → (patience < fuel)%nat → (∀ s', sent p (Keyboard.serial_write l) s s' → Q tt s') →
  wp (write_chars fuel p l) Q s.
Proof.
  intros Hp Hf. revert s. induction l as [|c l IH]; intros s HQ; cbn [write_chars].
  { wp_keep. apply HQ. split_and!; [done|done|]. intros q. split; [done|]. case_decide; [|done]. symmetry. apply app_nil_r. }
  wp_keep. cbn [Keyboard.serial_write] in HQ. apply wp_when.
  - intros E. rewrite E in HQ. apply wp_write_char; [done|done|]. intros s1 H1. wp_keep. apply wp_write_char; [done|done|].
    intros s2 H2. apply IH. intros s3 H3. apply HQ. apply (sent_app p [13] _ _ s1); [done|].
    by apply (sent_app p [c] _ _ s2).
  - intros E. rewrite E in HQ. wp_keep. apply wp_write_char; [done|done|].
    intros s2 H2. apply IH. intros s3 H3. apply HQ. by apply (sent_app p [c] _ _ s2).
Qed.

(** ** Theorems *)

(** The interrupt of the first and third port leaves nothing to read on either
    and gives the bytes to their consoles, those of the first port first. *)
Lemma handle_1_and_3_drains fuel m' s :
  (length (rx (ports s) SERIAL_COM1) + length (rx (ports s) SERIAL_COM3) < fuel)%nat →
  deliver (from_port SERIAL_COM1 (rx (ports s) SERIAL_COM1) ++ from_port SERIAL_COM3 (rx (ports s) SERIAL_COM3))
    (consoles s) = Done tt m' →
  wp (handle_1_and_3 fuel) (λ _ s', consoles s' = m' ∧ ints s' = ints s ∧
    rx (ports s') SERIAL_COM1 = [] ∧ rx (ports s') SERIAL_COM3 = [] ∧ ∀ q, tx (ports s') q = tx (ports s) q) s.
Proof. intros Hf Hm. by eapply wp_drain. Qed.

(** What is written to a port is sent, with a return before every new line. *)
Lemma serial_write_sends fuel p l s :
  serial_is_valid_port p = true → (patience < fuel)%nat →
  wp (serial_write fuel p l) (λ r s', r = Z.of_nat (length l) ∧ sent p (Keyboard.serial_write l) s s') s.
Proof. intros Hp Hf. unfold serial_write. apply wp_bind, wp_write_chars; [done|done|]. intros s' H. by wp_keep. Qed.

(** A message of the kernel that fits in the buffer of kprintf goes to the first
    port as the reference function formats it. *)
Lemma kprintf_sends fuel garbage format args t s :
  formatted format args = Some t → (length t < 1024)%nat → (1024 ≤ length garbage)%nat →
  Forall (λ c, u8 c ≠ 0) t → (patience < fuel)%nat →
  wp (kprintf fuel garbage format args) (λ r s', r = Z.of_nat (length t) ∧
    sent SERIAL_COM1 (Keyboard.serial_write (u8 <$> t)) s s') s.
Proof.
  intros Ht Hlen Hg Hnz Hf. unfold kprintf. rewrite (vsnprintf_run 0 1024 garbage) with (t := t) by (done || lia).
  unfold kputs.
  assert (cstr (splice 0 (u8 <$> (t ++ [0])) garbage) 0 (u8 <$> t)) as Hc.
  { unfold splice. rewrite take_0, fmap_app, <-app_assoc. cbn [app fmap list_fmap]. change (u8 0) with 0.
    apply (cstr_here []). by apply Forall_fmap. }
  rewrite (strlen_run _ _ _ Hc). wp_keep.
  assert (take (length (u8 <$> t)) (splice 0 (u8 <$> (t ++ [0])) garbage) = u8 <$> t) as ->.
  { unfold splice. rewrite take_0, fmap_app, <-app_assoc. cbn [app]. by rewrite take_app_length. }
  eapply wp_mono; [apply serial_write_sends; done|]. intros r s' [_ Hs]. by wp_keep.
Qed.
End uart.

(** ** Witnesses: four devices whose transmitters are always ready *)
Record queues : Type := Queues { incoming : Z → list Z; outgoing : Z → list Z }.
Definition update (f : Z → list Z) (p : Z) (l : list Z) (q : Z) : list Z := if decide (q = p) then l else f q.
#[global] Instance queues_ports : Ports queues := {
  in8 p := d ← get;
    if serial_is_valid_port p then
      match incoming d p with
      | [] => mret 0
      | c :: l => _ ← put (Queues (update (incoming d) p l) (outgoing d)); mret c
      end
    else mret (match incoming d (p - 5) with [] => 0x20 | _ => 0x21 end);
  in16 p := mret 0; in32 p := mret 0;
  out8 p v := modify (λ d, Queues (incoming d) (update (outgoing d) p (outgoing d p ++ [v])));
  out16 p v := mret tt; out32 p v := mret tt;
}.
#[global] Instance queues_uart : Uart incoming outgoing (λ _ _, 0%nat) 0.
Proof.
  constructor.
  - intros p d Hp. assert (serial_is_valid_port (p + 5) = false) as Hn.
    { unfold serial_is_valid_port in *. rewrite !orb_true_iff, !Z.eqb_eq in Hp.
      destruct Hp as [[[->| ->]| ->]| ->]; reflexivity. }
    eexists _, d. cbn [in8 queues_ports]. rewrite (bind_run get _ d d d) by done. rewrite Hn.
    split; [reflexivity|]. rewrite Z.add_simpl_r. split; [done|]. by destruct (incoming d p).
  - intros p d c l Hp Hrx. eexists. cbn [in8 queues_ports]. rewrite (bind_run get _ d d d) by done. rewrite Hp, Hrx.
    split; [reflexivity|]. intros q. done.
  - intros p d c Hp. eexists. split; [reflexivity|]. intros q. split; [done|]. cbn. unfold update. by case_decide; subst.
  - done.
Qed.
Definition quiet_console : machine :=
  Machine (KState ∅ ∅ None [] [] ∅ ∅ [] [] None 0 1 0 []) (Keyboard.Keyboard false 0 (EventQueue.EventRing [] 0 0))
    (RingBuf.RingBuf [] 0 0) 0 [] 0.
Definition quiet_ports : serial queues := SerialState (Queues (λ _, []) (λ _, [])) quiet_console no_interrupts.
Lemma kprintf_sends_witness :
  wp (kprintf 1 (replicate 1024 9) (fmt "pid %d: %s") [AInt 7; AStr (Some (lit "init" ++ [10]))]) (λ r s',
    r = 12 ∧ sent incoming outgoing SERIAL_COM1 (lit "pid 7: init" ++ [13; 10]) quiet_ports s') quiet_ports.
Proof.
  apply (kprintf_sends incoming outgoing (λ _ _, 0%nat) 0 1 (replicate 1024 9) (fmt "pid %d: %s")
    [AInt 7; AStr (Some (lit "init" ++ [10]))] (lit "pid 7: init" ++ [10])); [reflexivity|cbn; lia|rewrite length_replicate; lia| |lia].
  repeat (apply Forall_cons; split; [by vm_compute|]). by apply Forall_nil.
Defined.
(** Bytes for two ports: those of the first are delivered first. *)
Example drains_both :
  match handle_1_and_3 5 (SerialState (Queues (update (update (λ _, []) SERIAL_COM3 [97]) SERIAL_COM1 [98; 99]) (λ _, []))
          (Machine (KState ∅ ∅ None [] [] ∅ ∅ [] [] None 0 1 0 []) (Keyboard.Keyboard false 0 (EventQueue.EventRing [] 0 0))
            (RingBuf.RingBuf [] 0 0) 0 (replicate 4 (RingBuf.RingBuf (replicate 8 0) 0 0)) 0) no_interrupts) with
  | Done _ s => RingBuf.contents <$> serial_inputs (consoles s)
  | _ => []
  end = [[98; 99]; []; [97]; []].
Proof. vm_compute. reflexivity. Qed.
