(* ===== verification/Procfs.v ===== *)
(** * /proc (kernel/fs/procfs/procfs.c, root.c, pid.c)

    The texts of its files, how they are opened and read, and the listing of its
    root, in which the processes follow the fixed items. The listing runs on the
    state of the kernel; an opened file keeps its text in a growable buffer of
    its own, [private_data]. *)
From Stdlib Require Import Sorted.
From S2P Require Import Prelude Errno CString PageAllocator CLib Format GrowableBuf Kernel Inode Path Tmpfs Process Scheduler Calendar Listing.

(** ** Files *)

(** What the texts are made of besides the processes. *)
Record kernel_info : Type := KernelInfo { cmdline_raw : list Z; mem_total : Z; mem_free : Z; uptime : Z }.
Record procfs : Type := Procfs {
  kern : kstate;
  info : kernel_info;
  private_data : gmap nat growable_buf;
}.
Abbreviation PF := (K procfs).
Definition in_kern {A} (m : K kstate A) : PF A := zoom kern (λ k s, Procfs k (info s) (private_data s)) m.
Definition set_private (d : nat) (b : growable_buf) : PF unit :=
  modify (λ s, Procfs (kern s) (info s) (<[d := b]> (private_data s))).
(** A computation on a growable buffer; the memory layer answers from the
    kernel's state. *)
Definition on_buf {A} (b : growable_buf) (m : K gstate A) : PF (A * growable_buf) := λ s,
  match m (GState b (grants (kern s))) with
  | Done a g => Done (a, g_buf g) (Procfs (with_grants (g_grants g) (kern s)) (info s) (private_data s))
  | Panic => Panic
  | Undef => Undef
  | OutOfFuel => OutOfFuel
  end.
(** Passes over the buffer of growable_buf_vsprintf: 21 doublings reach the end
    of the address space. *)
Definition PRINT_ROUNDS : nat := 24.
Definition print (b : growable_buf) (format : list Z) (args : list arg) : PF (Z * growable_buf) :=
  on_buf b (growable_buf_printf PRINT_ROUNDS format args).

Definition NEWLINE : list Z := [10].
Definition populate_cmdline (b : growable_buf) : PF (Z * growable_buf) :=
  s ← get; print b (lit "%s" ++ NEWLINE ++ [0]) [AStr (Some (cmdline_raw (info s)))].
Definition populate_meminfo (b : growable_buf) : PF (Z * growable_buf) :=
  s ← get;
  print b (lit "MemTotal: %8u kB" ++ NEWLINE ++ lit "MemFree:  %8u kB" ++ NEWLINE ++ [0])
    [AInt (mem_total (info s)); AInt (mem_free (info s))].
Definition populate_uptime (b : growable_buf) : PF (Z * growable_buf) :=
  s ← get; print b (lit "%u" ++ NEWLINE ++ [0]) [AInt (uptime (info s) / CLK_TCK)].
Definition sizeof_comm : nat := 16.
Definition populate_comm (id : Z) (b : growable_buf) : PF (Z * growable_buf) :=
  p ← in_kern (process_find_process_by_pid id);
  match p with
  | None => mret (ERR ENOENT, b)
  | Some p =>
      x ← in_kern (proc p);
      print b (lit "%s" ++ NEWLINE ++ [0]) [AStr (Some (take (sizeof_comm - 1) (comm x)))]
  end.

(** The functions the items of the root and of a process point to. *)
Inductive procfs_populate_fn : Type := cmdline_item | meminfo_item | uptime_item | comm_item (id : Z).
Definition populate (f : procfs_populate_fn) : growable_buf → PF (Z * growable_buf) :=
  match f with
  | cmdline_item => populate_cmdline
  | meminfo_item => populate_meminfo
  | uptime_item => populate_uptime
  | comm_item id => populate_comm id
  end.
Definition procfs_item_open (f : procfs_populate_fn) (d : nat) : PF Z :=
  ok ← in_kern kmalloc_ok;
  if negb ok then mret (ERR ENOMEM)
  else
    '(rc, b) ← populate f growable_buf_zero;
    if IS_ERR rc then mret rc else _ ← set_private d b; mret 0.
Definition procfs_item_close (d : nat) : PF Z :=
  s ← get;
  b ← access (private_data s !! d);
  _ ← on_buf b growable_buf_destroy;
  _ ← modify (λ s, Procfs (kern s) (info s) (delete d (private_data s)));
  mret 0.
(** The critical section of [offset_lock] is around the whole body. *)
Definition procfs_item_read (d : nat) (count : Z) : PF (Z * list Z) :=
  _ ← in_kern (lock_mutex (OffsetLock d));
  s ← get;
  b ← access (private_data s !! d);
  x ← in_kern (desc d);
  '(r, b) ← on_buf b (growable_buf_pread count (d_offset x));
  _ ← set_private d b;
  _ ← when (IS_OK r.1) (in_kern (set_desc d (set_offset (s32 (d_offset x + r.1)) x)));
  _ ← in_kern (unlock_mutex (OffsetLock d));
  mret r.

(** ** The listing of the root *)
Definition root_items : list (list Z * procfs_populate_fn) :=
  [(lit "cmdline", cmdline_item); (lit "meminfo", meminfo_item); (lit "uptime", uptime_item)].
Definition NUM_ITEMS : Z := 3.
Definition DT_DIR : Z := 4.

(** [snprintf(name, sizeof(name), "%d", pid)]: the string in [name]. *)
Fixpoint until_nul (m : list Z) : list Z :=
  match m with [] => [] | c :: m => if c =? 0 then [] else c :: until_nul m end.
Definition print_name (id : Z) : K kstate (list Z) := λ s,
  match snprintf 0 16 (fmt "%d") [AInt id] (replicate 16 0) with
  | Done _ m => Done (until_nul m) s
  | Panic => Panic
  | Undef => Undef
  | OutOfFuel => OutOfFuel
  end.

(** The loop that looks for the first process behind [offset_pid]; it reads
    through the list's first link whatever it is. *)
Fixpoint skip_pids (offset_pid : Z) (it : list nat) : K kstate (list nat) :=
  match it with
  | [] => undef
  | p :: next =>
      x ← proc p;
      if pid x <=? offset_pid
      then match next with [] => mret [] | _ => skip_pids offset_pid next end
      else mret it
  end.
Fixpoint list_processes (ctx : getdents_ctx) (d : nat) (it : list nat) : K kstate getdents_ctx :=
  match it with
  | [] => mret ctx
  | p :: next =>
      x ← proc p;
      name ← print_name (pid x);
      let '(more, ctx) := getdents_callback ctx name DT_DIR in
      if negb (more : bool) then mret ctx
      else
        y ← desc d;
        _ ← set_desc d (set_offset (s32 (pid x + NUM_ITEMS)) y);
        list_processes ctx d next
  end.
(** [children] is the list of the root's procfs_dir_inode. *)
Definition procfs_root_getdents (children : list dentry) (ctx : getdents_ctx) (d : nat)
    : K kstate (Z * getdents_ctx) :=
  locked (OffsetLock d) (
    x ← desc d;
    '(rc, ctx) ← (if u32 (d_offset x) <? NUM_ITEMS then dentry_getdents ctx d children else mret (0, ctx));
    if IS_ERR rc then mret (rc, ctx)
    else
      x ← desc d;
      if u32 (d_offset x) <? NUM_ITEMS then mret (0, ctx)
      else
        s ← get;
        it ← skip_pids (s32 (d_offset x - NUM_ITEMS)) (all_processes s);
        ctx ← list_processes ctx d it;
        mret (0, ctx)).
Definition procfs_dir_getdents (children : list dentry) (ctx : getdents_ctx) (d : nat)
    : K kstate (Z * getdents_ctx) :=
  locked (OffsetLock d) (dentry_getdents ctx d children).

(** ** Theorems about the files *)

(** The text of an item, as the reference of Format.v has it. *)
Definition item_text (f : procfs_populate_fn) (s : procfs) : option (list Z) :=
  match f with
  | cmdline_item => formatted (lit "%s" ++ NEWLINE ++ [0]) [AStr (Some (cmdline_raw (info s)))]
  | meminfo_item =>
      formatted (lit "MemTotal: %8u kB" ++ NEWLINE ++ lit "MemFree:  %8u kB" ++ NEWLINE ++ [0])
        [AInt (mem_total (info s)); AInt (mem_free (info s))]
  | uptime_item => formatted (lit "%u" ++ NEWLINE ++ [0]) [AInt (uptime (info s) / CLK_TCK)]
  | comm_item id =>
      match process_find_process_by_pid id (kern s) with
      | Done (Some p) _ =>
          x ← procs (kern s) !! p;
          formatted (lit "%s" ++ NEWLINE ++ [0]) [AStr (Some (take (sizeof_comm - 1) (comm x)))]
      | _ => None
      end
  end.

(** A buffer whose file is [t]. *)
Definition holds_text (b : growable_buf) (t : list Z) : Prop :=
  gb_inv b ∧ file b = (u8 <$> t) ∧ gb_size b = Z.of_nat (length t).

Lemma gb_inv_zero : gb_inv growable_buf_zero.
Proof. by split. Qed.
Lemma printed_inv cap m t :
  Z.of_nat (length m) = cap → cap mod PAGE_SIZE = 0 → cap ≤ 2147483648 → Z.of_nat (length t) < cap →
  (∀ i c, m !! i = Some c → c = 0) →
  holds_text (GrowableBuf true cap (Z.of_nat (length t)) (Some (splice 0 (u8 <$> (t ++ [0])) m))) t.
Proof.
  intros Hl Hp Hc Ht Hz. assert (length (u8 <$> (t ++ [0])) = S (length t)) as Hlen
    by (rewrite length_fmap, length_app; cbn; lia).
  split_and!; [|unfold file, from_option, id; cbn [gb_size gb_mem]; rewrite Nat2Z.id|done].
  - split; cbn [gb_size capacity gb_addr gb_mem]; [lia|done|done| |done]. intros _.
    eexists. split; [done|]. split; [rewrite length_splice; lia|]. intros i c Hi Hc'.
    destruct (decide (i = length t)) as [->|].
    + rewrite splice_lookup_in in Hc' by lia. rewrite Nat.sub_0_r, fmap_app in Hc'.
      rewrite lookup_app_r in Hc' by (rewrite length_fmap; lia). rewrite length_fmap, Nat.sub_diag in Hc'.
      cbn in Hc'. by simplify_eq.
    + rewrite splice_lookup_out in Hc' by lia. eauto.
  - unfold splice. rewrite fmap_app. rewrite take_0, app_nil_l, <-app_assoc.
    rewrite take_app_le by (rewrite length_fmap; lia). by rewrite take_ge by (rewrite length_fmap; lia).
Qed.
Lemma printf_fresh rounds format args t g :
  (2 ≤ rounds)%nat → formatted format args = Some t → Z.of_nat (length t) < PAGE_SIZE →
  wp (growable_buf_printf rounds format args) (λ rc s',
    (rc = Z.of_nat (length t) ∧ holds_text (g_buf s') t) ∨ rc = ERR ENOMEM) (GState growable_buf_zero g).
Proof.
  intros Hr Ht Hlen. destruct rounds as [|[|rounds]]; [lia|lia|]. unfold growable_buf_printf.
  cbn [growable_buf_vsprintf]. wp_keep.
  cbn [g_buf capacity gb_size growable_buf_zero]. change (0 <? 0 - 0) with false. cbv iota zeta. wp_keep.
  eapply wp_mono.
  { apply grow_buf_spec; [exact gb_inv_zero|cbn; lia|lia]. }
  intros rc s1 [(-> & Hi & Hf & Hs & _ & Hcap & Ha)|(-> & _)]; cbv beta.
  2: { change (IS_ERR (ERR ENOMEM)) with true. wp_keep. by right. }
  change (IS_ERR 0) with false. cbv iota. wp_keep. change (gb_size (g_buf (GState growable_buf_zero g))) with 0 in Hs.
  change (capacity (g_buf (GState growable_buf_zero g))) with 0 in Hcap.
  destruct (gi_cap _ Hi) as [Hp Hc]. destruct (gi_mem _ Hi Ha) as (m & Hm & Hml & Hz).
  assert (PAGE_SIZE ≤ capacity (g_buf s1)) as Hge.
  { unfold PAGE_SIZE in *. pose proof (Z.div_mod (capacity (g_buf s1)) 4096 ltac:(lia)). lia. }
  rewrite Hs, Z.sub_0_r. rewrite (proj2 (Z.ltb_lt 0 _)) by lia. wp_keep. eapply wp_access; [exact Hm|]. cbv beta.
  change (Z.to_nat 0) with 0%nat. rewrite (vsnprintf_run 0 (capacity (g_buf s1)) m ltac:(lia) _ _ _ Ht) by lia.
  wp_keep. rewrite u32_small by (unfold U32, PAGE_SIZE in *; lia). rewrite (proj2 (Z.ltb_lt _ _)) by lia.
  unfold set_size. wp_keep. left. split; [done|]. cbn [g_buf set_buf gb_addr capacity gb_mem]. rewrite Ha.
  rewrite Z.add_0_l. apply printed_inv; [done|done|done|lia|]. intros i c Hic. apply (Hz i c); [lia|done].
Qed.

Lemma wp_on_file_buf {A} b (m : K gstate A) s (Q : A * growable_buf → procfs → Prop) :
  wp m (λ a g, Q (a, g_buf g) (Procfs (with_grants (g_grants g) (kern s)) (info s) (private_data s)))
    (GState b (grants (kern s))) → wp (on_buf b m) Q s.
Proof. unfold on_buf, wp. by destruct (m _). Qed.
Lemma wp_print_fresh format args t s (Q : Z * growable_buf → procfs → Prop) :
  formatted format args = Some t → Z.of_nat (length t) < PAGE_SIZE →
  (∀ rc b g, (rc = Z.of_nat (length t) ∧ holds_text b t) ∨ rc = ERR ENOMEM →
     Q (rc, b) (Procfs (with_grants g (kern s)) (info s) (private_data s))) →
  wp (print growable_buf_zero format args) Q s.
Proof.
  intros Ht Hl HQ. apply wp_on_file_buf. eapply wp_mono.
  { apply printf_fresh; [unfold PRINT_ROUNDS; lia|exact Ht|exact Hl]. }
  intros rc g' H. by apply HQ.
Qed.
Lemma wp_in_kern_kmalloc s (Q : bool → procfs → Prop) :
  (∀ ok g, Q ok (Procfs (with_grants g (kern s)) (info s) (private_data s))) → wp (in_kern kmalloc_ok) Q s.
Proof.
  intros HQ. unfold in_kern, zoom, kmalloc_ok, wp. destruct (grants (kern s)) as [|ok g] eqn:Hg; [|apply HQ].
  specialize (HQ true (grants (kern s))). by destruct s as [[] ? ?].
Qed.
Lemma find_process_state f l s r s' : find_process f l s = Done r s' → s' = s.
Proof.
  induction l as [|q l IH]; cbn [find_process]; [by intros [= _ ->]|]. intros H.
  apply bind_Done in H as (x & s1 & Hq & H). unfold proc in Hq.
  apply bind_Done in Hq as (s2 & s3 & Hg & Hq). injection Hg as <- <-. unfold access in Hq.
  destruct (procs s !! q); [|discriminate Hq]. injection Hq as <- <-.
  destruct (f _); [by injection H|by apply IH].
Qed.
Lemma wp_populate f s t (Q : Z * growable_buf → procfs → Prop) :
  item_text f s = Some t → Z.of_nat (length t) < PAGE_SIZE →
  (∀ rc b g, (rc = Z.of_nat (length t) ∧ holds_text b t) ∨ rc = ERR ENOMEM →
     Q (rc, b) (Procfs (with_grants g (kern s)) (info s) (private_data s))) →
  wp (populate f growable_buf_zero) Q s.
Proof.
  intros Ht Hl HQ. destruct f as [| | |id]; cbn [populate item_text] in *;
    unfold populate_cmdline, populate_meminfo, populate_uptime, populate_comm.
  1-3: wp_keep; by eapply wp_print_fresh.
  destruct (process_find_process_by_pid id (kern s)) as [[p|] k| | |] eqn:Hf; try done.
  apply bind_Some in Ht as (x & Hx & Ht).
  assert (k = kern s) as ->.
  { exact (find_process_state _ _ _ _ _ Hf). }
  unfold in_kern, proc. wp_keep. eapply wp_run; [exact Hf|]. cbv iota beta. wp_keep.
  eapply wp_access; [exact Hx|]. wp_keep. destruct s as [k i pd]. cbn [kern info private_data] in *.
  eapply wp_print_fresh; [exact Ht|exact Hl|exact HQ].
Qed.

Lemma find_process_grants f l s g :
  find_process f l (with_grants g s) =
    match find_process f l s with Done r _ => Done r (with_grants g s) | Panic => Panic | Undef => Undef
                                | OutOfFuel => OutOfFuel end.
Proof.
  induction l as [|q l IH]; cbn [find_process]; [done|]. unfold proc, mbind, K_bind, get, access.
  cbn [procs with_grants]. destruct (procs s !! q) as [x|]; [|done]. unfold mret, K_ret. by destruct (f x).
Qed.
Lemma item_text_grants f g s :
  item_text f (Procfs (with_grants g (kern s)) (info s) (private_data s)) = item_text f s.
Proof.
  destruct f as [| | |id]; cbn [item_text kern info]; try done.
  unfold process_find_process_by_pid, mbind, K_bind, get. cbn [all_processes with_grants].
  rewrite find_process_grants. by destruct (find_process _ _ (kern s)) as [[?|]| | |].
Qed.

(** A file of /proc that is opened and read from the beginning gives the
    first bytes of its text - the format filled in with the state of the moment
    it was opened -, and moves the offset behind them; or there was no memory for
    the text. *)
Lemma proc_file_text f d count t x s
    (Ht : item_text f s = Some t) (Hl : Z.of_nat (length t) < PAGE_SIZE) (Hx : descs (kern s) !! d = Some x)
    (Ho : d_offset x = 0) (Hlock : locks (kern s) !! OffsetLock d = None) (Hc : 0 ≤ count < 2147483648) :
  wp (rc ← procfs_item_open f d; if IS_ERR rc then mret (rc, []) else procfs_item_read d count) (λ r s',
    r = (ERR ENOMEM, []) ∨
    let bytes := take (Z.to_nat count) (u8 <$> t) in
    r = (Z.of_nat (length bytes), bytes) ∧
    descs (kern s') !! d = Some (set_offset (Z.of_nat (length bytes)) x) ∧ locks (kern s') = locks (kern s)) s.
Proof.
  unfold procfs_item_open. wp_keep. apply wp_in_kern_kmalloc. intros ok g. destruct ok; cbn [negb]; wp_keep.
  2: { change (IS_ERR (ERR ENOMEM)) with true. wp_keep. by left. }
  eapply wp_populate; [rewrite item_text_grants; exact Ht|exact Hl|]. intros rc b g2 [(-> & Hb)| ->]; wp_keep.
  2: { change (IS_ERR (ERR ENOMEM)) with true. wp_keep. change (IS_ERR (ERR ENOMEM)) with true. wp_keep. by left. }
  rewrite IS_ERR_nonneg by (unfold PAGE_SIZE in *; lia). unfold set_private. wp_keep. change (IS_ERR 0) with false. cbv iota.
  set (k := with_grants g2 _). unfold procfs_item_read, in_kern. wp_keep.
  apply wp_lock_mutex; [exact Hlock|]. wp_keep. cbn [private_data]. eapply wp_access; [apply lookup_insert_eq|].
  wp_keep. eapply wp_desc; [exact Hx|]. wp_keep. rewrite Ho.
  destruct Hb as (Hi & Hfile & Hsz). apply wp_on_file_buf. eapply wp_run.
  { apply growable_buf_pread_run; cbn [g_buf]; [done|unfold PAGE_SIZE in *; lia|lia|done|unfold U32; lia]. }
  cbn [g_buf]. rewrite Hfile, drop_0. unfold set_private. wp_keep. set (bytes := take _ _).
  assert (Z.of_nat (length bytes) < 4096) as Hbl.
  { unfold bytes. rewrite length_take, length_fmap. unfold PAGE_SIZE in *. lia. }
  unfold IS_OK. cbn [fst]. rewrite IS_ERR_nonneg by lia. cbn [negb when]. unfold set_desc. wp_keep.
  apply wp_unlock_mutex; [apply lookup_insert_eq|]. wp_keep. right. rewrite Z.add_0_l, s32_small by (unfold bytes in *; lia).
  split_and!; [done|apply lookup_insert_eq|]. cbn. by rewrite delete_insert_id by exact Hlock.
Qed.

(** ** Theorems about the listing *)

(** *** Processes *)

(** The processes of the list with their numbers, in increasing order. *)
Definition listed (s : kstate) (l : list nat) (ids : list Z) : Prop :=
  Forall2 (λ p id, ∃ x, procs s !! p = Some x ∧ pid x = id) l ids ∧
  StronglySorted Z.lt ids ∧ Forall (λ id, 0 ≤ id < 2147483645) ids.
Definition process_item (id : Z) : item := Item (itoa_text id 10) DT_DIR (id + NUM_ITEMS).

Lemma until_nul_app t m : Forall (λ c, c ≠ 0) t → until_nul (t ++ 0 :: m) = t.
Proof. induction 1 as [|c t Hc Ht IH]; cbn [until_nul app]; [done|]. by rewrite (proj2 (Z.eqb_neq c 0)), IH by done. Qed.
Lemma digit_range fuel v : 0 ≤ v → Forall (λ c, 48 ≤ c ≤ 57) (itoa_digits fuel v 10).
Proof.
  revert v. induction fuel as [|fuel IH]; intros v Hv; [constructor|]. cbn [itoa_digits].
  pose proof (Z.mod_pos_bound v 10 ltac:(lia)). rewrite (proj2 (Z.ltb_lt _ 10)) by lia.
  constructor; [change (ch "0") with 48; lia|]. destruct (v / 10 =? 0); [constructor|]. apply IH, Z.div_pos; lia.
Qed.
Lemma digits_length k fuel v : 0 ≤ v < 10 ^ Z.of_nat k → (0 < k)%nat → (length (itoa_digits fuel v 10) ≤ k)%nat.
Proof.
  revert k v. induction fuel as [|fuel IH]; intros k v Hv Hk; [cbn; lia|]. cbn [itoa_digits length].
  destruct (Z.eqb_spec (v / 10) 0) as [|Hne]; [cbn; lia|]. destruct k as [|k]; [lia|].
  rewrite Nat2Z.inj_succ, Z.pow_succ_r in Hv by lia. destruct (decide (k = 0%nat)) as [->|].
  { exfalso. apply Hne, Z.div_small. change (10 ^ Z.of_nat 0) with 1 in Hv. lia. }
  specialize (IH k (v / 10)). apply le_n_S, IH; [|lia].
  split; [apply Z.div_pos; lia|apply Z.div_lt_upper_bound; lia].
Qed.
(** A number of a process in decimal: at most ten digits. *)
Lemma pid_text id :
  0 ≤ id ≤ INT_MAX → (length (itoa_text id 10) ≤ 10)%nat ∧ Forall (λ c, 48 ≤ c ≤ 57) (itoa_text id 10).
Proof.
  unfold INT_MAX. intros Hid. rewrite itoa_text_digits by
    (try lia; unfold int_arg, INT_MIN, INT_MAX; apply andb_true_iff; rewrite Z.ltb_lt, Z.leb_le; lia).
  rewrite (proj2 (Z.ltb_ge id 0)) by lia. cbn [andb Z.eqb Pos.eqb].
  rewrite u32_small by (unfold U32; lia). rewrite length_reverse. split; [|apply Forall_reverse, digit_range; lia].
  apply digits_length; [|lia]. change (10 ^ Z.of_nat 10) with 10000000000. lia.
Qed.
Lemma formatted_pid id : 0 ≤ id ≤ INT_MAX → formatted (fmt "%d") [AInt id] = Some (itoa_text id 10).
Proof.
  intros Hid.
  assert (int_arg id = true) as Ha by (unfold int_arg, INT_MIN, INT_MAX in *; apply andb_true_iff; rewrite Z.ltb_lt, Z.leb_le; lia).
  change (fmt "%d") with [37; 100; 0]. lazy -[int_arg itoa_text pad_text app]. rewrite Ha. rewrite app_nil_r.
  unfold pad_text. by replace (Z.to_nat (0 - Z.of_nat (length (itoa_text id 10)))) with 0%nat by lia.
Qed.
Lemma print_name_run id s : 0 ≤ id ≤ INT_MAX → print_name id s = Done (itoa_text id 10) s.
Proof.
  intros Hid. destruct (pid_text id Hid) as [Hl Hd]. unfold print_name, snprintf.
  assert (0 + Z.to_nat 16 ≤ length (replicate 16 0%Z))%nat as Hm by (rewrite length_replicate; lia).
  rewrite (vsnprintf_run 0 16 (replicate 16 0) Hm _ _ _ (formatted_pid id Hid)) by lia.
  rewrite fmap_app. unfold splice. rewrite take_0, app_nil_l, <-app_assoc.
  assert ((u8 <$> itoa_text id 10) = itoa_text id 10) as Hu.
  { rewrite <-(list_fmap_id (itoa_text id 10)) at 2. apply Forall_fmap_ext. eapply Forall_impl; [exact Hd|].
    intros c Hc. cbv beta in Hc. change (u8 c = c). apply Z.mod_small. lia. }
  change (u8 <$> [0]) with [0]. rewrite Hu. cbn [app]. rewrite until_nul_app; [done|].
  eapply Forall_impl; [exact Hd|]. cbv beta. lia.
Qed.

Definition pid_is (s : kstate) (p : nat) (id : Z) : Prop := ∃ x, procs s !! p = Some x ∧ pid x = id.
Lemma skip_pids_run o l ids s :
  Forall2 (pid_is s) l ids → StronglySorted Z.lt ids → l ≠ [] →
  ∃ l', skip_pids o l s = Done l' s ∧ Forall2 (pid_is s) l' (filter (λ i, o < i) ids).
Proof.
  intros Hl Hs. induction Hl as [|p id l ids (x & Hx & Hid) Hl IH]; intros Hne; [done|].
  inversion Hs as [|? ? Hs' Hgt]; subst. cbn [skip_pids].
  rewrite (bind_run _ _ _ _ _ (proc_run p x s Hx)). rewrite filter_cons.
  destruct (Z.leb_spec (pid x) o).
  - rewrite decide_False by lia. destruct l as [|q l]; [inversion Hl; subst; by exists []|]. by apply IH.
  - rewrite decide_True by lia. exists (p :: l). split; [done|]. constructor; [by exists x|].
    rewrite filter_true; [done|]. eapply Forall_impl; [exact Hgt|]. cbv beta. lia.
Qed.
Lemma list_processes_run ctx d x l ids s :
  Forall2 (pid_is s) l ids → Forall (λ id, 0 ≤ id < 2147483645) ids → descs s !! d = Some x →
  let es := process_item <$> ids in
  list_processes ctx d l s =
    Done (filled ctx es) (moved d (behind (d_offset x) (take (fitting (remaining_count ctx) es) es)) s).
Proof.
  intros Hl. revert ctx x s ids Hl. induction l as [|p l IH]; intros ctx x s ids Hl Hr Hx;
    inversion Hl as [|? id ? ids' (y & Hy & Hid) Hl']; subst; cbn [fmap list_fmap].
  { cbn [list_processes fitting take]. rewrite filled_nil. unfold behind. cbn. by rewrite moved_here. }
  inversion Hr as [|? ? Hid Hr']; subst. cbn [list_processes].
  rewrite (bind_run _ _ _ _ _ (proc_run p y s Hy)).
  rewrite (bind_run _ _ _ _ _ (print_name_run (pid y) s ltac:(unfold INT_MAX; lia))).
  rewrite filled_cons. change (i_name (process_item (pid y))) with (itoa_text (pid y) 10).
  change (i_type (process_item (pid y))) with DT_DIR.
  pose proof (callback_item ctx (process_item (pid y))) as Hcb. cbn [i_name i_type process_item] in Hcb.
  rewrite Hcb. fold (process_item (pid y)). cbn [fitting].
  destruct (remaining_count ctx <? item_size (process_item (pid y))); cbv iota beta zeta; cbn [negb].
  { unfold behind. cbn. by rewrite moved_here. }
  rewrite (bind_run _ _ _ _ _ (desc_run d x s Hx)).
  rewrite (bind_run (set_desc _ _) _ s tt (moved d (pid y + NUM_ITEMS) s)).
  2: { unfold set_desc, modify, NUM_ITEMS. by rewrite (moved_set d x), s32_small by (done || lia). }
  cbn [take]. rewrite behind_cons. change (i_next (process_item (pid y))) with (pid y + NUM_ITEMS).
  rewrite (IH _ (set_offset (pid y + NUM_ITEMS) x) _ ids'); cbn [d_offset set_offset remaining_count];
    [by rewrite moved_moved|exact Hl'|done|by apply moved_desc].
Qed.
(** *** The whole listing *)
Section root.
Context (children : list dentry) (items : list item) (ids : list Z).
(** Everything in the root in the order of its offsets, and what is behind one. *)
Definition entries : list item := items ++ (process_item <$> filter (λ id, 0 < id) ids).
Definition remaining (o : Z) : list item := filter (λ e, o < i_next e) entries.

Context (Hitems : length items = 3%nat) (Hcount : counted_from 0 items) (Hids : StronglySorted Z.lt ids).

Lemma counted_spec o es :
  counted_from o es → StronglySorted Z.lt (i_next <$> es) ∧
    Forall (λ e, o < i_next e ≤ o + Z.of_nat (length es)) es.
Proof.
  revert o. induction es as [|e es IH]; intros o Hc; [by repeat constructor|]. destruct Hc as (He & _ & Hc).
  destruct (IH _ Hc) as [Hs Hf]. cbn [fmap list_fmap length]. split; constructor; try done.
  - apply Forall_fmap. eapply Forall_impl; [exact Hf|]. cbv beta. cbn. lia.
  - lia.
  - eapply Forall_impl; [exact Hf|]. cbv beta. lia.
Qed.
Lemma sorted_filter (P : Z → Prop) `{∀ x, Decision (P x)} l : StronglySorted Z.lt l → StronglySorted Z.lt (filter P l).
Proof.
  induction 1 as [|x l Hs IH Hx]; [constructor|]. rewrite filter_cons. case_decide; [|done]. constructor; [done|].
  apply Forall_forall. intros y Hy. apply list_elem_of_filter in Hy as [_ Hy]. by eapply Forall_forall in Hx.
Qed.
Lemma sorted_app (a b : list Z) :
  StronglySorted Z.lt a → StronglySorted Z.lt b → (∀ x y, x ∈ a → y ∈ b → x < y) → StronglySorted Z.lt (a ++ b).
Proof.
  intros Ha Hb Hab. induction Ha as [|x a Ha IH Hx]; [done|]. cbn [app]. constructor.
  - apply IH. intros. apply Hab; [by right|done].
  - apply Forall_app. split; [done|]. apply Forall_forall. intros y Hy. apply Hab; [by left|done].
Qed.
Lemma entries_sorted : StronglySorted Z.lt (i_next <$> entries).
Proof.
  unfold entries. rewrite fmap_app. destruct (counted_spec _ _ Hcount) as [Hs Hf]. apply sorted_app; [done| |].
  - rewrite <-list_fmap_compose. pose proof (sorted_filter (λ id, 0 < id) ids Hids) as Hsf.
    induction Hsf as [|x l Hl IH Hx]; [constructor|]. cbn [fmap list_fmap]. constructor; [done|].
    apply Forall_fmap. eapply Forall_impl; [exact Hx|]. intros y Hy. cbn. lia.
  - intros x y Hx Hy. apply list_elem_of_fmap in Hx as (e & -> & He), Hy as (e' & -> & He').
    apply list_elem_of_fmap in He' as (id & -> & Hid). apply list_elem_of_filter in Hid as [Hid _].
    eapply Forall_forall in Hf; [|exact He]. cbv beta in Hf. rewrite Hitems in Hf. cbn. unfold NUM_ITEMS. lia.
Qed.

(** Entries in the order of their offsets: those behind the offset of one are
    the ones after it. *)
Lemma behind_filter o l :
  StronglySorted Z.lt (i_next <$> l) → Forall (λ e, o < i_next e) l → ∀ k,
  filter (λ e, behind o (take k l) < i_next e) l = drop k l.
Proof.
  intros Hs Ho k. revert o l Hs Ho. induction k as [|k IH]; intros o l Hs Ho.
  { by apply (filter_true (λ e, o < i_next e)). }
  destruct l as [|e l]; [done|]. cbn [take drop]. rewrite behind_cons. cbn [fmap list_fmap] in Hs.
  inversion Hs as [|? ? Hs' He]; subst. rewrite Forall_fmap in He.
  rewrite filter_cons_False; [apply IH; [exact Hs'|exact He]|]. inversion Ho as [|? ? Hoe Ho']; subst.
  unfold behind. destruct (last (take k l)) as [e'|] eqn:Hlast; cbn; [|lia].
  apply last_Some_elem_of, elem_of_prefix in Hlast as Hi.
  eapply Forall_forall in He; [|exact Hi]. cbn in He. lia.
Qed.
Lemma remaining_behind o k : remaining (behind o (take k (remaining o))) = drop k (remaining o).
Proof.
  unfold remaining at 1. 
  assert (StronglySorted Z.lt (i_next <$> remaining o)) as Hs.
  { unfold remaining. pose proof entries_sorted as Hs. induction entries as [|e l IH]; [constructor|].
    cbn [fmap list_fmap] in Hs. inversion Hs as [|? ? Hs' He]; subst. rewrite filter_cons.
    case_decide; [|by apply IH]. cbn [fmap list_fmap]. constructor; [by apply IH|]. apply Forall_fmap.
    rewrite Forall_fmap in He. apply Forall_forall. intros e' He'. apply list_elem_of_filter in He' as [_ He'].
    by eapply Forall_forall in He. }
  assert (Forall (λ e, o < i_next e) (remaining o)) as Ho.
  { apply Forall_forall. intros e He. by apply list_elem_of_filter in He as [He _]. }
  rewrite <-(behind_filter o _ Hs Ho k). symmetry.
  apply (list_filter_filter_l (λ e, behind o (take k (remaining o)) < i_next e) (λ e, o < i_next e)).
  intros e He. unfold behind in He. destruct (last _) as [e'|] eqn:Hlast; cbn in He; [|done].
  apply last_Some_elem_of, elem_of_prefix in Hlast as Hi.
  eapply Forall_forall in Ho; [|exact Hi]. cbv beta in Ho. lia.
Qed.

(** The items that are left, and the processes. *)
Lemma remaining_split o :
  0 ≤ o → remaining o = drop (Z.to_nat o) items ++ (process_item <$> filter (λ id, 0 `max` (o - 3) < id) ids).
Proof.
  intros Ho. unfold remaining, entries. rewrite filter_app. f_equal.
  - destruct (counted_spec _ _ Hcount) as [Hs Hf]. destruct items as [|e0 [|e1 [|e2 [|]]]] eqn:Hi; try discriminate Hitems.
    destruct Hcount as (H0 & _ & H1 & _ & H2 & _). rewrite !filter_cons, filter_nil, H0, H1, H2.
    destruct (decide (o = 0)) as [->|]; [done|]. destruct (decide (o = 1)) as [->|]; [done|].
    destruct (decide (o = 2)) as [->|]; [done|]. rewrite !decide_False by lia.
    by rewrite drop_ge by (cbn; lia).
  - clear Hids. induction ids as [|id l IH]; [done|]. rewrite !filter_cons.
    destruct (decide (0 < id)), (decide (0 `max` (o - 3) < id)); try lia; cbn [fmap list_fmap]; try exact IH.
    + rewrite filter_cons_True by (cbn; unfold NUM_ITEMS; lia). f_equal. exact IH.
    + rewrite filter_cons_False by (cbn; unfold NUM_ITEMS; lia). exact IH.
Qed.
End root.

Section listing.
Context (ids : list Z) (d : nat) (s : kstate) (x : file_description).
Context (Hlisted : listed s (all_processes s) ids) (Hne : all_processes s ≠ []) (Hx : descs s !! d = Some x).

(** The part of the body behind the items, at an offset behind them. *)
Lemma processes_part ctx o :
  3 ≤ o < 2147483648 →
  let R := process_item <$> filter (λ id, o - 3 < id) ids in
  (s ← get; it ← skip_pids (s32 (o - NUM_ITEMS)) (all_processes s);
   ctx ← list_processes ctx d it; mret (0, ctx)) (moved d o s) =
    Done (0, filled ctx R) (moved d (behind o (take (fitting (remaining_count ctx) R) R)) s).
Proof.
  intros Hoo R. destruct Hlisted as (Hl & Hs & Hr). rewrite (bind_run get _ _ (moved d o s) (moved d o s)) by done.
  unfold NUM_ITEMS. rewrite s32_small by lia. cbn [all_processes moved with_descs].
  assert (Forall2 (pid_is (moved d o s)) (all_processes s) ids) as Hl2 by done.
  destruct (skip_pids_run (o - 3) _ _ _ Hl2 Hs Hne) as (l' & Hskip & Hl').
  rewrite (bind_run _ _ _ _ _ Hskip).
  assert (Forall (λ id, 0 ≤ id < 2147483645) (filter (λ id, o - 3 < id) ids)) as Hr'.
  { apply Forall_forall. intros id Hid. apply list_elem_of_filter in Hid as [_ Hid]. by eapply Forall_forall in Hr. }
  rewrite (bind_run _ _ _ _ _ (list_processes_run ctx d _ _ _ _ Hl' Hr' (moved_desc d x o s Hx))).
  cbn [d_offset set_offset]. by rewrite moved_moved.
Qed.

End listing.

Section root_getdents.
Context (children : list dentry) (items : list item) (ids : list Z) (d : nat) (s : kstate) (x : file_description).
Context (Hitems : length items = 3%nat) (Hcount : counted_from 0 items).
Context (Htyped : typed s children items) (Hlisted : listed s (all_processes s) ids) (Hne : all_processes s ≠ []).
Context (Hx : descs s !! d = Some x) (Ho : 0 ≤ d_offset x < 2147483648).

Lemma root_body_run ctx (R := remaining items ids (d_offset x)) :
  (x ← desc d;
    '(rc, ctx) ← (if u32 (d_offset x) <? NUM_ITEMS then dentry_getdents ctx d children else mret (0, ctx));
    if IS_ERR rc then mret (rc, ctx)
    else
      x ← desc d;
      if u32 (d_offset x) <? NUM_ITEMS then mret (0, ctx)
      else
        s ← get;
        it ← skip_pids (s32 (d_offset x - NUM_ITEMS)) (all_processes s);
        ctx ← list_processes ctx d it;
        mret (0, ctx)) s =
  Done (0, filled ctx R) (moved d (behind (d_offset x) (take (fitting (remaining_count ctx) R) R)) s).
Proof.
  rewrite (bind_run _ _ _ _ _ (desc_run d x s Hx)). rewrite u32_small by (unfold U32; lia). unfold NUM_ITEMS.
  subst R. rewrite (remaining_split items ids Hitems Hcount) by lia.
  set (a := drop (Z.to_nat (d_offset x)) items). set (P := process_item <$> _).
  rewrite filled_app, take_fitting_app.
  assert (∀ ctx' o, o = Z.max 3 (d_offset x) →
    (s ← get; it ← skip_pids (s32 (o - 3)) (all_processes s); ctx ← list_processes ctx' d it; mret (0, ctx)) (moved d o s) =
      Done (0, filled ctx' P) (moved d (behind o (take (fitting (remaining_count ctx') P) P)) s)) as HP.
  { intros ctx' o Heq. pose proof (processes_part ids d s x Hlisted Hne Hx ctx' o ltac:(lia)) as HP.
    unfold P. replace (0 `max` (d_offset x - 3)) with (o - 3) by lia. exact HP. }
  destruct (Z.ltb_spec (d_offset x) 3) as [Hlt|Hge].
  - rewrite (bind_run _ _ _ _ _ (dentry_getdents_run ctx d x children items s Htyped Hcount Hx (proj1 Ho))).
    cbv iota beta. change (IS_ERR 0) with false. cbv iota. fold a. set (k := fitting (remaining_count ctx) a).
    assert (k ≤ length a)%nat as Hk by apply fitting_le.
    assert (length a = 3 - Z.to_nat (d_offset x))%nat as Hla by (unfold a; rewrite length_drop; lia).
    assert (counted_from (d_offset x) a) as Hc.
    { pose proof (counted_drop 0 items (Z.to_nat (d_offset x)) Hcount) as Hc. by replace (0 + Z.of_nat (Z.to_nat (d_offset x))) with (d_offset x) in Hc by lia. }
    rewrite (bind_run _ _ _ _ _ (desc_run d _ _ (moved_desc d x _ s Hx))). cbn [d_offset set_offset].
    rewrite u32_small by (unfold U32; lia). destruct (Nat.eqb_spec k (length a)) as [He|He].
    + rewrite (proj2 (Z.ltb_ge _ 3)) by lia. rewrite HP by lia.
      assert (behind (d_offset x) a = d_offset x + Z.of_nat k) as Hb.
      { rewrite <-(behind_counted (d_offset x) a k Hc Hk). f_equal. symmetry. apply take_ge. lia. }
      assert (remaining_count (filled ctx a) = remaining_count ctx - sizes a) as Hrc.
      { unfold filled. cbn [remaining_count]. fold k. by rewrite take_ge by lia. }
      by rewrite behind_app, Hb, Hrc.
    + rewrite (proj2 (Z.ltb_lt _ 3)) by lia. by rewrite behind_counted by done.
  - rewrite (bind_run (mret (0, ctx)) _ s (0, ctx) s) by done. cbv iota beta. change (IS_ERR 0) with false. cbv iota.
    rewrite (bind_run _ _ _ _ _ (desc_run d x s Hx)). rewrite u32_small by (unfold U32; lia).
    rewrite (proj2 (Z.ltb_ge _ 3)) by lia.
    assert (a = []) as -> by (unfold a; apply drop_ge; lia). cbn [fitting length Nat.eqb app]. rewrite filled_nil.
    change (sizes []) with 0. rewrite Z.sub_0_r. rewrite <-(HP ctx (d_offset x)) by lia. by rewrite moved_here.
Qed.

End root_getdents.

(** C20: one call to list /proc hands out the entries behind the offset - the
    items, then the processes from number 1 up in increasing order - as far as
    they fit into the buffer, and moves the offset so that what remains for the
    next call is exactly the rest. *)
Theorem procfs_root_getdents_spec children items ids d s x ctx
    (Hitems : length items = 3%nat) (Hcount : counted_from 0 items) (Htyped : typed s children items)
    (Hlisted : listed s (all_processes s) ids) (Hne : all_processes s ≠ [])
    (Hx : descs s !! d = Some x) (Ho : 0 ≤ d_offset x < 2147483648) (Hlock : locks s !! OffsetLock d = None) :
  let R := remaining items ids (d_offset x) in
  let k := fitting (remaining_count ctx) R in
  wp (procfs_root_getdents children ctx d) (λ r s', r = (0, filled ctx R) ∧
    ∃ o, s' = moved d o s ∧ remaining items ids o = drop k R) s.
Proof.
  intros R k. unfold procfs_root_getdents. apply wp_locked; [done|].
  set (s1 := with_locks _ s).
  assert (typed s1 children items) as Ht1.
  { eapply Forall2_impl; [exact Htyped|]. intros e i (Hn & nd & Hnd & Hm). split; [done|]. exists nd. split; [done|].
    exact (mode_type_state _ _ _ _ Hm). }
  eapply wp_run.
  { apply (root_body_run children items ids d s1 x Hitems Hcount Ht1 Hlisted Hne Hx Ho). }
  split; [done|]. split; [done|]. split; [done|]. eexists. split; [|apply remaining_behind; [done|done|apply Hlisted]].
  unfold moved. by destruct s.
Qed.

(** The order that the listing relies on is kept by scheduler_register. *)
Lemma insert_by_pid_run id p l ids s :
  Forall2 (pid_is s) l ids → StronglySorted Z.lt ids → id ∉ ids → pid_is s p id →
  ∃ l' ids', insert_by_pid id p l s = Done l' s ∧ Forall2 (pid_is s) l' ids' ∧ StronglySorted Z.lt ids' ∧
    ids' ≡ₚ id :: ids.
Proof.
  intros Hl Hs. induction Hl as [|q k l ids (x & Hx & Hk) Hl IH]; intros Hid Hp.
  { exists [p], [id]. split; [done|]. split; [by repeat constructor|]. split; [by repeat constructor|done]. }
  inversion Hs as [|? ? Hs' Hgt]; subst. cbn [insert_by_pid]. rewrite (bind_run _ _ _ _ _ (proc_run q x s Hx)).
  apply not_elem_of_cons in Hid as [Hne Hid]. destruct (Z.ltb_spec (pid x) id).
  - destruct (IH Hs' Hid Hp) as (l' & ids' & Hrun & Hl' & Hs2 & Hperm).
    exists (q :: l'), (pid x :: ids'). rewrite (bind_run _ _ _ _ _ Hrun). split; [done|].
    split; [constructor; [by exists x|done]|]. split.
    + constructor; [done|]. rewrite Hperm. constructor; [lia|done].
    + rewrite Hperm. apply Permutation_swap.
  - exists (p :: q :: l), (id :: pid x :: ids). split; [done|]. split.
    + constructor; [done|]. constructor; [by exists x|done].
    + split; [|done]. constructor; [done|]. constructor; [lia|]. eapply Forall_impl; [exact Hgt|]. cbv beta. lia.
Qed.

(** ** Witnesses *)

(** A root with three items, the first process and two others. *)
Definition proc_inode : inode := Inode None null_fops 0 None 1 1 S_IFREG NoData.
Definition sample_kernel : kstate :=
  let p := one_process (lit "/") in
  let proc_of id := match procs p !! current p with
                    | Some x => Process id (ppid x) (pgid x) (pstate x) (exit_status x) (lit "sh") (cwd_path x)
                        (cwd_inode x) (fd_table x) (should_unblock x) (waited_process x)
                        (blocker_was_interrupted x) (user_ticks x) (kernel_ticks x) (pending_signals x)
                    | None => Process id 0 0 PROCESS_STATE_RUNNING 0 [] [] None [] None None false 0 0 0
                    end in
  with_inodes (λ _, {[5%nat := proc_inode; 6%nat := proc_inode; 7%nat := proc_inode]})
    (with_descs (λ _, {[9%nat := FileDescription 4 1 0 1]})
      (with_procs (λ _, {[0%nat := proc_of 0; 1%nat := proc_of 1; 2%nat := proc_of 27]})
        (with_sched [0; 1; 2]%nat [] 1%nat p))).
Definition sample_children : list dentry := [(lit "cmdline", 5%nat); (lit "meminfo", 6%nat); (lit "uptime", 7%nat)].
Definition sample_items : list item := [Item (lit "cmdline") 8 1; Item (lit "meminfo") 8 2; Item (lit "uptime") 8 3].

(** 45 bytes hold the items and the first process, not the second one. *)
Lemma procfs_root_getdents_spec_witness :
  wp (procfs_root_getdents sample_children (GetdentsCtx [] 45 0 false) 9) (λ r s',
    r = (0, filled (GetdentsCtx [] 45 0 false) (sample_items ++ [process_item 1; process_item 27])) ∧
    ∃ o, s' = moved 9 o sample_kernel ∧ remaining sample_items [0; 1; 27] o = [process_item 27]) sample_kernel.
Proof.
  apply (procfs_root_getdents_spec sample_children sample_items [0; 1; 27] 9 sample_kernel (FileDescription 4 1 0 1)
    (GetdentsCtx [] 45 0 false)).
  - reflexivity.
  - repeat split.
  - repeat (apply Forall2_cons; split; [split; [reflexivity|exists proc_inode; split; reflexivity]|]). apply Forall2_nil. done.
  - split; [|split].
    + repeat (apply Forall2_cons; split; [eexists; split; reflexivity|]). apply Forall2_nil. done.
    + repeat constructor; lia.
    + repeat constructor; lia.
  - discriminate.
  - reflexivity.
  - cbn. lia.
  - reflexivity.
Defined.

(** /proc/27/comm, read with a large buffer. *)
Definition sample_procfs : procfs := Procfs sample_kernel (KernelInfo (lit "init=/bin/sh") 1024 512 400) ∅.
Lemma proc_file_text_witness :
  wp (rc ← procfs_item_open (comm_item 27) 9; if IS_ERR rc then mret (rc, []) else procfs_item_read 9 100) (λ r s',
    r = (ERR ENOMEM, []) ∨ r = (3, lit "sh" ++ [10]) ∧
    descs (kern s') !! 9%nat = Some (FileDescription 4 1 3 1) ∧ locks (kern s') = locks sample_kernel) sample_procfs.
Proof.
  apply (proc_file_text (comm_item 27) 9 100 (lit "sh" ++ [10]) (FileDescription 4 1 0 1) sample_procfs);
    first [reflexivity|split; [discriminate|reflexivity]].
Defined.
