(* ===== verification/Dirent.v ===== *)
(** * Directory streams of the C library (userland/lib/dirent.c)

    opendir, readdir and closedir are written against a class of the calls they
    make, with a class of laws: a descriptor delivers a sequence of records, any
    number of them at a time. The kernel's getdents on a directory of tmpfs is an
    instance. *)
From S2P Require Import Prelude Errno CString GrowableBuf Kernel Inode Path Tmpfs Process Listing.
From S2P Require Import Fs Vfs SyscallFs Libc Programs.

(** ** The interface *)
Class DirCalls (S : Type) := {
  p_open : list Z → Z → K S Z;
  p_close : Z → K S Z;
  p_getdents : Z → Z → K S (Z * list dirent);
  p_errno : K S Z;
  p_set_errno : Z → K S unit;
  (** whether malloc and realloc find memory for so many bytes *)
  p_alloc : Z → K S bool;
}.

(** [struct DIR]; the bytes in [buf] are the records that getdents stored. *)
Record DIR : Type := Dir {
  dir_fd : Z;
  buf : list dirent;
  buf_capacity : Z;
  buf_size : Z;
  buf_cursor : Z;
}.
(** The record that begins at a byte of the buffer. *)
Fixpoint record_at (cursor : Z) (l : list dirent) : option dirent :=
  match l with
  | [] => None
  | e :: l => if cursor =? 0 then Some e else if cursor <? 0 then None else record_at (cursor - d_reclen e) l
  end.

Section dirent.
Context {S : Type} `{DirCalls S}.
Definition sizeof_DIR : Z := 20.
Definition opendir (name : list Z) : K S (option DIR) :=
  ok ← p_alloc sizeof_DIR;
  if negb ok then mret None
  else
    fd ← p_open name O_RDONLY;
    if fd <? 0 then mret None else mret (Some (Dir fd [] 1024 0 0)).
Definition closedir (dirp : DIR) : K S Z := p_close (dir_fd dirp).

(** The loop of readdir: the buffer is filled, growing until a record fits;
    [false] when readdir returns NULL from it. *)
Fixpoint fill_buffer (fuel : nat) (saved_errno : Z) (dirp : DIR) : K S (bool * DIR) :=
  match fuel with
  | O => out_of_fuel
  | Datatypes.S fuel =>
      ok ← p_alloc (buf_capacity dirp);
      if negb ok then mret (false, dirp)
      else
        _ ← p_set_errno 0;
        '(nread, records) ← p_getdents (dir_fd dirp) (buf_capacity dirp);
        if nread =? 0 then _ ← p_set_errno saved_errno; mret (false, dirp)
        else if 0 <? nread then
          mret (true, Dir (dir_fd dirp) records (buf_capacity dirp) nread (buf_cursor dirp))
        else
          errno ← p_errno;
          if negb (errno =? errno_val EINVAL) then mret (false, dirp)
          else
            fill_buffer fuel saved_errno
              (Dir (dir_fd dirp) (buf dirp) (u32 (buf_capacity dirp * 2)) (buf_size dirp) (buf_cursor dirp))
  end.
Definition readdir (fuel : nat) (dirp : DIR) : K S (option dirent * DIR) :=
  '(more, dirp) ← (if buf_size dirp <=? buf_cursor dirp then
      saved_errno ← p_errno;
      '(more, dirp) ← fill_buffer fuel saved_errno dirp;
      if negb (more : bool) then mret (false, dirp)
      else
        _ ← p_set_errno saved_errno;
        mret (true, Dir (dir_fd dirp) (buf dirp) (buf_capacity dirp) (buf_size dirp) 0)
    else mret (true, dirp));
  if negb (more : bool) then mret (None, dirp)
  else
    dent ← access (record_at (buf_cursor dirp) (buf dirp));
    mret (Some dent, Dir (dir_fd dirp) (buf dirp) (buf_capacity dirp) (buf_size dirp) (buf_cursor dirp + d_reclen dent)).
End dirent.

(** ** Laws *)
Definition record_bytes (es : list dirent) : Z := foldr (λ e n, d_reclen e + n) 0 es.
Definition record_ok (e : dirent) : Prop := 0 < d_reclen e < 65536.

(** [listing fd es]: the records [es] are ahead of [fd]. [starved]: memory ran
    out. *)
Class DirLaws (S : Type) `{DirCalls S} := {
  listing : Z → list dirent → S → Prop;
  starved : S → Prop;
  has_errno : Z → S → Prop;
  listing_ok fd es s : listing fd es s → Forall record_ok es;
  alloc_law fd es n s :
    listing fd es s → wp (p_alloc n) (λ ok s', listing fd es s' ∧ (ok = false → starved s')) s;
  set_errno_law fd es e s :
    listing fd es s → wp (p_set_errno e) (λ _ s', listing fd es s' ∧ has_errno e s') s;
  errno_law s : wp p_errno (λ v s', s' = s ∧ ∀ e, has_errno e s → v = e) s;
  getdents_law fd es count s :
    listing fd es s → 0 < count < 2147483648 →
    wp (p_getdents fd count) (λ r s',
      (es = [] ∧ r.1 = 0 ∧ listing fd [] s') ∨
      (∃ k, (0 < k ≤ length es)%nat ∧ r = (record_bytes (take k es), take k es) ∧ listing fd (drop k es) s') ∨
      (∃ e es', es = e :: es' ∧ count < d_reclen e ∧ r.1 = -1 ∧ has_errno (errno_val EINVAL) s' ∧
        listing fd es s')) s;
}.

(** ** Theorems *)
Lemma record_bytes_cons e es : record_bytes (e :: es) = d_reclen e + record_bytes es.
Proof. done. Qed.
Lemma record_bytes_app a b : record_bytes (a ++ b) = record_bytes a + record_bytes b.
Proof. induction a as [|e a IH]; [done|]. cbn [app]. rewrite !record_bytes_cons, IH. lia. Qed.
Lemma record_bytes_nonneg es : Forall record_ok es → 0 ≤ record_bytes es.
Proof. induction 1 as [|e es He Hes IH]; [done|]. rewrite record_bytes_cons. unfold record_ok in He. lia. Qed.
Lemma record_at_app a b :
  Forall record_ok a → record_at (record_bytes a) (a ++ b) = head b.
Proof.
  induction 1 as [|e a He Ha IH]; [by destruct b|]. rewrite record_bytes_cons. cbn [app record_at].
  pose proof (record_bytes_nonneg _ Ha). unfold record_ok in He.
  rewrite (proj2 (Z.eqb_neq _ 0)), (proj2 (Z.ltb_ge _ 0)) by lia.
  by replace (d_reclen e + record_bytes a - d_reclen e) with (record_bytes a) by lia.
Qed.

Section laws.
Context {S : Type} `{DirLaws S}.

(** The records [all] are ahead of a stream: some in its buffer, the others at
    its descriptor. *)
Definition dir_ahead (dirp : DIR) (all : list dirent) (s : S) : Prop :=
  ∃ seen pending es, all = pending ++ es ∧ buf dirp = seen ++ pending ∧
    buf_cursor dirp = record_bytes seen ∧ buf_size dirp = record_bytes (buf dirp) ∧
    Forall record_ok (buf dirp) ∧ listing (dir_fd dirp) es s ∧ 1024 ≤ buf_capacity dirp ≤ 131072.

Lemma fill_buffer_wp fuel saved dirp es s :
  listing (dir_fd dirp) es s → 1024 ≤ buf_capacity dirp ≤ 131072 → 131072 < buf_capacity dirp * 2 ^ Z.of_nat fuel →
  wp (fill_buffer fuel saved dirp) (λ r s',
    dir_fd r.2 = dir_fd dirp ∧ 1024 ≤ buf_capacity r.2 ≤ 131072 ∧
    ((r.1 = true ∧ ∃ k, (0 < k ≤ length es)%nat ∧ buf r.2 = take k es ∧ buf_size r.2 = record_bytes (take k es) ∧
        listing (dir_fd dirp) (drop k es) s') ∨
     (r.1 = false ∧ buf r.2 = buf dirp ∧ buf_size r.2 = buf_size dirp ∧ buf_cursor r.2 = buf_cursor dirp ∧
        ((es = [] ∧ listing (dir_fd dirp) [] s') ∨ starved s')))) s.
Proof.
  revert dirp s. induction fuel as [|fuel IH]; intros dirp s Hl Hc Hf; [cbn in Hf; lia|]. cbn [fill_buffer].
  apply wp_bind. eapply wp_mono; [by apply (alloc_law _ _ _ _ Hl)|]. intros ok s1 [Hl1 Hst]. cbv beta in *.
  destruct ok; cbn [negb]; [|apply wp_ret; cbn; split; [done|]; split; [lia|]; right; auto 10].
  apply wp_bind. eapply wp_mono; [by apply (set_errno_law _ _ _ _ Hl1)|]. intros _ s2 [Hl2 _].
  apply wp_bind. eapply wp_mono; [apply (getdents_law _ _ _ _ Hl2); lia|].
  intros [n recs] s3 [(-> & Hn & Hl3)|[(k & Hk & [= -> ->] & Hl3)|(e & es' & -> & Hlt & Hn & He & Hl3)]]; cbn [fst] in *.
  - subst n. cbn [Z.eqb]. apply wp_bind. eapply wp_mono; [by apply (set_errno_law _ _ _ _ Hl3)|].
    intros _ s4 [Hl4 _]. apply wp_ret. cbn. split; [done|]. split; [lia|]. right. auto 10.
  - pose proof (listing_ok _ _ _ Hl2) as Hok.
    assert (0 < record_bytes (take k es)) as Hpos.
    { destruct es as [|e es]; [cbn in Hk; lia|]. destruct k as [|k]; [lia|]. cbn [take]. rewrite record_bytes_cons.
      apply Forall_cons in Hok as [He Hes]. assert (Forall record_ok (take k es)) as Hk' by (by apply Forall_take). pose proof (record_bytes_nonneg _ Hk').
      unfold record_ok in He. lia. }
    rewrite (proj2 (Z.eqb_neq _ 0)), (proj2 (Z.ltb_lt 0 _)) by lia. apply wp_ret. cbn. split; [done|]. split; [lia|].
    left. split; [done|]. exists k. auto.
  - subst n. cbn [Z.eqb Z.ltb Z.compare]. apply wp_bind. eapply wp_mono; [apply errno_law|]. intros v s4 [-> Hv].
    rewrite (Hv _ He), Z.eqb_refl. cbn [negb].
    pose proof (listing_ok _ _ _ Hl2) as Hok. apply Forall_cons in Hok as [Hok _]. unfold record_ok in Hok.
    rewrite Nat2Z.inj_succ, Z.pow_succ_r in Hf by lia.
    eapply wp_mono; [apply IH|]; cbn [dir_fd buf_capacity buf buf_size buf_cursor].
    + exact Hl3.
    + rewrite u32_small by (unfold U32; lia). lia.
    + rewrite u32_small by (unfold U32; lia). lia.
    + intros r s5 HQ. exact HQ.
Qed.

(** C37: readdir returns the next record of a directory, in order and each once,
    and NULL at the end; it may also return NULL when memory runs out. Names
    that do not fit into the buffer make it grow. *)
Theorem readdir_spec fuel dirp all s :
  dir_ahead dirp all s → (8 ≤ fuel)%nat →
  wp (readdir fuel dirp) (λ r s',
    match r.1 with
    | Some e => ∃ rest, all = e :: rest ∧ dir_ahead r.2 rest s'
    | None => (all = [] ∧ dir_ahead r.2 [] s') ∨ starved s'
    end) s.
Proof.
  intros (seen & pending & es & -> & Hb & Hcur & Hsz & Hok & Hl & Hcap) Hf. unfold readdir.
  assert (131072 < buf_capacity dirp * 2 ^ Z.of_nat fuel) as Hfuel.
  { assert (2 ^ 8 ≤ 2 ^ Z.of_nat fuel) by (apply Z.pow_le_mono_r; lia). lia. }
  rewrite Hb in Hok. apply Forall_app in Hok as [Hok1 Hok2].
  rewrite Hsz, Hb, record_bytes_app, Hcur.
  destruct pending as [|e pending].
  - change (record_bytes []) with 0. rewrite Z.add_0_r, Z.leb_refl.
    apply wp_bind, wp_bind. eapply wp_mono; [apply errno_law|]. intros saved s1 [-> _]. apply wp_bind.
    eapply wp_mono; [by apply (fill_buffer_wp fuel saved dirp es)|].
    intros [more dirp1] s1 (Hfd & Hcap1 & Hr). cbn [fst snd] in *.
    destruct Hr as [(-> & k & Hk & Hb1 & Hsz1 & Hl1)|(-> & Hb1 & Hsz1 & Hcur1 & Hend)]; cbn [negb].
    + apply wp_bind. eapply wp_mono; [by apply (set_errno_law _ _ _ _ Hl1)|]. intros _ s2 [Hl2 _]. apply wp_ret.
      cbn [negb buf buf_cursor]. pose proof (listing_ok _ _ _ Hl) as Hes.
      destruct es as [|e es]; [cbn in Hk; lia|]. destruct k as [|k]; [lia|]. cbn [take drop app] in *.
      rewrite Hb1. apply wp_bind. eapply wp_access; [reflexivity|]. apply wp_ret. cbn [fst snd].
      exists es. split; [done|]. exists [e], (take k es), (drop k es). cbn [buf buf_cursor buf_size dir_fd buf_capacity].
      rewrite Hfd. split_and!; try done; try lia.
      * by rewrite take_drop.
      * cbn. lia.
      * apply Forall_cons in Hes as [He Hes]. apply Forall_cons. split; [done|]. by apply Forall_take.
    + apply wp_ret. cbn [negb]. apply wp_ret. cbn [fst snd app]. destruct Hend as [[-> Hl1]|Hst]; [left|by right].
      split; [done|]. exists seen, [], []. rewrite Hfd, Hb1, Hcur1, Hsz1, Hb, app_nil_r, Hsz, Hb, app_nil_r. auto 10.
  - apply Forall_cons in Hok2 as [He Hok2]. pose proof (record_bytes_nonneg _ Hok2).
    rewrite record_bytes_cons. unfold record_ok in He. rewrite (proj2 (Z.leb_gt _ _)) by lia.
    apply wp_bind, wp_ret. cbn [negb]. rewrite Hb, Hcur, record_at_app by done. cbn [head].
    apply wp_bind. eapply wp_access; [reflexivity|]. apply wp_ret. cbn [fst snd app].
    exists (pending ++ es). split; [done|]. exists (seen ++ [e]), pending, es.
    cbn [buf buf_cursor buf_size dir_fd buf_capacity]. rewrite Hsz, Hb, <-app_assoc. split_and!; try done; try lia.
    + rewrite record_bytes_app. cbn. lia.
    + apply Forall_app. split; [done|]. by constructor.
Qed.
End laws.

(** ** The calls of the C library on a directory of tmpfs *)
#[global] Instance user_dir_calls : DirCalls user := {|
  p_open := λ name flags, Libc.open name flags 0;
  p_close := Libc.close;
  p_getdents := Libc.getdents;
  p_errno := gets errno;
  p_set_errno := λ e, modify (set_errno e);
  p_alloc := λ _, mret true;
|}.

(** [d] is open at [fd] on a directory whose entries are listed as [es]. *)
Record on_dir (fd : Z) (d : nat) (x : file_description) (nd : inode) (b : growable_buf) (l : list dentry)
    (es : list item) (k : kstate) : Prop := OnDir {
  od_opened : opened k fd d;
  od_file : file_at k d x nd b l;
  od_fops : fops nd = dir_fops;
  od_mode : S_ISDIR (mode nd) = true;
  od_typed : typed k l es;
  od_counted : counted_from 0 es;
  od_offset : 0 ≤ d_offset x;
  od_names : Forall (λ e, (length (i_name e) ≤ 255)%nat) es;
}.
Definition user_listing (fd : Z) (recs : list dirent) (u : user) : Prop :=
  ∃ d x nd b l es, on_dir fd d x nd b l es (kern u) ∧ recs = record_of <$> drop (Z.to_nat (d_offset x)) es.

Lemma record_of_size e : (length (i_name e) ≤ 255)%nat → d_reclen (record_of e) = item_size e.
Proof. intros He. unfold record_of, item_size, u16. cbn [d_reclen]. apply Z.mod_small. lia. Qed.
Lemma record_bytes_sizes es :
  Forall (λ e, (length (i_name e) ≤ 255)%nat) es → record_bytes (record_of <$> es) = sizes es.
Proof.
  induction 1 as [|e es He Hes IH]; [done|]. cbn [fmap list_fmap]. by rewrite record_bytes_cons, sizes_cons, IH, record_of_size.
Qed.
Lemma on_dir_moved fd d x nd b l es k o :
  on_dir fd d x nd b l es k → 0 ≤ o → on_dir fd d (set_offset o x) nd b l es (moved d o k).
Proof.
  intros [Hop (Hx & Hnd & Hd & Hl) Hfo Hm Ht Hc _ Hn] Ho. split; try done.
  - split_and!; [by apply moved_desc|done|done|done].
  - eapply Forall2_impl; [exact Ht|]. intros e i (Hi & nd' & Hnd' & Hty). split; [done|]. exists nd'. split; [done|].
    exact (mode_type_state _ _ _ _ Hty).
Qed.

Lemma tmpfs_getdents_wp fd d x nd b l es k ctx (R := drop (Z.to_nat (d_offset x)) es) :
  on_dir fd d x nd b l es k →
  wp (tmpfs_getdents ctx d) (λ r k', r = (0, filled ctx R) ∧
    k' = moved d (d_offset x + Z.of_nat (fitting (remaining_count ctx) R)) k) k.
Proof.
  intros [_ (Hx & Hnd & Hd & Hlocks) _ _ Ht Hc Ho _]. unfold tmpfs_getdents. wp_keep.
  apply (wp_desc d x); [done|]. apply wp_locked; [by rewrite Hlocks|]. set (k1 := with_locks _ k).
  apply wp_locked. { unfold k1. cbn [locks with_locks]. rewrite lookup_insert_ne by done. by rewrite Hlocks. }
  set (k2 := with_locks _ k1). wp_keep. unfold Inode.children. wp_keep. eapply wp_node; [exact Hnd|].
  rewrite Hd. wp_keep.
  assert (typed k2 l es) as Ht2.
  { eapply Forall2_impl; [exact Ht|]. intros e i (Hi & nd' & Hnd' & Hty). split; [done|]. exists nd'. split; [done|].
    exact (mode_type_state _ _ _ _ Hty). }
  eapply wp_run; [exact (dentry_getdents_run ctx d x l es k2 Ht2 Hc Hx Ho)|].
  split; [done|]. split; [done|]. split; [done|]. split; [done|]. split; [done|]. by destruct k.
Qed.

(** What getdents answers. *)
Lemma sys_getdents_wp fd d x nd b l es k count (R := drop (Z.to_nat (d_offset x)) es) (n := fitting count R) :
  on_dir fd d x nd b l es k → 0 < count < 2147483648 →
  wp (sys_getdents fd count) (λ r k',
    r = (if (sizes (take n R) =? 0) && bool_decide (n < length R)%nat then ERR EINVAL else sizes (take n R),
         record_of <$> take n R) ∧
    k' = moved d (d_offset x + Z.of_nat n) k) k.
Proof.
  intros Hod Hc. pose proof Hod as [Hop (Hx & Hnd & Hd & Hlocks) Hfo Hm _ _ _ _]. unfold sys_getdents. wp_keep.
  eapply wp_run; [by apply get_file_description_run|]. cbv iota. unfold file_description_getdents. wp_keep.
  apply (wp_desc d x); [done|]. wp_keep. eapply wp_node; [exact Hnd|]. rewrite Hfo, Hm. cbn [fops_getdents]. wp_keep.
  rewrite u32_small by (unfold U32; lia).
  eapply wp_mono; [by apply (tmpfs_getdents_wp fd d x nd b l es)|]. intros r k' [-> ->]. cbn [remaining_count].
  change (IS_ERR 0) with false. cbv iota. fold R. unfold filled. cbn [remaining_count dirp nwritten buffer_is_too_small].
  fold n. rewrite Z.add_0_l, orb_false_r, app_nil_l. by destruct (_ && _).
Qed.

Lemma user_getdents_law fd recs count u :
  user_listing fd recs u → 0 < count < 2147483648 →
  wp (Libc.getdents fd count) (λ r u',
    (recs = [] ∧ r.1 = 0 ∧ user_listing fd [] u') ∨
    (∃ k, (0 < k ≤ length recs)%nat ∧ r = (record_bytes (take k recs), take k recs) ∧ user_listing fd (drop k recs) u') ∨
    (∃ e es', recs = e :: es' ∧ count < d_reclen e ∧ r.1 = -1 ∧ errno u' = errno_val EINVAL ∧ user_listing fd recs u')) u.
Proof.
  intros (d & x & nd & b & l & es & Hod & ->) Hc. set (R := drop _ es). set (n := fitting count R).
  assert (0 ≤ d_offset x) as Ho by apply Hod.
  assert (Forall (λ e, (length (i_name e) ≤ 255)%nat) R) as HnR by (apply Forall_drop, Hod).
  assert (∀ u', kern u' = moved d (d_offset x + Z.of_nat n) (kern u) → user_listing fd (record_of <$> drop n R) u') as Hnext.
  { intros u' Hu'. exists d, (set_offset (d_offset x + Z.of_nat n) x), nd, b, l, es. rewrite Hu'.
    split; [apply on_dir_moved; [done|lia]|]. cbn [d_offset set_offset]. unfold R. rewrite drop_drop. do 2 f_equal. lia. }
  unfold Libc.getdents. apply wp_returning_with.
  eapply wp_mono; [by apply (sys_getdents_wp fd d x nd b l es (kern u) count)|].
  intros r k' [-> ->]. fold R. fold n. cbn [fst snd].
  pose proof (sizes_range count R ltac:(lia)) as Hsz. fold n in Hsz.
  destruct (Z.eqb_spec (sizes (take n R)) 0) as [H0|H0]; cbn [andb].
  - apply sizes_zero in H0. assert (n = 0%nat ∨ R = []) as Hn0.
    { destruct n; [by left|]. destruct R; [by right|discriminate H0]. }
    destruct R as [|e R'] eqn:HR.
    + unfold n. cbn [fitting length]. rewrite bool_decide_eq_false_2 by lia. cbn [take]. change (sizes []) with 0.
      change (IS_ERR 0) with false. cbv iota. left. split; [done|]. split; [done|]. by apply (Hnext (set_kern _ u)).
    + destruct Hn0 as [Hn0|]; [|done]. rewrite Hn0. cbn [take length]. rewrite bool_decide_eq_true_2 by lia.
      rewrite IS_ERR_ERR by done. right. right. exists (record_of e), (record_of <$> R'). split; [done|].
      assert (count < item_size e) as Hlt.
      { unfold n in Hn0. cbn [fitting] in Hn0. destruct (Z.ltb_spec count (item_size e)); [done|discriminate Hn0]. }
      apply Forall_cons in HnR as [He _]. rewrite record_of_size by done. split; [done|]. split; [done|]. split; [done|].
      specialize (Hnext (set_errno (- ERR EINVAL) (set_kern (moved d (d_offset x + Z.of_nat 0) (kern u)) u))).
      rewrite Hn0 in Hnext. by apply Hnext.
  - rewrite IS_ERR_nonneg by lia. right. left. exists n. rewrite length_fmap, <-fmap_take, <-fmap_drop.
    split; [split; [|apply fitting_le]|split].
    + destruct n; [|lia]. cbn [take] in H0. by change (sizes []) with 0 in H0.
    + rewrite record_bytes_sizes by (by apply Forall_take). done.
    + by apply (Hnext (set_kern _ u)).
Qed.

Lemma user_listing_kern fd recs u u' : kern u' = kern u → user_listing fd recs u → user_listing fd recs u'.
Proof. intros Hk (d & x & nd & b & l & es & Hod & ->). exists d, x, nd, b, l, es. by rewrite Hk. Qed.
#[global] Instance user_dir_laws : DirLaws user.
Proof.
  refine {| listing := user_listing; starved := λ _, False; has_errno := λ e u, errno u = e |}.
  - intros fd recs u (d & x & nd & b & l & es & Hod & ->). apply Forall_fmap, Forall_drop.
    eapply Forall_impl; [apply Hod|]. intros e He. unfold compose, record_ok. rewrite record_of_size by done.
    unfold item_size. cbv beta in He. lia.
  - intros fd recs n u Hl. apply wp_ret. split; [done|discriminate].
  - intros fd recs e u Hl. apply wp_modify. split; [by eapply user_listing_kern|done].
  - intros u. apply wp_gets. split; [done|]. by intros e ->.
  - apply user_getdents_law.
Defined.

(** ** Witness *)
(** A process that has opened a directory of tmpfs with two files. *)
Definition two_names : list dentry := [(lit "hello", 5%nat); (lit "world.txt", 6%nat)].
Definition two_dir : inode := Inode None dir_fops 0 None 1 2 S_IFDIR (TmpfsData growable_buf_zero two_names).
Definition two_entries : user :=
  let p := one_process (lit "/") in
  let table := <[3%nat := Some 9%nat]> (replicate OPEN_MAX None) in
  let file := Inode None non_dir_fops 0 None 1 1 S_IFREG (TmpfsData growable_buf_zero []) in
  User (with_inodes (λ _, {[4%nat := two_dir; 5%nat := file; 6%nat := file]})
         (with_descs (λ _, {[9%nat := FileDescription 4 1 0 1]}) (with_procs (fmap (set_fd_table table)) p))) 0 1.
Definition two_items : list item := [Item (lit "hello") 8 1; Item (lit "world.txt") 8 2].
Lemma two_entries_ahead : dir_ahead (Dir 3 [] 1024 0 0) (record_of <$> two_items) two_entries.
Proof.
  exists [], [], (record_of <$> two_items). split_and!; try done.
  exists 9%nat, (FileDescription 4 1 0 1), two_dir, growable_buf_zero, two_names, two_items. split; [|reflexivity].
  split.
  - split; [split; [done|vm_compute; reflexivity]|]. eexists. split; reflexivity.
  - split_and!; reflexivity.
  - reflexivity.
  - reflexivity.
  - repeat (apply Forall2_cons; split; [split; [reflexivity|eexists; split; reflexivity]|]). by apply Forall2_nil.
  - repeat split.
  - by apply Z.leb_le.
  - repeat (apply Forall_cons; split; [apply Nat.leb_le; reflexivity|]). by apply Forall_nil.
Qed.
Lemma readdir_spec_witness :
  wp (readdir 8 (Dir 3 [] 1024 0 0)) (λ r s',
    match r.1 with
    | Some e => ∃ rest, (record_of <$> two_items) = e :: rest ∧ dir_ahead r.2 rest s'
    | None => ((record_of <$> two_items) = [] ∧ dir_ahead r.2 [] s') ∨ starved s'
    end) two_entries.
Proof.
  apply (@readdir_spec user user_dir_calls user_dir_laws 8 (Dir 3 [] 1024 0 0) (record_of <$> two_items) two_entries);
    [exact two_entries_ahead|lia].
Defined.
