(* ===== verification/Boot.v ===== *)
(** * The start of the kernel (kernel/main.c)

    The part of [start] that builds the state of the other files: the file
    systems, the first processes and the devices. What [start] does before, in
    between and to the hardware (tables, paging, drivers and their devices, /proc,
    the timer) is not part of it. *)
From S2P Require Import Prelude.
From S2P Require Import Errno.
From S2P Require Import CString.
From S2P Require Import GrowableBuf.
From S2P Require Import Kernel.
From S2P Require Import Inode.
From S2P Require Import Path.
From S2P Require Import Tmpfs.
From S2P Require Import Process.
From S2P Require Import Scheduler.
From S2P Require Import Fs.
From S2P Require Import Vfs.
From S2P Require Import SyscallFs.
From S2P Require Import SyscallProcess.
From S2P Require Import Syscalls.
From S2P Require Import Initrd.
From S2P Require Import Lifecycle.

(** [m] is the region of the archive, which is at [cursor]; [magic] and [trailer]
    are the strings it is compared with. The computation ends in the first
    process that is not [start] itself. *)
Definition start_processes : K kstate unit :=
  _ ← scheduler_init;
  rc ← process_spawn_kernel_process (lit "userland_init");
  _ ← ASSERT_OK rc;
  process_exit 0.
Definition start (fuel : nat) (m : mem) (magic trailer cursor : ptr) : K kstate unit :=
  _ ← mount_tmpfs ROOT_DIR;
  _ ← process_init;
  _ ← populate fuel m magic trailer cursor;
  _ ← mount_tmpfs (lit "/tmp");
  _ ← mount_tmpfs (lit "/dev/shm");
  _ ← create_char_device (lit "/dev/null") Fifo.null_device_create;
  _ ← create_char_device (lit "/dev/zero") Fifo.zero_device_create;
  _ ← create_char_device (lit "/dev/full") Fifo.full_device_create;
  _ ← create_char_device (lit "/dev/random") Fifo.random_device_create;
  start_processes.

(** The beginning of [init], which then becomes the program /bin/init. *)
Definition set_numbers (id group : Z) (p : process) : process :=
  Process id (ppid p) group (pstate p) (exit_status p) (comm p) (cwd_path p) (cwd_inode p)
    (fd_table p) (should_unblock p) (waited_process p) (blocker_was_interrupted p)
    (user_ticks p) (kernel_ticks p) (pending_signals p).
Definition init : K kstate unit :=
  id ← process_generate_next_pid; update_current (set_numbers id id).

(** ** A start *)
Definition start_files : list file :=
  let dir name := File name (Z.lor S_IFDIR 0x1ed) 0 [] (0, 0, 0, 0, 1, 0) in
  [dir (lit "/dev"); dir (lit "/dev/shm"); dir (lit "/tmp"); dir (lit "/bin");
   File (lit "/bin/init") (Z.lor S_IFREG 0x1ed) 0 (lit "ELF") (0, 0, 0, 0, 1, 0)].
Definition start_region : mem :=
  lit "070707" ++ [0] ++ lit "TRAILER!!!" ++ [0] ++ archive start_files.
(** Before [start] no process exists; [current] is null. *)
Definition nothing : kstate := KState ∅ ∅ None [] [] ∅ ∅ [] [] None 0 1 1 [].
Definition started : option kstate :=
  match (_ ← start 6 start_region 0 7 18; init) nothing with Done _ s => Some s | _ => None end.
Example start_runs_init :
  (s ← started; x ← procs s !! current s; Some (pid x, ppid x, pstate x, comm x, all_processes s)) =
    Some (1, 1, PROCESS_STATE_RUNNING, lit "userland_init", [2%nat]).
Proof. vm_compute. reflexivity. Qed.
(** The devices are in their places, and the initial process has ended. *)
Example start_makes_devices :
  match started with
  | Some s =>
      match (d ← vfs_open (lit "/dev/zero") O_RDONLY 0; d ← ASSERT_PTR d; file_description_read d 3) s with
      | Done r _ => r = (3, [0; 0; 0]) ∧ pstate <$> procs s !! 0%nat = Some PROCESS_STATE_DEAD
      | _ => False
      end
  | None => False
  end.
Proof. vm_compute. done. Qed.

(** ** The first process is its own child

    [start] has the number 0 when it exits, as its child has, whose parent is then
    number 0: so the child is adopted by process 1, which it becomes. *)
Lemma find_dead_none target any prev l s :
  none_of s (λ x, target x && bool_decide (pstate x = PROCESS_STATE_DEAD)) l →
  (any = true ∨ ∃ q x, q ∈ l ∧ procs s !! q = Some x ∧ target x = true) →
  find_dead target prev l any s = Done (None, true) s.
Proof.
  intros Hno. revert any prev. induction Hno as [|q l (y & Hy & Hf) _ IH]; intros any prev Hany; cbn [find_dead].
  - destruct Hany as [->|(q & x & H & _)]; [done|]. by apply elem_of_nil in H.
  - rewrite (bind_run _ _ _ _ _ (proc_run q y s Hy)), Hf. cbv zeta. apply IH.
    destruct Hany as [->|(r & x & Hr & Hx & Ht)]; [by left|].
    apply elem_of_cons in Hr as [->|Hr]; [|right; by exists r, x].
    rewrite Hy in Hx. injection Hx as <-. left. rewrite Ht. apply orb_true_r.
Qed.
(** A process that is its own parent waits for its children even when it has
    none: the wait goes on, where -ECHILD is meant. *)
Lemma own_child_waits s c :
  procs s !! current s = Some c → current s ∈ all_processes s → ppid c = pid c →
  none_of s (λ x, (ppid x =? pid c) && bool_decide (pstate x = PROCESS_STATE_DEAD)) (all_processes s) →
  run_blocker (current s) (Waitpid (-1) (pid c) (pgid c)) s = Done false s.
Proof.
  intros Hc Hin Hown Hno. cbn [run_blocker]. unfold waitpid_should_unblock, mbind at 1, K_bind at 1, get.
  rewrite (bind_run _ _ _ _ _ (find_dead_none (is_target (-1) (pid c) (pgid c)) false [] _ s Hno
    (or_intror (ex_intro _ _ (ex_intro _ c (conj Hin (conj Hc (proj2 (Z.eqb_eq _ _) Hown)))))))).
  done.
Qed.
Lemma own_child_waits_witness :
  match started with
  | Some s => run_blocker (current s) (Waitpid (-1) 1 1) s = Done false s
  | None => False
  end.
Proof.
  destruct started as [s|] eqn:E; [|vm_compute in E; discriminate].
  destruct (procs s !! current s) as [c|] eqn:Hc.
  - assert (pid c = 1 ∧ pgid c = 1 ∧ ppid c = 1 ∧ current s = 2%nat ∧ all_processes s = [2%nat] ∧
      pstate c = PROCESS_STATE_RUNNING) as (Hp & Hg & Hpp & Hcur & Hall & Hst).
    { assert ((s ← started; x ← procs s !! current s;
        Some (pid x, pgid x, ppid x, current s, all_processes s, pstate x)) =
        Some (1, 1, 1, 2%nat, [2%nat], PROCESS_STATE_RUNNING)) as H by by vm_compute.
      rewrite E in H. clear E. cbn in H. rewrite Hc in H. cbn in H. injection H. auto 10. }
    pose proof (own_child_waits s c Hc) as H. rewrite Hp, Hg, Hpp, Hcur, Hall in H. rewrite Hcur. apply H.
    + by left.
    + done.
    + repeat constructor. exists c. rewrite <-Hcur. split; [done|]. by rewrite Hst, andb_false_r.
  - exfalso. assert ((s ← started; x ← procs s !! current s; Some (pid x)) = Some 1) as H by by vm_compute.
    rewrite E in H. clear E. cbn in H. rewrite Hc in H. discriminate H.
Defined.
