(* ===== verification/Qoi.v ===== *)
(** * The picture viewer (userland/imgview.c)

    The decoder of QOI pictures, which reads its file byte by byte, and the loops
    that put the pixels on the screen. The theorem is a round trip with a
    reference encoder: the screen shows the visible part of the picture that was
    encoded. Finding the frame buffer and opening the file are not part of it. *)
From S2P Require Import Prelude.

Definition QOI_OP_INDEX : Z := 0x00.
Definition QOI_OP_DIFF : Z := 0x40.
Definition QOI_OP_LUMA : Z := 0x80.
Definition QOI_OP_RUN : Z := 0xc0.
Definition QOI_OP_RGB : Z := 0xfe.
Definition QOI_OP_RGBA : Z := 0xff.
Definition QOI_MASK_2 : Z := 0xc0.

Record rgba : Type := Rgba { red : Z; green : Z; blue : Z; alpha : Z }.
#[global] Instance rgba_eq_dec : EqDecision rgba.
Proof. solve_decision. Defined.
Definition hash (c : rgba) : Z := (red c * 3 + green c * 5 + blue c * 7 + alpha c * 11) mod 64.
Definition swap_bytes (x : Z) : Z :=
  Z.lor (Z.lor (Z.land (Z.shiftr x 24) 0xff) (Z.land (u32 (Z.shiftl x 8)) 0xff0000))
    (Z.lor (Z.land (Z.shiftr x 8) 0xff00) (Z.land (u32 (Z.shiftl x 24)) 0xff000000)).

(** The rest of the file and the variables of the decoder. *)
Record qoi : Type := Qoi { input : list Z; px : rgba; index : list rgba; run : Z }.
Definition set_input (l : list Z) (s : qoi) : qoi := Qoi l (px s) (index s) (run s).
Definition set_px (c : rgba) (s : qoi) : qoi := Qoi (input s) c (index s) (run s).
Definition set_index (l : list rgba) (s : qoi) : qoi := Qoi (input s) (px s) l (run s).
Definition set_run (n : Z) (s : qoi) : qoi := Qoi (input s) (px s) (index s) n.

(** [read(img_fd, &b, 1)]: at the end of the file the variable stays without a
    value. *)
Definition read_byte : K qoi Z :=
  s ← get;
  match input s with
  | [] => undef
  | b :: rest => _ ← put (set_input rest s); mret b
  end.
(** [read(img_fd, &px.rgba, n)], with the bytes there are. *)
Definition overwrite (c : rgba) (bytes : list Z) : rgba :=
  match bytes with
  | [] => c
  | [r] => Rgba r (green c) (blue c) (alpha c)
  | [r; g] => Rgba r g (blue c) (alpha c)
  | [r; g; b] => Rgba r g b (alpha c)
  | r :: g :: b :: a :: _ => Rgba r g b a
  end.
Definition read_px (n : nat) : K qoi unit :=
  s ← get; put (set_px (overwrite (px s) (take n (input s))) (set_input (drop n (input s)) s)).

(** The part of the inner loop that decodes one pixel. *)
Definition decode_op (b1 : Z) : K qoi unit :=
  if b1 =? QOI_OP_RGB then read_px 3
  else if b1 =? QOI_OP_RGBA then read_px 4
  else
    let op := Z.land b1 QOI_MASK_2 in
    if op =? QOI_OP_INDEX then
      s ← get; c ← access (index s !! Z.to_nat b1); modify (set_px c)
    else if op =? QOI_OP_DIFF then
      modify (λ s, set_px
        (Rgba (u8 (red (px s) + (Z.land (Z.shiftr b1 4) 3 - 2)))
              (u8 (green (px s) + (Z.land (Z.shiftr b1 2) 3 - 2)))
              (u8 (blue (px s) + (Z.land b1 3 - 2))) (alpha (px s))) s)
    else if op =? QOI_OP_LUMA then
      b2 ← read_byte;
      let vg := Z.land b1 0x3f - 32 in
      modify (λ s, set_px
        (Rgba (u8 (red (px s) + (vg - 8 + Z.land (Z.shiftr b2 4) 0x0f)))
              (u8 (green (px s) + vg))
              (u8 (blue (px s) + (vg - 8 + Z.land b2 0x0f))) (alpha (px s))) s)
    else modify (set_run (Z.land b1 0x3f)).
Definition decode_pixel : K qoi unit :=
  s ← get;
  if 0 <? run s then put (set_run (run s - 1) s)
  else
    b1 ← read_byte;
    _ ← decode_op b1;
    modify (λ s, set_index (<[Z.to_nat (hash (px s)) := px s]> (index s)) s).

(** ** The screen *)
Record fb_info : Type := FbInfo { fb_pitch : Z; fb_width : Z; fb_height : Z }.
(** The words of the mapped frame buffer by their offsets. *)
Record viewer : Type := Viewer { decoder : qoi; fb : gmap Z Z }.
Definition in_decoder {A} (m : K qoi A) : K viewer A := zoom decoder (λ d v, Viewer d (fb v)) m.
Definition store_pixel (info : fb_info) (offset value : Z) : K viewer unit :=
  if (0 <=? offset) && (offset + 4 <=? fb_pitch info * fb_height info)
  then modify (λ v, Viewer (decoder v) (<[offset := value]> (fb v))) else undef.
Definition pixel_value (c : rgba) : Z := Z.lor (Z.lor (Z.shiftl (red c) 16) (Z.shiftl (green c) 8)) (blue c).

(** [n] columns are left from [x]. *)
Fixpoint show_row (info : fb_info) (visible_width row : Z) (n : nat) (x : Z) : K viewer unit :=
  match n with
  | O => mret tt
  | S n =>
      _ ← in_decoder decode_pixel;
      v ← get;
      _ ← when (x <? visible_width) (store_pixel info (row + 4 * x) (pixel_value (px (decoder v))));
      show_row info visible_width row n (x + 1)
  end.
Fixpoint show_rows (info : fb_info) (width : nat) (visible_width : Z) (n : nat) (row : Z) : K viewer unit :=
  match n with
  | O => mret tt
  | S n => _ ← show_row info visible_width row width 0; show_rows info width visible_width n (row + fb_pitch info)
  end.

(** A word of the file, as the packed header has it. *)
Definition le_word (l : list Z) (i : nat) : Z :=
  nth i l 0 + 256 * nth (S i) l 0 + 65536 * nth (S (S i)) l 0 + 16777216 * nth (S (S (S i))) l 0.
Definition sizeof_qoi_header : nat := 14.
Definition EXIT_FAILURE : Z := 1.
(** main from the reading of the header. *)
Definition show (info : fb_info) : K viewer Z :=
  v ← get;
  let header := take sizeof_qoi_header (input (decoder v)) in
  _ ← put (Viewer (set_input (drop sizeof_qoi_header (input (decoder v))) (decoder v)) (fb v));
  if (length header <? sizeof_qoi_header)%nat || negb (bool_decide (take 4 header = lit "qoif")) then mret EXIT_FAILURE
  else
    let width := swap_bytes (le_word header 4) in
    let height := swap_bytes (le_word header 8) in
    let visible_width := Z.min width (fb_width info) in
    let visible_height := Z.min height (fb_height info) in
    _ ← in_decoder (modify (λ d, Qoi (input d) (Rgba 0 0 0 255) (replicate 64 (Rgba 0 0 0 0)) 0));
    _ ← show_rows info (Z.to_nat width) visible_width (Z.to_nat visible_height) 0;
    mret 0.

(** ** The reference encoder

    It follows the description of the format, with its numbers. Its state is the
    last pixel and a table of pixels, in which runs are not entered; [k] pixels equal to the last one are
    pending. *)
(** The place of a pixel in the table: (3r + 5g + 7b + 11a) mod 64. *)
Definition slot (c : rgba) : Z := (3 * red c + 5 * green c + 7 * blue c + 11 * alpha c) mod 64.
Inductive op : Type :=
  | Index (i : Z) | Diff (dr dg db : Z) | Luma (vg vr vb : Z) | Run (n : Z) | Rgb (c : rgba) | RgbaOp (c : rgba).
Definition op_bytes (o : op) : list Z :=
  match o with
  | Index i => [i]
  | Diff dr dg db => [64 + (dr + 2) * 16 + (dg + 2) * 4 + (db + 2)]
  | Luma vg vr vb => [128 + (vg + 32); (vr + 8) * 16 + (vb + 8)]
  | Run n => [192 + (n - 1)]
  | Rgb c => [254; red c; green c; blue c]
  | RgbaOp c => [255; red c; green c; blue c; alpha c]
  end.
Definition within (lo x hi : Z) : bool := (lo <=? x) && (x <=? hi).
(** The operation for a pixel [c] that is not the last pixel [p]. *)
Definition choose (p : rgba) (table : list rgba) (c : rgba) : op :=
  let dr := schar (red c - red p) in
  let dg := schar (green c - green p) in
  let db := schar (blue c - blue p) in
  if bool_decide (table !! Z.to_nat (slot c) = Some c) then Index (slot c)
  else if negb (alpha c =? alpha p) then RgbaOp c
  else if within (-2) dr 1 && within (-2) dg 1 && within (-2) db 1 then Diff dr dg db
  else if within (-32) dg 31 && within (-8) (dr - dg) 7 && within (-8) (db - dg) 7
  then Luma dg (dr - dg) (db - dg)
  else Rgb c.
Definition flush (k : nat) : list Z := match k with O => [] | _ => op_bytes (Run (Z.of_nat k)) end.
Definition RUN_MAX : nat := 62.
Fixpoint encode (p : rgba) (table : list rgba) (k : nat) (cs : list rgba) : list Z :=
  match cs with
  | [] => flush k
  | c :: cs =>
      if bool_decide (c = p) then
        if (S k =? RUN_MAX)%nat then flush RUN_MAX ++ encode p table 0 cs
        else encode p table (S k) cs
      else
        flush k ++ op_bytes (choose p table c) ++ encode c (<[Z.to_nat (slot c) := c]> table) 0 cs
  end.
Definition be_word (x : Z) : list Z := [x / 16777216; x / 65536 mod 256; x / 256 mod 256; x mod 256].
Definition first_px : rgba := Rgba 0 0 0 255.
Definition first_table : list rgba := replicate 64 (Rgba 0 0 0 0).
Definition qoi_file (width height channels colorspace : Z) (cs : list rgba) : list Z :=
  lit "qoif" ++ be_word width ++ be_word height ++ [channels; colorspace] ++ encode first_px first_table 0 cs.

(** ** Decoding what was encoded *)
Definition byte (x : Z) : Prop := 0 ≤ x < 256.
Definition pixel_ok (c : rgba) : Prop := byte (red c) ∧ byte (green c) ∧ byte (blue c) ∧ byte (alpha c).
Lemma hash_slot c : hash c = slot c.
Proof. unfold hash, slot. f_equal. lia. Qed.
Lemma slot_range c : 0 ≤ slot c < 64.
Proof. unfold slot. by apply Z.mod_pos_bound. Qed.

(** The decoder delivers the pixels [cs] next. *)
Fixpoint produces (s : qoi) (cs : list rgba) : Prop :=
  match cs with
  | [] => True
  | c :: cs => ∃ s', decode_pixel s = Done tt s' ∧ px s' = c ∧ produces s' cs
  end.
Lemma produces_run n s cs :
  run s = Z.of_nat n → produces (set_run 0 s) cs → produces s (replicate n (px s) ++ cs).
Proof.
  revert s. induction n as [|n IH]; intros s Hr Hp; cbn [replicate app produces].
  - destruct s as [i p t r]. cbn in Hr. by subst r.
  - exists (set_run (run s - 1) s). split_and!; [|done|].
    + unfold decode_pixel, mbind, K_bind, get. by rewrite (proj2 (Z.ltb_lt 0 (run s))) by lia.
    + apply (IH (set_run (run s - 1) s)); [cbn [run set_run]; lia|exact Hp].
Qed.

(** The last pixel after an operation, and how many more follow. *)
Definition op_px (p : rgba) (table : list rgba) (o : op) : rgba :=
  match o with
  | Index i => default p (table !! Z.to_nat i)
  | Diff dr dg db => Rgba (u8 (red p + dr)) (u8 (green p + dg)) (u8 (blue p + db)) (alpha p)
  | Luma vg vr vb => Rgba (u8 (red p + (vg + vr))) (u8 (green p + vg)) (u8 (blue p + (vg + vb))) (alpha p)
  | Run _ => p
  | Rgb c => Rgba (red c) (green c) (blue c) (alpha p)
  | RgbaOp c => c
  end.
Definition op_run (o : op) : Z := match o with Run n => n - 1 | _ => 0 end.
Definition op_ok (table : list rgba) (o : op) : Prop :=
  match o with
  | Index i => 0 ≤ i < 64 ∧ is_Some (table !! Z.to_nat i)
  | Diff dr dg db => -2 ≤ dr ≤ 1 ∧ -2 ≤ dg ≤ 1 ∧ -2 ≤ db ≤ 1
  | Luma vg vr vb => -32 ≤ vg ≤ 31 ∧ -8 ≤ vr ≤ 7 ∧ -8 ≤ vb ≤ 7
  | Run n => 1 ≤ n ≤ 62
  | Rgb _ | RgbaOp _ => True
  end.
Lemma land_mask x k n : 0 ≤ k → n = 2 ^ k - 1 → Z.land x n = x mod 2 ^ k.
Proof. intros Hk ->. rewrite <-Z.land_ones by done. by rewrite Z.ones_equiv, <-Z.sub_1_r. Qed.
(** The two bits of the tag. *)
Lemma land_tag x : 0 ≤ x < 256 → Z.land x QOI_MASK_2 = x / 64 * 64.
Proof.
  intros Hx. unfold QOI_MASK_2. change 192 with (Z.shiftl 3 6).
  replace (Z.land x (Z.shiftl 3 6)) with (Z.shiftl (Z.land (Z.shiftr x 6) 3) 6).
  - rewrite (land_mask _ 2 3), Z.shiftl_mul_pow2, Z.shiftr_div_pow2 by done.
    change (2 ^ 6) with 64. change (2 ^ 2) with 4. rewrite Z.mod_small; [done|].
    Z.to_euclidean_division_equations. lia.
  - apply Z.bits_inj'. intros n Hn. rewrite Z.shiftl_spec, !Z.land_spec, Z.shiftl_spec by done.
    destruct (decide (6 ≤ n)).
    + rewrite Z.shiftr_spec by lia. by replace (n - 6 + 6) with n by lia.
    + by rewrite (Z.testbit_neg_r 3 (n - 6)), !andb_false_r by lia.
Qed.

Lemma tag_of x k : 0 ≤ k < 4 → 64 * k ≤ x < 64 * k + 64 → Z.land x QOI_MASK_2 = 64 * k.
Proof. intros Hk Hx. rewrite land_tag by lia. Z.to_euclidean_division_equations. lia. Qed.
Lemma not_rgb x A (a b c : A) : x < 254 → (if x =? QOI_OP_RGB then a else if x =? QOI_OP_RGBA then b else c) = c.
Proof. unfold QOI_OP_RGB, QOI_OP_RGBA. intros Hx. by rewrite !(proj2 (Z.eqb_neq x _)) by lia. Qed.
Lemma read_byte_run b rest s : input s = b :: rest → read_byte s = Done b (set_input rest s).
Proof. intros E. unfold read_byte, mbind, K_bind, get. by rewrite E. Qed.
Lemma decode_index n s c :
  0 ≤ n < 64 → index s !! Z.to_nat n = Some c → decode_op n s = Done tt (set_px c s).
Proof.
  intros Hn Hc. unfold decode_op. rewrite not_rgb by lia. rewrite (tag_of n 0) by lia.
  change (64 * 0 =? QOI_OP_INDEX) with true. cbv iota zeta. unfold mbind, K_bind, get, access. by rewrite Hc.
Qed.
Lemma bits_of_diff dr dg db :
  -2 ≤ dr ≤ 1 → -2 ≤ dg ≤ 1 → -2 ≤ db ≤ 1 →
  let x := 64 + (dr + 2) * 16 + (dg + 2) * 4 + (db + 2) in
  Z.land (Z.shiftr x 4) 3 - 2 = dr ∧ Z.land (Z.shiftr x 2) 3 - 2 = dg ∧ Z.land x 3 - 2 = db.
Proof.
  intros Hr Hg Hb x. rewrite !(land_mask _ 2 3), !Z.shiftr_div_pow2 by done.
  change (2 ^ 4) with 16. change (2 ^ 2) with 4. subst x. Z.to_euclidean_division_equations. lia.
Qed.
Lemma decode_diff dr dg db s :
  -2 ≤ dr ≤ 1 → -2 ≤ dg ≤ 1 → -2 ≤ db ≤ 1 →
  decode_op (64 + (dr + 2) * 16 + (dg + 2) * 4 + (db + 2)) s =
    Done tt (set_px (op_px (px s) (index s) (Diff dr dg db)) s).
Proof.
  intros Hr Hg Hb. destruct (bits_of_diff dr dg db Hr Hg Hb) as (E1 & E2 & E3).
  unfold decode_op. rewrite not_rgb by lia. rewrite (tag_of _ 1) by lia.
  change (64 * 1 =? QOI_OP_INDEX) with false. change (64 * 1 =? QOI_OP_DIFF) with true. cbv iota zeta.
  by rewrite E1, E2, E3.
Qed.
Lemma decode_luma vg vr vb s rest :
  -32 ≤ vg ≤ 31 → -8 ≤ vr ≤ 7 → -8 ≤ vb ≤ 7 → input s = (vr + 8) * 16 + (vb + 8) :: rest →
  decode_op (128 + (vg + 32)) s = Done tt (set_px (op_px (px s) (index s) (Luma vg vr vb)) (set_input rest s)).
Proof.
  intros Hg Hr Hb Hin. unfold decode_op. rewrite not_rgb by lia. rewrite (tag_of _ 2) by lia.
  change (64 * 2 =? QOI_OP_INDEX) with false. change (64 * 2 =? QOI_OP_DIFF) with false.
  change (64 * 2 =? QOI_OP_LUMA) with true. cbv iota zeta.
  rewrite (bind_run _ _ _ _ _ (read_byte_run _ _ _ Hin)).
  assert (Z.land (128 + (vg + 32)) 63 - 32 = vg) as E1.
  { rewrite (land_mask _ 6 63) by done. change (2 ^ 6) with 64. Z.to_euclidean_division_equations. lia. }
  set (x := (vr + 8) * 16 + (vb + 8)) in *.
  assert (Z.land (Z.shiftr x 4) 15 = vr + 8 ∧ Z.land x 15 = vb + 8) as [E2 E3].
  { rewrite !(land_mask _ 4 15), Z.shiftr_div_pow2 by done. change (2 ^ 4) with 16. subst x.
    Z.to_euclidean_division_equations. lia. }
  rewrite E1, E2, E3. unfold modify. cbn [px set_px set_input input index run op_px].
  replace (vg - 8 + (vr + 8)) with (vg + vr) by lia. by replace (vg - 8 + (vb + 8)) with (vg + vb) by lia.
Qed.
Lemma decode_run n s : 1 ≤ n ≤ 62 → decode_op (192 + (n - 1)) s = Done tt (set_run (n - 1) s).
Proof.
  intros Hn. unfold decode_op. rewrite not_rgb by lia. rewrite (tag_of _ 3) by lia.
  change (64 * 3 =? QOI_OP_INDEX) with false. change (64 * 3 =? QOI_OP_DIFF) with false.
  change (64 * 3 =? QOI_OP_LUMA) with false. cbv iota zeta. unfold modify. do 2 f_equal.
  rewrite (land_mask _ 6 63) by done. change (2 ^ 6) with 64. Z.to_euclidean_division_equations. lia.
Qed.

Lemma read_byte_cons b rest p t r : read_byte (Qoi (b :: rest) p t r) = Done b (Qoi rest p t r).
Proof. done. Qed.
(** The decoder carries out an operation. *)
Definition after_op (s : qoi) (o : op) (rest : list Z) : qoi :=
  let p := op_px (px s) (index s) o in Qoi rest p (<[Z.to_nat (slot p) := p]> (index s)) (op_run o).
Lemma decode_pixel_run o s rest :
  op_ok (index s) o → run s = 0 → input s = op_bytes o ++ rest →
  decode_pixel s = Done tt (after_op s o rest).
Proof.
  unfold after_op. rewrite <-hash_slot.
  destruct s as [i p t r]. cbn [input px index run]. intros Hok -> ->.
  unfold decode_pixel, mbind at 1, K_bind at 1, get. change (0 <? run (Qoi (op_bytes o ++ rest) p t 0)) with false.
  cbv iota.
  destruct o as [n|dr dg db|vg vr vb|n|c|c]; cbn [op_bytes app op_ok] in *;
    rewrite (bind_run _ _ _ _ _ (read_byte_cons _ _ p t 0)).
  - destruct Hok as [Hn [c Hc]]. rewrite (bind_run _ _ _ _ _ (decode_index n (Qoi rest p t 0) c Hn Hc)).
    cbn [op_px index]. by rewrite Hc.
  - destruct Hok as (Hr & Hg & Hb). by rewrite (bind_run _ _ _ _ _ (decode_diff dr dg db _ Hr Hg Hb)).
  - destruct Hok as (Hg & Hr & Hb). by rewrite (bind_run _ _ _ _ _ (decode_luma vg vr vb (Qoi (_ :: rest) p t 0) rest Hg Hr Hb eq_refl)).
  - by rewrite (bind_run _ _ _ _ _ (decode_run n _ Hok)).
  - done.
  - by destruct c.
Qed.

(** The chosen operation leads to the pixel. *)
Lemma u8_schar_diff x y : byte x → byte y → u8 (y + schar (x - y)) = x.
Proof.
  unfold byte, schar, u8. intros Hx Hy.
  destruct (Z.ltb_spec ((x - y) mod 256) 128); Z.to_euclidean_division_equations; lia.
Qed.
Lemma choose_ok p table t c :
  pixel_ok p → pixel_ok c → (table !! Z.to_nat (slot c) = Some c → t !! Z.to_nat (slot c) = Some c) →
  op_ok t (choose p table c) ∧ op_px p t (choose p table c) = c ∧ op_run (choose p table c) = 0.
Proof.
  intros (Hp1 & Hp2 & Hp3 & Hp4) Hc Htc. pose proof (slot_range c). destruct Hc as (Hc1 & Hc2 & Hc3 & Hc4).
  unfold choose. cbv zeta. destruct (bool_decide_reflect (table !! Z.to_nat (slot c) = Some c)) as [E|_].
  { cbn [op_ok op_px op_run]. rewrite (Htc E). by repeat split; try lia. }
  destruct (Z.eqb_spec (alpha c) (alpha p)) as [Ea|]; cbn [negb]; [|done].
  pose proof (u8_schar_diff (red c) (red p) Hc1 Hp1) as Er.
  pose proof (u8_schar_diff (green c) (green p) Hc2 Hp2) as Eg.
  pose proof (u8_schar_diff (blue c) (blue p) Hc3 Hp3) as Eb.
  destruct (within (-2) (schar (red c - red p)) 1 && within (-2) (schar (green c - green p)) 1 &&
    within (-2) (schar (blue c - blue p)) 1) eqn:E1.
  { unfold within in E1. bool_to_prop. cbn [op_ok op_px op_run]. rewrite Er, Eg, Eb, <-Ea.
    split; [lia|]. by destruct c. }
  destruct (within (-32) (schar (green c - green p)) 31 &&
    within (-8) (schar (red c - red p) - schar (green c - green p)) 7 &&
    within (-8) (schar (blue c - blue p) - schar (green c - green p)) 7) eqn:E2.
  { unfold within in E2. bool_to_prop. cbn [op_ok op_px op_run].
    replace (schar (green c - green p) + (schar (red c - red p) - schar (green c - green p)))
      with (schar (red c - red p)) by lia.
    replace (schar (green c - green p) + (schar (blue c - blue p) - schar (green c - green p)))
      with (schar (blue c - blue p)) by lia.
    rewrite Er, Eg, Eb, <-Ea. split; [lia|]. by destruct c. }
  cbn [op_ok op_px op_run]. rewrite <-Ea. split_and!; [done| |done]. by destruct c.
Qed.
(** The tables of the encoder and of the decoder: the decoder enters runs too, but
    what the encoder finds is there. *)
Record agrees (p : rgba) (table t : list rgba) : Prop := Agrees {
  ag_length : length table = 64%nat ∧ length t = 64%nat;
  ag_found c : table !! Z.to_nat (slot c) = Some c → t !! Z.to_nat (slot c) = Some c;
  ag_last c : table !! Z.to_nat (slot c) = Some c → slot c = slot p → c = p;
}.
Lemma slot_in c : (Z.to_nat (slot c) < 64)%nat.
Proof. pose proof (slot_range c). lia. Qed.
Lemma slot_inj c c' : Z.to_nat (slot c) = Z.to_nat (slot c') → slot c = slot c'.
Proof. pose proof (slot_range c). pose proof (slot_range c'). lia. Qed.
Lemma agrees_run p table t : agrees p table t → agrees p table (<[Z.to_nat (slot p) := p]> t).
Proof.
  intros [[H1 H2] Hf Hl]. split; [by rewrite length_insert| |done]. intros c Hc.
  destruct (decide (Z.to_nat (slot c) = Z.to_nat (slot p))) as [E|E].
  - rewrite E, list_lookup_insert_eq by (rewrite H2; apply slot_in). f_equal. symmetry.
    apply Hl; [done|]. by apply slot_inj.
  - rewrite list_lookup_insert_ne by congruence. by apply Hf.
Qed.
Lemma agrees_pixel p table t c :
  agrees p table t → agrees c (<[Z.to_nat (slot c) := c]> table) (<[Z.to_nat (slot c) := c]> t).
Proof.
  intros [[H1 H2] Hf _]. split; [by rewrite !length_insert| |]; intros e.
  - destruct (decide (Z.to_nat (slot e) = Z.to_nat (slot c))) as [E|E].
    + rewrite E, !list_lookup_insert_eq by (rewrite ?H1, ?H2; apply slot_in). done.
    + rewrite !list_lookup_insert_ne by congruence. apply Hf.
  - intros He E. rewrite E, list_lookup_insert_eq in He by (rewrite H1; apply slot_in). congruence.
Qed.
Lemma agrees_first : agrees (Rgba 0 0 0 255) (replicate 64 (Rgba 0 0 0 0)) (replicate 64 (Rgba 0 0 0 0)).
Proof. split; [done|done|]. intros c [-> _]%lookup_replicate. by vm_compute. Qed.

(** Pending pixels come out as a run. *)
Lemma produces_flush k s rest cs :
  (0 < k ≤ RUN_MAX)%nat → run s = 0 → input s = flush k ++ rest →
  produces (Qoi rest (px s) (<[Z.to_nat (slot (px s)) := px s]> (index s)) 0) cs → produces s (replicate k (px s) ++ cs).
Proof.
  unfold RUN_MAX. intros Hk Hr Hin Hp. destruct k as [|k]; [lia|]. cbn [flush replicate app produces] in *.
  eexists. split; [eapply (decode_pixel_run (Run (Z.of_nat (S k)))); [cbn [op_ok]; lia|exact Hr|exact Hin]|].
  unfold after_op. cbn [op_px op_run px]. split; [done|].
  apply (produces_run k (Qoi rest (px s) (<[Z.to_nat (slot (px s)) := px s]> (index s)) (Z.of_nat (S k) - 1)));
    [cbn [run]; lia|exact Hp].
Qed.
Lemma replicate_shift {A} (x : A) k l : replicate k x ++ x :: l = replicate (S k) x ++ l.
Proof. induction k as [|k IH]; [done|]. cbn [replicate app] in *. by rewrite IH. Qed.
Lemma encode_produces cs : ∀ p table k s rest,
  pixel_ok p → Forall pixel_ok cs → (k < RUN_MAX)%nat →
  px s = p → agrees p table (index s) → run s = 0 → input s = encode p table k cs ++ rest →
  produces s (replicate k p ++ cs).
Proof.
  induction cs as [|c cs IH]; intros p table k s rest Hp Hcs Hk <- Hag Hr Hin; cbn [encode] in Hin.
  - destruct k as [|k]; [done|]. rewrite app_nil_r. rewrite <-(app_nil_r (replicate _ _)).
    apply (produces_flush _ _ rest); [lia|done|done|done].
  - apply Forall_cons in Hcs as [Hc Hcs]. destruct (bool_decide_reflect (c = px s)) as [->|Hne].
    + destruct (Nat.eqb_spec (S k) RUN_MAX) as [Ek|Ek].
      * rewrite <-app_assoc in Hin.
        rewrite replicate_shift, Ek. apply (produces_flush RUN_MAX s _ cs ltac:(unfold RUN_MAX; lia) Hr Hin).
        eapply (IH (px s) table 0%nat); [done|done|unfold RUN_MAX; lia|done|by apply agrees_run|done|reflexivity].
      * rewrite replicate_shift. apply (IH (px s) table (S k) s rest); try done. unfold RUN_MAX in *. lia.
    + rewrite <-!app_assoc in Hin.
      assert (∀ s1, px s1 = px s → agrees (px s) table (index s1) → run s1 = 0 →
        input s1 = op_bytes (choose (px s) table c) ++
          encode c (<[Z.to_nat (slot c) := c]> table) 0 cs ++ rest → produces s1 (c :: cs)) as Hone.
      { intros s1 E1 E2 E3 E4.
        destruct (choose_ok (px s) table (index s1) c Hp Hc (ag_found _ _ _ E2 c)) as (Hok & Hpx & Hrun).
        cbn [produces]. eexists. split; [eapply (decode_pixel_run _ s1); [exact Hok|done|exact E4]|].
        unfold after_op. rewrite E1, Hpx, Hrun. split; [done|].
        eapply (IH c _ 0%nat); [done|done|unfold RUN_MAX; lia|done|by eapply agrees_pixel|done|reflexivity]. }
      destruct k as [|k]; [by apply Hone|].
      apply (produces_flush (S k) s _ (c :: cs) ltac:(lia) Hr Hin). apply Hone; try done. by apply agrees_run.
Qed.

(** ** The picture on the screen *)

(** The word of a pixel: 0x00RRGGBB. *)
Definition shown_word (c : rgba) : Z := 65536 * red c + 256 * green c + blue c.
Lemma pixel_value_shown c : pixel_ok c → pixel_value c = shown_word c.
Proof.
  intros (Hr & Hg & Hb & _). unfold pixel_value, shown_word, byte in *.
  rewrite !Z.shiftl_mul_pow2 by done. rewrite <-Z.lor_assoc, (lor_add (green c) 8) by lia.
  change (2 ^ 16) with 65536. rewrite (lor_add (red c) 16) by (change (2 ^ 8) with 256; lia).
  change (2 ^ 16) with 65536. change (2 ^ 8) with 256. lia.
Qed.
(** The pixels [cs] are in a row from column [x], as far as it is visible; the
    other words are as they were. *)
Definition row_drawn (visible_width row x : Z) (cs : list rgba) (f f' : gmap Z Z) : Prop :=
  (∀ i c, cs !! i = Some c → x + Z.of_nat i < visible_width →
     f' !! (row + 4 * (x + Z.of_nat i)) = Some (shown_word c)) ∧
  (∀ o, (∀ i, (i < length cs)%nat → x + Z.of_nat i < visible_width → o ≠ row + 4 * (x + Z.of_nat i)) →
     f' !! o = f !! o).
Section screen.
Context (info : fb_info) (visible_width : Z).
Context (Hpitch : 4 * visible_width ≤ fb_pitch info).

Lemma show_row_run cs ds row x v :
  Forall pixel_ok cs → produces (decoder v) (cs ++ ds) → 0 ≤ x → 0 ≤ row → row + fb_pitch info ≤ fb_pitch info * fb_height info →
  ∃ v', show_row info visible_width row (length cs) x v = Done tt v' ∧ produces (decoder v') ds ∧
    row_drawn visible_width row x cs (fb v) (fb v').
Proof.
  intros Hok Hp Hx Hrow Hrow2. revert x v Hp Hx. induction Hok as [|c cs Hc _ IH]; intros x v Hp Hx; cbn [length show_row].
  - exists v. split_and!; [done|done|]. by split.
  - destruct Hp as (d & Hrun & Hpx & Hp).
    assert (in_decoder decode_pixel v = Done tt (Viewer d (fb v))) as Hd by by (unfold in_decoder, zoom; rewrite Hrun).
    rewrite (bind_run _ _ _ _ _ Hd). unfold mbind at 1, K_bind at 1, get. cbn [decoder]. rewrite Hpx.
    rewrite (pixel_value_shown c Hc).
    set (f1 := if x <? visible_width then <[row + 4 * x := shown_word c]> (fb v) else fb v).
    assert (when (x <? visible_width) (store_pixel info (row + 4 * x) (shown_word c)) (Viewer d (fb v)) =
      Done tt (Viewer d f1)) as Hw.
    { unfold f1. destruct (Z.ltb_spec x visible_width) as [Hlt|]; [|done]. unfold when, store_pixel.
      rewrite (proj2 (Z.leb_le 0 _)), (proj2 (Z.leb_le (row + 4 * x + 4) _)) by lia. done. }
    rewrite (bind_run _ _ _ _ _ Hw).
    destruct (IH (x + 1) (Viewer d f1) Hp ltac:(lia)) as (v' & Hrun' & Hp' & Hd1 & Hd2).
    exists v'. split_and!; [done|done|]. cbn [fb] in Hd1, Hd2. split.
    + intros [|i] e He Hi.
      * injection He as <-. rewrite Hd2.
        -- unfold f1. rewrite (proj2 (Z.ltb_lt x visible_width)) by lia. rewrite Z.add_0_r. apply lookup_insert_eq.
        -- intros i _ _. lia.
      * replace (x + Z.of_nat (S i)) with (x + 1 + Z.of_nat i) by lia. apply Hd1; [done|lia].
    + intros o Ho. rewrite Hd2.
      * unfold f1. destruct (Z.ltb_spec x visible_width) as [Hlt|]; [|done]. apply lookup_insert_ne.
        intros E. apply (Ho 0%nat); cbn [length]; lia.
      * intros i Hi Hv E. apply (Ho (S i)); cbn [length]; lia.
Qed.

(** The picture [rows] from row [y] on. *)
Definition rows_drawn (y : Z) (rows : list (list rgba)) (f f' : gmap Z Z) : Prop :=
  (∀ j cs i c, rows !! j = Some cs → cs !! i = Some c → Z.of_nat i < visible_width →
     f' !! (fb_pitch info * (y + Z.of_nat j) + 4 * Z.of_nat i) = Some (shown_word c)) ∧
  (∀ o, (∀ j cs i, rows !! j = Some cs → (i < length cs)%nat → Z.of_nat i < visible_width →
           o ≠ fb_pitch info * (y + Z.of_nat j) + 4 * Z.of_nat i) → f' !! o = f !! o).
Lemma show_rows_run width rows ds y v :
  Forall (λ cs, length cs = width ∧ Forall pixel_ok cs) rows →
  produces (decoder v) (mjoin rows ++ ds) → 0 ≤ y → y + Z.of_nat (length rows) ≤ fb_height info → 0 ≤ visible_width →
  ∃ v', show_rows info width visible_width (length rows) (fb_pitch info * y) v = Done tt v' ∧
    produces (decoder v') ds ∧ rows_drawn y rows (fb v) (fb v').
Proof.
  intros Hw. revert y v. induction Hw as [|cs rows [Hcs Hok] _ IH]; intros y v Hp Hy Hh Hvw; cbn [length show_rows].
  - exists v. split_and!; [done|done|]. by split.
  - change (mjoin (cs :: rows)) with (cs ++ mjoin rows) in Hp. rewrite <-app_assoc in Hp. cbn [length] in Hh.
    destruct (show_row_run cs _ (fb_pitch info * y) 0 v Hok Hp) as (v1 & Hrun & Hp1 & Hd1 & Hd2); [lia|nia|nia|].
    rewrite Hcs in Hrun. rewrite (bind_run _ _ _ _ _ Hrun).
    replace (fb_pitch info * y + fb_pitch info) with (fb_pitch info * (y + 1)) by lia.
    destruct (IH (y + 1) v1 Hp1) as (v' & Hrun' & Hp' & Hr1 & Hr2); [lia|lia|done|].
    exists v'. split_and!; [done|done|]. split.
    + intros [|j] cs' i c Hj Hi Hv.
      * injection Hj as <-. rewrite Z.add_0_r, Hr2; [by apply (Hd1 i c)|].
        intros j cs2 i2 Hj _ Hv2. nia.
      * replace (y + Z.of_nat (S j)) with (y + 1 + Z.of_nat j) by lia. by apply (Hr1 j cs').
    + intros o Ho. rewrite Hr2.
      * apply Hd2. intros i Hi Hv. replace (fb_pitch info * y + 4 * (0 + Z.of_nat i))
          with (fb_pitch info * (y + Z.of_nat 0) + 4 * Z.of_nat i) by lia.
        by apply (Ho 0%nat cs).
      * intros j cs' i Hj Hi Hv. replace (y + 1 + Z.of_nat j) with (y + Z.of_nat (S j)) by lia.
        by apply (Ho (S j) cs').
Qed.
End screen.

(** ** The header *)

Lemma land_byte x k : 0 ≤ k → Z.land x (Z.shiftl 255 k) = x / 2 ^ k mod 256 * 2 ^ k.
Proof.
  intros Hk. replace (Z.land x (Z.shiftl 255 k)) with (Z.shiftl (Z.land (Z.shiftr x k) 255) k).
  - by rewrite (land_mask _ 8 255), Z.shiftl_mul_pow2, Z.shiftr_div_pow2 by done.
  - apply Z.bits_inj'. intros n Hn. rewrite Z.shiftl_spec, !Z.land_spec, Z.shiftl_spec by done.
    destruct (decide (k ≤ n)).
    + rewrite Z.shiftr_spec by lia. by replace (n - k + k) with n by lia.
    + by rewrite (Z.testbit_neg_r 255 (n - k)), !andb_false_r by lia.
Qed.
Lemma lor_four a b c d : Z.lor (Z.lor a b) (Z.lor c d) = Z.lor d (Z.lor b (Z.lor c a)).
Proof.
  apply Z.bits_inj'. intros n _. rewrite !Z.lor_spec.
  by destruct (Z.testbit a n), (Z.testbit b n), (Z.testbit c n), (Z.testbit d n).
Qed.
Lemma swap_bytes_word b0 b1 b2 b3 :
  byte b0 → byte b1 → byte b2 → byte b3 →
  swap_bytes (b0 + 256 * b1 + 65536 * b2 + 16777216 * b3) = b0 * 16777216 + b1 * 65536 + b2 * 256 + b3.
Proof.
  unfold byte. intros H0 H1 H2 H3. unfold swap_bytes. set (y := b0 + 256 * b1 + 65536 * b2 + 16777216 * b3).
  change 0xff0000 with (Z.shiftl 255 16). change 0xff00 with (Z.shiftl 255 8).
  change 0xff000000 with (Z.shiftl 255 24).
  rewrite !land_byte, (land_mask _ 8 255), !Z.shiftr_div_pow2, !Z.shiftl_mul_pow2 by done.
  change (y / 2 ^ 24 mod 2 ^ 8) with (y / 2 ^ 24 mod 256).
  assert (y / 2 ^ 24 mod 256 = b3) as ->.
  { change (2 ^ 24) with 16777216. subst y. Z.to_euclidean_division_equations. lia. }
  assert (u32 (y * 2 ^ 8) / 2 ^ 16 mod 256 = b1) as ->.
  { unfold u32, U32. change (2 ^ 8) with 256. change (2 ^ 16) with 65536. subst y.
    Z.to_euclidean_division_equations. lia. }
  assert (y / 2 ^ 8 / 2 ^ 8 mod 256 = b2) as ->.
  { change (2 ^ 8) with 256. subst y. Z.to_euclidean_division_equations. lia. }
  assert (u32 (y * 2 ^ 24) / 2 ^ 24 mod 256 = b0) as ->.
  { unfold u32, U32. change (2 ^ 24) with 16777216. subst y. Z.to_euclidean_division_equations. lia. }
  rewrite lor_four, (lor_add b2 8 b3) by lia. rewrite (lor_add b1 16) by lia. rewrite (lor_add b0 24) by lia.
  change (2 ^ 8) with 256. change (2 ^ 16) with 65536. change (2 ^ 24) with 16777216. lia.
Qed.
Lemma be_word_bytes x : 0 ≤ x < U32 →
  swap_bytes (nth 0 (be_word x) 0 + 256 * nth 1 (be_word x) 0 + 65536 * nth 2 (be_word x) 0 +
    16777216 * nth 3 (be_word x) 0) = x.
Proof.
  unfold U32. intros Hx. unfold be_word. cbn [nth].
  rewrite swap_bytes_word by (unfold byte; Z.to_euclidean_division_equations; lia).
  Z.to_euclidean_division_equations. lia.
Qed.

(** ** The round trip *)

(** C35: what is encoded is shown. For a file that the reference encoder wrote for
    a picture, decoding ends, and the screen holds exactly the visible part of the
    picture, each pixel in its place, and everything else as before. *)
Theorem show_encoded info rows width channels colorspace rest v :
  Forall (λ cs, length cs = width ∧ Forall pixel_ok cs) rows →
  Z.of_nat width < U32 → Z.of_nat (length rows) < U32 →
  0 ≤ fb_width info → 0 ≤ fb_height info → 4 * fb_width info ≤ fb_pitch info →
  input (decoder v) = qoi_file (Z.of_nat width) (Z.of_nat (length rows)) channels colorspace (mjoin rows) ++ rest →
  ∃ v', show info v = Done 0 v' ∧
    rows_drawn info (Z.min (Z.of_nat width) (fb_width info)) 0 (take (Z.to_nat (fb_height info)) rows) (fb v) (fb v').
Proof.
  intros Hrows Hw Hh Hfw Hfh Hpitch Hin. unfold show, mbind at 1, K_bind at 1, get.
  set (body := encode first_px first_table 0 (mjoin rows) ++ rest).
  assert (input (decoder v) = (lit "qoif" ++ be_word (Z.of_nat width) ++ be_word (Z.of_nat (length rows)) ++
    [channels; colorspace]) ++ body) as Hin'.
  { rewrite Hin. unfold qoi_file, body. by rewrite <-!app_assoc. }
  assert (take sizeof_qoi_header (input (decoder v)) = lit "qoif" ++ be_word (Z.of_nat width) ++
    be_word (Z.of_nat (length rows)) ++ [channels; colorspace]) as Ht.
  { rewrite Hin'. by rewrite take_app_length'. }
  assert (drop sizeof_qoi_header (input (decoder v)) = body) as Hd.
  { rewrite Hin'. by rewrite drop_app_length'. }
  rewrite Ht, Hd. unfold mbind at 1, K_bind at 1, put.
  set (header := lit "qoif" ++ _). change (length header <? sizeof_qoi_header)%nat with false.
  change (take 4 header) with (lit "qoif"). rewrite bool_decide_eq_true_2 by done. cbn [orb negb]. cbv iota zeta.
  assert (swap_bytes (le_word header 4) = Z.of_nat width) as -> by (apply (be_word_bytes (Z.of_nat width)); lia).
  assert (swap_bytes (le_word header 8) = Z.of_nat (length rows)) as -> by (apply (be_word_bytes (Z.of_nat (length rows))); lia).
  set (shown := take (Z.to_nat (fb_height info)) rows).
  assert (Z.to_nat (Z.min (Z.of_nat (length rows)) (fb_height info)) = length shown) as ->.
  { unfold shown. rewrite length_take. lia. }
  unfold mbind at 1, K_bind at 1. set (v1 := Viewer (Qoi body first_px first_table 0) (fb v)).
  change (in_decoder _ _) with (@Done viewer unit tt v1). cbv iota beta.
  assert (Forall pixel_ok (mjoin rows)) as Hok.
  { clear -Hrows. induction Hrows as [|cs rows [_ Hcs] _ IH]; [constructor|].
    change (mjoin (cs :: rows)) with (cs ++ mjoin rows). by apply Forall_app. }
  assert (produces (decoder v1) (mjoin shown ++ mjoin (drop (Z.to_nat (fb_height info)) rows))) as Hp.
  { assert (mjoin shown ++ mjoin (drop (Z.to_nat (fb_height info)) rows) = mjoin rows) as ->
      by by rewrite <-join_app; unfold shown; rewrite take_drop.
    apply (encode_produces (mjoin rows) first_px first_table 0 (decoder v1) rest); try done; [unfold RUN_MAX; lia|].
    apply agrees_first. }
  rewrite Nat2Z.id.
  destruct (show_rows_run info (Z.min (Z.of_nat width) (fb_width info)) ltac:(lia) width shown (mjoin (drop (Z.to_nat (fb_height info)) rows)) 0 v1)
    as (v' & Hrun & _ & Hdrawn).
  - by apply Forall_take.
  - exact Hp.
  - lia.
  - unfold shown. rewrite length_take. lia.
  - lia.
  - rewrite Z.mul_0_r in Hrun. exists v'. split; [|exact Hdrawn]. by rewrite (bind_run _ _ _ _ _ Hrun).
Qed.

(** *** A picture of two rows on a screen of one *)
Definition sample_rows : list (list rgba) :=
  [[Rgba 0 0 0 255; Rgba 1 2 3 255; Rgba 1 2 3 255; Rgba 100 50 20 255];
   [Rgba 1 2 3 255; Rgba 1 2 3 128; Rgba 9 12 5 128; Rgba 9 12 5 128]].
Definition sample_info : fb_info := FbInfo 16 3 1.
Definition sample_viewer : viewer :=
  Viewer (Qoi (qoi_file 4 2 4 0 (mjoin sample_rows) ++ [0; 0; 0; 0; 0; 0; 0; 1]) (Rgba 0 0 0 0) [] 0) ∅.
Lemma show_encoded_witness :
  ∃ v', show sample_info sample_viewer = Done 0 v' ∧
    rows_drawn sample_info 3 0 (take 1 sample_rows) ∅ (fb v').
Proof.
  apply (show_encoded sample_info sample_rows 4 4 0 [0; 0; 0; 0; 0; 0; 0; 1] sample_viewer); try (by vm_compute).
  repeat (apply Forall_cons; split; [split; [done|repeat (apply Forall_cons; split; [by vm_compute|]); by apply Forall_nil]|]).
  by apply Forall_nil.
Defined.
Example sample_shown :
  match show sample_info sample_viewer with
  | Done _ v => fb v = {[0 := 0; 4 := 0x010203; 8 := 0x010203]}
  | _ => False
  end.
Proof. by vm_compute. Qed.
