(* ===== verification/Play.v ===== *)
(** * The sound player (userland/play.c)

    The decoder of QOA files: frames with a header, the state of a predictor for
    each of two channels, and slices of twenty samples as 64-bit words, the
    channels in turn. The theorem compares it with a reference that decodes each
    channel on its own: the array of samples is its output, interleaved. The loops
    that read the file and write to the device run on any answers of the calls;
    the progress bar and the messages are left out. *)
From S2P Require Import Prelude.

Definition NUM_CHANNELS : Z := 2.
Definition QOA_MIN_FILESIZE : Z := 16.
Definition QOA_LMS_LEN : nat := 4.
Definition QOA_SLICE_LEN : Z := 20.
Definition EXIT_FAILURE : Z := 1.
Definition EXIT_SUCCESS : Z := 0.
Definition s16 (x : Z) : Z := if u16 x <? 32768 then u16 x else u16 x - 65536.
Definition u64 (x : Z) : Z := x mod 2 ^ 64.

Record qoa_lms_t : Type := Lms { history : list Z; weights : list Z }.
Definition qoa_dequant_tab : list (list Z) :=
  [[1; -1; 3; -3; 5; -5; 7; -7]; [5; -5; 18; -18; 32; -32; 49; -49];
   [16; -16; 53; -53; 95; -95; 147; -147]; [34; -34; 113; -113; 203; -203; 315; -315];
   [63; -63; 210; -210; 378; -378; 588; -588]; [104; -104; 345; -345; 621; -621; 966; -966];
   [158; -158; 528; -528; 950; -950; 1477; -1477]; [228; -228; 760; -760; 1368; -1368; 2128; -2128];
   [316; -316; 1053; -1053; 1895; -1895; 2947; -2947]; [422; -422; 1405; -1405; 2529; -2529; 3934; -3934];
   [548; -548; 1828; -1828; 3290; -3290; 5117; -5117]; [696; -696; 2320; -2320; 4176; -4176; 6496; -6496];
   [868; -868; 2893; -2893; 5207; -5207; 8099; -8099]; [1064; -1064; 3548; -3548; 6386; -6386; 9933; -9933];
   [1286; -1286; 4288; -4288; 7718; -7718; 12005; -12005]; [1536; -1536; 5120; -5120; 9216; -9216; 14336; -14336]].
Definition qoa_lms_predict (lms : qoa_lms_t) : Z :=
  Z.shiftr (foldl (λ p '(w, h), s32 (p + s32 (w * h))) 0 (zip (weights lms) (history lms))) 13.
Definition qoa_lms_update (lms : qoa_lms_t) (sample residual : Z) : qoa_lms_t :=
  let delta := Z.shiftr residual 4 in
  Lms (drop 1 (history lms) ++ [sample])
    (zip_with (λ w h, s32 (w + if h <? 0 then - delta else delta)) (weights lms) (history lms)).
Definition clamp (v min max : Z) : Z := if v <? min then min else if max <? v then max else v.

(** ** Decoding *)
Record player : Type := Player { pos : nat; samples : list Z; lms : list qoa_lms_t }.
Definition set_pos (p : nat) (s : player) : player := Player p (samples s) (lms s).
Definition set_samples (l : list Z) (s : player) : player := Player (pos s) l (lms s).
Definition set_lms (l : list qoa_lms_t) (s : player) : player := Player (pos s) (samples s) l.

Section decode.
Context (bytes : list Z).

Definition word_at (p : nat) : option Z :=
  b0 ← bytes !! (p + 0)%nat; b1 ← bytes !! (p + 1)%nat; b2 ← bytes !! (p + 2)%nat; b3 ← bytes !! (p + 3)%nat;
  b4 ← bytes !! (p + 4)%nat; b5 ← bytes !! (p + 5)%nat; b6 ← bytes !! (p + 6)%nat; b7 ← bytes !! (p + 7)%nat;
  Some (Z.lor (Z.lor (Z.lor (Z.lor (Z.lor (Z.lor (Z.lor (Z.shiftl b0 56) (Z.shiftl b1 48)) (Z.shiftl b2 40))
    (Z.shiftl b3 32)) (Z.shiftl b4 24)) (Z.shiftl b5 16)) (Z.shiftl b6 8)) b7).
Definition read_u64 : K player Z :=
  s ← get; v ← access (word_at (pos s)); _ ← put (set_pos (pos s + 8) s); mret v.

Definition store_sample (i v : Z) : K player unit :=
  s ← get;
  if (0 <=? i) && (i <? Z.of_nat (length (samples s)))
  then put (set_samples (<[Z.to_nat i := v]> (samples s)) s) else undef.
(** The inner loop over the samples of a slice of channel [c]. *)
Fixpoint slice_loop (fuel : nat) (c : nat) (scale slice sample_idx si end_ : Z) : K player unit :=
  match fuel with
  | O => out_of_fuel
  | S fuel =>
      if si <? end_ then
        s ← get;
        l ← access (lms s !! c);
        let predicted := qoa_lms_predict l in
        let quantized := Z.land (Z.shiftr slice 57) 0x7 in
        row ← access (qoa_dequant_tab !! Z.to_nat scale);
        dequantized ← access (row !! Z.to_nat quantized);
        let reconstructed := clamp (predicted + dequantized) (-32768) 32767 in
        _ ← store_sample (sample_idx + si) reconstructed;
        _ ← modify (λ s, set_lms (<[c := qoa_lms_update l reconstructed dequantized]> (lms s)) s);
        slice_loop fuel c scale (u64 (Z.shiftl slice 3)) sample_idx (si + NUM_CHANNELS) end_
      else mret tt
  end.
Definition decode_slice (sample_idx i num_samples_in_frame : Z) (c : nat) : K player unit :=
  slice ← read_u64;
  let scale := Z.land (Z.shiftr slice 60) 0xf in
  let start := NUM_CHANNELS * i + Z.of_nat c in
  let end_ := NUM_CHANNELS * clamp (i + QOA_SLICE_LEN) 0 num_samples_in_frame + Z.of_nat c in
  slice_loop (S (Z.to_nat QOA_SLICE_LEN)) c scale slice sample_idx start end_.
Fixpoint decode_slices (fuel : nat) (sample_idx i num_samples_in_frame : Z) : K player unit :=
  match fuel with
  | O => out_of_fuel
  | S fuel =>
      if i <? num_samples_in_frame then
        _ ← decode_slice sample_idx i num_samples_in_frame 0;
        _ ← decode_slice sample_idx i num_samples_in_frame 1;
        decode_slices fuel sample_idx (i + QOA_SLICE_LEN) num_samples_in_frame
      else mret tt
  end.
(** Four 16-bit numbers from the top of a word. *)
Fixpoint halves (n : nat) (w : Z) : list Z :=
  match n with O => [] | S n => s16 (Z.shiftr w 48) :: halves n (u64 (Z.shiftl w 16)) end.
Definition read_lms : K player qoa_lms_t :=
  h ← read_u64; w ← read_u64; mret (Lms (halves QOA_LMS_LEN h) (halves QOA_LMS_LEN w)).
(** The outer loop; false: a frame does not fit the first one. *)
Fixpoint decode_frames (fuel : nat) (sample_rate sample_idx total_samples : Z) : K player bool :=
  match fuel with
  | O => out_of_fuel
  | S fuel =>
      if sample_idx <? total_samples then
        header ← read_u64;
        if negb (Z.land (Z.shiftr header 56) 0xff =? NUM_CHANNELS) ||
           negb (Z.land (Z.shiftr header 32) 0xffffff =? sample_rate) then mret false
        else
          l0 ← read_lms;
          l1 ← read_lms;
          _ ← modify (set_lms [l0; l1]);
          let num_samples_in_frame := Z.land (Z.shiftr header 16) 0xffff in
          _ ← decode_slices (S (Z.to_nat num_samples_in_frame)) sample_idx 0 num_samples_in_frame;
          decode_frames fuel sample_rate (u32 (sample_idx + num_samples_in_frame * NUM_CHANNELS)) total_samples
      else mret true
  end.

(** main between reading the file and opening the device: the samples and their
    rate, or nothing when the program ends with EXIT_FAILURE. [fresh] is what
    malloc returned: memory of the number of bytes asked for, as 16-bit cells. *)
Definition decode (fresh : Z → option (list Z)) : K player (option (list Z * Z)) :=
  if negb (bool_decide (take 4 bytes = lit "qoaf")) then mret None
  else
    _ ← modify (set_pos 0);
    w ← read_u64;
    let num_samples := Z.land w 0xffffffff in
    first_header ← read_u64;
    let num_channels := u8 (Z.shiftr first_header 56) in
    let sample_rate := Z.land (Z.shiftr first_header 32) 0xffffff in
    if (num_samples =? 0) || (num_channels =? 0) || (sample_rate =? 0) then mret None
    else if negb (num_channels =? NUM_CHANNELS) || (65535 <? sample_rate) then mret None
    else
      let total_samples := u32 (num_samples * num_channels) in
      let num_sample_bytes := u32 (total_samples * 2) in
      match fresh num_sample_bytes with
      | None => mret None
      | Some cells =>
          _ ← modify (λ s, set_pos 8 (set_samples cells s));
          ok ← decode_frames (S (length bytes)) sample_rate 0 total_samples;
          if negb (ok : bool) then mret None else s ← get; mret (Some (samples s, sample_rate))
      end.
End decode.

(** ** The loops around it *)
Section loops.
Context {S : Type} (read : Z → K S (Z * list Z)) (write : list Z → K S Z).

(** Reading the file into [buf]; [None] is the failure of read. *)
Fixpoint read_loop (fuel : nat) (num_bytes total_nread : Z) (buf : list Z) : K S (option (list Z)) :=
  match fuel with
  | O => out_of_fuel
  | Datatypes.S fuel =>
      if total_nread <? num_bytes then
        '(nread, data) ← read num_bytes;
        if nread <? 0 then mret None
        else read_loop fuel num_bytes (total_nread + nread) (splice 0 data buf)
      else mret (Some buf)
  end.
(** main from the size of the file to its contents. *)
Definition load_file (fuel : nat) (st_size : Z) (fresh : Z → option (list Z)) : K S (option (list Z)) :=
  let num_bytes := u32 st_size in
  if num_bytes <? QOA_MIN_FILESIZE then mret None
  else match fresh num_bytes with None => mret None | Some buf => read_loop fuel num_bytes 0 buf end.
(** Writing the bytes of the samples to the device. *)
Fixpoint write_loop (fuel : nat) (max_bytes_per_write : Z) (bytes : list Z) : K S Z :=
  match fuel with
  | O => out_of_fuel
  | Datatypes.S fuel =>
      if 0 <? Z.of_nat (length bytes) then
        let count := Z.min (Z.of_nat (length bytes)) max_bytes_per_write in
        nwritten ← write (take (Z.to_nat count) bytes);
        if nwritten <? 0 then mret EXIT_FAILURE
        else write_loop fuel max_bytes_per_write (drop (Z.to_nat nwritten) bytes)
      else mret EXIT_SUCCESS
  end.
Definition play_samples (fuel : nat) (sample_rate : Z) (bytes : list Z) : K S Z :=
  write_loop fuel (Z.max (sample_rate * 2) (Z.shiftl 1 16)) bytes.
End loops.

(** ** The reference *)
Definition code (w : Z) (k : nat) : Z := Z.land (Z.shiftr w (57 - 3 * Z.of_nat k)) 7.
Definition dequant (scale q : Z) : Z := nth (Z.to_nat q) (nth (Z.to_nat scale) qoa_dequant_tab []) 0.
(** [m] samples of one channel from code [k] of slice [w]. *)
Fixpoint recon (m k : nat) (w : Z) (l : qoa_lms_t) : list Z * qoa_lms_t :=
  match m with
  | O => ([], l)
  | S m =>
      let d := dequant (Z.land (Z.shiftr w 60) 0xf) (code w k) in
      let s := clamp (qoa_lms_predict l + d) (-32768) 32767 in
      let '(r, l') := recon m (S k) w (qoa_lms_update l s d) in (s :: r, l')
  end.
Fixpoint interleave (a b : list Z) : list Z :=
  match a, b with x :: a, y :: b => x :: y :: interleave a b | _, _ => [] end.
(** The slices of a frame, a pair for each twenty of [n] samples. *)
Fixpoint frame_samples (n : nat) (rows : list (Z * Z)) (l0 l1 : qoa_lms_t) : list Z :=
  match rows with
  | [] => []
  | (w0, w1) :: rows =>
      let m := Nat.min 20 n in
      let '(a, l0) := recon m 0 w0 l0 in
      let '(b, l1) := recon m 0 w1 l1 in
      interleave a b ++ frame_samples (n - m) rows l0 l1
  end.
Record frame : Type := Frame { f_samples : nat; f_lms : list Z; f_rows : list (Z * Z) }.
Definition lms_of (h w : Z) : qoa_lms_t := Lms (halves 4 h) (halves 4 w).
Definition frame_decoded (f : frame) : list Z :=
  match f_lms f with
  | [h0; w0; h1; w1] => frame_samples (f_samples f) (f_rows f) (lms_of h0 w0) (lms_of h1 w1)
  | _ => []
  end.
(** Its words, with the header that the decoder checks; [size] is the field that
    it does not read. *)
Definition frame_header (rate size : Z) (f : frame) : Z :=
  2 * 2 ^ 56 + rate * 2 ^ 32 + Z.of_nat (f_samples f) * 2 ^ 16 + size.
Definition frame_words (rate size : Z) (f : frame) : list Z :=
  frame_header rate size f :: f_lms f ++ concat ((λ '(a, b), [a; b]) <$> f_rows f).
Definition be_bytes (w : Z) : list Z :=
  (λ i, Z.land (Z.shiftr w (56 - 8 * i)) 255) <$> seqZ 0 8.
(** The first word: "qoaf" and the number of samples of a channel. *)
Definition file_header (n : nat) : Z := 0x716f6166 * 2 ^ 32 + Z.of_nat n.
Definition file_of (rate size : Z) (frames : list frame) : list Z :=
  concat (be_bytes <$> file_header (sum_list (f_samples <$> frames)) :: concat (frame_words rate size <$> frames)).

(** ** Words *)
Definition is_word (w : Z) : Prop := 0 ≤ w < 2 ^ 64.
Lemma testbit_255 n : 0 ≤ n → Z.testbit 255 n = (n <? 8).
Proof. intros Hn. change 255 with (Z.ones 8). rewrite Z.testbit_ones_nonneg by lia. done. Qed.
(** One more byte of a word. *)
Lemma byte_step w k :
  0 ≤ k → Z.lor (Z.shiftl (Z.shiftr w (k + 8)) (k + 8)) (Z.shiftl (Z.land (Z.shiftr w k) 255) k) = Z.shiftl (Z.shiftr w k) k.
Proof.
  intros Hk. apply Z.bits_inj'. intros n Hn. rewrite Z.lor_spec, !Z.shiftl_spec by done.
  destruct (Z.ltb_spec n k) as [Hlt|Hge].
  - rewrite (Z.testbit_neg_r _ (n - (k + 8))), !(Z.testbit_neg_r _ (n - k)) by lia. done.
  - rewrite Z.land_spec, (Z.shiftr_spec w k (n - k)), testbit_255 by lia. rewrite Z.sub_add.
    destruct (Z.ltb_spec (n - k) 8) as [Hlt8|Hge8].
    + rewrite (Z.testbit_neg_r _ (n - (k + 8))) by lia. by rewrite andb_true_r.
    + rewrite Z.shiftr_spec, Z.sub_add by lia. by rewrite andb_false_r, orb_false_r.
Qed.
Lemma word_of_be_bytes w pre post :
  is_word w → word_at (pre ++ be_bytes w ++ post) (length pre) = Some w.
Proof.
  intros [Hw0 Hw]. unfold word_at.
  assert (∀ i b, be_bytes w !! i = Some b → (pre ++ be_bytes w ++ post) !! (length pre + i)%nat = Some b) as Hl.
  { intros i b Hi. rewrite lookup_app_r, Nat.add_comm, Nat.add_sub by lia. by apply lookup_app_l_Some. }
  rewrite (Hl 0%nat (Z.land (Z.shiftr w 56) 255) eq_refl), (Hl 1%nat (Z.land (Z.shiftr w 48) 255) eq_refl), (Hl 2%nat (Z.land (Z.shiftr w 40) 255) eq_refl), (Hl 3%nat (Z.land (Z.shiftr w 32) 255) eq_refl),
    (Hl 4%nat (Z.land (Z.shiftr w 24) 255) eq_refl), (Hl 5%nat (Z.land (Z.shiftr w 16) 255) eq_refl), (Hl 6%nat (Z.land (Z.shiftr w 8) 255) eq_refl), (Hl 7%nat (Z.land (Z.shiftr w 0) 255) eq_refl).
  cbn [mbind option_bind]. f_equal.
  assert (Z.land (Z.shiftr w 56) 255 = Z.shiftr w 56) as ->.
  { change 255 with (Z.ones 8). rewrite Z.land_ones, Z.shiftr_div_pow2 by lia. apply Z.mod_small.
    split; [apply Z.div_pos; lia|]. apply Z.div_lt_upper_bound; lia. }
  rewrite (byte_step w 48 ltac:(lia) : Z.lor (Z.shiftl (Z.shiftr w 56) 56) _ = _).
  rewrite (byte_step w 40 ltac:(lia) : Z.lor (Z.shiftl (Z.shiftr w 48) 48) _ = _).
  rewrite (byte_step w 32 ltac:(lia) : Z.lor (Z.shiftl (Z.shiftr w 40) 40) _ = _).
  rewrite (byte_step w 24 ltac:(lia) : Z.lor (Z.shiftl (Z.shiftr w 32) 32) _ = _).
  rewrite (byte_step w 16 ltac:(lia) : Z.lor (Z.shiftl (Z.shiftr w 24) 24) _ = _).
  rewrite (byte_step w 8 ltac:(lia) : Z.lor (Z.shiftl (Z.shiftr w 16) 16) _ = _).
  rewrite <-(Z.shiftl_0_r (Z.land (Z.shiftr w 0) 255)).
  rewrite (byte_step w 0 ltac:(lia) : Z.lor (Z.shiftl (Z.shiftr w 8) 8) _ = _).
  by rewrite Z.shiftl_0_r, Z.shiftr_0_r.
Qed.
Lemma length_be_bytes w : length (be_bytes w) = 8%nat.
Proof. done. Qed.

(** The codes of a slice come to the top one after another. *)
Lemma top_code w k :
  (k < 20)%nat → Z.land (Z.shiftr (u64 (Z.shiftl w (3 * Z.of_nat k))) 57) 0x7 = code w k.
Proof.
  intros Hk. unfold code, u64. change 0x7 with (Z.ones 3). apply Z.bits_inj'. intros n Hn.
  rewrite !Z.land_spec, !Z.shiftr_spec by lia. rewrite Z.testbit_ones_nonneg by lia.
  destruct (Z.ltb_spec n 3) as [Hlt|]; [|by rewrite !andb_false_r].
  rewrite Z.mod_pow2_bits_low, Z.shiftl_spec by lia. f_equal. f_equal. lia.
Qed.
Lemma shift_code w k : u64 (Z.shiftl (u64 (Z.shiftl w (3 * Z.of_nat k))) 3) = u64 (Z.shiftl w (3 * Z.of_nat (S k))).
Proof.
  unfold u64. rewrite !Z.shiftl_mul_pow2 by lia. rewrite Z.mul_mod_idemp_l by lia. f_equal.
  rewrite <-Z.mul_assoc, <-Z.pow_add_r by lia. do 2 f_equal. lia.
Qed.
Lemma dequant_lookup scale q :
  0 ≤ scale < 16 → 0 ≤ q < 8 →
  ∃ row, qoa_dequant_tab !! Z.to_nat scale = Some row ∧ row !! Z.to_nat q = Some (dequant scale q).
Proof.
  intros Hs Hq. assert (Forall (λ row : list Z, length row = 8%nat) qoa_dequant_tab) as Hall by (repeat constructor).
  destruct (lookup_lt_is_Some_2 qoa_dequant_tab (Z.to_nat scale)) as [row Hr]; [cbn; lia|].
  exists row. split; [done|]. unfold dequant. rewrite (nth_lookup_Some _ _ _ _ Hr).
  pose proof (Forall_lookup_1 _ _ _ _ Hall Hr) as Hl. cbv beta in Hl.
  destruct (lookup_lt_is_Some_2 row (Z.to_nat q)) as [d Hd]; [lia|]. by rewrite (nth_lookup_Some _ _ _ _ Hd).
Qed.
Lemma land_range a n : 0 ≤ n → 0 ≤ Z.land a (Z.ones n) < 2 ^ n.
Proof. intros Hn. rewrite Z.land_ones by done. apply Z.mod_pos_bound. lia. Qed.
Lemma length_recon m k w l : length (recon m k w l).1 = m.
Proof.
  revert k l. induction m as [|m IH]; intros k l; [done|]. cbn [recon]. destruct (recon m (S k) w _) as [r l'] eqn:E.
  cbn. f_equal. rewrite <-(IH (S k) (qoa_lms_update l (clamp (qoa_lms_predict l + dequant (Z.land (Z.shiftr w 60) 0xf) (code w k)) (-32768) 32767)
    (dequant (Z.land (Z.shiftr w 60) 0xf) (code w k)))). by rewrite E.
Qed.

(** ** Samples in turn *)
(** Every second cell from [p] on has the samples [r]. *)
Definition strided (p : nat) (r old new : list Z) : Prop :=
  length new = length old ∧ (∀ j v, r !! j = Some v → new !! (p + 2 * j)%nat = Some v) ∧
  ∀ i, (∀ j, (j < length r)%nat → i ≠ (p + 2 * j)%nat) → new !! i = old !! i.
Lemma strided_nil p l : strided p [] l l.
Proof. split_and!; [done|by intros j v Hj; rewrite lookup_nil in Hj|done]. Qed.
Lemma strided_cons p v r old new :
  (p < length old)%nat → strided (p + 2) r (<[p := v]> old) new → strided p (v :: r) old new.
Proof.
  intros Hp (HL & Hin & Hout). rewrite length_insert in HL. split_and!; [done| |].
  - intros [|j] u Hj; cbn in Hj.
    + injection Hj as ->. rewrite Nat.mul_0_r, Nat.add_0_r, Hout by lia. by apply list_lookup_insert_eq.
    + rewrite <-(Hin j u Hj). f_equal. lia.
  - intros i Hi. rewrite Hout.
    + apply list_lookup_insert_ne. specialize (Hi 0%nat). cbn in Hi. lia.
    + intros j Hj. specialize (Hi (S j)). cbn in Hi. lia.
Qed.
Lemma interleave_lookup a b i :
  length a = length b → interleave a b !! (2 * i)%nat = a !! i ∧ interleave a b !! (2 * i + 1)%nat = b !! i.
Proof.
  revert b i. induction a as [|x a IH]; intros [|y b] i Hl; [by rewrite !lookup_nil|done|done|].
  injection Hl as Hl. destruct i as [|i]; [done|]. destruct (IH b i Hl) as [H1 H2].
  replace (2 * S i)%nat with (S (S (2 * i))) by lia. split; [exact H1|exact H2].
Qed.
Lemma length_interleave a b : length a = length b → length (interleave a b) = (2 * length a)%nat.
Proof. revert b. induction a as [|x a IH]; intros [|y b] Hl; try done. injection Hl as Hl. cbn. rewrite IH by done. lia. Qed.
Lemma strided_interleave p a b s0 s1 s2 :
  length a = length b → (p + 2 * length a ≤ length s0)%nat →
  strided p a s0 s1 → strided (p + 1) b s1 s2 → s2 = splice p (interleave a b) s0.
Proof.
  intros Hab Hp (L1 & I1 & O1) (L2 & I2 & O2). pose proof (length_interleave a b Hab) as Hli.
  apply list_eq. intros i.
  destruct (decide (p ≤ i < p + 2 * length a)%nat) as [Hin|Hout].
  - rewrite splice_lookup_in by lia. set (j := ((i - p) / 2)%nat).
    pose proof (Nat.div_mod_eq (i - p) 2) as Hdm. pose proof (Nat.mod_upper_bound (i - p) 2 ltac:(lia)) as Hm.
    fold j in Hdm. destruct (interleave_lookup a b j Hab) as [Ha Hb].
    destruct ((i - p) mod 2)%nat as [|[|?]]; [| |lia].
    + replace (i - p)%nat with (2 * j)%nat by lia. rewrite Ha.
      destruct (lookup_lt_is_Some_2 a j) as [v Hv]; [lia|]. rewrite Hv, <-(I1 j v Hv).
      rewrite O2 by lia. f_equal. lia.
    + replace (i - p)%nat with (2 * j + 1)%nat by lia. rewrite Hb.
      destruct (lookup_lt_is_Some_2 b j) as [v Hv]; [lia|]. rewrite Hv, <-(I2 j v Hv). f_equal. lia.
  - rewrite splice_lookup_out by lia. rewrite O2, O1 by lia. done.
Qed.

Lemma clamp_range v a b : a ≤ b → a ≤ clamp v a b ≤ b.
Proof. intros H. unfold clamp. repeat case_match; bool_to_prop; lia. Qed.

Section run.
Context (bytes : list Z).

Lemma wp_store_sample i v s (Q : unit → player → Prop) :
  0 ≤ i < Z.of_nat (length (samples s)) → Q tt (set_samples (<[Z.to_nat i := v]> (samples s)) s) →
  wp (store_sample i v) Q s.
Proof.
  intros [H1 H2] HQ. unfold store_sample. wp_keep.
  by rewrite (proj2 (Z.leb_le _ _) H1), (proj2 (Z.ltb_lt _ _) H2).
Qed.
Lemma wp_slice_loop fuel c w m k base si l s (Q : unit → player → Prop) :
  (m < fuel)%nat → (k + m ≤ 20)%nat → lms s !! c = Some l →
  0 ≤ base + si → base + si + 2 * Z.of_nat m - 1 ≤ Z.of_nat (length (samples s)) →
  (∀ s', pos s' = pos s → lms s' = <[c := (recon m k w l).2]> (lms s) →
     strided (Z.to_nat (base + si)) (recon m k w l).1 (samples s) (samples s') → Q tt s') →
  wp (slice_loop fuel c (Z.land (Z.shiftr w 60) 0xf) (u64 (Z.shiftl w (3 * Z.of_nat k))) base si (si + 2 * Z.of_nat m)) Q s.
Proof.
  revert m k si l s. induction fuel as [|fuel IH]; intros m k si l s Hf Hk Hl Hb Hlen HQ; [lia|].
  cbn [slice_loop]. destruct m as [|m].
  - rewrite (proj2 (Z.ltb_ge _ _)) by lia. wp_keep. apply HQ; [done| |apply strided_nil].
    cbn [recon snd]. symmetry. by apply list_insert_id.
  - rewrite (proj2 (Z.ltb_lt _ _)) by lia. wp_keep. eapply wp_access; [exact Hl|]. rewrite top_code by lia.
    pose proof (land_range (Z.shiftr w 60) 4 ltac:(lia)) as Hscale. change (Z.ones 4) with 0xf in Hscale.
    pose proof (land_range (Z.shiftr w (57 - 3 * Z.of_nat k)) 3 ltac:(lia)) as Hq. change (Z.ones 3) with 7 in Hq.
    destruct (dequant_lookup (Z.land (Z.shiftr w 60) 0xf) (code w k)) as (row & Hrow & Hd); [exact Hscale|exact Hq|].
    wp_keep. eapply wp_access; [exact Hrow|]. wp_keep. eapply wp_access; [exact Hd|].
    cbn [recon] in HQ. set (d := dequant _ _) in *. set (v := clamp _ _ _) in *.
    destruct (recon m (S k) w (qoa_lms_update l v d)) as [r l'] eqn:E. wp_keep.
    apply wp_store_sample; [lia|]. wp_keep. rewrite shift_code.
    replace (si + 2 * Z.of_nat (S m)) with (si + NUM_CHANNELS + 2 * Z.of_nat m) by (unfold NUM_CHANNELS; lia).
    pose proof (lookup_lt_Some _ _ _ Hl) as Hc.
    apply (IH m (S k) _ (qoa_lms_update l v d)); unfold NUM_CHANNELS; cbn [samples lms set_lms set_samples pos].
    + lia.
    + lia.
    + by apply list_lookup_insert_eq.
    + lia.
    + rewrite length_insert. lia.
    + intros s' Hp Hlms Hst. rewrite E in Hlms, Hst. cbn [fst snd] in *. apply HQ; [done| |].
      * by rewrite Hlms, list_insert_insert_eq.
      * apply strided_cons; [lia|]. by replace (Z.to_nat (base + si) + 2)%nat with (Z.to_nat (base + (si + 2))) by lia.
Qed.

(** The next words of the file. *)
Definition at_words (ws : list Z) (s : player) : Prop :=
  ∃ pre post, bytes = pre ++ concat (be_bytes <$> ws) ++ post ∧ pos s = length pre.
Lemma wp_read_u64 w ws s (Q : Z → player → Prop) :
  at_words (w :: ws) s → is_word w → (at_words ws (set_pos (pos s + 8) s) → Q w (set_pos (pos s + 8) s)) →
  wp (read_u64 bytes) Q s.
Proof.
  intros (pre & post & Hb & Hp) Hw HQ. unfold read_u64. wp_keep.
  assert (word_at bytes (pos s) = Some w) as Hword.
  { rewrite Hb, Hp. cbn [fmap list_fmap concat]. rewrite <-app_assoc. by apply word_of_be_bytes. }
  eapply wp_access; [exact Hword|]. wp_keep. apply HQ. exists (pre ++ be_bytes w), post. split.
  - rewrite Hb. cbn [fmap list_fmap concat]. by rewrite <-!app_assoc.
  - cbn [pos set_pos]. by rewrite length_app, length_be_bytes, Hp.
Qed.
Lemma at_words_pos ws s s' : pos s' = pos s → at_words ws s → at_words ws s'.
Proof. intros E (pre & post & Hb & Hp). exists pre, post. by rewrite E. Qed.

Lemma wp_decode_slice c w ws base i r l s (Q : unit → player → Prop) :
  at_words (w :: ws) s → is_word w → lms s !! c = Some l → (c < 2)%nat → 0 ≤ i →
  0 ≤ base → base + 2 * (i + Z.of_nat r) ≤ Z.of_nat (length (samples s)) →
  (∀ s', at_words ws s' → lms s' = <[c := (recon (Nat.min 20 r) 0 w l).2]> (lms s) →
     strided (Z.to_nat (base + 2 * i + Z.of_nat c)) (recon (Nat.min 20 r) 0 w l).1 (samples s) (samples s') → Q tt s') →
  wp (decode_slice bytes base i (i + Z.of_nat r) c) Q s.
Proof.
  intros Hat Hw Hl Hc Hi Hbase Hlen HQ. unfold decode_slice. apply wp_bind, (wp_read_u64 w ws); [done|done|].
  intros Hat'. cbv beta zeta.
  assert (clamp (i + QOA_SLICE_LEN) 0 (i + Z.of_nat r) = i + Z.of_nat (Nat.min 20 r)) as ->.
  { unfold clamp, QOA_SLICE_LEN. repeat case_match; bool_to_prop; lia. }
  replace (NUM_CHANNELS * (i + Z.of_nat (Nat.min 20 r)) + Z.of_nat c)
    with (NUM_CHANNELS * i + Z.of_nat c + 2 * Z.of_nat (Nat.min 20 r)) by (unfold NUM_CHANNELS; lia).
  replace w with (u64 (Z.shiftl w (3 * Z.of_nat 0))) at 2
    by (change (3 * Z.of_nat 0) with 0; rewrite Z.shiftl_0_r; by apply Z.mod_small).
  apply (wp_slice_loop _ c w (Nat.min 20 r) 0 base _ l); unfold NUM_CHANNELS in *; cbn [samples set_pos lms pos].
  - change (Z.to_nat QOA_SLICE_LEN) with 20%nat. lia.
  - lia.
  - done.
  - lia.
  - lia.
  - intros s' Hp Hlms Hst. apply HQ; [by apply (at_words_pos _ (set_pos (pos s + 8) s))|done|].
    by replace (Z.to_nat (base + 2 * i + Z.of_nat c)) with (Z.to_nat (base + (2 * i + Z.of_nat c))) by lia.
Qed.

(** One pair of words for each twenty samples. *)
Fixpoint rows_fit (n : nat) (rows : list (Z * Z)) : Prop :=
  match rows with [] => n = 0%nat | (a, b) :: rows => (0 < n)%nat ∧ is_word a ∧ is_word b ∧ rows_fit (n - Nat.min 20 n) rows end.
Definition row_words (rows : list (Z * Z)) : list Z := concat ((λ '(a, b), [a; b]) <$> rows).
Lemma length_frame_samples n rows l0 l1 : rows_fit n rows → length (frame_samples n rows l0 l1) = (2 * n)%nat.
Proof.
  revert n l0 l1. induction rows as [|[a b] rows IH]; intros n l0 l1 Hf; cbn [rows_fit frame_samples] in *; [by subst|].
  destruct Hf as (Hn & _ & _ & Hf). pose proof (length_recon (Nat.min 20 n) 0 a l0) as Ha.
  pose proof (length_recon (Nat.min 20 n) 0 b l1) as Hb.
  destruct (recon _ 0 a l0) as [x l0'], (recon _ 0 b l1) as [y l1']. cbn [fst] in *.
  rewrite length_app, length_interleave, IH by (done || congruence). lia.
Qed.
Lemma wp_decode_slices fuel base i r rows l0 l1 ws s (Q : unit → player → Prop) :
  at_words (row_words rows ++ ws) s → rows_fit r rows → lms s = [l0; l1] → (length rows < fuel)%nat → 0 ≤ i →
  0 ≤ base → base + 2 * (i + Z.of_nat r) ≤ Z.of_nat (length (samples s)) →
  (∀ s', at_words ws s' →
     samples s' = splice (Z.to_nat (base + 2 * i)) (frame_samples r rows l0 l1) (samples s) → Q tt s') →
  wp (decode_slices bytes fuel base i (i + Z.of_nat r)) Q s.
Proof.
  revert i r rows l0 l1 s. induction fuel as [|fuel IH]; intros i r rows l0 l1 s Hat Hfit Hlms Hf Hi Hbase Hlen HQ; [lia|].
  cbn [decode_slices]. destruct rows as [|[a b] rows]; cbn [rows_fit] in Hfit.
  { subst r. rewrite (proj2 (Z.ltb_ge _ _)) by lia. wp_keep. apply HQ; [done|]. cbn [frame_samples]. by rewrite splice_nil. }
  destruct Hfit as (Hr & Ha & Hb & Hfit). rewrite (proj2 (Z.ltb_lt _ _)) by lia. wp_keep.
  apply (wp_decode_slice 0 a (b :: row_words rows ++ ws) _ _ _ l0); [exact Hat|done|by rewrite Hlms|lia|done|done|done|].
  intros s1 Hat1 Hl1 Hst1. rewrite Hlms in Hl1. wp_keep. pose proof Hst1 as (HL1 & _).
  apply (wp_decode_slice 1 b (row_words rows ++ ws) _ _ _ l1); [exact Hat1|done|by rewrite Hl1|lia|done|done|by rewrite HL1|].
  intros s2 Hat2 Hl2 Hst2. rewrite Hl1 in Hl2. pose proof Hst2 as (HL2 & _).
  pose proof (length_recon (Nat.min 20 r) 0 a l0) as Hla. pose proof (length_recon (Nat.min 20 r) 0 b l1) as Hlb.
  cbn [frame_samples] in HQ.
  destruct (recon _ 0 a l0) as [x l0'] eqn:Ex, (recon _ 0 b l1) as [y l1'] eqn:Ey. cbn [fst snd insert list_insert] in *.
  assert (samples s2 = splice (Z.to_nat (base + 2 * i)) (interleave x y) (samples s)) as Hs2.
  { apply (strided_interleave _ x y _ (samples s1)); [congruence|lia| |].
    - by rewrite Z.add_0_r in Hst1.
    - by replace (Z.to_nat (base + 2 * i) + 1)%nat with (Z.to_nat (base + 2 * i + Z.of_nat 1)) by lia. }
  destruct (decide (r ≤ 20)%nat) as [Hle|Hgt].
  - replace (r - Nat.min 20 r)%nat with 0%nat in * by lia. destruct rows as [|[? ?] rows]; [|cbn [rows_fit] in Hfit; lia].
    destruct fuel as [|fuel]; [cbn in Hf; lia|]. cbn [decode_slices].
    rewrite (proj2 (Z.ltb_ge _ _)) by (unfold QOA_SLICE_LEN; lia). wp_keep. apply HQ; [done|].
    cbn [frame_samples]. by rewrite app_nil_r.
  - replace (Nat.min 20 r) with 20%nat in * by lia.
    replace (i + Z.of_nat r) with (i + QOA_SLICE_LEN + Z.of_nat (r - 20)) by (unfold QOA_SLICE_LEN; lia).
    assert (length (interleave x y) = 40%nat) as Hli by (rewrite length_interleave by congruence; lia).
    apply (IH (i + QOA_SLICE_LEN) (r - 20)%nat rows l0' l1'); unfold QOA_SLICE_LEN;
      [exact Hat2|exact Hfit|exact Hl2|cbn in Hf; lia|lia|done|rewrite HL2, HL1; lia|].
    intros s' Hat' Hs'. apply HQ; [done|]. rewrite Hs', Hs2.
    pose proof (length_frame_samples (r - 20) rows l0' l1' Hfit) as Hfs.
    replace (Z.to_nat (base + 2 * (i + 20))) with (Z.to_nat (base + 2 * i) + length (interleave x y))%nat by lia.
    apply splice_splice. lia.
Qed.

Record frame_ok (f : frame) : Prop := {
  fr_some : (0 < f_samples f)%nat;
  fr_few : Z.of_nat (f_samples f) < 65536;
  fr_lms : length (f_lms f) = 4%nat ∧ Forall is_word (f_lms f);
  fr_rows : rows_fit (f_samples f) (f_rows f);
}.
Lemma field_of w a n k m : 0 ≤ k → 0 ≤ m → w = (a * 2 ^ m + n) * 2 ^ k + (w mod 2 ^ k) → 0 ≤ n < 2 ^ m →
  Z.land (Z.shiftr w k) (Z.ones m) = n.
Proof.
  intros Hk Hm E Hn. rewrite Z.land_ones, Z.shiftr_div_pow2 by done.
  assert (w / 2 ^ k = a * 2 ^ m + n) as ->.
  { symmetry. apply (Z.div_unique _ _ _ (w mod 2 ^ k)); [left; apply Z.mod_pos_bound; lia|]. rewrite E at 1. ring. }
  rewrite Z.add_comm, Z.mod_add by lia. by apply Z.mod_small.
Qed.
Lemma header_fields rate size f :
  frame_ok f → 0 ≤ rate < 2 ^ 16 → 0 ≤ size < 2 ^ 16 →
  is_word (frame_header rate size f) ∧
  Z.land (Z.shiftr (frame_header rate size f) 56) 0xff = NUM_CHANNELS ∧
  Z.land (Z.shiftr (frame_header rate size f) 32) 0xffffff = rate ∧
  Z.land (Z.shiftr (frame_header rate size f) 16) 0xffff = Z.of_nat (f_samples f).
Proof.
  intros Hf Hrate Hsize. pose proof (fr_few _ Hf) as Hn. unfold frame_header, is_word.
  set (n := Z.of_nat (f_samples f)) in *. assert (0 ≤ n) as Hn0 by lia.
  change (2 ^ 16) with 65536 in *. change (2 ^ 56) with 72057594037927936. change (2 ^ 32) with 4294967296.
  change (2 ^ 64) with 18446744073709551616. split; [lia|]. split_and!.
  - change 0xff with (Z.ones 8). apply (field_of _ 0 2); [lia|lia| |lia]. change (2 ^ 56) with 72057594037927936.
    rewrite <-(Z.mod_unique _ 72057594037927936 2 (rate * 4294967296 + n * 65536 + size)); [|left; lia|ring].
    change (2 ^ 8) with 256. ring.
  - change 0xffffff with (Z.ones 24). apply (field_of _ 2 rate); [lia|lia| |change (2 ^ 24) with 16777216; lia].
    change (2 ^ 32) with 4294967296. change (2 ^ 24) with 16777216.
    rewrite <-(Z.mod_unique _ 4294967296 (2 * 16777216 + rate) (n * 65536 + size)); [|left; lia|ring]. ring.
  - change 0xffff with (Z.ones 16). apply (field_of _ (2 * 16777216 + rate) n); [lia|lia| |change (2 ^ 16) with 65536; lia].
    change (2 ^ 16) with 65536.
    rewrite <-(Z.mod_unique _ 65536 ((2 * 16777216 + rate) * 65536 + n) size); [|left; lia|ring]. ring.
Qed.

Lemma wp_read_lms h w ws s (Q : qoa_lms_t → player → Prop) :
  at_words (h :: w :: ws) s → is_word h → is_word w →
  (∀ s', at_words ws s' → samples s' = samples s → Q (lms_of h w) s') → wp (read_lms bytes) Q s.
Proof.
  intros Hat Hh Hw HQ. unfold read_lms. apply wp_bind, (wp_read_u64 h (w :: ws)); [done|done|]. intros Hat1.
  apply wp_bind, (wp_read_u64 w ws); [done|done|]. intros Hat2. wp_keep. by apply HQ.
Qed.
Definition decoded (frames : list frame) : list Z := concat (frame_decoded <$> frames).
Lemma length_frame_decoded f : frame_ok f → length (frame_decoded f) = (2 * f_samples f)%nat.
Proof.
  intros [_ _ [Hl _] Hr]. unfold frame_decoded. destruct (f_lms f) as [|h0 [|w0 [|h1 [|w1 [|]]]]]; try done.
  by apply length_frame_samples.
Qed.
Lemma length_decoded frames : Forall frame_ok frames → length (decoded frames) = (2 * sum_list (f_samples <$> frames))%nat.
Proof.
  induction 1 as [|f frames Hf _ IH]; [done|]. unfold decoded in *. cbn [fmap list_fmap concat sum_list].
  rewrite length_app, IH, length_frame_decoded by done. cbn. lia.
Qed.
Lemma rows_fit_length n rows : rows_fit n rows → (length rows ≤ n)%nat.
Proof.
  revert n. induction rows as [|[a b] rows IH]; intros n Hf; cbn [rows_fit] in Hf; [cbn; lia|].
  destruct Hf as (Hn & _ & _ & Hf). apply IH in Hf. cbn. lia.
Qed.

Lemma wp_decode_frames fuel rate size idx total frames s (Q : bool → player → Prop) :
  0 ≤ rate < 2 ^ 16 → 0 ≤ size < 2 ^ 16 → Forall frame_ok frames → (length frames < fuel)%nat →
  at_words (concat (frame_words rate size <$> frames)) s →
  0 ≤ idx → idx + Z.of_nat (length (decoded frames)) = total → total < U32 → total = Z.of_nat (length (samples s)) →
  (∀ s', samples s' = splice (Z.to_nat idx) (decoded frames) (samples s) → Q true s') →
  wp (decode_frames bytes fuel rate idx total) Q s.
Proof.
  intros Hrate Hsize Hall. revert idx frames s Hall.
  induction fuel as [|fuel IH]; intros idx frames s Hall Hf Hat Hidx Htot Hsmall Hlen HQ; [lia|]. cbn [decode_frames].
  destruct frames as [|f frames].
  { cbn in Htot. rewrite (proj2 (Z.ltb_ge _ _)) by lia. wp_keep. apply HQ. change (decoded []) with (@nil Z). by rewrite splice_nil. }
  inversion_clear Hall as [|? ? Hok Hrest]. pose proof Hok as [Hpos Hfew [Hl4 Hlw] Hrows].
  pose proof (length_frame_decoded f Hok) as Hfd.
  unfold decoded in Htot, HQ. cbn [fmap list_fmap concat] in Htot, HQ, Hat. fold (decoded frames) in Htot, HQ.
  rewrite length_app in Htot. rewrite (proj2 (Z.ltb_lt _ _)) by lia.
  destruct (header_fields rate size f Hok Hrate Hsize) as (Hw & H56 & H32 & H16).
  unfold frame_words at 1 in Hat. cbn [app] in Hat.
  apply wp_bind, (wp_read_u64 _ _ _ _ Hat Hw). intros Hat1. rewrite H56, H32, H16, !Z.eqb_refl. cbn [negb orb].
  unfold frame_decoded in *. destruct (f_lms f) as [|h0 [|w0 [|h1 [|w1 [|]]]]]; try done.
  inversion_clear Hlw as [|? ? Hh0 Hlw']. inversion_clear Hlw' as [|? ? Hw0 Hlw].
  inversion_clear Hlw as [|? ? Hh1 Hlw']. inversion_clear Hlw' as [|? ? Hw1 _]. cbn [app] in Hat1.
  apply wp_bind, (wp_read_lms h0 w0 _ _ _ Hat1 Hh0 Hw0). intros s1 Hat2 Hs1.
  apply wp_bind, (wp_read_lms h1 w1 _ _ _ Hat2 Hh1 Hw1). intros s2 Hat3 Hs2. wp_keep.
  rewrite Nat2Z.id. rewrite <-app_assoc in Hat3 || idtac.
  pose proof (rows_fit_length _ _ Hrows) as Hrl.
  pose proof (wp_decode_slices (S (f_samples f)) idx 0 (f_samples f) (f_rows f) (lms_of h0 w0) (lms_of h1 w1)
    (concat (frame_words rate size <$> frames))) as Hds. rewrite Z.add_0_l in Hds.
  apply Hds; clear Hds; cbn [samples lms set_lms]; [|exact Hrows|done|lia|lia|done|rewrite Hs2, Hs1; cbn [samples set_pos]; lia|].
  { by eapply at_words_pos; [|exact Hat3]. }
  intros s3 Hat4 Hs3. rewrite Hs2, Hs1 in Hs3. cbn [samples set_pos] in Hs3. rewrite Z.mul_0_r, Z.add_0_r in Hs3.
  assert (length (samples s3) = length (samples s)) as HL3.
  { rewrite Hs3. apply length_splice. lia. }
  rewrite u32_small by (unfold NUM_CHANNELS, U32 in *; lia).
  apply (IH _ frames); [done|cbn in Hf; lia|done|unfold NUM_CHANNELS; lia|unfold NUM_CHANNELS; lia|done|by rewrite HL3|].
  intros s4 Hs4. apply HQ. rewrite Hs4, Hs3.
  replace (Z.to_nat (idx + Z.of_nat (f_samples f) * NUM_CHANNELS))
    with (Z.to_nat idx + length (frame_samples (f_samples f) (f_rows f) (lms_of h0 w0) (lms_of h1 w1)))%nat
    by (unfold NUM_CHANNELS; lia).
  apply splice_splice. lia.
Qed.
End run.

(** ** Theorems *)
Lemma file_header_fields n :
  Z.of_nat n < 2 ^ 32 → is_word (file_header n) ∧ Z.land (file_header n) 0xffffffff = Z.of_nat n ∧
  take 4 (be_bytes (file_header n)) = lit "qoaf".
Proof.
  intros Hn. assert (Z.shiftr (file_header n) 32 = 0x716f6166) as Hs.
  { unfold file_header. rewrite Z.shiftr_div_pow2 by done. symmetry. apply (Z.div_unique _ _ _ (Z.of_nat n)); [lia|ring]. }
  split_and!.
  - unfold is_word, file_header. change (2 ^ 32) with 4294967296 in *. change (2 ^ 64) with 18446744073709551616. lia.
  - change 0xffffffff with (Z.ones 32). rewrite Z.land_ones by done. unfold file_header.
    rewrite Z.add_comm, Z.mod_add by done. apply Z.mod_small. lia.
  - unfold be_bytes. change (seqZ 0 8) with [0; 1; 2; 3; 4; 5; 6; 7]. cbn [fmap list_fmap take].
    change (56 - 8 * 0) with (32 + 24). change (56 - 8 * 1) with (32 + 16). change (56 - 8 * 2) with (32 + 8).
    change (56 - 8 * 3) with (32 + 0). rewrite <-!Z.shiftr_shiftr, Hs by done. reflexivity.
Qed.
Lemma length_concat_be ws : length (concat (be_bytes <$> ws)) = (8 * length ws)%nat.
Proof.
  induction ws as [|w ws IH]; [done|]. cbn [fmap list_fmap concat]. rewrite length_app, IH, length_be_bytes. cbn. lia.
Qed.
Lemma frames_in_file rate size frames : (length frames ≤ length (concat (frame_words rate size <$> frames)))%nat.
Proof. induction frames as [|f frames IH]; [done|]. cbn [fmap list_fmap concat]. rewrite length_app. cbn. lia. Qed.

(** A file that the reference writer made decodes to the samples of the
    reference, the channels in turn; the array that malloc gave for them may hold
    anything before. *)
Lemma decode_file rate size frames cells fresh s :
  0 < rate < 2 ^ 16 → 0 ≤ size < 2 ^ 16 → frames ≠ [] → Forall frame_ok frames →
  4 * Z.of_nat (sum_list (f_samples <$> frames)) < U32 →
  fresh (4 * Z.of_nat (sum_list (f_samples <$> frames))) = Some cells →
  length cells = (2 * sum_list (f_samples <$> frames))%nat →
  wp (decode (file_of rate size frames) fresh) (λ r _, r = Some (decoded frames, rate)) s.
Proof.
  intros Hrate Hsize Hne Hall Hsmall Hfresh Hcells. set (n := sum_list (f_samples <$> frames)) in *.
  pose proof (length_decoded frames Hall) as Hld. fold n in Hld. unfold U32 in Hsmall.
  destruct (file_header_fields n) as (Hw & Hnum & Hmagic); [change (2 ^ 32) with 4294967296; lia|].
  destruct frames as [|f frames]; [done|]. pose proof Hall as Hall'. inversion_clear Hall' as [|? ? Hok _].
  assert (0 < n)%nat as Hn by (pose proof (fr_some _ Hok); unfold n; cbn; lia).
  destruct (header_fields rate size f Hok) as (Hfw & H56 & H32 & _); [lia|done|].
  set (words := concat (frame_words rate size <$> f :: frames)).
  assert (file_of rate size (f :: frames) = be_bytes (file_header n) ++ concat (be_bytes <$> words)) as Hfile by done.
  set (bytes := file_of rate size (f :: frames)) in *.
  assert (take 4 bytes = lit "qoaf") as Hm by (rewrite Hfile, take_app_le by (rewrite length_be_bytes; lia); done).
  unfold decode. rewrite bool_decide_eq_true_2 by exact Hm. cbn [negb]. wp_keep. clear Hm.
  apply (wp_read_u64 bytes (file_header n) words); [|done|].
  { exists [], []. split; [|done]. rewrite Hfile. by rewrite app_nil_r. }
  intros Hat. wp_keep. rewrite Hnum. apply (wp_read_u64 bytes _ _ _ _ Hat Hfw). intros _. cbv zeta.
  assert (u8 (Z.shiftr (frame_header rate size f) 56) = NUM_CHANNELS) as ->.
  { rewrite <-H56. change 0xff with (Z.ones 8). by rewrite Z.land_ones by lia. }
  rewrite H32. change (2 ^ 16) with 65536 in *.
  rewrite (proj2 (Z.eqb_neq (Z.of_nat n) 0)), (proj2 (Z.eqb_neq rate 0)), (proj2 (Z.ltb_ge 65535 rate)) by lia.
  change (NUM_CHANNELS =? 0) with false. rewrite Z.eqb_refl. cbn [orb negb].
  unfold NUM_CHANNELS. rewrite !u32_small by (rewrite ?u32_small; unfold U32; lia).
  replace (Z.of_nat n * 2 * 2) with (4 * Z.of_nat n) by ring. rewrite Hfresh. wp_keep.
  apply (wp_decode_frames bytes _ rate size 0 _ (f :: frames)); try (change (2 ^ 16) with 65536; lia); try done.
  - pose proof (frames_in_file rate size (f :: frames)) as Hin. fold words in Hin.
    rewrite Hfile, length_app, length_concat_be. lia.
  - unfold U32. lia.
  - cbn [samples set_pos set_samples]. rewrite Hcells. lia.
  - intros s' Hs'. cbn [negb]. wp_keep. rewrite Hs'. cbn [samples set_pos set_samples]. do 3 f_equal.
    unfold splice. rewrite drop_ge by (rewrite Hld, Hcells; lia). by rewrite take_0, app_nil_r.
Qed.

(** A file that the first read gives as a whole is loaded. *)
Lemma load_file_whole {S} (read : Z → K S (Z * list Z)) fuel file buf fresh s s' :
  QOA_MIN_FILESIZE ≤ Z.of_nat (length file) < U32 → fresh (Z.of_nat (length file)) = Some buf →
  length buf = length file → read (Z.of_nat (length file)) s = Done (Z.of_nat (length file), file) s' →
  (2 ≤ fuel)%nat → load_file read fuel (Z.of_nat (length file)) fresh s = Done (Some file) s'.
Proof.
  intros [Hmin Hmax] Hfresh Hbuf Hread Hf. unfold load_file. rewrite u32_small by lia.
  rewrite (proj2 (Z.ltb_ge _ _)) by done. rewrite Hfresh. destruct fuel as [|[|fuel]]; [lia..|]. cbn [read_loop].
  unfold QOA_MIN_FILESIZE in Hmin. rewrite (proj2 (Z.ltb_lt _ _)) by lia. rewrite (bind_run _ _ _ _ _ Hread).
  rewrite (proj2 (Z.ltb_ge _ _)) by lia. rewrite Z.add_0_l, Z.ltb_irrefl. unfold splice.
  by rewrite take_0, drop_ge, app_nil_r by lia.
Qed.
(** The device takes what it is given in order, whatever it takes at a time. *)
Section device.
Context {S : Type} (write : list Z → K S Z) (taken : S → list Z).
(** A device that takes some of what it gets. *)
Definition takes_some : Prop := ∀ bytes s, bytes ≠ [] → ∃ n s',
  write bytes s = Done (Z.of_nat n) s' ∧ (0 < n ≤ length bytes)%nat ∧ taken s' = taken s ++ take n bytes.
Lemma play_samples_all fuel rate bytes s :
  takes_some → 0 < rate → (length bytes < fuel)%nat →
  wp (play_samples write fuel rate bytes) (λ r s', r = EXIT_SUCCESS ∧ taken s' = taken s ++ bytes) s.
Proof.
  intros Hw Hr. unfold play_samples. set (mx := Z.max _ _).
  assert (0 < mx) as Hmx by (unfold mx; pose proof (Z.le_max_r (rate * 2) (Z.shiftl 1 16)); change (Z.shiftl 1 16) with 65536 in *; lia).
  clearbody mx. revert bytes s. induction fuel as [|fuel IH]; intros bytes s Hf; [lia|]. cbn [write_loop].
  destruct (Z.ltb_spec 0 (Z.of_nat (length bytes))) as [Hpos|Hz].
  2:{ wp_keep. destruct bytes; [|cbn in Hz; lia]. by rewrite app_nil_r. }
  set (count := Z.to_nat (Z.min (Z.of_nat (length bytes)) mx)).
  destruct (Hw (take count bytes) s) as (n & s' & E & Hn & Ht).
  { intros Hnil. apply (f_equal length) in Hnil. rewrite length_take in Hnil. cbn in Hnil. unfold count in *. lia. }
  rewrite length_take in Hn. wp_keep. eapply wp_run; [exact E|].
  rewrite (proj2 (Z.ltb_ge _ _)) by lia. rewrite Nat2Z.id.
  eapply wp_mono; [apply IH; rewrite length_drop; lia|]. intros r s2 [-> Ht2]. split; [done|].
  rewrite Ht2, Ht, take_take, <-app_assoc. f_equal. rewrite Nat.min_l by lia. apply take_drop.
Qed.
End device.

(** ** Witnesses and faults *)
Definition tiny_frame : frame :=
  Frame 21 [0x0001000200030004; 0x2000e00010000800; 0xfffe000000050100; 0x0100020003000400]
    [(0x9249249249249249, 0x5123456789abcdef); (0x3e00000000000000, 0x7a00000000000000)].
Lemma tiny_frame_ok : frame_ok tiny_frame.
Proof.
  constructor; [cbn; lia|cbn; lia| |].
  - split; [done|]. repeat (apply Forall_cons; split; [by vm_compute|]). by apply Forall_nil.
  - cbn. split_and!; try lia; by vm_compute.
Qed.
Lemma decode_file_witness :
  wp (decode (file_of 44100 7 [tiny_frame]) (λ n, if n =? 84 then Some (replicate 42 (-1)) else None))
    (λ r _, r = Some (decoded [tiny_frame], 44100)) (Player 0 [] []).
Proof.
  apply (decode_file 44100 7 [tiny_frame] (replicate 42 (-1))); try done.
  by apply Forall_singleton, tiny_frame_ok.
Defined.
(** A frame with more samples than the file promises is decoded behind the end of
    the array: the buffer overflows. *)
Example long_frame_overflows :
  match decode (concat (be_bytes <$> file_header 1 :: frame_words 44100 7 tiny_frame))
          (λ n, if n =? 4 then Some [0; 0] else None) (Player 0 [] []) with Undef => True | _ => False end.
Proof. vm_compute. exact I. Qed.
(** A file that comes in two pieces: the second overwrites the first. *)
Example short_reads_overwrite :
  read_loop (λ _, s ← get; match s with
    | x :: s => _ ← put s; mret (Z.of_nat (length x), x) | [] => mret (0, []) end) 5 4 0 [0; 0; 0; 0] [[1; 2]; [3; 4]] =
  Done (Some [3; 4; 0; 0]) [].
Proof. reflexivity. Qed.
Example decoded_example : take 6 (decoded [tiny_frame]) = [-421; 136; -525; 662; -763; 738].
Proof. vm_compute. reflexivity. Qed.
