(* ===== verification/Psf.v ===== *)
(** * Fonts (kernel/console/psf.c)

    The two versions of PSF fonts, read from a file with a header, the bitmaps of
    the glyphs and perhaps a table that says which characters each glyph is for.
    The readers run over a source of bytes; the files of the kernel are one. The
    theorems are round trips with reference writers. *)
From S2P Require Import Prelude.
From S2P Require Import Errno.
From S2P Require Import CString.
From S2P Require Import PageAllocator.
From S2P Require Import GrowableBuf.
From S2P Require Import Kernel.
From S2P Require Import Inode.
From S2P Require Import Path.
From S2P Require Import Tmpfs.
From S2P Require Import Fs.
From S2P Require Import Vfs.
From S2P Require Import SyscallFs.

Definition PSF1_MAGIC0 : Z := 0x36.
Definition PSF1_MAGIC1 : Z := 0x04.
Definition PSF1_MODE512 : Z := 0x01.
Definition PSF1_MODEHASTAB : Z := 0x02.
Definition PSF1_SEPARATOR : Z := 0xffff.
Definition PSF2_MAGIC : Z := 0x864ab572.
Definition PSF2_HAS_UNICODE_TABLE : Z := 0x01.
Definition PSF2_SEPARATOR : Z := 0xff.
Definition sizeof_psf1_header : Z := 4.
Definition sizeof_psf2_header : Z := 32.

Record font : Type := Font {
  glyphs : list Z; glyph_width : Z; glyph_height : Z; bytes_per_glyph : Z; ascii_to_glyph : list Z }.
(** A little-endian number in memory. *)
Definition le_value (l : list Z) : Z := foldr (λ b v, b + 256 * v) 0 l.

Section psf.
(** file_description_read and kmalloc; closing the file. *)
Context {S : Type} (fread : Z → K S (Z * list Z)) (kmalloc_ok : K S bool) (fclose : K S Z).

(** The characters of glyph [i], numbers of [size] bytes up to a separator;
    [None] when the file ends. *)
Fixpoint read_entries (size separator : Z) (fuel : nat) (i : Z) (ascii : list Z) : K S (option (list Z)) :=
  match fuel with
  | O => out_of_fuel
  | Datatypes.S fuel =>
      '(n, bytes) ← fread size;
      if negb (n =? size) then mret None
      else
        let uc := le_value bytes in
        if uc =? separator then mret (Some ascii)
        else read_entries size separator fuel i (if uc <? 128 then <[Z.to_nat uc := i]> ascii else ascii)
  end.
(** [k] glyphs are left from [i]. *)
Fixpoint read_table (size separator : Z) (fuel k : nat) (i : Z) (ascii : list Z) : K S (option (list Z)) :=
  match k with
  | O => mret (Some ascii)
  | Datatypes.S k =>
      r ← read_entries size separator fuel i ascii;
      match r with None => mret None | Some ascii => read_table size separator fuel k (i + 1) ascii end
  end.
Definition identity_table : list Z := seqZ 0 128.
(** The table, or the numbers themselves; then the file is closed. *)
Definition finish (has_table : bool) (size separator : Z) (fuel : nat) (num_glyphs : Z)
    (f : list Z → font) : K S (ptr_res font) :=
  ascii ← (if has_table then read_table size separator fuel (Z.to_nat num_glyphs) 0 (replicate 128 0)
           else mret (Some identity_table));
  match ascii with
  | None => mret (ERR_PTR (ERR EINVAL))
  | Some ascii => _ ← fclose; mret (PTR (f ascii))
  end.

(** load_psf1 after the file was opened. *)
Definition load_psf1 (fuel : nat) : K S (ptr_res font) :=
  '(n, header) ← fread sizeof_psf1_header;
  if negb (n =? sizeof_psf1_header) then mret (ERR_PTR (ERR EINVAL))
  else
    let field i := nth i header 0 in
    if negb (field 0%nat =? PSF1_MAGIC0) || negb (field 1%nat =? PSF1_MAGIC1) then mret (ERR_PTR (ERR EINVAL))
    else
      ok ← kmalloc_ok;
      if negb ok then mret (ERR_PTR (ERR ENOMEM))
      else
        let mode := field 2%nat in
        let charsize := field 3%nat in
        let num_glyphs := if negb (Z.land mode PSF1_MODE512 =? 0) then 512 else 256 in
        let buf_size := num_glyphs * charsize in
        ok ← kmalloc_ok;
        if negb ok then mret (ERR_PTR (ERR ENOMEM))
        else
          '(n, buf) ← fread buf_size;
          if negb (n =? buf_size) then mret (ERR_PTR (ERR EINVAL))
          else
            finish (negb (Z.land mode PSF1_MODEHASTAB =? 0)) 2 PSF1_SEPARATOR fuel num_glyphs
              (Font buf 8 charsize charsize).

Definition load_psf2 (fuel : nat) : K S (ptr_res font) :=
  '(n, header) ← fread sizeof_psf2_header;
  if negb (n =? sizeof_psf2_header) then mret (ERR_PTR (ERR EINVAL))
  else
    let field i := le_value (take 4 (drop (4 * i) header)) in
    if negb (field 0%nat =? PSF2_MAGIC) || negb (field 1%nat =? 0) || negb (field 2%nat =? sizeof_psf2_header)
    then mret (ERR_PTR (ERR EINVAL))
    else
      ok ← kmalloc_ok;
      if negb ok then mret (ERR_PTR (ERR ENOMEM))
      else
        let flags := field 3%nat in
        let numglyph := field 4%nat in
        let bytesperglyph := field 5%nat in
        let height := field 6%nat in
        let width := field 7%nat in
        if negb (u32 (div_ceil width 8 * height) =? bytesperglyph) then mret (ERR_PTR (ERR EINVAL))
        else
          let buf_size := u32 (numglyph * bytesperglyph) in
          ok ← kmalloc_ok;
          if negb ok then mret (ERR_PTR (ERR ENOMEM))
          else
            '(n, buf) ← fread buf_size;
            if negb (u32 n =? buf_size) then mret (ERR_PTR (ERR EINVAL))
            else
              finish (negb (Z.land flags PSF2_HAS_UNICODE_TABLE =? 0)) 1 PSF2_SEPARATOR fuel numglyph
                (Font buf width height bytesperglyph).
End psf.

(** ** The files of the kernel *)
Definition with_file (filename : list Z) (load : nat → K kstate (ptr_res font)) : K kstate (ptr_res font) :=
  desc ← vfs_open filename O_RDONLY 0;
  match desc with ERR_PTR rc => mret (ERR_PTR rc) | PTR desc => load desc end.
Definition load_psf (fuel : nat) (filename : list Z) : K kstate (ptr_res font) :=
  let reading load := with_file filename (λ d,
    load (file_description_read d) Kernel.kmalloc_ok (file_description_close d) fuel) in
  font ← reading load_psf1;
  match font with
  | PTR font => mret (PTR font)
  | ERR_PTR _ =>
      font ← reading load_psf2;
      match font with PTR font => mret (PTR font) | ERR_PTR _ => mret (ERR_PTR (ERR EINVAL)) end
  end.

(** ** Reference writers *)
Fixpoint le_bytes (n : nat) (v : Z) : list Z :=
  match n with O => [] | S n => v mod 256 :: le_bytes n (v / 256) end.
Lemma length_le_bytes n v : length (le_bytes n v) = n.
Proof. revert v. induction n as [|n IH]; intros v; cbn [le_bytes length]; [done|by rewrite IH]. Qed.
Lemma le_value_bytes n v : 0 ≤ v < 256 ^ Z.of_nat n → le_value (le_bytes n v) = v.
Proof.
  revert v. induction n as [|n IH]; intros v Hv; cbn [le_bytes].
  - change (256 ^ Z.of_nat 0) with 1 in Hv. unfold le_value. cbn [foldr]. lia.
  - change (le_value (v mod 256 :: le_bytes n (v / 256))) with (v mod 256 + 256 * le_value (le_bytes n (v / 256))).
    rewrite IH; [symmetry; rewrite Z.add_comm; apply Z.div_mod; lia|].
    rewrite Nat2Z.inj_succ, Z.pow_succ_r in Hv by lia. split; [apply Z.div_pos; lia|].
    apply Z.div_lt_upper_bound; lia.
Qed.
(** The characters of one glyph, and of all of them. *)
Definition entries (size : nat) (separator : Z) (chars : list Z) : list Z :=
  mjoin (le_bytes size <$> chars) ++ le_bytes size separator.
Definition table_bytes (size : nat) (separator : Z) (tables : list (list Z)) : list Z :=
  mjoin (entries size separator <$> tables).
Definition psf1_file (many : bool) (charsize : Z) (bitmap : list Z) (tables : option (list (list Z))) : list Z :=
  [PSF1_MAGIC0; PSF1_MAGIC1;
   (if many then 1 else 0) + (match tables with Some _ => 2 | None => 0 end); charsize] ++ bitmap ++
  match tables with Some t => table_bytes 2 PSF1_SEPARATOR t | None => [] end.
Definition psf2_file (width height bytesperglyph numglyph : Z) (bitmap : list Z) (tables : option (list (list Z))) : list Z :=
  mjoin (le_bytes 4 <$> [PSF2_MAGIC; 0; sizeof_psf2_header; match tables with Some _ => 1 | None => 0 end;
                         numglyph; bytesperglyph; height; width]) ++ bitmap ++
  match tables with Some t => table_bytes 1 PSF2_SEPARATOR t | None => [] end.

(** The glyph for character [c]: the last one that lists it, number 0 when none
    does; the glyph of its own number without a table. *)
Fixpoint last_with (c : Z) (tables : list (list Z)) (i r : Z) : Z :=
  match tables with
  | [] => r
  | chars :: tables => last_with c tables (i + 1) (if decide (c ∈ chars) then i else r)
  end.
Definition glyph_for (tables : option (list (list Z))) (c : Z) : Z :=
  match tables with Some t => last_with c t 0 0 | None => c end.
(** The characters a table may list. *)
Definition chars_ok (size : nat) (separator : Z) (chars : list Z) : Prop :=
  Forall (λ c, 0 ≤ c < 256 ^ Z.of_nat size ∧ c ≠ separator) chars.

Section sources.
Context {S : Type} (fread : Z → K S (Z * list Z)) (kmalloc_ok : K S bool) (fclose : K S Z).
(** [ahead l s]: the bytes [l] are still to be read, and memory will be granted. *)
Context (ahead : list Z → S → Prop).
Context (fread_law : ∀ l n s, ahead l s → 0 ≤ n < 2147483648 →
  wp (fread n) (λ r s', r = (Z.of_nat (length (take (Z.to_nat n) l)), take (Z.to_nat n) l) ∧
    ahead (drop (Z.to_nat n) l) s') s).
Context (kmalloc_law : ∀ l s, ahead l s → wp kmalloc_ok (λ ok s', ok = true ∧ ahead l s') s).
Context (fclose_law : ∀ l s, ahead l s → wp fclose (λ _ _, True) s).

(** Reading a piece that is there. *)
Lemma wp_fread_piece piece rest n (Q : Z * list Z → S → Prop) s :
  ahead (piece ++ rest) s → Z.of_nat (length piece) = n → n < 2147483648 →
  (∀ s', ahead rest s' → Q (n, piece) s') → wp (fread n) Q s.
Proof.
  intros Ha Hl Hn HQ. eapply wp_mono; [apply (fread_law _ n _ Ha); lia|].
  intros r s' [-> Ha']. rewrite take_app_length', drop_app_length' in * by lia. rewrite Hl. by apply HQ.
Qed.
Definition assign (i : Z) (ascii : list Z) (chars : list Z) : list Z :=
  foldl (λ ascii uc, if uc <? 128 then <[Z.to_nat uc := i]> ascii else ascii) ascii chars.
Lemma read_entries_wp size separator chars rest fuel i ascii (Q : option (list Z) → S → Prop) s :
  ahead (entries size separator chars ++ rest) s → chars_ok size separator chars →
  0 ≤ separator < 256 ^ Z.of_nat size → (length chars < fuel)%nat → Z.of_nat size < 2147483648 →
  (∀ s', ahead rest s' → Q (Some (assign i ascii chars)) s') →
  wp (read_entries fread (Z.of_nat size) separator fuel i ascii) Q s.
Proof.
  unfold chars_ok. revert ascii fuel s. induction chars as [|c chars IH]; intros ascii fuel s Ha Hc Hsep Hf Hsz HQ;
    (destruct fuel as [|fuel]; [simpl in Hf; lia|]); cbn [read_entries]; apply wp_bind.
  - apply (wp_fread_piece (le_bytes size separator) rest); [exact Ha|by rewrite length_le_bytes|done|].
    intros s' Ha'. cbv beta iota. rewrite Z.eqb_refl. cbn [negb]. rewrite le_value_bytes, Z.eqb_refl by done.
    apply wp_ret. by apply HQ.
  - apply Forall_cons in Hc as [[Hc1 Hc2] Hc]. unfold entries in Ha. rewrite fmap_cons in Ha.
    change (mjoin (le_bytes size c :: ?l)) with (le_bytes size c ++ mjoin l) in Ha. rewrite <-!app_assoc in Ha.
    apply (wp_fread_piece (le_bytes size c) _ _ _ _ Ha); [by rewrite length_le_bytes|done|].
    intros s' Ha'. cbv beta iota. rewrite Z.eqb_refl. cbn [negb]. rewrite le_value_bytes by done.
    rewrite (proj2 (Z.eqb_neq c separator)) by done.
    apply IH; [unfold entries; by rewrite <-app_assoc|done|done|simpl in Hf; lia|done|exact HQ].
Qed.
Definition assign_all (i : Z) (ascii : list Z) (tables : list (list Z)) : list Z :=
  (foldl (λ '(ascii, i) chars, (assign i ascii chars, i + 1)) (ascii, i) tables).1.
Lemma read_table_wp size separator tables rest fuel i ascii (Q : option (list Z) → S → Prop) s :
  ahead (table_bytes size separator tables ++ rest) s → Forall (chars_ok size separator) tables →
  0 ≤ separator < 256 ^ Z.of_nat size → Forall (λ chars, length chars < fuel)%nat tables → Z.of_nat size < 2147483648 →
  (∀ s', ahead rest s' → Q (Some (assign_all i ascii tables)) s') →
  wp (read_table fread (Z.of_nat size) separator fuel (length tables) i ascii) Q s.
Proof.
  revert i ascii s. induction tables as [|chars tables IH]; intros i ascii s Ha Hc Hsep Hf Hsz HQ; cbn [length read_table].
  - apply wp_ret. by apply HQ.
  - apply Forall_cons in Hc as [Hc1 Hc]. apply Forall_cons in Hf as [Hf1 Hf].
    unfold table_bytes in Ha. rewrite fmap_cons in Ha.
    change (mjoin (entries size separator chars :: ?l)) with (entries size separator chars ++ mjoin l) in Ha.
    rewrite <-app_assoc in Ha. apply wp_bind. eapply read_entries_wp; [exact Ha|done..|].
    intros s' Ha'. cbv iota. apply IH; [exact Ha'|done..|exact HQ].
Qed.

(** The table that is read is the one that was written. *)
Lemma lookup_assign i ascii chars c :
  (Z.to_nat c < length ascii)%nat → 0 ≤ c < 128 → Forall (λ c, 0 ≤ c) chars →
  assign i ascii chars !! Z.to_nat c = (if decide (c ∈ chars) then Some i else ascii !! Z.to_nat c) ∧
  length (assign i ascii chars) = length ascii.
Proof.
  intros Hl Hc Hch. revert ascii Hl. induction Hch as [|e chars He Hch IH]; intros ascii Hl.
  - by rewrite decide_False by by intros ?%elem_of_nil.
  - change (assign i ascii (e :: chars)) with (assign i (if e <? 128 then <[Z.to_nat e := i]> ascii else ascii) chars).
    assert (length (if e <? 128 then <[Z.to_nat e := i]> ascii else ascii) = length ascii) as El
      by (destruct (e <? 128); by rewrite ?length_insert).
    destruct (IH (if e <? 128 then <[Z.to_nat e := i]> ascii else ascii)) as [E1 E2]; [by rewrite El|].
    split; [|congruence]. rewrite E1. destruct (decide (c ∈ chars)) as [Hin|Hnot].
    + by rewrite decide_True by by right.
    + destruct (decide (c = e)) as [->|Hne].
      * rewrite decide_True by by left. rewrite (proj2 (Z.ltb_lt e 128)) by lia.
        by rewrite list_lookup_insert_eq.
      * rewrite decide_False by (rewrite elem_of_cons; tauto).
        destruct (e <? 128); [|done]. by rewrite list_lookup_insert_ne by lia.
Qed.
Lemma lookup_assign_all tables i r ascii c :
  length ascii = 128%nat → 0 ≤ c < 128 → ascii !! Z.to_nat c = Some r → Forall (Forall (λ c, 0 ≤ c)) tables →
  assign_all i ascii tables !! Z.to_nat c = Some (last_with c tables i r) ∧ length (assign_all i ascii tables) = 128%nat.
Proof.
  intros Hl Hc Hr Ht. revert i r ascii Hl Hr. induction Ht as [|chars tables Hch _ IH]; intros i r ascii Hl Hr; [done|].
  change (assign_all i ascii (chars :: tables)) with (assign_all (i + 1) (assign i ascii chars) tables).
  destruct (lookup_assign i ascii chars c) as [E1 E2]; [lia|done|done|].
  cbn [last_with]. apply IH; [by rewrite E2|]. rewrite E1. by case_decide.
Qed.

(** The font of the bitmap and the tables. *)
Definition is_font (bitmap : list Z) (width height bpg : Z) (tables : option (list (list Z))) (r : ptr_res font) : Prop :=
  ∃ ascii, r = PTR (Font bitmap width height bpg ascii) ∧ length ascii = 128%nat ∧
    ∀ c, 0 ≤ c < 128 → ascii !! Z.to_nat c = Some (glyph_for tables c).
Definition tables_ok (size : nat) (separator : Z) (num : Z) (fuel : nat) (tables : option (list (list Z))) : Prop :=
  match tables with
  | Some t => Z.of_nat (length t) = num ∧ Forall (chars_ok size separator) t ∧
              Forall (λ chars, length chars < fuel)%nat t
  | None => True
  end.
Lemma finish_wp size separator num fuel tables rest bitmap width height bpg s :
  ahead (match tables with Some t => table_bytes size separator t | None => [] end ++ rest) s →
  tables_ok size separator num fuel tables → 0 ≤ separator < 256 ^ Z.of_nat size → Z.of_nat size < 2147483648 →
  wp (finish fread fclose (match tables with Some _ => true | None => false end) (Z.of_nat size) separator fuel num
       (Font bitmap width height bpg)) (λ r _, is_font bitmap width height bpg tables r) s.
Proof.
  intros Ha Ht Hsep Hsz. unfold finish. apply wp_bind.
  assert (∀ ascii l s', ahead l s' → length ascii = 128%nat →
    (∀ c, 0 ≤ c < 128 → ascii !! Z.to_nat c = Some (glyph_for tables c)) →
    wp (_ ← fclose; mret (PTR (Font bitmap width height bpg ascii)))
      (λ r _, is_font bitmap width height bpg tables r) s') as Hend.
  { intros ascii l s' Ha' Hl Hc. apply wp_bind. eapply wp_mono; [by eapply fclose_law|].
    intros rc s2 _. apply wp_ret. by exists ascii. }
  destruct tables as [t|]; cbn [tables_ok] in Ht.
  - destruct Ht as (Hn & Hc & Hf). rewrite <-Hn, Nat2Z.id.
    eapply read_table_wp; [exact Ha|done..|]. intros s' Ha'. cbv iota.
    assert (Forall (Forall (λ c, 0 ≤ c)) t) as Hpos.
    { eapply Forall_impl; [exact Hc|]. intros chars Hch. eapply Forall_impl; [exact Hch|]. intros c [? _]. lia. }
    apply (Hend _ rest s' Ha').
    + by apply (lookup_assign_all t 0 0 (replicate 128 0) 0).
    + intros c Hc'. apply (lookup_assign_all t 0 0 (replicate 128 0) c); try done.
      apply lookup_replicate. split; [done|lia].
  - apply wp_ret. cbv iota. apply (Hend _ rest s Ha); [done|]. intros c Hc'. cbn [glyph_for].
    unfold identity_table. rewrite lookup_seqZ. lia.
Qed.

(** A font of version 1 that was written is read back. *)
Lemma load_psf1_written many charsize bitmap tables rest fuel s :
  let num := if many : bool then 512 else 256 in
  ahead (psf1_file many charsize bitmap tables ++ rest) s →
  0 ≤ charsize < 256 → Z.of_nat (length bitmap) = num * charsize → tables_ok 2 PSF1_SEPARATOR num fuel tables →
  wp (load_psf1 fread kmalloc_ok fclose fuel) (λ r _, is_font bitmap 8 charsize charsize tables r) s.
Proof.
  intros num Ha Hcs Hb Ht. unfold psf1_file in Ha. rewrite <-!app_assoc in Ha. unfold load_psf1.
  set (mode := (if many then 1 else 0) + _) in Ha.
  assert ((if negb (Z.land mode PSF1_MODE512 =? 0) then 512 else 256) = num ∧
    negb (Z.land mode PSF1_MODEHASTAB =? 0) = match tables with Some _ => true | None => false end) as [Em Et].
  { unfold mode, num. by destruct many, tables. }
  apply wp_bind. apply (wp_fread_piece [PSF1_MAGIC0; PSF1_MAGIC1; mode; charsize] _ _ _ _ Ha); [done|done|].
  intros s1 Ha1. cbv beta iota zeta. change (negb (sizeof_psf1_header =? sizeof_psf1_header)) with false. cbv iota.
  cbn [nth]. rewrite !Z.eqb_refl. cbn [negb orb]. cbv iota.
  apply wp_bind. eapply wp_mono; [by eapply kmalloc_law|]. intros ok s2 [-> Ha2]. cbn [negb]. cbv iota.
  apply wp_bind. eapply wp_mono; [by eapply kmalloc_law|]. intros ok s3 [-> Ha3]. cbn [negb]. cbv iota.
  rewrite Em, Et. apply wp_bind. assert (num ≤ 512) by (unfold num; destruct many; lia).
  apply (wp_fread_piece bitmap _ _ _ _ Ha3); [done|nia|]. intros s4 Ha4. cbv beta iota.
  rewrite Z.eqb_refl. cbn [negb]. cbv iota. apply (finish_wp 2 _ _ _ _ rest); [exact Ha4|done|done|done].
Qed.
Lemma header_field (ws : list Z) i :
  Forall (λ v, 0 ≤ v < U32) ws → (i < length ws)%nat →
  le_value (take 4 (drop (4 * i) (mjoin (le_bytes 4 <$> ws)))) = nth i ws 0.
Proof.
  intros Hws. revert i. induction Hws as [|w ws Hw _ IH]; intros i Hi; [simpl in Hi; lia|].
  rewrite fmap_cons. change (mjoin (le_bytes 4 w :: ?l)) with (le_bytes 4 w ++ mjoin l).
  destruct i as [|i].
  - change (4 * 0)%nat with 0%nat. rewrite drop_0, take_app_length'; [by apply le_value_bytes|by rewrite length_le_bytes].
  - replace (4 * Datatypes.S i)%nat with (length (le_bytes 4 w) + 4 * i)%nat by (rewrite length_le_bytes; lia).
    rewrite drop_app_add. apply IH. simpl in Hi. lia.
Qed.
(** A font of version 2 that was written is read back. *)
Lemma load_psf2_written width height bpg num bitmap tables rest fuel s :
  ahead (psf2_file width height bpg num bitmap tables ++ rest) s →
  0 ≤ width < 65536 → 0 ≤ height < 65536 → bpg = (width + 7) / 8 * height → 0 ≤ num → num * bpg < 2147483648 →
  bpg < U32 → num < U32 →
  Z.of_nat (length bitmap) = num * bpg → tables_ok 1 PSF2_SEPARATOR num fuel tables →
  wp (load_psf2 fread kmalloc_ok fclose fuel) (λ r _, is_font bitmap width height bpg tables r) s.
Proof.
  intros Ha Hw Hh Hbpg Hn Hsz Hb32 Hn32 Hb Ht. unfold psf2_file in Ha. rewrite <-!app_assoc in Ha. unfold load_psf2.
  set (flags := match tables with Some _ => 1 | None => 0 end) in Ha.
  set (ws := [PSF2_MAGIC; 0; sizeof_psf2_header; flags; num; bpg; height; width]) in Ha.
  assert (Hbpg0 : 0 ≤ bpg) by (subst bpg; assert (0 ≤ (width + 7) / 8) by (apply Z.div_pos; lia); nia).
  assert (0 ≤ num * bpg) by nia.
  assert (negb (Z.land flags PSF2_HAS_UNICODE_TABLE =? 0) = match tables with Some _ => true | None => false end) as Et.
  { unfold flags. by destruct tables. }
  assert (Forall (λ v, 0 ≤ v < U32) ws) as Hws.
  { unfold ws, flags, U32 in *. repeat (apply Forall_cons; split; [first [done | lia | destruct tables; lia]|]). by apply Forall_nil. }
  apply wp_bind. apply (wp_fread_piece (mjoin (le_bytes 4 <$> ws)) _ _ _ _ Ha); [done|done|].
  intros s1 Ha1. cbv beta iota zeta. change (negb (sizeof_psf2_header =? sizeof_psf2_header)) with false. cbv iota.
  rewrite !(header_field ws) by (done || (cbn; lia)). cbn [nth ws].
  change (negb (PSF2_MAGIC =? PSF2_MAGIC) || negb (0 =? 0) || negb (sizeof_psf2_header =? sizeof_psf2_header)) with false.
  cbv iota.
  apply wp_bind. eapply wp_mono; [by eapply kmalloc_law|]. intros ok s2 [-> Ha2]. cbn [negb]. cbv iota.
  assert (u32 (div_ceil width 8 * height) = bpg) as Ed.
  { unfold div_ceil. rewrite (u32_small (width + 8 - 1)) by (unfold U32; lia).
    replace (width + 8 - 1) with (width + 7) by lia. rewrite <-Hbpg. apply u32_small. lia. }
  rewrite Ed, Z.eqb_refl. cbn [negb]. cbv iota. rewrite (u32_small (num * bpg)) by (unfold U32; lia).
  apply wp_bind. eapply wp_mono; [by eapply kmalloc_law|]. intros ok s3 [-> Ha3]. cbn [negb]. cbv iota.
  apply wp_bind. apply (wp_fread_piece bitmap _ _ _ _ Ha3); [done|lia|]. intros s4 Ha4. cbv beta iota.
  rewrite (u32_small (num * bpg)) by (unfold U32; lia). rewrite Z.eqb_refl. cbn [negb]. cbv iota. rewrite Et.
  apply (finish_wp 1 _ _ _ _ rest); [exact Ha4|done|done|done].
Qed.
End sources.

(** ** Over the files of the kernel *)

(** [l] is ahead of description [d], which is open for reading on a regular file
    that lives on when it is closed. *)
Definition ahead_of (d : nat) (l : list Z) (s : kstate) : Prop :=
  grants s = [] ∧ ∃ x nd b k, file_at s d x nd b k ∧ fops nd = non_dir_fops ∧ S_ISDIR (mode nd) = false ∧
    has_flag (d_flags x) O_RDONLY = true ∧ gb_inv b ∧ gb_size b < 1073741824 ∧ 0 ≤ d_offset x < 1073741824 ∧
    d_ref_count x = 1 ∧ 0 < ref_count nd < U32 ∧ (ref_count nd ≠ 1 ∨ num_links nd ≠ 0) ∧
    l = drop (Z.to_nat (d_offset x)) (file b).
Lemma ahead_of_read d l n s :
  ahead_of d l s → 0 ≤ n < 2147483648 →
  wp (file_description_read d n) (λ r s', r = (Z.of_nat (length (take (Z.to_nat n) l)), take (Z.to_nat n) l) ∧
    ahead_of d (drop (Z.to_nat n) l) s') s.
Proof.
  intros (Hg & x & nd & b & k & Hf & Hfo & Hm & Hfl & Hb & Hsz & Hoff & Hr & Hrc & Hlive & ->) Hn.
  eapply wp_mono; [by apply (file_read_wp s d x nd b k n)|]. cbv zeta. intros r s' [-> ->]. split; [done|].
  set (rest := drop _ (file b)). set (m := length (take (Z.to_nat n) rest)).
  assert (Hlen : length rest = Z.to_nat (gb_size b - d_offset x)) by (unfold rest; rewrite length_drop, length_file by done; lia).
  assert (Hm0 : (m ≤ length rest)%nat) by (unfold m; rewrite length_take; lia).
  destruct (gi_size b Hb) as [Hs0 _].
  split; [done|]. exists (set_offset (d_offset x + Z.of_nat m) x), (set_data (TmpfsData b k) nd), b, k.
  destruct Hf as (Hx & Hnd & Hd & Hl). split_and!; try done.
  - split_and!; [apply lookup_insert_eq|apply lookup_insert_eq|done|done].
  - cbn [d_offset set_offset]. lia.
  - cbn [d_offset set_offset]. lia.
  - apply Hrc.
  - apply Hrc.
  - cbn [d_offset set_offset]. replace (Z.to_nat (d_offset x + Z.of_nat m)) with (Z.to_nat (d_offset x) + m)%nat by lia.
    rewrite <-(drop_drop (file b)). fold rest. unfold m. rewrite length_take.
    destruct (decide (Z.to_nat n ≤ length rest)%nat); [by rewrite Nat.min_l|].
    rewrite Nat.min_r, !drop_ge by lia. done.
Qed.
Lemma ahead_of_kmalloc d l s : ahead_of d l s → wp Kernel.kmalloc_ok (λ ok s', ok = true ∧ ahead_of d l s') s.
Proof. intros Ha. pose proof Ha as [Hg _]. unfold wp, Kernel.kmalloc_ok. by rewrite Hg. Qed.
Lemma ahead_of_close d l s : ahead_of d l s → wp (file_description_close d) (λ _ _, True) s.
Proof.
  intros (_ & x & nd & b & k & (Hx & Hnd & _) & Hfo & _ & _ & _ & _ & _ & Hr & Hrc & Hlive & _).
  eapply wp_run; [eapply (file_description_close_run s d x nd); try done|done]. by rewrite Hfo.
Qed.
(** Both versions, from a file of the kernel. *)
Lemma load_psf2_file width height bpg num bitmap tables rest fuel d s :
  ahead_of d (psf2_file width height bpg num bitmap tables ++ rest) s →
  0 ≤ width < 65536 → 0 ≤ height < 65536 → bpg = (width + 7) / 8 * height → 0 ≤ num → num * bpg < 2147483648 →
  bpg < U32 → num < U32 →
  Z.of_nat (length bitmap) = num * bpg → tables_ok 1 PSF2_SEPARATOR num fuel tables →
  wp (load_psf2 (file_description_read d) Kernel.kmalloc_ok (file_description_close d) fuel)
    (λ r _, is_font bitmap width height bpg tables r) s.
Proof.
  intros. eapply (load_psf2_written _ _ _ (ahead_of d)); try done.
  - intros. by apply ahead_of_read.
  - intros. by apply ahead_of_kmalloc.
  - intros. by eapply ahead_of_close.
Qed.
Lemma load_psf1_file many charsize bitmap tables rest fuel d s :
  let num := if many : bool then 512 else 256 in
  ahead_of d (psf1_file many charsize bitmap tables ++ rest) s →
  0 ≤ charsize < 256 → Z.of_nat (length bitmap) = num * charsize → tables_ok 2 PSF1_SEPARATOR num fuel tables →
  wp (load_psf1 (file_description_read d) Kernel.kmalloc_ok (file_description_close d) fuel)
    (λ r _, is_font bitmap 8 charsize charsize tables r) s.
Proof.
  intros num. intros. eapply (load_psf1_written _ _ _ (ahead_of d)); try done.
  - intros. by apply ahead_of_read.
  - intros. by apply ahead_of_kmalloc.
  - intros. by eapply ahead_of_close.
Qed.

(** *** A font in a file *)
Definition sample_psf2 : list Z := psf2_file 8 2 2 3 [1; 2; 3; 4; 5; 6] (Some [[65; 66]; [195; 164]; [66]]).
Definition only_root : kstate :=
  KState {[0%nat := dir_inode 0 0 1 []]} ∅ (Some 0%nat) [] [] ∅ {[0%nat := process_at (lit "/")]}
    [0%nat] [] None 0 1 1 [].
Definition font_kernel : option kstate :=
  match (d ← vfs_open (lit "/font") (Z.lor O_CREAT O_WRONLY) (Z.lor S_IFREG 0x1a4);
         match d with
         | PTR d => _ ← file_description_write d sample_psf2; file_description_close d
         | ERR_PTR rc => mret rc
         end) only_root with
  | Done 0 s => Some s
  | _ => None
  end.
(** The font is found although it is no font of version 1, whose reader leaves the
    description that it opened. *)
Example load_psf_leaks :
  match font_kernel with
  | Some s =>
      match load_psf 4 (lit "/font") s with
      | Done (PTR f) s' => (glyphs f, ascii_to_glyph f !! 65%nat, ascii_to_glyph f !! 66%nat) =
          ([1; 2; 3; 4; 5; 6], Some 0, Some 2) ∧ (size (descs s), size (descs s')) = (0%nat, 1%nat)
      | _ => False
      end
  | None => False
  end.
Proof. vm_compute. done. Qed.
Definition font_buf : growable_buf :=
  GrowableBuf true PAGE_SIZE (Z.of_nat (length sample_psf2))
    (Some (sample_psf2 ++ replicate (Z.to_nat PAGE_SIZE - length sample_psf2) 0)).
Lemma font_buf_inv : gb_inv font_buf.
Proof.
  split; try done. intros _. eexists. split; [reflexivity|]. split; [by vm_compute|].
  intros i c Hi Hc. cbn [gb_size font_buf] in Hi. rewrite lookup_app_r in Hc by lia.
  by apply lookup_replicate in Hc as [-> _].
Qed.
Definition font_inode : inode := Inode (Some 0%nat) non_dir_fops 0 None 1 1 S_IFREG (TmpfsData font_buf []).
Definition font_open : kstate :=
  with_inodes (λ _, {[0%nat := font_inode]}) (with_descs (λ _, {[0%nat := FileDescription 0 O_RDONLY 0 1]}) only_root).
Lemma font_ahead : ahead_of 0 (sample_psf2 ++ []) font_open.
Proof.
  split; [done|]. exists (FileDescription 0 O_RDONLY 0 1), font_inode, font_buf, [].
  split_and!; try done; [apply font_buf_inv|by right].
Qed.
Lemma load_psf2_file_witness :
  wp (load_psf2 (file_description_read 0) Kernel.kmalloc_ok (file_description_close 0) 4)
    (λ r _, is_font [1; 2; 3; 4; 5; 6] 8 2 2 (Some [[65; 66]; [195; 164]; [66]]) r) font_open.
Proof.
  apply (load_psf2_file 8 2 2 3 [1; 2; 3; 4; 5; 6] (Some [[65; 66]; [195; 164]; [66]]) [] 4 0 font_open font_ahead); try done.
  split; [done|]. split; repeat (apply Forall_cons; split); try (by apply Forall_nil); try (cbn; lia);
    repeat (apply Forall_cons; split); try (by apply Forall_nil); vm_compute; done.
Defined.
