(* ===== verification/Redraw.v ===== *)
(** * Which lines of the console have to be drawn again (kernel/console/fb_console.c)

    Every operation that changes a cell, the cursor or its visibility marks the
    lines it changes in [line_is_dirty]: a line without a mark is as it was when
    it was drawn last. [tracks] states this for two states, and every computation
    of Console.v that returns meets it. Screen.v builds on it. *)
From S2P Require Import Prelude.
From S2P Require Import CString.
From S2P Require Import CLib.
From S2P Require Import Console.

Definition is_dirty (k : console) (y : Z) : bool := nth (Z.to_nat y) (line_is_dirty k) true.
Definition cell_at (k : console) (x y : Z) : cell :=
  nth (Z.to_nat (x + y * console_width k)) (cells k) (Cell 0 0 0).
Definition is_cursor_at (k : console) (x y : Z) : bool :=
  is_cursor_visible k && (x =? cursor_x k) && (y =? cursor_y k).
(** Cells that can be drawn: an ASCII character and colours of the palette. *)
Definition cell_ok (c : cell) : Prop := 0 ≤ cell_ch c < 128 ∧ 0 ≤ cell_fg c < 16 ∧ 0 ≤ cell_bg c < 16.
Definition inks (k : console) : Prop :=
  Forall cell_ok (cells k) ∧ 0 ≤ fg_color k < 16 ∧ 0 ≤ bg_color k < 16.
Definition on_screen (k : console) (y : Z) : Prop := 0 ≤ y < console_height k.
Definition all_dirty (k : console) : Prop := ∀ y, on_screen k y → is_dirty k y = true.

(** What a line looks like. *)
Definition same_line (k k' : console) (y : Z) : Prop :=
  ∀ x, 0 ≤ x < console_width k → cell_at k' x y = cell_at k x y ∧ is_cursor_at k' x y = is_cursor_at k x y.
Record tracks (k k' : console) : Prop := {
  tr_geometry : geometry k' = geometry k;
  tr_lines : ∀ y, on_screen k y → is_dirty k' y = false → is_dirty k y = false ∧ same_line k k' y;
  tr_clear : whole_screen_should_be_cleared k' = true → whole_screen_should_be_cleared k = true ∨ all_dirty k';
  tr_inks : inks k → inks k';
}.
Lemma geometry_width k k' : geometry k' = geometry k → console_width k' = console_width k.
Proof. by intros [= -> _ _ _]. Qed.
Lemma geometry_height k k' : geometry k' = geometry k → console_height k' = console_height k.
Proof. by intros [= _ -> _ _]. Qed.
#[global] Instance tracks_refl : Reflexive tracks.
Proof. intros k. constructor; try done. by left. Qed.
#[global] Instance tracks_trans : Transitive tracks.
Proof.
  intros k1 k2 k3 H12 H23. pose proof (tr_geometry _ _ H12) as G12. pose proof (tr_geometry _ _ H23) as G23.
  pose proof (geometry_width _ _ G12) as W. pose proof (geometry_height _ _ G12) as Ht. constructor.
  - congruence.
  - intros y Hy D3. destruct (tr_lines _ _ H23 y) as [D2 S23]; [unfold on_screen in *; by rewrite Ht|done|].
    destruct (tr_lines _ _ H12 y Hy D2) as [D1 S12]. split; [done|].
    intros x Hx. destruct (S12 x Hx), (S23 x ltac:(by rewrite W)). split; congruence.
  - intros C3. destruct (tr_clear _ _ H23 C3) as [C2|]; [|by right].
    destruct (tr_clear _ _ H12 C2) as [C1|A2]; [by left|]. right. intros y Hy.
    pose proof (geometry_height _ _ G23) as H3. unfold on_screen in Hy.
    destruct (is_dirty k3 y) eqn:E; [done|].
    destruct (tr_lines _ _ H23 y) as [D2 _]; [unfold on_screen; lia|done|].
    rewrite (A2 y) in D2; [done|]. unfold on_screen. lia.
  - intros I1. apply H23, H12, I1.
Qed.

(** [m] keeps track whenever it returns. *)
Definition keeps {A} (m : K console A) (k : console) : Prop := ∀ a k', m k = Done a k' → tracks k k'.
Lemma keeps_bind {A B} (m : K console A) (f : A → K console B) k :
  keeps m k → (∀ a k1, m k = Done a k1 → tracks k k1 → keeps (f a) k1) → keeps (m ≫= f) k.
Proof.
  intros Hm Hf b k' H. apply bind_Done in H as (a & k1 & H1 & H2). pose proof (Hm _ _ H1) as Ht.
  etrans; [exact Ht|]. by eapply Hf.
Qed.
Lemma keeps_ret {A} (a : A) k : keeps (mret a) k.
Proof. by intros ? ? [= _ ->]. Qed.
Lemma keeps_get {A} (f : console → K console A) k : keeps (f k) k → keeps (k ← get; f k) k.
Proof. intros Hf a k' H. apply bind_Done in H as (? & ? & [= <- <-] & H). by eapply Hf. Qed.
Lemma keeps_when (b : bool) m k : (b = true → keeps m k) → keeps (when b m) k.
Proof. intros Hm. destruct b; [by apply Hm|apply keeps_ret]. Qed.
Lemma keeps_if {A} (b : bool) (m1 m2 : K console A) k :
  (b = true → keeps m1 k) → (b = false → keeps m2 k) → keeps (if b then m1 else m2) k.
Proof. destruct b; auto. Qed.
Lemma keeps_modify f k : tracks k (f k) → keeps (modify f) k.
Proof. intros Hf a k' [= _ <-]. done. Qed.
Ltac keeps_cases :=
  repeat lazymatch goal with |- keeps (if _ then _ else _) _ => apply keeps_if; intros _ end.
(** A computation that only looks. *)
Lemma keeps_pure {A} (m : K console A) k : (∀ a k', m k = Done a k' → k' = k) → keeps m k.
Proof. intros Hm a k' H. by rewrite (Hm _ _ H). Qed.

(** ** The primitives *)
Lemma mark_dirty_inv y k a k' : mark_dirty y k = Done a k' → row_ok k y ∧ k' = dirty y k.
Proof.
  intros H. apply bind_Done in H as (? & ? & [= <- <-] & H). destruct (in_bounds _ _) eqn:E; [|done].
  injection H as <-. split; [by apply in_bounds_row|done].
Qed.
Lemma store_cell_inv i c k a k' :
  store_cell i c k = Done a k' → 0 ≤ i < Z.of_nat (length (cells k)) ∧ k' = drawn i c k.
Proof.
  intros H. apply bind_Done in H as (? & ? & [= <- <-] & H).
  destruct (in_bounds _ _) eqn:E; [|done]. injection H as <-. split; [|done].
  unfold in_bounds, in_array in E. bool_to_prop. lia.
Qed.
Lemma is_dirty_dirty y k y' :
  row_ok k y → 0 ≤ y' → is_dirty (dirty y k) y' = if decide (y' = y) then true else is_dirty k y'.
Proof.
  intros [H1 H2] Hy'. unfold is_dirty, dirty, with_dirty. cbn [line_is_dirty]. rewrite !nth_lookup.
  case_decide as E; [subst; by rewrite list_lookup_insert_eq by lia|]. by rewrite list_lookup_insert_ne by lia.
Qed.
Lemma set_cursor_inv x y k a k' :
  set_cursor x y k = Done a k' → row_ok k (cursor_y k) ∧ row_ok k y ∧ k' = moved x y k.
Proof.
  intros H. apply bind_Done in H as (? & ? & [= <- <-] & H). apply bind_Done in H as (? & ? & [= <- <-] & H).
  apply bind_Done in H as (? & ? & H1 & H). apply mark_dirty_inv in H1 as [R1 ->].
  apply bind_Done in H as (? & ? & H2 & H). apply mark_dirty_inv in H2 as [R2 ->]. injection H as <-.
  split; [exact R1|]. split; [|done]. unfold row_ok in *. cbn in R2. by rewrite length_insert in R2.
Qed.

Lemma keeps_set_cursor x y k : keeps (set_cursor x y) k.
Proof.
  intros a k' H. apply set_cursor_inv in H as (R1 & R2 & ->). constructor; [apply (moved_draws x y k)| |by left|done].
  intros y' [Hy0 Hy] D. set (k1 := dirty (cursor_y k) (with_stomp false k)) in *.
  assert (row_ok k1 y) as R2' by (unfold row_ok, k1; cbn; by rewrite length_insert).
  change (is_dirty (dirty y k1) y' = false) in D. rewrite is_dirty_dirty in D by done.
  case_decide as E; [done|]. unfold k1 in D. rewrite is_dirty_dirty in D by done. case_decide as E1; [done|].
  split; [exact D|]. intros x' Hx. split; [done|]. unfold is_cursor_at, moved. cbn.
  rewrite (proj2 (Z.eqb_neq y' y)), (proj2 (Z.eqb_neq y' (cursor_y k))) by done. by rewrite !andb_false_r.
Qed.
(** Changes of variables that are not on the screen. *)
Lemma tracks_quiet k k' :
  geometry k' = geometry k → line_is_dirty k' = line_is_dirty k → cells k' = cells k →
  cursor k' = cursor k → is_cursor_visible k' = is_cursor_visible k →
  whole_screen_should_be_cleared k' = whole_screen_should_be_cleared k → (inks k → inks k') → tracks k k'.
Proof.
  intros G D C [= X Y] V W I. constructor; [done| |rewrite W; by left|done].
  intros y Hy. unfold is_dirty, same_line, cell_at, is_cursor_at. rewrite D, C, X, Y, V, (geometry_width _ _ G). done.
Qed.
Lemma cell_ok_colored c k : inks k → 0 ≤ c < 128 → cell_ok (colored c k).
Proof. by intros (_ & Hf & Hb) Hc. Qed.
Lemma inks_blank k : inks k → cell_ok (blank k).
Proof. intros Hi. apply cell_ok_colored; [done|]. by vm_compute. Qed.

(** Only cells from [i] on changed, [n] of them. *)
Record recelled (i n : Z) (k k' : console) : Prop := {
  rc_same : with_cells [] k' = with_cells [] k;
  rc_size : length (cells k') = length (cells k);
  rc_outside : ∀ j, 0 ≤ j → j < i ∨ i + n ≤ j → nth (Z.to_nat j) (cells k') (Cell 0 0 0) = nth (Z.to_nat j) (cells k) (Cell 0 0 0);
  rc_inks : inks k → inks k';
}.
Lemma recelled_one i c k :
  0 ≤ i < Z.of_nat (length (cells k)) → (inks k → cell_ok c) → recelled i 1 k (drawn i c k).
Proof.
  intros Hi Hc. constructor; [done|apply length_insert| |].
  - intros j Hj Ho. unfold drawn. cbn. rewrite !nth_lookup, list_lookup_insert_ne by lia. done.
  - intros Hk. destruct (Hk) as (Hcs & Hcol). split; [|done]. unfold drawn. cbn. apply Forall_insert; auto.
Qed.
Lemma recelled_fields i n k k' : recelled i n k k' →
  geometry k' = geometry k ∧ cursor k' = cursor k ∧ line_is_dirty k' = line_is_dirty k ∧
  is_cursor_visible k' = is_cursor_visible k ∧ blank k' = blank k ∧
  whole_screen_should_be_cleared k' = whole_screen_should_be_cleared k.
Proof.
  intros [E HL _ _]. destruct k, k'. unfold with_cells in E. cbn in E. injection E as -> -> -> -> -> -> -> -> -> -> -> ->.
  unfold geometry. cbn in *. by rewrite HL.
Qed.
Lemma clear_cells_inv n i k a k' : 0 ≤ i → clear_cells i n k = Done a k' → recelled i (Z.of_nat n) k k'.
Proof.
  revert i k. induction n as [|n IH]; intros i k Hi H; cbn [clear_cells] in H.
  { injection H as _ <-. by constructor. }
  apply bind_Done in H as (? & ? & [= <- <-] & H). apply bind_Done in H as (? & k1 & H1 & H).
  apply store_cell_inv in H1 as [Hlen ->]. apply IH in H; [|lia].
  pose proof (recelled_one i (blank k) k Hlen (inks_blank k)) as H1.
  destruct H as [E HL Ho I], H1 as [E1 HL1 Ho1 I1]. constructor; [by etrans|by etrans| |intros Hk; by apply I, I1].
  intros j Hj Hout. rewrite Ho, Ho1 by lia. done.
Qed.

(** A line whose cells changed is marked. *)
Lemma recelled_marked x y n k k' :
  0 ≤ x → 0 ≤ n → x + n ≤ console_width k → recelled (x + y * console_width k) n k k' → row_ok k' y →
  tracks k (dirty y k').
Proof.
  intros Hx Hn Hw R Hr. destruct (recelled_fields _ _ _ _ R) as (G & [= X Y] & D & V & _ & W).
  pose proof (geometry_width _ _ G) as Gw.
  constructor; [|..|apply R].
  - rewrite <-G. apply (dirty_draws y k').
  - intros y' [Hy0 Hy] Hd. rewrite is_dirty_dirty in Hd by done. case_decide as E; [done|].
    split; [unfold is_dirty in *; by rewrite <-D|]. intros x' Hx'. split.
    + unfold cell_at, dirty. cbn. rewrite Gw. apply (rc_outside _ _ _ _ R); [nia|].
      destruct (Z.lt_total y' y) as [|[|]]; nia.
    + unfold is_cursor_at, dirty. cbn. by rewrite V, X, Y.
  - intros Hc. left. rewrite <-W. exact Hc.
Qed.
Lemma clear_line_inv x y len k a k' :
  0 ≤ x → 0 ≤ y → 0 ≤ console_width k → 0 ≤ len → x + len ≤ console_width k →
  clear_line_at x y len k = Done a k' → tracks k k' ∧ cursor k' = cursor k ∧ is_dirty k' y = true.
Proof.
  intros Hx Hy Hw Hl Hxl H. apply bind_Done in H as (? & ? & [= <- <-] & H).
  apply bind_Done in H as (? & k1 & H1 & H). apply mark_dirty_inv in H as [Hr ->].
  apply clear_cells_inv in H1; [|nia]. rewrite Z2Nat.id in H1 by done.
  destruct (recelled_fields _ _ _ _ H1) as (_ & Hc & _). split_and!; [|exact Hc|].
  - by apply (recelled_marked x y len).
  - rewrite is_dirty_dirty by done. by case_decide.
Qed.
Lemma keeps_clear_line x y len k :
  0 ≤ x → 0 ≤ y → 0 ≤ console_width k → 0 ≤ len → x + len ≤ console_width k → keeps (clear_line_at x y len) k.
Proof. intros ????? a k' H. by apply clear_line_inv in H as (? & _). Qed.

Lemma tracks_width k k' : tracks k k' → console_width k' = console_width k.
Proof. intros H. by apply geometry_width, H. Qed.
Lemma tracks_height k k' : tracks k k' → console_height k' = console_height k.
Proof. intros H. by apply geometry_height, H. Qed.
Lemma tracks_dirty k k' y : tracks k k' → on_screen k y → is_dirty k y = true → is_dirty k' y = true.
Proof.
  intros H Hy D. destruct (is_dirty k' y) eqn:E; [done|]. destruct (tr_lines _ _ H y Hy E). congruence.
Qed.
Lemma clear_lines_inv n y k a k' :
  0 ≤ y → 0 ≤ console_width k → clear_lines y n k = Done a k' →
  tracks k k' ∧ ∀ y', on_screen k y' → y ≤ y' < y + Z.of_nat n → is_dirty k' y' = true.
Proof.
  revert y k. induction n as [|n IH]; intros y k Hy Hw H; cbn [clear_lines] in H.
  { injection H as _ <-. split; [done|]. lia. }
  apply bind_Done in H as (? & ? & [= <- <-] & H). apply bind_Done in H as (? & k1 & H1 & H).
  apply clear_line_inv in H1 as (T1 & _ & D1); [|done || lia..].
  apply IH in H as [T2 D2]; [|lia|by rewrite (tracks_width _ _ T1)]. split; [by etrans|].
  intros y' Hy' Hr. assert (on_screen k1 y') as Hy1 by (unfold on_screen in *; by rewrite (tracks_height _ _ T1)).
  destruct (decide (y' = y)) as [->|]; [by apply (tracks_dirty _ _ _ T2)|]. apply D2; [done|lia].
Qed.
Lemma keeps_clear_lines n y k : 0 ≤ y → 0 ≤ console_width k → keeps (clear_lines y n) k.
Proof. intros ?? a k' H. by apply clear_lines_inv in H as [? _]. Qed.

(** When every line is marked nothing is left to track. *)
Lemma tracks_all k k' : geometry k' = geometry k → all_dirty k' → (inks k → inks k') → tracks k k'.
Proof.
  intros G A I. pose proof (geometry_height _ _ G) as Ht. constructor; [done| |by right|done].
  intros y Hy D. rewrite A in D; [done|]. unfold on_screen in *. by rewrite Ht.
Qed.
Lemma keeps_clear_screen k : 0 ≤ console_width k → keeps clear_screen k.
Proof.
  intros Hw a k' H. apply bind_Done in H as (? & ? & [= <- <-] & H). apply bind_Done in H as (? & k1 & H1 & H).
  apply clear_lines_inv in H1 as [T D]; [|done..]. injection H as _ <-. apply tracks_all; [apply T| |apply T].
  intros y [Hy0 Hy]. apply (D y); [|]; unfold on_screen; pose proof (tracks_height _ _ T) as Ht; cbn in Hy; lia.
Qed.

Lemma mark_lines_inv n y k a k' :
  0 ≤ y → mark_lines y n k = Done a k' →
  tracks k k' ∧ ∀ y', on_screen k y' → y ≤ y' < y + Z.of_nat n → is_dirty k' y' = true.
Proof.
  revert y k. induction n as [|n IH]; intros y k Hy H; cbn [mark_lines] in H.
  { injection H as _ <-. split; [done|]. lia. }
  apply bind_Done in H as (? & k1 & H1 & H). apply mark_dirty_inv in H1 as [R ->].
  assert (tracks k (dirty y k)) as T1.
  { constructor; [apply (dirty_draws y k)| |by left|done]. intros y' [Hy0 _] D.
    rewrite is_dirty_dirty in D by done. by case_decide. }
  apply IH in H as [T2 D2]; [|lia]. split; [by etrans|]. intros y' Hy' Hr.
  destruct (decide (y' = y)) as [->|]; [|apply D2; [done|lia]].
  apply (tracks_dirty _ _ _ T2); [done|]. rewrite is_dirty_dirty by done. by case_decide.
Qed.
Lemma keeps_scroll_up k : 0 ≤ console_width k → 0 < console_height k → keeps scroll_up k.
Proof.
  intros Hw Hh a k' H. apply bind_Done in H as (? & k1 & H1 & H).
  apply bind_Done in H1 as (? & ? & [= <- <-] & H1).
  cbv zeta in H1.
  destruct (_ <=? _)%nat eqn:E; [|done]. injection H1 as _ <-. apply Nat.leb_le in E.
  set (w := Z.to_nat (console_width k)) in *.
  set (n := Z.to_nat (console_width k * (console_height k - 1))) in *.
  set (k1 := with_cells _ k) in *.
  assert (geometry k1 = geometry k) as G1.
  { unfold geometry, k1. cbn. rewrite length_splice; [done|]. rewrite length_take, length_drop. lia. }
  assert (inks k → inks k1) as I1.
  { intros [Hc Hcol]. split; [|done]. unfold k1, splice. cbn.
    apply Forall_app; split; [|apply Forall_app; split]; eauto using Forall_take, Forall_drop. }
  apply bind_Done in H as (? & ? & [= <- <-] & H). apply bind_Done in H as (? & k2 & H2 & H).
  apply mark_lines_inv in H2 as [T2 D2]; [|done].
  pose proof (geometry_width _ _ G1) as W1. pose proof (geometry_height _ _ G1) as Ht1.
  pose proof (tracks_width _ _ T2) as W2. pose proof (tracks_height _ _ T2) as Ht2.
  apply clear_line_inv in H as (T3 & _ & D3); [|lia..]. pose proof (tracks_height _ _ T3) as Ht3.
  apply tracks_all; [by rewrite (tr_geometry _ _ T3), (tr_geometry _ _ T2)| |intros I; by apply T3, T2, I1].
  intros y [Hy0 Hy]. destruct (decide (y = console_height k1 - 1)) as [->|]; [done|].
  apply (tracks_dirty _ _ _ T3); [unfold on_screen; lia|]. apply D2; [unfold on_screen|]; lia.
Qed.

Lemma keeps_write_char x y c k :
  0 ≤ x < console_width k → 0 ≤ y → 0 ≤ c < 128 → keeps (write_char_at x y c) k.
Proof.
  intros Hx Hy Hc a k' H. apply bind_Done in H as (? & ? & [= <- <-] & H). apply bind_Done in H as (? & k1 & H1 & H).
  apply store_cell_inv in H1 as [Hi ->]. apply mark_dirty_inv in H as [Hr ->].
  apply (recelled_marked x y 1); [lia..| |done]. apply recelled_one; [done|]. intros I. by apply cell_ok_colored.
Qed.

(** ** Characters *)
Lemma keeps_clamp k : keeps clamp_cursor k.
Proof.
  apply keeps_get, keeps_when. intros _. apply keeps_bind; [apply keeps_set_cursor|].
  intros ? k1 _ _. apply keeps_modify. by apply tracks_quiet.
Qed.
Lemma keeps_move x y k : keeps (_ ← set_cursor x y; clamp_cursor) k.
Proof. apply keeps_bind; [apply keeps_set_cursor|]. intros. apply keeps_clamp. Qed.
Lemma keeps_put_char c k : console_ok k → 0 ≤ c < 128 → keeps (put_char c) k.
Proof.
  intros Hk Hc. pose proof (ok_x _ Hk) as Hx. pose proof (height_pos _ (ok_screen _ Hk)) as Hh.
  apply keeps_get, keeps_bind; [apply keeps_when; intros _; apply keeps_set_cursor|].
  intros ? k1 H1 T1.
  assert (0 ≤ cursor_x k1 < console_width k1 ∧ 0 ≤ cursor_y k1) as [Hx1 Hy1].
  { rewrite (tracks_width _ _ T1). destruct (stomp k); cbn [when] in H1.
    - apply set_cursor_inv in H1 as (_ & [Hy _] & ->). cbn. lia.
    - injection H1 as _ <-. split; [done|]. apply (ok_y _ Hk). }
  apply keeps_get, keeps_bind.
  { apply keeps_when. intros _. apply keeps_bind; [apply keeps_scroll_up; [lia|]|intros; apply keeps_set_cursor].
    by rewrite (tracks_height _ _ T1). }
  intros ? k2 H2 T2. apply keeps_get, keeps_bind; [|intros; apply keeps_set_cursor].
  assert (cursor_x k2 = cursor_x k1 ∧ 0 ≤ cursor_y k2) as [Hx2 Hy2].
  { destruct (console_height k1 <=? cursor_y k1); cbn [when] in H2.
    - apply bind_Done in H2 as (? & k3 & _ & H2). apply set_cursor_inv in H2 as (_ & [Hy _] & ->). cbn. done.
    - by injection H2 as _ <-. }
  apply keeps_write_char; [|done|done]. by rewrite Hx2, (tracks_width _ _ T2).
Qed.

Lemma ascii_printed c : 0 ≤ c < 256 → (127 <? u32 (schar c)) = false → 0 ≤ c < 128.
Proof.
  intros Hc. unfold schar. rewrite u8_small by done. destruct (c <? 128) eqn:E; bool_to_prop; [lia|].
  intros H. bool_to_prop. unfold u32, U32 in H. rewrite <-(Z.mod_add _ 1) in H by lia.
  rewrite Z.mod_small in H by lia. lia.
Qed.
Lemma keeps_handle_ground c k : console_ok k → 0 ≤ c < 256 → keeps (handle_ground c) k.
Proof.
  intros Hk Hc. apply keeps_get.
  apply keeps_if; intros _; [apply keeps_modify; by apply tracks_quiet|].
  apply keeps_if; intros _; [apply keeps_move|]. apply keeps_if; intros _; [apply keeps_move|].
  apply keeps_if; intros _.
  { apply keeps_bind; [apply keeps_when; intros _; apply keeps_set_cursor|]. intros. apply keeps_clamp. }
  apply keeps_if; intros _; [apply keeps_move|]. apply keeps_if; intros Hp; [apply keeps_ret|].
  apply keeps_bind; [apply keeps_put_char; [done|by apply ascii_printed]|]. intros. apply keeps_clamp.
Qed.
Lemma keeps_handle_state_esc c k : console_ok k → 0 ≤ c < 256 → keeps (handle_state_esc c) k.
Proof.
  intros Hk Hc. apply keeps_if; intros _.
  - apply keeps_bind; [|intros]; apply keeps_modify; by apply tracks_quiet.
  - apply keeps_bind; [apply keeps_modify; by apply tracks_quiet|]. intros ? k1 [= _ <-] _.
    apply keeps_handle_ground; [by apply console_ok_state|done].
Qed.

(** ** Control sequences *)
Lemma atoi_str_inv s (k : console) a k' : atoi_str s k = Done a k' → k' = k.
Proof. unfold atoi_str. destruct (atoi _ _); [|done..]. by intros [= _ <-]. Qed.
Lemma strtok_all_inv s sep (k : console) a k' : strtok_all s sep k = Done a k' → k' = k.
Proof. unfold strtok_all. destruct (tok_loop _ _ _ _ _); [|done..]. by intros [= _ <-]. Qed.
Lemma keeps_atoi {A} s (f : Z → K console A) k : (∀ n, keeps (f n) k) → keeps (n ← atoi_str s; f n) k.
Proof. intros Hf a k' H. apply bind_Done in H as (n & k1 & H1 & H). apply atoi_str_inv in H1 as ->. by eapply Hf. Qed.
Lemma keeps_tokens {A} s sep (f : list (list Z) → K console A) k :
  (∀ ts, keeps (f ts) k) → keeps (ts ← strtok_all s sep; f ts) k.
Proof. intros Hf a k' H. apply bind_Done in H as (n & k1 & H1 & H). apply strtok_all_inv in H1 as ->. by eapply Hf. Qed.
Lemma keeps_count {A} (f : Z → K console A) k : (∀ n, keeps (f n) k) → keeps (n ← count_param; f n) k.
Proof.
  intros Hf a k' H. apply bind_Done in H as (n & k1 & H1 & H).
  apply bind_Done in H1 as (? & ? & [= <- <-] & H1). apply bind_Done in H1 as (? & ? & H1 & [= <- <-]).
  apply atoi_str_inv in H1 as ->. by eapply Hf.
Qed.
Lemma cup_loop_inv i ts x y k a k' : cup_loop i ts x y k = Done a k' → k' = k.
Proof.
  revert i x y. induction ts as [|t ts IH]; intros i x y H; cbn [cup_loop] in H; [by injection H as _ <-|].
  destruct i as [|[|i]]; [..|by eapply IH];
    apply bind_Done in H as (? & ? & H1 & H); apply atoi_str_inv in H1 as ->; by eapply IH.
Qed.
Lemma tracks_colors fg bg k :
  (inks k → 0 ≤ fg < 16 ∧ 0 ≤ bg < 16) → tracks k (with_colors fg bg k).
Proof. intros Hc. apply tracks_quiet; try done. intros I. split; [apply I|by apply Hc]. Qed.
Lemma keeps_sgr_step num bold k : keeps (sgr_step num bold) k.
Proof.
  assert (∀ fg bg (b : bool), (inks k → 0 ≤ fg < 16 ∧ 0 ≤ bg < 16) →
    keeps (_ ← modify (with_colors fg bg); mret b) k) as Hcol.
  { intros fg bg b Hc. apply keeps_bind; [|intros; apply keeps_ret]. by apply keeps_modify, tracks_colors. }
  apply keeps_get. unfold between, DEFAULT_FG_COLOR, DEFAULT_BG_COLOR.
  repeat (apply keeps_if; intros ?; bool_to_prop); try apply keeps_ret; apply Hcol; intros (_ & Hf & Hb);
    (split; [|]; try done; try lia; destruct bold; rewrite u8_small by lia; lia).
Qed.
Lemma keeps_sgr_loop ts bold k : keeps (sgr_loop ts bold) k.
Proof.
  revert bold k. induction ts as [|t ts IH]; intros bold k; [apply keeps_ret|]. cbn [sgr_loop].
  apply keeps_atoi. intros n. apply keeps_bind; [apply keeps_sgr_step|]. intros. apply IH.
Qed.
Lemma tracks_visible b k : row_ok k (cursor_y k) → tracks k (dirty (cursor_y k) (with_visible b k)).
Proof.
  intros Hr. constructor; [apply (dirty_draws (cursor_y k) (with_visible b k))| |by left|done].
  intros y [Hy _] D. rewrite is_dirty_dirty in D by done. case_decide as E; [done|]. split; [exact D|].
  intros x _. split; [done|]. unfold is_cursor_at. cbn. by rewrite (proj2 (Z.eqb_neq _ _) E), !andb_false_r.
Qed.
Lemma keeps_dectcem c k : keeps (handle_csi_dectcem c) k.
Proof.
  assert (∀ b, keeps (_ ← modify (with_visible b); mark_dirty (cursor_y k)) k) as Hv.
  { intros b a k' H. apply bind_Done in H as (? & ? & [= _ <-] & H). apply mark_dirty_inv in H as [Hr ->].
    by apply tracks_visible. }
  apply keeps_get. keeps_cases; auto using keeps_ret.
Qed.
Lemma keeps_csi_dispatch c k : console_ok k → keeps (csi_dispatch c) k.
Proof.
  intros Hk. pose proof (ok_x _ Hk) as Hx. pose proof (ok_y _ Hk) as [Hy _].
  assert (0 ≤ u32 (console_width k - cursor_x k) ∧ cursor_x k + u32 (console_width k - cursor_x k) ≤ console_width k) as [Hl Hr].
  { pose proof (u32_range (console_width k - cursor_x k)). pose proof (Z.mod_le (console_width k - cursor_x k) U32) as Hm.
    unfold u32 in *. change (0 < U32) with (0 < 4294967296) in Hm. lia. }
  assert (∀ k1 y n, tracks k k1 → 0 ≤ y → keeps (clear_lines y n) k1) as Hls.
  { intros k1 y n T Hy1. apply keeps_clear_lines; [done|]. rewrite (tracks_width _ _ T). lia. }
  unfold csi_dispatch. keeps_cases; [..|by apply keeps_ret].
  - apply keeps_count. intros n. apply keeps_get, keeps_if; intros _; apply keeps_set_cursor.
  - apply keeps_count. intros n. apply keeps_get, keeps_if; intros _; apply keeps_set_cursor.
  - apply keeps_count. intros n. apply keeps_get, keeps_if; intros _; apply keeps_set_cursor.
  - apply keeps_count. intros n. apply keeps_get, keeps_if; intros _; apply keeps_set_cursor.
  - apply keeps_get, keeps_atoi. intros n. apply keeps_set_cursor.
  - apply keeps_get, keeps_tokens. intros ts. apply keeps_bind.
    { apply keeps_pure. intros a k'. apply cup_loop_inv. }
    intros [x y] k1 _ _. apply keeps_set_cursor.
  - apply keeps_get, keeps_atoi. intros n. keeps_cases; [| |apply keeps_clear_screen; lia|apply keeps_ret].
    + apply keeps_bind; [apply keeps_clear_line; lia|]. intros ? k1 _ T. apply Hls; [done|lia].
    + apply keeps_bind; [apply keeps_when; intros _; by apply Hls|]. intros ? k1 _ T.
      pose proof (tracks_width _ _ T). apply keeps_clear_line; lia.
  - apply keeps_get, keeps_atoi. intros n.
    keeps_cases; [..|apply keeps_ret]; apply keeps_clear_line; lia.
  - apply keeps_get, keeps_if; intros _; [apply keeps_modify, tracks_colors; done|].
    apply keeps_tokens. intros ts. apply keeps_sgr_loop.
  - apply keeps_dectcem.
Qed.

Lemma keeps_on_char c k : console_ok k → 0 ≤ c < 256 → keeps (on_char c) k.
Proof.
  intros Hk Hc. apply keeps_get. destruct (state k); [by apply keeps_handle_ground|by apply keeps_handle_state_esc|].
  apply keeps_get, keeps_if; intros _; [by intros ? ? ?|].
  apply keeps_if; intros _; [apply keeps_modify; by apply tracks_quiet|].
  apply keeps_bind; [by apply keeps_csi_dispatch|]. intros. apply keeps_modify. by apply tracks_quiet.
Qed.

(** Bytes that a console can be given, one after the other. *)
Fixpoint writable (k : console) (s : list Z) : bool :=
  match s with
  | [] => true
  | c :: s =>
      (0 <=? c) && (c <? 256) && char_ok k c &&
      match on_char c k with Done _ k => writable k s | _ => false end
  end.
Lemma on_chars_tracks s k (Q : unit → console → Prop) :
  console_ok k → writable k s = true →
  (∀ k', on_chars s k = Done tt k' → console_ok k' → tracks k k' → Q tt k') → wp (on_chars s) Q k.
Proof.
  revert k Q. induction s as [|c s IH]; intros k Q Hk Hw HQ; cbn [on_chars writable] in *.
  { apply wp_ret. by apply HQ. }
  apply andb_true_iff in Hw as [Hw Hrest]. apply andb_true_iff in Hw as [Hw Hok]. bool_to_prop.
  pose proof (on_char_wp k c Hk ltac:(lia) Hok) as Hwp. apply wp_done in Hwp as ([] & k1 & H1 & Hk1 & _).
  rewrite H1 in Hrest. eapply wp_run; [exact H1|] || (apply wp_bind; eapply wp_run; [exact H1|]).
  apply IH; [done|done|]. intros k' H' Hk' T. apply HQ; [|done|].
  - by rewrite (bind_run _ _ _ _ _ H1).
  - etrans; [|exact T]. exact (keeps_on_char c k Hk ltac:(lia) _ _ H1).
Qed.

(** ** Clearing the whole screen *)
Lemma draws_blank k k' : draws k k' → blank k' = blank k.
Proof. apply draws_colored. Qed.
Lemma wp_clear_lines_blank n y k (Q : unit → console → Prop) :
  screen_ok k → 0 ≤ y → y + Z.of_nat n = console_height k →
  Forall (λ c, c = blank k) (take (Z.to_nat (y * console_width k)) (cells k)) →
  (∀ k', draws k k' → cursor k' = cursor k → Forall (λ c, c = blank k) (cells k') → Q tt k') → wp (clear_lines y n) Q k.
Proof.
  revert y k. induction n as [|n IH]; intros y k Hk Hy Hn Hc HQ; cbn [clear_lines]; wp_keep;
    pose proof (cells_size _ Hk) as Hs; pose proof (width_pos _ Hk) as Hw.
  { apply HQ; [done|done|]. rewrite take_ge in Hc by (replace y with (console_height k) by lia; lia). done. }
  apply wp_clear_line; [done|lia..|]. intros Hd. set (k1 := cleared _ _ _ _) in *.
  pose proof (draws_width _ _ Hd) as Hw1. pose proof (draws_height _ _ Hd) as Hh1.
  apply IH; [by eapply draws_screen|lia|lia| |].
  - rewrite Hw1, (draws_blank _ _ Hd). unfold k1, cleared, dirty. cbn [cells with_dirty with_cells].
    set (p := Z.to_nat (0 + y * console_width k)). set (w := Z.to_nat (console_width k)).
    assert (p + w ≤ length (cells k))%nat as Hpw by (unfold p, w; nia).
    replace (Z.to_nat ((y + 1) * console_width k)) with (p + w)%nat by (unfold p, w; nia).
    unfold splice. rewrite app_assoc, take_app_length' by (rewrite length_app, length_take, length_replicate; lia).
    apply Forall_app. split; [exact Hc|]. by apply Forall_replicate.
  - intros k' Hd' Hcur Hall. apply HQ; [by etrans|exact Hcur|]. by rewrite (draws_blank _ _ Hd) in Hall.
Qed.
Lemma wp_clear_screen k (Q : unit → console → Prop) :
  screen_ok k →
  (∀ k', draws k k' → cursor k' = cursor k → Forall (λ c, c = blank k) (cells k') → all_dirty k' → Q tt k') →
  wp clear_screen Q k.
Proof.
  intros Hk HQ. pose proof (width_pos _ Hk) as Hw. pose proof (height_pos _ Hk) as Hh. unfold clear_screen. wp_keep.
  assert (wp (clear_lines 0 (Z.to_nat (console_height k))) (λ _ k', draws k k' ∧ cursor k' = cursor k ∧ Forall (λ c, c = blank k) (cells k')) k) as Hwp.
  { apply wp_clear_lines_blank; [done|lia|lia|by rewrite Z.mul_0_l|done]. }
  apply wp_done in Hwp as ([] & k1 & H1 & Hd & Hcur & Hall). eapply wp_run; [exact H1|]. wp_keep.
  apply clear_lines_inv in H1 as [T D]; [|lia..]. pose proof (tracks_height _ _ T) as Ht.
  apply HQ; [exact Hd|exact Hcur|done|]. intros y [Hy0 Hy]. cbn in Hy. apply D; unfold on_screen; lia.
Qed.
