(* ===== verification/Screen.v ===== *)
(** * The pixels of the frame buffer console (kernel/console/fb_console.c)

    How the cells of the console become pixels: [flush] draws the lines that are
    marked, glyph by glyph, and a write to /dev/tty ends with it. [screen] has the
    console of Console.v, the words of the mapped frame buffer and the mutex of the
    driver. The frame buffer is an array of words: a pitch that is no multiple of
    four bytes is outside the model. The main theorem is that after a write the
    screen shows the cells and the cursor, whatever was marked before. *)
From S2P Require Import Prelude.
From S2P Require Import CString.
From S2P Require Import CLib.
From S2P Require Import Lock.
From S2P Require Import Qoi.
From S2P Require Import Psf.
From S2P Require Import Console.
From S2P Require Import Redraw.

Definition palette : list Z :=
  [0x000000; 0xcc0000; 0x4e9a06; 0xc4a000; 0x3465a4; 0x75507b; 0xff7300; 0xFFFFFF;
   0x555753; 0xef2929; 0x8ae234; 0xfce94f; 0x729fcf; 0xad7fa8; 0x34e2e2; 0xeeeeec].

Record screen : Type := Screen { tty : console; fb : list Z; tty_lock : mutex }.
Definition set_tty (k : console) (s : screen) : screen := Screen k (fb s) (tty_lock s).
Definition set_fb (l : list Z) (s : screen) : screen := Screen (tty s) l (tty_lock s).
Definition in_tty {A} (m : K console A) : K screen A := zoom tty set_tty m.
Definition in_lock {A} (m : K mutex A) : K screen A := zoom tty_lock (λ l s, Screen (tty s) (fb s) l) m.

(** Reading a word of a glyph and writing a word at an offset of the frame
    buffer. *)
Definition glyph_word (fnt : font) (glyph : Z) : K screen Z :=
  if (0 <=? glyph) && (glyph + 4 <=? Z.of_nat (length (glyphs fnt)))
  then mret (le_value (take 4 (drop (Z.to_nat glyph) (glyphs fnt)))) else undef.
Definition store_word (offset v : Z) : K screen unit :=
  s ← get;
  if (offset mod 4 =? 0) && in_bounds (fb s) (offset / 4)
  then put (set_fb (<[Z.to_nat (offset / 4) := v]> (fb s)) s) else undef.
Definition memset32 (c n : Z) : K screen unit :=
  s ← get;
  if (0 <=? n) && (n <=? Z.of_nat (length (fb s)))
  then put (set_fb (splice 0 (replicate (Z.to_nat n) c) (fb s)) s) else undef.

Definition swapped (val : Z) : Z :=
  Z.lor (Z.lor (Z.lor (Z.land (Z.shiftr val 24) 0xff) (Z.land (u32 (Z.shiftl val 8)) 0xff0000))
    (Z.land (Z.shiftr val 8) 0xff00)) (Z.land (u32 (Z.shiftl val 24)) 0xff000000).
(** [swapped & (1 << (32 - px - 1))]; a shift by more than 31 has no meaning. *)
Definition pixel_bit (val px : Z) : K screen bool :=
  if px <? 32 then mret (negb (Z.land (swapped val) (Z.shiftl 1 (32 - px - 1)) =? 0)) else undef.

Section flush.
Context (fnt : font) (info : fb_info).

(** [n] pixels of a row are left from [px], the next one goes to [pixel]. *)
Fixpoint flush_pixels (fg bg glyph : Z) (n : nat) (px pixel : Z) : K screen unit :=
  match n with
  | O => mret tt
  | S n =>
      val ← glyph_word fnt glyph;
      b ← pixel_bit val px;
      _ ← store_word pixel (if b : bool then fg else bg);
      flush_pixels fg bg glyph n (px + 1) (pixel + 4)
  end.
Fixpoint flush_rows (fg bg : Z) (n : nat) (glyph row_addr : Z) : K screen unit :=
  match n with
  | O => mret tt
  | S n =>
      _ ← flush_pixels fg bg glyph (Z.to_nat (glyph_width fnt)) 0 row_addr;
      flush_rows fg bg n (glyph + bytes_per_glyph fnt / glyph_height fnt) (row_addr + fb_pitch info)
  end.
Definition flush_cell_at (x y : Z) (c : cell) : K screen unit :=
  s ← get;
  let k := tty s in
  let is_cursor := is_cursor_visible k && (x =? cursor_x k) && (y =? cursor_y k) in
  fg ← access (palette !! Z.to_nat (if is_cursor then cell_bg c else cell_fg c));
  bg ← access (palette !! Z.to_nat (if is_cursor then cell_fg c else cell_bg c));
  i ← access (ascii_to_glyph fnt !! Z.to_nat (u32 (schar (cell_ch c))));
  flush_rows fg bg (Z.to_nat (glyph_height fnt)) (u32 (i * bytes_per_glyph fnt))
    (u32 (x * glyph_width fnt * 4 + y * glyph_height fnt * fb_pitch info)).

(** [n] cells of line [y] are left from column [x]; [i] is the index of the next. *)
Fixpoint flush_cells (y : Z) (n : nat) (x i : Z) : K screen unit :=
  match n with
  | O => mret tt
  | S n =>
      s ← get;
      c ← access (cells (tty s) !! Z.to_nat i);
      _ ← flush_cell_at x y c;
      flush_cells y n (x + 1) (i + 1)
  end.
Definition mark_clean (y : Z) (k : console) : console :=
  with_dirty (<[Z.to_nat y := false]> (line_is_dirty k)) k.
Fixpoint flush_lines (n : nat) (y row_cells : Z) : K screen unit :=
  match n with
  | O => mret tt
  | S n =>
      s ← get;
      let width := console_width (tty s) in
      dirty ← access (line_is_dirty (tty s) !! Z.to_nat y);
      _ ← when dirty (_ ← flush_cells y (Z.to_nat width) 0 row_cells; in_tty (modify (mark_clean y)));
      flush_lines n (y + 1) (row_cells + width)
  end.
Definition flush : K screen unit :=
  s ← get;
  let k := tty s in
  _ ← when (whole_screen_should_be_cleared k)
        (color ← access (palette !! Z.to_nat (bg_color k));
         _ ← memset32 color (u32 (fb_pitch info * fb_height info) / 4);
         in_tty (modify (with_clear false)));
  flush_lines (Z.to_nat (console_height k)) 0 0.

(** A write to /dev/tty by process [current]. *)
Definition fb_console_device_write (current : nat) (buffer : list Z) : K screen Z :=
  _ ← in_lock (mutex_lock true current);
  _ ← in_tty (on_chars buffer);
  _ ← flush;
  _ ← in_lock (mutex_unlock current);
  mret (Z.of_nat (length buffer)).
End flush.

(** The part of fb_console_init behind the ioctl: the sizes, the cells and marks
    in fresh memory ([None]: kmalloc failed), the mapped frame buffer, the first
    drawing. Division by a zero size traps. *)
Definition fb_console_init (fnt : font) (info : fb_info) (bpp : Z)
    (fresh_cells : option (list cell)) (fresh_dirty : option (list bool)) (mapped : list Z) : K screen unit :=
  _ ← ASSERT (bpp =? 32);
  if (glyph_width fnt =? 0) || (glyph_height fnt =? 0) then undef
  else
    match fresh_cells, fresh_dirty with
    | Some cs, Some ds =>
        _ ← modify (λ s, Screen
              (Console (fb_width info / glyph_width fnt) (fb_height info / glyph_height fnt)
                 0 0 true STATE_GROUND DEFAULT_FG_COLOR DEFAULT_BG_COLOR cs ds false false [])
              mapped (tty_lock s));
        _ ← in_tty clear_screen;
        flush fnt info
    | _, _ => panic
    end.

(** ** Bits of a glyph *)
Lemma le_value_cons b l : le_value (b :: l) = b + 256 * le_value l.
Proof. done. Qed.
Lemma testbit_le_value l i j :
  Forall (λ b, 0 ≤ b < 256) l → 0 ≤ j < 8 →
  Z.testbit (le_value l) (8 * Z.of_nat i + j) = Z.testbit (nth i l 0) j.
Proof.
  intros Hl Hj. revert i. induction Hl as [|b l Hb Hl IH]; intros i.
  { destruct i; simpl; by rewrite !Z.bits_0. }
  assert (Z.lor (le_value l * 2 ^ 8) b = le_value (b :: l)) as <-.
  { rewrite le_value_cons, (lor_add (le_value l) 8 b) by (change (2 ^ 8) with 256; lia).
    change (2 ^ 8) with 256. lia. }
  rewrite Z.lor_spec. destruct i as [|i]; cbn [nth].
  - rewrite Z.mul_pow2_bits_low by lia. simpl. f_equal; lia.
  - rewrite Z.mul_pow2_bits, (testbit_high b 8) by (change (2 ^ 8) with 256; lia). rewrite orb_false_r.
    rewrite <-IH. f_equal. lia.
Qed.

Lemma land_bit a n : 0 ≤ n → (Z.land a (Z.shiftl 1 n) =? 0) = negb (Z.testbit a n).
Proof.
  intros Hn. rewrite Z.shiftl_1_l. apply eq_true_iff_eq. rewrite Z.eqb_eq, negb_true_iff. split.
  - intros E. pose proof (f_equal (λ z, Z.testbit z n) E) as E'. cbv beta in E'.
    rewrite Z.land_spec, Z.pow2_bits_true, Z.bits_0, andb_true_r in E' by done. done.
  - intros E. apply Z.bits_inj'. intros m Hm. rewrite Z.land_spec, Z.bits_0.
    destruct (decide (m = n)) as [->|]; [by rewrite E|].
    rewrite Z.pow2_bits_false by lia. apply andb_false_r.
Qed.
Lemma swapped_bit val px :
  0 ≤ px < 32 → Z.testbit (swapped val) (31 - px) = Z.testbit val (8 * (px / 8) + (7 - px mod 8)).
Proof.
  intros Hp. unfold swapped, u32. change U32 with (2 ^ 32).
  assert (∀ n, (n < 32)%nat → px = Z.of_nat n →
    Z.testbit (swapped val) (31 - px) = Z.testbit val (8 * (px / 8) + (7 - px mod 8))) as H.
  2:{ apply (H (Z.to_nat px)); lia. }
  intros n Hn ->. unfold swapped, u32. change U32 with (2 ^ 32).
  do 32 (destruct n as [|n]; [
    rewrite !Z.lor_spec, !Z.land_spec, !Z.shiftr_spec, !Z.mod_pow2_bits_low, !Z.shiftl_spec by (vm_compute; done);
    match goal with |- _ = ?b => set (r := b) end; cbn; subst r;
    rewrite ?andb_false_r, ?andb_true_r, ?orb_false_r, ?orb_false_l; reflexivity|]).
  lia.
Qed.

(** ** What the screen should show *)
Definition color_of (n : Z) : Z := nth (Z.to_nat n) palette 0.
(** The bit of the glyph of character [c] at column [px] of row [py]. *)
Definition glyph_bit (fnt : font) (c px py : Z) : bool :=
  let i := nth (Z.to_nat c) (ascii_to_glyph fnt) 0 in
  let row := i * bytes_per_glyph fnt + py * (bytes_per_glyph fnt / glyph_height fnt) in
  Z.testbit (nth (Z.to_nat (row + px / 8)) (glyphs fnt) 0) (7 - px mod 8).
(** The colour of pixel [X], [Y]: that of the foreground or background of its
    cell, exchanged under the cursor. *)
Definition expected (fnt : font) (k : console) (X Y : Z) : Z :=
  let x := X / glyph_width fnt in
  let y := Y / glyph_height fnt in
  let c := cell_at k x y in
  let set := glyph_bit fnt (cell_ch c) (X mod glyph_width fnt) (Y mod glyph_height fnt) in
  color_of (if xorb set (is_cursor_at k x y) then cell_fg c else cell_bg c).

(** A font whose glyphs are at most 32 pixels wide, with a glyph for every
    character that starts four bytes before the end of the bitmaps at least. *)
Record font_ok (fnt : font) : Prop := {
  fo_width : 0 < glyph_width fnt ≤ 32;
  fo_height : 0 < glyph_height fnt;
  fo_bytes : Forall (λ b, 0 ≤ b < 256) (glyphs fnt);
  fo_size : 0 ≤ bytes_per_glyph fnt ∧ Z.of_nat (length (glyphs fnt)) < U32;
  fo_table : length (ascii_to_glyph fnt) = 128%nat;
  fo_glyphs : Forall (λ i, 0 ≤ i ∧ i * bytes_per_glyph fnt +
    (glyph_height fnt - 1) * (bytes_per_glyph fnt / glyph_height fnt) + 4 ≤ Z.of_nat (length (glyphs fnt)))
    (ascii_to_glyph fnt);
}.
(** The cells fit in the frame buffer. *)
Record fits_in (fnt : font) (info : fb_info) (s : screen) : Prop := {
  fi_pitch : fb_pitch info mod 4 = 0;
  fi_size : Z.of_nat (length (fb s)) = fb_pitch info / 4 * fb_height info;
  fi_mapped : fb_pitch info * fb_height info < U32;
  fi_width : console_width (tty s) * glyph_width fnt ≤ fb_pitch info / 4;
  fi_height : console_height (tty s) * glyph_height fnt ≤ fb_height info;
}.

Section pixels.
Context (fnt : font) (info : fb_info).
Abbreviation gw := (glyph_width fnt).
Abbreviation gh := (glyph_height fnt).
Definition words : Z := fb_pitch info / 4.
Definition pix (l : list Z) (X Y : Z) : option Z := l !! Z.to_nat (Y * words + X).
Definition inside (X Y : Z) : Prop := 0 ≤ X < words ∧ 0 ≤ Y < fb_height info.
(** From [l] to [l'] the pixels in [P] got the colours of [f]. *)
Definition painted (f : Z → Z → Z) (P : Z → Z → Prop) (l l' : list Z) : Prop :=
  length l' = length l ∧ ∀ X Y, inside X Y →
    (P X Y → pix l' X Y = Some (f X Y)) ∧ (¬ P X Y → pix l' X Y = pix l X Y).

Lemma painted_refl f (P : Z → Z → Prop) l : (∀ X Y, inside X Y → ¬ P X Y) → painted f P l l.
Proof. intros HP. split; [done|]. intros X Y Hi. split; [|done]. intros H. by destruct (HP X Y Hi). Qed.
Lemma painted_trans f (P Q R : Z → Z → Prop) l l1 l2 :
  painted f P l l1 → painted f Q l1 l2 →
  (∀ X Y, inside X Y → R X Y ↔ P X Y ∨ Q X Y) →
  (∀ X Y, inside X Y → Q X Y ∨ ¬ Q X Y) → painted f R l l2.
Proof.
  intros [L1 H1] [L2 H2] HR HdQ. split; [congruence|]. intros X Y Hi.
  destruct (H1 X Y Hi) as [H1a H1b], (H2 X Y Hi) as [H2a H2b]. rewrite (HR X Y Hi).
  destruct (HdQ X Y Hi) as [HQ|HQ].
  - split; [intros _; by apply H2a|tauto].
  - split; [intros [HP|?]; [rewrite H2b by done; by apply H1a|done]|].
    intros Hn. rewrite H2b by done. apply H1b. tauto.
Qed.
Lemma painted_one f X0 Y0 v l :
  inside X0 Y0 → (Z.to_nat (Y0 * words + X0) < length l)%nat → v = f X0 Y0 →
  painted f (λ X Y, X = X0 ∧ Y = Y0) l (<[Z.to_nat (Y0 * words + X0) := v]> l).
Proof.
  intros [HX0 HY0] Hlen ->. split; [apply length_insert|]. intros X Y [HX HY]. unfold pix. split.
  - intros [-> ->]. by apply list_lookup_insert_eq.
  - intros Hne. apply list_lookup_insert_ne. intros E.
    assert (Y0 * words + X0 = Y * words + X) as E' by nia.
    destruct (Z.lt_trichotomy Y Y0) as [|[->|]]; nia.
Qed.

(** The parts of the state that drawing leaves alone. *)
Definition same_tty (s s' : screen) : Prop := tty s' = tty s ∧ tty_lock s' = tty_lock s.
#[local] Instance same_tty_refl : Reflexive same_tty.
Proof. by intros s. Qed.
#[local] Instance same_tty_trans : Transitive same_tty.
Proof. intros s1 s2 s3 [] []. split; congruence. Qed.
Definition paints f (P : Z → Z → Prop) (s : screen) (_ : unit) (s' : screen) : Prop :=
  same_tty s s' ∧ painted f P (fb s) (fb s').

Context (Hfont : font_ok fnt).

Lemma nth_take_drop {A} (l : list A) n g j (d : A) :
  (j < n)%nat → nth j (take n (drop g l)) d = nth (g + j) l d.
Proof.
  intros Hj. rewrite <-!(nth_lookup _ _ d) || rewrite !nth_lookup.
  rewrite lookup_take_lt by done. by rewrite lookup_drop.
Qed.
Lemma wp_glyph_word g s (Q : Z → screen → Prop) :
  0 ≤ g → g + 4 ≤ Z.of_nat (length (glyphs fnt)) →
  (∀ val, (∀ px, 0 ≤ px < 32 → Z.testbit (swapped val) (31 - px) =
      Z.testbit (nth (Z.to_nat (g + px / 8)) (glyphs fnt) 0) (7 - px mod 8)) → Q val s) →
  wp (glyph_word fnt g) Q s.
Proof.
  intros H1 H2 HQ. unfold glyph_word. rewrite (proj2 (Z.leb_le _ _) H1), (proj2 (Z.leb_le _ _) H2).
  wp_keep. apply HQ. intros px Hpx. rewrite swapped_bit by done.
  pose proof (Z.mod_pos_bound px 8 ltac:(lia)) as Hm. pose proof (Z_div_mod_eq_full px 8) as Hd.
  replace (px / 8) with (Z.of_nat (Z.to_nat (px / 8))) at 1 by lia.
  rewrite testbit_le_value by (try (apply Forall_take, Forall_drop, Hfont); lia).
  rewrite nth_take_drop by lia. do 2 f_equal. lia.
Qed.

Definition sized (s : screen) : Prop := fb_pitch info mod 4 = 0 ∧ Z.of_nat (length (fb s)) = words * fb_height info.
Lemma paints_sized f P s u s' : paints f P s u s' → sized s → sized s'.
Proof. intros [_ [HL _]] [H1 H2]. split; [done|]. by rewrite HL. Qed.
Lemma paints_trans f (P Q R : Z → Z → Prop) s s1 s2 u v :
  paints f P s u s1 → paints f Q s1 v s2 → (∀ X Y, inside X Y → R X Y ↔ P X Y ∨ Q X Y) →
  (∀ X Y, inside X Y → Q X Y ∨ ¬ Q X Y) → paints f R s v s2.
Proof. intros [Hs1 Hp1] [Hs2 Hp2] HR HQ. split; [by etrans|by eapply painted_trans]. Qed.
Lemma paints_nothing f (P : Z → Z → Prop) s : (∀ X Y, inside X Y → ¬ P X Y) → paints f P s tt s.
Proof. intros HP. split; [done|by apply painted_refl]. Qed.

Lemma wp_store_word f X0 Y0 v s :
  sized s → inside X0 Y0 → v = f X0 Y0 →
  wp (store_word (Y0 * fb_pitch info + 4 * X0) v) (paints f (λ X Y, X = X0 ∧ Y = Y0) s) s.
Proof.
  intros [Hm Hs] Hi Hv. pose proof Hi as [HX HY]. unfold words in *.
  assert (fb_pitch info = 4 * words) as Hp.
  { pose proof (Z_div_mod_eq_full (fb_pitch info) 4) as Hd. unfold words. lia. }
  assert (Y0 * fb_pitch info + 4 * X0 = (Y0 * words + X0) * 4) as -> by (rewrite Hp; ring).
  unfold store_word. wp_keep. rewrite Z.mod_mul, Z.div_mul by done.
  assert (0 ≤ Y0 * words + X0 < Z.of_nat (length (fb s))) as [Ha Hb] by (rewrite Hs; unfold words in *; nia).
  unfold in_bounds, in_array. rewrite (proj2 (Z.leb_le _ _) Ha), (proj2 (Z.ltb_lt _ _) Hb). cbn [andb]. simpl.
  wp_keep. split; [done|]. apply painted_one; [done| |done]. simpl. lia.
Qed.

Lemma wp_flush_pixels f fg bg g n px X0 Y0 s :
  sized s → 0 ≤ px → px + Z.of_nat n = gw → 0 ≤ X0 → X0 + gw ≤ words → 0 ≤ Y0 < fb_height info →
  0 ≤ g → g + 4 ≤ Z.of_nat (length (glyphs fnt)) →
  (∀ j, px ≤ j < gw → f (X0 + j) Y0 =
     if Z.testbit (nth (Z.to_nat (g + j / 8)) (glyphs fnt) 0) (7 - j mod 8) then fg else bg) →
  wp (flush_pixels fnt fg bg g n px (Y0 * fb_pitch info + 4 * (X0 + px)))
    (paints f (λ X Y, Y = Y0 ∧ X0 + px ≤ X < X0 + gw) s) s.
Proof.
  pose proof (fo_width _ Hfont) as Hw.
  revert px s. induction n as [|n IH]; intros px s Hs Hpx Hn HX HXw HY Hg Hg4 Hf; cbn [flush_pixels]; wp_keep.
  { apply paints_nothing. intros X Y _ Hr. lia. }
  apply wp_glyph_word; [done|done|]. intros val Hval. wp_keep.
  unfold pixel_bit. rewrite (proj2 (Z.ltb_lt px 32)) by lia. wp_keep.
  rewrite land_bit, negb_involutive by lia. replace (32 - px - 1) with (31 - px) by lia.
  rewrite Hval by lia.
  eapply wp_mono; [apply (wp_store_word f (X0 + px) Y0); [done|split; lia|by rewrite Hf by lia]|].
  intros [] s1 Hp1.
  replace (Y0 * fb_pitch info + 4 * (X0 + px) + 4) with (Y0 * fb_pitch info + 4 * (X0 + (px + 1))) by ring.
  eapply wp_mono; [apply IH; try done; [by eapply paints_sized|lia|lia|intros j Hj; apply Hf; lia]|].
  intros [] s2 Hp2. eapply paints_trans; [exact Hp1|exact Hp2| |]; intros X Y _; cbv beta; lia.
Qed.

Lemma wp_flush_rows f fg bg g n py X0 Y0 s :
  sized s → 0 ≤ py → py + Z.of_nat n = gh → 0 ≤ X0 → X0 + gw ≤ words → 0 ≤ Y0 → Y0 + gh ≤ fb_height info →
  0 ≤ g → g + (gh - 1) * (bytes_per_glyph fnt / gh) + 4 ≤ Z.of_nat (length (glyphs fnt)) →
  (∀ i j, py ≤ i < gh → 0 ≤ j < gw → f (X0 + j) (Y0 + i) =
     if Z.testbit (nth (Z.to_nat (g + i * (bytes_per_glyph fnt / gh) + j / 8)) (glyphs fnt) 0) (7 - j mod 8)
     then fg else bg) →
  wp (flush_rows fnt info fg bg n (g + py * (bytes_per_glyph fnt / gh)) ((Y0 + py) * fb_pitch info + 4 * X0))
    (paints f (λ X Y, X0 ≤ X < X0 + gw ∧ Y0 + py ≤ Y < Y0 + gh) s) s.
Proof.
  pose proof (fo_width _ Hfont) as Hw. pose proof (fo_height _ Hfont) as Hh. pose proof (fo_size _ Hfont) as [Hb _].
  assert (0 ≤ bytes_per_glyph fnt / gh) as Hq by (apply Z.div_pos; lia).
  revert py s. induction n as [|n IH]; intros py s Hs Hpy Hn HX HXw HY HYh Hg Hg4 Hf; cbn [flush_rows]; wp_keep.
  { apply paints_nothing. intros X Y _ Hr. lia. }
  eapply wp_mono.
  { pose proof (wp_flush_pixels f fg bg (g + py * (bytes_per_glyph fnt / gh)) (Z.to_nat gw) 0 X0 (Y0 + py) s) as H0.
    rewrite Z.add_0_r in H0. apply H0; try done; try lia; try nia. intros j Hj. apply Hf; lia. }
  intros [] s1 Hp1. cbv beta in Hp1.
  replace (g + py * (bytes_per_glyph fnt / gh) + bytes_per_glyph fnt / gh)
    with (g + (py + 1) * (bytes_per_glyph fnt / gh)) by ring.
  replace ((Y0 + py) * fb_pitch info + 4 * X0 + fb_pitch info)
    with ((Y0 + (py + 1)) * fb_pitch info + 4 * X0) by ring.
  eapply wp_mono; [apply IH; try done; [by eapply paints_sized|lia|lia|intros i j Hi Hj; apply Hf; lia]|].
  intros [] s2 Hp2. eapply paints_trans; [exact Hp1|exact Hp2| |]; intros X Y _; cbv beta; lia.
Qed.

Lemma in_block a q n : 0 < n → a / n = q ↔ q * n ≤ a < q * n + n.
Proof.
  intros Hn. pose proof (Z_div_mod_eq_full a n) as Hd. pose proof (Z.mod_pos_bound a n Hn) as Hm. split.
  - intros <-. lia.
  - intros Ha. symmetry. apply (Z.div_unique _ _ _ (a - q * n)); lia.
Qed.
Lemma block_div q j n : 0 ≤ j < n → (q * n + j) / n = q ∧ (q * n + j) mod n = j.
Proof.
  intros Hj. split; [apply in_block; lia|]. rewrite Z.add_comm, Z.mod_add by lia. by apply Z.mod_small.
Qed.
Lemma paints_iff f (P Q : Z → Z → Prop) s u s' :
  (∀ X Y, inside X Y → P X Y ↔ Q X Y) → paints f P s u s' → paints f Q s u s'.
Proof.
  intros HPQ [Hs [HL H1]]. split; [done|]. split; [done|]. intros X Y Hi.
  rewrite <-(HPQ X Y Hi). by apply H1.
Qed.
Lemma paints_fits f P s u s' : paints f P s u s' → fits_in fnt info s → fits_in fnt info s'.
Proof. intros [[Ht _] [HL _]] []. constructor; rewrite ?Ht, ?HL; done. Qed.
Lemma fits_sized s : fits_in fnt info s → sized s.
Proof. intros []. by split. Qed.
Lemma palette_lookup n : 0 ≤ n < 16 → palette !! Z.to_nat n = Some (color_of n).
Proof.
  intros Hn. unfold color_of. destruct (lookup_lt_is_Some_2 palette (Z.to_nat n)) as [v Hv]; [simpl; lia|].
  rewrite Hv. f_equal. symmetry. by apply nth_lookup_Some.
Qed.

Lemma wp_flush_cell x y s :
  fits_in fnt info s → cell_ok (cell_at (tty s) x y) →
  0 ≤ x < console_width (tty s) → 0 ≤ y < console_height (tty s) →
  wp (flush_cell_at fnt info x y (cell_at (tty s) x y))
    (paints (expected fnt (tty s)) (λ X Y, X / gw = x ∧ Y / gh = y) s) s.
Proof.
  intros Hfit (Hch & Hcf & Hcb) Hx Hy. pose proof (fo_width _ Hfont) as Hw. pose proof (fo_height _ Hfont) as Hh.
  pose proof (fo_size _ Hfont) as [Hb Hsz]. pose proof Hfit as [Hm Hsize Hmap Hfw Hfh].
  set (c := cell_at (tty s) x y) in *. unfold flush_cell_at. wp_keep.
  fold (is_cursor_at (tty s) x y). set (cur := is_cursor_at (tty s) x y).
  eapply wp_access; [apply palette_lookup; by destruct cur|]. wp_keep.
  eapply wp_access; [apply palette_lookup; by destruct cur|]. wp_keep.
  assert (u32 (schar (cell_ch c)) = cell_ch c) as ->.
  { unfold schar. rewrite u8_small by lia. rewrite (proj2 (Z.ltb_lt _ _)) by lia.
    apply u32_small. unfold U32. lia. }
  destruct (lookup_lt_is_Some_2 (ascii_to_glyph fnt) (Z.to_nat (cell_ch c))) as [i Hi].
  { rewrite (fo_table _ Hfont). lia. }
  eapply wp_access; [exact Hi|].
  pose proof (proj1 (Forall_lookup _ _) (fo_glyphs _ Hfont) _ _ Hi) as [Hi0 Hi4]. cbv beta in Hi4.
  assert (0 ≤ bytes_per_glyph fnt / gh) as Hq by (apply Z.div_pos; lia).
  assert (fb_pitch info = 4 * (fb_pitch info / 4)) as Hp by (pose proof (Z_div_mod_eq_full (fb_pitch info) 4); lia).
  assert (0 ≤ i * bytes_per_glyph fnt < U32) as Hg by nia.
  rewrite (u32_small (i * _)) by done.
  assert (x * gw * 4 + y * gh * fb_pitch info = (y * gh + 0) * fb_pitch info + 4 * (x * gw)) as -> by ring.
  assert (x * gw + gw ≤ fb_pitch info / 4) as HXw by nia.
  assert (y * gh + gh ≤ fb_height info) as HYh by nia.
  assert (0 ≤ y * gh) as HY0 by nia. assert (0 ≤ x * gw) as HX0 by nia.
  rewrite u32_small by nia.
  pose proof (wp_flush_rows (expected fnt (tty s)) (color_of (if cur then cell_bg c else cell_fg c))
    (color_of (if cur then cell_fg c else cell_bg c)) (i * bytes_per_glyph fnt) (Z.to_nat gh) 0 (x * gw) (y * gh) s) as H0.
  rewrite Z.mul_0_l, Z.add_0_r in H0.
  eapply wp_mono; [apply H0; clear H0; try done; try lia; first [by apply fits_sized|idtac]|].
  - intros r j Hr Hj. unfold expected.
    destruct (block_div x j gw) as [-> ->]; [lia|]. destruct (block_div y r gh) as [-> ->]; [lia|].
    fold c. fold cur. unfold glyph_bit. rewrite (nth_lookup_Some _ _ _ _ Hi).
    by destruct (Z.testbit _ _), cur.
  - intros [] s' Hp'. eapply paints_iff; [|exact Hp']. intros X Y _. cbv beta.
    rewrite !in_block by lia. rewrite Z.add_0_r. lia.
Qed.

Record drawable (k : console) : Prop := {
  dr_width : 0 < console_width k;
  dr_cells : Z.of_nat (length (cells k)) = console_width k * console_height k;
  dr_ok : Forall cell_ok (cells k);
  dr_dirty : console_height k ≤ Z.of_nat (length (line_is_dirty k));
}.
Lemma cell_at_lookup k x y :
  drawable k → 0 ≤ x < console_width k → 0 ≤ y < console_height k →
  cells k !! Z.to_nat (x + y * console_width k) = Some (cell_at k x y) ∧ cell_ok (cell_at k x y).
Proof.
  intros [] Hx Hy. destruct (lookup_lt_is_Some_2 (cells k) (Z.to_nat (x + y * console_width k))) as [c Hc]; [nia|].
  unfold cell_at. rewrite (nth_lookup_Some _ _ _ _ Hc). split; [done|].
  by eapply Forall_lookup_1.
Qed.

Lemma wp_flush_cells y n x s :
  fits_in fnt info s → drawable (tty s) → 0 ≤ x → x + Z.of_nat n = console_width (tty s) →
  0 ≤ y < console_height (tty s) →
  wp (flush_cells fnt info y n x (x + y * console_width (tty s)))
    (paints (expected fnt (tty s)) (λ X Y, x ≤ X / gw < console_width (tty s) ∧ Y / gh = y) s) s.
Proof.
  revert x s. induction n as [|n IH]; intros x s Hfit Hd Hx Hn Hy; cbn [flush_cells]; wp_keep.
  { apply paints_nothing. intros X Y _ Hr. lia. }
  destruct (cell_at_lookup (tty s) x y) as [Hc Hok]; [done|lia|done|].
  eapply wp_access; [exact Hc|]. wp_keep.
  eapply wp_mono; [apply wp_flush_cell; done || lia|]. intros [] s1 Hp1.
  pose proof Hp1 as [[Ht _] _]. cbv beta in *.
  replace (x + y * console_width (tty s) + 1) with (x + 1 + y * console_width (tty s1)) by (rewrite Ht; ring).
  eapply wp_mono; [apply IH; rewrite ?Ht; try done; [by eapply paints_fits|lia|lia]|].
  intros [] s2 Hp2. rewrite Ht in Hp2. eapply paints_trans; [exact Hp1|exact Hp2| |]; intros X Y _; cbv beta; lia.
Qed.

(** Some lines were drawn and marked as such. *)
Record drew (P : Z → Prop) (s : screen) (u : unit) (s' : screen) : Prop := {
  dw_tty : ∃ ds, tty s' = with_dirty ds (tty s) ∧ length ds = length (line_is_dirty (tty s));
  dw_done : ∀ y, 0 ≤ y < console_height (tty s) → P y → is_dirty (tty s') y = false;
  dw_keep : ∀ y, 0 ≤ y → ¬ P y → is_dirty (tty s') y = is_dirty (tty s) y;
  dw_lock : tty_lock s' = tty_lock s;
  dw_fb : painted (expected fnt (tty s)) (λ X Y, P (Y / gh) ∧ is_dirty (tty s) (Y / gh) = true ∧
    Y / gh < console_height (tty s) ∧ X / gw < console_width (tty s)) (fb s) (fb s');
}.
Lemma is_dirty_clean k y y' :
  0 ≤ y < Z.of_nat (length (line_is_dirty k)) → 0 ≤ y' →
  is_dirty (mark_clean y k) y' = if decide (y' = y) then false else is_dirty k y'.
Proof.
  intros Hy Hy'. unfold is_dirty, mark_clean, with_dirty. cbn [line_is_dirty]. rewrite !nth_lookup.
  case_decide as E; [subst; by rewrite list_lookup_insert_eq by lia|].
  by rewrite list_lookup_insert_ne by lia.
Qed.
Lemma drew_fits P s u s' : drew P s u s' → fits_in fnt info s → fits_in fnt info s'.
Proof. intros [(ds & Ht & _) _ _ _ [HL _]] []. constructor; rewrite ?Ht, ?HL; done. Qed.
Lemma drew_drawable P s u s' : drew P s u s' → drawable (tty s) → drawable (tty s').
Proof.
  intros [(ds & Ht & HL) _ _ _ _] []. constructor; rewrite ?Ht; cbn [line_is_dirty with_dirty]; rewrite ?HL; done.
Qed.

Lemma drew_trans (P Q R : Z → Prop) s s1 s2 u v :
  (∀ y, R y ↔ P y ∨ Q y) → (∀ y, P y → ¬ Q y) → (∀ y, {Q y} + {¬ Q y}) →
  drew P s u s1 → drew Q s1 v s2 → drew R s v s2.
Proof.
  intros HR Hdis HQ [(ds1 & Ht1 & HL1) Hd1 Hk1 Hl1 Hf1] [(ds2 & Ht2 & HL2) Hd2 Hk2 Hl2 Hf2].
  assert (∀ y, console_height (tty s1) = console_height (tty s)) as Hh by (intros; by rewrite Ht1).
  assert (expected fnt (tty s1) = expected fnt (tty s)) as He by (by rewrite Ht1).
  assert (console_width (tty s1) = console_width (tty s)) as Hw by (by rewrite Ht1).
  rewrite He, Hw in Hf2. constructor.
  - exists ds2. rewrite Ht2, Ht1, HL2, Ht1. split; [done|]. cbn [line_is_dirty with_dirty]. done.
  - intros y Hy HRy. destruct (HQ y) as [HQy|HQy]; [apply Hd2; [by rewrite Hh|done]|].
    rewrite Hk2 by (done || lia). apply Hd1; [done|]. apply HR in HRy. tauto.
  - intros y Hy Hn. rewrite HR in Hn. rewrite Hk2, Hk1 by tauto. done.
  - congruence.
  - pose proof (fo_height _ Hfont) as Hgh. eapply painted_trans; [exact Hf1|exact Hf2| |].
    + intros X Y [HX HY]. cbv beta. rewrite Hh by done. rewrite HR.
      assert (0 ≤ Y / gh) as HYg by (apply Z.div_pos; lia).
      split; [|intros [?|(HQy & Hdy & ?)]; [tauto|]].
      * intros ([HP|HQy] & Hdy & Hr); [by left|]. right. split; [done|].
        rewrite Hk1; [done|done|]. intros HP. exact (Hdis _ HP HQy).
      * assert (¬ P (Y / gh)) as HP by (intros HP; exact (Hdis _ HP HQy)).
        rewrite Hk1 in Hdy by done. tauto.
    + intros X Y _. cbv beta. destruct (HQ (Y / gh)) as [HQy|HQy]; [|right; tauto].
      destruct (is_dirty (tty s1) (Y / gh)); [|right; intros (_ & ? & _); done].
      destruct (decide (Y / gh < console_height (tty s1) ∧ X / gw < console_width (tty s))); [left|right]; tauto.
Qed.

Lemma wp_flush_line y s (Q : unit → screen → Prop) :
  fits_in fnt info s → drawable (tty s) → 0 ≤ y < console_height (tty s) →
  (∀ s', drew (λ y', y' = y) s tt s' → Q tt s') →
  wp (access (line_is_dirty (tty s) !! Z.to_nat y)) (λ dirty, wp
      (when dirty (_ ← flush_cells fnt info y (Z.to_nat (console_width (tty s))) 0 (y * console_width (tty s));
                   in_tty (modify (mark_clean y)))) Q) s.
Proof.
  intros Hfit Hd Hy HQ. pose proof (dr_dirty _ Hd) as Hds. pose proof (dr_width _ Hd) as Hdw.
  pose proof (fo_width _ Hfont) as Hgw. wp_keep.
  destruct (lookup_lt_is_Some_2 (line_is_dirty (tty s)) (Z.to_nat y)) as [b Hb]; [lia|].
  assert (is_dirty (tty s) y = b) as Hby by (unfold is_dirty; by apply nth_lookup_Some).
  eapply wp_access; [exact Hb|]. destruct b; cbn [when].
  - wp_keep.
    pose proof (wp_flush_cells y (Z.to_nat (console_width (tty s))) 0 s Hfit Hd ltac:(lia) ltac:(lia) Hy) as Hw.
    rewrite Z.add_0_l in Hw. eapply wp_mono; [exact Hw|]. intros [] s1 [[Ht Hl] Hp]. cbv beta. unfold in_tty. wp_keep.
    apply HQ. unfold set_tty. constructor; cbn [tty fb tty_lock]; rewrite ?Ht.
    + eexists. split; [reflexivity|]. apply length_insert.
    + intros y' Hy' ->. rewrite is_dirty_clean by lia. by case_decide.
    + intros y' Hy' Hne. rewrite is_dirty_clean by lia. by case_decide.
    + done.
    + destruct Hp as [HL Hp]. split; [done|]. intros X Y Hi. destruct (Hp X Y Hi) as [H1a H1b].
      assert (0 ≤ X / gw) as HXg by (apply Z.div_pos; [apply Hi|lia]). split.
      * intros (HY & _ & _ & HX). apply H1a. split; [lia|done].
      * intros Hn. apply H1b. intros [HX HY]. apply Hn. rewrite HY. split_and!; try done; lia.
  - wp_keep. apply HQ. constructor; try done.
    + exists (line_is_dirty (tty s)). split; [by destruct (tty s)|done].
    + by intros y' _ ->.
    + apply painted_refl. intros X Y _ (-> & Hbad & _). congruence.
Qed.

Lemma wp_flush_lines n y s :
  fits_in fnt info s → drawable (tty s) → 0 ≤ y → y + Z.of_nat n = console_height (tty s) →
  wp (flush_lines fnt info n y (y * console_width (tty s))) (drew (λ y', y ≤ y' < console_height (tty s)) s) s.
Proof.
  revert y s. induction n as [|n IH]; intros y s Hfit Hd Hy Hn; cbn [flush_lines]; wp_keep.
  { constructor; try done; try lia.
    - exists (line_is_dirty (tty s)). split; [by destruct (tty s)|done].
    - apply painted_refl. intros X Y _ Hr. lia. }
  eapply wp_mono; [apply (wp_flush_line y s (λ _ s1,
    wp (flush_lines fnt info n (y + 1) (y * console_width (tty s) + console_width (tty s)))
       (drew (λ y', y ≤ y' < console_height (tty s)) s) s1)); [done|done|lia|]|].
  - intros s1 H1. pose proof (dw_tty _ _ _ _ H1) as (ds & Ht & _).
    assert (console_height (tty s1) = console_height (tty s)) as Hh by (by rewrite Ht).
    replace (y * console_width (tty s) + console_width (tty s)) with ((y + 1) * console_width (tty s1))
      by (rewrite Ht; cbn [console_width with_dirty]; ring).
    eapply wp_mono; [apply IH; [by eapply drew_fits|by eapply drew_drawable|lia|lia]|].
    intros [] s2 H2. rewrite Hh in H2. eapply drew_trans; [| | |exact H1|exact H2]; intros y'; cbv beta; try lia.
    destruct (decide (y + 1 ≤ y' < console_height (tty s))); [by left|by right].
  - intros b s1 H1. apply wp_bind. exact H1.
Qed.

(** ** The whole screen *)
(** The lines that are not marked show what they should; when the screen is to be
    cleared, all are marked. *)
Record in_sync (s : screen) : Prop := {
  sy_lines : ∀ X Y, inside X Y → X / gw < console_width (tty s) → Y / gh < console_height (tty s) →
    is_dirty (tty s) (Y / gh) = false → pix (fb s) X Y = Some (expected fnt (tty s) X Y);
  sy_clear : whole_screen_should_be_cleared (tty s) = true →
    ∀ y, 0 ≤ y < console_height (tty s) → is_dirty (tty s) y = true;
}.
(** Every pixel of every cell has its colour, and nothing is marked. *)
Record shown (s : screen) : Prop := {
  sh_pixels : ∀ X Y, inside X Y → X / gw < console_width (tty s) → Y / gh < console_height (tty s) →
    pix (fb s) X Y = Some (expected fnt (tty s) X Y);
  sh_clean : ∀ y, 0 ≤ y < console_height (tty s) → is_dirty (tty s) y = false;
  sh_clear : whole_screen_should_be_cleared (tty s) = false;
}.
(** The console but for the marks. *)
Definition unmarked (k : console) : console := with_clear false (with_dirty [] k).

Lemma wp_clear_phase s (Q : unit → screen → Prop) :
  fits_in fnt info s → drawable (tty s) → in_sync s → 0 ≤ bg_color (tty s) < 16 →
  (∀ s', fits_in fnt info s' → in_sync s' → tty s' = with_clear false (tty s) → tty_lock s' = tty_lock s → Q tt s') →
  wp (when (whole_screen_should_be_cleared (tty s))
        (color ← access (palette !! Z.to_nat (bg_color (tty s)));
         _ ← memset32 color (u32 (fb_pitch info * fb_height info) / 4);
         in_tty (modify (with_clear false)))) Q s.
Proof.
  intros Hfit Hd Hs Hb HQ. pose proof (fits_sized _ Hfit) as [Hp Hsize]. pose proof Hfit as [].
  destruct (whole_screen_should_be_cleared (tty s)) eqn:Ew; cbn [when].
  2:{ wp_keep. apply HQ; try done. destruct (tty s). cbn in *. by subst. }
  wp_keep. eapply wp_access; [by apply palette_lookup|]. wp_keep.
  pose proof (dr_width _ Hd) as Hdw. pose proof (dr_cells _ Hd) as Hdc. pose proof (fo_width _ Hfont) as Hgw.
  pose proof (fo_height _ Hfont) as Hgh.
  assert (0 < words) as Hwp by (unfold words; nia). assert (0 ≤ fb_height info) as HH by nia.
  assert (fb_pitch info = 4 * words) as Hpw by (pose proof (Z_div_mod_eq_full (fb_pitch info) 4); unfold words; lia).
  assert (u32 (fb_pitch info * fb_height info) / 4 = Z.of_nat (length (fb s))) as ->.
  { rewrite u32_small by nia. rewrite Hsize, Hpw. symmetry. apply (Z.div_unique _ _ _ 0); [lia|]. ring. }
  unfold memset32. wp_keep. rewrite (proj2 (Z.leb_le _ _)), Z.leb_refl by lia. cbn [andb]. unfold in_tty. wp_keep.
  set (l := splice _ _ _).
  assert (length l = length (fb s)) as HL.
  { apply length_splice. rewrite length_replicate. lia. }
  apply HQ; [| |done|done].
  - constructor; cbn; rewrite ?HL; done.
  - constructor; [|done]. intros X Y [HX HY] HXw HYh Hdirty.
    assert (0 ≤ Y / gh) as HYg by (apply Z.div_pos; lia).
    pose proof (sy_clear _ Hs Ew (Y / gh) (conj HYg HYh)) as Hbad. change (is_dirty (tty s) (Y / gh) = false) in Hdirty.
    congruence.
Qed.

(** [flush] makes an in-sync screen show its console, of which only marks
    change. *)
Lemma wp_flush s (Q : unit → screen → Prop) :
  fits_in fnt info s → drawable (tty s) → in_sync s → 0 ≤ bg_color (tty s) < 16 →
  (∀ s', fits_in fnt info s' → shown s' → unmarked (tty s') = unmarked (tty s) →
     length (line_is_dirty (tty s')) = length (line_is_dirty (tty s)) →
     tty_lock s' = tty_lock s → Q tt s') → wp (flush fnt info) Q s.
Proof.
  intros Hfit Hd Hs Hb HQ. unfold flush. apply wp_bind, wp_get. cbv zeta. apply wp_bind.
  apply wp_clear_phase; [done..|]. intros s1 Hfit1 Hs1 Ht1 Hl1.
  assert (drawable (tty s1)) as Hd1 by (rewrite Ht1; by destruct Hd).
  replace (console_height (tty s)) with (console_height (tty s1)) by (by rewrite Ht1).
  pose proof (dr_cells _ Hd1) as Hc1. pose proof (dr_width _ Hd1) as Hw1.
  pose proof (wp_flush_lines (Z.to_nat (console_height (tty s1))) 0 s1 Hfit1 Hd1 ltac:(lia) ltac:(nia)) as Hwp.
  rewrite Z.mul_0_l in Hwp. eapply wp_mono; [exact Hwp|]. intros [] s2 H2. cbv beta.
  pose proof H2 as [(ds & Ht2 & HL2) Hdone Hkeep Hl2 [_ Hfb]].
  apply HQ; [by eapply drew_fits| | |rewrite Ht2; cbn; by rewrite HL2, Ht1|congruence].
  - constructor.
    + intros X Y Hi HX HY. pose proof (fo_height _ Hfont) as Hgh.
      assert (0 ≤ Y / gh) as HYg by (apply Z.div_pos; [apply Hi|lia]).
      rewrite Ht2 in HX, HY. destruct (Hfb X Y Hi) as [Ha Hk].
      replace (expected fnt (tty s2)) with (expected fnt (tty s1)) by (by rewrite Ht2).
      destruct (is_dirty (tty s1) (Y / gh)) eqn:E; [by apply Ha|].
      rewrite Hk by (intros (_ & ? & _); congruence). by apply Hs1.
    + intros y Hy. rewrite Ht2 in Hy. by apply Hdone.
    + by rewrite Ht2, Ht1.
  - by rewrite Ht2, Ht1.
Qed.

(** What a write leaves for the next one. *)
Record ready (s : screen) : Prop := {
  rd_fits : fits_in fnt info s;
  rd_console : console_ok (tty s);
  rd_inks : inks (tty s);
  rd_sync : in_sync s;
}.
Lemma ready_drawable k : console_ok k → inks k → drawable k.
Proof. intros [[] ?????] [? _]. by constructor. Qed.
Lemma shown_in_sync s : shown s → in_sync s.
Proof. intros [Hp _ Hc]. constructor; [auto|]. rewrite Hc. done. Qed.
Lemma console_ok_unmarked k k' :
  unmarked k' = unmarked k → length (line_is_dirty k') = length (line_is_dirty k) →
  console_ok k → inks k → console_ok k' ∧ inks k'.
Proof.
  intros E HL [[] ? ? ? ? ? ?] I. destruct k, k'. unfold unmarked, with_clear, with_dirty in E. cbn in *.
  injection E as -> -> -> -> -> -> -> -> -> -> ->. split; [|exact I].
  constructor; cbn; try done; [constructor; cbn; try done; by rewrite HL|]. unfold row_ok in *. cbn in *. by rewrite HL.
Qed.

(** Tracking is what the screen needs. *)
Lemma tracks_in_sync s k :
  fits_in fnt info s → in_sync s → tracks (tty s) k → in_sync (set_tty k s) ∧ fits_in fnt info (set_tty k s).
Proof.
  intros [] [Hl Hc] T. pose proof (tracks_width _ _ T) as W. pose proof (tracks_height _ _ T) as Ht. split.
  2:{ constructor; cbn; rewrite ?W, ?Ht; done. }
  pose proof (fo_height _ Hfont) as Hgh. pose proof (fo_width _ Hfont) as Hgw. constructor; cbn [tty fb set_tty].
  - intros X Y Hi HX HY D. rewrite W in HX. rewrite Ht in HY.
    assert (0 ≤ Y / gh ∧ 0 ≤ X / gw) as [HYg HXg] by (split; apply Z.div_pos; apply Hi || lia).
    destruct (tr_lines _ _ T (Y / gh)) as [D0 Hsame]; [by split|done|].
    rewrite (Hl X Y Hi HX HY D0). destruct (Hsame (X / gw)) as [Ec Eu]; [done|].
    unfold expected. by rewrite Ec, Eu.
  - intros C y [Hy0 Hy]. rewrite Ht in Hy. destruct (tr_clear _ _ T C) as [C0|A].
    + apply (tracks_dirty _ _ _ T); [by split|]. by apply Hc.
    + apply A. unfold on_screen. lia.
Qed.

Lemma wp_device_write current n buffer s (Q : Z → screen → Prop) :
  ready s → writable (tty s) buffer = true → available current n (tty_lock s) →
  (∀ s' k, on_chars buffer (tty s) = Done tt k → unmarked (tty s') = unmarked k → tty_lock s' = tty_lock s →
     ready s' → shown s' → Q (Z.of_nat (length buffer)) s') →
  wp (fb_console_device_write fnt info current buffer) Q s.
Proof.
  intros [Hfit Hok Hi Hs] Hw Ha HQ. unfold fb_console_device_write, in_lock, in_tty. wp_keep.
  apply (wp_mutex_lock current n); [exact Ha|]. wp_keep. cbn [tty].
  apply on_chars_tracks; [done|done|]. intros k Hrun Hk T.
  destruct (tracks_in_sync s k Hfit Hs T) as [Hs1 Hf1]. pose proof (tr_inks _ _ T Hi) as Hik.
  set (s1 := set_tty k _).
  assert (fits_in fnt info s1) as Hf2 by (destruct Hf1; by constructor).
  assert (in_sync s1) as Hs2 by (destruct Hs1; by constructor).
  apply wp_bind, wp_flush; [done|by apply ready_drawable|done|apply Hik|].
  intros s2 Hf3 Hsh E HL Hlock. wp_keep. rewrite Hlock. cbn [tty_lock s1 set_tty].
  apply (wp_mutex_unlock current n (tty_lock s)); [exact Ha|]. wp_keep.
  destruct (console_ok_unmarked k (tty s2) E HL Hk Hik) as [Hk2 Hi2].
  apply (HQ _ k); [done|exact E|done| |].
  - constructor; cbn [tty]; [destruct Hf3; by constructor|done|done|]. apply shown_in_sync in Hsh. destruct Hsh. by constructor.
  - destruct Hsh. by constructor.
Qed.
End pixels.

(** ** The first drawing *)
Lemma wp_init fnt info cs ds mapped s (Q : unit → screen → Prop) :
  font_ok fnt → fb_pitch info mod 4 = 0 → fb_width info ≤ fb_pitch info / 4 →
  glyph_width fnt ≤ fb_width info → glyph_height fnt ≤ fb_height info →
  fb_pitch info * fb_height info < U32 →
  Z.of_nat (length mapped) = fb_pitch info / 4 * fb_height info →
  Z.of_nat (length cs) = fb_width info / glyph_width fnt * (fb_height info / glyph_height fnt) →
  fb_height info / glyph_height fnt ≤ Z.of_nat (length ds) →
  (∀ s', ready fnt info s' → shown fnt info s' →
     Forall (λ c, c = Cell (ch " ") DEFAULT_FG_COLOR DEFAULT_BG_COLOR) (cells (tty s')) → Q tt s') →
  wp (fb_console_init fnt info 32 (Some cs) (Some ds) mapped) Q s.
Proof.
  intros Hfont Hp Hwp Hgw Hgh Hmap Hm Hcs Hds HQ.
  pose proof (fo_width _ Hfont) as Hw. pose proof (fo_height _ Hfont) as Hh.
  unfold fb_console_init. rewrite Z.eqb_refl. cbn [ASSERT]. wp_keep.
  rewrite (proj2 (Z.eqb_neq _ _)), (proj2 (Z.eqb_neq _ _)) by lia. cbn [orb]. unfold in_tty. wp_keep. cbn [tty].
  set (k := Console _ _ _ _ _ _ _ _ _ _ _ _ _).
  assert (0 < fb_width info / glyph_width fnt ∧ 0 < fb_height info / glyph_height fnt) as [Hw0 Hh0].
  { split; apply Z.div_str_pos; lia. }
  assert (screen_ok k) as Hk by (constructor; cbn; lia).
  apply wp_clear_screen; [done|]. intros k1 Hd Hcur Hall Hdirty.
  pose proof (draws_width _ _ Hd) as Hw1. pose proof (draws_height _ _ Hd) as Hh1.
  assert (console_ok k1) as Hk1.
  { pose proof Hd as [_ [= Hst Hpb Hf Hb]]. injection Hcur as Hx Hy.
    constructor; rewrite ?Hx, ?Hy, ?Hpb, ?Hf, ?Hb, ?Hw1; cbn; try done; [by eapply draws_screen|].
    eapply draws_row; [exact Hd|]. unfold row_ok. cbn. lia. }
  assert (inks k1) as Hi1.
  { pose proof Hd as [_ [= _ _ Hf Hb]]. split; [|rewrite Hf, Hb; cbn; unfold DEFAULT_FG_COLOR, DEFAULT_BG_COLOR; lia].
    eapply Forall_impl; [exact Hall|]. intros c ->. by vm_compute. }
  set (s1 := set_tty k1 _).
  assert (fits_in fnt info s1) as Hfit.
  { pose proof (Z.mul_div_le (fb_width info) (glyph_width fnt)) as H1.
    pose proof (Z.mul_div_le (fb_height info) (glyph_height fnt)) as H2.
    constructor; cbn; rewrite ?Hw1, ?Hh1; cbn; try done; lia. }
  apply wp_flush; [done|done|by apply ready_drawable| |apply Hi1|].
  { assert (∀ y, 0 ≤ y → y < console_height k1 → is_dirty k1 y = true) as Hall' by (intros; by apply Hdirty).
    constructor; cbn [s1 tty set_tty]; [|intros _ y [? ?]; by apply Hall']. intros X Y [HX HY] _ HYh D.
    rewrite Hall' in D; [done|apply Z.div_pos; lia|done]. }
  intros s2 Hf2 Hsh E HL Hlock. destruct (console_ok_unmarked k1 (tty s2) E HL Hk1 Hi1) as [Hk2 Hi2].
  apply HQ; [|done|].
  - constructor; [done..|by apply shown_in_sync].
  - assert (cells (tty s2) = cells k1) as -> by exact (f_equal cells E). exact Hall.
Qed.

(** ** Theorems *)

(** C23: a write to /dev/tty returns, and then every pixel of every cell on the
    screen has the colour that the console's cell, the font and the cursor give
    it, no line is marked any more, and the screen is ready for the next write;
    the console is the one that the characters make of the old one. Before it,
    only the lines without a mark have to be right: the marks of the console
    cover all that its operations change. *)
Theorem write_shows_console fnt info current n buffer s :
  font_ok fnt → ready fnt info s → writable (tty s) buffer = true → available current n (tty_lock s) →
  wp (fb_console_device_write fnt info current buffer) (λ r s',
    r = Z.of_nat (length buffer) ∧ ready fnt info s' ∧ shown fnt info s' ∧ tty_lock s' = tty_lock s ∧
    ∃ k, on_chars buffer (tty s) = Done tt k ∧ unmarked (tty s') = unmarked k) s.
Proof.
  intros Hf Hr Hw Ha. eapply wp_device_write; [done|done|done|exact Ha|]. intros s' k Hrun E Hl Hr' Hs'.
  split_and!; [done..|]. by exists k.
Qed.

(** The first drawing, from any contents of the frame buffer, the cells and the
    marks: the screen shows a blank console. *)
Lemma init_shows_console fnt info cs ds mapped s :
  font_ok fnt → fb_pitch info mod 4 = 0 → fb_width info ≤ fb_pitch info / 4 →
  glyph_width fnt ≤ fb_width info → glyph_height fnt ≤ fb_height info →
  fb_pitch info * fb_height info < U32 →
  Z.of_nat (length mapped) = fb_pitch info / 4 * fb_height info →
  Z.of_nat (length cs) = fb_width info / glyph_width fnt * (fb_height info / glyph_height fnt) →
  fb_height info / glyph_height fnt ≤ Z.of_nat (length ds) →
  wp (fb_console_init fnt info 32 (Some cs) (Some ds) mapped) (λ _ s',
    ready fnt info s' ∧ shown fnt info s' ∧
    Forall (λ c, c = Cell (ch " ") DEFAULT_FG_COLOR DEFAULT_BG_COLOR) (cells (tty s'))) s.
Proof. intros. by apply wp_init. Qed.

(** ** Witnesses *)
(** Glyphs of eight by two pixels, one byte per row. *)
Definition tiny_font : font :=
  Font [0; 0; 129; 255; 24; 60; 0; 0; 0] 8 2 2 (<[65%nat := 1]> (<[66%nat := 2]> (replicate 128 0))).
Definition tiny_fb : fb_info := FbInfo 256 64 6.
Definition tiny_screen : screen :=
  Screen (with_dirty [true; true; true] (small_screen 0 3 1)) (replicate 384 7) mutex_zero.
Lemma tiny_font_ok : font_ok tiny_font.
Proof.
  constructor; try (by vm_compute).
  - repeat (apply Forall_cons; split; [vm_compute; by split|]). by apply Forall_nil.
  - apply Forall_forall. intros i Hi.
    assert (i ∈ [0; 1; 2]) as Hi'.
    { cbn [tiny_font ascii_to_glyph] in Hi. apply list_elem_of_lookup in Hi as [j Hj].
      apply list_lookup_insert_Some in Hj as [(_ & <- & _) | [_ Hj]]; [set_solver|].
      apply list_lookup_insert_Some in Hj as [(_ & <- & _) | [_ Hj]]; [set_solver|].
      apply lookup_replicate in Hj as [-> _]. set_solver. }
    assert (i = 0 ∨ i = 1 ∨ i = 2) as [ -> | [ -> | -> ] ] by set_solver; by vm_compute.
Qed.
Lemma tiny_ready : ready tiny_font tiny_fb tiny_screen.
Proof.
  constructor.
  - constructor; by vm_compute.
  - destruct (small_screen_ok 0 3 1) as [[] ? ? ? ? ? ?]; [lia..|]. by constructor; [constructor|..].
  - split; [|by vm_compute]. apply Forall_replicate. by vm_compute.
  - assert (∀ y, 0 ≤ y < 3 → is_dirty (tty tiny_screen) y = true) as Hd.
    { intros y Hy. assert (y = 0 ∨ y = 1 ∨ y = 2) as [ -> | [ -> | -> ] ] by lia; reflexivity. }
    constructor; [|done]. intros X Y [_ HY] _ HYh D. rewrite Hd in D; [done|].
    split; [apply Z.div_pos; [apply HY|done]|exact HYh].
Qed.
Lemma write_shows_console_witness :
  wp (fb_console_device_write tiny_font tiny_fb 1 (lit "AB")) (λ r s',
    r = 2 ∧ ready tiny_font tiny_fb s' ∧ shown tiny_font tiny_fb s' ∧ tty_lock s' = mutex_zero ∧
    ∃ k, on_chars (lit "AB") (tty tiny_screen) = Done tt k ∧ unmarked (tty s') = unmarked k) tiny_screen.
Proof.
  apply (write_shows_console tiny_font tiny_fb 1 0 (lit "AB") tiny_screen);
    [exact tiny_font_ok|exact tiny_ready|by vm_compute|exact (available_zero 1)].
Defined.
Lemma init_shows_console_witness :
  wp (fb_console_init tiny_font tiny_fb 32 (Some (replicate 24 (Cell 9 9 99))) (Some (replicate 3 false)) (replicate 384 7))
    (λ _ s', ready tiny_font tiny_fb s' ∧ shown tiny_font tiny_fb s' ∧
       Forall (λ c, c = Cell (ch " ") DEFAULT_FG_COLOR DEFAULT_BG_COLOR) (cells (tty s'))) tiny_screen.
Proof. apply init_shows_console; try (by vm_compute). exact tiny_font_ok. Defined.

(** The first pixels of "A", in the third column of the second line. *)
Example draws_a :
  match fb_console_device_write tiny_font tiny_fb 1 (lit "A") tiny_screen with
  | Done _ s => take 8 (drop (2 * 64 + 24) (fb s)) =
      [0xffffff; 0; 0; 0; 0; 0; 0; 0xffffff]
  | _ => False
  end.
Proof. vm_compute. reflexivity. Qed.
(** Every pixel reads four bytes of the glyph: for the last glyph of a font they
    are partly behind the buffer. *)
Example last_glyph_is_read_behind_its_end :
  flush_cell_at (Font [0; 0; 129; 255; 24; 60] 8 2 2 (<[66%nat := 2]> (replicate 128 0))) tiny_fb 0 0
    (Cell (ch "B") 7 0) tiny_screen = Undef.
Proof. vm_compute. reflexivity. Qed.
